(* ===== verification/_CoqProject ===== *)
-Q . S2P
Prelude.v
DateTime.v
Cron.v
CronSpec.v
Types.v
Ordering.v
TransitionPlanner.v
ProviderCascade.v
CommandResume.v
SessionTarget.v
AccountLeases.v
Placement.v
SessionOutcome.v
LogSettings.v
Worktrees.v
Assignment.v
CheckoutAssignment.v
HostMessages.v
Registration.v
Inventory.v
Reconnect.v
HostLifecycle.v
Validation.v
SessionCreate.v
Ownership.v
PlaneSpec.v
Evolution.v
CheckoutPass.v
HostOwnership.v
SessionAdmission.v
WorkspaceFrame.v
ScheduleFire.v
Schedules.v
RepositoryDrain.v
DeleteGuards.v
Catalog.v
PlaneInvariant.v
Divergences.v
OutboundBuffer.v
LogStreaming.v
LogDelivery.v
Access.v
Auth.v
AuthSecurity.v
Revocation.v
RateLimit.v
Pages.v
