(* ===== verification/Prelude.v ===== *)
(** * Auto Harness: a verification library

    Auto Harness runs coding-agent sessions on a fleet of hosts.  A control
    plane (services/api) keeps sessions, worktrees, workspace slots, hosts, the
    provider catalog, schedules, accounts and leases; host daemons
    (services/host-daemon) connect to it over a WebSocket, register what they
    serve, receive [session:assign] frames and report back with [session:ack],
    [session:command-start] and [session:status]; requests and schedules admit
    sessions into a sharded queue.  This library models the core of the control
    plane, in the mode without a storage where the maps of [ControlPlaneState]
    are the whole state, its authentication and access control, the outbound
    buffer and log streamer of the daemon, and the pure libraries of
    modules/shared they decide with.

    ** How the parts interact

    A request passes the gate of [Access] and [Auth] and the limiter of
    [RateLimit], is validated ([Validation]) and enters the queue on one of four
    paths ([SessionCreate]); a due schedule ([ScheduleFire], [Schedules], at the
    instants of [Cron]) creates its session on the first of them.  A queued
    session waits in the order of [Ordering].  An assignment pass
    ([Assignment.assignQueued], and [CheckoutAssignment] for scheduled and
    workspace sessions) asks the planner ([Placement]) for candidate worktrees
    and routes; the planner resolves routes ([SessionTarget]) through the
    provider cascade ([ProviderCascade]), the command templates
    ([CommandResume]) and the account leases ([AccountLeases]).  The pass claims
    a worktree, checkout or slot ([Worktrees]), acquires a lease, marks the
    session running and sends a frame carrying the log settings
    ([LogSettings]).  A frame from a host ([HostMessages]) becomes an event of
    the transition planner ([TransitionPlanner]), whose effects the handler
    applies; the result a host reports is normalised first ([SessionOutcome]).
    Sweeps requeue unacknowledged assignments, time out overdue sessions and
    reclaim hosts that fell silent.  A registration frame ([Registration]) is
    merged into the operator's inventory ([Inventory]), reconciled with the
    sessions the host reports running ([Reconnect]) and rolled back when it
    fails; [HostLifecycle] composes these with disconnects, keepalives, drains
    and deletion.  Pausing or draining a repository ([RepositoryDrain]) closes
    it to the passes and to the schedules until its leases are gone.  Operators
    change what all of these refer to in the catalog ([Catalog]), from which an
    entry goes only when nothing refers to it ([DeleteGuards]), and clients read sessions
    and repositories a page at a time ([Pages]).  On the host, the output of a session is coalesced by
    [LogStreaming] and leaves through [OutboundBuffer].

    ** Files and sources (under src/)

    - [Prelude]: nullable fields, record update, JavaScript maps with insertion
      order ([JsMap]), stable sorting, [localeCompare] as a class with the laws
      of a total order, code-unit order as its instance.
    - [DateTime]: the UTC calendar of [Date], [toISOString], and [Date.parse] as
      the class [DateParse]; [iso_date_parse] is an instance with its laws.
    - [Cron]: modules/shared/src/cron.ts.
    - [Types]: the records of services/api/src/db/types.ts,
      db/plane-storage-types.ts, control-plane-types.ts, control-plane-state.ts
      and of modules/shared/src (session.ts, providers.ts, host-inventory.ts,
      host-runtime.ts and others), field by field.
    - [Ordering]: control-plane-ordering.ts (comparator, order keys, shard merge).
    - [TransitionPlanner]: session-transition-planner.ts, every event on the
      local and the durable path.
    - [ProviderCascade]: provider-cascade.ts, provider-cascade-scope.ts and
      scope-provider-accounts.ts of modules/shared/src.
    - [CommandResume]: modules/shared/src/command-resume.ts.
    - [SessionTarget]: control-plane-session-target.ts.
    - [AccountLeases]: control-plane-provider-account-leases.ts and
      control-plane-provider-account-capacity.ts.
    - [Placement]: queue-placement-planner.ts and the readiness, protocol and
      admission predicates it calls.
    - [SessionOutcome]: modules/shared/src/session-result.ts.
    - [LogSettings]: session-log-settings.ts and [assignLogSettings].
    - [Worktrees]: control-plane-worktrees.ts, control-plane-worktree-release.ts,
      control-plane-scheduled-lease.ts, control-plane-reconnect-session.ts,
      control-plane-infrastructure-retry.ts, the slot helpers and the
      persistence helpers of control-plane-state.ts.
    - [Assignment]: control-plane-assign.ts, control-plane-running-timeout.ts,
      control-plane-cancel-local.ts, control-plane-session-output-prompt.ts.
    - [CheckoutAssignment]: control-plane-scheduled-assign.ts and
      control-plane-workspace-assign.ts.
    - [HostMessages]: the session frames of control-plane-messages.ts with
      [applySessionStatus].
    - [Registration]: host-registration.ts, host-runtime.ts,
      host-capabilities.ts and slug.ts of modules/shared/src.
    - [Inventory]: control-plane-agent-registration.ts,
      control-plane-agent-hosts.ts, control-plane-worktree-names.ts.
    - [Reconnect]: the control-plane-reconnect-*.ts files and
      control-plane-terminal-hook-handoff.ts.
    - [HostLifecycle]: control-plane-agents.ts, control-plane-lifecycle.ts.
    - [Validation]: the session fields of modules/shared/src/validation.ts and
      scheduled-branch-ref.ts.
    - [SessionCreate]: control-plane-session-create.ts, -resume.ts, -clone.ts,
      -children.ts and the create path of control-plane-sessions.ts.
    - [ScheduleFire], [Schedules]: control-plane-schedule-fire.ts,
      control-plane-schedules.ts, control-plane-schedule-prompt.ts.
    - [RepositoryDrain]: control-plane-repository-admission.ts.
    - [DeleteGuards]: control-plane-delete-guards.ts,
      control-plane-command-delete-overrides.ts and the deletes of
      control-plane-{provider,command,repository}-delete.ts.
    - [Catalog]: control-plane-repos.ts, control-plane-providers.ts,
      control-plane-provider-accounts.ts and -prepare.ts,
      control-plane-commands.ts, control-plane-workspace-pools.ts; usage.ts and
      [repositoryUrlError] of modules/shared/src.
    - [OutboundBuffer]: ws-outbound-buffer.ts and the pump of ws-transport.ts of
      services/host-daemon/src.
    - [LogStreaming]: log-coalesce.ts and log-streamer.ts of the same.
    - [Access]: modules/shared/src/authz.ts, auth-policy.ts,
      local-routes-session-access.ts.
    - [Auth]: auth.ts, auth-accounts.ts, db/plane-storage-auth.ts,
      db/plane-storage-viewer-tickets.ts.
    - [RateLimit]: rate-limit.ts, local-rate-limit.ts.
    - [Pages]: control-plane-id-page.ts, control-plane-session-cursor.ts,
      control-plane-session-order.ts, control-plane-sessions-page.ts,
      control-plane-repository-cursor.ts, control-plane-repositories-page.ts.
    - Theorems about composed operations: [Ownership] (worktree ownership),
      [PlaneSpec] (passes, sweeps and frames), [Evolution] (how a session may
      change), [CheckoutPass] (the two other passes), [HostOwnership] (the
      host operations), [SessionAdmission] and [WorkspaceFrame] (the ways into
      the queue), [PlaneInvariant] (the step relation of the plane),
      [LogDelivery] (the log streamer), [AuthSecurity] (authentication),
      [Revocation] (revoked accounts under interleaved calls), [CronSpec] (what a
      cron expression means), and [Divergences] (runs that contradict a document).

    ** Conventions

    A definition has the name of the function, type or constant it translates;
    a name in lower case with underscores is a named piece of one.  State is
    passed explicitly: an operation takes the [ControlPlaneState] and returns
    the new one next to its result, and an object the source mutates in place
    is written back to the map that holds it.  [state.onHostMessage] appends to
    [Plane.outbox]; [queueSessionArchive] and the asynchronous assignment passes
    of other kinds append to lists of requests.  [None] as the result of an
    operation that can throw is the exception; the state next to it is what the
    exception leaves behind.  Clock, identifier factories and API keys are
    fields of the state, read and advanced as the source reads them.  Numbers
    are [Z]: every number the modelled code computes with is an integer of
    magnitude far below 2^53, which the bounds of the validators and the
    four-digit years of its timestamps ensure; the numbers of a request are
    integers.  Strings are sequences of code units below 256.

    An operation runs without interruption between two [await]s.  Without a
    storage the modelled [async] operations await nothing that other work can
    change, except a registration, which is modelled in the parts that other
    work may separate.  The authentication service awaits its storage: [Auth] has
    each call as it runs alone and the parts between its awaits, [Revocation]
    interleaves them.  A scan of its table and a query of its index read a
    replica that may lag behind the table.

    ** What the theorems show

    - The whole plane ([PlaneInvariant]): along every interleaving of requests,
      schedules, passes, frames, sweeps, cancellations, registrations, catalog
      changes and host losses, worktrees are exclusive ([worktree_exclusivity]) and a session
      that is over stays over ([terminal_status_absorbs]).
    - Passes, sweeps and frames: a pass places queued sessions in what is free
      and sends one frame for each ([assignment_pass_sound],
      [scheduled_pass_sound], [workspace_pass_sound]); the sweeps requeue or
      time out exactly the sessions they should ([ack_sweep_exact],
      [running_timeout_sweep_exact]); cancelling keeps the worktree and the account
      lease until the final report ([cancel_holds_until_report]); stale reports change nothing
      ([stale_report_inert]).
    - Admission: what each way into the queue stores
      ([admission_paths_sound]), a concurrency key is held once
      ([concurrency_key_exclusive]), the two create paths agree
      ([create_paths_agree]), a lineage stays within its budget
      ([lineage_budget]), an admitted workspace session fits the daemon's frame
      ([workspace_admission_fits]); validation accepts exactly the well-formed
      requests ([session_request_exact], [session_ref_shape]).
    - Schedules: stored schedules stay well formed and keep their owner
      ([schedule_invariant]), an occurrence fires once ([schedule_fires_once])
      and a due one fires, is passed over, or stays due for an error of its
      admission, exactly as [due_schedule_fires] lists; reopening a
      repository fires no occurrence that passed while it was closed
      ([opening_catches_nothing_up]), and a drain ends exactly when no lease is
      left ([drain_settles]).
    - Pages: a client that follows the cursors sees every selected session once and
      comes to an end ([session_pages_complete]), also while sessions come and go
      ([session_pages_stable]); likewise the keyset and the repository pages
      ([key_pages_complete], [repository_pages_complete]).  The client's fuel is the
      number of entries.
    - The catalog: an entry is deleted exactly when nothing refers to it
      ([catalog_delete_exact]), entries stay well formed and references resolved
      ([catalog_invariant]), and account leases stay below caps that change
      ([lease_cap_kept]).
    - Authentication and access: a revoked account is refused after the time
      to live of the cache and the lag of the storage ([revocation_bounded]), accepted cookies were signed for a live
      account ([session_accepted_sound], [session_cookie_roundtrip]), a viewer
      ticket is used once ([viewer_ticket_once]), a host-bound key is fenced
      ([bound_key_fenced]), the limiter is a fixed window ([rate_limit_exact]).
    - The daemon: the outbound buffer is a bounded FIFO that keeps what may not
      be dropped, message included but for a keepalive that a newer one replaces, and wakes whoever can go on ([buffer_fifo], [buffer_bounded],
      [retained_frame_kept], [no_lost_wakeup]); every piece of output is kept, or
      counted once as dropped, or capped, none waits without a timer and the loops end
      ([log_output_accounted], [log_drops_reported],
      [log_output_not_stranded], [log_loops_terminate]).
    - Planners and libraries: the planners refine declarative specifications
      ([prompt_placement_exact]), executables are the operator's
      ([route_executable_is_operators]), the lease cap holds
      ([lease_cap_invariant]), the shard merge is the sort of the
      sessions in its shards ([ordered_queue_reference]), a registration keeps the
      operator's settings but for the update policy and refuses what it documents ([registration_keeps_configuration],
      [registration_repositories_exact]), the next cron occurrence is the first
      instant the text of the expression selects ([next_occurrence_first]).
    - Where the code departs from what it says: a stepped day wildcard is
      ignored ([stepped_day_wildcard_ignored]), an overdue workspace assignment
      leaks its slot ([ack_sweep_leaks_slot]), a result can exceed its storage
      budget ([normalized_result_over_budget]), a cookie with an odd signature
      throws ([odd_signature_throws]), an aborted keepalive miscounts bytes
      ([coalesced_keepalive_leaks]), and the runs of [Divergences].

    ** Fuel

    [Cron.next_after] runs on [next_fuel], a bound on the iterations of the
    search over nine calendar years; [next_occurrence_first], on absent
    occurrences, shows that it is never what ends the search.  [Ordering.merge_loop] runs on
    the number of queued sessions, one per iteration, and [SessionOutcome]'s
    size loop on the number of files, one dropped per iteration; the theorems
    about them are stated of the results, so enough fuel is part of the proofs.
    The eviction loop of [OutboundBuffer] runs on one more than the queue's
    length and removes a frame per iteration, the search for the next live
    ticket on the number of cancelled ones.  The loops of [LogStreaming] run on
    the number of drops to report plus one and on three flushes;
    [log_loops_terminate] shows that both end before.

    ** Not modelled

    Durable storage (DynamoDB conditions and transactions, but for the account
    and ticket tables) and the durable variants of the operations, which drive
    it; hydration, the drains of a principal's sessions, retention, the encrypted
    cursors of durable pages; usage
    ingestion, archives, Slack and webhooks; HTTP routing and the WebSocket hub;
    the daemon's main loop, process supervision and spool; the web UI, the
    client and the infrastructure.  [supersedeSession] and [forceStatus] are
    called by nothing.  [new URL], [Date.parse], [localeCompare], bcrypt, SHA-256
    and HMAC belong to the platform and are parameters with the laws the code
    relies on. *)

From Stdlib Require Import ZArith Lia Permutation Sorted.
From stdpp Require Import base strings list gmap.

#[global] Set Default Goal Selector "!".
Local Open Scope Z_scope.

(** ** Optional values

    The source distinguishes an absent property ([undefined]) from an explicit
    [null].  Fields typed [T | undefined] are [option T]; fields typed
    [T | null | undefined] are [nullable T]. *)
Inductive nullable (A : Type) : Type :=
| Undef
| Null
| Val (a : A).
Arguments Undef {A}.
Arguments Null {A}.
Arguments Val {A} a.

#[global] Instance nullable_eq_dec `{EqDecision A} : EqDecision (nullable A).
Proof. solve_decision. Defined.

(** [x ?? undefined] as an option: both [null] and [undefined] are absent. *)
Definition nul_opt {A} (x : nullable A) : option A :=
  match x with Val a => Some a | _ => None end.

(** [x != null]: neither [null] nor [undefined]. *)
Definition nul_present {A} (x : nullable A) : bool :=
  match x with Val _ => true | _ => false end.

Definition is_some {A} (x : option A) : bool :=
  match x with Some _ => true | None => false end.

(** JavaScript truthiness of a string: the empty string is falsy. *)
Definition truthy (s : string) : bool := negb (bool_decide (s = ""%string)).

(** [x ? .. : ..] on an optional string: the string itself when it is present and not empty. *)
Definition truthy_opt (x : option string) : option string :=
  match x with Some s => if truthy s then Some s else None | None => None end.

Definition truthy_nul (x : nullable string) : option string := truthy_opt (nul_opt x).

(** [x ?? d]. *)
Definition opt_or {A} (x : option A) (d : A) : A :=
  match x with Some a => a | None => d end.

(** [x ?? y] where [y] may be absent too. *)
Definition opt_else {A} (x y : option A) : option A :=
  match x with Some a => Some a | None => y end.

(** A boolean property typed [true | undefined], as read by [x === true] or [if (x)]. *)
Definition is_true_opt (x : option bool) : bool :=
  match x with Some b => b | None => false end.

(** String equality [===]. *)
Definition str_eqb (a b : string) : bool := bool_decide (a = b).

Definition opt_str_eqb (a b : option string) : bool := bool_decide (a = b).

Lemma str_eqb_true a b : str_eqb a b = true <-> a = b.
Proof. apply bool_decide_eq_true. Qed.

Lemma str_eqb_refl a : str_eqb a a = true.
Proof. by apply str_eqb_true. Qed.

Lemma truthy_true s : truthy s = true <-> s <> ""%string.
Proof. unfold truthy. case_bool_decide; simpl; naive_solver. Qed.

Lemma truthy_opt_Some x s : truthy_opt x = Some s <-> x = Some s /\ s <> ""%string.
Proof.
  destruct x as [t|]; simpl; [|naive_solver].
  destruct (truthy t) eqn:E; [apply truthy_true in E; naive_solver|].
  split; [done|]. intros [[= ->] Hs]. apply truthy_true in Hs. congruence.
Qed.

Lemma truthy_nul_Some x s : truthy_nul x = Some s <-> x = Val s /\ s <> ""%string.
Proof.
  unfold truthy_nul. rewrite truthy_opt_Some. destruct x; simpl; naive_solver.
Qed.

(** ** Record update

    [r <| f := v |>] is the record [r] with the field read by the projection
    [f] replaced by [v].  A record type gives its eta-expansion once (an
    [Eta] instance); [derive_setter] then builds each field's [Setter]. *)
Class Eta (R : Type) := eta : R -> R.
Class Setter {R T : Type} (getter : R -> T) := set : (T -> T) -> R -> R.
Arguments set {R T} getter {_} _ _.

Ltac derive_setter :=
  lazymatch goal with
  | |- @Setter ?R ?T ?getter =>
      let inst := constr:(_ : Eta R) in
      let e := eval hnf in inst in
      let f := fresh "f" in
      let r := fresh "r" in
      unfold Setter; intros f r;
      let b := eval cbv beta in (e r) in
      lazymatch eval pattern (getter r) in b with
      | ?F _ => let t := eval cbv beta in (F (f (getter r))) in exact t
      end
  end.

Declare Scope record_update_scope.
Open Scope record_update_scope.
Notation "r <| f := v |>" := (set f (fun _ => v) r)
  (at level 1, left associativity) : record_update_scope.

(** ** JavaScript [Map]

    A [Map<string, V>] as the list of its entries in insertion order, because
    the source iterates maps ([values()], [keys()], [for .. of]) and sorts what
    it iterates with a stable sort.  [set] on a present key keeps the key's
    position; [delete] forgets it. *)
Module JsMap.

Definition t (V : Type) : Type := list (string * V).

Definition empty {V} : t V := [].

Fixpoint get {V} (k : string) (m : t V) : option V :=
  match m with
  | [] => None
  | (k', v) :: m' => if str_eqb k k' then Some v else get k m'
  end.

Definition has {V} (k : string) (m : t V) : bool := is_some (get k m).

Fixpoint set {V} (k : string) (v : V) (m : t V) : t V :=
  match m with
  | [] => [(k, v)]
  | (k', v') :: m' => if str_eqb k k' then (k', v) :: m' else (k', v') :: set k v m'
  end.

Definition delete {V} (k : string) (m : t V) : t V :=
  List.filter (fun e => negb (str_eqb k e.1)) m.

Definition keys {V} (m : t V) : list string := map fst m.
Definition values {V} (m : t V) : list V := map snd m.

(** Every key occurs once: the invariant of a [Map]. *)
Definition wf {V} (m : t V) : Prop := NoDup (keys m).

Section laws.
Context {V : Type}.
Implicit Types (m : t V) (k : string) (v : V).

Lemma get_set_eq k v m : get k (set k v m) = Some v.
Proof.
  induction m as [|[k' v'] m IH]; simpl; [by rewrite str_eqb_refl|].
  destruct (str_eqb k k') eqn:E; simpl; by rewrite E.
Qed.

Lemma get_set_ne k k' v m : k <> k' -> get k' (set k v m) = get k' m.
Proof.
  intros Hne. induction m as [|[j w] m IH]; simpl.
  - destruct (str_eqb k' k) eqn:E; [|done]. apply str_eqb_true in E. congruence.
  - destruct (str_eqb k j) eqn:E; simpl; [|by rewrite IH].
    apply str_eqb_true in E. subst j.
    destruct (str_eqb k' k) eqn:E'; [|done]. apply str_eqb_true in E'. congruence.
Qed.

Lemma get_set k k' v m :
  get k' (set k v m) = if decide (k = k') then Some v else get k' m.
Proof. case_decide; [subst; apply get_set_eq|by apply get_set_ne]. Qed.

Lemma get_delete_eq k m : get k (delete k m) = None.
Proof.
  induction m as [|[j w] m IH]; simpl; [done|].
  destruct (str_eqb k j) eqn:E; simpl; [done|]. by rewrite E.
Qed.

Lemma get_delete_ne k k' m : k <> k' -> get k' (delete k m) = get k' m.
Proof.
  intros Hne. induction m as [|[j w] m IH]; simpl; [done|].
  destruct (str_eqb k j) eqn:E; simpl; [|by rewrite IH].
  apply str_eqb_true in E. subst j.
  destruct (str_eqb k' k) eqn:E'; [|done]. apply str_eqb_true in E'. congruence.
Qed.

Lemma get_delete k k' m :
  get k' (delete k m) = if decide (k = k') then None else get k' m.
Proof. case_decide; [subst; apply get_delete_eq|by apply get_delete_ne]. Qed.

Lemma get_In k v m : get k m = Some v -> In (k, v) m.
Proof.
  induction m as [|[j w] m IH]; simpl; [done|].
  destruct (str_eqb k j) eqn:E; [|by auto].
  apply str_eqb_true in E. intros [= ->]. subst. by left.
Qed.

Lemma In_keys k v m : In (k, v) m -> In k (keys m).
Proof. intros H. apply in_map_iff. by exists (k, v). Qed.

Lemma In_get k v m : wf m -> In (k, v) m -> get k m = Some v.
Proof.
  unfold wf, keys. induction m as [|[j w] m IH]; simpl; [done|].
  rewrite NoDup_cons. intros [Hj Hm] [[= -> ->]|Hin]; [by rewrite str_eqb_refl|].
  destruct (str_eqb k j) eqn:E; [|by apply IH].
  apply str_eqb_true in E. subst j. exfalso. apply Hj.
  apply list_elem_of_In. by eapply In_keys.
Qed.

Lemma In_values_get m v : wf m -> In v (values m) -> exists k, get k m = Some v.
Proof.
  intros Hwf Hv. apply in_map_iff in Hv as [[k v'] [Heq Hin]]. simpl in Heq. subst v'.
  exists k. by apply In_get.
Qed.

Lemma get_In_values k v m : get k m = Some v -> In v (values m).
Proof. intros H. apply in_map_iff. exists (k, v). split; [done|]. by apply get_In. Qed.

Lemma keys_set k v m : keys (set k v m) = if decide (k ∈ keys m) then keys m else keys m ++ [k].
Proof.
  unfold keys. induction m as [|[j w] m IH]; simpl; [done|].
  destruct (str_eqb k j) eqn:E; simpl.
  - apply str_eqb_true in E. subst j. by rewrite decide_True by set_solver.
  - assert (k <> j) by (intros ->; by rewrite str_eqb_refl in E).
    rewrite IH. repeat case_decide; simpl; set_solver.
Qed.

Lemma wf_empty : wf (@empty V).
Proof. apply NoDup_nil_2. Qed.

Lemma wf_set k v m : wf m -> wf (set k v m).
Proof.
  unfold wf. rewrite keys_set. case_decide as Hk; [done|].
  intros Hm. apply NoDup_app. split; [done|]. split; [|apply NoDup_singleton].
  intros x Hx Hx'. apply list_elem_of_singleton in Hx' as ->. done.
Qed.

Lemma wf_filter p m : wf m -> wf (List.filter p m).
Proof.
  unfold wf, keys. induction m as [|[j w] m IH]; simpl; [done|].
  rewrite NoDup_cons. intros [Hj Hm]. destruct (p (j, w)); simpl; [|by apply IH].
  rewrite NoDup_cons. split; [|by apply IH].
  rewrite list_elem_of_In, in_map_iff in Hj |- *.
  intros [e [Heq Hin]]. apply Hj. exists e. apply filter_In in Hin as [Hin _]. done.
Qed.

Lemma wf_delete k m : wf m -> wf (delete k m).
Proof. apply wf_filter. Qed.

Lemma get_filter p m k v :
  wf m -> get k (List.filter p m) = Some v <-> get k m = Some v /\ p (k, v) = true.
Proof.
  unfold wf, keys. induction m as [|[j u] m IH]; simpl; [by intros; split; [|intros []]|].
  rewrite NoDup_cons. intros [Hj Hm]. specialize (IH Hm).
  assert (forall u, get j m = Some u -> False) as Hno.
  { intros u' Gu. apply Hj. apply list_elem_of_In. eapply In_keys. by apply get_In. }
  destruct (p (j, u)) eqn:Hp; simpl; destruct (str_eqb k j) eqn:E; simpl; try done; apply str_eqb_true in E; subst j.
  - split; [intros [= <-]; by split|by intros [[= <-] _]].
  - rewrite IH. split; [intros [G _]; by destruct (Hno v)|intros [[= <-] Hp']; congruence].
Qed.

Lemma set_entry j k v w m : In (j, w) (set k v m) -> (j = k /\ w = v) \/ In (j, w) m.
Proof.
  induction m as [|[i u] m IH]; simpl; [intros [[= -> ->]|[]]; by left|].
  destruct (str_eqb k i) eqn:E; simpl; [apply str_eqb_true in E; subst i|].
  - intros [[= -> ->]|Hin]; [by left|by right; right].
  - intros [[= -> ->]|Hin]; [by right; left|]. destruct (IH Hin); auto.
Qed.
End laws.

(** *** Refinement: an insertion-ordered map implements a finite map. *)
Definition to_gmap {V} (m : t V) : gmap string V := list_to_map m.

Lemma to_gmap_lookup {V} (m : t V) k : to_gmap m !! k = get k m.
Proof.
  unfold to_gmap. induction m as [|[j w] m IH]; simpl; [apply lookup_empty|].
  rewrite lookup_insert. unfold str_eqb.
  case_decide; case_bool_decide; [done|congruence|congruence|done].
Qed.

Lemma to_gmap_set {V} (m : t V) k v : to_gmap (set k v m) = <[k := v]> (to_gmap m).
Proof.
  apply map_eq. intros i. rewrite lookup_insert, !to_gmap_lookup, get_set.
  by repeat case_decide.
Qed.

Lemma to_gmap_delete {V} (m : t V) k : to_gmap (delete k m) = base.delete k (to_gmap m).
Proof.
  apply map_eq. intros i. rewrite lookup_delete, !to_gmap_lookup, get_delete.
  by repeat case_decide.
Qed.
End JsMap.

Create HintDb jsmap.
#[export] Hint Resolve JsMap.wf_empty JsMap.wf_set JsMap.wf_filter JsMap.wf_delete
  JsMap.get_set_eq JsMap.get_delete_eq JsMap.get_In_values : jsmap.
#[export] Hint Rewrite @JsMap.get_set_eq @JsMap.get_delete_eq : jsmap.

(** ** JavaScript [Set]

    A [Set<string>] as the list of its members in insertion order. *)
Definition set_has (x : string) (s : list string) : bool := existsb (str_eqb x) s.

(** [s.add(x)]. *)
Definition set_add (x : string) (s : list string) : list string :=
  if existsb (str_eqb x) s then s else (s ++ [x])%list.

(** [s.delete(x)]. *)
Definition set_delete (x : string) (s : list string) : list string :=
  List.filter (fun y => negb (str_eqb x y)) s.

(** [[...new Set(items)]], after the members of [seen]. *)
Fixpoint dedup (seen items : list string) : list string :=
  match items with
  | [] => seen
  | x :: rest => dedup (set_add x seen) rest
  end.

Lemma existsb_str_In x s : existsb (str_eqb x) s = true <-> In x s.
Proof.
  rewrite existsb_exists. split.
  - intros (y & Hy & E). apply str_eqb_true in E. by subst y.
  - intros H. exists x. split; [done|apply str_eqb_refl].
Qed.

Lemma set_has_In x s : set_has x s = true <-> In x s.
Proof. apply existsb_str_In. Qed.

Lemma set_has_not_In x s : set_has x s = false <-> ~ In x s.
Proof. rewrite <- set_has_In. destruct (set_has x s); intuition congruence. Qed.

Lemma set_add_In x y s : In y (set_add x s) <-> y = x \/ In y s.
Proof.
  unfold set_add. destruct (existsb (str_eqb x) s) eqn:E.
  - apply existsb_str_In in E. split; [auto|]. by intros [->|].
  - rewrite in_app_iff. simpl. intuition congruence.
Qed.

Lemma set_delete_In x y s : In y (set_delete x s) <-> y <> x /\ In y s.
Proof.
  unfold set_delete. rewrite filter_In, negb_true_iff. split.
  - intros [H E]. split; [|done]. intros ->. by rewrite str_eqb_refl in E.
  - intros [Hne H]. split; [done|]. destruct (str_eqb x y) eqn:E; [|done].
    apply str_eqb_true in E. congruence.
Qed.

Lemma set_add_NoDup x s : NoDup s -> NoDup (set_add x s).
Proof.
  intros H. unfold set_add. destruct (existsb (str_eqb x) s) eqn:E; [done|].
  apply NoDup_app. split; [done|]. split; [|apply NoDup_singleton].
  intros y Hy Hy'. apply list_elem_of_singleton in Hy' as ->. apply list_elem_of_In in Hy.
  apply existsb_str_In in Hy. congruence.
Qed.

Lemma dedup_In y seen items : In y (dedup seen items) <-> In y seen \/ In y items.
Proof.
  revert seen. induction items as [|x items IH]; intros seen; simpl; [tauto|].
  rewrite IH, set_add_In. intuition congruence.
Qed.

Lemma dedup_NoDup seen items : NoDup seen -> NoDup (dedup seen items).
Proof.
  revert seen. induction items as [|x items IH]; intros seen H; simpl; [done|].
  by apply IH, set_add_NoDup.
Qed.

(** ** String collation

    [String.prototype.localeCompare] is implementation-defined; ECMA-262 (22.1.3.12)
    requires a consistent comparator, a total order up to canonical equivalence.
    The development is proved against that contract. *)
Class LocaleCompare := localeCompare : string -> string -> Z.

Class LocaleCompareLaws (LC : LocaleCompare) : Prop := {
  lc_refl : forall a, localeCompare a a = 0;
  lc_sym : forall a b, Z.sgn (localeCompare a b) = - Z.sgn (localeCompare b a);
  lc_trans : forall a b c,
    localeCompare a b <= 0 -> localeCompare b c <= 0 -> localeCompare a c <= 0;
}.

(** Comparison by character code, the collation of the witnesses. *)
Fixpoint code_compare (a b : string) : Z :=
  match a, b with
  | EmptyString, EmptyString => 0
  | EmptyString, String _ _ => -1
  | String _ _, EmptyString => 1
  | String x a', String y b' =>
      match N.compare (Ascii.N_of_ascii x) (Ascii.N_of_ascii y) with
      | Eq => code_compare a' b'
      | Lt => -1
      | Gt => 1
      end
  end.

Definition code_order : LocaleCompare := code_compare.

Lemma code_compare_range a b :
  code_compare a b = -1 \/ code_compare a b = 0 \/ code_compare a b = 1.
Proof.
  revert b. induction a as [|x a IH]; intros [|y b]; simpl; auto.
  destruct (N.compare _ _); auto.
Qed.

Lemma code_compare_eq a b : code_compare a b = 0 <-> a = b.
Proof.
  revert b. induction a as [|x a IH]; intros [|y b]; simpl; try done.
  destruct (N.compare_spec (Ascii.N_of_ascii x) (Ascii.N_of_ascii y)) as [E|E|E].
  - assert (x = y) as ->.
    { rewrite <- (Ascii.ascii_N_embedding x), <- (Ascii.ascii_N_embedding y). by f_equal. }
    rewrite IH. naive_solver.
  - split; [done|]. intros [= -> ->]. lia.
  - split; [done|]. intros [= -> ->]. lia.
Qed.

Lemma code_compare_sym a b : code_compare a b = - code_compare b a.
Proof.
  revert b. induction a as [|x a IH]; intros [|y b]; simpl; try done.
  rewrite (N.compare_antisym (Ascii.N_of_ascii y)).
  destruct (N.compare (Ascii.N_of_ascii y) _); simpl; [apply IH|done|done].
Qed.

Lemma code_compare_trans a b c :
  code_compare a b <= 0 -> code_compare b c <= 0 -> code_compare a c <= 0.
Proof.
  revert b c. induction a as [|x a IH]; intros [|y b] [|z c]; simpl; try lia.
  destruct (N.compare_spec (Ascii.N_of_ascii x) (Ascii.N_of_ascii y)) as [E1|E1|E1];
    destruct (N.compare_spec (Ascii.N_of_ascii y) (Ascii.N_of_ascii z)) as [E2|E2|E2];
    destruct (N.compare_spec (Ascii.N_of_ascii x) (Ascii.N_of_ascii z)) as [E3|E3|E3];
    try lia; eauto.
Qed.

#[global] Instance code_order_laws : LocaleCompareLaws code_order.
Proof.
  split; unfold localeCompare, code_order.
  - intros a. by apply code_compare_eq.
  - intros a b. rewrite (code_compare_sym a b). lia.
  - apply code_compare_trans.
Qed.

(** [a || b] on comparator results: the first one that is not zero. *)
Definition cmp_or (a b : Z) : Z := if a =? 0 then b else a.

(** ** Comparators and sorting *)
Record TotalPreorder {A : Type} (cmp : A -> A -> Z) : Prop := {
  tp_refl : forall a, cmp a a = 0;
  tp_sym : forall a b, Z.sgn (cmp a b) = - Z.sgn (cmp b a);
  tp_trans : forall a b c, cmp a b <= 0 -> cmp b c <= 0 -> cmp a c <= 0;
}.

Lemma lc_preorder {LC : LocaleCompare} {LL : LocaleCompareLaws LC} : TotalPreorder localeCompare.
Proof. split; [apply lc_refl|apply lc_sym|apply lc_trans]. Qed.

Section comparators.
Context {A B : Type}.

(** Comparing by a key. *)
Lemma tp_on (cmp : B -> B -> Z) (f : A -> B) :
  TotalPreorder cmp -> TotalPreorder (fun a b => cmp (f a) (f b)).
Proof. intros [r s t]. split; intros; [apply r|apply s|eapply t; eauto]. Qed.

Lemma tp_total (cmp : A -> A -> Z) a b :
  TotalPreorder cmp -> cmp a b <= 0 \/ cmp b a <= 0.
Proof. intros [_ s _]. specialize (s a b). lia. Qed.

(** Lexicographic composition, the shape of every comparator in the source. *)
Lemma tp_lex (c1 c2 : A -> A -> Z) :
  TotalPreorder c1 -> TotalPreorder c2 ->
  TotalPreorder (fun a b => cmp_or (c1 a b) (c2 a b)).
Proof.
  intros [r1 s1 t1] [r2 s2 t2]. unfold cmp_or. split.
  - intros a. by rewrite r1, r2.
  - intros a b. specialize (s1 a b). specialize (s2 a b).
    destruct (Z.eqb_spec (c1 a b) 0), (Z.eqb_spec (c1 b a) 0); lia.
  - intros a b c.
    pose proof (s1 a b). pose proof (s1 b c). pose proof (s1 a c).
    pose proof (t1 a b c). pose proof (t1 c a b). pose proof (t1 b c a).
    pose proof (t2 a b c).
    destruct (Z.eqb_spec (c1 a b) 0), (Z.eqb_spec (c1 b c) 0), (Z.eqb_spec (c1 a c) 0);
      try lia.
Qed.
End comparators.

Lemma tp_sub_flip {A} (f : A -> Z) : TotalPreorder (fun a b => f b - f a).
Proof. split; intros; lia. Qed.

(** [Array.prototype.toSorted]/[sort]: the stable sort by a comparator. *)
Section sorting.
Context {A : Type} (cmp : A -> A -> Z).

Fixpoint sort_insert (x : A) (l : list A) : list A :=
  match l with
  | [] => [x]
  | y :: l' => if cmp x y <=? 0 then x :: y :: l' else y :: sort_insert x l'
  end.

Fixpoint toSorted (l : list A) : list A :=
  match l with
  | [] => []
  | x :: l' => sort_insert x (toSorted l')
  end.

Definition cmp_le (a b : A) : Prop := cmp a b <= 0.

Lemma sort_insert_perm x l : Permutation (sort_insert x l) (x :: l).
Proof.
  induction l as [|y l IH]; simpl; [done|]. destruct (cmp x y <=? 0); [done|].
  rewrite IH. apply perm_swap.
Qed.

Lemma toSorted_perm l : Permutation (toSorted l) l.
Proof. induction l as [|x l IH]; simpl; [done|]. by rewrite sort_insert_perm, IH. Qed.

Lemma toSorted_In x l : In x (toSorted l) <-> In x l.
Proof.
  split; apply Permutation_in; [|symmetry]; apply toSorted_perm.
Qed.

Lemma sort_insert_sorted x l :
  TotalPreorder cmp -> StronglySorted cmp_le l -> StronglySorted cmp_le (sort_insert x l).
Proof.
  intros tp. induction 1 as [|y l Hs IH Hall]; simpl; [by repeat constructor|].
  destruct (Z.leb_spec (cmp x y) 0) as [Hle|Hgt].
  - constructor; [by constructor|]. constructor; [done|].
    eapply Forall_impl; [exact Hall|]. intros z Hz. by eapply (tp_trans _ tp); eauto.
  - constructor; [done|]. rewrite List.Forall_forall. intros z Hz.
    apply (Permutation_in _ (sort_insert_perm x l)) in Hz as [<-|Hz].
    + pose proof (tp_sym _ tp x y). unfold cmp_le. lia.
    + rewrite List.Forall_forall in Hall. by apply Hall.
Qed.

Lemma toSorted_sorted l : TotalPreorder cmp -> StronglySorted cmp_le (toSorted l).
Proof.
  intros tp. induction l as [|x l IH]; simpl; [constructor|]. by apply sort_insert_sorted.
Qed.
End sorting.
