(* ===== verification/DateTime.v ===== *)
(** * UTC dates

    The part of the ECMAScript [Date] object the schedule code uses
    (ECMA-262 21.4.1): the proleptic Gregorian calendar over integer
    milliseconds since the epoch, the UTC getters and setters, [Date.UTC],
    [toISOString], and the timestamp pattern of [modules/shared/src/cron.ts].

    A month is addressed by its absolute index [12 * year + month] (months from
    0), so that the setters' carry from months into years is plain arithmetic.
    [TimeClip] never applies: every instant handled here is within the years
    0 to 10009, far inside the range of a [Date]. *)

From Stdlib Require Import ZArith Lia Ascii.
From stdpp Require Import base strings list.
From S2P Require Import Prelude.

Local Open Scope Z_scope.

(** Linear arithmetic with division and remainder by constants. *)
Ltac dlia := Z.div_mod_to_equations; lia.

(** ** The calendar *)
Module Cal.

Definition is_leap (y : Z) : bool :=
  (y mod 4 =? 0) && (negb (y mod 100 =? 0) || (y mod 400 =? 0)).

(** [DayFromYear]: the day number of January 1st. *)
Definition day_from_year (y : Z) : Z :=
  365 * (y - 1970) + (y - 1969) / 4 - (y - 1901) / 100 + (y - 1601) / 400.

(** Days before month [m] (from 0) in a year. *)
Definition cum_days (leap : bool) (m : Z) : Z :=
  let l := if leap then 1 else 0 in
  if m <=? 0 then 0 else if m =? 1 then 31 else if m =? 2 then 59 + l
  else if m =? 3 then 90 + l else if m =? 4 then 120 + l else if m =? 5 then 151 + l
  else if m =? 6 then 181 + l else if m =? 7 then 212 + l else if m =? 8 then 243 + l
  else if m =? 9 then 273 + l else if m =? 10 then 304 + l else 334 + l.

(** First day of the month with absolute index [k]. *)
Definition month_start (k : Z) : Z :=
  day_from_year (k / 12) + cum_days (is_leap (k / 12)) (k mod 12).

(** [YearFromTime]: an estimate that is at most one off, then corrected. *)
Definition year_of_day (d : Z) : Z :=
  let y := 1970 + d * 400 / 146097 in
  if d <? day_from_year y then y - 1
  else if day_from_year (y + 1) <=? d then y + 1 else y.

Definition month_in_year (leap : bool) (doy : Z) : Z :=
  let c := cum_days leap in
  if doy <? c 1 then 0 else if doy <? c 2 then 1 else if doy <? c 3 then 2
  else if doy <? c 4 then 3 else if doy <? c 5 then 4 else if doy <? c 6 then 5
  else if doy <? c 7 then 6 else if doy <? c 8 then 7 else if doy <? c 9 then 8
  else if doy <? c 10 then 9 else if doy <? c 11 then 10 else 11.

(** Absolute index of the month that contains day [d]. *)
Definition month_index (d : Z) : Z :=
  let y := year_of_day d in
  12 * y + month_in_year (is_leap y) (d - day_from_year y).

Definition day_of_month (d : Z) : Z := d - month_start (month_index d) + 1.
Definition weekday (d : Z) : Z := (d + 4) mod 7.
Definition days_in_month (k : Z) : Z := month_start (k + 1) - month_start k.

Lemma year_length y :
  day_from_year (y + 1) - day_from_year y = if is_leap y then 366 else 365.
Proof.
  unfold day_from_year, is_leap.
  destruct (Z.eqb_spec (y mod 4) 0), (Z.eqb_spec (y mod 100) 0), (Z.eqb_spec (y mod 400) 0);
    simpl; dlia.
Qed.

Lemma year_of_day_spec d :
  day_from_year (year_of_day d) <= d < day_from_year (year_of_day d + 1).
Proof.
  unfold year_of_day. set (y := 1970 + d * 400 / 146097).
  assert (Hlo : day_from_year (y - 1) <= d) by (unfold day_from_year, y; dlia).
  assert (Hhi : d < day_from_year (y + 2)) by (unfold day_from_year, y; dlia).
  destruct (Z.ltb_spec d (day_from_year y)).
  - replace (y - 1 + 1) with y by lia. lia.
  - destruct (Z.leb_spec (day_from_year (y + 1)) d); [|lia].
    replace (y + 1 + 1) with (y + 2) by lia. lia.
Qed.

Lemma month_index_split y m : 0 <= m < 12 -> (12 * y + m) / 12 = y /\ (12 * y + m) mod 12 = m.
Proof. intros. dlia. Qed.

Lemma month_start_at y m :
  0 <= m < 12 -> month_start (12 * y + m) = day_from_year y + cum_days (is_leap y) m.
Proof. intros Hm. unfold month_start. by destruct (month_index_split y m Hm) as [-> ->]. Qed.

Lemma month_cases k : exists y m, k = 12 * y + m /\ 0 <= m < 12.
Proof. exists (k / 12), (k mod 12). dlia. Qed.

Lemma month_start_next y m :
  0 <= m < 12 ->
  month_start (12 * y + m + 1) =
    if m =? 11 then day_from_year (y + 1) else day_from_year y + cum_days (is_leap y) (m + 1).
Proof.
  intros Hm. destruct (Z.eqb_spec m 11) as [->|].
  - replace (12 * y + 11 + 1) with (12 * (y + 1) + 0) by lia.
    rewrite month_start_at by lia. unfold cum_days. simpl. lia.
  - replace (12 * y + m + 1) with (12 * y + (m + 1)) by lia. by rewrite month_start_at by lia.
Qed.

(** Split [m] into the twelve months. *)
Ltac month_split m Hm :=
  assert (m = 0 \/ m = 1 \/ m = 2 \/ m = 3 \/ m = 4 \/ m = 5 \/ m = 6 \/ m = 7 \/ m = 8
          \/ m = 9 \/ m = 10 \/ m = 11) as Hm by lia;
  repeat (destruct Hm as [Hm|Hm]); subst m.

Lemma days_in_month_at y m :
  0 <= m < 12 ->
  days_in_month (12 * y + m) =
    if m =? 1 then (if is_leap y then 29 else 28)
    else if (m =? 3) || (m =? 5) || (m =? 8) || (m =? 10) then 30 else 31.
Proof.
  intros Hm. unfold days_in_month. rewrite month_start_at by done.
  pose proof (year_length y) as Hy. rewrite month_start_next by done.
  month_split m H'; simpl; destruct (is_leap y); unfold cum_days; simpl; lia.
Qed.

Lemma days_in_month_bounds k : 28 <= days_in_month k <= 31.
Proof.
  destruct (month_cases k) as (y & m & -> & Hm). rewrite days_in_month_at by done.
  repeat case_match; lia.
Qed.

Lemma month_start_lt_succ k : month_start k < month_start (k + 1).
Proof. pose proof (days_in_month_bounds k). unfold days_in_month in *. lia. Qed.

Lemma month_start_lt k k' : k < k' -> month_start k < month_start k'.
Proof.
  intros H. replace k' with (k + 1 + Z.of_nat (Z.to_nat (k' - k - 1))) by lia.
  induction (Z.to_nat (k' - k - 1)) as [|n IH].
  - rewrite Z.add_0_r. apply month_start_lt_succ.
  - etrans; [exact IH|].
    replace (k + 1 + Z.of_nat (S n)) with (k + 1 + Z.of_nat n + 1) by lia.
    apply month_start_lt_succ.
Qed.

Lemma month_start_le_iff k k' : month_start k <= month_start k' <-> k <= k'.
Proof.
  destruct (Z.lt_trichotomy k k') as [H|[->|H]]; [|lia|].
  - apply month_start_lt in H as ?. lia.
  - apply month_start_lt in H as ?. lia.
Qed.

Lemma month_in_year_range leap doy : 0 <= month_in_year leap doy < 12.
Proof. unfold month_in_year. repeat case_match; lia. Qed.

Lemma month_in_year_spec (leap : bool) (doy : Z) :
  0 <= doy < (if leap then 366 else 365) ->
  let m := month_in_year leap doy in
  cum_days leap m <= doy < (if m =? 11 then if leap then 366 else 365 else cum_days leap (m + 1)).
Proof.
  intros H. unfold month_in_year. destruct leap; cbv zeta;
    repeat (case_match; [unfold cum_days in *; simpl in *; lia|]);
    unfold cum_days in *; simpl in *; lia.
Qed.

Lemma month_index_spec d :
  month_start (month_index d) <= d < month_start (month_index d + 1).
Proof.
  unfold month_index. pose proof (year_of_day_spec d) as Hd.
  set (y := year_of_day d) in *. pose proof (year_length y) as Hy.
  set (doy := d - day_from_year y).
  pose proof (month_in_year_range (is_leap y) doy) as Hr.
  rewrite month_start_at, month_start_next by done.
  destruct (month_in_year_spec (is_leap y) doy) as [H1 H2].
  { unfold doy. destruct (is_leap y); lia. }
  destruct (month_in_year (is_leap y) doy =? 11); unfold doy in *; destruct (is_leap y); lia.
Qed.

(** The Galois connection that every calendar argument uses. *)
Lemma month_start_le_day k d : month_start k <= d <-> k <= month_index d.
Proof.
  pose proof (month_index_spec d) as Hd. split; intros H.
  - destruct (Z.le_gt_cases k (month_index d)) as [|Hgt]; [done|].
    assert (month_start (month_index d + 1) <= month_start k) by (apply month_start_le_iff; lia).
    lia.
  - apply month_start_le_iff in H. lia.
Qed.

Lemma month_index_unique k d : month_start k <= d < month_start (k + 1) -> month_index d = k.
Proof.
  intros [H1 H2]. apply month_start_le_day in H1.
  destruct (Z.le_gt_cases (k + 1) (month_index d)) as [H|H]; [|lia].
  apply month_start_le_day in H. lia.
Qed.

Lemma month_index_mono d d' : d <= d' -> month_index d <= month_index d'.
Proof. intros H. apply month_start_le_day. pose proof (month_index_spec d). lia. Qed.

Lemma month_index_start k : month_index (month_start k) = k.
Proof. apply month_index_unique. pose proof (month_start_lt_succ k). lia. Qed.

Lemma month_index_year d : month_index d / 12 = year_of_day d.
Proof.
  unfold month_index. pose proof (month_in_year_range (is_leap (year_of_day d))
    (d - day_from_year (year_of_day d))). dlia.
Qed.

Lemma month_index_decomp d : month_index d = 12 * year_of_day d + month_index d mod 12.
Proof. rewrite <- month_index_year. dlia. Qed.

Lemma day_of_month_bounds d : 1 <= day_of_month d <= days_in_month (month_index d).
Proof. unfold day_of_month, days_in_month. pose proof (month_index_spec d). lia. Qed.

Lemma day_of_month_at k n :
  1 <= n <= days_in_month k ->
  month_index (month_start k + n - 1) = k /\ day_of_month (month_start k + n - 1) = n.
Proof.
  intros H. assert (month_index (month_start k + n - 1) = k) as Hk.
  { apply month_index_unique. unfold days_in_month in H. lia. }
  split; [done|]. unfold day_of_month. rewrite Hk. lia.
Qed.
End Cal.

(** ** Instants: [Date] getters and setters on milliseconds since the epoch *)
Module JsDate.

Definition msPerDay : Z := 86400000.
Definition day (t : Z) : Z := t / msPerDay.
Definition time_in_day (t : Z) : Z := t mod msPerDay.

Definition getUTCFullYear (t : Z) : Z := Cal.year_of_day (day t).
Definition getUTCMonth (t : Z) : Z := Cal.month_index (day t) mod 12.
Definition getUTCDate (t : Z) : Z := Cal.day_of_month (day t).
Definition getUTCDay (t : Z) : Z := Cal.weekday (day t).
Definition getUTCHours (t : Z) : Z := time_in_day t / 3600000.
Definition getUTCMinutes (t : Z) : Z := (time_in_day t / 60000) mod 60.
Definition getUTCSeconds (t : Z) : Z := (time_in_day t / 1000) mod 60.
Definition getUTCMilliseconds (t : Z) : Z := time_in_day t mod 1000.

Definition make_day (y m d : Z) : Z := Cal.month_start (12 * y + m) + d - 1.
Definition make_time (h mi s ms : Z) : Z := h * 3600000 + mi * 60000 + s * 1000 + ms.
Definition make_date (d time : Z) : Z := d * msPerDay + time.

(** [Date.UTC] reads the years 0 to 99 as 1900 to 1999. *)
Definition full_year (y : Z) : Z := if (0 <=? y) && (y <=? 99) then 1900 + y else y.

Definition UTC (y m d h mi s ms : Z) : Z :=
  make_date (make_day (full_year y) m d) (make_time h mi s ms).

Definition setUTCSeconds (t s ms : Z) : Z :=
  make_date (day t) (make_time (getUTCHours t) (getUTCMinutes t) s ms).
(** [setUTCMinutes(m)]: seconds and milliseconds stay. *)
Definition setUTCMinutes1 (t mi : Z) : Z :=
  make_date (day t) (make_time (getUTCHours t) mi (getUTCSeconds t) (getUTCMilliseconds t)).
Definition setUTCMinutes (t mi s ms : Z) : Z :=
  make_date (day t) (make_time (getUTCHours t) mi s ms).
Definition setUTCHours (t h mi s ms : Z) : Z := make_date (day t) (make_time h mi s ms).
Definition setUTCDate (t d : Z) : Z :=
  make_date (make_day (getUTCFullYear t) (getUTCMonth t) d) (time_in_day t).
Definition setUTCFullYear (t y m d : Z) : Z := make_date (make_day y m d) (time_in_day t).

Lemma time_in_day_range t : 0 <= time_in_day t < msPerDay.
Proof. unfold time_in_day, msPerDay. dlia. Qed.

Lemma day_make_date d x : 0 <= x < msPerDay -> day (make_date d x) = d.
Proof. unfold day, make_date, msPerDay. intros. dlia. Qed.

Lemma time_make_date d x : 0 <= x < msPerDay -> time_in_day (make_date d x) = x.
Proof. unfold time_in_day, make_date, msPerDay. intros. dlia. Qed.

Lemma make_date_split t : make_date (day t) (time_in_day t) = t.
Proof. unfold make_date, day, time_in_day, msPerDay. dlia. Qed.

Lemma time_fields t :
  make_time (getUTCHours t) (getUTCMinutes t) (getUTCSeconds t) (getUTCMilliseconds t)
  = time_in_day t.
Proof.
  unfold make_time, getUTCHours, getUTCMinutes, getUTCSeconds, getUTCMilliseconds.
  pose proof (time_in_day_range t) as H. unfold msPerDay in H. dlia.
Qed.

Lemma make_day_fields t :
  make_day (getUTCFullYear t) (getUTCMonth t) (getUTCDate t) = day t.
Proof.
  unfold make_day, getUTCFullYear, getUTCMonth, getUTCDate, Cal.day_of_month.
  rewrite <- Cal.month_index_decomp. lia.
Qed.

(** The fields of an instant determine it. *)
Lemma make_date_fields t :
  make_date (make_day (getUTCFullYear t) (getUTCMonth t) (getUTCDate t))
    (make_time (getUTCHours t) (getUTCMinutes t) (getUTCSeconds t) (getUTCMilliseconds t)) = t.
Proof. by rewrite make_day_fields, time_fields, make_date_split. Qed.

Lemma field_ranges t :
  0 <= getUTCMonth t < 12 /\ 1 <= getUTCDate t <= 31 /\ 0 <= getUTCHours t < 24 /\
  0 <= getUTCMinutes t < 60 /\ 0 <= getUTCSeconds t < 60 /\ 0 <= getUTCMilliseconds t < 1000.
Proof.
  unfold getUTCMonth, getUTCDate, getUTCHours, getUTCMinutes, getUTCSeconds, getUTCMilliseconds.
  pose proof (time_in_day_range t) as H. unfold msPerDay in H.
  pose proof (Cal.day_of_month_bounds (day t)).
  pose proof (Cal.days_in_month_bounds (Cal.month_index (day t))).
  repeat split; try lia; dlia.
Qed.

(** Reading back what [make_date] was given. *)
Lemma make_date_time_fields d h mi s ms :
  0 <= h < 24 -> 0 <= mi < 60 -> 0 <= s < 60 -> 0 <= ms < 1000 ->
  let t := make_date d (make_time h mi s ms) in
  day t = d /\ getUTCHours t = h /\ getUTCMinutes t = mi /\ getUTCSeconds t = s
  /\ getUTCMilliseconds t = ms.
Proof.
  intros Hh Hmi Hs Hms t.
  assert (Hx : 0 <= make_time h mi s ms < msPerDay) by (unfold make_time, msPerDay; lia).
  unfold getUTCHours, getUTCMinutes, getUTCSeconds, getUTCMilliseconds, t.
  rewrite day_make_date, time_make_date by done. unfold make_time in *. repeat split; dlia.
Qed.

(** ** Timestamps *)

(** Fixed-width decimal digits. *)
Fixpoint fix_digits (n : nat) (v : Z) : string :=
  match n with
  | O => EmptyString
  | S n' => String (Ascii.ascii_of_N (48 + Z.to_N (v / 10 ^ Z.of_nat n'))) (fix_digits n' (v mod 10 ^ Z.of_nat n'))
  end.

Definition digit_value (c : ascii) : option Z :=
  let n := Z.of_N (Ascii.N_of_ascii c) in
  if (48 <=? n) && (n <=? 57) then Some (n - 48) else None.

(** [\d{n}]: exactly [n] digits, their value and the rest of the string. *)
Fixpoint take_digits (n : nat) (s : string) (acc : Z) : option (Z * string) :=
  match n with
  | O => Some (acc, s)
  | S n' =>
      match s with
      | String c s' =>
          match digit_value c with
          | Some d => take_digits n' s' (acc * 10 + d)
          | None => None
          end
      | EmptyString => None
      end
  end.

Definition take_char (c : ascii) (s : string) : option string :=
  match s with
  | String c' s' => if Ascii.eqb c c' then Some s' else None
  | EmptyString => None
  end.

Record fields := mk_fields {
  f_year : Z; f_month : Z; f_day : Z; f_hour : Z; f_minute : Z; f_second : Z; f_ms : Z;
}.

(** [UTC_TIMESTAMP.exec(value)], the captured groups as numbers. *)
Definition match_utc_timestamp (value : string) : option fields :=
  '(year, s) ← take_digits 4 value 0;
  s ← take_char "-"%char s;
  '(month, s) ← take_digits 2 s 0;
  s ← take_char "-"%char s;
  '(dom, s) ← take_digits 2 s 0;
  s ← take_char "T"%char s;
  '(hour, s) ← take_digits 2 s 0;
  s ← take_char ":"%char s;
  '(minute, s) ← take_digits 2 s 0;
  s ← take_char ":"%char s;
  '(second, s) ← take_digits 2 s 0;
  match take_char "."%char s with
  | None => if str_eqb s "Z" then Some (mk_fields year month dom hour minute second 0) else None
  | Some s' =>
      '(ms, s'') ← take_digits 3 s' 0;
      if str_eqb s'' "Z" then Some (mk_fields year month dom hour minute second ms) else None
  end.

(** [Date.parse] on a string of that pattern. *)
Definition date_of_fields (f : fields) : Z :=
  make_date (make_day (f_year f) (f_month f - 1) (f_day f))
    (make_time (f_hour f) (f_minute f) (f_second f) (f_ms f)).

(** [toISOString]: years outside 0..9999 take a sign and six digits. *)
Definition iso_year (y : Z) : string :=
  if (0 <=? y) && (y <=? 9999) then fix_digits 4 y
  else if y <? 0 then "-" +:+ fix_digits 6 (- y) else "+" +:+ fix_digits 6 y.

Definition toISOString (t : Z) : string :=
  iso_year (getUTCFullYear t) +:+ "-" +:+ fix_digits 2 (getUTCMonth t + 1) +:+ "-" +:+
  fix_digits 2 (getUTCDate t) +:+ "T" +:+ fix_digits 2 (getUTCHours t) +:+ ":" +:+
  fix_digits 2 (getUTCMinutes t) +:+ ":" +:+ fix_digits 2 (getUTCSeconds t) +:+ "." +:+
  fix_digits 3 (getUTCMilliseconds t) +:+ "Z".

Lemma digit_value_digit d :
  0 <= d <= 9 -> digit_value (Ascii.ascii_of_N (48 + Z.to_N d)) = Some d.
Proof.
  intros H. unfold digit_value. rewrite Ascii.N_ascii_embedding by lia.
  replace (Z.of_N (48 + Z.to_N d)) with (48 + d) by lia.
  rewrite (proj2 (Z.leb_le 48 (48 + d))), (proj2 (Z.leb_le (48 + d) 57)) by lia.
  simpl. f_equal. lia.
Qed.

Lemma take_digits_fix n v acc rest :
  0 <= v < 10 ^ Z.of_nat n ->
  take_digits n (fix_digits n v +:+ rest) acc = Some (acc * 10 ^ Z.of_nat n + v, rest).
Proof.
  revert v acc. induction n as [|n IH]; intros v acc Hv.
  - simpl in *. f_equal. f_equal. lia.
  - assert (Hpow : 10 ^ Z.of_nat (S n) = 10 * 10 ^ Z.of_nat n)
      by (rewrite Nat2Z.inj_succ, Z.pow_succ_r by lia; done).
    rewrite Hpow in *. clear Hpow.
    assert (Hp : 0 < 10 ^ Z.of_nat n) by (apply Z.pow_pos_nonneg; lia).
    simpl. assert (0 <= v / 10 ^ Z.of_nat n <= 9).
    { split; [apply Z.div_pos; lia|].
      assert (v / 10 ^ Z.of_nat n < 10) by (apply Z.div_lt_upper_bound; lia). lia. }
    rewrite digit_value_digit by done.
    rewrite IH by (apply Z.mod_pos_bound; lia).
    f_equal. f_equal. pose proof (Z.div_mod v (10 ^ Z.of_nat n)). lia.
Qed.

Definition instant_fields (t : Z) : fields :=
  mk_fields (getUTCFullYear t) (getUTCMonth t + 1) (getUTCDate t) (getUTCHours t)
    (getUTCMinutes t) (getUTCSeconds t) (getUTCMilliseconds t).

Lemma take_char_app c rest : take_char c (String c EmptyString +:+ rest) = Some rest.
Proof. unfold take_char, String.append. by rewrite Ascii.eqb_refl. Qed.

Lemma match_toISOString t :
  0 <= getUTCFullYear t <= 9999 -> match_utc_timestamp (toISOString t) = Some (instant_fields t).
Proof.
  intros Hy. destruct (field_ranges t) as (Hm & Hd & Hh & Hmi & Hs & Hms).
  unfold match_utc_timestamp, toISOString, iso_year, instant_fields.
  rewrite (proj2 (Z.leb_le 0 _)), (proj2 (Z.leb_le _ 9999)) by lia.
  simpl andb. cbv iota.
  repeat first [rewrite take_digits_fix by (simpl; lia)
               |rewrite take_char_app
               |progress cbn [mbind option_bind]].
  simpl. do 2 f_equal; lia.
Qed.

Lemma date_of_instant_fields t : date_of_fields (instant_fields t) = t.
Proof.
  unfold date_of_fields, instant_fields. simpl.
  replace (getUTCMonth t + 1 - 1) with (getUTCMonth t) by lia. apply make_date_fields.
Qed.
End JsDate.

(** ** Clock strings in the control plane

    The control plane keeps timestamps as strings and reads them back with
    [Date.parse], whose result on a string that is no ISO date is
    implementation-defined ([NaN] for most).  It is a parameter, with what the
    program relies on: what [toISOString] wrote is read back. *)
Class DateParse := date_parse : string -> option Z.

Class DateParseLaws (DP : DateParse) : Prop :=
  date_parse_iso : forall t, 0 <= JsDate.getUTCFullYear t <= 9999 ->
    date_parse (JsDate.toISOString t) = Some t.

(** The parser of the witnesses: exactly the timestamp pattern. *)
Definition iso_date_parse : DateParse :=
  fun s => JsDate.date_of_fields <$> JsDate.match_utc_timestamp s.

#[global] Instance iso_date_parse_laws : DateParseLaws iso_date_parse.
Proof.
  intros t Ht. unfold date_parse, iso_date_parse. rewrite JsDate.match_toISOString by done.
  simpl. by rewrite JsDate.date_of_instant_fields.
Qed.

(** [new Date(ms).toISOString()]: throws a [RangeError] ([None]) on an invalid time value. *)
Definition date_iso (ms : option Z) : option string :=
  t ← ms; if (Z.abs t <=? 8640000000000000) then Some (JsDate.toISOString t) else None.

(** Comparisons of [Date.parse] results: every one is false when a side is [NaN]. *)
Definition date_lt (a b : option Z) : bool :=
  match a, b with Some x, Some y => x <? y | _, _ => false end.
Definition date_gt (a b : option Z) : bool := date_lt b a.
Definition date_le (a b : option Z) : bool :=
  match a, b with Some x, Some y => x <=? y | _, _ => false end.
Definition date_ge (a b : option Z) : bool := date_le b a.
