(* ===== verification/Cron.v ===== *)
(** * Cron schedules

    [modules/shared/src/cron.ts]: the strict five-field UTC cron expressions of
    the schedule API and the search for the next occurrence.  The search loop
    runs on fuel; [next_fuel] bounds its iterations, and the theorems on a
    [None] result show that the fuel is never what ends it. *)

From Stdlib Require Import ZArith Lia Ascii.
From stdpp Require Import base strings list numbers.
From S2P Require Import Prelude DateTime.

Local Open Scope Z_scope.
Import JsDate.

(** ** Strings *)

(** [s.split(c)] for a one-character separator. *)
Fixpoint split_on (c : ascii) (s : string) : list string :=
  match s with
  | EmptyString => [EmptyString]
  | String c' s' =>
      if Ascii.eqb c c' then EmptyString :: split_on c s'
      else match split_on c s' with
           | h :: t => String c' h :: t
           | [] => [String c' EmptyString]
           end
  end.

Definition is_empty (s : string) : bool := str_eqb s "".

(** Value of a string of decimal digits, [None] when another character occurs. *)
Fixpoint digits_value (s : string) (acc : Z) : option Z :=
  match s with
  | EmptyString => Some acc
  | String c s' => match digit_value c with
                   | Some d => digits_value s' (acc * 10 + d)
                   | None => None
                   end
  end.

Definition MAX_SAFE_INTEGER : Z := 9007199254740991.

(** ** The data model *)
Record CronField := mkCronField { any : bool; values : list Z }.

Record ParsedCron := mkParsedCron {
  minute : CronField;
  hour : CronField;
  dayOfMonth : CronField;
  month : CronField;
  dayOfWeek : CronField;
}.

Definition has (vs : list Z) (v : Z) : bool := existsb (Z.eqb v) vs.

(** ** Parsing *)
Definition isValidUtcTimestamp (value : string) : bool :=
  match match_utc_timestamp value with
  | None => false
  | Some f =>
      let date := UTC (f_year f) (f_month f - 1) (f_day f) (f_hour f) (f_minute f)
                    (f_second f) (f_ms f) in
      (getUTCFullYear date =? f_year f) &&
      (getUTCMonth date =? f_month f - 1) &&
      (getUTCDate date =? f_day f) &&
      (getUTCHours date =? f_hour f) &&
      (getUTCMinutes date =? f_minute f) &&
      (getUTCSeconds date =? f_second f) &&
      (getUTCMilliseconds date =? f_ms f)
  end.

Definition parseInteger (value : string) : option Z :=
  if is_empty value then None
  else parsed ← digits_value value 0;
       if parsed <=? MAX_SAFE_INTEGER then Some parsed else None.

(** [for (value = start; value <= end; value += step) values.add(value)]. *)
Definition stepped (start stop step : Z) : list Z :=
  map (fun i => start + i * step) (seqZ 0 ((stop - start) / step + 1)).

(** One comma-separated item: whether it is a wildcard, and the values it adds. *)
Definition parse_item (min max : Z) (item : string) : option (bool * list Z) :=
  let stepParts := split_on "/" item in
  if (2 <? length stepParts)%nat || existsb is_empty stepParts then None
  else
    let rangeSource := List.nth 0 stepParts "" in
    let stepSource := List.nth_error stepParts 1 in
    step ← (match stepSource with None => Some 1 | Some s => parseInteger s end);
    if step <? 1 then None
    else if str_eqb rangeSource "*" then Some (true, stepped min max step)
    else
      let range := split_on "-" rangeSource in
      if (2 <? length range)%nat || existsb is_empty range then None
      else
        rangeStart ← parseInteger (List.nth 0 range "");
        rangeEnd ← (if (length range =? 1)%nat then Some rangeStart
                    else parseInteger (List.nth 1 range ""));
        if (rangeStart <? min) || (max <? rangeEnd) || (rangeEnd <? rangeStart) then None
        else if is_some stepSource && (length range =? 1)%nat then None
        else Some (false, stepped rangeStart rangeEnd step).

Fixpoint parse_items (min max : Z) (items : list string) (acc : CronField) : option CronField :=
  match items with
  | [] => Some acc
  | item :: items' =>
      '(star, vs) ← parse_item min max item;
      parse_items min max items' (mkCronField (any acc || star) (values acc ++ vs))
  end.

Definition parseField (source : string) (min max : Z) : option CronField :=
  parse_items min max (split_on "," source) (mkCronField false []).

Definition parseCron (expression : string) : option ParsedCron :=
  match split_on " " expression with
  | [minuteSource; hourSource; dayOfMonthSource; monthSource; dayOfWeekSource] =>
      if existsb is_empty [minuteSource; hourSource; dayOfMonthSource; monthSource; dayOfWeekSource]
      then None
      else
        minute ← parseField minuteSource 0 59;
        hour ← parseField hourSource 0 23;
        dayOfMonth ← parseField dayOfMonthSource 1 31;
        month ← parseField monthSource 1 12;
        dayOfWeek ← parseField dayOfWeekSource 0 6;
        Some (mkParsedCron minute hour dayOfMonth month dayOfWeek)
  | _ => None
  end.

(** ** The search for the next occurrence *)

(** [matchesDay(cron, dayOfMonthValue, date)], given [date.getUTCDay()]. *)
Definition matchesDay (cron : ParsedCron) (dayOfMonthValue weekday : Z) : bool :=
  let dom := has (values (dayOfMonth cron)) dayOfMonthValue in
  let dow := has (values (dayOfWeek cron)) weekday in
  if any (dayOfMonth cron) && any (dayOfWeek cron) then true
  else if any (dayOfMonth cron) then dow
  else if any (dayOfWeek cron) then dom
  else dom || dow.

Definition nextMatchingDay (cron : ParsedCron) (date : Z) : option Z :=
  let lastDay := getUTCDate (UTC (getUTCFullYear date) (getUTCMonth date + 1) 0 0 0 0 0) in
  List.find
    (fun d => matchesDay cron d
                (getUTCDay (UTC (getUTCFullYear date) (getUTCMonth date) d 0 0 0 0)))
    (seqZ (getUTCDate date) (lastDay - getUTCDate date + 1)).

Definition nextValue (vs : list Z) (value : Z) : option Z :=
  List.find (has vs) (seqZ value (59 - value + 1)).

(** [Math.min(...values)]. *)
Definition firstValue (vs : list Z) : Z :=
  match vs with [] => 0 | v :: vs' => fold_right Z.min v vs' end.

Definition resetToMonth (date year month : Z) : Z :=
  setUTCHours (setUTCFullYear date year (month - 1) 1) 0 0 0 0.

(** One iteration of the loop: [inl] continues with a new candidate, [inr] returns one. *)
Definition cron_step (cron : ParsedCron) (candidate : Z) : Z + Z :=
  match nextValue (values (month cron)) (getUTCMonth candidate + 1) with
  | None => inl (resetToMonth candidate (getUTCFullYear candidate + 1)
                   (firstValue (values (month cron))))
  | Some mon =>
      let c := if mon =? getUTCMonth candidate + 1 then candidate
               else resetToMonth candidate (getUTCFullYear candidate) mon in
      match nextMatchingDay cron c with
      | None => inl (resetToMonth c (getUTCFullYear c) (getUTCMonth c + 2))
      | Some d =>
          let c := if d =? getUTCDate c then c
                   else setUTCHours (setUTCDate c d) 0 0 0 0 in
          match nextValue (values (hour cron)) (getUTCHours c) with
          | None => inl (setUTCHours (setUTCDate c (getUTCDate c + 1)) 0 0 0 0)
          | Some h =>
              let c := if h =? getUTCHours c then c else setUTCHours c h 0 0 0 in
              match nextValue (values (minute cron)) (getUTCMinutes c) with
              | None => inl (setUTCHours c (getUTCHours c + 1) 0 0 0)
              | Some mi => inr (setUTCMinutes c mi 0 0)
              end
          end
      end
  end.

Fixpoint cron_loop (fuel : nat) (cron : ParsedCron) (finalYear candidate : Z) : option Z :=
  match fuel with
  | O => None
  | S fuel' =>
      if getUTCFullYear candidate <=? finalYear then
        match cron_step cron candidate with
        | inl candidate' => cron_loop fuel' cron finalYear candidate'
        | inr t => Some t
        end
      else None
  end.

(** The candidate advances by at least one hour boundary per iteration. *)
Definition next_fuel (finalYear candidate : Z) : nat :=
  Z.to_nat (Cal.day_from_year (finalYear + 1) * 24 - candidate / 3600000 + 1).

(** The first minute strictly after an instant. *)
Definition first_candidate (after : Z) : Z :=
  let c := setUTCSeconds after 0 0 in setUTCMinutes1 c (getUTCMinutes c + 1).

Definition next_after (cron : ParsedCron) (after : Z) : option Z :=
  let candidate := first_candidate after in
  let finalYear := getUTCFullYear candidate + 8 in
  cron_loop (next_fuel finalYear candidate) cron finalYear candidate.

Definition nextCronOccurrence (expression after : string) : option string :=
  if isValidUtcTimestamp after then
    cron ← parseCron expression;
    f ← match_utc_timestamp after;
    toISOString <$> next_after cron (date_of_fields f)
  else None.

Example next_example :
  nextCronOccurrence "0,30 6-8/2 * * *" "2026-01-01T05:59:45.000Z"
  = Some "2026-01-01T06:00:00.000Z".
Proof. vm_compute. reflexivity. Qed.

Example next_leap_example :
  nextCronOccurrence "0 0 29 2 *" "2096-03-01T00:00:00.000Z" = Some "2104-02-29T00:00:00.000Z".
Proof. vm_compute. reflexivity. Qed.

Example next_none_example :
  nextCronOccurrence "0 0 31 2 *" "2026-01-01T00:00:00.000Z" = None.
Proof. vm_compute. reflexivity. Qed.

(** ** What the search looks for

    [matches] is the search's own condition on a whole minute; CronSpec.v relates it to the
    meaning of the expression.  [day_ok], [hour_ok] and [minute_ok] are the conditions it puts
    on its day, hour and minute number. *)
Definition aligned (t : Z) : Prop := t mod 60000 = 0.

Definition matches (cron : ParsedCron) (t : Z) : bool :=
  has (values (month cron)) (getUTCMonth t + 1) &&
  matchesDay cron (getUTCDate t) (getUTCDay t) &&
  has (values (hour cron)) (getUTCHours t) &&
  has (values (minute cron)) (getUTCMinutes t).

(** [t] is the first occurrence at or after [c]. *)
Definition first_match (cron : ParsedCron) (c t : Z) : Prop :=
  c <= t /\ aligned t /\ matches cron t = true /\
  forall t', aligned t' -> c <= t' < t -> matches cron t' = false.

(** No occurrence lies in [[c, c')]. *)
Definition skips (cron : ParsedCron) (c c' : Z) : Prop :=
  c <= c' /\ aligned c' /\ forall t, aligned t -> c <= t < c' -> matches cron t = false.

Definition day_ok (cron : ParsedCron) (d : Z) : bool :=
  has (values (month cron)) (Cal.month_index d mod 12 + 1) &&
  matchesDay cron (Cal.day_of_month d) (Cal.weekday d).
Definition hour_ok (cron : ParsedCron) (h : Z) : bool := has (values (hour cron)) (h mod 24).
Definition minute_ok (cron : ParsedCron) (m : Z) : bool := has (values (minute cron)) (m mod 60).

(** A field's values lie in its range and there is one. *)
Definition field_wf (min max : Z) (f : CronField) : Prop :=
  values f <> [] /\ forall v, has (values f) v = true -> min <= v <= max.

Definition cron_wf (cron : ParsedCron) : Prop :=
  field_wf 0 59 (minute cron) /\ field_wf 0 23 (hour cron) /\ field_wf 1 31 (dayOfMonth cron) /\
  field_wf 1 12 (month cron) /\ field_wf 0 6 (dayOfWeek cron).

(** *** Unit arithmetic *)
Lemma hours_index t : getUTCHours t = t / 3600000 mod 24.
Proof. unfold getUTCHours, time_in_day, msPerDay. dlia. Qed.

Lemma minutes_index t : getUTCMinutes t = t / 60000 mod 60.
Proof. unfold getUTCMinutes, time_in_day, msPerDay. dlia. Qed.

Lemma matches_units cron t :
  matches cron t =
  day_ok cron (t / msPerDay) && hour_ok cron (t / 3600000) && minute_ok cron (t / 60000).
Proof. unfold matches, day_ok, hour_ok, minute_ok. by rewrite hours_index, minutes_index. Qed.

Lemma skips_refl cron c : aligned c -> skips cron c c.
Proof. intros H. split; [lia|]. split; [done|]. intros; lia. Qed.

Lemma skips_trans cron a b c : skips cron a b -> skips cron b c -> skips cron a c.
Proof.
  intros (H1 & _ & N1) (H2 & A2 & N2). split; [lia|]. split; [done|].
  intros t At Ht. destruct (Z.lt_ge_cases t b); [apply N1|apply N2]; auto; lia.
Qed.

(** Jumping to the start of a unit [N] skips only units the condition rejects. *)
Lemma skips_unit cron (u : Z) (ok : Z -> bool) c N :
  0 < u -> u mod 60000 = 0 ->
  (forall t, matches cron t = true -> ok (t / u) = true) ->
  c / u < N -> (forall n, c / u <= n < N -> ok n = false) ->
  skips cron c (N * u).
Proof.
  intros Hu Hal Hok Hlt Hno. split; [|split].
  - pose proof (Z.mul_succ_div_gt c u Hu). nia.
  - unfold aligned. by rewrite Z.mul_mod, Hal, Z.mul_0_r by lia.
  - intros t _ Ht. destruct (matches cron t) eqn:E; [|done]. apply Hok in E.
    rewrite Hno in E; [done|]. split; [apply Z.div_le_mono; lia|].
    apply Z.div_lt_upper_bound; lia.
Qed.

Lemma skips_days cron c N :
  c / msPerDay < N -> (forall d, c / msPerDay <= d < N -> day_ok cron d = false) ->
  skips cron c (N * msPerDay).
Proof.
  apply skips_unit; [done|done|]. intros t. rewrite matches_units, !andb_true_iff. naive_solver.
Qed.

Lemma skips_hours cron c N :
  c / 3600000 < N -> (forall h, c / 3600000 <= h < N -> hour_ok cron h = false) ->
  skips cron c (N * 3600000).
Proof.
  apply skips_unit; [done|done|]. intros t. rewrite matches_units, !andb_true_iff. naive_solver.
Qed.

Lemma skips_minutes cron c N :
  c / 60000 < N -> (forall m, c / 60000 <= m < N -> minute_ok cron m = false) ->
  skips cron c (N * 60000).
Proof.
  apply skips_unit; [done|done|]. intros t. rewrite matches_units, !andb_true_iff. naive_solver.
Qed.

(** *** The searches *)
Lemma find_seqZ_Some p a n x :
  List.find p (seqZ a n) = Some x ->
  a <= x < a + n /\ p x = true /\ forall y, a <= y < x -> p y = false.
Proof.
  destruct (Z.le_gt_cases n 0) as [Hn|Hn]; [by rewrite seqZ_nil by lia|].
  replace n with (Z.of_nat (Z.to_nat n)) in * by lia. generalize (Z.to_nat n) as k. clear n Hn.
  intros k. revert a. induction k as [|k IH]; intros a; [by rewrite seqZ_nil by lia|].
  rewrite seqZ_cons by lia. simpl. destruct (p a) eqn:E.
  - intros [= <-]. split; [lia|]. split; [done|]. intros; lia.
  - replace (Z.pred (Z.of_nat (S k))) with (Z.of_nat k) by lia.
    intros H. apply IH in H as (H1 & H2 & H3). split; [lia|]. split; [done|].
    intros y Hy. destruct (decide (y = a)) as [->|]; [done|]. apply H3. lia.
Qed.

Lemma find_seqZ_None p a n :
  List.find p (seqZ a n) = None -> forall y, a <= y < a + n -> p y = false.
Proof.
  intros H y Hy. eapply find_none in H; [exact H|].
  apply list_elem_of_In, elem_of_seqZ. lia.
Qed.

Lemma nextValue_Some vs v x :
  nextValue vs v = Some x ->
  v <= x <= 59 /\ has vs x = true /\ forall y, v <= y < x -> has vs y = false.
Proof. intros (H1 & H2 & H3)%find_seqZ_Some. split; [lia|]. by split. Qed.

Lemma nextValue_None vs v : nextValue vs v = None -> forall y, v <= y <= 59 -> has vs y = false.
Proof. intros H y Hy. eapply find_seqZ_None; [exact H|]. lia. Qed.

Lemma has_In vs v : has vs v = true <-> In v vs.
Proof.
  unfold has. rewrite existsb_exists. split.
  - intros (x & Hx & E). apply Z.eqb_eq in E. by subst.
  - intros H. exists v. split; [done|]. apply Z.eqb_refl.
Qed.

Lemma fold_min_spec v vs :
  In (fold_right Z.min v vs) (v :: vs) /\ forall x, In x (v :: vs) -> fold_right Z.min v vs <= x.
Proof.
  induction vs as [|w vs [IH1 IH2]]; simpl.
  - split; [by left|]. intros x [->|[]]. lia.
  - split.
    + destruct (Z.min_spec w (fold_right Z.min v vs)) as [[_ ->]|[_ ->]]; [by auto|].
      simpl in IH1. naive_solver.
    + intros x Hx. assert (x = w \/ In x (v :: vs)) as [->|Hx'] by (simpl in *; naive_solver); [lia|].
      apply IH2 in Hx'. lia.
Qed.

Lemma firstValue_spec vs :
  vs <> [] ->
  has vs (firstValue vs) = true /\ forall x, has vs x = true -> firstValue vs <= x.
Proof.
  destruct vs as [|v vs]; [done|]. intros _. destruct (fold_min_spec v vs) as [H1 H2].
  split; [by apply has_In|]. intros x Hx. apply H2. by apply has_In.
Qed.

(** *** Candidates, in units *)
Definition month_instant (k : Z) : Z := Cal.month_start k * msPerDay.

Lemma resetToMonth_eq t y m : resetToMonth t y m = month_instant (12 * y + m - 1).
Proof.
  unfold resetToMonth, setUTCHours, setUTCFullYear, month_instant.
  rewrite day_make_date by apply time_in_day_range.
  unfold make_day, make_date, make_time. replace (12 * y + (m - 1)) with (12 * y + m - 1) by lia.
  lia.
Qed.

Lemma year_index t : getUTCFullYear t = Cal.month_index (day t) / 12.
Proof. unfold getUTCFullYear. by rewrite Cal.month_index_year. Qed.

Lemma month_index_getters t :
  Cal.month_index (day t) = 12 * getUTCFullYear t + getUTCMonth t.
Proof. rewrite year_index. unfold getUTCMonth. dlia. Qed.

Lemma day_mono c t : c <= t -> day c <= day t.
Proof. apply Z.div_le_mono. done. Qed.

Lemma year_mono c t : c <= t -> getUTCFullYear c <= getUTCFullYear t.
Proof.
  intros H. rewrite !year_index. apply Z.div_le_mono; [lia|].
  by apply Cal.month_index_mono, day_mono.
Qed.

Lemma UTC_day y m d : 100 <= y -> UTC y m d 0 0 0 0 = make_day y m d * msPerDay.
Proof.
  intros Hy. unfold UTC, full_year, make_date, make_time.
  rewrite (proj2 (Z.leb_gt y 99)) by lia. rewrite andb_false_r. lia.
Qed.

Lemma div_msPerDay d : d * msPerDay / msPerDay = d.
Proof. apply Z.div_mul. done. Qed.

Lemma lastDay_eq t :
  100 <= getUTCFullYear t ->
  getUTCDate (UTC (getUTCFullYear t) (getUTCMonth t + 1) 0 0 0 0 0)
  = Cal.days_in_month (Cal.month_index (day t)).
Proof.
  intros Hy. rewrite UTC_day by done. unfold getUTCDate, day. rewrite div_msPerDay.
  unfold make_day. rewrite Z.add_assoc, <- month_index_getters.
  set (k := Cal.month_index (day t)). fold (day t). fold k.
  pose proof (Cal.days_in_month_bounds k) as Hb.
  destruct (Cal.day_of_month_at k (Cal.days_in_month k)) as [_ H]; [lia|].
  etrans; [|exact H]. f_equal. unfold Cal.days_in_month. lia.
Qed.

Lemma weekday_eq t d :
  100 <= getUTCFullYear t ->
  getUTCDay (UTC (getUTCFullYear t) (getUTCMonth t) d 0 0 0 0)
  = Cal.weekday (Cal.month_start (Cal.month_index (day t)) + d - 1).
Proof.
  intros Hy. rewrite UTC_day by done. unfold getUTCDay, day. rewrite div_msPerDay.
  unfold make_day. by rewrite <- month_index_getters.
Qed.

Lemma day_split d : d = Cal.month_start (Cal.month_index d) + Cal.day_of_month d - 1.
Proof. unfold Cal.day_of_month. lia. Qed.

(** *** Stages of one iteration *)
Section stages.
Context (cron : ParsedCron) (Hwf : cron_wf cron).

Lemma month_values_wf : field_wf 1 12 (month cron).
Proof. apply Hwf. Qed.

Lemma day_ok_month d :
  day_ok cron d = true -> has (values (month cron)) (Cal.month_index d mod 12 + 1) = true.
Proof. unfold day_ok. rewrite andb_true_iff. by intros []. Qed.

(** Jumping over whole months none of which is selected. *)
Lemma skips_months c k :
  Cal.month_index (day c) < k ->
  (forall j, Cal.month_index (day c) <= j < k -> has (values (month cron)) (j mod 12 + 1) = false) ->
  skips cron c (month_instant k).
Proof.
  intros Hk Hno. apply skips_days; fold (day c).
  - destruct (Z.lt_ge_cases (day c) (Cal.month_start k)) as [|Hge]; [done|].
    apply Cal.month_start_le_day in Hge. lia.
  - intros d Hd. destruct (day_ok cron d) eqn:E; [|done]. apply day_ok_month in E.
    rewrite Hno in E; [done|]. split; [apply Cal.month_index_mono; lia|].
    destruct (Z.lt_ge_cases (Cal.month_index d) k) as [|Hge]; [done|].
    apply Cal.month_start_le_day in Hge. lia.
Qed.

Lemma stage_month_none c :
  nextValue (values (month cron)) (getUTCMonth c + 1) = None ->
  skips cron c (resetToMonth c (getUTCFullYear c + 1) (firstValue (values (month cron)))) /\
  Cal.month_index (day c) < 12 * (getUTCFullYear c + 1) + firstValue (values (month cron)) - 1.
Proof.
  intros Hn. destruct month_values_wf as [Hne Hrange].
  destruct (firstValue_spec _ Hne) as [Hf Hmin]. pose proof (Hrange _ Hf) as Hfr.
  pose proof (month_index_getters c) as Hk.
  assert (Hm : 0 <= getUTCMonth c < 12) by apply field_ranges.
  assert (Hlt : Cal.month_index (day c)
            < 12 * (getUTCFullYear c + 1) + firstValue (values (month cron)) - 1) by lia.
  split; [|done]. rewrite resetToMonth_eq. apply skips_months; [done|].
  intros j Hj. destruct (has (values (month cron)) (j mod 12 + 1)) eqn:E; [|done].
  pose proof (Hrange _ E). pose proof (Hmin _ E).
  rewrite (nextValue_None _ _ Hn) in E; [done|]. dlia.
Qed.

Lemma stage_month c mon :
  aligned c ->
  nextValue (values (month cron)) (getUTCMonth c + 1) = Some mon ->
  let c' := if mon =? getUTCMonth c + 1 then c
            else resetToMonth c (getUTCFullYear c) mon in
  skips cron c c' /\ has (values (month cron)) (getUTCMonth c' + 1) = true.
Proof.
  intros Hal Hn. apply nextValue_Some in Hn as (Hge & Hin & Hmin).
  pose proof (proj2 month_values_wf _ Hin) as Hr. pose proof (month_index_getters c) as Hk.
  destruct (Z.eqb_spec mon (getUTCMonth c + 1)) as [->|Hne]; cbv zeta.
  - split; [by apply skips_refl|done].
  - rewrite resetToMonth_eq. assert (Hm : 0 <= getUTCMonth c < 12) by apply field_ranges. split.
    + apply skips_months; [lia|]. intros j Hj. apply Hmin. dlia.
    + unfold getUTCMonth, day, month_instant. rewrite div_msPerDay, Cal.month_index_start.
      replace ((12 * getUTCFullYear c + mon - 1) mod 12 + 1) with mon by dlia. done.
Qed.

(** In the month of [c], the search for a matching day, in day numbers. *)
Lemma nextMatchingDay_eq c :
  100 <= getUTCFullYear c ->
  nextMatchingDay cron c =
  List.find (fun d => matchesDay cron d
      (Cal.weekday (Cal.month_start (Cal.month_index (day c)) + d - 1)))
    (seqZ (getUTCDate c) (Cal.days_in_month (Cal.month_index (day c)) - getUTCDate c + 1)).
Proof.
  intros Hy. unfold nextMatchingDay. cbv zeta. rewrite lastDay_eq by done.
  induction (seqZ _ _) as [|d l IH]; simpl; [done|]. by rewrite weekday_eq, IH by done.
Qed.

Lemma day_ok_at d :
  day_ok cron d = has (values (month cron)) (Cal.month_index d mod 12 + 1) &&
    matchesDay cron (Cal.day_of_month d)
      (Cal.weekday (Cal.month_start (Cal.month_index d) + Cal.day_of_month d - 1)).
Proof. by rewrite <- day_split. Qed.

(** A day of the month of [c] that the search covered is no match. *)
Lemma day_search_false c d :
  Cal.month_index d = Cal.month_index (day c) ->
  matchesDay cron (Cal.day_of_month d)
    (Cal.weekday (Cal.month_start (Cal.month_index (day c)) + Cal.day_of_month d - 1)) = false ->
  day_ok cron d = false.
Proof. intros Hk H. rewrite day_ok_at, Hk, H. apply andb_false_r. Qed.

Lemma stage_day_none c :
  100 <= getUTCFullYear c -> nextMatchingDay cron c = None ->
  skips cron c (resetToMonth c (getUTCFullYear c) (getUTCMonth c + 2)) /\
  resetToMonth c (getUTCFullYear c) (getUTCMonth c + 2)
    = month_instant (Cal.month_index (day c) + 1).
Proof.
  intros Hy Hn.
  assert (Hr : resetToMonth c (getUTCFullYear c) (getUTCMonth c + 2)
            = month_instant (Cal.month_index (day c) + 1)).
  { rewrite resetToMonth_eq, month_index_getters. f_equal. lia. }
  split; [|done]. rewrite Hr. pose proof (Cal.month_index_spec (day c)) as Hs.
  apply skips_days; fold (day c); [lia|]. intros d Hd.
  assert (Hk : Cal.month_index d = Cal.month_index (day c)) by (apply Cal.month_index_unique; lia).
  apply (day_search_false c d Hk).
  pose proof (Cal.day_of_month_bounds d) as Hb. rewrite Hk in Hb.
  assert (Hle : getUTCDate c <= Cal.day_of_month d).
  { unfold getUTCDate, Cal.day_of_month. rewrite Hk. lia. }
  rewrite nextMatchingDay_eq in Hn by done.
  eapply find_seqZ_None in Hn; [exact Hn|]. lia.
Qed.

Lemma stage_day c d :
  100 <= getUTCFullYear c -> aligned c ->
  has (values (month cron)) (getUTCMonth c + 1) = true ->
  nextMatchingDay cron c = Some d ->
  let c' := if d =? getUTCDate c then c else setUTCHours (setUTCDate c d) 0 0 0 0 in
  skips cron c c' /\ day_ok cron (day c') = true.
Proof.
  intros Hy Hal Hmon Hn. rewrite nextMatchingDay_eq in Hn by done.
  apply find_seqZ_Some in Hn as (Hge & Hin & Hmin).
  set (k := Cal.month_index (day c)) in *.
  assert (1 <= d <= Cal.days_in_month k) as Hd.
  { pose proof (field_ranges c). lia. }
  destruct (Cal.day_of_month_at k d Hd) as [Hk' Hdom].
  assert (Hok : day_ok cron (Cal.month_start k + d - 1) = true).
  { unfold day_ok. rewrite Hk', Hdom, Hin. unfold getUTCMonth in Hmon. fold k in Hmon.
    by rewrite Hmon. }
  assert (Hdc : day c = Cal.month_start k + getUTCDate c - 1) by apply day_split.
  destruct (Z.eqb_spec d (getUTCDate c)) as [->|Hne]; cbv zeta.
  - split; [by apply skips_refl|]. by rewrite Hdc.
  - assert (Hc' : setUTCHours (setUTCDate c d) 0 0 0 0 = (Cal.month_start k + d - 1) * msPerDay).
    { unfold setUTCHours, setUTCDate. rewrite day_make_date by apply time_in_day_range.
      unfold make_day, make_date, make_time. rewrite <- month_index_getters. fold k. lia. }
    rewrite Hc'. split; [|unfold day; rewrite div_msPerDay; done].
    apply skips_days; fold (day c); [lia|]. intros d' Hd'.
    assert (Hkd : Cal.month_index d' = k).
    { apply Cal.month_index_unique. pose proof (Cal.month_index_spec (day c)) as Hs. fold k in Hs.
      unfold Cal.days_in_month in Hd. lia. }
    apply (day_search_false c d' Hkd). apply Hmin.
    unfold Cal.day_of_month. rewrite Hkd. lia.
Qed.

Lemma stage_hour_none c :
  nextValue (values (hour cron)) (getUTCHours c) = None ->
  skips cron c (setUTCHours (setUTCDate c (getUTCDate c + 1)) 0 0 0 0) /\
  setUTCHours (setUTCDate c (getUTCDate c + 1)) 0 0 0 0 = (day c + 1) * msPerDay.
Proof.
  intros Hn.
  assert (Hc' : setUTCHours (setUTCDate c (getUTCDate c + 1)) 0 0 0 0 = (day c + 1) * msPerDay).
  { unfold setUTCHours, setUTCDate. rewrite day_make_date by apply time_in_day_range.
    unfold make_date, make_time. rewrite <- (make_day_fields c). unfold make_day. lia. }
  split; [|done]. rewrite Hc'. replace ((day c + 1) * msPerDay) with ((day c + 1) * 24 * 3600000)
    by (unfold msPerDay; lia).
  apply skips_hours; unfold day, msPerDay; [dlia|]. intros h Hh. unfold hour_ok.
  apply (nextValue_None _ _ Hn). rewrite hours_index. dlia.
Qed.

Lemma stage_hour c h :
  aligned c -> day_ok cron (day c) = true ->
  nextValue (values (hour cron)) (getUTCHours c) = Some h ->
  let c' := if h =? getUTCHours c then c else setUTCHours c h 0 0 0 in
  skips cron c c' /\ day_ok cron (day c') = true /\ hour_ok cron (c' / 3600000) = true.
Proof.
  intros Hal Hday Hn. apply nextValue_Some in Hn as (Hge & Hin & Hmin).
  destruct Hwf as (_ & [_ Hr] & _). pose proof (Hr _ Hin) as Hh. clear Hr.
  pose proof (hours_index c) as Hi. cbv zeta.
  destruct (Z.eqb_spec h (getUTCHours c)) as [->|Hne].
  - split; [by apply skips_refl|]. split; [done|]. unfold hour_ok. by rewrite <- hours_index.
  - assert (Hc' : setUTCHours c h 0 0 0 = (day c * 24 + h) * 3600000).
    { unfold setUTCHours, make_date, make_time, msPerDay. lia. }
    rewrite Hc'. split; [|split].
    + apply skips_hours; unfold day, msPerDay; [dlia|]. intros x Hx. unfold hour_ok.
      apply Hmin. dlia.
    + replace (day ((day c * 24 + h) * 3600000)) with (day c); [done|].
      unfold day, msPerDay. dlia.
    + unfold hour_ok. rewrite Z.div_mul by done.
      replace ((day c * 24 + h) mod 24) with h by dlia. done.
Qed.

Lemma stage_minute_none c :
  nextValue (values (minute cron)) (getUTCMinutes c) = None ->
  skips cron c (setUTCHours c (getUTCHours c + 1) 0 0 0) /\
  setUTCHours c (getUTCHours c + 1) 0 0 0 = (c / 3600000 + 1) * 3600000.
Proof.
  intros Hn.
  assert (Hc' : setUTCHours c (getUTCHours c + 1) 0 0 0 = (c / 3600000 + 1) * 3600000).
  { rewrite hours_index. unfold setUTCHours, make_date, make_time, day, msPerDay. dlia. }
  split; [|done]. rewrite Hc'.
  replace ((c / 3600000 + 1) * 3600000) with ((c / 3600000 + 1) * 60 * 60000) by lia.
  apply skips_minutes; [dlia|]. intros m Hm. unfold minute_ok.
  apply (nextValue_None _ _ Hn). rewrite minutes_index. dlia.
Qed.

Lemma stage_minute c mi :
  day_ok cron (day c) = true -> hour_ok cron (c / 3600000) = true -> aligned c ->
  nextValue (values (minute cron)) (getUTCMinutes c) = Some mi ->
  skips cron c (setUTCMinutes c mi 0 0) /\ matches cron (setUTCMinutes c mi 0 0) = true.
Proof.
  intros Hday Hhour Hal Hn. apply nextValue_Some in Hn as (Hge & Hin & Hmin).
  assert (Hr : 0 <= mi <= 59) by (destruct Hwf as [[_ H] _]; by apply H).
  assert (Hc' : setUTCMinutes c mi 0 0 = (c / 3600000 * 60 + mi) * 60000).
  { unfold setUTCMinutes. rewrite hours_index. unfold make_date, make_time, day, msPerDay. dlia. }
  rewrite Hc'. rewrite minutes_index in Hge, Hmin. unfold aligned in Hal. split.
  - destruct (decide (mi = c / 60000 mod 60)) as [Heq|Hne].
    + replace ((c / 3600000 * 60 + mi) * 60000) with c by dlia. by apply skips_refl.
    + apply skips_minutes; [dlia|]. intros m Hm. unfold minute_ok. apply Hmin. dlia.
  - rewrite matches_units. unfold day, msPerDay in *.
    replace ((c / 3600000 * 60 + mi) * 60000 / 86400000) with (c / 86400000) by dlia.
    replace ((c / 3600000 * 60 + mi) * 60000 / 3600000) with (c / 3600000) by dlia.
    rewrite Hday, Hhour. unfold minute_ok. rewrite Z.div_mul by done.
    replace ((c / 3600000 * 60 + mi) mod 60) with mi by dlia. done.
Qed.

(** *** One iteration and the loop *)
Lemma skips_ge c c' : skips cron c c' -> c <= c' /\ aligned c'.
Proof. by intros (? & ? & _). Qed.

(** A continuing iteration starts a later hour. *)
Definition step_post (c : Z) (r : Z + Z) : Prop :=
  match r with
  | inl c' => skips cron c c' /\ c / 3600000 < c' / 3600000
  | inr t => skips cron c t /\ matches cron t = true
  end.

Lemma later_hour c c1 N u :
  c <= c1 -> c1 < N * (u * 3600000) -> 0 < u ->
  c / 3600000 < N * (u * 3600000) / 3600000.
Proof.
  intros H1 H2 Hu. replace (N * (u * 3600000)) with (N * u * 3600000) in * by lia.
  rewrite Z.div_mul by lia. dlia.
Qed.

Lemma later_month c c1 k :
  c <= c1 -> Cal.month_index (day c1) < k -> c / 3600000 < month_instant k / 3600000.
Proof.
  intros Hle Hk. apply (later_hour c c1 _ 24); [done| |done].
  unfold month_instant. destruct (Z.lt_ge_cases (day c1) (Cal.month_start k)) as [Hlt|Hge].
  - unfold day, msPerDay in *. dlia.
  - apply Cal.month_start_le_day in Hge. lia.
Qed.

Lemma cron_step_spec c :
  aligned c -> 100 <= getUTCFullYear c -> step_post c (cron_step cron c).
Proof.
  intros Hal Hy. unfold cron_step.
  destruct (nextValue (values (month cron)) (getUTCMonth c + 1)) as [mon|] eqn:Emon.
  2: { apply stage_month_none in Emon as [Hs Hk]. split; [done|].
       rewrite resetToMonth_eq. eapply later_month; [|exact Hk]. lia. }
  apply stage_month in Emon as [Hs1 Hmon]; [|done].
  set (c1 := if mon =? _ then _ else _) in *.
  destruct (skips_ge _ _ Hs1) as [Hle1 Hal1].
  assert (Hy1 : 100 <= getUTCFullYear c1) by (pose proof (year_mono c c1 Hle1); lia).
  destruct (nextMatchingDay cron c1) as [d|] eqn:Eday.
  2: { apply stage_day_none in Eday as [Hs Hr]; [|done]. split; [by eapply skips_trans|].
       rewrite Hr. eapply later_month; [exact Hle1|]. lia. }
  apply stage_day in Eday as [Hs2 Hday]; [|done..].
  set (c2 := if d =? _ then _ else _) in *.
  assert (Hs12 : skips cron c c2) by (by eapply skips_trans).
  destruct (skips_ge _ _ Hs12) as [Hle2 Hal2].
  destruct (nextValue (values (hour cron)) (getUTCHours c2)) as [h|] eqn:Eh.
  2: { apply stage_hour_none in Eh as [Hs Hr]. split; [by eapply skips_trans|].
       rewrite Hr. apply (later_hour c c2 _ 24); [done| |done]. unfold day, msPerDay. dlia. }
  apply stage_hour in Eh as (Hs3 & Hday3 & Hhour3); [|done..].
  set (c3 := if h =? _ then _ else _) in *.
  assert (Hs13 : skips cron c c3) by (by eapply skips_trans).
  destruct (skips_ge _ _ Hs13) as [Hle3 Hal3].
  destruct (nextValue (values (minute cron)) (getUTCMinutes c3)) as [mi|] eqn:Emi.
  - apply stage_minute in Emi as [Hs4 Hm]; [|done..]. split; [by eapply skips_trans|done].
  - apply stage_minute_none in Emi as [Hs Hr]. split; [by eapply skips_trans|].
    rewrite Hr. apply (later_hour c c3 _ 1); [done| |done]. dlia.
Qed.

Lemma year_bound c y : getUTCFullYear c <= y <-> c < Cal.day_from_year (y + 1) * msPerDay.
Proof.
  assert (Hs : Cal.day_from_year (y + 1) = Cal.month_start (12 * (y + 1))).
  { replace (12 * (y + 1)) with (12 * (y + 1) + 0) by lia.
    rewrite Cal.month_start_at by lia. unfold Cal.cum_days. simpl. lia. }
  rewrite year_index, Hs. pose proof (Cal.month_start_le_day (12 * (y + 1)) (day c)) as Hm.
  unfold day, msPerDay in *. split; intros H.
  - destruct (Z.le_gt_cases (Cal.month_start (12 * (y + 1))) (c / 86400000)) as [Hle|]; [|dlia].
    apply Hm in Hle. dlia.
  - destruct (Z.le_gt_cases (12 * (y + 1)) (Cal.month_index (c / 86400000))) as [Hle|]; [|dlia].
    apply Hm in Hle. dlia.
Qed.

(** The loop returns the first occurrence, or there is none up to [finalYear]. *)
Lemma cron_loop_spec fuel finalYear c :
  aligned c -> 100 <= getUTCFullYear c ->
  Cal.day_from_year (finalYear + 1) * 24 - c / 3600000 < Z.of_nat fuel ->
  match cron_loop fuel cron finalYear c with
  | Some t => first_match cron c t
  | None => forall t, aligned t -> c <= t -> getUTCFullYear t <= finalYear ->
            matches cron t = false
  end.
Proof.
  revert c. induction fuel as [|fuel IH]; intros c Hal Hy Hfuel; simpl.
  - intros t _ Hle Ht. apply year_bound in Ht. unfold msPerDay in Ht. dlia.
  - destruct (Z.leb_spec (getUTCFullYear c) finalYear) as [Hyr|Hyr].
    2: { intros t _ Hle Ht. pose proof (year_mono c t Hle). lia. }
    pose proof (cron_step_spec c Hal Hy) as Hstep.
    destruct (cron_step cron c) as [c'|t]; simpl in Hstep.
    + destruct Hstep as [(Hle & Hal' & Hno) Hlater].
      assert (Hy' : 100 <= getUTCFullYear c') by (pose proof (year_mono c c' Hle); lia).
      specialize (IH c' Hal' Hy'). assert (Hf : Cal.day_from_year (finalYear + 1) * 24 - c' / 3600000 < Z.of_nat fuel) by lia.
      specialize (IH Hf). destruct (cron_loop fuel cron finalYear c') as [t|].
      * destruct IH as (H1 & H2 & H3 & H4). split; [lia|]. split; [done|]. split; [done|].
        intros t' At' Ht'. destruct (Z.lt_ge_cases t' c'); [apply Hno|apply H4]; auto; lia.
      * intros t At Ht Hyt. destruct (Z.lt_ge_cases t c'); [apply Hno|apply IH]; auto; lia.
    + destruct Hstep as [(Hle & Hal' & Hno) Hm]. by split.
Qed.
End stages.

(** ** Parsed expressions are well formed *)
Lemma stepped_range start stop step v :
  1 <= step -> start <= stop -> In v (stepped start stop step) -> start <= v <= stop.
Proof.
  intros Hs Hle. unfold stepped. rewrite in_map_iff. intros (i & <- & Hi).
  apply list_elem_of_In, elem_of_seqZ in Hi. assert (i * step <= stop - start); [|nia].
  pose proof (Z.mul_div_le (stop - start) step). nia.
Qed.

Lemma stepped_nonempty start stop step : 1 <= step -> start <= stop -> stepped start stop step <> [].
Proof.
  intros Hs Hle. unfold stepped. assert (0 <= (stop - start) / step) by (apply Z.div_pos; lia).
  by rewrite seqZ_cons by lia.
Qed.

Lemma parse_item_wf min max item star vs :
  min <= max -> parse_item min max item = Some (star, vs) ->
  vs <> [] /\ forall v, In v vs -> min <= v <= max.
Proof.
  intros Hmm. unfold parse_item. case_match; [done|].
  destruct (match List.nth_error _ _ with None => _ | Some _ => _ end) as [step|]; [|done].
  simpl. destruct (Z.ltb_spec step 1); [done|]. case_match.
  { intros [= <- <-]. split; [by apply stepped_nonempty|]. intros v. by apply stepped_range. }
  case_match; [done|]. destruct (parseInteger (List.nth 0 _ "")) as [a|]; [|done]. simpl.
  destruct (if (_ =? 1)%nat then Some a else _) as [b|]; [|done]. simpl.
  destruct (Z.ltb_spec a min), (Z.ltb_spec max b), (Z.ltb_spec b a); simpl; try done.
  case_match; [done|]. intros [= <- <-]. split; [by apply stepped_nonempty|].
  intros v Hv. apply stepped_range in Hv; lia.
Qed.

Lemma parse_items_wf min max items acc f :
  min <= max -> parse_items min max items acc = Some f ->
  (forall v, In v (values acc) -> min <= v <= max) ->
  (items <> [] \/ values acc <> []) -> field_wf min max f.
Proof.
  intros Hmm. revert acc. induction items as [|item items IH]; intros acc; simpl.
  - intros [= <-] Hr [|Hne]; [done|]. split; [done|]. intros v Hv. apply Hr. by apply has_In.
  - destruct (parse_item min max item) as [[star vs]|] eqn:E; [|done]. simpl. intros H Hr _.
    apply parse_item_wf in E as [Hne Hvs]; [|done]. apply IH in H; [done| |].
    + simpl. intros v Hv. apply in_app_iff in Hv as [|]; auto.
    + right. simpl. intros Hnil. by apply app_eq_nil in Hnil as [_ ?].
Qed.

Lemma split_on_nonempty c s : split_on c s <> [].
Proof. destruct s; simpl; [done|]. by repeat case_match. Qed.

Lemma parseField_wf source min max f :
  min <= max -> parseField source min max = Some f -> field_wf min max f.
Proof.
  intros Hmm H. eapply parse_items_wf; [done|exact H|by intros v []|].
  left. apply split_on_nonempty.
Qed.

Lemma parseCron_wf e cron : parseCron e = Some cron -> cron_wf cron.
Proof.
  unfold parseCron. destruct (split_on _ e) as [|a [|b [|c [|d [|f [|]]]]]]; try done.
  case_match; [done|].
  destruct (parseField a 0 59) as [mi|] eqn:E1; [|done].
  destruct (parseField b 0 23) as [h|] eqn:E2; [|done].
  destruct (parseField c 1 31) as [dm|] eqn:E3; [|done].
  destruct (parseField d 1 12) as [mo|] eqn:E4; [|done].
  destruct (parseField f 0 6) as [dw|] eqn:E5; [|done].
  intros [= <-]. unfold cron_wf. simpl.
  split; [|split; [|split; [|split]]]; (eapply parseField_wf; [|by eauto]); lia.
Qed.

(** ** Valid timestamps *)
Lemma take_digits_nonneg n s acc v rest :
  0 <= acc -> take_digits n s acc = Some (v, rest) -> 0 <= v.
Proof.
  revert s acc. induction n as [|n IH]; intros s acc Hacc; simpl; [by intros [= <- _]|].
  destruct s as [|c s]; [done|]. unfold digit_value. destruct (_ && _) eqn:E; [|done].
  apply andb_true_iff in E as [E1%Z.leb_le E2%Z.leb_le]. apply IH. lia.
Qed.

Lemma match_year_nonneg value f : match_utc_timestamp value = Some f -> 0 <= f_year f.
Proof.
  unfold match_utc_timestamp. intros H. apply bind_Some in H as ([y s1] & E & H).
  apply take_digits_nonneg in E; [|done].
  do 5 (apply bind_Some in H as (? & _ & H); apply bind_Some in H as ([? ?] & _ & H)).
  destruct (take_char _ _).
  - apply bind_Some in H as ([ms s'] & _ & H). destruct (str_eqb _ _); by simplify_eq/=.
  - destruct (str_eqb _ _); by simplify_eq/=.
Qed.

Lemma valid_timestamp value :
  isValidUtcTimestamp value = true ->
  exists f, match_utc_timestamp value = Some f /\ getUTCFullYear (date_of_fields f) = f_year f /\
    100 <= f_year f.
Proof.
  unfold isValidUtcTimestamp. destruct (match_utc_timestamp value) as [f|] eqn:Ef; [|done].
  apply match_year_nonneg in Ef as Hpos.
  rewrite !andb_true_iff, !Z.eqb_eq. intros H. exists f. split; [done|].
  unfold UTC, full_year in H. unfold date_of_fields.
  destruct ((0 <=? f_year f) && (f_year f <=? 99)) eqn:E.
  - exfalso. apply andb_true_iff in E as [E1%Z.leb_le E2%Z.leb_le].
    destruct H as ((((((Hy & Hm) & Hd) & Hh) & Hmi) & Hs) & Hms).
    set (t := make_date _ _) in *.
    pose proof (field_ranges t) as (Hm' & Hd' & Hh' & Hmi' & Hs' & Hms').
    rewrite Hm, Hd, Hh, Hmi, Hs, Hms in *.
    assert (12 * (1900 + f_year f) <= Cal.month_index (day t)) as Hk; [|rewrite year_index in Hy; dlia].
    apply Cal.month_start_le_day. unfold t. rewrite day_make_date by (unfold make_time, msPerDay; lia).
    unfold make_day. assert (Cal.month_start (12 * (1900 + f_year f))
      <= Cal.month_start (12 * (1900 + f_year f) + (f_month f - 1))); [|lia].
    apply Cal.month_start_le_iff. lia.
  - split; [by destruct H as ((((((Hy & _) & _) & _) & _) & _) & _)|].
    apply andb_false_iff in E as [E%Z.leb_gt|E%Z.leb_gt]; lia.
Qed.

(** ** The first candidate *)
Lemma first_candidate_eq after : first_candidate after = (after / 60000 + 1) * 60000.
Proof.
  unfold first_candidate. set (c := setUTCSeconds after 0 0).
  assert (Hc : c = after / 60000 * 60000).
  { unfold c, setUTCSeconds. rewrite hours_index, minutes_index.
    unfold make_date, make_time, day, msPerDay. dlia. }
  unfold setUTCMinutes1. rewrite hours_index, minutes_index.
  assert (Hs : getUTCSeconds c = 0) by (rewrite Hc; unfold getUTCSeconds, time_in_day, msPerDay; dlia).
  assert (Hms : getUTCMilliseconds c = 0)
    by (rewrite Hc; unfold getUTCMilliseconds, time_in_day, msPerDay; dlia).
  rewrite Hs, Hms, Hc. unfold make_date, make_time, day, msPerDay. dlia.
Qed.

(** Whole minutes strictly after an instant are those from the first candidate on. *)
Lemma first_candidate_spec after t :
  aligned t -> after < t <-> first_candidate after <= t.
Proof. unfold aligned. rewrite first_candidate_eq. intros H. dlia. Qed.

Lemma next_after_spec cron after :
  cron_wf cron -> 100 <= getUTCFullYear after ->
  match next_after cron after with
  | Some t => first_match cron (first_candidate after) t
  | None => forall t, aligned t -> after < t ->
            getUTCFullYear t <= getUTCFullYear (first_candidate after) + 8 -> matches cron t = false
  end.
Proof.
  intros Hwf Hy. unfold next_after. set (c := first_candidate after).
  assert (Hal : aligned c).
  { unfold aligned, c. rewrite first_candidate_eq. dlia. }
  assert (Hle : after <= c) by (unfold c; rewrite first_candidate_eq; dlia).
  pose proof (year_mono after c Hle) as Hyc.
  pose proof (cron_loop_spec cron Hwf (next_fuel (getUTCFullYear c + 8) c) (getUTCFullYear c + 8) c
    Hal) as Hloop.
  assert (Hf : Cal.day_from_year (getUTCFullYear c + 8 + 1) * 24 - c / 3600000
    < Z.of_nat (next_fuel (getUTCFullYear c + 8) c)) by (unfold next_fuel; lia).
  specialize (Hloop ltac:(lia) Hf).
  destruct (cron_loop _ _ _ _) as [t|]; [done|].
  intros t At Ht Hyt. apply Hloop; [done| |done]. by apply first_candidate_spec.
Qed.

(** Unfolding a successful or failed call. *)
Lemma nextCronOccurrence_inv expression after r :
  nextCronOccurrence expression after = r -> isValidUtcTimestamp after = true ->
  forall cron, parseCron expression = Some cron ->
  exists f, match_utc_timestamp after = Some f /\ r = fmap toISOString (next_after cron (date_of_fields f)) /\
    cron_wf cron /\ 100 <= getUTCFullYear (date_of_fields f).
Proof.
  intros <- Hv cron Hc. unfold nextCronOccurrence. rewrite Hv, Hc. cbn [mbind option_bind].
  destruct (valid_timestamp _ Hv) as (f & Hf & Hy & Hr). exists f. rewrite Hf, Hy.
  split; [done|]. split; [done|]. split; [by eapply parseCron_wf|lia].
Qed.

(** ** Every possible expression has an occurrence within eight years *)
Lemma leap_year_soon y : exists z, y + 1 <= z <= y + 8 /\ Cal.is_leap z = true.
Proof.
  set (z := (y + 4) / 4 * 4). assert (Hz : y + 1 <= z <= y + 4 /\ z mod 4 = 0) by (unfold z; dlia).
  destruct Hz as [Hz Hm]. clearbody z. unfold Cal.is_leap.
  destruct (Z.eqb_spec (z mod 100) 0) as [H100|H100].
  - exists (z + 4). split; [lia|]. replace ((z + 4) mod 4 =? 0) with true by dlia.
    replace ((z + 4) mod 100 =? 0) with false by dlia. done.
  - exists z. split; [lia|]. rewrite Hm. replace (z mod 100 =? 0) with false by lia. done.
Qed.

(** A day of the month that exists in some year exists in one of any eight consecutive years. *)
Lemma month_day_soon y0 y m d :
  0 <= m < 12 -> 1 <= d <= Cal.days_in_month (12 * y0 + m) ->
  exists z, y + 1 <= z <= y + 8 /\ 1 <= d <= Cal.days_in_month (12 * z + m).
Proof.
  intros Hm Hd. rewrite Cal.days_in_month_at in Hd by done.
  destruct (Z.eqb_spec m 1) as [->|Hne].
  - destruct (leap_year_soon y) as (z & Hz & Hl). exists z. split; [done|].
    rewrite Cal.days_in_month_at, Hl by done. simpl. destruct (Cal.is_leap y0); lia.
  - exists (y + 1). split; [lia|]. rewrite Cal.days_in_month_at by done.
    by rewrite (proj2 (Z.eqb_neq m 1)) by done.
Qed.

Lemma weekday_soon k w :
  0 <= w < 7 -> exists d, 1 <= d <= Cal.days_in_month k /\
    Cal.weekday (Cal.month_start k + d - 1) = w.
Proof.
  intros Hw. exists ((w - Cal.weekday (Cal.month_start k)) mod 7 + 1).
  pose proof (Cal.days_in_month_bounds k). unfold Cal.weekday. split; dlia.
Qed.

(** Day [d] of the month [12 * z + m], as [day_ok] sees it. *)
Lemma day_ok_of cron z m d :
  0 <= m < 12 -> 1 <= d <= Cal.days_in_month (12 * z + m) ->
  has (values (month cron)) (m + 1) = true ->
  matchesDay cron d (Cal.weekday (Cal.month_start (12 * z + m) + d - 1)) = true ->
  exists D, Cal.year_of_day D = z /\ day_ok cron D = true.
Proof.
  intros Hm Hd Hmon Hday. exists (Cal.month_start (12 * z + m) + d - 1).
  destruct (Cal.day_of_month_at _ _ Hd) as [Hk Hdom].
  split; [rewrite <- Cal.month_index_year, Hk; dlia|].
  unfold day_ok. rewrite Hk, Hdom, Hday. by replace ((12 * z + m) mod 12) with m by dlia; rewrite Hmon.
Qed.

Lemma day_ok_soon cron d0 y :
  day_ok cron d0 = true -> exists D, y + 1 <= Cal.year_of_day D <= y + 8 /\ day_ok cron D = true.
Proof.
  intros Hok. unfold day_ok in Hok. apply andb_true_iff in Hok as [Hmon Hday].
  pose proof (Cal.month_index_decomp d0) as Hdec. set (m := Cal.month_index d0 mod 12) in *.
  assert (Hm : 0 <= m < 12) by (unfold m; dlia).
  pose proof (Cal.day_of_month_bounds d0) as Hd. rewrite Hdec in Hd.
  assert (Hw : 0 <= Cal.weekday d0 < 7) by (unfold Cal.weekday; dlia).
  assert (Hdow : (forall d, matchesDay cron d (Cal.weekday d0) = true) ->
    exists D, y + 1 <= Cal.year_of_day D <= y + 8 /\ day_ok cron D = true).
  { intros Hall. destruct (weekday_soon (12 * (y + 1) + m) _ Hw) as (d & Hd' & Hwd).
    destruct (day_ok_of cron (y + 1) m d) as (D & HD & Hok); [done..|by rewrite Hwd|].
    exists D. rewrite HD. split; [lia|done]. }
  assert (Hdom : (forall w, matchesDay cron (Cal.day_of_month d0) w = true) ->
    exists D, y + 1 <= Cal.year_of_day D <= y + 8 /\ day_ok cron D = true).
  { intros Hall. destruct (month_day_soon _ y m _ Hm Hd) as (z & Hz & Hd').
    destruct (day_ok_of cron z m (Cal.day_of_month d0)) as (D & HD & Hok); [done..|].
    exists D. rewrite HD. split; [lia|done]. }
  unfold matchesDay in Hday, Hdow, Hdom.
  destruct (any (dayOfMonth cron)), (any (dayOfWeek cron)); simpl in *; auto.
  apply orb_true_iff in Hday as [Hx|Hx]; [apply Hdom|apply Hdow]; intros; rewrite Hx; auto.
  apply orb_true_r.
Qed.

Lemma has_unit_soon cron D h0 m0 :
  cron_wf cron -> day_ok cron D = true -> hour_ok cron h0 = true -> minute_ok cron m0 = true ->
  exists t, aligned t /\ day t = D /\ matches cron t = true.
Proof.
  intros _ HD Hh Hm. exists (D * msPerDay + (h0 mod 24) * 3600000 + (m0 mod 60) * 60000).
  unfold aligned, day, msPerDay. split; [dlia|]. split; [dlia|].
  rewrite matches_units. unfold msPerDay.
  replace (_ / 86400000) with D by dlia. unfold hour_ok, minute_ok in *.
  replace (_ / 3600000 mod 24) with (h0 mod 24) by dlia.
  replace (_ / 60000 mod 60) with (m0 mod 60) by dlia. by rewrite HD, Hh, Hm.
Qed.

Lemma match_soon cron t0 y :
  cron_wf cron -> matches cron t0 = true ->
  exists t, aligned t /\ y + 1 <= getUTCFullYear t <= y + 8 /\ matches cron t = true.
Proof.
  intros Hwf Hm. rewrite matches_units, !andb_true_iff in Hm. destruct Hm as [[HD Hh] Hmi].
  destruct (day_ok_soon cron _ y HD) as (D & HDy & HDok).
  destruct (has_unit_soon cron D _ _ Hwf HDok Hh Hmi) as (t & Hal & Hd & Hmt).
  exists t. unfold getUTCFullYear. rewrite Hd. done.
Qed.

(** ** Properties *)

(** A returned occurrence is a whole minute strictly after [after] that the parsed expression
    matches, and no whole minute in between matches. *)
Lemma next_occurrence_matches expression after iso :
  nextCronOccurrence expression after = Some iso ->
  exists cron f t,
    parseCron expression = Some cron /\ match_utc_timestamp after = Some f /\
    iso = toISOString t /\ date_of_fields f < t /\ aligned t /\ matches cron t = true /\
    forall t', aligned t' -> date_of_fields f < t' < t -> matches cron t' = false.
Proof.
  intros H. destruct (isValidUtcTimestamp after) eqn:Hv;
    [|unfold nextCronOccurrence in H; by rewrite Hv in H].
  destruct (parseCron expression) as [cron|] eqn:Hc;
    [|unfold nextCronOccurrence in H; by rewrite Hv, Hc in H].
  destruct (nextCronOccurrence_inv _ _ _ H Hv cron Hc) as (f & Hf & Hr & Hwf & Hy).
  pose proof (next_after_spec cron _ Hwf Hy) as Hs.
  destruct (next_after cron (date_of_fields f)) as [t|]; [|done].
  injection Hr as ->. destruct Hs as (Hle & Hal & Hm & Hmin).
  exists cron, f, t. repeat split; try done; [by apply first_candidate_spec|].
  intros t' Hal' Ht'. apply Hmin; [done|]. split; [|lia]. apply first_candidate_spec; [done|lia].
Qed.

(** The eight-year horizon loses nothing: for a valid timestamp and an
    expression that parses, the search gives up exactly when the expression
    selects no minute of the calendar at all. *)
Lemma no_occurrence_iff expression after cron :
  isValidUtcTimestamp after = true -> parseCron expression = Some cron ->
  nextCronOccurrence expression after = None <->
  forall t, aligned t -> matches cron t = false.
Proof.
  intros Hv Hc.
  destruct (nextCronOccurrence_inv _ _ _ eq_refl Hv cron Hc) as (f & Hf & Hr & Hwf & Hy).
  pose proof (next_after_spec cron _ Hwf Hy) as Hs. rewrite Hr. clear Hr.
  destruct (next_after cron (date_of_fields f)) as [t|]; cbn [fmap option_fmap option_map].
  - destruct Hs as (_ & Hal & Hm & _). split; [done|]. intros Hno. by rewrite Hno in Hm.
  - split; [|done]. intros _ t Hal. destruct (matches cron t) eqn:E; [|done].
    destruct (match_soon cron t (getUTCFullYear (first_candidate (date_of_fields f))) Hwf E)
      as (t' & Hal' & Hy' & Hm'). rewrite Hs in Hm'; [done|done| |lia].
    destruct (Z.lt_ge_cases (date_of_fields f) t') as [|Hge]; [done|]. apply year_mono in Hge.
    assert (date_of_fields f <= first_candidate (date_of_fields f)) as Hle
      by (rewrite first_candidate_eq; dlia). apply year_mono in Hle. lia.
Qed.

Lemma never_occurs expression after cron :
  isValidUtcTimestamp after = true -> parseCron expression = Some cron -> nextCronOccurrence expression after = None ->
  forall t, aligned t -> matches cron t = false.
Proof. intros Hv Hc H. by apply (no_occurrence_iff expression after). Qed.

(** Every instant from year 100 to 9999 that [toISOString] prints is
    accepted by [isValidUtcTimestamp] and read back as the same instant. *)
Theorem iso_timestamp_roundtrip t :
  100 <= getUTCFullYear t <= 9999 ->
  isValidUtcTimestamp (toISOString t) = true /\
  exists f, match_utc_timestamp (toISOString t) = Some f /\ date_of_fields f = t.
Proof.
  intros Hy. assert (Hf : match_utc_timestamp (toISOString t) = Some (instant_fields t))
    by (apply match_toISOString; lia).
  split; [|exists (instant_fields t); split; [done|apply date_of_instant_fields]].
  unfold isValidUtcTimestamp. rewrite Hf. unfold instant_fields, UTC, full_year.
  cbn [f_year f_month f_day f_hour f_minute f_second f_ms].
  rewrite (proj2 (Z.leb_gt _ 99)) by lia. rewrite andb_false_r.
  replace (getUTCMonth t + 1 - 1) with (getUTCMonth t) by lia.
  rewrite make_date_fields, !Z.eqb_refl. done.
Qed.

Lemma iso_timestamp_roundtrip_witness :
  toISOString 1767225600000 = "2026-01-01T00:00:00.000Z" /\
  isValidUtcTimestamp (toISOString 1767225600000) = true.
Proof.
  split; [vm_compute; reflexivity|].
  apply (iso_timestamp_roundtrip 1767225600000). split; vm_compute; discriminate.
Defined.

(** A stepped wildcard in the day-of-month field is ignored: the values
    parsed for [*/2] do not contain the 2nd, yet the schedule fires on it,
    because [matchesDay] consults the values only when the field is no wildcard. *)
Theorem stepped_day_wildcard_ignored :
  exists cron, parseCron "0 0 */2 * *" = Some cron /\
    has (values (dayOfMonth cron)) 2 = false /\
    (forall d w, matchesDay cron d w = true) /\
    nextCronOccurrence "0 0 */2 * *" "2026-01-01T00:00:00.000Z" = Some "2026-01-02T00:00:00.000Z".
Proof.
  eexists. split; [vm_compute; reflexivity|]. split; [vm_compute; reflexivity|].
  split; [by intros|]. vm_compute. reflexivity.
Qed.
