(* ===== verification/CronSpec.v ===== *)
(** * What a cron expression means

    The specification of modules/shared/src/cron.ts, stated on the text of the
    expression and independently of the parser: a grammar of the five fields
    ([expression_means]), the instants it selects ([occurs]), that the parser
    accepts exactly this grammar, and that [nextCronOccurrence] returns the first
    instant selected. *)

From Stdlib Require Import ZArith Lia Ascii.
From stdpp Require Import base strings list numbers.
From S2P Require Import Prelude DateTime Cron.

Local Open Scope Z_scope.
Import JsDate.

(** ** The grammar *)

(** The numbers [start], [start + step], .. up to [stop]; [star] when written with [*]. *)
Record Range := mkRange { star : bool; start : Z; stop : Z; step : Z }.

(** A number in decimal digits. *)
Definition decimal (s : string) (n : Z) : Prop :=
  s <> "" /\ digits_value s 0 = Some n /\ n <= MAX_SAFE_INTEGER.

(** One item of a field whose numbers go from [min] to [max]. *)
Inductive item_means (min max : Z) : string -> Range -> Prop :=
| means_any : item_means min max "*" (mkRange true min max 1)
| means_any_step s n : decimal s n -> 1 <= n -> item_means min max ("*/" +:+ s) (mkRange true min max n)
| means_value s a : decimal s a -> min <= a <= max -> item_means min max s (mkRange false a a 1)
| means_range s a s' b :
    decimal s a -> decimal s' b -> min <= a -> a <= b -> b <= max ->
    item_means min max (s +:+ "-" +:+ s') (mkRange false a b 1)
| means_range_step s a s' b s'' n :
    decimal s a -> decimal s' b -> decimal s'' n -> min <= a -> a <= b -> b <= max -> 1 <= n ->
    item_means min max (s +:+ "-" +:+ s' +:+ "/" +:+ s'') (mkRange false a b n).

(** The pieces with [c] between them. *)
Fixpoint join (c : ascii) (pieces : list string) : string :=
  match pieces with
  | [] => ""
  | [p] => p
  | p :: rest => p +:+ String c (join c rest)
  end.

(** A field is a list of items with commas between them. *)
Definition field_means (min max : Z) (source : string) (ranges : list Range) : Prop :=
  exists items, items <> [] /\ source = join "," items /\ Forall2 (item_means min max) items ranges.

Record Meaning := mkMeaning {
  m_minute : list Range;
  m_hour : list Range;
  m_dayOfMonth : list Range;
  m_month : list Range;
  m_dayOfWeek : list Range;
}.

(** Five fields with one space between them. *)
Definition expression_means (expression : string) (m : Meaning) : Prop :=
  exists minute hour dayOfMonth month dayOfWeek,
    expression = join " " [minute; hour; dayOfMonth; month; dayOfWeek] /\
    field_means 0 59 minute (m_minute m) /\ field_means 0 23 hour (m_hour m) /\
    field_means 1 31 dayOfMonth (m_dayOfMonth m) /\ field_means 1 12 month (m_month m) /\
    field_means 0 6 dayOfWeek (m_dayOfWeek m).

(** ** The instants selected *)
Definition in_range (r : Range) (v : Z) : Prop := exists k, 0 <= k /\ v = start r + k * step r /\ v <= stop r.

Definition selected (ranges : list Range) (v : Z) : Prop := exists r, In r ranges /\ in_range r v.

Definition has_star (ranges : list Range) : Prop := exists r, In r ranges /\ star r = true.

(** The traditional rule: when neither day field has a [*] one of them has to select the
    day, otherwise both have to. *)
Definition day_selected (m : Meaning) (dayOfMonth weekday : Z) : Prop :=
  let dom := selected (m_dayOfMonth m) dayOfMonth in
  let dow := selected (m_dayOfWeek m) weekday in
  (~ has_star (m_dayOfMonth m) /\ ~ has_star (m_dayOfWeek m) /\ (dom \/ dow)) \/
  ((has_star (m_dayOfMonth m) \/ has_star (m_dayOfWeek m)) /\ dom /\ dow).

(** A whole minute all of whose fields are selected. *)
Definition occurs (m : Meaning) (t : Z) : Prop :=
  t mod 60000 = 0 /\ selected (m_month m) (getUTCMonth t + 1) /\
  day_selected m (getUTCDate t) (getUTCDay t) /\
  selected (m_hour m) (getUTCHours t) /\ selected (m_minute m) (getUTCMinutes t).

(** No [*/n] with [n] above 1 in a day field. *)
Definition plain_day_wildcards (m : Meaning) : Prop :=
  forall r, In r (m_dayOfMonth m) \/ In r (m_dayOfWeek m) -> star r = true -> step r = 1.

(** ** Splitting *)
Fixpoint avoids (c : ascii) (s : string) : bool :=
  match s with EmptyString => true | String d s => negb (Ascii.eqb c d) && avoids c s end.

Lemma join_split c s : join c (split_on c s) = s.
Proof.
  induction s as [|d s IH]; [done|]. cbn [split_on]. destruct (Ascii.eqb_spec c d) as [<-|].
  - destruct (split_on c s) as [|h l] eqn:E; [by apply split_on_nonempty in E|].
    transitivity (String c (join c (h :: l))); [done|]. by rewrite IH.
  - destruct (split_on c s) as [|h l] eqn:E; [by apply split_on_nonempty in E|].
    rewrite <- IH. by destruct l.
Qed.

Lemma append_cons d (a b : string) : String d a +:+ b = String d (a +:+ b).
Proof. reflexivity. Qed.

Lemma append_nil (b : string) : "" +:+ b = b.
Proof. reflexivity. Qed.

Lemma append_assoc (a b c : string) : (a +:+ b) +:+ c = a +:+ b +:+ c.
Proof. induction a as [|d a IH]; [done|]. by rewrite !append_cons, IH. Qed.

Lemma split_app c a b : avoids c a = true -> split_on c (a +:+ String c b) = a :: split_on c b.
Proof.
  induction a as [|d a IH]; rewrite ?append_cons, ?append_nil; cbn [split_on avoids]; intros H; [by rewrite Ascii.eqb_refl|].
  apply andb_true_iff in H as [Hd Ha]. apply negb_true_iff in Hd. rewrite Hd. by rewrite IH.
Qed.

Lemma split_one c a : avoids c a = true -> split_on c a = [a].
Proof.
  induction a as [|d a IH]; cbn [split_on avoids]; intros H; [done|].
  apply andb_true_iff in H as [Hd Ha]. apply negb_true_iff in Hd. rewrite Hd. by rewrite IH.
Qed.

Lemma split_join c pieces :
  pieces <> [] -> Forall (fun p => avoids c p = true) pieces -> split_on c (join c pieces) = pieces.
Proof.
  intros Hne H. induction H as [|p l Hp Hl IH]; [done|]. destruct l as [|q l]; [by apply split_one|].
  change (join c (p :: q :: l)) with (p +:+ String c (join c (q :: l))). rewrite split_app by done.
  by rewrite IH.
Qed.

Lemma avoids_app c a b : avoids c (a +:+ b) = avoids c a && avoids c b.
Proof. induction a as [|d a IH]; rewrite ?append_cons, ?append_nil; cbn [avoids]; [done|]. by rewrite IH, andb_assoc. Qed.

Lemma digits_avoid c s acc n : digit_value c = None -> digits_value s acc = Some n -> avoids c s = true.
Proof.
  intros Hc. revert acc. induction s as [|d s IH]; intros acc H; cbn [digits_value avoids] in *; [done|].
  destruct (digit_value d) as [x|] eqn:E; [|done]. destruct (Ascii.eqb_spec c d) as [->|]; [congruence|].
  by eapply IH.
Qed.

Lemma decimal_avoids c s n : digit_value c = None -> decimal s n -> avoids c s = true.
Proof. intros Hc (_ & H & _). by eapply digits_avoid. Qed.

Lemma parseInteger_decimal s n : parseInteger s = Some n <-> decimal s n.
Proof.
  unfold parseInteger, decimal, is_empty. destruct (str_eqb s "") eqn:E.
  - apply str_eqb_true in E. naive_solver.
  - assert (s <> "") by (intros ->; done). destruct (digits_value s 0) as [x|]; cbn; [|naive_solver].
    destruct (Z.leb_spec x MAX_SAFE_INTEGER); naive_solver lia.
Qed.

(** ** The parser accepts the grammar *)
Definition range_values (r : Range) : list Z := stepped (start r) (stop r) (step r).

Lemma decimal_nonempty s n : decimal s n -> is_empty s = false.
Proof. intros (H & _ & _). unfold is_empty. destruct (str_eqb s "") eqn:E; [|done]. by apply str_eqb_true in E. Qed.

Lemma decimal_not_star s n : decimal s n -> str_eqb s "*" = false.
Proof.
  intros (_ & H & _). destruct (str_eqb s "*") eqn:E; [|done]. apply str_eqb_true in E. by subst.
Qed.

Lemma range_not_star s n t : decimal s n -> str_eqb (s +:+ String "-" t) "*" = false.
Proof.
  intros (Hne & H & _). destruct (str_eqb _ "*") eqn:E; [|done]. apply str_eqb_true in E.
  destruct s as [|d [|e s]]; cbn in E; [done| |done]. injection E as _ E. by destruct t.
Qed.

Ltac digits_only := eapply decimal_avoids; [reflexivity|eassumption].

Lemma item_parses min max item r :
  item_means min max item r -> parse_item min max item = Some (star r, range_values r).
Proof.
  intros H. unfold parse_item, range_values. destruct H as [|s n Hs Hn|s a Hs Ha|s a s' b Hs Hs' H1 H2 H3|s a s' b s'' n Hs Hs' Hn' H1 H2 H3 Hn].
  - done.
  - change ("*/" +:+ s) with ("*" +:+ String "/" s). rewrite split_app, (split_one _ s) by (done || digits_only).
    cbn. rewrite (decimal_nonempty s n Hs). cbn. rewrite (proj2 (parseInteger_decimal s n) Hs). cbn.
    by rewrite (proj2 (Z.ltb_ge n 1)) by lia.
  - rewrite (split_one _ s) by digits_only. cbn. rewrite (decimal_nonempty s a Hs). cbn.
    rewrite (decimal_not_star s a Hs), (split_one _ s) by digits_only. cbn. rewrite (decimal_nonempty s a Hs). cbn.
    rewrite (proj2 (parseInteger_decimal s a) Hs). cbn.
    rewrite (proj2 (Z.ltb_ge a min)), (proj2 (Z.ltb_ge max a)), (proj2 (Z.ltb_ge a a)) by lia. done.
  - change (s +:+ "-" +:+ s') with (s +:+ String "-" s').
    rewrite (split_one "/") by (rewrite avoids_app; cbn; apply andb_true_iff; split; digits_only). cbn.
    assert (is_empty (s +:+ String "-" s') = false) as -> by (by destruct s). cbn.
    rewrite (range_not_star s a s' Hs), (split_app "-"), (split_one _ s') by digits_only. cbn.
    rewrite (decimal_nonempty s a Hs), (decimal_nonempty s' b Hs'). cbn.
    rewrite (proj2 (parseInteger_decimal s a) Hs), (proj2 (parseInteger_decimal s' b) Hs'). cbn.
    rewrite (proj2 (Z.ltb_ge a min)), (proj2 (Z.ltb_ge max b)), (proj2 (Z.ltb_ge b a)) by lia. done.
  - replace (s +:+ "-" +:+ s' +:+ "/" +:+ s'') with ((s +:+ String "-" s') +:+ String "/" s'')
      by (by rewrite append_assoc).
    rewrite (split_app "/"), (split_one _ s'')
      by first [digits_only|rewrite avoids_app; cbn; apply andb_true_iff; split; digits_only].
    cbn. assert (is_empty (s +:+ String "-" s') = false) as -> by (by destruct s).
    rewrite (decimal_nonempty s'' n Hn'). cbn. rewrite (proj2 (parseInteger_decimal s'' n) Hn'). cbn.
    rewrite (proj2 (Z.ltb_ge n 1)) by lia.
    rewrite (range_not_star s a s' Hs), (split_app "-"), (split_one _ s') by digits_only. cbn.
    rewrite (decimal_nonempty s a Hs), (decimal_nonempty s' b Hs'). cbn.
    rewrite (proj2 (parseInteger_decimal s a) Hs), (proj2 (parseInteger_decimal s' b) Hs'). cbn.
    rewrite (proj2 (Z.ltb_ge a min)), (proj2 (Z.ltb_ge max b)), (proj2 (Z.ltb_ge b a)) by lia. done.
Qed.

(** ** The parser accepts nothing else *)
Lemma nonempty_parts parts :
  (2 <? length parts)%nat || existsb is_empty parts = false -> parts <> [] ->
  (exists p, parts = [p] /\ p <> "") \/ exists p q, parts = [p; q] /\ p <> "" /\ q <> "".
Proof.
  intros H Hne. assert (forall s, is_empty s = false -> s <> "") as He by (intros s Hs ->; done).
  destruct parts as [|p [|q [|r l]]]; [done| | |done]; cbn in H.
  - left. exists p. split; [done|]. apply He. by destruct (is_empty p).
  - right. exists p, q. split; [done|]. split; apply He; by destruct (is_empty p), (is_empty q).
Qed.

(** The part of an item before its step. *)
Lemma parsed_range min max r (step : option string) (k : Z -> Z -> option (bool * list Z)) x :
  (let range := split_on "-" r in
   if (2 <? length range)%nat || existsb is_empty range then None
   else
     rangeStart ← parseInteger (List.nth 0 range "");
     rangeEnd ← (if (length range =? 1)%nat then Some rangeStart else parseInteger (List.nth 1 range ""));
     if (rangeStart <? min) || (max <? rangeEnd) || (rangeEnd <? rangeStart) then None
     else if is_some step && (length range =? 1)%nat then None
     else k rangeStart rangeEnd) = Some x ->
  exists a b, min <= a /\ a <= b /\ b <= max /\
    ((decimal r a /\ a = b /\ step = None) \/
     exists s s', r = s +:+ String "-" s' /\ decimal s a /\ decimal s' b).
Proof.
  cbv zeta. pose proof (join_split "-" r) as Hj. destruct (_ || _) eqn:Hp; [done|].
  destruct (nonempty_parts _ Hp (split_on_nonempty "-" r)) as [(p & E & _)|(p & q & E & _)]; rewrite E in *; cbn in Hj |- *.
  - destruct (parseInteger p) as [y|] eqn:Ey; [|done]. cbn. apply parseInteger_decimal in Ey.
    destruct (Z.ltb_spec y min), (Z.ltb_spec max y), (Z.ltb_spec y y); cbn; try done.
    destruct step; [done|]. cbn. intros _. subst p. exists y, y. do 3 (split; [lia|]). by left.
  - destruct (parseInteger p) as [y|] eqn:Ey; [|done]. cbn. destruct (parseInteger q) as [z|] eqn:Ez; [|done]. cbn.
    apply parseInteger_decimal in Ey, Ez.
    destruct (Z.ltb_spec y min), (Z.ltb_spec max z), (Z.ltb_spec z y); cbn; try done.
    intros _. exists y, z. do 3 (split; [lia|]). right. by exists p, q.
Qed.

Lemma item_meant min max item x : parse_item min max item = Some x -> exists r, item_means min max item r.
Proof.
  unfold parse_item. cbv zeta. pose proof (join_split "/" item) as Hj. destruct (_ || _) eqn:Hp; [done|].
  destruct (nonempty_parts _ Hp (split_on_nonempty "/" item)) as [(p & E & _)|(p & q & E & _)]; rewrite E in *; clear Hp E;
    cbn [List.nth List.nth_error join] in *.
  - cbn [mbind option_bind]. destruct (1 <? 1); [done|]. subst item. destruct (str_eqb p "*") eqn:Es.
    { intros _. apply str_eqb_true in Es as ->. eexists. apply means_any. }
    intros H. apply (parsed_range min max p None) in H as (a & b & H1 & H2 & H3 & [(Hd & -> & _)|(s & s' & -> & Hs & Hs')]);
      eexists; [by apply means_value|by apply (means_range _ _ s a s' b)].
  - destruct (parseInteger q) as [n|] eqn:En; [|done]. apply parseInteger_decimal in En. cbn [mbind option_bind].
    destruct (Z.ltb_spec n 1) as [|Hn]; [done|]. subst item. destruct (str_eqb p "*") eqn:Es.
    { intros _. apply str_eqb_true in Es as ->. eexists. by apply (means_any_step _ _ q n). }
    intros H. apply (parsed_range min max p (Some q)) in H as (a & b & H1 & H2 & H3 & [(_ & _ & ?)|(s & s' & -> & Hs & Hs')]);
      [done|].
    eexists. rewrite append_assoc. by apply (means_range_step _ _ s a s' b q n).
Qed.

(** ** Fields and expressions *)
Definition field_of (ranges : list Range) : CronField :=
  mkCronField (existsb star ranges) (flat_map range_values ranges).

Definition cron_of (m : Meaning) : ParsedCron :=
  mkParsedCron (field_of (m_minute m)) (field_of (m_hour m)) (field_of (m_dayOfMonth m)) (field_of (m_month m))
    (field_of (m_dayOfWeek m)).

Lemma items_parse min max items ranges : Forall2 (item_means min max) items ranges -> forall acc,
  parse_items min max items acc =
  Some (mkCronField (any acc || existsb star ranges) (values acc ++ flat_map range_values ranges)).
Proof.
  induction 1 as [|item r items ranges H _ IH]; intros acc; cbn [parse_items existsb flat_map].
  - rewrite orb_false_r, app_nil_r. by destruct acc.
  - rewrite (item_parses _ _ _ _ H). cbn [mbind option_bind]. rewrite IH. cbn. by rewrite orb_assoc, app_assoc.
Qed.

(** No item has a comma or a space. *)
Lemma item_avoids min max item r c :
  digit_value c = None -> c <> "*"%char -> c <> "/"%char -> c <> "-"%char ->
  item_means min max item r -> avoids c item = true.
Proof.
  intros Hc H1 H2 H3 H. assert (forall d s, c <> d -> avoids c s = true -> avoids c (String d s) = true) as Hcons.
  { intros d s Hd Hs. cbn [avoids]. rewrite Hs. by destruct (Ascii.eqb_spec c d). }
  destruct H as [|s n Hs _|s a Hs _|s a s' b Hs Hs' _ _ _|s a s' b s'' n Hs Hs' Hs'' _ _ _ _].
  - by apply Hcons.
  - rewrite append_cons. apply Hcons; [done|]. rewrite append_cons. apply Hcons; [done|]. by eapply decimal_avoids.
  - by eapply decimal_avoids.
  - rewrite avoids_app. apply andb_true_iff. split; [by eapply decimal_avoids|].
    rewrite append_cons. apply Hcons; [done|]. by eapply decimal_avoids.
  - rewrite avoids_app. apply andb_true_iff. split; [by eapply decimal_avoids|].
    rewrite append_cons. apply Hcons; [done|]. rewrite append_nil, avoids_app. apply andb_true_iff.
    split; [by eapply decimal_avoids|]. rewrite append_cons. apply Hcons; [done|]. by eapply decimal_avoids.
Qed.

Lemma items_avoid min max items ranges c :
  digit_value c = None -> c <> "*"%char -> c <> "/"%char -> c <> "-"%char ->
  Forall2 (item_means min max) items ranges -> Forall (fun i => avoids c i = true) items.
Proof. intros Hc H1 H2 H3. induction 1; constructor; [by eapply item_avoids|done]. Qed.

Lemma field_parses min max source ranges :
  field_means min max source ranges ->
  parseField source min max = Some (field_of ranges) /\ source <> "" /\ avoids " " source = true.
Proof.
  intros (items & Hne & -> & H). split; [|split].
  - unfold parseField. rewrite split_join; [by rewrite (items_parse _ _ _ _ H)|done|by eapply items_avoid].
  - inversion H as [|item r l ranges' Hi]; [by subst|]. assert (item <> "") as Hitem.
    { destruct Hi as [| |s a [? _]|s a s' b [? _]|s a s' b s'' n [? _]]; [done|done|done|by destruct s|by destruct s]. }
    destruct l; cbn [join]; [done|]. by destruct item.
  - pose proof (items_avoid _ _ _ _ " " eq_refl ltac:(done) ltac:(done) ltac:(done) H) as Ha. clear -Ha.
    induction Ha as [|p l Hp _ IH]; [done|]. destruct l as [|q l]; [done|].
    change (join "," (p :: q :: l)) with (p +:+ String "," (join "," (q :: l))). rewrite avoids_app, Hp. exact IH.
Qed.

Lemma items_meant min max items : forall acc f,
  parse_items min max items acc = Some f -> exists ranges, Forall2 (item_means min max) items ranges.
Proof.
  induction items as [|item items IH]; intros acc f; cbn [parse_items]; [by exists []|].
  destruct (parse_item min max item) as [[b vs]|] eqn:E; [|done]. intros H. apply IH in H as [ranges H].
  apply item_meant in E as [r Hr]. exists (r :: ranges). by constructor.
Qed.

Lemma field_meant min max source f :
  parseField source min max = Some f -> exists ranges, field_means min max source ranges.
Proof.
  intros H. apply items_meant in H as [ranges H]. exists ranges, (split_on "," source).
  split; [apply split_on_nonempty|]. by rewrite join_split.
Qed.

Lemma is_empty_false s : s <> "" -> is_empty s = false.
Proof. intros H. unfold is_empty. destruct (str_eqb s "") eqn:E; [|done]. by apply str_eqb_true in E. Qed.

Lemma expression_parses expression m : expression_means expression m -> parseCron expression = Some (cron_of m).
Proof.
  intros (a & b & c & d & e & -> & (Ha & Na & Sa)%field_parses & (Hb & Nb & Sb)%field_parses &
    (Hc & Nc & Sc)%field_parses & (Hd & Nd & Sd)%field_parses & (He & Ne & Se)%field_parses).
  unfold parseCron. rewrite split_join by (done || by repeat constructor).
  cbn [existsb]. rewrite !is_empty_false by done. cbn [orb].
  by rewrite Ha, Hb, Hc, Hd, He.
Qed.

(** The parser accepts exactly the grammar. *)
Lemma parse_cron_grammar expression : (exists m, expression_means expression m) <-> parseCron expression <> None.
Proof.
  split; [intros [m H]; by rewrite (expression_parses _ _ H)|]. intros H. unfold parseCron in H.
  pose proof (join_split " " expression) as Hj.
  destruct (split_on " " expression) as [|a [|b [|c [|d [|e [|x l]]]]]]; try done.
  destruct (existsb is_empty _); [done|].
  destruct (parseField a 0 59) as [fa|] eqn:Ea; [|done]. destruct (parseField b 0 23) as [fb|] eqn:Eb; [|done].
  destruct (parseField c 1 31) as [fc|] eqn:Ec; [|done]. destruct (parseField d 1 12) as [fd|] eqn:Ed; [|done].
  destruct (parseField e 0 6) as [fe|] eqn:Ee; [|done].
  apply field_meant in Ea as [ra Ha], Eb as [rb Hb], Ec as [rc Hc], Ed as [rd Hd], Ee as [re He].
  exists (mkMeaning ra rb rc rd re), a, b, c, d, e. by repeat split.
Qed.

(** ** The values parsed are those selected *)
Lemma stepped_In a b s v : 1 <= s -> In v (stepped a b s) <-> exists k, 0 <= k /\ v = a + k * s /\ v <= b.
Proof.
  intros Hs. unfold stepped. rewrite in_map_iff. split.
  - intros (k & <- & Hk). apply list_elem_of_In, elem_of_seqZ in Hk. exists k. split; [lia|]. split; [done|].
    pose proof (Z.mul_div_le (b - a) s). nia.
  - intros (k & Hk & -> & Hb). exists k. split; [done|]. apply list_elem_of_In, elem_of_seqZ.
    assert (k <= (b - a) / s); [|lia]. apply Z.div_le_lower_bound; lia.
Qed.

Lemma field_ranges_ok min max source ranges r :
  field_means min max source ranges -> In r ranges ->
  1 <= step r /\ (star r = true -> start r = min /\ stop r = max).
Proof.
  intros (items & _ & _ & H). induction H as [|item x items ranges Hx _ IH]; [done|]. intros [<-|Hr]; [|by apply IH].
  destruct Hx; cbn; (split; [lia|done]).
Qed.

Lemma field_selects min max source ranges v :
  field_means min max source ranges -> has (values (field_of ranges)) v = true <-> selected ranges v.
Proof.
  intros H. rewrite has_In. cbn. rewrite in_flat_map. unfold selected, in_range, range_values.
  split; intros (r & Hr & Hv); exists r; (split; [done|]); destruct (field_ranges_ok _ _ _ _ _ H Hr) as [Hs _];
    by apply stepped_In in Hv || by apply stepped_In.
Qed.

Lemma field_star ranges : any (field_of ranges) = true <-> has_star ranges.
Proof. cbn. rewrite existsb_exists. done. Qed.

Lemma field_plain ranges : any (field_of ranges) = false <-> ~ has_star ranges.
Proof. rewrite <- field_star. by destruct (any _). Qed.

(** A field with a [*] and no step selects all its numbers. *)
Lemma star_selects min max source ranges v :
  field_means min max source ranges -> (forall r, In r ranges -> star r = true -> step r = 1) ->
  has_star ranges -> min <= v <= max -> selected ranges v.
Proof.
  intros H Hp (r & Hr & Hs) Hv. destruct (field_ranges_ok _ _ _ _ _ H Hr) as [_ Hb]. destruct (Hb Hs) as [E1 E2].
  exists r. split; [done|]. exists (v - min). rewrite (Hp r Hr Hs). lia.
Qed.

Lemma day_selects dom_source dow_source m d w :
  field_means 1 31 dom_source (m_dayOfMonth m) -> field_means 0 6 dow_source (m_dayOfWeek m) ->
  plain_day_wildcards m -> 1 <= d <= 31 -> 0 <= w <= 6 ->
  matchesDay (cron_of m) d w = true <-> day_selected m d w.
Proof.
  intros Hd Hw Hp Rd Rw.
  pose proof (field_selects _ _ _ _ d Hd) as Sd. pose proof (field_selects _ _ _ _ w Hw) as Sw.
  pose proof (star_selects _ _ _ _ d Hd (fun r Hr => Hp r (or_introl Hr))) as Ad.
  pose proof (star_selects _ _ _ _ w Hw (fun r Hr => Hp r (or_intror Hr))) as Aw.
  unfold matchesDay, day_selected. cbv zeta. cbn [dayOfMonth dayOfWeek cron_of].
  destruct (any (field_of (m_dayOfMonth m))) eqn:Ed, (any (field_of (m_dayOfWeek m))) eqn:Ew;
    [apply field_star in Ed; apply field_star in Ew|apply field_star in Ed; apply field_plain in Ew
    |apply field_plain in Ed; apply field_star in Ew|apply field_plain in Ed; apply field_plain in Ew];
    cbn [andb]; rewrite ?orb_true_iff, ?Sd, ?Sw; tauto.
Qed.

Lemma occurs_matches expression m t :
  expression_means expression m -> plain_day_wildcards m ->
  occurs m t <-> aligned t /\ matches (cron_of m) t = true.
Proof.
  intros (a & b & c & d & e & _ & Ha & Hb & Hc & Hd & He) Hp. unfold occurs, matches, aligned.
  pose proof (field_ranges t) as (_ & Rd & _).
  assert (0 <= getUTCDay t <= 6) as Rw by (unfold getUTCDay, Cal.weekday; dlia).
  rewrite !andb_true_iff. cbn [cron_of month hour minute].
  rewrite (field_selects _ _ _ _ _ Ha), (field_selects _ _ _ _ _ Hb), (field_selects _ _ _ _ _ Hd).
  rewrite (day_selects _ _ m _ _ Hc He Hp) by lia. tauto.
Qed.

(** ** Properties *)

(** [C40] The next occurrence of a cron expression.  [expression_means] is the grammar of the
    documentation on the text itself: five fields with single spaces, lists of numbers, [*],
    ranges and steps; the parser accepts exactly these.  [occurs] is the traditional meaning: a
    whole minute whose month, hour and minute are selected and whose day is selected by either
    day field when neither has a [*], else by both.  For a valid UTC timestamp and an expression
    of the grammar none of whose day fields has a [*] with a step above 1 (there the code ignores
    the step, see [stepped_day_wildcard_ignored]), the search returns the first instant strictly
    after the timestamp that occurs, and null exactly when no instant of the calendar does. *)
Theorem next_occurrence_first expression after :
  isValidUtcTimestamp after = true ->
  ((exists m, expression_means expression m) <-> parseCron expression <> None) /\
  forall m, expression_means expression m -> plain_day_wildcards m ->
  exists f, match_utc_timestamp after = Some f /\
    match nextCronOccurrence expression after with
    | Some iso => exists t, iso = toISOString t /\ date_of_fields f < t /\ occurs m t /\
                    forall t', date_of_fields f < t' < t -> ~ occurs m t'
    | None => forall t, ~ occurs m t
    end.
Proof.
  intros Hv. split; [apply parse_cron_grammar|]. intros m Hm Hp. pose proof (expression_parses _ _ Hm) as Hc.
  destruct (valid_timestamp _ Hv) as (f & Hf & _ & _). exists f. split; [done|].
  destruct (nextCronOccurrence expression after) as [iso|] eqn:E.
  - apply next_occurrence_matches in E as (cron & f' & t & Hc' & Hf' & -> & Hlt & Hal & Hm' & Hmin).
    rewrite Hc in Hc'. rewrite Hf in Hf'. simplify_eq. exists t. split; [done|]. split; [done|].
    split; [by apply (occurs_matches expression)|]. intros t' Ht' Ho.
    apply (occurs_matches expression) in Ho as [Ha Hx]; [|done|done]. by rewrite Hmin in Hx.
  - intros t Ho. apply (occurs_matches expression) in Ho as [Ha Hx]; [|done|done].
    rewrite (never_occurs expression after (cron_of m) Hv Hc E t Ha) in Hx. done.
Qed.

(** Mondays at 9:30. *)
Definition monday_morning : Meaning :=
  mkMeaning [mkRange false 30 30 1] [mkRange false 9 9 1] [mkRange true 1 31 1] [mkRange true 1 12 1] [mkRange false 1 1 1].

Lemma monday_morning_means : expression_means "30 9 * * 1" monday_morning.
Proof.
  exists "30", "9", "*", "*", "1". split; [reflexivity|].
  split; [exists ["30"]|split; [exists ["9"]|split; [exists ["*"]|split; [exists ["*"]|exists ["1"]]]]];
    (split; [done|split; [reflexivity|constructor; [|constructor]]]).
  - apply means_value; [|lia]. repeat split; done.
  - apply means_value; [|lia]. repeat split; done.
  - apply means_any.
  - apply means_any.
  - apply means_value; [|lia]. repeat split; done.
Qed.

Lemma next_occurrence_first_witness :
  exists t, toISOString t = "2026-01-05T09:30:00.000Z" /\ occurs monday_morning t.
Proof.
  destruct (next_occurrence_first "30 9 * * 1" "2026-01-01T00:00:00Z") as [_ H]; [vm_compute; reflexivity|].
  destruct (H monday_morning monday_morning_means) as (f & _ & Hn).
  { intros r Hr. cbn in Hr. intuition (subst; reflexivity). }
  assert (nextCronOccurrence "30 9 * * 1" "2026-01-01T00:00:00Z" = Some "2026-01-05T09:30:00.000Z") as E
    by (vm_compute; reflexivity).
  rewrite E in Hn. destruct Hn as (t & Ht & _ & Ho & _). exists t. split; [by symmetry|exact Ho].
Defined.
