(* ===== verification/Types.v ===== *)
(** * The data model

    The records of services/api/src/db/types.ts, db/plane-storage-types.ts,
    control-plane-types.ts and modules/shared/src, field by field, and the part
    of [ControlPlaneState] (control-plane-state.ts) that the in-memory control
    plane reads and writes.  A field [f?: T] is an [option], a field
    [f?: T | null] a [nullable]; numbers are [Z]; an enumeration of string
    literals is an inductive type with its spelling. *)

From Stdlib Require Import ZArith.
From stdpp Require Import base strings list.
From S2P Require Import Prelude.

Local Open Scope Z_scope.

(** ** Enumerations *)
Inductive SessionStatus := queued | running | completed | failed | cancelled | timed_out.

Inductive WorktreeStatus := idle | busy | error.

Inductive ScheduleKind := prompt_kind | scheduled_kind | workspace_kind.

#[global] Instance SessionStatus_eq_dec : EqDecision SessionStatus.
Proof. solve_decision. Defined.
#[global] Instance WorktreeStatus_eq_dec : EqDecision WorktreeStatus.
Proof. solve_decision. Defined.
#[global] Instance ScheduleKind_eq_dec : EqDecision ScheduleKind.
Proof. solve_decision. Defined.

(** The literal a status is written with. *)
Definition status_name (s : SessionStatus) : string :=
  match s with
  | queued => "queued"
  | running => "running"
  | completed => "completed"
  | failed => "failed"
  | cancelled => "cancelled"
  | timed_out => "timed_out"
  end.

Definition TERMINAL_SESSION_STATUSES : list SessionStatus := [completed; failed; cancelled; timed_out].

Definition isTerminalSessionStatus (s : SessionStatus) : bool :=
  bool_decide (s ∈ TERMINAL_SESSION_STATUSES).

Lemma terminal_iff s :
  isTerminalSessionStatus s = true <-> s <> queued /\ s <> running.
Proof. destruct s; vm_compute; naive_solver. Qed.

Lemma not_terminal_iff s :
  isTerminalSessionStatus s = false <-> s = queued \/ s = running.
Proof. destruct s; vm_compute; naive_solver. Qed.

(** A provider selects an eligible attached account; a command runs exactly that command. *)
Inductive TargetRef := target_provider (providerId : string) | target_command (commandId : string).

Inductive ResumeStream := stream_stdout | stream_stderr | stream_either.

Record ResumeRefCapture := mkResumeRefCapture {
  stream : ResumeStream;
  linePrefix : string;
}.

(** Free-form metadata; the control plane stores and forwards it unread. *)
Inductive json :=
| JNull
| JBool (b : bool)
| JNumber (z : Z)
| JString (s : string)
| JArray (items : list json)
| JObject (entries : list (string * json)).

Definition Metadata : Type := list (string * json).

Inductive SummarySource := summary_agent | summary_harness.

Record SessionResult := mkSessionResult {
  summary : string;
  summarySource : SummarySource;
  summaryTruncated : option bool;
  branch : option string;
  filesChanged : option (list string);
  filesChangedTruncated : option bool;
  pullRequestUrl : option string;
}.

(** ** Constants of modules/shared/src/constants.ts *)
Definition DEFAULT_MAX_CONCURRENT_SESSIONS : Z := 1.
Definition MAX_CONCURRENT_SESSIONS_LIMIT : Z := 64.
Definition HOST_PROTOCOL_VERSION : Z := 7.
Definition DEFAULT_ACK_DEADLINE_MS : Z := 15000.

(** ** Sessions *)

(** [SessionResumeSpec]: the command frozen by the first assignment, for a native resume. *)
Module Resume.

Record SessionResumeSpec := mkSessionResumeSpec {
  argv : list string;
  appendPrompt : bool;
  appendPromptSeparator : option bool;
  resumeArgvTemplate : option (list string);
  resumeRefCapture : option ResumeRefCapture;
}.

#[global] Instance eta_SessionResumeSpec : Eta SessionResumeSpec := fun r => mkSessionResumeSpec
  (argv r) (appendPrompt r) (appendPromptSeparator r) (resumeArgvTemplate r)
  (resumeRefCapture r).

#[global] Instance set_argv : Setter argv := ltac:(derive_setter).
#[global] Instance set_appendPrompt : Setter appendPrompt := ltac:(derive_setter).
#[global] Instance set_appendPromptSeparator : Setter appendPromptSeparator := ltac:(derive_setter).
#[global] Instance set_resumeArgvTemplate : Setter resumeArgvTemplate := ltac:(derive_setter).
#[global] Instance set_resumeRefCapture : Setter resumeRefCapture := ltac:(derive_setter).

End Resume.
Notation SessionResumeSpec := Resume.SessionResumeSpec.

(** The [resolvedRoute] of a session: the route of its current or most recent assignment. *)
Module Route.

Record ResolvedRoute := mkResolvedRoute {
  targetIndex : Z;
  providerId : option string;
  providerAccountId : option string;
  commandId : string;
  hostId : string;
  worktreeId : option string;
  workspacePoolId : option string;
  workspaceSlotId : option string;
  attemptId : string;
}.

#[global] Instance eta_ResolvedRoute : Eta ResolvedRoute := fun r => mkResolvedRoute
  (targetIndex r) (providerId r) (providerAccountId r) (commandId r) (hostId r) (worktreeId r)
  (workspacePoolId r) (workspaceSlotId r) (attemptId r).

#[global] Instance set_targetIndex : Setter targetIndex := ltac:(derive_setter).
#[global] Instance set_providerId : Setter providerId := ltac:(derive_setter).
#[global] Instance set_providerAccountId : Setter providerAccountId := ltac:(derive_setter).
#[global] Instance set_commandId : Setter commandId := ltac:(derive_setter).
#[global] Instance set_hostId : Setter hostId := ltac:(derive_setter).
#[global] Instance set_worktreeId : Setter worktreeId := ltac:(derive_setter).
#[global] Instance set_workspacePoolId : Setter workspacePoolId := ltac:(derive_setter).
#[global] Instance set_workspaceSlotId : Setter workspaceSlotId := ltac:(derive_setter).
#[global] Instance set_attemptId : Setter attemptId := ltac:(derive_setter).

End Route.
Notation ResolvedRoute := Route.ResolvedRoute.

(** Attempt-owned provider-account concurrency lease. *)
Module AccountLease.

Record ProviderAccountLease := mkProviderAccountLease {
  concurrencyId : string;
  providerAccountId : string;
  slot : Z;
  attemptId : string;
}.

#[global] Instance eta_ProviderAccountLease : Eta ProviderAccountLease := fun r => mkProviderAccountLease
  (concurrencyId r) (providerAccountId r) (slot r) (attemptId r).

#[global] Instance set_concurrencyId : Setter concurrencyId := ltac:(derive_setter).
#[global] Instance set_providerAccountId : Setter providerAccountId := ltac:(derive_setter).
#[global] Instance set_slot : Setter slot := ltac:(derive_setter).
#[global] Instance set_attemptId : Setter attemptId := ltac:(derive_setter).

End AccountLease.
Notation ProviderAccountLease := AccountLease.ProviderAccountLease.

(** Host-wide assignment-cap reservation. *)
Module HostLease.

Record HostAssignmentLease := mkHostAssignmentLease {
  hostId : string;
}.

#[global] Instance eta_HostAssignmentLease : Eta HostAssignmentLease := fun r => mkHostAssignmentLease
  (hostId r).

#[global] Instance set_hostId : Setter hostId := ltac:(derive_setter).

End HostLease.
Notation HostAssignmentLease := HostLease.HostAssignmentLease.

(** A terminal outcome whose repository hook a replacement daemon must run. *)
Module Handoff.

Record TerminalHookHandoff := mkTerminalHookHandoff {
  handoffId : string;
  attemptId : option string;
  hostId : string;
  repositoryId : string;
  worktreeId : option string;
  mainCheckoutLease : option bool;
  status : SessionStatus;
  errorCode : option string;
  expiresAt : string;
  ref : option string;
  metadata : option Metadata;
}.

#[global] Instance eta_TerminalHookHandoff : Eta TerminalHookHandoff := fun r => mkTerminalHookHandoff
  (handoffId r) (attemptId r) (hostId r) (repositoryId r) (worktreeId r) (mainCheckoutLease r)
  (status r) (errorCode r) (expiresAt r) (ref r) (metadata r).

#[global] Instance set_handoffId : Setter handoffId := ltac:(derive_setter).
#[global] Instance set_attemptId : Setter attemptId := ltac:(derive_setter).
#[global] Instance set_hostId : Setter hostId := ltac:(derive_setter).
#[global] Instance set_repositoryId : Setter repositoryId := ltac:(derive_setter).
#[global] Instance set_worktreeId : Setter worktreeId := ltac:(derive_setter).
#[global] Instance set_mainCheckoutLease : Setter mainCheckoutLease := ltac:(derive_setter).
#[global] Instance set_status : Setter status := ltac:(derive_setter).
#[global] Instance set_errorCode : Setter errorCode := ltac:(derive_setter).
#[global] Instance set_expiresAt : Setter expiresAt := ltac:(derive_setter).
#[global] Instance set_ref : Setter ref := ltac:(derive_setter).
#[global] Instance set_metadata : Setter metadata := ltac:(derive_setter).

End Handoff.
Notation TerminalHookHandoff := Handoff.TerminalHookHandoff.

Record HandoffSettled := mkHandoffSettled { settledHandoffId : string; settledHostId : string }.

Inductive CommandStartState := start_pending | start_authorized.

#[global] Instance CommandStartState_eq_dec : EqDecision CommandStartState.
Proof. solve_decision. Defined.

Inductive InfrastructureCode := checkout_fetch_failed | host_lost.

#[global] Instance InfrastructureCode_eq_dec : EqDecision InfrastructureCode.
Proof. solve_decision. Defined.

Definition infrastructure_code_name (c : InfrastructureCode) : string :=
  match c with checkout_fetch_failed => "checkout_fetch_failed" | host_lost => "host_lost" end.

(** [SessionRecord] (services/api/src/db/types.ts). *)
Module Session.

Record SessionRecord := mkSession {
  retentionToken : option string;
  retentionClaimedAt : option string;
  sessionOutputsSupported : option bool;
  outputsUploadExpiresAt : option string;
  terminalHookLifecycleEnqueuedAt : option string;
  id : string;
  repositoryId : string;
  workspacePoolId : option string;
  workspaceSlotId : nullable string;
  setupProfileId : option string;
  workspaceSetupScript : option string;
  destroyWorkspaceAfter : option bool;
  prompt : string;
  target : TargetRef;
  fallbacks : list TargetRef;
  targetDisplayNames : list string;
  queueTtlSeconds : Z;
  queueExpiresAt : string;
  resolvedRoute : option ResolvedRoute;
  attemptId : option string;
  suppressedTargetIndexes : option (list Z);
  resolvedArgv : option (list string);
  resumeSpec : option SessionResumeSpec;
  timeout : Z;
  priority : Z;
  requiredLabels : list string;
  status : SessionStatus;
  queueShard : Z;
  createdAt : string;
  ref : option string;
  worktreeId : nullable string;
  hostId : nullable string;
  activeHostId : option string;
  activeHostOrder : option string;
  concurrencyId : option string;
  scheduleId : option string;
  metadata : option Metadata;
  principalId : option string;
  parentSessionId : option string;
  rootSessionId : option string;
  descendantCount : option Z;
  sessionApiKeyHash : option string;
  cancelledByDrainOperationId : option string;
  errorCode : option string;
  errorMessage : option string;
  infrastructureRetryCount : option Z;
  lastInfrastructureErrorCode : option InfrastructureCode;
  infrastructureRetryAttemptId : option string;
  url : option string;
  type : option string;
  source : option string;
  startedAt : option string;
  completedAt : option string;
  ackReceivedAt : option string;
  assignmentConnectionId : option string;
  assignmentSentAt : option string;
  primaryCommandStartState : option CommandStartState;
  reconnectDeadlineAt : option string;
  exitCode : nullable Z;
  cliResumeRef : option string;
  result : option SessionResult;
  resumedFromSessionId : option string;
  pinnedHostId : nullable string;
  pinnedProviderAccountId : nullable string;
  pinnedTargetIndex : option Z;
  pinnedCommandId : option string;
  pinExpiresAt : option string;
  resumeFallback : option bool;
  mainCheckoutLease : option bool;
  workspaceSlotLease : option bool;
  providerAccountLease : option ProviderAccountLease;
  timedOutHostId : option string;
  timedOutAssignmentConnectionId : option string;
  hostAssignmentLease : option HostAssignmentLease;
  terminalHookHandoff : option TerminalHookHandoff;
  terminalHookHandoffSettled : option HandoffSettled;
  terminalHookHandoffExpiredAt : option string;
}.

#[global] Instance eta_SessionRecord : Eta SessionRecord := fun r => mkSession
  (retentionToken r) (retentionClaimedAt r) (sessionOutputsSupported r)
  (outputsUploadExpiresAt r) (terminalHookLifecycleEnqueuedAt r) (id r) (repositoryId r)
  (workspacePoolId r) (workspaceSlotId r) (setupProfileId r) (workspaceSetupScript r)
  (destroyWorkspaceAfter r) (prompt r) (target r) (fallbacks r) (targetDisplayNames r)
  (queueTtlSeconds r) (queueExpiresAt r) (resolvedRoute r) (attemptId r)
  (suppressedTargetIndexes r) (resolvedArgv r) (resumeSpec r) (timeout r) (priority r)
  (requiredLabels r) (status r) (queueShard r) (createdAt r) (ref r) (worktreeId r) (hostId r)
  (activeHostId r) (activeHostOrder r) (concurrencyId r) (scheduleId r) (metadata r)
  (principalId r) (parentSessionId r) (rootSessionId r) (descendantCount r)
  (sessionApiKeyHash r) (cancelledByDrainOperationId r) (errorCode r) (errorMessage r)
  (infrastructureRetryCount r) (lastInfrastructureErrorCode r) (infrastructureRetryAttemptId r)
  (url r) (type r) (source r) (startedAt r) (completedAt r) (ackReceivedAt r)
  (assignmentConnectionId r) (assignmentSentAt r) (primaryCommandStartState r)
  (reconnectDeadlineAt r) (exitCode r) (cliResumeRef r) (result r) (resumedFromSessionId r)
  (pinnedHostId r) (pinnedProviderAccountId r) (pinnedTargetIndex r) (pinnedCommandId r)
  (pinExpiresAt r) (resumeFallback r) (mainCheckoutLease r) (workspaceSlotLease r)
  (providerAccountLease r) (timedOutHostId r) (timedOutAssignmentConnectionId r)
  (hostAssignmentLease r) (terminalHookHandoff r) (terminalHookHandoffSettled r)
  (terminalHookHandoffExpiredAt r).

#[global] Instance set_retentionToken : Setter retentionToken := ltac:(derive_setter).
#[global] Instance set_retentionClaimedAt : Setter retentionClaimedAt := ltac:(derive_setter).
#[global] Instance set_sessionOutputsSupported : Setter sessionOutputsSupported := ltac:(derive_setter).
#[global] Instance set_outputsUploadExpiresAt : Setter outputsUploadExpiresAt := ltac:(derive_setter).
#[global] Instance set_terminalHookLifecycleEnqueuedAt : Setter terminalHookLifecycleEnqueuedAt := ltac:(derive_setter).
#[global] Instance set_id : Setter id := ltac:(derive_setter).
#[global] Instance set_repositoryId : Setter repositoryId := ltac:(derive_setter).
#[global] Instance set_workspacePoolId : Setter workspacePoolId := ltac:(derive_setter).
#[global] Instance set_workspaceSlotId : Setter workspaceSlotId := ltac:(derive_setter).
#[global] Instance set_setupProfileId : Setter setupProfileId := ltac:(derive_setter).
#[global] Instance set_workspaceSetupScript : Setter workspaceSetupScript := ltac:(derive_setter).
#[global] Instance set_destroyWorkspaceAfter : Setter destroyWorkspaceAfter := ltac:(derive_setter).
#[global] Instance set_prompt : Setter prompt := ltac:(derive_setter).
#[global] Instance set_target : Setter target := ltac:(derive_setter).
#[global] Instance set_fallbacks : Setter fallbacks := ltac:(derive_setter).
#[global] Instance set_targetDisplayNames : Setter targetDisplayNames := ltac:(derive_setter).
#[global] Instance set_queueTtlSeconds : Setter queueTtlSeconds := ltac:(derive_setter).
#[global] Instance set_queueExpiresAt : Setter queueExpiresAt := ltac:(derive_setter).
#[global] Instance set_resolvedRoute : Setter resolvedRoute := ltac:(derive_setter).
#[global] Instance set_attemptId : Setter attemptId := ltac:(derive_setter).
#[global] Instance set_suppressedTargetIndexes : Setter suppressedTargetIndexes := ltac:(derive_setter).
#[global] Instance set_resolvedArgv : Setter resolvedArgv := ltac:(derive_setter).
#[global] Instance set_resumeSpec : Setter resumeSpec := ltac:(derive_setter).
#[global] Instance set_timeout : Setter timeout := ltac:(derive_setter).
#[global] Instance set_priority : Setter priority := ltac:(derive_setter).
#[global] Instance set_requiredLabels : Setter requiredLabels := ltac:(derive_setter).
#[global] Instance set_status : Setter status := ltac:(derive_setter).
#[global] Instance set_queueShard : Setter queueShard := ltac:(derive_setter).
#[global] Instance set_createdAt : Setter createdAt := ltac:(derive_setter).
#[global] Instance set_ref : Setter ref := ltac:(derive_setter).
#[global] Instance set_worktreeId : Setter worktreeId := ltac:(derive_setter).
#[global] Instance set_hostId : Setter hostId := ltac:(derive_setter).
#[global] Instance set_activeHostId : Setter activeHostId := ltac:(derive_setter).
#[global] Instance set_activeHostOrder : Setter activeHostOrder := ltac:(derive_setter).
#[global] Instance set_concurrencyId : Setter concurrencyId := ltac:(derive_setter).
#[global] Instance set_scheduleId : Setter scheduleId := ltac:(derive_setter).
#[global] Instance set_metadata : Setter metadata := ltac:(derive_setter).
#[global] Instance set_principalId : Setter principalId := ltac:(derive_setter).
#[global] Instance set_parentSessionId : Setter parentSessionId := ltac:(derive_setter).
#[global] Instance set_rootSessionId : Setter rootSessionId := ltac:(derive_setter).
#[global] Instance set_descendantCount : Setter descendantCount := ltac:(derive_setter).
#[global] Instance set_sessionApiKeyHash : Setter sessionApiKeyHash := ltac:(derive_setter).
#[global] Instance set_cancelledByDrainOperationId : Setter cancelledByDrainOperationId := ltac:(derive_setter).
#[global] Instance set_errorCode : Setter errorCode := ltac:(derive_setter).
#[global] Instance set_errorMessage : Setter errorMessage := ltac:(derive_setter).
#[global] Instance set_infrastructureRetryCount : Setter infrastructureRetryCount := ltac:(derive_setter).
#[global] Instance set_lastInfrastructureErrorCode : Setter lastInfrastructureErrorCode := ltac:(derive_setter).
#[global] Instance set_infrastructureRetryAttemptId : Setter infrastructureRetryAttemptId := ltac:(derive_setter).
#[global] Instance set_url : Setter url := ltac:(derive_setter).
#[global] Instance set_type : Setter type := ltac:(derive_setter).
#[global] Instance set_source : Setter source := ltac:(derive_setter).
#[global] Instance set_startedAt : Setter startedAt := ltac:(derive_setter).
#[global] Instance set_completedAt : Setter completedAt := ltac:(derive_setter).
#[global] Instance set_ackReceivedAt : Setter ackReceivedAt := ltac:(derive_setter).
#[global] Instance set_assignmentConnectionId : Setter assignmentConnectionId := ltac:(derive_setter).
#[global] Instance set_assignmentSentAt : Setter assignmentSentAt := ltac:(derive_setter).
#[global] Instance set_primaryCommandStartState : Setter primaryCommandStartState := ltac:(derive_setter).
#[global] Instance set_reconnectDeadlineAt : Setter reconnectDeadlineAt := ltac:(derive_setter).
#[global] Instance set_exitCode : Setter exitCode := ltac:(derive_setter).
#[global] Instance set_cliResumeRef : Setter cliResumeRef := ltac:(derive_setter).
#[global] Instance set_result : Setter result := ltac:(derive_setter).
#[global] Instance set_resumedFromSessionId : Setter resumedFromSessionId := ltac:(derive_setter).
#[global] Instance set_pinnedHostId : Setter pinnedHostId := ltac:(derive_setter).
#[global] Instance set_pinnedProviderAccountId : Setter pinnedProviderAccountId := ltac:(derive_setter).
#[global] Instance set_pinnedTargetIndex : Setter pinnedTargetIndex := ltac:(derive_setter).
#[global] Instance set_pinnedCommandId : Setter pinnedCommandId := ltac:(derive_setter).
#[global] Instance set_pinExpiresAt : Setter pinExpiresAt := ltac:(derive_setter).
#[global] Instance set_resumeFallback : Setter resumeFallback := ltac:(derive_setter).
#[global] Instance set_mainCheckoutLease : Setter mainCheckoutLease := ltac:(derive_setter).
#[global] Instance set_workspaceSlotLease : Setter workspaceSlotLease := ltac:(derive_setter).
#[global] Instance set_providerAccountLease : Setter providerAccountLease := ltac:(derive_setter).
#[global] Instance set_timedOutHostId : Setter timedOutHostId := ltac:(derive_setter).
#[global] Instance set_timedOutAssignmentConnectionId : Setter timedOutAssignmentConnectionId := ltac:(derive_setter).
#[global] Instance set_hostAssignmentLease : Setter hostAssignmentLease := ltac:(derive_setter).
#[global] Instance set_terminalHookHandoff : Setter terminalHookHandoff := ltac:(derive_setter).
#[global] Instance set_terminalHookHandoffSettled : Setter terminalHookHandoffSettled := ltac:(derive_setter).
#[global] Instance set_terminalHookHandoffExpiredAt : Setter terminalHookHandoffExpiredAt := ltac:(derive_setter).

End Session.
Notation SessionRecord := Session.SessionRecord.

(** A session object literal with only the required properties. *)
Definition session_literal (id repositoryId prompt : string) (target : TargetRef)
    (fallbacks : list TargetRef) (targetDisplayNames : list string) (queueTtlSeconds : Z)
    (queueExpiresAt : string) (timeout priority : Z) (requiredLabels : list string)
    (status : SessionStatus) (queueShard : Z) (createdAt : string) : SessionRecord :=
  Session.mkSession None None None None None id repositoryId None Undef None None None prompt
    target fallbacks targetDisplayNames queueTtlSeconds queueExpiresAt None None None None None
    timeout priority requiredLabels status queueShard createdAt None Undef Undef None None None
    None None None None None None None None None None None None None None None None None None
    None None None None None Undef None None None Undef Undef None None None None None None None
    None None None None None None.

(** ** Execution resources *)

(** A host-local non-git workspace slot. *)
Module Slot.

Record WorkspaceSlotRecord := mkWorkspaceSlot {
  id : string;
  name : string;
  hostId : string;
  workspacePoolId : string;
  path : string;
  status : WorktreeStatus;
  online : bool;
  currentSessionId : nullable string;
  retired : option bool;
  connectionId : option string;
  lastAssignedAt : nullable string;
  errorMessage : option string;
}.

#[global] Instance eta_WorkspaceSlotRecord : Eta WorkspaceSlotRecord := fun r => mkWorkspaceSlot
  (id r) (name r) (hostId r) (workspacePoolId r) (path r) (status r) (online r)
  (currentSessionId r) (retired r) (connectionId r) (lastAssignedAt r) (errorMessage r).

#[global] Instance set_id : Setter id := ltac:(derive_setter).
#[global] Instance set_name : Setter name := ltac:(derive_setter).
#[global] Instance set_hostId : Setter hostId := ltac:(derive_setter).
#[global] Instance set_workspacePoolId : Setter workspacePoolId := ltac:(derive_setter).
#[global] Instance set_path : Setter path := ltac:(derive_setter).
#[global] Instance set_status : Setter status := ltac:(derive_setter).
#[global] Instance set_online : Setter online := ltac:(derive_setter).
#[global] Instance set_currentSessionId : Setter currentSessionId := ltac:(derive_setter).
#[global] Instance set_retired : Setter retired := ltac:(derive_setter).
#[global] Instance set_connectionId : Setter connectionId := ltac:(derive_setter).
#[global] Instance set_lastAssignedAt : Setter lastAssignedAt := ltac:(derive_setter).
#[global] Instance set_errorMessage : Setter errorMessage := ltac:(derive_setter).

End Slot.
Notation WorkspaceSlotRecord := Slot.WorkspaceSlotRecord.

(** A git worktree of a host. *)
Module Worktree.

Record WorktreeRecord := mkWorktree {
  id : string;
  name : string;
  hostId : string;
  repositoryId : string;
  path : string;
  labels : list string;
  status : WorktreeStatus;
  online : bool;
  currentSessionId : nullable string;
  connectionId : option string;
  lastAssignedAt : nullable string;
}.

#[global] Instance eta_WorktreeRecord : Eta WorktreeRecord := fun r => mkWorktree
  (id r) (name r) (hostId r) (repositoryId r) (path r) (labels r) (status r) (online r)
  (currentSessionId r) (connectionId r) (lastAssignedAt r).

#[global] Instance set_id : Setter id := ltac:(derive_setter).
#[global] Instance set_name : Setter name := ltac:(derive_setter).
#[global] Instance set_hostId : Setter hostId := ltac:(derive_setter).
#[global] Instance set_repositoryId : Setter repositoryId := ltac:(derive_setter).
#[global] Instance set_path : Setter path := ltac:(derive_setter).
#[global] Instance set_labels : Setter labels := ltac:(derive_setter).
#[global] Instance set_status : Setter status := ltac:(derive_setter).
#[global] Instance set_online : Setter online := ltac:(derive_setter).
#[global] Instance set_currentSessionId : Setter currentSessionId := ltac:(derive_setter).
#[global] Instance set_connectionId : Setter connectionId := ltac:(derive_setter).
#[global] Instance set_lastAssignedAt : Setter lastAssignedAt := ltac:(derive_setter).

End Worktree.
Notation WorktreeRecord := Worktree.WorktreeRecord.

(** ** Provider catalog *)

(** Operator-configured prices, decimal numbers of micros. *)
Module Rates.

Record UsageRates := mkUsageRates {
  inputTokenMicros : option string;
  outputTokenMicros : option string;
  cachedInputTokenMicros : option string;
  reasoningTokenMicros : option string;
  currency : string;
}.

End Rates.
Notation UsageRates := Rates.UsageRates.

(** An AI CLI vendor. *)
Module Prov.

Record Provider := mkProvider {
  id : string;
  name : string;
  defaultCommandId : option string;
  createdAt : string;
  updatedAt : string;
  usageRates : option UsageRates;
}.

#[global] Instance eta_Provider : Eta Provider := fun r => mkProvider
  (id r) (name r) (defaultCommandId r) (createdAt r) (updatedAt r) (usageRates r).

#[global] Instance set_id : Setter id := ltac:(derive_setter).
#[global] Instance set_name : Setter name := ltac:(derive_setter).
#[global] Instance set_defaultCommandId : Setter defaultCommandId := ltac:(derive_setter).
#[global] Instance set_createdAt : Setter createdAt := ltac:(derive_setter).
#[global] Instance set_updatedAt : Setter updatedAt := ltac:(derive_setter).
#[global] Instance set_usageRates : Setter usageRates := ltac:(derive_setter).

End Prov.
Notation Provider := Prov.Provider.

(** A provider account; [maxConcurrentSessions] is missing on legacy rows. *)
Module Account.

Record ProviderAccountRecord := mkProviderAccount {
  id : string;
  providerId : string;
  label : string;
  usageLimitCooldownSeconds : Z;
  maxConcurrentSessions : option Z;
  usageLimitedUntil : option string;
  lastUsageLimitedAt : option string;
  lastAssignedAt : option string;
  createdAt : string;
  updatedAt : string;
  version : option Z;
}.

#[global] Instance eta_ProviderAccountRecord : Eta ProviderAccountRecord := fun r => mkProviderAccount
  (id r) (providerId r) (label r) (usageLimitCooldownSeconds r) (maxConcurrentSessions r)
  (usageLimitedUntil r) (lastUsageLimitedAt r) (lastAssignedAt r) (createdAt r) (updatedAt r)
  (version r).

#[global] Instance set_id : Setter id := ltac:(derive_setter).
#[global] Instance set_providerId : Setter providerId := ltac:(derive_setter).
#[global] Instance set_label : Setter label := ltac:(derive_setter).
#[global] Instance set_usageLimitCooldownSeconds : Setter usageLimitCooldownSeconds := ltac:(derive_setter).
#[global] Instance set_maxConcurrentSessions : Setter maxConcurrentSessions := ltac:(derive_setter).
#[global] Instance set_usageLimitedUntil : Setter usageLimitedUntil := ltac:(derive_setter).
#[global] Instance set_lastUsageLimitedAt : Setter lastUsageLimitedAt := ltac:(derive_setter).
#[global] Instance set_lastAssignedAt : Setter lastAssignedAt := ltac:(derive_setter).
#[global] Instance set_createdAt : Setter createdAt := ltac:(derive_setter).
#[global] Instance set_updatedAt : Setter updatedAt := ltac:(derive_setter).
#[global] Instance set_version : Setter version := ltac:(derive_setter).

End Account.
Notation ProviderAccountRecord := Account.ProviderAccountRecord.

(** A named command invocation. *)
Module Cmd.

Record CommandRecord := mkCommand {
  id : string;
  name : string;
  argv : list string;
  appendPrompt : bool;
  appendPromptSeparator : option bool;
  resumeArgvTemplate : option (list string);
  resumeRefCapture : option ResumeRefCapture;
  providerId : option string;
  createdAt : string;
  updatedAt : string;
}.

#[global] Instance eta_CommandRecord : Eta CommandRecord := fun r => mkCommand
  (id r) (name r) (argv r) (appendPrompt r) (appendPromptSeparator r) (resumeArgvTemplate r)
  (resumeRefCapture r) (providerId r) (createdAt r) (updatedAt r).

#[global] Instance set_id : Setter id := ltac:(derive_setter).
#[global] Instance set_name : Setter name := ltac:(derive_setter).
#[global] Instance set_argv : Setter argv := ltac:(derive_setter).
#[global] Instance set_appendPrompt : Setter appendPrompt := ltac:(derive_setter).
#[global] Instance set_appendPromptSeparator : Setter appendPromptSeparator := ltac:(derive_setter).
#[global] Instance set_resumeArgvTemplate : Setter resumeArgvTemplate := ltac:(derive_setter).
#[global] Instance set_resumeRefCapture : Setter resumeRefCapture := ltac:(derive_setter).
#[global] Instance set_providerId : Setter providerId := ltac:(derive_setter).
#[global] Instance set_createdAt : Setter createdAt := ltac:(derive_setter).
#[global] Instance set_updatedAt : Setter updatedAt := ltac:(derive_setter).

End Cmd.
Notation CommandRecord := Cmd.CommandRecord.

(** ** Host inventory *)

(** Per-scope override of an account's enablement and command. *)
Module Override.

Record ProviderAccountOverride := mkOverride {
  enabled : option bool;
  commandId : option string;
}.

#[global] Instance eta_ProviderAccountOverride : Eta ProviderAccountOverride := fun r => mkOverride
  (enabled r) (commandId r).

#[global] Instance set_enabled : Setter enabled := ltac:(derive_setter).
#[global] Instance set_commandId : Setter commandId := ltac:(derive_setter).

End Override.
Notation ProviderAccountOverride := Override.ProviderAccountOverride.

(** A worktree of the host inventory. *)
Module HWorktree.

Record HostWorktree := mkHostWorktree {
  id : string;
  name : string;
  path : string;
  labels : list string;
  daemonLabels : option (list string);
  setupScript : option string;
  setupCacheInputs : option (list string);
  providerAccountOverrides : option (JsMap.t ProviderAccountOverride);
}.

#[global] Instance eta_HostWorktree : Eta HostWorktree := fun r => mkHostWorktree
  (id r) (name r) (path r) (labels r) (daemonLabels r) (setupScript r) (setupCacheInputs r)
  (providerAccountOverrides r).

#[global] Instance set_id : Setter id := ltac:(derive_setter).
#[global] Instance set_name : Setter name := ltac:(derive_setter).
#[global] Instance set_path : Setter path := ltac:(derive_setter).
#[global] Instance set_labels : Setter labels := ltac:(derive_setter).
#[global] Instance set_daemonLabels : Setter daemonLabels := ltac:(derive_setter).
#[global] Instance set_setupScript : Setter setupScript := ltac:(derive_setter).
#[global] Instance set_setupCacheInputs : Setter setupCacheInputs := ltac:(derive_setter).
#[global] Instance set_providerAccountOverrides : Setter providerAccountOverrides := ltac:(derive_setter).

End HWorktree.
Notation HostWorktree := HWorktree.HostWorktree.

(** A repository of the host inventory. *)
Module HRepository.

Record HostRepository := mkHostRepository {
  id : string;
  path : string;
  defaultBranch : string;
  worktrees : list HostWorktree;
  setupScript : option string;
  setupCacheInputs : option (list string);
  terminalHookScript : option string;
  requiredEnvironment : option (list string);
  providerAccountOverrides : option (JsMap.t ProviderAccountOverride);
}.

#[global] Instance eta_HostRepository : Eta HostRepository := fun r => mkHostRepository
  (id r) (path r) (defaultBranch r) (worktrees r) (setupScript r) (setupCacheInputs r)
  (terminalHookScript r) (requiredEnvironment r) (providerAccountOverrides r).

#[global] Instance set_id : Setter id := ltac:(derive_setter).
#[global] Instance set_path : Setter path := ltac:(derive_setter).
#[global] Instance set_defaultBranch : Setter defaultBranch := ltac:(derive_setter).
#[global] Instance set_worktrees : Setter worktrees := ltac:(derive_setter).
#[global] Instance set_setupScript : Setter setupScript := ltac:(derive_setter).
#[global] Instance set_setupCacheInputs : Setter setupCacheInputs := ltac:(derive_setter).
#[global] Instance set_terminalHookScript : Setter terminalHookScript := ltac:(derive_setter).
#[global] Instance set_requiredEnvironment : Setter requiredEnvironment := ltac:(derive_setter).
#[global] Instance set_providerAccountOverrides : Setter providerAccountOverrides := ltac:(derive_setter).

End HRepository.
Notation HostRepository := HRepository.HostRepository.

(** A provider account made available on a host. *)
Module HAccount.

Record HostProviderAccount := mkHostProviderAccount {
  providerAccountId : string;
  commandId : option string;
}.

#[global] Instance eta_HostProviderAccount : Eta HostProviderAccount := fun r => mkHostProviderAccount
  (providerAccountId r) (commandId r).

#[global] Instance set_providerAccountId : Setter providerAccountId := ltac:(derive_setter).
#[global] Instance set_commandId : Setter commandId := ltac:(derive_setter).

End HAccount.
Notation HostProviderAccount := HAccount.HostProviderAccount.

(** Runtime facts reported by a daemon at registration. *)
Module Runtime.

Record HostRuntimeReport := mkHostRuntimeReport {
  daemonVersion : string;
  gitVersion : option string;
  gitReady : bool;
  gitReadinessReason : option string;
  environmentNames : option (list string);
  environmentNamesCaseSensitive : option bool;
}.

#[global] Instance eta_HostRuntimeReport : Eta HostRuntimeReport := fun r => mkHostRuntimeReport
  (daemonVersion r) (gitVersion r) (gitReady r) (gitReadinessReason r) (environmentNames r)
  (environmentNamesCaseSensitive r).

#[global] Instance set_daemonVersion : Setter daemonVersion := ltac:(derive_setter).
#[global] Instance set_gitVersion : Setter gitVersion := ltac:(derive_setter).
#[global] Instance set_gitReady : Setter gitReady := ltac:(derive_setter).
#[global] Instance set_gitReadinessReason : Setter gitReadinessReason := ltac:(derive_setter).
#[global] Instance set_environmentNames : Setter environmentNames := ltac:(derive_setter).
#[global] Instance set_environmentNamesCaseSensitive : Setter environmentNamesCaseSensitive := ltac:(derive_setter).

End Runtime.
Notation HostRuntimeReport := Runtime.HostRuntimeReport.

(** Signed-update settings of one host daemon. *)
Module UpdateConfig.

Record HostUpdateConfig := mkHostUpdateConfig {
  enabled : bool;
  manifestUrl : option string;
  publicKey : option string;
  installDir : option string;
  pollMs : option Z;
  daemonVersion : option string;
}.

#[global] Instance eta_HostUpdateConfig : Eta HostUpdateConfig := fun r => mkHostUpdateConfig
  (enabled r) (manifestUrl r) (publicKey r) (installDir r) (pollMs r) (daemonVersion r).

#[global] Instance set_enabled : Setter enabled := ltac:(derive_setter).
#[global] Instance set_manifestUrl : Setter manifestUrl := ltac:(derive_setter).
#[global] Instance set_publicKey : Setter publicKey := ltac:(derive_setter).
#[global] Instance set_installDir : Setter installDir := ltac:(derive_setter).
#[global] Instance set_pollMs : Setter pollMs := ltac:(derive_setter).
#[global] Instance set_daemonVersion : Setter daemonVersion := ltac:(derive_setter).

End UpdateConfig.
Notation HostUpdateConfig := UpdateConfig.HostUpdateConfig.

(** A slot of a workspace pool attachment. *)
Module WSlot.

Record WorkspaceSlot := mkWorkspaceSlotEntry {
  id : string;
  name : string;
  path : string;
}.

#[global] Instance eta_WorkspaceSlot : Eta WorkspaceSlot := fun r => mkWorkspaceSlotEntry
  (id r) (name r) (path r).

#[global] Instance set_id : Setter id := ltac:(derive_setter).
#[global] Instance set_name : Setter name := ltac:(derive_setter).
#[global] Instance set_path : Setter path := ltac:(derive_setter).

End WSlot.
Notation WorkspaceSlot := WSlot.WorkspaceSlot.

(** A workspace pool attached to a host. *)
Module Attachment.

Record WorkspacePoolAttachment := mkWorkspacePoolAttachment {
  workspacePoolId : string;
  slots : list WorkspaceSlot;
}.

#[global] Instance eta_WorkspacePoolAttachment : Eta WorkspacePoolAttachment := fun r => mkWorkspacePoolAttachment
  (workspacePoolId r) (slots r).

#[global] Instance set_workspacePoolId : Setter workspacePoolId := ltac:(derive_setter).
#[global] Instance set_slots : Setter slots := ltac:(derive_setter).

End Attachment.
Notation WorkspacePoolAttachment := Attachment.WorkspacePoolAttachment.

(** [HostInventoryRecord]: the durable configuration of a host. *)
Module Inventory.

Record HostInventory := mkHostInventory {
  hostId : string;
  setupScript : option string;
  setupCacheInputs : option (list string);
  setupCacheHostInputs : option (list string);
  allowedRoots : option (list string);
  requiredEnvironment : option (list string);
  updateConfig : option HostUpdateConfig;
  daemonInstanceId : option string;
  daemonStartedAt : option string;
  restartCount : option Z;
  lastRestartDetectedAt : option string;
  runtime : option HostRuntimeReport;
  repositories : list HostRepository;
  workspacePools : option (list WorkspacePoolAttachment);
  providerAccounts : list HostProviderAccount;
  capabilities : option (list string);
  updatedAt : string;
  version : option Z;
}.

#[global] Instance eta_HostInventory : Eta HostInventory := fun r => mkHostInventory
  (hostId r) (setupScript r) (setupCacheInputs r) (setupCacheHostInputs r) (allowedRoots r)
  (requiredEnvironment r) (updateConfig r) (daemonInstanceId r) (daemonStartedAt r)
  (restartCount r) (lastRestartDetectedAt r) (runtime r) (repositories r) (workspacePools r)
  (providerAccounts r) (capabilities r) (updatedAt r) (version r).

#[global] Instance set_hostId : Setter hostId := ltac:(derive_setter).
#[global] Instance set_setupScript : Setter setupScript := ltac:(derive_setter).
#[global] Instance set_setupCacheInputs : Setter setupCacheInputs := ltac:(derive_setter).
#[global] Instance set_setupCacheHostInputs : Setter setupCacheHostInputs := ltac:(derive_setter).
#[global] Instance set_allowedRoots : Setter allowedRoots := ltac:(derive_setter).
#[global] Instance set_requiredEnvironment : Setter requiredEnvironment := ltac:(derive_setter).
#[global] Instance set_updateConfig : Setter updateConfig := ltac:(derive_setter).
#[global] Instance set_daemonInstanceId : Setter daemonInstanceId := ltac:(derive_setter).
#[global] Instance set_daemonStartedAt : Setter daemonStartedAt := ltac:(derive_setter).
#[global] Instance set_restartCount : Setter restartCount := ltac:(derive_setter).
#[global] Instance set_lastRestartDetectedAt : Setter lastRestartDetectedAt := ltac:(derive_setter).
#[global] Instance set_runtime : Setter runtime := ltac:(derive_setter).
#[global] Instance set_repositories : Setter repositories := ltac:(derive_setter).
#[global] Instance set_workspacePools : Setter workspacePools := ltac:(derive_setter).
#[global] Instance set_providerAccounts : Setter providerAccounts := ltac:(derive_setter).
#[global] Instance set_capabilities : Setter capabilities := ltac:(derive_setter).
#[global] Instance set_updatedAt : Setter updatedAt := ltac:(derive_setter).
#[global] Instance set_version : Setter version := ltac:(derive_setter).

End Inventory.
Notation HostInventory := Inventory.HostInventory.

(** ** Connections and leases *)

(** A daemon's readiness advertisement for one account. *)
Module Readiness.

Record ProviderAccountReadiness := mkReadiness {
  providerAccountId : string;
  ready : bool;
  fingerprint : string;
}.

#[global] Instance eta_ProviderAccountReadiness : Eta ProviderAccountReadiness := fun r => mkReadiness
  (providerAccountId r) (ready r) (fingerprint r).

#[global] Instance set_providerAccountId : Setter providerAccountId := ltac:(derive_setter).
#[global] Instance set_ready : Setter ready := ltac:(derive_setter).
#[global] Instance set_fingerprint : Setter fingerprint := ltac:(derive_setter).

End Readiness.
Notation ProviderAccountReadiness := Readiness.ProviderAccountReadiness.

(** A live host connection; the viewer fields of browser connections are not modelled. *)
Module Connection.

Record ConnectionRecord := mkConnection {
  connectionId : string;
  isHost : bool;
  hostId : string;
  connectedAt : string;
  lastHeartbeatAt : string;
  repositoryIds : option (list string);
  capabilities : option (list string);
  maxConcurrentAssignments : option Z;
  providerAccountReadiness : option (list ProviderAccountReadiness);
  runtime : option HostRuntimeReport;
  protocolVersion : option Z;
  negotiatedProtocolVersion : option Z;
  registered : option bool;
}.

#[global] Instance eta_ConnectionRecord : Eta ConnectionRecord := fun r => mkConnection
  (connectionId r) (isHost r) (hostId r) (connectedAt r) (lastHeartbeatAt r) (repositoryIds r)
  (capabilities r) (maxConcurrentAssignments r) (providerAccountReadiness r) (runtime r)
  (protocolVersion r) (negotiatedProtocolVersion r) (registered r).

#[global] Instance set_connectionId : Setter connectionId := ltac:(derive_setter).
#[global] Instance set_isHost : Setter isHost := ltac:(derive_setter).
#[global] Instance set_hostId : Setter hostId := ltac:(derive_setter).
#[global] Instance set_connectedAt : Setter connectedAt := ltac:(derive_setter).
#[global] Instance set_lastHeartbeatAt : Setter lastHeartbeatAt := ltac:(derive_setter).
#[global] Instance set_repositoryIds : Setter repositoryIds := ltac:(derive_setter).
#[global] Instance set_capabilities : Setter capabilities := ltac:(derive_setter).
#[global] Instance set_maxConcurrentAssignments : Setter maxConcurrentAssignments := ltac:(derive_setter).
#[global] Instance set_providerAccountReadiness : Setter providerAccountReadiness := ltac:(derive_setter).
#[global] Instance set_runtime : Setter runtime := ltac:(derive_setter).
#[global] Instance set_protocolVersion : Setter protocolVersion := ltac:(derive_setter).
#[global] Instance set_negotiatedProtocolVersion : Setter negotiatedProtocolVersion := ltac:(derive_setter).
#[global] Instance set_registered : Setter registered := ltac:(derive_setter).

End Connection.
Notation ConnectionRecord := Connection.ConnectionRecord.

(** A repository; [admissionState] is the persisted value, possibly malformed. *)
Module Repo.

Record RepositoryRecord := mkRepository {
  id : string;
  name : string;
  url : string;
  defaultBranch : string;
  setupScript : option string;
  terminalHookScript : option string;
  admissionState : option string;
  admissionStateChangedAt : option string;
  activationCutoffAt : option string;
  drainRequestedAt : option string;
  drainCompletedAt : option string;
  createdAt : string;
  updatedAt : string;
}.

#[global] Instance eta_RepositoryRecord : Eta RepositoryRecord := fun r => mkRepository
  (id r) (name r) (url r) (defaultBranch r) (setupScript r) (terminalHookScript r)
  (admissionState r) (admissionStateChangedAt r) (activationCutoffAt r) (drainRequestedAt r)
  (drainCompletedAt r) (createdAt r) (updatedAt r).

#[global] Instance set_id : Setter id := ltac:(derive_setter).
#[global] Instance set_name : Setter name := ltac:(derive_setter).
#[global] Instance set_url : Setter url := ltac:(derive_setter).
#[global] Instance set_defaultBranch : Setter defaultBranch := ltac:(derive_setter).
#[global] Instance set_setupScript : Setter setupScript := ltac:(derive_setter).
#[global] Instance set_terminalHookScript : Setter terminalHookScript := ltac:(derive_setter).
#[global] Instance set_admissionState : Setter admissionState := ltac:(derive_setter).
#[global] Instance set_admissionStateChangedAt : Setter admissionStateChangedAt := ltac:(derive_setter).
#[global] Instance set_activationCutoffAt : Setter activationCutoffAt := ltac:(derive_setter).
#[global] Instance set_drainRequestedAt : Setter drainRequestedAt := ltac:(derive_setter).
#[global] Instance set_drainCompletedAt : Setter drainCompletedAt := ltac:(derive_setter).
#[global] Instance set_createdAt : Setter createdAt := ltac:(derive_setter).
#[global] Instance set_updatedAt : Setter updatedAt := ltac:(derive_setter).

End Repo.
Notation RepositoryRecord := Repo.RepositoryRecord.

(** A trusted setup profile of a workspace pool. *)
Module Profile.

Record WorkspaceSetupProfile := mkWorkspaceSetupProfile {
  id : string;
  name : string;
  script : string;
}.

#[global] Instance eta_WorkspaceSetupProfile : Eta WorkspaceSetupProfile := fun r => mkWorkspaceSetupProfile
  (id r) (name r) (script r).

#[global] Instance set_id : Setter id := ltac:(derive_setter).
#[global] Instance set_name : Setter name := ltac:(derive_setter).
#[global] Instance set_script : Setter script := ltac:(derive_setter).

End Profile.
Notation WorkspaceSetupProfile := Profile.WorkspaceSetupProfile.

(** A workspace pool. *)
Module Pool.

Record WorkspacePoolRecord := mkWorkspacePool {
  id : string;
  name : string;
  setupProfiles : list WorkspaceSetupProfile;
  defaultSetupProfileId : option string;
  destroyWorkspaceAfter : bool;
  createdAt : string;
  updatedAt : string;
}.

#[global] Instance eta_WorkspacePoolRecord : Eta WorkspacePoolRecord := fun r => mkWorkspacePool
  (id r) (name r) (setupProfiles r) (defaultSetupProfileId r) (destroyWorkspaceAfter r)
  (createdAt r) (updatedAt r).

#[global] Instance set_id : Setter id := ltac:(derive_setter).
#[global] Instance set_name : Setter name := ltac:(derive_setter).
#[global] Instance set_setupProfiles : Setter setupProfiles := ltac:(derive_setter).
#[global] Instance set_defaultSetupProfileId : Setter defaultSetupProfileId := ltac:(derive_setter).
#[global] Instance set_destroyWorkspaceAfter : Setter destroyWorkspaceAfter := ltac:(derive_setter).
#[global] Instance set_createdAt : Setter createdAt := ltac:(derive_setter).
#[global] Instance set_updatedAt : Setter updatedAt := ltac:(derive_setter).

End Pool.
Notation WorkspacePoolRecord := Pool.WorkspacePoolRecord.

(** A cron schedule; [lastRunAt] is [None] for [null]. *)
Module Schedule.

Record ScheduleRecord := mkSchedule {
  id : string;
  repositoryId : string;
  workspacePoolId : option string;
  setupProfileId : option string;
  destroyWorkspaceAfter : option bool;
  name : string;
  target : TargetRef;
  fallbacks : list TargetRef;
  targetDisplayNames : list string;
  cron : string;
  enabled : bool;
  timeout : Z;
  queueTtlSeconds : Z;
  nextRunAt : string;
  lastRunAt : option string;
  createdAt : string;
  ref : option string;
  concurrencyId : option string;
  principalId : option string;
  prompt : option string;
}.

#[global] Instance eta_ScheduleRecord : Eta ScheduleRecord := fun r => mkSchedule
  (id r) (repositoryId r) (workspacePoolId r) (setupProfileId r) (destroyWorkspaceAfter r)
  (name r) (target r) (fallbacks r) (targetDisplayNames r) (cron r) (enabled r) (timeout r)
  (queueTtlSeconds r) (nextRunAt r) (lastRunAt r) (createdAt r) (ref r) (concurrencyId r)
  (principalId r) (prompt r).

#[global] Instance set_id : Setter id := ltac:(derive_setter).
#[global] Instance set_repositoryId : Setter repositoryId := ltac:(derive_setter).
#[global] Instance set_workspacePoolId : Setter workspacePoolId := ltac:(derive_setter).
#[global] Instance set_setupProfileId : Setter setupProfileId := ltac:(derive_setter).
#[global] Instance set_destroyWorkspaceAfter : Setter destroyWorkspaceAfter := ltac:(derive_setter).
#[global] Instance set_name : Setter name := ltac:(derive_setter).
#[global] Instance set_target : Setter target := ltac:(derive_setter).
#[global] Instance set_fallbacks : Setter fallbacks := ltac:(derive_setter).
#[global] Instance set_targetDisplayNames : Setter targetDisplayNames := ltac:(derive_setter).
#[global] Instance set_cron : Setter cron := ltac:(derive_setter).
#[global] Instance set_enabled : Setter enabled := ltac:(derive_setter).
#[global] Instance set_timeout : Setter timeout := ltac:(derive_setter).
#[global] Instance set_queueTtlSeconds : Setter queueTtlSeconds := ltac:(derive_setter).
#[global] Instance set_nextRunAt : Setter nextRunAt := ltac:(derive_setter).
#[global] Instance set_lastRunAt : Setter lastRunAt := ltac:(derive_setter).
#[global] Instance set_createdAt : Setter createdAt := ltac:(derive_setter).
#[global] Instance set_ref : Setter ref := ltac:(derive_setter).
#[global] Instance set_concurrencyId : Setter concurrencyId := ltac:(derive_setter).
#[global] Instance set_principalId : Setter principalId := ltac:(derive_setter).
#[global] Instance set_prompt : Setter prompt := ltac:(derive_setter).

End Schedule.
Notation ScheduleRecord := Schedule.ScheduleRecord.

(** An assignment waiting for the host's acknowledgement; [assignedAtMs] is [None] for NaN. *)
Module Ack.

Record PendingAck := mkPendingAck {
  sessionId : string;
  worktreeId : option string;
  attemptId : string;
  assignedAtMs : option Z;
}.

#[global] Instance eta_PendingAck : Eta PendingAck := fun r => mkPendingAck
  (sessionId r) (worktreeId r) (attemptId r) (assignedAtMs r).

#[global] Instance set_sessionId : Setter sessionId := ltac:(derive_setter).
#[global] Instance set_worktreeId : Setter worktreeId := ltac:(derive_setter).
#[global] Instance set_attemptId : Setter attemptId := ltac:(derive_setter).
#[global] Instance set_assignedAtMs : Setter assignedAtMs := ltac:(derive_setter).

End Ack.
Notation PendingAck := Ack.PendingAck.

(** An entry of [state.providerAccountLeases]. *)
Module HeldLease.

Record HeldAccountLease := mkHeldAccountLease {
  sessionId : string;
  attemptId : string;
  slot : Z;
  hostId : string;
  providerAccountId : string;
}.

#[global] Instance eta_HeldAccountLease : Eta HeldAccountLease := fun r => mkHeldAccountLease
  (sessionId r) (attemptId r) (slot r) (hostId r) (providerAccountId r).

#[global] Instance set_sessionId : Setter sessionId := ltac:(derive_setter).
#[global] Instance set_attemptId : Setter attemptId := ltac:(derive_setter).
#[global] Instance set_slot : Setter slot := ltac:(derive_setter).
#[global] Instance set_hostId : Setter hostId := ltac:(derive_setter).
#[global] Instance set_providerAccountId : Setter providerAccountId := ltac:(derive_setter).

End HeldLease.
Notation HeldAccountLease := HeldLease.HeldAccountLease.

(** An entry of [state.mainCheckoutLeases]. *)
Module Checkout.

Record MainCheckoutLease := mkMainCheckoutLease {
  sessionId : string;
  connectionId : string;
}.

#[global] Instance eta_MainCheckoutLease : Eta MainCheckoutLease := fun r => mkMainCheckoutLease
  (sessionId r) (connectionId r).

#[global] Instance set_sessionId : Setter sessionId := ltac:(derive_setter).
#[global] Instance set_connectionId : Setter connectionId := ltac:(derive_setter).

End Checkout.
Notation MainCheckoutLease := Checkout.MainCheckoutLease.

(** ** Messages to hosts *)

(** Log upload and batching knobs sent with an assignment. *)
Module LogSettings.

Record SessionLogSettings := mkSessionLogSettings {
  uploadMode : string;
  batchMaxKb : Z;
  batchMaxLines : Z;
  batchMaxWaitMs : Z;
  controlPlanePollMs : Z;
}.

#[global] Instance eta_SessionLogSettings : Eta SessionLogSettings := fun r => mkSessionLogSettings
  (uploadMode r) (batchMaxKb r) (batchMaxLines r) (batchMaxWaitMs r) (controlPlanePollMs r).

#[global] Instance set_uploadMode : Setter uploadMode := ltac:(derive_setter).
#[global] Instance set_batchMaxKb : Setter batchMaxKb := ltac:(derive_setter).
#[global] Instance set_batchMaxLines : Setter batchMaxLines := ltac:(derive_setter).
#[global] Instance set_batchMaxWaitMs : Setter batchMaxWaitMs := ltac:(derive_setter).
#[global] Instance set_controlPlanePollMs : Setter controlPlanePollMs := ltac:(derive_setter).

End LogSettings.
Notation SessionLogSettings := LogSettings.SessionLogSettings.

(** [Partial<ControlPlaneSessionLogSettings>] as persisted; every property may be missing or out of range. *)
Module StoredLogs.

Record StoredLogSettings := mkStoredLogSettings {
  uploadMode : option string;
  batchMaxKb : option Z;
  batchMaxLines : option Z;
  batchMaxWaitMs : option Z;
  controlPlanePollMs : option Z;
  sessionRetentionDays : option Z;
}.

#[global] Instance eta_StoredLogSettings : Eta StoredLogSettings := fun r => mkStoredLogSettings
  (uploadMode r) (batchMaxKb r) (batchMaxLines r) (batchMaxWaitMs r) (controlPlanePollMs r)
  (sessionRetentionDays r).

#[global] Instance set_uploadMode : Setter uploadMode := ltac:(derive_setter).
#[global] Instance set_batchMaxKb : Setter batchMaxKb := ltac:(derive_setter).
#[global] Instance set_batchMaxLines : Setter batchMaxLines := ltac:(derive_setter).
#[global] Instance set_batchMaxWaitMs : Setter batchMaxWaitMs := ltac:(derive_setter).
#[global] Instance set_controlPlanePollMs : Setter controlPlanePollMs := ltac:(derive_setter).
#[global] Instance set_sessionRetentionDays : Setter sessionRetentionDays := ltac:(derive_setter).

End StoredLogs.
Notation StoredLogSettings := StoredLogs.StoredLogSettings.

(** The [session:assign] message; [repositoryId] and [worktreeId] are [None] for [null].
    [providerId], which only the scheduled frame carries, is not declared in the type. *)
Module Assign.

Record SessionAssign := mkSessionAssign {
  sessionId : string;
  sessionType : ScheduleKind;
  repositoryId : option string;
  prompt : string;
  sessionApiKey : option string;
  outputs : bool;
  resolvedArgv : list string;
  timeout : Z;
  worktreeId : option string;
  infrastructureRetryCount : option Z;
  workspacePoolId : option string;
  workspaceSlotId : option string;
  setupProfileId : option string;
  destroyWorkspaceAfter : option bool;
  ref : option string;
  setupScript : option string;
  resume : bool;
  resumedFromSessionId : option string;
  cliResumeRef : option string;
  resumeRefCapture : option ResumeRefCapture;
  metadata : option Metadata;
  providerAccountId : option string;
  commandId : option string;
  targetIndex : option Z;
  priorContext : option string;
  assignedAt : string;
  attemptId : string;
  logSettings : SessionLogSettings;
  providerId : option string;
}.

#[global] Instance eta_SessionAssign : Eta SessionAssign := fun r => mkSessionAssign
  (sessionId r) (sessionType r) (repositoryId r) (prompt r) (sessionApiKey r) (outputs r)
  (resolvedArgv r) (timeout r) (worktreeId r) (infrastructureRetryCount r) (workspacePoolId r)
  (workspaceSlotId r) (setupProfileId r) (destroyWorkspaceAfter r) (ref r) (setupScript r)
  (resume r) (resumedFromSessionId r) (cliResumeRef r) (resumeRefCapture r) (metadata r)
  (providerAccountId r) (commandId r) (targetIndex r) (priorContext r) (assignedAt r)
  (attemptId r) (logSettings r) (providerId r).

#[global] Instance set_sessionId : Setter sessionId := ltac:(derive_setter).
#[global] Instance set_sessionType : Setter sessionType := ltac:(derive_setter).
#[global] Instance set_repositoryId : Setter repositoryId := ltac:(derive_setter).
#[global] Instance set_prompt : Setter prompt := ltac:(derive_setter).
#[global] Instance set_sessionApiKey : Setter sessionApiKey := ltac:(derive_setter).
#[global] Instance set_outputs : Setter outputs := ltac:(derive_setter).
#[global] Instance set_resolvedArgv : Setter resolvedArgv := ltac:(derive_setter).
#[global] Instance set_timeout : Setter timeout := ltac:(derive_setter).
#[global] Instance set_worktreeId : Setter worktreeId := ltac:(derive_setter).
#[global] Instance set_infrastructureRetryCount : Setter infrastructureRetryCount := ltac:(derive_setter).
#[global] Instance set_workspacePoolId : Setter workspacePoolId := ltac:(derive_setter).
#[global] Instance set_workspaceSlotId : Setter workspaceSlotId := ltac:(derive_setter).
#[global] Instance set_setupProfileId : Setter setupProfileId := ltac:(derive_setter).
#[global] Instance set_destroyWorkspaceAfter : Setter destroyWorkspaceAfter := ltac:(derive_setter).
#[global] Instance set_ref : Setter ref := ltac:(derive_setter).
#[global] Instance set_setupScript : Setter setupScript := ltac:(derive_setter).
#[global] Instance set_resume : Setter resume := ltac:(derive_setter).
#[global] Instance set_resumedFromSessionId : Setter resumedFromSessionId := ltac:(derive_setter).
#[global] Instance set_cliResumeRef : Setter cliResumeRef := ltac:(derive_setter).
#[global] Instance set_resumeRefCapture : Setter resumeRefCapture := ltac:(derive_setter).
#[global] Instance set_metadata : Setter metadata := ltac:(derive_setter).
#[global] Instance set_providerAccountId : Setter providerAccountId := ltac:(derive_setter).
#[global] Instance set_commandId : Setter commandId := ltac:(derive_setter).
#[global] Instance set_targetIndex : Setter targetIndex := ltac:(derive_setter).
#[global] Instance set_priorContext : Setter priorContext := ltac:(derive_setter).
#[global] Instance set_assignedAt : Setter assignedAt := ltac:(derive_setter).
#[global] Instance set_attemptId : Setter attemptId := ltac:(derive_setter).
#[global] Instance set_logSettings : Setter logSettings := ltac:(derive_setter).
#[global] Instance set_providerId : Setter providerId := ltac:(derive_setter).

End Assign.
Notation SessionAssign := Assign.SessionAssign.

(** The messages the in-memory plane sends to a host. *)
Inductive HostWireMessage :=
| msg_assign (m : SessionAssign)
| msg_drain
| msg_resume
| msg_cancel (sessionId : string) (attemptId : option string)
| msg_acknowledged (sessionId attemptId : string)
| msg_terminal_hook_acknowledged (sessionId handoffId : string)
| msg_command_start_acknowledged (sessionId attemptId : string)
| msg_status_acknowledged (sessionId attemptId : string) (retryAccepted : option bool)
    (terminalHookHandoffId terminalHookHandoffExpiresAt : option string).

(** A freshly minted session credential and its SHA-256. *)
Record SessionApiKey := mkSessionApiKey { apiKey : string; apiKeyHash : string }.

(** ** Shared mutable state *)

(** The storage-less part of [ControlPlaneState].  [now] is the clock during one
    operation; a factory is applied to the number of values drawn from it so far.
    [outbox] logs the calls of [onHostMessage], [archiveRequests] those of
    [queueSessionArchive], [offlineAlerts] the hosts of [enqueueHostOfflineAlert], and [assignRequests] the asynchronous assignment
    passes started with [void], which run after the current operation. *)
Module Plane.

Record ControlPlaneState := mkControlPlaneState {
  sessions : JsMap.t SessionRecord;
  worktrees : JsMap.t WorktreeRecord;
  workspaceSlots : JsMap.t WorkspaceSlotRecord;
  connections : JsMap.t ConnectionRecord;
  hostConnection : JsMap.t string;
  pendingHostSocketPublish : list string;
  repositories : JsMap.t RepositoryRecord;
  hostInventories : JsMap.t HostInventory;
  providers : JsMap.t Provider;
  providerAccounts : JsMap.t ProviderAccountRecord;
  commands : JsMap.t CommandRecord;
  pendingAcks : JsMap.t PendingAck;
  mainCheckoutLeases : JsMap.t MainCheckoutLease;
  providerAccountLeases : JsMap.t HeldAccountLease;
  drainingHosts : list string;
  disconnectedHosts : JsMap.t string;
  schedules : JsMap.t ScheduleRecord;
  workspacePools : JsMap.t WorkspacePoolRecord;
  hostInventoryRevision : Z;
  connectionIdFactory : Z -> string;
  connectionsDrawn : Z;
  heartbeatStaleMs : Z;
  offlineAlerts : list string;
  now : string;
  attemptIdFactory : Z -> string;
  attemptsDrawn : Z;
  shardCount : Z;
  ackDeadlineMs : Z;
  reconnectGraceMs : Z;
  idFactory : Z -> string;
  idsDrawn : Z;
  sessionApiKeys : Z -> SessionApiKey;
  apiKeysDrawn : Z;
  publicBaseUrl : string;
  sessionLogSettings : option StoredLogSettings;
  outbox : list (string * HostWireMessage);
  archiveRequests : list string;
  assignRequests : list ScheduleKind;
}.

#[global] Instance eta_ControlPlaneState : Eta ControlPlaneState := fun r => mkControlPlaneState
  (sessions r) (worktrees r) (workspaceSlots r) (connections r) (hostConnection r)
  (pendingHostSocketPublish r) (repositories r) (hostInventories r) (providers r)
  (providerAccounts r) (commands r) (pendingAcks r) (mainCheckoutLeases r)
  (providerAccountLeases r) (drainingHosts r) (disconnectedHosts r) (schedules r)
  (workspacePools r) (hostInventoryRevision r) (connectionIdFactory r) (connectionsDrawn r)
  (heartbeatStaleMs r) (offlineAlerts r) (now r) (attemptIdFactory r) (attemptsDrawn r)
  (shardCount r) (ackDeadlineMs r) (reconnectGraceMs r) (idFactory r) (idsDrawn r)
  (sessionApiKeys r) (apiKeysDrawn r) (publicBaseUrl r) (sessionLogSettings r) (outbox r)
  (archiveRequests r) (assignRequests r).

#[global] Instance set_sessions : Setter sessions := ltac:(derive_setter).
#[global] Instance set_worktrees : Setter worktrees := ltac:(derive_setter).
#[global] Instance set_workspaceSlots : Setter workspaceSlots := ltac:(derive_setter).
#[global] Instance set_connections : Setter connections := ltac:(derive_setter).
#[global] Instance set_hostConnection : Setter hostConnection := ltac:(derive_setter).
#[global] Instance set_pendingHostSocketPublish : Setter pendingHostSocketPublish := ltac:(derive_setter).
#[global] Instance set_repositories : Setter repositories := ltac:(derive_setter).
#[global] Instance set_hostInventories : Setter hostInventories := ltac:(derive_setter).
#[global] Instance set_providers : Setter providers := ltac:(derive_setter).
#[global] Instance set_providerAccounts : Setter providerAccounts := ltac:(derive_setter).
#[global] Instance set_commands : Setter commands := ltac:(derive_setter).
#[global] Instance set_pendingAcks : Setter pendingAcks := ltac:(derive_setter).
#[global] Instance set_mainCheckoutLeases : Setter mainCheckoutLeases := ltac:(derive_setter).
#[global] Instance set_providerAccountLeases : Setter providerAccountLeases := ltac:(derive_setter).
#[global] Instance set_drainingHosts : Setter drainingHosts := ltac:(derive_setter).
#[global] Instance set_disconnectedHosts : Setter disconnectedHosts := ltac:(derive_setter).
#[global] Instance set_schedules : Setter schedules := ltac:(derive_setter).
#[global] Instance set_workspacePools : Setter workspacePools := ltac:(derive_setter).
#[global] Instance set_hostInventoryRevision : Setter hostInventoryRevision := ltac:(derive_setter).
#[global] Instance set_connectionIdFactory : Setter connectionIdFactory := ltac:(derive_setter).
#[global] Instance set_connectionsDrawn : Setter connectionsDrawn := ltac:(derive_setter).
#[global] Instance set_heartbeatStaleMs : Setter heartbeatStaleMs := ltac:(derive_setter).
#[global] Instance set_offlineAlerts : Setter offlineAlerts := ltac:(derive_setter).
#[global] Instance set_now : Setter now := ltac:(derive_setter).
#[global] Instance set_attemptIdFactory : Setter attemptIdFactory := ltac:(derive_setter).
#[global] Instance set_attemptsDrawn : Setter attemptsDrawn := ltac:(derive_setter).
#[global] Instance set_shardCount : Setter shardCount := ltac:(derive_setter).
#[global] Instance set_ackDeadlineMs : Setter ackDeadlineMs := ltac:(derive_setter).
#[global] Instance set_reconnectGraceMs : Setter reconnectGraceMs := ltac:(derive_setter).
#[global] Instance set_idFactory : Setter idFactory := ltac:(derive_setter).
#[global] Instance set_idsDrawn : Setter idsDrawn := ltac:(derive_setter).
#[global] Instance set_sessionApiKeys : Setter sessionApiKeys := ltac:(derive_setter).
#[global] Instance set_apiKeysDrawn : Setter apiKeysDrawn := ltac:(derive_setter).
#[global] Instance set_publicBaseUrl : Setter publicBaseUrl := ltac:(derive_setter).
#[global] Instance set_sessionLogSettings : Setter sessionLogSettings := ltac:(derive_setter).
#[global] Instance set_outbox : Setter outbox := ltac:(derive_setter).
#[global] Instance set_archiveRequests : Setter archiveRequests := ltac:(derive_setter).
#[global] Instance set_assignRequests : Setter assignRequests := ltac:(derive_setter).

End Plane.
Notation ControlPlaneState := Plane.ControlPlaneState.
