(* ===== verification/Ordering.v ===== *)
(** * Queue ordering

    services/api/src/control-plane-ordering.ts: the priority/FIFO comparator of
    the queue, the sort keys that encode it for DynamoDB, and the merge of the
    per-shard queues into one global order. *)

From Stdlib Require Import ZArith Lia Permutation Sorted Ascii String.
From stdpp Require Import base strings list.
From S2P Require Import Prelude Types.

Local Open Scope string_scope.
Local Open Scope Z_scope.

(** ** Definitions *)

Definition QUEUE_ORDER_PRIORITY_OFFSET : Z := 10000.

(** [String(n)] of a non-negative integer, most significant digit first. *)
Fixpoint decimal_digits (fuel : nat) (n : Z) : string :=
  match fuel with
  | O => ""
  | S fuel' =>
      let digit := String (Ascii.ascii_of_N (Z.to_N (48 + n mod 10))) "" in
      if n <? 10 then digit else decimal_digits fuel' (n / 10) ++ digit
  end.

Definition number_string (n : Z) : string := decimal_digits (S (Z.to_nat (Z.log2 n))) n.

Fixpoint repeat_char (c : ascii) (n : nat) : string :=
  match n with O => "" | S n' => String c (repeat_char c n') end.

Definition padStart (s : string) (width : nat) (c : ascii) : string :=
  repeat_char c (width - String.length s) ++ s.

Definition clamp_order (n : Z) : Z :=
  Z.min (QUEUE_ORDER_PRIORITY_OFFSET * 2) (Z.max 0 n).

Definition order_key (n : Z) (createdAt id : string) : string :=
  padStart (number_string n) 5 "0"%char ++ "#" ++ createdAt ++ "#" ++ id.

Definition createdOrderKey (s : SessionRecord) : string :=
  Session.createdAt s ++ "#" ++ Session.id s.

Definition priorityOrderKey (s : SessionRecord) : string :=
  order_key (clamp_order (QUEUE_ORDER_PRIORITY_OFFSET + Session.priority s))
    (Session.createdAt s) (Session.id s).

Definition queueOrderKey (s : SessionRecord) : string :=
  order_key (clamp_order (QUEUE_ORDER_PRIORITY_OFFSET - Session.priority s))
    (Session.createdAt s) (Session.id s).

(** The pre-read row may lack any of the three fields. *)
Definition queueOrderKeyForWrite (id : option string) (priority : option Z)
    (createdAt : option string) (fallbackId : string) : string :=
  order_key (clamp_order (QUEUE_ORDER_PRIORITY_OFFSET - opt_or priority 0))
    (opt_or createdAt "") (opt_or (truthy_opt id) fallbackId).

Definition routeWorktreeIdOf (s : SessionRecord) : option string :=
  match Session.resolvedRoute s with
  | Some route => truthy_opt (Route.worktreeId route)
  | None => None
  end.

Definition sessionInWorktree (s : SessionRecord) (worktreeId : string) : bool :=
  bool_decide (routeWorktreeIdOf s = Some worktreeId) ||
  bool_decide (Session.worktreeId s = Val worktreeId).

(** The queue a session waits in: anything that is neither scheduled nor a
    workspace session is a prompt session. *)
Definition scheduleKind (s : SessionRecord) : ScheduleKind :=
  if bool_decide (Session.type s = Some "scheduled") then scheduled_kind
  else if bool_decide (Session.type s = Some "workspace") then workspace_kind
  else prompt_kind.

Section ordering.
Context {LC : LocaleCompare}.

Definition compareSessionsForQueue (a b : SessionRecord) : Z :=
  if negb (Session.priority b =? Session.priority a)
  then Session.priority b - Session.priority a
  else cmp_or (localeCompare (Session.createdAt a) (Session.createdAt b))
         (localeCompare (Session.id a) (Session.id b)).

Definition compareWorktreesForRoundRobin (a b : WorktreeRecord) : Z :=
  let aT := opt_or (nul_opt (Worktree.lastAssignedAt a)) "" in
  let bT := opt_or (nul_opt (Worktree.lastAssignedAt b)) "" in
  cmp_or (localeCompare aT bT) (localeCompare (Worktree.id a) (Worktree.id b)).

(** One pass over the shard heads: the index and session of the first minimal head. *)
Fixpoint scan_heads (shard : nat) (heads : list (option SessionRecord))
    (winner : option (nat * SessionRecord)) : option (nat * SessionRecord) :=
  match heads with
  | [] => winner
  | None :: rest => scan_heads (S shard) rest winner
  | Some candidate :: rest =>
      let better := match winner with
                    | None => true
                    | Some (_, best) => compareSessionsForQueue candidate best <? 0
                    end in
      scan_heads (S shard) rest (if better then Some (shard, candidate) else winner)
  end.

Definition shard_heads (shards : list (list SessionRecord)) (indexes : list nat)
    : list (option SessionRecord) :=
  zip_with (fun (sh : list SessionRecord) (i : nat) => sh !! i) shards indexes.

Fixpoint merge_loop (fuel : nat) (shards : list (list SessionRecord)) (indexes : list nat)
    (merged : list SessionRecord) : option (list SessionRecord) :=
  match scan_heads 0 (shard_heads shards indexes) None with
  | None => Some merged
  | Some (w, head) =>
      match fuel with
      | O => None
      | S fuel' => merge_loop fuel' shards (alter S w indexes) (merged ++ [head])%list
      end
  end.

(** Each turn of the loop consumes one session. *)
Definition mergeQueuedShardHeads (shards : list (list SessionRecord)) : option (list SessionRecord) :=
  merge_loop (length (concat shards)) shards (map (fun _ => O) shards) [].

(** [shards[session.queueShard]]: a session whose shard does not exist is skipped. *)
Definition push_shard (kind : ScheduleKind) (shards : list (list SessionRecord)) (s : SessionRecord)
    : list (list SessionRecord) :=
  if negb (bool_decide (Session.status s = queued)) then shards
  else if negb (bool_decide (scheduleKind s = kind)) then shards
  else if Session.queueShard s <? 0 then shards
  else alter (fun shard => shard ++ [s])%list (Z.to_nat (Session.queueShard s)) shards.

Definition queuedSessionsByShard (sessions : list SessionRecord) (shardCount : Z) (kind : ScheduleKind)
    : list (list SessionRecord) :=
  map (toSorted compareSessionsForQueue)
    (fold_left (push_shard kind) sessions (replicate (Z.to_nat shardCount) [])).

Definition orderedQueuedSessions (sessions : list SessionRecord) (shardCount : Z) (kind : ScheduleKind)
    : option (list SessionRecord) :=
  mergeQueuedShardHeads (queuedSessionsByShard sessions shardCount kind).

End ordering.

(** ** The comparators are total preorders *)
Section orders.
Context {LC : LocaleCompare} {LL : LocaleCompareLaws LC}.

Lemma compareSessionsForQueue_lex a b :
  compareSessionsForQueue a b =
  cmp_or (Session.priority b - Session.priority a)
    (cmp_or (localeCompare (Session.createdAt a) (Session.createdAt b))
       (localeCompare (Session.id a) (Session.id b))).
Proof.
  unfold compareSessionsForQueue, cmp_or at 2.
  destruct (Z.eqb_spec (Session.priority b) (Session.priority a)) as [->|Hne]; simpl.
  - by rewrite Z.sub_diag.
  - destruct (Z.eqb_spec (Session.priority b - Session.priority a) 0); [lia|done].
Qed.

Lemma compareSessionsForQueue_preorder : TotalPreorder compareSessionsForQueue.
Proof.
  pose proof (tp_lex _ _ (tp_sub_flip Session.priority)
    (tp_lex _ _ (tp_on _ Session.createdAt lc_preorder) (tp_on _ Session.id lc_preorder)))
    as [r s t].
  split; intros *; rewrite !compareSessionsForQueue_lex; [apply r|apply s|apply t].
Qed.

Lemma compareWorktreesForRoundRobin_preorder : TotalPreorder compareWorktreesForRoundRobin.
Proof.
  apply (tp_lex (fun a b : WorktreeRecord => localeCompare _ _)
                (fun a b : WorktreeRecord => localeCompare _ _));
    [apply (tp_on _ (fun w => opt_or (nul_opt (Worktree.lastAssignedAt w)) "")), lc_preorder
    |apply (tp_on _ Worktree.id), lc_preorder].
Qed.

Definition queue_le : SessionRecord -> SessionRecord -> Prop := cmp_le compareSessionsForQueue.

Lemma queue_le_trans a b c : queue_le a b -> queue_le b c -> queue_le a c.
Proof. apply (tp_trans _ compareSessionsForQueue_preorder). Qed.

Lemma queue_lt_le a b : compareSessionsForQueue a b < 0 -> queue_le a b.
Proof. unfold queue_le, cmp_le. lia. Qed.

Lemma queue_ge_le a b : ~ compareSessionsForQueue a b < 0 -> queue_le b a.
Proof.
  pose proof (tp_sym _ compareSessionsForQueue_preorder a b). unfold queue_le, cmp_le. lia.
Qed.

(** ** The merge *)

(** What the loop has not consumed yet. *)
Definition remaining (shards : list (list SessionRecord)) (indexes : list nat)
    : list (list SessionRecord) :=
  zip_with (fun (sh : list SessionRecord) (i : nat) => drop i sh) shards indexes.

(** A winner is the head of its shard and no head is smaller. *)
Definition wins (heads : list (option SessionRecord)) (w : nat) (x : SessionRecord) : Prop :=
  heads !! w = Some (Some x) /\ forall i y, heads !! i = Some (Some y) -> queue_le x y.

Lemma scan_heads_spec heads : forall shard winner,
  match scan_heads shard heads winner with
  | None => winner = None /\ forall i y, heads !! i <> Some (Some y)
  | Some (w, x) =>
      (winner = Some (w, x) \/ exists j, w = (shard + j)%nat /\ heads !! j = Some (Some x)) /\
      (forall i y, heads !! i = Some (Some y) -> queue_le x y) /\
      (forall k y, winner = Some (k, y) -> queue_le x y)
  end.
Proof.
  assert (Hrefl : forall x, queue_le x x)
    by (intros x; unfold queue_le, cmp_le; rewrite (tp_refl _ compareSessionsForQueue_preorder); lia).
  induction heads as [|[c|] heads IH]; intros shard winner; cbn [scan_heads].
  - destruct winner as [[w x]|]; [|done]. repeat split; [by left|done|]. intros k y [= _ ->]; done.
  - set (better := match winner with None => true | Some (_, b) => _ end).
    specialize (IH (S shard) (if better then Some (shard, c) else winner)).
    assert (Hcw : forall k y, winner = Some (k, y) ->
              if better then queue_le c y else queue_le y c).
    { intros k y ->. unfold better. destruct (Z.ltb_spec (compareSessionsForQueue c y) 0);
        [by apply queue_lt_le|apply queue_ge_le; lia]. }
    destruct (scan_heads _ _ _) as [[w x]|].
    + destruct IH as (Hw & Hle & Hwin). destruct better eqn:Hb.
      * repeat split.
        -- destruct Hw as [[= <- <-]|[j [-> Hj]]]; right; [exists 0%nat|exists (S j)];
             (split; [lia|done]).
        -- intros [|i] y; simpl; [intros [= <-]; by eapply Hwin|apply Hle].
        -- intros k y Hk. eapply queue_le_trans; [by eapply Hwin|by eapply Hcw].
      * destruct winner as [[k0 y0]|]; [|done]. repeat split.
        -- destruct Hw as [->|[j [-> Hj]]]; [by left|right]. exists (S j). split; [lia|done].
        -- intros [|i] y; simpl; [intros [= <-]|apply Hle].
           eapply queue_le_trans; [by eapply Hwin|by eapply Hcw].
        -- intros k y Hk. by eapply Hwin.
    + destruct IH as [Hn _]. subst better. destruct winner as [[k0 y0]|]; [|done].
      by destruct (compareSessionsForQueue c y0 <? 0).
  - specialize (IH (S shard) winner). destruct (scan_heads _ _ _) as [[w x]|].
    + destruct IH as (Hw & Hle & Hwin). repeat split; [|intros [|i] y; simpl; [done|apply Hle]|done].
      destruct Hw as [->|[j [-> Hj]]]; [by left|right]. exists (S j). split; [lia|done].
    + destruct IH as [-> Hn]. split; [done|]. intros [|i] y; simpl; [done|apply Hn].
Qed.

Lemma shard_heads_remaining shards indexes :
  shard_heads shards indexes = map head (remaining shards indexes).
Proof.
  unfold shard_heads, remaining. revert indexes.
  induction shards as [|sh shards IH]; intros [|i indexes]; simpl; try done.
  f_equal; [|apply IH]. by rewrite head_lookup, lookup_drop, Nat.add_0_r.
Qed.

Lemma remaining_alter shards indexes w x tl :
  remaining shards indexes !! w = Some (x :: tl) ->
  remaining shards (alter S w indexes) = <[w := tl]> (remaining shards indexes).
Proof.
  unfold remaining. revert indexes w.
  induction shards as [|sh shards IH]; intros [|i indexes] [|w]; simpl; try done.
  - intros [= Hd]. f_equal. replace (S i) with (i + 1)%nat by lia. by rewrite <- drop_drop, Hd.
  - intros Hd. f_equal. by apply IH.
Qed.

Lemma concat_insert_perm (ls : list (list SessionRecord)) w x tl :
  ls !! w = Some (x :: tl) -> Permutation (concat ls) (x :: concat (<[w := tl]> ls)).
Proof.
  revert w. induction ls as [|l ls IH]; intros [|w] H; simpl in *; try done.
  - by injection H as ->.
  - rewrite (IH _ H). by rewrite <- Permutation_middle.
Qed.

Lemma remaining_start shards : remaining shards (map (fun _ => O) shards) = shards.
Proof. unfold remaining. induction shards as [|sh shards IH]; simpl; [done|]. by f_equal. Qed.

Lemma no_heads_concat (ls : list (list SessionRecord)) :
  (forall i y, map head ls !! i <> Some (Some y)) -> concat ls = [].
Proof.
  induction ls as [|[|x l] ls IH]; intros H; simpl; [done|..].
  - apply IH. intros i y. apply (H (S i) y).
  - by destruct (H O x).
Qed.

Lemma head_is_min (ls : list (list SessionRecord)) x :
  Forall (StronglySorted queue_le) ls ->
  (forall i y, map head ls !! i = Some (Some y) -> queue_le x y) ->
  Forall (queue_le x) (concat ls).
Proof.
  induction ls as [|l ls IH]; intros Hs Hx; simpl; [constructor|].
  inversion Hs as [|? ? Hl Hs']; subst. apply Forall_app. split.
  - destruct l as [|y l]; [constructor|]. specialize (Hx O y eq_refl) as Hy.
    inversion Hl as [|? ? _ Hall]; subst. constructor; [done|].
    eapply Forall_impl; [exact Hall|]. intros z. by apply queue_le_trans.
  - apply IH; [done|]. intros i y Hi. by apply (Hx (S i) y).
Qed.

(** The loop consumes what remains, in order, behind what is merged already. *)
Lemma merge_loop_spec shards : forall fuel indexes merged,
  length (concat (remaining shards indexes)) = fuel ->
  Forall (StronglySorted queue_le) (remaining shards indexes) ->
  exists rest, merge_loop fuel shards indexes merged = Some (merged ++ rest)%list /\
    Permutation rest (concat (remaining shards indexes)) /\ StronglySorted queue_le rest.
Proof.
  induction fuel as [|fuel IH]; intros indexes merged Hlen Hs; cbn [merge_loop];
    rewrite shard_heads_remaining;
    pose proof (scan_heads_spec (map head (remaining shards indexes)) 0 None) as Hscan;
    destruct (scan_heads _ _ _) as [[w x]|].
  2, 4: destruct Hscan as [_ Hn]; apply no_heads_concat in Hn; exists []; rewrite app_nil_r, Hn;
        (split; [done|split; [done|constructor]]).
  all: destruct Hscan as ([?|(j & -> & Hj)] & Hmin & _); [done|]; simpl in *;
    change (0 + j)%nat with j; rewrite list_lookup_fmap in Hj;
    destruct (remaining shards indexes !! j) as [[|x' tl]|] eqn:Hr; simplify_eq/=.
  - apply concat_insert_perm, Permutation_length in Hr. simpl in Hr. lia.
  - pose proof (concat_insert_perm _ _ _ _ Hr) as Hp.
    destruct (IH (alter S j indexes) (merged ++ [x])%list) as (rest & -> & Hperm & Hsort).
    + rewrite (remaining_alter _ _ _ _ _ Hr). apply Permutation_length in Hp. simpl in Hp. lia.
    + rewrite (remaining_alter _ _ _ _ _ Hr). apply Forall_insert; [done|].
      rewrite Forall_lookup in Hs. specialize (Hs _ _ Hr). by inversion Hs.
    + exists (x :: rest). rewrite (remaining_alter _ _ _ _ _ Hr) in Hperm.
      split; [by rewrite <- app_assoc|]. split; [by rewrite Hp, Hperm|].
      constructor; [done|]. rewrite Hperm.
      pose proof (head_is_min _ _ Hs Hmin) as Hall. rewrite Hp in Hall. by inversion Hall.
Qed.

Lemma merge_spec shards :
  Forall (StronglySorted queue_le) shards ->
  exists out, mergeQueuedShardHeads shards = Some out /\
    Permutation out (concat shards) /\ StronglySorted queue_le out.
Proof.
  intros Hs. unfold mergeQueuedShardHeads.
  destruct (merge_loop_spec shards (length (concat shards)) (map (fun _ => O) shards) [])
    as (rest & -> & Hp & Hsort); rewrite ?remaining_start in *; eauto.
Qed.
End orders.

(** ** Sharding *)

(** The sessions one scheduling pass considers. *)
Definition in_queue (shardCount : Z) (kind : ScheduleKind) (s : SessionRecord) : bool :=
  bool_decide (Session.status s = queued) && bool_decide (scheduleKind s = kind) &&
  (0 <=? Session.queueShard s) && (Session.queueShard s <? shardCount).

(** The queued sessions of a kind, whatever their shard. *)
Definition queued_kind (kind : ScheduleKind) (s : SessionRecord) : bool :=
  bool_decide (Session.status s = queued) && bool_decide (scheduleKind s = kind).

Lemma queued_kind_iff kind s :
  queued_kind kind s = true <-> Session.status s = queued /\ scheduleKind s = kind.
Proof. unfold queued_kind. by rewrite andb_true_iff, !bool_decide_eq_true. Qed.

Lemma in_queue_iff shardCount kind s :
  in_queue shardCount kind s = true <->
  Session.status s = queued /\ scheduleKind s = kind /\ 0 <= Session.queueShard s < shardCount.
Proof. unfold in_queue. rewrite !andb_true_iff, !bool_decide_eq_true, Z.leb_le, Z.ltb_lt. tauto. Qed.

Lemma concat_alter_perm (ls : list (list SessionRecord)) w x :
  (w < length ls)%nat ->
  Permutation (concat (alter (fun l => l ++ [x])%list w ls)) (x :: concat ls).
Proof.
  revert w. induction ls as [|l ls IH]; intros [|w] H; simpl in H; try lia.
  - simpl. rewrite <- app_assoc. simpl. by rewrite <- Permutation_middle.
  - change (alter (fun l => l ++ [x])%list (S w) (l :: ls))
      with (l :: alter (fun l => l ++ [x])%list w ls). simpl.
    rewrite IH by lia. by rewrite <- Permutation_middle.
Qed.

Lemma alter_out {A} (f : A -> A) (ls : list A) w : (length ls <= w)%nat -> alter f w ls = ls.
Proof.
  intros H. apply list_eq. intros i. destruct (decide (w = i)) as [<-|].
  - by rewrite list_lookup_alter_eq, lookup_ge_None_2.
  - by rewrite list_lookup_alter_ne.
Qed.

Lemma push_shard_perm kind shards s :
  Permutation (concat (push_shard kind shards s))
    (List.filter (in_queue (Z.of_nat (length shards)) kind) [s] ++ concat shards).
Proof.
  unfold push_shard, in_queue. simpl.
  destruct (bool_decide (Session.status s = queued)); [|done].
  destruct (bool_decide (scheduleKind s = kind)); [|done]. simpl.
  destruct (Z.ltb_spec (Session.queueShard s) 0), (Z.leb_spec 0 (Session.queueShard s)); try lia;
    [done|]. simpl.
  destruct (Z.ltb_spec (Session.queueShard s) (Z.of_nat (length shards))); simpl.
  - apply concat_alter_perm. lia.
  - by rewrite alter_out by lia.
Qed.

Lemma push_shard_length kind shards s : length (push_shard kind shards s) = length shards.
Proof. unfold push_shard. repeat case_match; rewrite ?length_alter; done. Qed.

Lemma push_shards_perm kind sessions : forall shards,
  Permutation (concat (fold_left (push_shard kind) sessions shards))
    (List.filter (in_queue (Z.of_nat (length shards)) kind) sessions ++ concat shards).
Proof.
  induction sessions as [|s sessions IH]; intros shards; cbn [fold_left List.filter]; [done|].
  rewrite IH, push_shard_length, push_shard_perm, app_assoc. cbn [List.filter].
  case_match; [|by rewrite app_nil_r]. by rewrite <- Permutation_cons_append.
Qed.

Section queue.
Context {LC : LocaleCompare} {LL : LocaleCompareLaws LC}.

Lemma shards_concat_perm (shards : list (list SessionRecord)) :
  Permutation (concat (map (toSorted compareSessionsForQueue) shards)) (concat shards).
Proof. induction shards as [|l ls IH]; simpl; [done|]. by rewrite toSorted_perm, IH. Qed.

Lemma concat_replicate_nil {A} n : concat (replicate n (@nil A)) = [].
Proof. induction n; simpl; done. Qed.

Lemma queuedSessionsByShard_perm sessions shardCount kind :
  0 <= shardCount ->
  Permutation (concat (queuedSessionsByShard sessions shardCount kind))
    (List.filter (in_queue shardCount kind) sessions).
Proof.
  intros H. unfold queuedSessionsByShard. rewrite shards_concat_perm, push_shards_perm.
  rewrite concat_replicate_nil, app_nil_r, length_replicate, Z2Nat.id by done. done.
Qed.

Lemma queuedSessionsByShard_sorted sessions shardCount kind :
  Forall (StronglySorted queue_le) (queuedSessionsByShard sessions shardCount kind).
Proof.
  unfold queuedSessionsByShard. apply Forall_forall. intros l Hl.
  apply list_elem_of_fmap in Hl as (l' & -> & _).
  apply toSorted_sorted, compareSessionsForQueue_preorder.
Qed.

(** A sorted list is determined by its members when no two of them tie. *)
Lemma sorted_unique (l1 l2 : list SessionRecord) :
  (forall a b, In a l1 -> In b l1 -> compareSessionsForQueue a b = 0 -> a = b) ->
  StronglySorted queue_le l1 -> StronglySorted queue_le l2 -> Permutation l1 l2 -> l1 = l2.
Proof.
  revert l2. induction l1 as [|a l1 IH]; intros l2 Hties H1 H2 Hp.
  - by apply Permutation_nil in Hp as ->.
  - destruct l2 as [|b l2]; [by apply Permutation_sym, Permutation_nil in Hp|].
    inversion H1 as [|? ? H1' Ha]; inversion H2 as [|? ? H2' Hb]; subst.
    rewrite List.Forall_forall in Ha, Hb.
    assert (a = b) as <-.
    { assert (In b (a :: l1)) as Hbin by (apply (Permutation_in b (Permutation_sym Hp)); by left).
      assert (In a (b :: l2)) as Hain by (apply (Permutation_in a Hp); by left).
      destruct Hbin as [|Hbin]; [done|]. destruct Hain as [|Hain]; [done|].
      specialize (Ha b Hbin). specialize (Hb a Hain). unfold queue_le, cmp_le in Ha, Hb.
      pose proof (tp_sym _ compareSessionsForQueue_preorder a b).
      apply Hties; [by left|by right|lia]. }
    f_equal. apply IH; [|done|done|by apply Permutation_cons_inv in Hp].
    intros x y Hx Hy. apply Hties; by right.
Qed.

(** The global queue order: the merge of the shard queues terminates and
    returns exactly the queued sessions of the requested kind whose shard
    exists, sorted by priority, then creation time, then id. *)
Theorem ordered_queue_sorted sessions shardCount kind :
  0 <= shardCount ->
  exists out, orderedQueuedSessions sessions shardCount kind = Some out /\
    Permutation out (List.filter (in_queue shardCount kind) sessions) /\
    StronglySorted (fun a b => compareSessionsForQueue a b <= 0) out.
Proof.
  intros H. unfold orderedQueuedSessions.
  destruct (merge_spec _ (queuedSessionsByShard_sorted sessions shardCount kind))
    as (out & -> & Hp & Hs).
  exists out. split; [done|]. split; [|done]. by rewrite Hp, queuedSessionsByShard_perm.
Qed.

(** [C38] The sharded merge is the reference sort.  The queue of a kind is the queued sessions of
    that kind whose shard number is at least 0 and below the shard count; a session with any
    other shard number is left out.  Under the laws of [localeCompare], for a shard count of 0 or
    more, and when no two different sessions of that queue tie in priority, creation time and id,
    splitting it into its shards, sorting each and merging their heads ends and gives the list
    that sorting the queue at once gives.  So when every queued session of the kind has a shard
    number below the count, the result is the sort of all of them, whatever the count. *)
Theorem ordered_queue_reference sessions shardCount kind :
  0 <= shardCount ->
  (forall a b, In a sessions -> In b sessions -> in_queue shardCount kind a = true ->
     in_queue shardCount kind b = true -> compareSessionsForQueue a b = 0 -> a = b) ->
  orderedQueuedSessions sessions shardCount kind =
    Some (toSorted compareSessionsForQueue (List.filter (in_queue shardCount kind) sessions)) /\
  (forall s, in_queue shardCount kind s = true <->
     Session.status s = queued /\ scheduleKind s = kind /\ 0 <= Session.queueShard s < shardCount) /\
  ((forall s, In s sessions -> queued_kind kind s = true -> 0 <= Session.queueShard s < shardCount) ->
   orderedQueuedSessions sessions shardCount kind =
     Some (toSorted compareSessionsForQueue (List.filter (queued_kind kind) sessions))).
Proof.
  intros H Hties.
  assert (orderedQueuedSessions sessions shardCount kind =
    Some (toSorted compareSessionsForQueue (List.filter (in_queue shardCount kind) sessions))) as E.
  { unfold orderedQueuedSessions.
    destruct (merge_spec _ (queuedSessionsByShard_sorted sessions shardCount kind))
      as (out & -> & Hp & Hs).
    rewrite queuedSessionsByShard_perm in Hp by done. f_equal. apply sorted_unique.
    - intros a b Ha Hb. apply (Permutation_in a Hp), filter_In in Ha as [Ha Qa].
      apply (Permutation_in b Hp), filter_In in Hb as [Hb Qb]. by apply Hties.
    - done.
    - apply toSorted_sorted, compareSessionsForQueue_preorder.
    - rewrite Hp. by rewrite toSorted_perm. }
  split; [exact E|]. split; [apply in_queue_iff|]. intros Hrange. rewrite E. do 2 f_equal.
  apply filter_ext_in. intros s Hs. destruct (queued_kind kind s) eqn:K.
  - apply in_queue_iff. apply queued_kind_iff in K as K'. destruct K' as [K1 K2]. split; [done|]. split; [done|by apply Hrange].
  - apply not_true_is_false. intros (K1 & K2 & _)%in_queue_iff.
    assert (queued_kind kind s = true) by by apply queued_kind_iff. congruence.
Qed.
End queue.

(** ** Sort keys *)

Lemma string_app_cons c (a b : string) : String c a ++ b = String c (a ++ b).
Proof. reflexivity. Qed.

Lemma code_compare_app x y s t :
  String.length x = String.length y ->
  code_compare (x ++ s) (y ++ t) = cmp_or (code_compare x y) (code_compare s t).
Proof.
  revert y. induction x as [|c x IH]; intros [|d y] H; try done.
  injection H as H. rewrite !string_app_cons. cbn [code_compare]. destruct (N.compare _ _); simpl; [by apply IH|done|done].
Qed.

Definition digit_string (n : Z) : string := String (Ascii.ascii_of_N (Z.to_N (48 + n mod 10))) "".

(** The last [k] decimal digits of [n]. *)
Fixpoint fixed_digits (k : nat) (n : Z) : string :=
  match k with
  | O => ""
  | S k' => fixed_digits k' (n / 10) ++ digit_string n
  end.

Lemma fixed_digits_zero k : fixed_digits k 0 = repeat_char "0" k.
Proof.
  assert (Happ : forall j, repeat_char "0" j ++ "0" = repeat_char "0" (S j)).
  { induction j as [|j IH]; [done|]. cbn [repeat_char]. by rewrite string_app_cons, IH. }
  induction k as [|k IH]; [done|]. cbn [fixed_digits]. change (0 / 10) with 0. rewrite IH. apply Happ.
Qed.

Lemma string_app_assoc (a b c : string) : (a ++ b) ++ c = a ++ b ++ c.
Proof. induction a as [|x a IH]; [done|]. by rewrite !string_app_cons, IH. Qed.

Lemma string_length_app (a b : string) : String.length (a ++ b) = (String.length a + String.length b)%nat.
Proof. induction a as [|x a IH]; [done|]. rewrite string_app_cons. simpl. by rewrite IH. Qed.

Lemma fixed_digits_length k n : String.length (fixed_digits k n) = k.
Proof.
  revert n. induction k as [|k IH]; intros n; [done|]. cbn [fixed_digits].
  rewrite string_length_app, IH. simpl. lia.
Qed.

Lemma padStart_snoc a n k : padStart (a ++ digit_string n) (S k) "0" = padStart a k "0" ++ digit_string n.
Proof.
  unfold padStart. rewrite string_length_app, string_app_assoc. simpl String.length.
  by replace (S k - (String.length a + 1))%nat with (k - String.length a)%nat by lia.
Qed.

Lemma decimal_digits_pad k : forall f n,
  0 <= n < 10 ^ Z.of_nat (S k) -> n < 10 ^ Z.of_nat (S f) ->
  padStart (decimal_digits (S f) n) (S k) "0" = fixed_digits (S k) n.
Proof.
  induction k as [|k IH]; intros f n Hn Hf; cbn [decimal_digits]; fold (digit_string n);
    destruct (Z.ltb_spec n 10).
  - done.
  - simpl in Hn. lia.
  - change (digit_string n) with ("" ++ digit_string n) at 1. rewrite padStart_snoc.
    change (fixed_digits (S (S k)) n) with (fixed_digits (S k) (n / 10) ++ digit_string n).
    rewrite (Z.div_small n 10), fixed_digits_zero by lia. unfold padStart.
    rewrite string_app_assoc. done.
  - rewrite padStart_snoc.
    change (fixed_digits (S (S k)) n) with (fixed_digits (S k) (n / 10) ++ digit_string n).
    destruct f as [|f]; [simpl in Hf; lia|].
    rewrite Nat2Z.inj_succ, Z.pow_succ_r in Hn, Hf by lia.
    rewrite IH; [done| |]; [split; [apply Z.div_pos; lia|]|]; apply Z.div_lt_upper_bound; lia.
Qed.

Lemma digit_compare n m : Z.sgn (code_compare (digit_string n) (digit_string m)) =
  Z.sgn (n mod 10 - m mod 10).
Proof.
  unfold digit_string. cbn [code_compare].
  pose proof (Z.mod_pos_bound n 10). pose proof (Z.mod_pos_bound m 10).
  rewrite !Ascii.N_ascii_embedding by lia.
  destruct (N.compare_spec (Z.to_N (48 + n mod 10)) (Z.to_N (48 + m mod 10))); simpl; lia.
Qed.

Lemma fixed_digits_compare k : forall n m,
  0 <= n < 10 ^ Z.of_nat k -> 0 <= m < 10 ^ Z.of_nat k ->
  Z.sgn (code_compare (fixed_digits k n) (fixed_digits k m)) = Z.sgn (n - m).
Proof.
  induction k as [|k IH]; intros n m Hn Hm; cbn [fixed_digits]; [simpl in *; lia|].
  rewrite Nat2Z.inj_succ, Z.pow_succ_r in Hn, Hm by lia.
  rewrite code_compare_app by (by rewrite !fixed_digits_length).
  pose proof (digit_compare n m) as Hd. pose proof (Z.div_mod n 10). pose proof (Z.div_mod m 10).
  pose proof (Z.mod_pos_bound n 10). pose proof (Z.mod_pos_bound m 10).
  assert (Hnm : Z.sgn (code_compare (fixed_digits k (n / 10)) (fixed_digits k (m / 10))) =
                Z.sgn (n / 10 - m / 10)).
  { apply IH; (split; [apply Z.div_pos; lia|apply Z.div_lt_upper_bound; lia]). }
  unfold cmp_or. destruct (Z.eqb_spec (code_compare (fixed_digits k (n / 10)) (fixed_digits k (m / 10))) 0);
    lia.
Qed.

(** Five digits suffice for every clamped priority, and they order like the numbers. *)
Lemma pad5_fixed n : 0 <= n <= 20000 -> padStart (number_string n) 5 "0" = fixed_digits 5 n.
Proof.
  intros H. unfold number_string. apply (decimal_digits_pad 4); [lia|].
  destruct (Z.eq_dec n 0) as [->|]; [done|].
  pose proof (Z.log2_spec n) as [_ Hl]; [lia|]. rewrite Nat2Z.inj_succ, Z2Nat.id by apply Z.log2_nonneg.
  eapply Z.lt_le_trans; [exact Hl|]. apply Z.pow_le_mono_l. lia.
Qed.

Lemma order_key_compare n m ca cb ia ib :
  0 <= n <= 20000 -> 0 <= m <= 20000 -> String.length ca = String.length cb ->
  Z.sgn (code_compare (order_key n ca ia) (order_key m cb ib)) =
  Z.sgn (cmp_or (n - m) (cmp_or (code_compare ca cb) (code_compare ia ib))).
Proof.
  intros Hn Hm Hl. unfold order_key. rewrite !pad5_fixed by done.
  rewrite code_compare_app by (by rewrite !fixed_digits_length).
  rewrite (code_compare_app "#" "#"), (code_compare_app ca cb), (code_compare_app "#" "#") by done.
  change (code_compare "#" "#") with 0.
  pose proof (fixed_digits_compare 5 n m) as Hd. unfold cmp_or. rewrite !Z.eqb_refl.
  destruct (Z.eqb_spec (code_compare (fixed_digits 5 n) (fixed_digits 5 m)) 0),
    (Z.eqb_spec (n - m) 0); lia.
Qed.

(** The DynamoDB sort key refines the queue comparator: for priorities the
    API admits and creation times of one width (as ISO timestamps are), the
    byte order of two [queueOrderKey]s is the order [compareSessionsForQueue]
    gives their sessions, with strings compared by code unit. *)
Theorem queue_order_key_refines (a b : SessionRecord) :
  -10000 <= Session.priority a <= 10000 -> -10000 <= Session.priority b <= 10000 ->
  String.length (Session.createdAt a) = String.length (Session.createdAt b) ->
  Z.sgn (code_compare (queueOrderKey a) (queueOrderKey b)) =
  Z.sgn (compareSessionsForQueue (LC := code_order) a b).
Proof.
  intros Ha Hb Hl. unfold queueOrderKey. rewrite compareSessionsForQueue_lex.
  unfold clamp_order, QUEUE_ORDER_PRIORITY_OFFSET. rewrite order_key_compare by (done || lia).
  unfold localeCompare, code_order. do 2 f_equal. lia.
Qed.

(** ** Examples and witnesses *)
Definition example_session (id : string) (priority shard : Z) (createdAt : string) : SessionRecord :=
  session_literal id "repo" "hello" (target_provider "claude") [] ["claude"] 60
    "2026-01-02T00:00:00.000Z" 600 priority [] queued shard createdAt.

Definition example_queue : list SessionRecord :=
  [example_session "s1" 0 0 "2026-01-01T00:00:02.000Z";
   example_session "s2" 5 1 "2026-01-01T00:00:03.000Z";
   example_session "s3" 0 1 "2026-01-01T00:00:01.000Z";
   example_session "s4" 9 7 "2026-01-01T00:00:00.000Z"].

Example ordered_queue_example :
  option_map (map Session.id) (orderedQueuedSessions (LC := code_order) example_queue 2 prompt_kind)
  = Some ["s2"; "s3"; "s1"].
Proof. vm_compute. reflexivity. Qed.

Lemma ordered_queue_sorted_witness :
  exists out, orderedQueuedSessions (LC := code_order) example_queue 2 prompt_kind = Some out /\
    length out = 3%nat.
Proof.
  destruct (ordered_queue_sorted (LC := code_order) example_queue 2 prompt_kind) as (out & H & Hp & _);
    [lia|]. exists out. split; [exact H|]. exact (Permutation_length Hp).
Defined.

Lemma ordered_queue_reference_witness :
  option_map (map Session.id) (orderedQueuedSessions (LC := code_order) example_queue 2 prompt_kind)
  = Some ["s2"; "s3"; "s1"].
Proof.
  destruct (ordered_queue_reference (LC := code_order) example_queue 2 prompt_kind) as [-> _];
    [lia| |vm_compute; reflexivity].
  intros a b Ha Hb _ _. simpl in Ha, Hb.
  intuition (subst; vm_compute; first [reflexivity|discriminate]).
Defined.

Lemma queue_order_key_refines_witness :
  Z.sgn (code_compare (queueOrderKey (example_session "s2" 5 1 "2026-01-01T00:00:03.000Z"))
           (queueOrderKey (example_session "s3" 0 1 "2026-01-01T00:00:01.000Z"))) = -1.
Proof.
  rewrite queue_order_key_refines; [reflexivity| | |reflexivity]; split; vm_compute; discriminate.
Defined.
