(* ===== verification/TransitionPlanner.v ===== *)
(** * Session transitions

    services/api/src/session-transition-planner.ts: the pure policy that maps a
    session and an event to the effects its caller commits.  Only two places
    can throw, both [new Date(NaN).toISOString()] on an unreadable clock
    string, so a plan is an [option]: [None] is that [RangeError]. *)

From Stdlib Require Import ZArith Lia String.
From stdpp Require Import base strings list.
From S2P Require Import Prelude DateTime Types Ordering.

Local Open Scope string_scope.
Local Open Scope Z_scope.

(** ** Events, effects, context *)
Module Report.
Record SessionReportFields := mkReport {
  exitCode : nullable Z;
  errorCode : option string;
  errorMessage : option string;
  cliResumeRef : option string;
  result : option SessionResult;
}.

(** An object literal that names no field. *)
Definition none : SessionReportFields := mkReport Undef None None None None.

(** [{ ...base, ...over }]: a field of [over] that is present wins. *)
Definition spread (base over : SessionReportFields) : SessionReportFields := mkReport
  (match exitCode over with Undef => exitCode base | v => v end)
  (opt_else (errorCode over) (errorCode base))
  (opt_else (errorMessage over) (errorMessage base))
  (opt_else (cliResumeRef over) (cliResumeRef base))
  (opt_else (result over) (result base)).

Definition error (code message : string) : SessionReportFields :=
  mkReport Undef (Some code) (Some message) None None.
End Report.
Notation SessionReportFields := Report.SessionReportFields.

(** A worktree id on the wire is a string or [null]. *)
Definition wire_worktree (w : option string) : nullable string :=
  match w with Some x => Val x | None => Null end.

Inductive SessionTransitionEvent :=
| ev_ack (worktreeId : option string) (attemptId : string)
| ev_command_start (worktreeId : option string) (attemptId : string)
| ev_status (worktreeId : option string) (attemptId : string) (status : SessionStatus)
    (fields : SessionReportFields)
| ev_cancel
| ev_timeout
| ev_disconnect (acknowledged : bool)
| ev_infrastructure_failure (code : InfrastructureCode)
| ev_queue_expired
| ev_log (attemptId : string)
| ev_reconnect_claim (attemptId : string).

Inductive SessionTransitionIgnoreReason :=
| stale_attempt | already_acked | not_running | non_terminal | not_due | not_queued
| missing_account.

Inductive RequeueReason :=
| requeue_usage_limit | requeue_missing_account | requeue_providerless | requeue_disconnect
| requeue_infrastructure.

Inductive SessionTransitionEffect :=
| fx_ignore (reason : SessionTransitionIgnoreReason)
| fx_reject (error : string)
| fx_ack
| fx_authorize_command_start
| fx_retry_archive
| fx_patch_report (status : option SessionStatus) (fields : SessionReportFields)
| fx_finish (status : SessionStatus) (completedAt : string) (clearResumeRef : bool)
    (fields : SessionReportFields)
| fx_requeue (reason : RequeueReason) (fields : SessionReportFields)
| fx_cooldown (providerAccountId usageLimitedUntil : string)
| fx_suppress_target (targetIndex : Z)
| fx_fallback
| fx_release_worktree
| fx_release_workspace
| fx_release_lease
| fx_archive
| fx_reschedule (kind : ScheduleKind)
| fx_notify_cancel
| fx_cancel (holdAssignment : bool)
| fx_mark_reconnect (deadlineAt : string).

Definition SessionTransitionPlan : Type := list SessionTransitionEffect.

Inductive PlanSource := local | durable.

#[global] Instance PlanSource_eq_dec : EqDecision PlanSource.
Proof. solve_decision. Defined.

Module Ctx.
Record SessionTransitionContext := mkContext {
  now : string;
  source : PlanSource;
  protocolVersion : option Z;
  deferTerminalHookResult : option bool;
  usageLimitCooldownSeconds : option Z; (* [providerAccount], when it is an object *)
  reconnectGraceMs : option Z;
}.
End Ctx.
Notation SessionTransitionContext := Ctx.SessionTransitionContext.

Definition MAX_INFRASTRUCTURE_RETRIES : Z := 1.

(** ** The planners *)
Definition attemptMatches (s : SessionRecord) (worktreeId : option string) (attemptId : string) : bool :=
  bool_decide (Session.worktreeId s = wire_worktree worktreeId) &&
  bool_decide (Session.attemptId s = Some attemptId).

Definition route_target_index (s : SessionRecord) : Z :=
  match Session.resolvedRoute s with Some r => Route.targetIndex r | None => 0 end.

Definition remainingFallback (s : SessionRecord) : bool :=
  route_target_index s <? Z.of_nat (length (Session.fallbacks s)).

(** The first resource a session holds, in the order the code looks. *)
Definition releaseEffects (s : SessionRecord) : list SessionTransitionEffect :=
  if is_true_opt (Session.mainCheckoutLease s) then [fx_release_lease]
  else if is_some (truthy_nul (Session.workspaceSlotId s)) then [fx_release_workspace]
  else if is_some (truthy_nul (Session.worktreeId s)) then [fx_release_worktree]
  else [].

Definition planAck (s : SessionRecord) (worktreeId : option string) (attemptId : string)
    : SessionTransitionPlan :=
  if negb (bool_decide (Session.status s = running)) || negb (attemptMatches s worktreeId attemptId)
  then [fx_ignore stale_attempt]
  else if is_some (Session.ackReceivedAt s) then [fx_ignore already_acked]
  else [fx_ack].

Definition planCommandStart (s : SessionRecord) (worktreeId : option string) (attemptId : string)
    : SessionTransitionPlan :=
  if negb (bool_decide (Session.status s = running)) || negb (attemptMatches s worktreeId attemptId)
  then [fx_ignore stale_attempt]
  else match Session.primaryCommandStartState s with
       | Some start_authorized => []
       | Some start_pending => [fx_authorize_command_start]
       | None => [fx_reject "command start is not enabled for this assignment"]
       end.

Definition planInfrastructureFailure (s : SessionRecord) (code : InfrastructureCode)
    (ctx : SessionTransitionContext) (detail : option string) (fields : SessionReportFields)
    : SessionTransitionPlan :=
  if negb (bool_decide (Session.status s = running)) then [fx_ignore not_running] else
  let baseMessage := opt_or detail
    (match code with
     | checkout_fetch_failed => "checkout fetch failed"
     | host_lost => "host was lost before command launch"
     end) in
  let checkoutHookWasDeferred :=
    negb (bool_decide (code = checkout_fetch_failed)) ||
    is_true_opt (Ctx.deferTerminalHookResult ctx) in
  let replaySafe :=
    checkoutHookWasDeferred &&
    (negb (bool_decide (code = host_lost)) ||
     bool_decide (Session.primaryCommandStartState s = Some start_pending)) in
  if replaySafe && (opt_or (Session.infrastructureRetryCount s) 0 <? MAX_INFRASTRUCTURE_RETRIES) then
    (releaseEffects s ++
     [fx_requeue requeue_infrastructure
        (Report.error (infrastructure_code_name code) (baseMessage ++ "; retrying once"));
      fx_reschedule (scheduleKind s)])%list
  else
    (releaseEffects s ++
     [fx_finish failed (Ctx.now ctx) false
        (Report.spread fields
           (Report.error (infrastructure_code_name code)
              (if negb checkoutHookWasDeferred
               then baseMessage ++ "; terminal hook was not durably deferred"
               else if replaySafe then baseMessage ++ "; automatic retry exhausted"
               else "host lost after command authorization or without a replay-safe checkpoint")));
      fx_archive])%list.

Definition usage_limit_message (fields : SessionReportFields) : string :=
  opt_or (Report.errorMessage fields) "provider usage limit; requeued".

Section planner.
Context {DP : DateParse}.

(** [Date.parse(now) + ms], [NaN] propagating. *)
Definition date_plus (now : string) (ms : Z) : option Z := (fun t => t + ms) <$> date_parse now.

Definition planUsageLimit (s : SessionRecord) (fields : SessionReportFields)
    (ctx : SessionTransitionContext) : option (list SessionTransitionEffect) :=
  let leased := is_true_opt (Session.mainCheckoutLease s) in
  let accountId := r ← Session.resolvedRoute s; truthy_opt (Route.providerAccountId r) in
  let fallback := if remainingFallback s then [fx_fallback] else [] in
  let reschedule := fx_reschedule (scheduleKind s) in
  let release := releaseEffects s in
  match accountId, Ctx.usageLimitCooldownSeconds ctx with
  | Some account, Some cooldown =>
      until ← date_iso (date_plus (Ctx.now ctx) (cooldown * 1000));
      Some ([fx_cooldown account until] ++ release ++ fallback ++
            [fx_requeue requeue_usage_limit
               (Report.spread (Report.error "usage_limit" (usage_limit_message fields)) fields);
             reschedule])%list
  | Some _, None =>
      if bool_decide (Ctx.source ctx = durable) && negb leased then Some [fx_ignore missing_account]
      else
        let missing := bool_decide (Ctx.source ctx = durable) && leased in
        Some (release ++
              [fx_requeue (if missing then requeue_missing_account else requeue_usage_limit)
                 (Report.spread
                    (Report.error "usage_limit"
                       (if missing then "provider account missing; requeued"
                        else usage_limit_message fields)) fields);
               reschedule])%list
  | None, _ =>
      Some ([fx_suppress_target (route_target_index s)] ++ release ++ fallback ++
            [fx_requeue requeue_providerless
               (Report.spread (Report.mkReport Undef (Some "usage_limit") None None None) fields);
             reschedule])%list
  end.

Definition planLateTerminal (s : SessionRecord) (fields : SessionReportFields)
    (ctx : SessionTransitionContext) (prefix : list SessionTransitionEffect) : SessionTransitionPlan :=
  let is_cancelled := bool_decide (Session.status s = cancelled) in
  if bool_decide (Ctx.source ctx = durable) && negb is_cancelled
  then (prefix ++ [fx_ignore not_running])%list
  else if bool_decide (Ctx.source ctx = durable) && is_cancelled &&
          negb (is_some (truthy_nul (Session.worktreeId s))) &&
          negb (is_true_opt (Session.mainCheckoutLease s)) &&
          negb (is_some (truthy_nul (Session.workspaceSlotId s)))
  then (prefix ++ [fx_ignore not_running])%list
  else
    (prefix ++ releaseEffects s ++
     (if is_some (Report.cliResumeRef fields) || is_some (Report.result fields)
      then [fx_patch_report None
              (Report.mkReport Undef None None (Report.cliResumeRef fields) (Report.result fields))]
      else []))%list.

Definition planStatus (s : SessionRecord) (worktreeId : option string) (attemptId : string)
    (status : SessionStatus) (fields : SessionReportFields) (ctx : SessionTransitionContext)
    : option SessionTransitionPlan :=
  let terminal := isTerminalSessionStatus status in
  let prefix :=
    if bool_decide (Ctx.source ctx = durable) && terminal && isTerminalSessionStatus (Session.status s)
    then [fx_retry_archive] else [] in
  if negb (attemptMatches s worktreeId attemptId) then Some (prefix ++ [fx_ignore stale_attempt])%list
  else if negb terminal then
    if bool_decide (Ctx.source ctx = local) then
      Some [if bool_decide (Session.status s = running)
            then fx_patch_report (Some status) fields
            else fx_patch_report None
                   (Report.mkReport Undef None None (Report.cliResumeRef fields) None)]
    else Some [fx_ignore non_terminal]
  else if negb (bool_decide (Session.status s = running)) then Some (planLateTerminal s fields ctx prefix)
  else if bool_decide (status = failed) && bool_decide (Report.errorCode fields = Some "usage_limit")
  then planUsageLimit s fields ctx
  else if bool_decide (status = failed) &&
          bool_decide (Report.errorCode fields = Some "checkout_fetch_failed")
  then Some (planInfrastructureFailure s checkout_fetch_failed ctx (Report.errorMessage fields) fields)
  else
    Some (releaseEffects s ++
          [fx_finish status (Ctx.now ctx)
             (is_some (truthy_opt (Session.resumedFromSessionId s)) &&
              negb (is_some (Report.cliResumeRef fields))) fields;
           fx_archive])%list.

Definition planAttemptId (s : SessionRecord) (attemptId : string) (requireRunning : bool)
    : SessionTransitionPlan :=
  if (requireRunning && negb (bool_decide (Session.status s = running))) ||
     (is_some (Session.attemptId s) && negb (bool_decide (Session.attemptId s = Some attemptId)))
  then [fx_ignore stale_attempt] else [].

Definition planCancel (s : SessionRecord) : SessionTransitionPlan :=
  if isTerminalSessionStatus (Session.status s)
  then [fx_reject ("session already terminal: " ++ status_name (Session.status s))]
  else if bool_decide (Session.status s = running) && is_some (truthy_nul (Session.hostId s))
  then [fx_cancel true; fx_notify_cancel]
  else (fx_cancel false :: releaseEffects s)%list.

Definition planTimeout (s : SessionRecord) (ctx : SessionTransitionContext) : SessionTransitionPlan :=
  if negb (bool_decide (Session.status s = running)) ||
     negb (is_some (truthy_opt (Session.ackReceivedAt s)))
  then [fx_ignore not_due]
  else (releaseEffects s ++
        [fx_finish timed_out (Ctx.now ctx) false
           (Report.mkReport Undef None
              (Some "session exceeded timeout without a host terminal report") None None);
         fx_notify_cancel; fx_archive])%list.

Definition planDisconnect (s : SessionRecord) (acknowledged : bool) (ctx : SessionTransitionContext)
    : option SessionTransitionPlan :=
  if bool_decide (Session.status s = cancelled) then Some (releaseEffects s)
  else if negb (bool_decide (Session.status s = running)) then Some [fx_ignore not_running]
  else if acknowledged then
    deadline ← date_iso (date_plus (Ctx.now ctx) (opt_or (Ctx.reconnectGraceMs ctx) 0));
    Some [fx_mark_reconnect deadline]
  else Some (releaseEffects s ++
             [fx_requeue requeue_disconnect
                (Report.mkReport Undef None (Some "host disconnected; requeued") None None)])%list.

Definition planQueueExpired (s : SessionRecord) (ctx : SessionTransitionContext) : SessionTransitionPlan :=
  if negb (bool_decide (Session.status s = queued)) then [fx_ignore not_queued]
  else if date_gt (date_parse (Session.queueExpiresAt s)) (date_parse (Ctx.now ctx))
  then [fx_ignore not_due]
  else [fx_finish failed (Ctx.now ctx) false
          (Report.error "queue_expired" "queue TTL expired before capacity became available");
        fx_archive].

Definition planSessionTransition (session : option SessionRecord) (event : SessionTransitionEvent)
    (ctx : SessionTransitionContext) : option SessionTransitionPlan :=
  match session with
  | None => Some [fx_reject "session not found"]
  | Some s =>
      match event with
      | ev_ack worktreeId attemptId => Some (planAck s worktreeId attemptId)
      | ev_command_start worktreeId attemptId => Some (planCommandStart s worktreeId attemptId)
      | ev_status worktreeId attemptId status fields =>
          planStatus s worktreeId attemptId status fields ctx
      | ev_cancel => Some (planCancel s)
      | ev_timeout => Some (planTimeout s ctx)
      | ev_disconnect acknowledged => planDisconnect s acknowledged ctx
      | ev_infrastructure_failure code => Some (planInfrastructureFailure s code ctx None Report.none)
      | ev_queue_expired => Some (planQueueExpired s ctx)
      | ev_log attemptId => Some (planAttemptId s attemptId false)
      | ev_reconnect_claim attemptId => Some (planAttemptId s attemptId true)
      end
  end.
End planner.

(** ** Classification of effects *)

(** Effects that decide what becomes of the session. *)
Definition is_disposition (e : SessionTransitionEffect) : bool :=
  match e with
  | fx_finish _ _ _ _ | fx_requeue _ _ | fx_cancel _ | fx_mark_reconnect _ => true
  | _ => false
  end.

(** Effects that end the current assignment and give its resource back. *)
Definition is_ending (e : SessionTransitionEffect) : bool :=
  match e with fx_finish _ _ _ _ | fx_requeue _ _ => true | _ => false end.

Definition is_release (e : SessionTransitionEffect) : bool :=
  match e with
  | fx_release_worktree | fx_release_workspace | fx_release_lease => true
  | _ => false
  end.

(** Effects that change nothing of the session: answers and archive retries. *)
Definition is_inert (e : SessionTransitionEffect) : bool :=
  match e with fx_ignore _ | fx_reject _ | fx_retry_archive => true | _ => false end.

Definition dispositions (p : SessionTransitionPlan) : SessionTransitionPlan := List.filter is_disposition p.
Definition endings (p : SessionTransitionPlan) : SessionTransitionPlan := List.filter is_ending p.
Definition releases (p : SessionTransitionPlan) : SessionTransitionPlan := List.filter is_release p.

(** Effects that write the session's status or its assignment. *)
Definition changes_status (e : SessionTransitionEffect) : bool :=
  match e with
  | fx_ack | fx_authorize_command_start | fx_finish _ _ _ _ | fx_requeue _ _ | fx_cancel _
  | fx_mark_reconnect _ | fx_patch_report (Some _) _ => true
  | _ => false
  end.

Lemma releaseEffects_cases s :
  releaseEffects s = [] \/ releaseEffects s = [fx_release_lease] \/
  releaseEffects s = [fx_release_workspace] \/ releaseEffects s = [fx_release_worktree].
Proof. unfold releaseEffects. repeat case_match; auto. Qed.

(** ** The policy table

    One rule per decision of the planner, with the condition under which it is
    taken.  [planSessionTransition] implements it ([planner_policy]); the
    properties below are proved by cases on the rules. *)

(** The evidence that replaying an attempt cannot run its command or hook twice. *)
Definition replay_safe (s : SessionRecord) (ctx : SessionTransitionContext) (code : InfrastructureCode)
    : Prop :=
  match code with
  | checkout_fetch_failed => is_true_opt (Ctx.deferTerminalHookResult ctx) = true
  | host_lost => Session.primaryCommandStartState s = Some start_pending
  end.

(** An event that reports an infrastructure failure of the current attempt. *)
Inductive infrastructure_event (s : SessionRecord)
    : SessionTransitionEvent -> InfrastructureCode -> Prop :=
| infrastructure_direct code : infrastructure_event s (ev_infrastructure_failure code) code
| infrastructure_report w a fields :
    attemptMatches s w a = true ->
    Report.errorCode fields = Some "checkout_fetch_failed" ->
    infrastructure_event s (ev_status w a failed fields) checkout_fetch_failed.

(** A usage-limit report of the current attempt. *)
Inductive usage_limit_event (s : SessionRecord) : SessionTransitionEvent -> Prop :=
| usage_limit_report w a fields :
    attemptMatches s w a = true -> Report.errorCode fields = Some "usage_limit" ->
    usage_limit_event s (ev_status w a failed fields).

(** Events that end a running attempt, with the final status they give it. *)
Inductive ending_event (s : SessionRecord) : SessionTransitionEvent -> SessionStatus -> Prop :=
| ending_report w a st fields :
    attemptMatches s w a = true -> isTerminalSessionStatus st = true ->
    ending_event s (ev_status w a st fields) st
| ending_timeout : is_some (truthy_opt (Session.ackReceivedAt s)) = true -> ending_event s ev_timeout timed_out
| ending_infrastructure ev code : infrastructure_event s ev code -> ending_event s ev failed.

Inductive policy {DP : DateParse} (s : SessionRecord) (ctx : SessionTransitionContext)
    : SessionTransitionEvent -> SessionTransitionPlan -> Prop :=
| policy_inert ev p : forallb is_inert p = true -> policy s ctx ev p
| policy_ack w a :
    Session.status s = running -> attemptMatches s w a = true -> Session.ackReceivedAt s = None ->
    policy s ctx (ev_ack w a) [fx_ack]
| policy_command_start w a :
    Session.status s = running -> attemptMatches s w a = true ->
    Session.primaryCommandStartState s = Some start_pending ->
    policy s ctx (ev_command_start w a) [fx_authorize_command_start]
| policy_replay ev code fields :
    Session.status s = running -> infrastructure_event s ev code -> replay_safe s ctx code ->
    opt_or (Session.infrastructureRetryCount s) 0 < MAX_INFRASTRUCTURE_RETRIES ->
    policy s ctx ev (releaseEffects s ++
      [fx_requeue requeue_infrastructure fields; fx_reschedule (scheduleKind s)])%list
| policy_finish ev st clear fields tail :
    Session.status s = running -> ending_event s ev st -> isTerminalSessionStatus st = true ->
    tail = [fx_archive] \/ tail = [fx_notify_cancel; fx_archive] ->
    policy s ctx ev (releaseEffects s ++ fx_finish st (Ctx.now ctx) clear fields :: tail)%list
| policy_usage_limit ev pre mid reason fields :
    Session.status s = running -> usage_limit_event s ev -> reason <> requeue_infrastructure ->
    pre = [] \/ (exists a u, pre = [fx_cooldown a u]) \/ (exists i, pre = [fx_suppress_target i]) ->
    mid = [] \/ mid = [fx_fallback] ->
    policy s ctx ev (pre ++ releaseEffects s ++ mid ++
      [fx_requeue reason fields; fx_reschedule (scheduleKind s)])%list
| policy_late_report w a st fields prefix patch :
    Session.status s <> running -> attemptMatches s w a = true -> isTerminalSessionStatus st = true ->
    Session.status s = cancelled \/ Ctx.source ctx = local ->
    prefix = [] \/ prefix = [fx_retry_archive] ->
    patch = [] \/ (exists f, patch = [fx_patch_report None f]) ->
    policy s ctx (ev_status w a st fields) (prefix ++ releaseEffects s ++ patch)%list
| policy_progress w a st fields :
    Session.status s = running -> attemptMatches s w a = true -> isTerminalSessionStatus st = false ->
    Ctx.source ctx = local ->
    policy s ctx (ev_status w a st fields) [fx_patch_report (Some st) fields]
| policy_late_progress w a st fields fields' :
    Session.status s <> running -> attemptMatches s w a = true ->
    policy s ctx (ev_status w a st fields) [fx_patch_report None fields']
| policy_cancel_running :
    Session.status s = running -> is_some (truthy_nul (Session.hostId s)) = true ->
    policy s ctx ev_cancel [fx_cancel true; fx_notify_cancel]
| policy_cancel :
    isTerminalSessionStatus (Session.status s) = false ->
    policy s ctx ev_cancel (fx_cancel false :: releaseEffects s)
| policy_disconnect_cancelled ack :
    Session.status s = cancelled -> policy s ctx (ev_disconnect ack) (releaseEffects s)
| policy_disconnect_acknowledged deadline :
    Session.status s = running ->
    date_iso (date_plus (Ctx.now ctx) (opt_or (Ctx.reconnectGraceMs ctx) 0)) = Some deadline ->
    policy s ctx (ev_disconnect true) [fx_mark_reconnect deadline]
| policy_disconnect fields :
    Session.status s = running ->
    policy s ctx (ev_disconnect false) (releaseEffects s ++ [fx_requeue requeue_disconnect fields])%list
| policy_queue_expired fields :
    Session.status s = queued ->
    date_gt (date_parse (Session.queueExpiresAt s)) (date_parse (Ctx.now ctx)) = false ->
    Report.errorCode fields = Some "queue_expired" ->
    policy s ctx ev_queue_expired [fx_finish failed (Ctx.now ctx) false fields; fx_archive].

(** ** The planner implements the table *)

(** Turns the boolean guards of the code into propositions. *)
Ltac guards :=
  repeat match goal with
  | H : _ && _ = true |- _ => apply andb_true_iff in H as [? ?]
  | H : _ || _ = false |- _ => apply orb_false_iff in H as [? ?]
  | H : negb _ = true |- _ => apply negb_true_iff in H
  | H : negb _ = false |- _ => apply negb_false_iff in H
  | H : bool_decide _ = true |- _ => apply bool_decide_eq_true in H
  | H : bool_decide _ = false |- _ => apply bool_decide_eq_false in H
  end.

Section implementation.
Context {DP : DateParse}.

Lemma infrastructure_policy s ev code ctx detail fields :
  infrastructure_event s ev code ->
  policy s ctx ev (planInfrastructureFailure s code ctx detail fields).
Proof.
  intros Hev. unfold planInfrastructureFailure.
  destruct (bool_decide (Session.status s = running)) eqn:Hrun; simpl; guards; [|by constructor].
  destruct (_ && (opt_or _ _ <? _)) eqn:Hretry.
  - guards. eapply policy_replay; [done|done| |by apply Z.ltb_lt].
    destruct code; simpl in *; [done|]. by guards.
  - apply policy_finish; [done|by econstructor|done|by left].
Qed.

Lemma usage_limit_policy s w a fields ctx p :
  Session.status s = running -> attemptMatches s w a = true ->
  Report.errorCode fields = Some "usage_limit" ->
  planUsageLimit s fields ctx = Some p -> policy s ctx (ev_status w a failed fields) p.
Proof.
  intros Hrun Hm He. assert (Hev : usage_limit_event s (ev_status w a failed fields)) by by constructor.
  unfold planUsageLimit. cbv zeta.
  assert (Hmid : forall b : bool, (if b then [fx_fallback] else []) = [] \/
                                  (if b then [fx_fallback] else []) = [fx_fallback])
    by (intros []; auto).
  destruct (_ ≫= _) as [account|]; [destruct (Ctx.usageLimitCooldownSeconds ctx) as [c|]|].
  - destruct (date_iso _) as [u|]; cbn [mbind option_bind]; intros [= <-].
    apply (policy_usage_limit s ctx _ [fx_cooldown account u]); eauto; done.
  - destruct (_ && negb _); intros [= <-]; [by constructor|].
    apply (policy_usage_limit s ctx _ [] []); auto. by case_match.
  - intros [= <-]. apply (policy_usage_limit s ctx _ [fx_suppress_target _]); eauto; done.
Qed.

Lemma late_policy s w a st fields ctx prefix :
  Session.status s <> running -> attemptMatches s w a = true -> isTerminalSessionStatus st = true ->
  prefix = [] \/ prefix = [fx_retry_archive] ->
  policy s ctx (ev_status w a st fields) (planLateTerminal s fields ctx prefix).
Proof.
  intros Hrun Hm Ht Hp. unfold planLateTerminal. cbv zeta.
  destruct (_ && negb _) eqn:E1; [apply policy_inert; by destruct Hp as [-> | ->]|].
  destruct (_ && _ && _) eqn:E2; [apply policy_inert; by destruct Hp as [-> | ->]|].
  apply policy_late_report; try done.
  - destruct (decide (Ctx.source ctx = durable)) as [Hd|Hd];
      [rewrite Hd in E1; simpl in E1; guards; by left|right; by destruct (Ctx.source ctx)].
  - case_match; eauto.
Qed.

Lemma status_policy s w a st fields ctx p :
  planStatus s w a st fields ctx = Some p -> policy s ctx (ev_status w a st fields) p.
Proof.
  unfold planStatus. cbv zeta. set (prefix := if _ && _ && _ then _ else _).
  assert (Hprefix : prefix = [] \/ prefix = [fx_retry_archive])
    by (unfold prefix; case_match; auto).
  destruct (attemptMatches s w a) eqn:Hm; simpl.
  2: { intros [= <-]. apply policy_inert. by destruct Hprefix as [-> | ->]. }
  destruct (isTerminalSessionStatus st) eqn:Ht; simpl.
  2: { destruct (bool_decide (Ctx.source ctx = local)) eqn:Hl; intros [= <-]; guards; [|by constructor].
       destruct (bool_decide (Session.status s = running)) eqn:Hr; guards;
         [by apply policy_progress|by eapply policy_late_progress]. }
  destruct (bool_decide (Session.status s = running)) eqn:Hr; simpl; guards.
  2: { intros [= <-]. by apply late_policy. }
  destruct (_ && bool_decide (_ = Some "usage_limit")) eqn:Hu; guards.
  { subst st. by apply usage_limit_policy. }
  destruct (_ && bool_decide (_ = Some "checkout_fetch_failed")) eqn:Hc; intros [= <-]; guards.
  - subst st. apply infrastructure_policy. by constructor.
  - apply policy_finish; [done|by constructor|done|by left].
Qed.

Lemma planner_policy s ev ctx p :
  planSessionTransition (Some s) ev ctx = Some p -> policy s ctx ev p.
Proof.
  destruct ev; cbn [planSessionTransition]; intros H.
  - injection H as <-. unfold planAck. destruct (_ || _) eqn:E; [by constructor|].
    guards. destruct (Session.ackReceivedAt s) eqn:Ha; simpl; [by constructor|by apply policy_ack].
  - injection H as <-. unfold planCommandStart. destruct (_ || _) eqn:E; [by constructor|].
    guards. destruct (Session.primaryCommandStartState s) as [[]|] eqn:Ha;
      [by apply policy_command_start|by constructor|by constructor].
  - by apply status_policy.
  - injection H as <-. unfold planCancel. destruct (isTerminalSessionStatus _) eqn:Ht; [by constructor|].
    destruct (_ && _) eqn:E; guards; [by apply policy_cancel_running|by apply policy_cancel].
  - injection H as <-. unfold planTimeout. destruct (_ || _) eqn:E; guards; [by constructor|].
    apply policy_finish; [done|by constructor|done|by right].
  - unfold planDisconnect in H. repeat case_match; guards; simplify_eq.
    + by apply policy_disconnect_cancelled.
    + by constructor.
    + destruct (date_iso _) as [d|] eqn:Hd; cbn [mbind option_bind] in H; simplify_eq.
      by apply policy_disconnect_acknowledged.
    + by apply policy_disconnect.
  - injection H as <-. apply infrastructure_policy. by constructor.
  - injection H as <-. unfold planQueueExpired. repeat case_match; guards;
      [by constructor|by constructor|by apply policy_queue_expired].
  - injection H as <-. unfold planAttemptId. case_match; by constructor.
  - injection H as <-. unfold planAttemptId. case_match; by constructor.
Qed.
End implementation.

(** ** Properties *)

Section properties.
Context {DP : DateParse}.
Implicit Types (s : SessionRecord) (p : SessionTransitionPlan).

Ltac by_policy H :=
  apply planner_policy in H; destruct H; simplify_eq/=;
  repeat match goal with
  | H : _ \/ _ |- _ => destruct H as [H|H]
  | H : exists _, _ |- _ => destruct H as [? H]
  end; subst;
  try match goal with
  | s : SessionRecord |- _ => destruct (releaseEffects_cases s) as [Hr|[Hr|[Hr|Hr]]]; rewrite ?Hr in *
  end.

Lemma inert_filter (f : SessionTransitionEffect -> bool) p :
  (forall e, is_inert e = true -> f e = false) -> forallb is_inert p = true -> List.filter f p = [].
Proof.
  intros Hf. induction p as [|e p IH]; simpl; [done|]. intros H. guards. rewrite Hf by done. by apply IH.
Qed.

Lemma inert_no p e : forallb is_inert p = true -> is_inert e = false -> ~ In e p.
Proof. rewrite forallb_forall. intros H He Hin. apply H in Hin. congruence. Qed.

(** A plan decides at most once and releases at most once, and whenever it
    ends a running attempt (finish or requeue) it releases exactly the resource
    that attempt holds: main checkout, workspace slot or worktree. *)
Theorem plan_releases_once s ev ctx p :
  planSessionTransition (Some s) ev ctx = Some p ->
  (length (dispositions p) <= 1)%nat /\ (length (releases p) <= 1)%nat /\
  (endings p <> [] -> Session.status s = running -> releases p = releaseEffects s).
Proof.
  intros H. apply planner_policy in H as Hpol. unfold dispositions, releases, endings.
  destruct (forallb is_inert p) eqn:Hi.
  - rewrite !inert_filter by (done || by intros []). simpl. repeat split; [lia|lia|done].
  - clear Hpol. by_policy H; simpl in *; try congruence; repeat split; try lia; try done;
      intros _ ?; congruence.
Qed.

(** Terminal statuses absorb: for a session that is completed, failed,
    cancelled or timed out, no event of any kind plans an effect that writes
    its status, acknowledges or requeues it. *)
Theorem terminal_sessions_absorb s ev ctx p :
  isTerminalSessionStatus (Session.status s) = true ->
  planSessionTransition (Some s) ev ctx = Some p ->
  forallb (fun e => negb (changes_status e)) p = true.
Proof.
  intros Ht H. apply terminal_iff in Ht as [Hq Hrun].
  destruct (forallb is_inert p) eqn:Hi.
  - rewrite forallb_forall in Hi |- *. intros e He. apply Hi in He. by destruct e.
  - by_policy H; try congruence; try done;
      match goal with Hn : _ = false |- _ => apply not_terminal_iff in Hn as [?|?]; congruence end.
Qed.

(** The attempt fence an event carries on the wire. *)
Definition event_fence (ev : SessionTransitionEvent) : option (option string * string) :=
  match ev with
  | ev_ack w a | ev_command_start w a | ev_status w a _ _ => Some (w, a)
  | _ => None
  end.

(** Stale frames are inert: an acknowledgement, command start or status
    report whose worktree or attempt is not the session's current one is
    answered without any effect on the session, whatever it reports. *)
Theorem stale_frames_are_inert s ev ctx w a :
  event_fence ev = Some (w, a) ->
  Session.worktreeId s <> wire_worktree w \/ Session.attemptId s <> Some a ->
  exists p, planSessionTransition (Some s) ev ctx = Some p /\ forallb is_inert p = true.
Proof.
  intros Hf Hne. assert (attemptMatches s w a = false) as Hm.
  { unfold attemptMatches. apply andb_false_iff. by rewrite !bool_decide_eq_false. }
  destruct ev; simplify_eq/=.
  - unfold planAck. rewrite Hm. simpl. rewrite orb_true_r. by eexists.
  - unfold planCommandStart. rewrite Hm. simpl. rewrite orb_true_r. by eexists.
  - unfold planStatus. rewrite Hm. simpl. eexists. split; [done|]. by case_match.
Qed.

(** An attempt is replayed for an infrastructure failure exactly when the
    session is running, the failure concerns its current attempt, the replay is
    proved safe (the terminal hook was deferred, or the command had not been
    authorized) and no automatic retry was consumed before. *)
Theorem infrastructure_retry_iff s ev ctx p :
  planSessionTransition (Some s) ev ctx = Some p ->
  (exists fields, In (fx_requeue requeue_infrastructure fields) p) <->
  Session.status s = running /\
  exists code, infrastructure_event s ev code /\ replay_safe s ctx code /\
    opt_or (Session.infrastructureRetryCount s) 0 < MAX_INFRASTRUCTURE_RETRIES.
Proof.
  intros H. split.
  - intros [fields Hin]. destruct (forallb is_inert p) eqn:Hi;
      [by destruct (inert_no p (fx_requeue requeue_infrastructure fields))|].
    by_policy H; try congruence; simpl in Hin;
      repeat (destruct Hin as [Hin|Hin]; simplify_eq); eauto 10; done.
  - intros [Hrun (code & Hev & Hsafe & Hcount)].
    assert (Hplan : exists detail fields, p = planInfrastructureFailure s code ctx detail fields).
    { destruct Hev as [code|w a fields Hm He]; simpl in H; [simplify_eq; by do 2 eexists|].
      unfold planStatus in H. rewrite Hm, Hrun, He in H. simpl in H. simplify_eq. by do 2 eexists. }
    destruct Hplan as (detail & fields & ->). unfold planInfrastructureFailure.
    rewrite Hrun. rewrite bool_decide_true by done. cbn [negb].
    apply Z.ltb_lt in Hcount.
    destruct code; simpl in Hsafe |- *; rewrite Hsafe, Hcount; simpl;
      eexists; apply in_or_app; right; by left.
Qed.

(** A usage limit never fails a session: the report of the current attempt
    gives its resource back and requeues it, except that durable workers ignore
    a report whose provider account row is gone while no main checkout is held. *)
Theorem usage_limit_requeues s ev ctx p :
  Session.status s = running -> usage_limit_event s ev ->
  planSessionTransition (Some s) ev ctx = Some p ->
  (forall st at_ clear fields, ~ In (fx_finish st at_ clear fields) p) /\
  (p = [fx_ignore missing_account] /\ Ctx.source ctx = durable /\
     is_true_opt (Session.mainCheckoutLease s) = false \/
   (exists reason fields, endings p = [fx_requeue reason fields]) /\ releases p = releaseEffects s).
Proof.
  intros Hrun Hev H. destruct Hev as [w a fields Hm He]. simpl in H. unfold planStatus in H.
  rewrite Hm, Hrun, He in H. simpl in H. unfold planUsageLimit in H. cbv zeta in H.
  destruct (_ ≫= _) as [account|]; [destruct (Ctx.usageLimitCooldownSeconds ctx) as [c|]|].
  - destruct (date_iso _) as [u|]; cbn [mbind option_bind] in H; simplify_eq.
    split; [|right]; destruct (releaseEffects_cases s) as [-> | [-> | [-> | ->]]];
      destruct (remainingFallback s); simpl; intuition (try congruence); eauto.
  - destruct (_ && negb _) eqn:E; simplify_eq; guards.
    + split; [|by left]. simpl. intuition congruence.
    + split; [|right]; destruct (releaseEffects_cases s) as [-> | [-> | [-> | ->]]];
      simpl; intuition (try congruence); eauto.
  - simplify_eq. split; [|right]; destruct (releaseEffects_cases s) as [-> | [-> | [-> | ->]]];
      destruct (remainingFallback s); simpl; intuition (try congruence); eauto.
Qed.

(** The clock is readable and no deadline leaves the range of a [Date]. *)
Definition readable_clock (ctx : SessionTransitionContext) : Prop :=
  exists t, date_parse (Ctx.now ctx) = Some t /\
    0 <= t /\
    0 <= opt_or (Ctx.usageLimitCooldownSeconds ctx) 0 /\
    0 <= opt_or (Ctx.reconnectGraceMs ctx) 0 /\
    t + opt_or (Ctx.usageLimitCooldownSeconds ctx) 0 * 1000 +
      opt_or (Ctx.reconnectGraceMs ctx) 0 <= 8640000000000000.

Lemma date_iso_plus now t ms :
  date_parse now = Some t -> 0 <= t + ms <= 8640000000000000 ->
  date_iso (date_plus now ms) = Some (JsDate.toISOString (t + ms)).
Proof.
  intros Ht Hr. unfold date_iso, date_plus. rewrite Ht. simpl.
  by rewrite (proj2 (Z.leb_le _ _)) by lia.
Qed.

(** The planner answers every event: with a readable clock no session,
    event or report makes it throw, and a missing session is rejected. *)
Theorem planner_total session ev ctx :
  readable_clock ctx -> exists p, planSessionTransition session ev ctx = Some p.
Proof.
  intros (t & Ht & H0 & Hc & Hg & Hmax).
  destruct session as [s|]; [|by eexists]. destruct ev; simpl; try by eexists.
  - unfold planStatus. cbv zeta. repeat (case_match; try by eexists).
    unfold planUsageLimit. cbv zeta. destruct (_ ≫= _); [|by eexists].
    destruct (Ctx.usageLimitCooldownSeconds ctx) as [c|]; [|case_match; by eexists].
    simpl in *. erewrite date_iso_plus by (done || lia). by eexists.
  - unfold planDisconnect. repeat (case_match; try by eexists).
    erewrite date_iso_plus by (done || lia). by eexists.
Qed.
End properties.

(** ** Witnesses *)
Definition example_running : SessionRecord :=
  (example_session "s1" 0 0 "2026-01-01T00:00:00.000Z")
    <| Session.status := running |> <| Session.worktreeId := Val "w1" |>
    <| Session.hostId := Val "h1" |> <| Session.attemptId := Some "a1" |>
    <| Session.primaryCommandStartState := Some start_pending |>.

Definition example_ctx : SessionTransitionContext :=
  Ctx.mkContext "2026-01-01T00:05:00.000Z" local None None (Some 18000) (Some 75000).

Definition usage_report : SessionTransitionEvent :=
  ev_status (Some "w1") "a1" failed (Report.mkReport Undef (Some "usage_limit") None None None).

Lemma plan_releases_once_witness :
  releases [fx_release_worktree;
            fx_requeue requeue_infrastructure
              (Report.error "host_lost" "host was lost before command launch; retrying once");
            fx_reschedule prompt_kind] = releaseEffects example_running.
Proof.
  destruct (plan_releases_once (DP := iso_date_parse) example_running
    (ev_infrastructure_failure host_lost) example_ctx
    [fx_release_worktree;
     fx_requeue requeue_infrastructure
       (Report.error "host_lost" "host was lost before command launch; retrying once");
     fx_reschedule prompt_kind]) as (_ & _ & H);
    [vm_compute; reflexivity|]. apply H; [discriminate|reflexivity].
Defined.

Lemma terminal_sessions_absorb_witness :
  forallb (fun e => negb (changes_status e))
    [fx_reject "session already terminal: completed"] = true.
Proof.
  apply (terminal_sessions_absorb (DP := iso_date_parse)
    (example_running <| Session.status := completed |>) ev_cancel example_ctx); vm_compute; reflexivity.
Defined.

Lemma stale_frames_are_inert_witness :
  exists p, planSessionTransition (DP := iso_date_parse) (Some example_running)
    (ev_status (Some "w1") "a0" completed Report.none) example_ctx = Some p /\
    forallb is_inert p = true.
Proof.
  apply (stale_frames_are_inert (DP := iso_date_parse) example_running
    (ev_status (Some "w1") "a0" completed Report.none) example_ctx (Some "w1") "a0");
    [reflexivity|right; discriminate].
Defined.

Lemma infrastructure_retry_iff_witness :
  exists p fields,
    planSessionTransition (DP := iso_date_parse) (Some example_running)
      (ev_infrastructure_failure host_lost) example_ctx = Some p /\
    In (fx_requeue requeue_infrastructure fields) p.
Proof.
  eexists. destruct (proj2 (infrastructure_retry_iff (DP := iso_date_parse) example_running
    (ev_infrastructure_failure host_lost) example_ctx _ eq_refl)) as [fields H].
  - split; [reflexivity|]. exists host_lost.
    split; [constructor|split; [reflexivity|vm_compute; reflexivity]].
  - exists fields. split; [reflexivity|exact H].
Defined.

Lemma usage_limit_requeues_witness :
  exists p, planSessionTransition (DP := iso_date_parse) (Some example_running) usage_report example_ctx
      = Some p /\
    forall st at_ clear fields, ~ In (fx_finish st at_ clear fields) p.
Proof.
  eexists. split; [reflexivity|].
  apply (usage_limit_requeues (DP := iso_date_parse) example_running usage_report example_ctx);
    [reflexivity|constructor; reflexivity|reflexivity].
Defined.

Lemma planner_total_witness :
  exists p, planSessionTransition (DP := iso_date_parse) (Some example_running) (ev_disconnect true)
    example_ctx = Some p.
Proof.
  apply (planner_total (DP := iso_date_parse)). exists 1767225900000.
  split; [vm_compute; reflexivity|]. vm_compute. repeat split; discriminate.
Defined.
