(* ===== verification/ProviderCascade.v ===== *)
(** * Provider-account cascade

    modules/shared/src/provider-cascade.ts (what the scheduler resolves),
    provider-cascade-scope.ts (what the operator's table shows) and
    scope-provider-accounts.ts (the edits of an override). *)

From Stdlib Require Import ZArith.
From stdpp Require Import base strings list.
From S2P Require Import Prelude Types.

Local Open Scope string_scope.

(** ** Resolution *)
Module Catalog.
Record ProviderCatalog := mkCatalog {
  providers : JsMap.t Provider;
  providerAccounts : JsMap.t ProviderAccountRecord;
}.
End Catalog.
Notation ProviderCatalog := Catalog.ProviderCatalog.

(** [overrides?.[providerAccountId]]. *)
Definition override_at (overrides : option (JsMap.t ProviderAccountOverride)) (account : string)
    : option ProviderAccountOverride :=
  m ← overrides; JsMap.get account m.

Definition worktree_override (w : option HostWorktree) (account : string) : option ProviderAccountOverride :=
  wt ← w; override_at (HWorktree.providerAccountOverrides wt) account.

Definition repository_override (r : option HostRepository) (account : string)
    : option ProviderAccountOverride :=
  repo ← r; override_at (HRepository.providerAccountOverrides repo) account.

Definition resolveProviderAccountEnabled (account : string) (hostWorktree : option HostWorktree)
    (hostRepository : option HostRepository) (inventory : option HostInventory) : bool :=
  let attached := match inventory with
    | Some inv => existsb (fun a => str_eqb (HAccount.providerAccountId a) account)
                    (Inventory.providerAccounts inv)
    | None => false
    end in
  if negb attached then false
  else opt_or (opt_else (worktree_override hostWorktree account ≫= Override.enabled)
                        (repository_override hostRepository account ≫= Override.enabled)) true.

Definition providerDefault (catalog : ProviderCatalog) (account : string) : option string :=
  a ← JsMap.get account (Catalog.providerAccounts catalog);
  p ← JsMap.get (Account.providerId a) (Catalog.providers catalog);
  Prov.defaultCommandId p.

Definition resolveProviderAccountCommandId (account : string) (hostWorktree : option HostWorktree)
    (hostRepository : option HostRepository) (inventory : option HostInventory)
    (catalog : ProviderCatalog) : option string :=
  let hostAccount :=
    inv ← inventory;
    List.find (fun a => str_eqb (HAccount.providerAccountId a) account) (Inventory.providerAccounts inv) in
  opt_else (worktree_override hostWorktree account ≫= Override.commandId)
    (opt_else (repository_override hostRepository account ≫= Override.commandId)
       (opt_else (hostAccount ≫= HAccount.commandId) (providerDefault catalog account))).

(** ** The operator's table *)
Inductive ScopeSource := from_worktree | from_repository | from_host | from_provider_default | from_none.

Module Scope.
Record ProviderAccountScopeResolution := mkResolution {
  providerAccountId : string;
  enabled : bool;
  enabledSource : ScopeSource;
  commandId : option string;
  commandSource : ScopeSource;
}.
End Scope.
Notation ProviderAccountScopeResolution := Scope.ProviderAccountScopeResolution.

Definition resolve_scope_entry (hostWorktree : option HostWorktree) (hostRepository : option HostRepository)
    (catalog : ProviderCatalog) (entry : HostProviderAccount) : ProviderAccountScopeResolution :=
  let account := HAccount.providerAccountId entry in
  let wt := worktree_override hostWorktree account in
  let repo := repository_override hostRepository account in
  let enabled :=
    match wt ≫= Override.enabled, repo ≫= Override.enabled with
    | Some b, _ => (b, from_worktree)
    | None, Some b => (b, from_repository)
    | None, None => (true, from_host)
    end in
  let command :=
    match wt ≫= Override.commandId, repo ≫= Override.commandId, HAccount.commandId entry,
          truthy_opt (providerDefault catalog account) with
    | Some c, _, _, _ => (Some c, from_worktree)
    | None, Some c, _, _ => (Some c, from_repository)
    | None, None, Some c, _ => (Some c, from_host)
    | None, None, None, Some c => (Some c, from_provider_default)
    | None, None, None, None => (None, from_none)
    end in
  Scope.mkResolution account enabled.1 enabled.2 command.1 command.2.

Definition resolveProviderAccountsForScope (hostWorktree : option HostWorktree)
    (hostRepository : option HostRepository) (inventory : option HostInventory)
    (catalog : ProviderCatalog) : list ProviderAccountScopeResolution :=
  map (resolve_scope_entry hostWorktree hostRepository catalog)
    (match inventory with Some inv => Inventory.providerAccounts inv | None => [] end).

(** ** Edits of an override *)
Record ProviderAccountScope := mkScope { repositoryId : string; worktreeId : option string }.

(** The [providerAccountOverrides] of the edited target; an empty override and an
    empty table are dropped. *)
Definition withOverride (overrides : option (JsMap.t ProviderAccountOverride)) (account : string)
    (mutate : ProviderAccountOverride -> ProviderAccountOverride)
    : option (JsMap.t ProviderAccountOverride) :=
  let patched := mutate (opt_or (override_at overrides account) (Override.mkOverride None None)) in
  let table := opt_or overrides [] in
  let table' :=
    match Override.enabled patched, Override.commandId patched with
    | None, None => JsMap.delete account table
    | _, _ => JsMap.set account patched table
    end in
  match table' with [] => None | _ => Some table' end.

Definition edit_worktree (account : string) (mutate : ProviderAccountOverride -> ProviderAccountOverride)
    (w : HostWorktree) : HostWorktree :=
  w <| HWorktree.providerAccountOverrides :=
         withOverride (HWorktree.providerAccountOverrides w) account mutate |>.

Definition edit_repository (scope : ProviderAccountScope) (account : string)
    (mutate : ProviderAccountOverride -> ProviderAccountOverride) (r : HostRepository) : HostRepository :=
  if negb (str_eqb (HRepository.id r) (repositoryId scope)) then r
  else match worktreeId scope with
       | None => r <| HRepository.providerAccountOverrides :=
                        withOverride (HRepository.providerAccountOverrides r) account mutate |>
       | Some w =>
           r <| HRepository.worktrees :=
                  map (fun wt => if str_eqb (HWorktree.id wt) w then edit_worktree account mutate wt else wt)
                    (HRepository.worktrees r) |>
       end.

Definition withScope (inventory : HostInventory) (scope : ProviderAccountScope) (account : string)
    (mutate : ProviderAccountOverride -> ProviderAccountOverride) : HostInventory :=
  inventory <| Inventory.repositories :=
                 map (edit_repository scope account mutate) (Inventory.repositories inventory) |>.

Definition setScopeProviderEnabled (inventory : HostInventory) (scope : ProviderAccountScope)
    (account : string) (enabled : option bool) : HostInventory :=
  withScope inventory scope account (fun current => current <| Override.enabled := enabled |>).

Definition setScopeProviderCommand (inventory : HostInventory) (scope : ProviderAccountScope)
    (account : string) (commandId : option string) : HostInventory :=
  withScope inventory scope account (fun current => current <| Override.commandId := commandId |>).

(** ** The table agrees with the scheduler *)

Lemma find_first_unique (l : list HostProviderAccount) entry :
  NoDup (map HAccount.providerAccountId l) -> In entry l ->
  List.find (fun a => str_eqb (HAccount.providerAccountId a) (HAccount.providerAccountId entry)) l
  = Some entry.
Proof.
  induction l as [|a l IH]; intros Hnd Hin; simpl in *; [done|].
  apply NoDup_cons in Hnd as [Ha Hnd]. destruct Hin as [<-|Hin].
  - by rewrite str_eqb_refl.
  - destruct (str_eqb _ _) eqn:E; [|by apply IH]. apply str_eqb_true in E.
    destruct Ha. rewrite E. apply list_elem_of_In, in_map_iff. by exists entry.
Qed.

Lemma existsb_attached (l : list HostProviderAccount) entry :
  In entry l ->
  existsb (fun a => str_eqb (HAccount.providerAccountId a) (HAccount.providerAccountId entry)) l = true.
Proof. intros Hin. apply existsb_exists. exists entry. split; [done|apply str_eqb_refl]. Qed.

(** The operator's scope table shows what the scheduler does: for an
    inventory that lists each account once and providers whose default command
    id is not the empty string, every row carries exactly the enablement and the
    command that assignment resolves at that worktree and repository. *)
Theorem scope_table_agrees hostWorktree hostRepository inv catalog row :
  NoDup (map HAccount.providerAccountId (Inventory.providerAccounts inv)) ->
  (forall account, providerDefault catalog account <> Some "") ->
  In row (resolveProviderAccountsForScope hostWorktree hostRepository (Some inv) catalog) ->
  Scope.enabled row =
    resolveProviderAccountEnabled (Scope.providerAccountId row) hostWorktree hostRepository (Some inv) /\
  Scope.commandId row =
    resolveProviderAccountCommandId (Scope.providerAccountId row) hostWorktree hostRepository
      (Some inv) catalog.
Proof.
  intros Hnd Hdef Hrow. apply in_map_iff in Hrow as (entry & <- & Hin).
  unfold resolve_scope_entry, resolveProviderAccountEnabled, resolveProviderAccountCommandId.
  cbn [Scope.enabled Scope.commandId Scope.providerAccountId mbind option_bind].
  rewrite existsb_attached, find_first_unique by done. cbn [negb mbind option_bind].
  specialize (Hdef (HAccount.providerAccountId entry)). split.
  - by destruct (worktree_override _ _ ≫= _), (repository_override _ _ ≫= _).
  - destruct (worktree_override _ _ ≫= _); [done|]. destruct (repository_override _ _ ≫= _); [done|].
    destruct (HAccount.commandId entry); [done|].
    destruct (providerDefault catalog _) as [d|]; [|done]. simpl.
    unfold truthy. rewrite bool_decide_false by congruence. done.
Qed.

(** Host attachment is the base gate: an account the host does not list is
    disabled at every repository and worktree, whatever overrides they carry. *)
Theorem detached_account_disabled account hostWorktree hostRepository inv :
  ~ In account (map HAccount.providerAccountId (Inventory.providerAccounts inv)) ->
  resolveProviderAccountEnabled account hostWorktree hostRepository (Some inv) = false.
Proof.
  intros Hno. unfold resolveProviderAccountEnabled.
  destruct (existsb _ _) eqn:E; [|done]. apply existsb_exists in E as (a & Ha & Heq).
  apply str_eqb_true in Heq. subst account. destruct Hno. apply in_map_iff. by exists a.
Qed.

(** ** Edits *)

(** What a scope says about an account, an absent entry read as "inherit both". *)
Definition table_override (overrides : option (JsMap.t ProviderAccountOverride)) (account : string)
    : ProviderAccountOverride :=
  opt_or (override_at overrides account) (Override.mkOverride None None).

Definition find_repository (inv : HostInventory) (id : string) : option HostRepository :=
  List.find (fun r => str_eqb (HRepository.id r) id) (Inventory.repositories inv).

Definition find_worktree (r : HostRepository) (id : string) : option HostWorktree :=
  List.find (fun w => str_eqb (HWorktree.id w) id) (HRepository.worktrees r).

(** The override table of a scope that exists. *)
Definition scope_overrides (inv : HostInventory) (scope : ProviderAccountScope)
    : option (option (JsMap.t ProviderAccountOverride)) :=
  r ← find_repository inv (repositoryId scope);
  match worktreeId scope with
  | None => Some (HRepository.providerAccountOverrides r)
  | Some w => HWorktree.providerAccountOverrides <$> find_worktree r w
  end.

Definition scope_override (inv : HostInventory) (scope : ProviderAccountScope) (account : string)
    : option ProviderAccountOverride :=
  o ← scope_overrides inv scope; Some (table_override o account).

#[global] Instance scope_eq_dec : EqDecision ProviderAccountScope.
Proof. solve_decision. Defined.

Lemma table_override_get (t : JsMap.t ProviderAccountOverride) account :
  table_override (match t with [] => None | _ => Some t end) account =
  opt_or (JsMap.get account t) (Override.mkOverride None None).
Proof. by destruct t. Qed.

Lemma withOverride_table overrides account mutate account' :
  table_override (withOverride overrides account mutate) account' =
  if decide (account = account') then mutate (table_override overrides account)
  else table_override overrides account'.
Proof.
  unfold withOverride. cbv zeta. rewrite table_override_get.
  fold (table_override overrides account). set (patched := mutate _).
  assert (Hother : forall a, opt_or (JsMap.get a (opt_or overrides [])) (Override.mkOverride None None)
                             = table_override overrides a) by by destruct overrides.
  assert (Hset : forall a v, opt_or (JsMap.get a (JsMap.set account v (opt_or overrides [])))
                               (Override.mkOverride None None)
                             = if decide (account = a) then v else table_override overrides a).
  { intros a v. rewrite JsMap.get_set. case_decide; [done|apply Hother]. }
  destruct patched as [[e|] [c|]] eqn:Hp; simpl; rewrite ?Hset; try by case_decide.
  rewrite JsMap.get_delete. case_decide; [done|apply Hother].
Qed.

Lemma find_map_same {A} (f : A -> A) (q : A -> bool) (l : list A) :
  (forall a, q (f a) = q a) -> List.find q (map f l) = f <$> List.find q l.
Proof. intros Hq. induction l as [|a l IH]; simpl; [done|]. rewrite Hq. by destruct (q a). Qed.

Lemma edit_repository_id scope account mutate r :
  HRepository.id (edit_repository scope account mutate r) = HRepository.id r.
Proof. unfold edit_repository. by repeat case_match. Qed.

Lemma find_repository_edit inv scope account mutate id :
  find_repository (withScope inv scope account mutate) id =
  edit_repository scope account mutate <$> find_repository inv id.
Proof.
  unfold find_repository, withScope. simpl. apply find_map_same.
  intros r. by rewrite edit_repository_id.
Qed.

Lemma find_worktree_edit w account mutate r id :
  find_worktree (r <| HRepository.worktrees :=
      map (fun wt => if str_eqb (HWorktree.id wt) w then edit_worktree account mutate wt else wt)
        (HRepository.worktrees r) |>) id =
  (fun wt => if str_eqb (HWorktree.id wt) w then edit_worktree account mutate wt else wt)
    <$> find_worktree r id.
Proof. unfold find_worktree. simpl. apply find_map_same. intros wt. by case_match. Qed.

Lemma find_some_id {A} (f : A -> string) (id : string) (l : list A) a :
  List.find (fun x => str_eqb (f x) id) l = Some a -> f a = id.
Proof. intros H. apply find_some in H as [_ H]. by apply str_eqb_true. Qed.

(** The edited scope's table is rewritten, every other scope's is untouched. *)
Lemma scope_overrides_edit inv scope account mutate scope' :
  scope_overrides (withScope inv scope account mutate) scope' =
  if decide (scope = scope')
  then (fun o => withOverride o account mutate) <$> scope_overrides inv scope
  else scope_overrides inv scope'.
Proof.
  unfold scope_overrides. rewrite find_repository_edit. destruct (decide (scope = scope')) as [<-|Hne].
  - destruct (find_repository inv (repositoryId scope)) as [r|] eqn:Hr; [|done].
    apply find_some_id in Hr as Hid. cbn. unfold edit_repository. rewrite Hid, str_eqb_refl. cbn [negb].
    destruct (worktreeId scope) as [w|]; [|done]. rewrite find_worktree_edit.
    destruct (find_worktree r w) as [wt|] eqn:Hw; [|done].
    apply find_some_id in Hw as Hwid. cbn. by rewrite Hwid, str_eqb_refl.
  - destruct (find_repository inv (repositoryId scope')) as [r|] eqn:Hr; [|done].
    apply find_some_id in Hr as Hid. cbn. unfold edit_repository.
    destruct (str_eqb (HRepository.id r) (repositoryId scope)) eqn:E; [|done].
    apply str_eqb_true in E. cbn [negb]. destruct scope as [rid w], scope' as [rid' w'].
    cbn [repositoryId worktreeId] in *. subst rid rid'.
    destruct w as [w|], w' as [w'|]; [|done|done|done].
    rewrite find_worktree_edit. destruct (find_worktree r w') as [wt|] eqn:Hw; [|done].
    apply find_some_id in Hw as Hwid. cbn. rewrite Hwid.
    destruct (str_eqb w' w) eqn:Ew; [|done]. apply str_eqb_true in Ew. congruence.
Qed.

(** The law of an override edit, for either setter. *)
Lemma scope_edit_law inv scope account mutate scope' account' :
  is_Some (scope_overrides inv scope) ->
  scope_override (withScope inv scope account mutate) scope' account' =
  if decide (scope = scope' /\ account = account') then mutate <$> scope_override inv scope account
  else scope_override inv scope' account'.
Proof.
  intros [o Ho]. unfold scope_override. rewrite scope_overrides_edit.
  destruct (decide (scope = scope')) as [<-|Hne].
  - rewrite Ho. cbn [fmap option_fmap option_map mbind option_bind]. rewrite withOverride_table.
    destruct (decide (account = account')) as [<-|];
      [rewrite decide_True by done|rewrite decide_False by naive_solver]; done.
  - rewrite decide_False by naive_solver. done.
Qed.

(** Setting (or clearing, with [None]) a scope's enablement changes exactly
    that account's enablement at exactly that scope: its command override, every
    other account and every other repository or worktree keep what they had. *)
Theorem set_scope_enabled_law inv scope account enabled scope' account' :
  is_Some (scope_overrides inv scope) ->
  scope_override (setScopeProviderEnabled inv scope account enabled) scope' account' =
  if decide (scope = scope' /\ account = account')
  then (fun o => Override.mkOverride enabled (Override.commandId o)) <$> scope_override inv scope account
  else scope_override inv scope' account'.
Proof. intros H. unfold setScopeProviderEnabled. by rewrite scope_edit_law. Qed.

(** The same law for the command override, which keeps the enablement. *)
Theorem set_scope_command_law inv scope account commandId scope' account' :
  is_Some (scope_overrides inv scope) ->
  scope_override (setScopeProviderCommand inv scope account commandId) scope' account' =
  if decide (scope = scope' /\ account = account')
  then (fun o => Override.mkOverride (Override.enabled o) commandId) <$> scope_override inv scope account
  else scope_override inv scope' account'.
Proof. intros H. unfold setScopeProviderCommand. by rewrite scope_edit_law. Qed.

(** ** Witnesses *)
Definition example_host_worktree : HostWorktree :=
  HWorktree.mkHostWorktree "w1" "one" "/repo/.worktrees/one" [] None None None
    (Some [("acct", Override.mkOverride None (Some "cmd-wt"))]).

Definition example_host_repository : HostRepository :=
  HRepository.mkHostRepository "repo" "/repo" "main" [example_host_worktree] None None None None
    (Some [("acct", Override.mkOverride (Some false) None)]).

Definition example_inventory : HostInventory :=
  Inventory.mkHostInventory "h1" None None None None None None None None None None None
    [example_host_repository] None [HAccount.mkHostProviderAccount "acct" None] None
    "2026-01-01T00:00:00.000Z" None.

Definition example_account : ProviderAccountRecord :=
  Account.mkProviderAccount "acct" "claude" "me" 18000 (Some 2%Z) None None None
    "2026-01-01T00:00:00.000Z" "2026-01-01T00:00:00.000Z" None.

Definition example_catalog : ProviderCatalog :=
  Catalog.mkCatalog
    [("claude", Prov.mkProvider "claude" "claude" (Some "cmd") "2026-01-01T00:00:00.000Z"
                  "2026-01-01T00:00:00.000Z" None)]
    [("acct", example_account)].

Example scope_table_example :
  resolveProviderAccountsForScope (Some example_host_worktree) (Some example_host_repository)
    (Some example_inventory) example_catalog =
  [Scope.mkResolution "acct" false from_repository (Some "cmd-wt") from_worktree].
Proof. vm_compute. reflexivity. Qed.

Lemma scope_table_agrees_witness :
  false = resolveProviderAccountEnabled "acct" (Some example_host_worktree)
            (Some example_host_repository) (Some example_inventory) /\
  Some "cmd-wt" = resolveProviderAccountCommandId "acct" (Some example_host_worktree)
            (Some example_host_repository) (Some example_inventory) example_catalog.
Proof.
  apply (scope_table_agrees (Some example_host_worktree) (Some example_host_repository)
    example_inventory example_catalog
    (Scope.mkResolution "acct" false from_repository (Some "cmd-wt") from_worktree)).
  - apply NoDup_singleton.
  - intros account. unfold providerDefault, example_catalog, example_account. simpl.
    destruct (str_eqb account "acct"); discriminate.
  - left. vm_compute. reflexivity.
Defined.

Lemma detached_account_disabled_witness :
  resolveProviderAccountEnabled "other"
    (Some (example_host_worktree <| HWorktree.providerAccountOverrides :=
             Some [("other", Override.mkOverride (Some true) None)] |>)) None
    (Some example_inventory) = false.
Proof. apply detached_account_disabled. simpl. intuition discriminate. Defined.

Lemma set_scope_enabled_law_witness :
  scope_override (setScopeProviderEnabled example_inventory (mkScope "repo" (Some "w1")) "acct" (Some true))
    (mkScope "repo" (Some "w1")) "acct" = Some (Override.mkOverride (Some true) (Some "cmd-wt")).
Proof.
  rewrite set_scope_enabled_law; [vm_compute; reflexivity|].
  exists (HWorktree.providerAccountOverrides example_host_worktree). reflexivity.
Defined.

Lemma set_scope_command_law_witness :
  scope_override (setScopeProviderCommand example_inventory (mkScope "repo" None) "acct" (Some "c2"))
    (mkScope "repo" (Some "w1")) "acct" = Some (Override.mkOverride None (Some "cmd-wt")).
Proof.
  rewrite set_scope_command_law; [vm_compute; reflexivity|].
  exists (HRepository.providerAccountOverrides example_host_repository). reflexivity.
Defined.
