(* ===== verification/CommandResume.v ===== *)
(** * Command argv and native resume templates

    modules/shared/src/command-resume.ts: lexical validation of a command's argv
    and of its resume template, and the expansion of a template.  An [unknown]
    input is a [json] value ([None] for [undefined]). *)

From Stdlib Require Import ZArith Lia Ascii String.
From stdpp Require Import base strings list.
From S2P Require Import Prelude Types Ordering.

Local Open Scope string_scope.
Local Open Scope Z_scope.

(** ** Strings *)
Definition slen (s : string) : Z := Z.of_nat (String.length s).

Fixpoint string_exists (p : ascii -> bool) (s : string) : bool :=
  match s with "" => false | String c s' => p c || string_exists p s' end.

(** Code units below 256, as UTF-8: one byte below 128, two above. *)
Fixpoint utf8_length (s : string) : Z :=
  match s with
  | "" => 0
  | String c s' => (if (N_of_ascii c <? 128)%N then 1 else 2) + utf8_length s'
  end.

Definition code (c : ascii) : Z := Z.of_N (N_of_ascii c).
Definition in_range (lo hi : Z) (c : ascii) : bool := (lo <=? code c) && (code c <=? hi).
Definition is_letter (c : ascii) : bool := in_range 65 90 c || in_range 97 122 c.
(** [[A-Za-z0-9_]]. *)
Definition is_word (c : ascii) : bool := is_letter c || in_range 48 57 c || (code c =? 95).
(** [[\\/]]. *)
Definition is_separator (c : ascii) : bool := (code c =? 47) || (code c =? 92).

(** White space of [trim] among the code units below 256. *)
Definition is_space (c : ascii) : bool :=
  in_range 9 13 c || (code c =? 32) || (code c =? 160).

Fixpoint trim_start (s : string) : string :=
  match s with String c s' => if is_space c then trim_start s' else s | "" => "" end.

Fixpoint string_rev (s acc : string) : string :=
  match s with String c s' => string_rev s' (String c acc) | "" => acc end.

Definition trim (s : string) : string := string_rev (trim_start (string_rev (trim_start s) "")) "".

(** [s.slice(n)]. *)
Fixpoint drop_chars (n : nat) (s : string) : string :=
  match n, s with Datatypes.S n', String _ s' => drop_chars n' s' | _, _ => s end.

(** [value.split(/[\\/]/)]. *)
Fixpoint path_segments (s : string) : list string :=
  match s with
  | "" => [""]
  | String c s' =>
      let rest := path_segments s' in
      if is_separator c then "" :: rest
      else match rest with seg :: rest' => String c seg :: rest' | [] => [String c ""] end
  end.

(** ** Argv *)
Definition MAX_COMMAND_ARGV_ITEMS : Z := 64.
Definition MAX_COMMAND_ARG_LENGTH : Z := 4096.
Definition MAX_RESUME_REF_CAPTURE_LENGTH : Z := 128.
Definition MAX_CLI_RESUME_REF_BYTES : Z := 512.

Definition hasControlChars (value : string) : bool :=
  string_exists (fun c => (code c <=? 31) || (code c =? 127)) value.

(** The error of an argv entry, [None] when it is fine. *)
Definition safeArg (value : json) (label : string) : option string :=
  match value with
  | JString text =>
      if slen text =? 0 then Some (label ++ " must contain non-empty strings")
      else if MAX_COMMAND_ARG_LENGTH <? slen text then
        Some (label ++ " entries must be at most " ++ number_string MAX_COMMAND_ARG_LENGTH ++ " characters")
      else if hasControlChars text then Some (label ++ " entries must not contain control characters")
      else None
  | _ => Some (label ++ " must contain non-empty strings")
  end.

Inductive CommandExecutableKind := bare | relative.

(** [/^[\\/]/]. *)
Definition starts_with_separator (s : string) : bool :=
  match s with String c _ => is_separator c | "" => false end.

(** [/^[A-Za-z]:/]. *)
Definition drive_qualified (s : string) : bool :=
  match s with String c (String d _) => is_letter c && (code d =? 58) | _ => false end.

(** [/(^|[\\/])\.\.(?:[\\/]|$)/]: some path segment is "..". *)
Definition has_parent_segment (s : string) : bool := existsb (str_eqb "..") (path_segments s).

Definition validateCommandExecutable (value : json) (label : string)
    : CommandExecutableKind + string :=
  match safeArg value label, value with
  | Some e, _ => inr e
  | None, JString executable =>
      if starts_with_separator executable || drive_qualified executable then
        inr (label ++ " must not be an absolute or drive-qualified path")
      else if has_parent_segment executable then
        inr (label ++ " must not contain '..' path segments")
      else inl (if string_exists is_separator executable then relative else bare)
  | None, _ => inr label
  end.

Definition isValidCliResumeRef (value : json) : bool :=
  match value with
  | JString text =>
      (0 <? slen text) && (utf8_length text <=? MAX_CLI_RESUME_REF_BYTES) && negb (hasControlChars text)
  | _ => false
  end.

(** [argv as string[]], once every entry is known to be a string. *)
Definition json_string (v : json) : string := match v with JString s => s | _ => "" end.

Fixpoint first_unsafe (label : string) (items : list json) : option string :=
  match items with
  | [] => None
  | v :: rest => match safeArg v label with Some e => Some e | None => first_unsafe label rest end
  end.

Definition argv_count_ok (items : list json) : bool :=
  let n := Z.of_nat (length items) in negb ((n =? 0) || (MAX_COMMAND_ARGV_ITEMS <? n)).

Definition validateCommandArgv (argv : json) : list string + string :=
  match argv with
  | JArray ((first :: _) as items) =>
      if negb (argv_count_ok items) then
        inr ("argv must contain 1-" ++ number_string MAX_COMMAND_ARGV_ITEMS ++ " entries")
      else match first_unsafe "argv" items with
           | Some e => inr e
           | None => match validateCommandExecutable first "argv[0]" with
                     | inr e => inr e
                     | inl _ => inl (map json_string items)
                     end
           end
  | _ => inr ("argv must contain 1-" ++ number_string MAX_COMMAND_ARGV_ITEMS ++ " entries")
  end.

(** ** Placeholders *)
Inductive segment := lit (c : ascii) | placeholder (name : string).

(** [[A-Za-z0-9_]*\}] after the characters of [name] read so far. *)
Fixpoint placeholder_tail (name : string) (s : string) : option (string * string) :=
  match s with
  | "" => None
  | String c s' =>
      if code c =? 125 then Some (name, s')
      else if is_word c then placeholder_tail (name ++ String c "") s' else None
  end.

(** [[A-Za-z][A-Za-z0-9_]*\}]: the name and what follows the closing brace. *)
Definition placeholder_name (s : string) : option (string * string) :=
  match s with
  | String c s' => if is_letter c then placeholder_tail (String c "") s' else None
  | "" => None
  end.

(** The matches of a global expression [\{name\}] whose names satisfy [ok], and
    the characters between them, left to right. *)
Fixpoint segments (fuel : nat) (ok : string -> bool) (s : string) : list segment :=
  match fuel, s with
  | O, _ | _, "" => []
  | S fuel', String c s' =>
      match (if code c =? 123 then placeholder_name s' else None) with
      | Some (name, rest) =>
          if ok name then placeholder name :: segments fuel' ok rest
          else lit c :: segments fuel' ok s'
      | None => lit c :: segments fuel' ok s'
      end
  end.

Definition segments_of (ok : string -> bool) (s : string) : list segment :=
  segments (String.length s) ok s.

(** The [PLACEHOLDER] expression accepts every name. *)
Definition any_name (name : string) : bool := true.
Definition allowed_name (name : string) : bool := str_eqb name "prompt" || str_eqb name "cliResumeRef".

Definition placeholder_names (segs : list segment) : list string :=
  flat_map (fun g => match g with placeholder n => [n] | lit _ => [] end) segs.

(** [text.replace(re, subst)]. *)
Fixpoint render (subst : string -> string) (segs : list segment) : string :=
  match segs with
  | [] => ""
  | lit c :: rest => String c (render subst rest)
  | placeholder n :: rest => subst n ++ render subst rest
  end.

Definition is_brace (c : ascii) : bool := (code c =? 123) || (code c =? 125).

(** The error of one template entry. *)
Definition template_arg_error (v : json) : option string :=
  match safeArg v "resumeArgvTemplate" with
  | Some e => Some e
  | None =>
      let segs := segments_of any_name (json_string v) in
      match List.find (fun n => negb (allowed_name n)) (placeholder_names segs) with
      | Some n => Some ("unsupported resume placeholder: " ++ n)
      | None =>
          if string_exists is_brace (render (fun _ => "") segs)
          then Some "resumeArgvTemplate contains malformed placeholders" else None
      end
  end.

Fixpoint first_template_error (items : list json) : option string :=
  match items with
  | [] => None
  | v :: rest => match template_arg_error v with Some e => Some e | None => first_template_error rest end
  end.

(** [arg.match(/\{cliResumeRef\}/g)?.length ?? 0]. *)
Definition cli_ref_count (arg : string) : Z :=
  Z.of_nat (length (placeholder_names (segments_of (str_eqb "cliResumeRef") arg))).

Definition template_ref_count (argv : list string) : Z :=
  fold_left (fun count arg => count + cli_ref_count arg) argv 0.

Definition validate_template (items : list json) : list string + string :=
  match items with
  | [] => inr ("resumeArgvTemplate must contain 1-" ++ number_string MAX_COMMAND_ARGV_ITEMS ++ " argv entries")
  | first :: _ =>
      if negb (argv_count_ok items) then
        inr ("resumeArgvTemplate must contain 1-" ++ number_string MAX_COMMAND_ARGV_ITEMS ++ " argv entries")
      else match first_template_error items with
           | Some e => inr e
           | None =>
               if negb (bool_decide (placeholder_names (segments_of any_name (json_string first)) = []))
               then inr "resumeArgvTemplate[0] must be a fixed executable without placeholders"
               else match validateCommandExecutable first "resumeArgvTemplate[0]" with
                    | inr e => inr e
                    | inl _ =>
                        let argv := map json_string items in
                        if negb (template_ref_count argv =? 1)
                        then inr "resumeArgvTemplate must contain exactly one {cliResumeRef} placeholder"
                        else inl argv
                    end
           end
  end.

Definition stream_of (s : string) : option ResumeStream :=
  if str_eqb s "stdout" then Some stream_stdout
  else if str_eqb s "stderr" then Some stream_stderr
  else if str_eqb s "either" then Some stream_either else None.

Definition validate_capture (entries : list (string * json)) : ResumeRefCapture + string :=
  match (v ← JsMap.get "stream" entries; match v with JString s => stream_of s | _ => None end) with
  | None => inr "resumeRefCapture.stream must be stdout, stderr, or either"
  | Some st =>
      match JsMap.get "linePrefix" entries with
      | Some (JString prefix) =>
          if slen prefix =? 0 then inr "resumeRefCapture.linePrefix must be a non-empty string"
          else if MAX_RESUME_REF_CAPTURE_LENGTH <? slen prefix then
            inr ("resumeRefCapture.linePrefix must be at most " ++
                 number_string MAX_RESUME_REF_CAPTURE_LENGTH ++ " characters")
          else if hasControlChars prefix then
            inr "resumeRefCapture.linePrefix must not contain control characters"
          else inl (mkResumeRefCapture st prefix)
      | _ => inr "resumeRefCapture.linePrefix must be a non-empty string"
      end
  end.

Definition CommandResumeSpec : Type := option (list string) * option ResumeRefCapture.

Definition validateCommandResumeSpec (resumeArgvTemplate resumeRefCapture : option json)
    : CommandResumeSpec + string :=
  let template :=
    match resumeArgvTemplate with
    | None | Some JNull => inl None
    | Some (JArray items) =>
        match validate_template items with inl t => inl (Some t) | inr e => inr e end
    | Some _ => inr ("resumeArgvTemplate must contain 1-" ++ number_string MAX_COMMAND_ARGV_ITEMS ++
                     " argv entries")
    end in
  match template with
  | inr e => inr e
  | inl t =>
      match resumeRefCapture with
      | None | Some JNull => inl (t, None)
      | Some (JObject entries) =>
          match validate_capture entries with inl c => inl (t, Some c) | inr e => inr e end
      | Some _ => inr "resumeRefCapture must be an object"
      end
  end.

(** ** Expansion *)
Definition expand_arg (resumeRef prompt arg : string) : string :=
  render (fun name => if str_eqb name "cliResumeRef" then resumeRef else prompt)
    (segments_of allowed_name arg).

Fixpoint materializeResumeArgv (template : list string) (resumeRef prompt : string)
    (appendPromptSeparator : bool) : list string :=
  match template with
  | [] => []
  | arg :: rest =>
      ((if appendPromptSeparator && str_eqb arg "{prompt}" then ["--"; prompt]
        else [expand_arg resumeRef prompt arg])
       ++ materializeResumeArgv rest resumeRef prompt appendPromptSeparator)%list
  end.

Example materialize_example :
  materializeResumeArgv ["claude"; "--resume={cliResumeRef}"; "{prompt}"] "abc" "do {cliResumeRef}" true
  = ["claude"; "--resume=abc"; "--"; "do {cliResumeRef}"].
Proof. vm_compute. reflexivity. Qed.

Example validate_template_example :
  validateCommandResumeSpec
    (Some (JArray [JString "claude"; JString "--resume={cliResumeRef}"; JString "{prompt}"])) None
  = inl (Some ["claude"; "--resume={cliResumeRef}"; "{prompt}"], None).
Proof. vm_compute. reflexivity. Qed.

(** ** Segmentation *)

Fixpoint string_forall (p : ascii -> bool) (s : string) : bool :=
  match s with "" => true | String c s' => p c && string_forall p s' end.

Lemma string_app_nil_r (s : string) : s ++ "" = s.
Proof. induction s as [|c s IH]; [done|]. by rewrite string_app_cons, IH. Qed.

Lemma placeholder_tail_split s : forall name full rest,
  placeholder_tail name s = Some (full, rest) ->
  exists mid, s = mid ++ String "}" rest /\ full = name ++ mid /\ string_forall is_word mid = true.
Proof.
  induction s as [|c s IH]; intros name full rest; cbn [placeholder_tail]; [done|].
  destruct (Z.eqb_spec (code c) 125) as [Hc|Hc].
  - intros [= <- <-]. exists "". rewrite string_app_nil_r. split; [|done].
    f_equal. rewrite <- (ascii_N_embedding c). unfold code in Hc.
    replace (N_of_ascii c) with 125%N by lia. done.
  - destruct (is_word c) eqn:Hw; [|done]. intros H.
    apply IH in H as (mid & -> & -> & Hmid). exists (String c mid).
    split; [done|]. split; [by rewrite string_app_assoc|]. cbn [string_forall]. by rewrite Hw, Hmid.
Qed.

Lemma placeholder_name_split s name rest :
  placeholder_name s = Some (name, rest) ->
  s = name ++ String "}" rest /\ string_forall is_word name = true.
Proof.
  destruct s as [|c s]; cbn [placeholder_name]; [done|]. destruct (is_letter c) eqn:Hl; [|done].
  intros H. apply placeholder_tail_split in H as (mid & -> & -> & Hmid). split; [done|].
  change (String c "" ++ mid) with (String c mid). cbn [string_forall]. rewrite Hmid.
  unfold is_word. by rewrite Hl.
Qed.

Lemma placeholder_rest_shorter s name rest :
  placeholder_name s = Some (name, rest) -> (String.length rest < String.length s)%nat.
Proof.
  intros H. apply placeholder_name_split in H as [-> _]. rewrite string_length_app. simpl. lia.
Qed.

(** Enough fuel is enough. *)
Lemma segments_fuel ok : forall n f s,
  (String.length s <= n)%nat -> (n <= f)%nat -> segments f ok s = segments n ok s.
Proof.
  induction n as [|n IH]; intros f s Hs Hf.
  - destruct s; [by destruct f|simpl in Hs; lia].
  - destruct f as [|f]; [lia|]. destruct s as [|c s]; [done|]. simpl in Hs. cbn [segments].
    destruct (code c =? 123); [|f_equal; apply IH; lia].
    destruct (placeholder_name s) as [[name rest]|] eqn:Hp; [|f_equal; apply IH; lia].
    apply placeholder_rest_shorter in Hp.
    destruct (ok name); f_equal; apply IH; lia.
Qed.

Lemma segments_of_cons ok c s :
  segments_of ok (String c s) =
  match (if code c =? 123 then placeholder_name s else None) with
  | Some (name, rest) =>
      if ok name then placeholder name :: segments_of ok rest else lit c :: segments_of ok s
  | None => lit c :: segments_of ok s
  end.
Proof.
  unfold segments_of. cbn [String.length segments]. destruct (code c =? 123); [|done].
  destruct (placeholder_name s) as [[name rest]|] eqn:Hp; [|done].
  apply placeholder_rest_shorter in Hp. destruct (ok name); [|done].
  f_equal. apply segments_fuel; lia.
Qed.

(** Characters that open no placeholder are literals. *)
Lemma segments_of_plain ok p s :
  string_forall (fun c => negb (code c =? 123)) p = true ->
  placeholder_names (segments_of ok (p ++ s)) = placeholder_names (segments_of ok s).
Proof.
  induction p as [|c p IH]; [done|]. cbn [string_forall]. intros H.
  apply andb_true_iff in H as [Hc Hp]. apply negb_true_iff in Hc.
  rewrite string_app_cons, segments_of_cons, Hc. by apply IH.
Qed.

Lemma word_not_brace s :
  string_forall is_word s = true ->
  string_forall (fun c => negb (code c =? 123)) (s ++ "}") = true.
Proof.
  induction s as [|c s IH]; [done|]. rewrite string_app_cons. cbn [string_forall]. intros H.
  apply andb_true_iff in H as [Hc Hs]. rewrite IH by done. rewrite andb_true_r.
  destruct (Z.eqb_spec (code c) 123) as [E|]; [|done]. exfalso.
  unfold is_word, is_letter, in_range in Hc. rewrite E in Hc. done.
Qed.

(** A narrower expression finds exactly the accepted ones among the names of a wider one. *)
Lemma segments_narrow (ok1 ok2 : string -> bool) :
  (forall n, ok1 n = true -> ok2 n = true) -> forall k s, (String.length s <= k)%nat ->
  placeholder_names (segments_of ok1 s) = List.filter ok1 (placeholder_names (segments_of ok2 s)).
Proof.
  intros Hsub. induction k as [|k IH]; intros s Hs.
  - destruct s; [done|simpl in Hs; lia].
  - destruct s as [|c s]; [done|]. simpl in Hs. rewrite !segments_of_cons.
    destruct (if code c =? 123 then placeholder_name s else None) as [[name rest]|] eqn:Hp;
      [|apply IH; lia].
    destruct (code c =? 123); [|done]. apply placeholder_rest_shorter in Hp as Hlen.
    destruct (ok1 name) eqn:H1.
    + rewrite (Hsub name H1). cbn. rewrite H1. f_equal. apply IH. lia.
    + destruct (ok2 name) eqn:H2; [|apply IH; lia]. cbn. rewrite H1.
      apply placeholder_name_split in Hp as [-> Hw].
      change (String "}" rest) with ("}" ++ rest). rewrite <- string_app_assoc.
      rewrite segments_of_plain by by apply word_not_brace. apply IH. lia.
Qed.

(** A text in which the wider expression finds nothing is rendered unchanged. *)
Lemma render_no_placeholder ok subst s :
  placeholder_names (segments_of ok s) = [] -> render subst (segments_of ok s) = s.
Proof.
  induction s as [|c s IH]; [done|]. rewrite segments_of_cons.
  destruct (if code c =? 123 then _ else None) as [[name rest]|]; [destruct (ok name); [done|]|];
    cbn; intros H; by rewrite IH.
Qed.

(** ** Properties of the expansion *)

Lemma expand_fixed ref prompt s :
  placeholder_names (segments_of any_name s) = [] -> expand_arg ref prompt s = s.
Proof.
  intros H. unfold expand_arg. apply render_no_placeholder.
  rewrite (segments_narrow allowed_name any_name) with (k := String.length s) by done. by rewrite H.
Qed.

(** The number of holes of a segmentation for the resume reference. *)
Definition ref_holes (segs : list segment) : nat :=
  length (List.filter (str_eqb "cliResumeRef") (placeholder_names segs)).

Lemma cli_ref_count_holes arg :
  cli_ref_count arg = Z.of_nat (ref_holes (segments_of allowed_name arg)).
Proof.
  unfold cli_ref_count, ref_holes. do 2 f_equal. apply (segments_narrow _ _) with (k := String.length arg);
    [|done]. intros n Hn. apply str_eqb_true in Hn as <-. reflexivity.
Qed.

Lemma render_no_hole prompt segs :
  ref_holes segs = O ->
  exists text, forall ref, render (fun n => if str_eqb n "cliResumeRef" then ref else prompt) segs = text.
Proof.
  unfold ref_holes. induction segs as [|[c|n] segs IH]; cbn; intros H; [by eexists| |].
  - destruct IH as [text Ht]; [done|]. eexists. intros ref. by rewrite Ht.
  - destruct (str_eqb "cliResumeRef" n) eqn:E; [done|]. destruct IH as [text Ht]; [done|].
    exists (prompt ++ text). intros ref. rewrite Ht.
    destruct (str_eqb n "cliResumeRef") eqn:E'; [|done].
    apply str_eqb_true in E'. subst n. by rewrite str_eqb_refl in E.
Qed.

Lemma render_one_hole prompt segs :
  ref_holes segs = 1%nat ->
  exists l r, forall ref,
    render (fun n => if str_eqb n "cliResumeRef" then ref else prompt) segs = l ++ ref ++ r.
Proof.
  unfold ref_holes. induction segs as [|[c|n] segs IH]; cbn; intros H; [done| |].
  - destruct IH as (l & r & Ht); [done|]. exists (String c l), r. intros ref. by rewrite Ht.
  - destruct (str_eqb "cliResumeRef" n) eqn:E.
    + apply str_eqb_true in E as <-. injection H as H.
      destruct (render_no_hole prompt segs H) as [text Ht]. exists "", text. intros ref. by rewrite Ht.
    + destruct IH as (l & r & Ht); [done|]. exists (prompt ++ l), r. intros ref. rewrite Ht.
      destruct (str_eqb n "cliResumeRef") eqn:E'; [|by rewrite string_app_assoc].
      apply str_eqb_true in E'. subst n. by rewrite str_eqb_refl in E.
Qed.

Lemma template_ref_count_cons arg rest :
  template_ref_count (arg :: rest) = cli_ref_count arg + template_ref_count rest.
Proof.
  unfold template_ref_count. cbn [fold_left]. generalize 0 as z, (cli_ref_count arg) as k.
  induction rest as [|a rest IH]; intros z k; cbn [fold_left]; [lia|].
  rewrite <- IH. f_equal. lia.
Qed.

Lemma cli_ref_count_nonneg arg : 0 <= cli_ref_count arg.
Proof. unfold cli_ref_count. lia. Qed.

Lemma template_ref_count_nonneg ts : 0 <= template_ref_count ts.
Proof.
  induction ts as [|a ts IH]; [done|]. rewrite template_ref_count_cons.
  pose proof (cli_ref_count_nonneg a). lia.
Qed.

Lemma materialize_no_hole prompt sep ts :
  template_ref_count ts = 0 ->
  exists out, forall ref, materializeResumeArgv ts ref prompt sep = out.
Proof.
  induction ts as [|a ts IH]; [intros _; by exists []|]. rewrite template_ref_count_cons. intros H.
  pose proof (cli_ref_count_nonneg a). pose proof (template_ref_count_nonneg ts).
  destruct IH as [out Hout]; [lia|]. cbn [materializeResumeArgv].
  destruct (sep && str_eqb a "{prompt}"); [eexists; intros ref; by rewrite Hout|].
  destruct (render_no_hole prompt (segments_of allowed_name a)) as [text Ht];
    [rewrite cli_ref_count_holes in *; lia|].
  eexists. intros ref. unfold expand_arg. by rewrite Ht, Hout.
Qed.

Lemma materialize_one_hole prompt sep ts :
  template_ref_count ts = 1 ->
  exists pre l r post, forall ref,
    materializeResumeArgv ts ref prompt sep = (pre ++ [l ++ ref ++ r]%string ++ post)%list.
Proof.
  induction ts as [|a ts IH]; [done|]. rewrite template_ref_count_cons. intros H.
  pose proof (cli_ref_count_nonneg a). pose proof (template_ref_count_nonneg ts).
  cbn [materializeResumeArgv]. destruct (Z.eq_dec (cli_ref_count a) 0) as [Ha|Ha].
  - destruct IH as (pre & l & r & post & Hts); [lia|].
    destruct (render_no_hole prompt (segments_of allowed_name a)) as [text Ht];
      [rewrite cli_ref_count_holes in *; lia|].
    exists ((if sep && str_eqb a "{prompt}" then ["--"; prompt] else [text]) ++ pre)%list, l, r, post.
    intros ref. unfold expand_arg. rewrite Ht, Hts. by destruct (sep && _).
  - destruct (materialize_no_hole prompt sep ts) as [post Hpost]; [lia|].
    destruct (render_one_hole prompt (segments_of allowed_name a)) as (l & r & Ht);
      [rewrite cli_ref_count_holes in *; lia|].
    exists [], l, r, post. intros ref. unfold expand_arg. rewrite Ht, Hpost.
    destruct (str_eqb a "{prompt}") eqn:E; [|by rewrite andb_false_r].
    apply str_eqb_true in E. subst a. by destruct Ha.
Qed.

Lemma validate_template_inv items template :
  validate_template items = inl template ->
  exists exe rest kind, template = exe :: rest /\
    placeholder_names (segments_of any_name exe) = [] /\
    validateCommandExecutable (JString exe) "resumeArgvTemplate[0]" = inl kind /\
    template_ref_count template = 1.
Proof.
  unfold validate_template. destruct items as [|first items]; [done|].
  destruct (argv_count_ok _); [|done]. cbn [negb].
  destruct (first_template_error _); [done|].
  destruct (bool_decide (_ = [])) eqn:Hph; [|done]. cbn [negb]. apply bool_decide_eq_true in Hph.
  destruct (validateCommandExecutable first _) as [kind|] eqn:Hexe; [|done]. cbv zeta.
  destruct (Z.eqb_spec (template_ref_count (map json_string (first :: items))) 1); [|done].
  intros [= <-]. exists (json_string first), (map json_string items), kind.
  repeat split; [done| |done]. destruct first; try done.
Qed.

Lemma validate_resume_template items capture template cap :
  validateCommandResumeSpec (Some (JArray items)) capture = inl (Some template, cap) ->
  validate_template items = inl template.
Proof.
  unfold validateCommandResumeSpec. destruct (validate_template items) as [t|]; [|done].
  destruct capture as [[]|]; try done; try (intros [= <- _]; done).
  destruct (validate_capture _); [|done]. by intros [= <- _].
Qed.

Lemma materialize_executable items capture template cap ref prompt sep :
  validateCommandResumeSpec (Some (JArray items)) capture = inl (Some template, cap) ->
  exists exe kind rest,
    head template = Some exe /\
    validateCommandExecutable (JString exe) "resumeArgvTemplate[0]" = inl kind /\
    materializeResumeArgv template ref prompt sep = exe :: rest.
Proof.
  intros H. apply validate_resume_template, validate_template_inv in H
    as (exe & rest & kind & -> & Hph & Hexe & _).
  exists exe, kind, (materializeResumeArgv rest ref prompt sep). split; [done|]. split; [done|].
  cbn [materializeResumeArgv]. rewrite expand_fixed by done.
  destruct (str_eqb exe "{prompt}") eqn:E; [|by rewrite andb_false_r].
  apply str_eqb_true in E. subst exe. done.
Qed.

(** A validated resume template fixes its executable: whatever resume
    reference and prompt are expanded into it, the first argument is the
    template's own, and that argument passes the executable check (no absolute
    or drive-qualified path, no ".." segment). *)
Theorem resume_executable_fixed items capture template cap ref prompt sep :
  validateCommandResumeSpec (Some (JArray items)) capture = inl (Some template, cap) ->
  exists exe kind rest,
    head template = Some exe /\
    validateCommandExecutable (JString exe) "resumeArgvTemplate[0]" = inl kind /\
    materializeResumeArgv template ref prompt sep = exe :: rest.
Proof. apply materialize_executable. Qed.

(** A validated resume template has exactly one hole for the resume
    reference: the expansion is the same argv for every reference except for
    one argument, into which the reference is copied once and verbatim (it is
    never re-scanned for placeholders, and neither is the prompt). *)
Theorem resume_ref_single_hole items capture template cap prompt sep :
  validateCommandResumeSpec (Some (JArray items)) capture = inl (Some template, cap) ->
  exists pre l r post, forall ref,
    materializeResumeArgv template ref prompt sep = (pre ++ [l ++ ref ++ r]%string ++ post)%list.
Proof.
  intros H. apply validate_resume_template, validate_template_inv in H
    as (exe & rest & kind & -> & _ & _ & Hone). by apply materialize_one_hole.
Qed.

(** An argv entry a host may execute. *)
Definition safe_entry (v : json) : Prop :=
  exists s, v = JString s /\ 0 < slen s <= MAX_COMMAND_ARG_LENGTH /\ hasControlChars s = false.

Lemma safeArg_None v label : safeArg v label = None <-> safe_entry v.
Proof.
  unfold safe_entry. destruct v; simpl; try (split; [done|intros (? & ? & _); done]).
  unfold slen. destruct (Z.eqb_spec (Z.of_nat (String.length s)) 0).
  - split; [done|]. intros (? & [= <-] & ? & _). unfold slen in *. lia.
  - destruct (Z.ltb_spec MAX_COMMAND_ARG_LENGTH (Z.of_nat (String.length s))).
    + split; [done|]. intros (? & [= <-] & ? & _). unfold slen in *. lia.
    + destruct (hasControlChars s) eqn:Hc.
      * split; [done|]. intros (? & [= <-] & _ & ?). congruence.
      * split; [|done]. intros _. exists s. unfold slen. repeat split; [lia|lia|done].
Qed.

Lemma first_unsafe_None label items : first_unsafe label items = None <-> Forall safe_entry items.
Proof.
  induction items as [|v items IH]; cbn [first_unsafe]; [by split|].
  rewrite Forall_cons, <- (safeArg_None v label), <- IH.
  destruct (safeArg v label); naive_solver.
Qed.

(** Exactly the safe argvs are accepted, unchanged: one to 64 entries, each
    a non-empty string of at most 4096 characters without control characters,
    the first neither absolute nor drive-qualified and with no ".." segment. *)
Theorem command_argv_accepts_iff items argv :
  validateCommandArgv (JArray items) = inl argv <->
  1 <= Z.of_nat (length items) <= MAX_COMMAND_ARGV_ITEMS /\ Forall safe_entry items /\
  argv = map json_string items /\
  exists exe rest, argv = exe :: rest /\ starts_with_separator exe = false /\
    drive_qualified exe = false /\ ~ In ".." (path_segments exe).
Proof.
  assert (Hparent : forall exe, has_parent_segment exe = false <-> ~ In ".." (path_segments exe)).
  { intros exe. unfold has_parent_segment. rewrite <- not_true_iff_false, existsb_exists.
    split; intros H Hin; apply H; [by exists ".."|].
    destruct Hin as (x & Hx & E). by apply str_eqb_true in E as <-. }
  unfold validateCommandArgv. destruct items as [|first items].
  { split; [done|]. intros [H _]. simpl in H. lia. }
  unfold argv_count_ok. cbv zeta. rewrite negb_involutive. set (n := Z.of_nat (length (first :: items))).
  destruct (Z.eqb_spec n 0); [unfold n in *; simpl in *; lia|].
  destruct (Z.ltb_spec MAX_COMMAND_ARGV_ITEMS n); simpl orb; cbv iota;
    [split; [done|]; intros [? _]; lia|].
  destruct (first_unsafe "argv" (first :: items)) eqn:Hsafe.
  { split; [done|]. intros (_ & Hs & _). apply (first_unsafe_None "argv") in Hs. congruence. }
  apply first_unsafe_None in Hsafe as Hall. inversion Hall as [|? ? Hfirst _]; subst.
  destruct Hfirst as (s & -> & Hs). unfold validateCommandExecutable.
  rewrite (proj2 (safeArg_None (JString s) "argv[0]")) by by exists s.
  specialize (Hparent s). destruct (starts_with_separator s) eqn:E1, (drive_qualified s) eqn:E2,
    (has_parent_segment s) eqn:E3; simpl; (split; [intros [= <-]|]).
  all: try (intros (_ & _ & -> & exe & rest & [= <- _] & ? & ? & Hno); apply Hparent in Hno; congruence).
  repeat split; [unfold n in *; lia|done|done|]. exists s, (map json_string items).
  repeat split; [done|done|]. by apply Hparent.
Qed.

(** ** Witnesses *)
Definition example_template : list json :=
  [JString "claude"; JString "--resume={cliResumeRef}"; JString "{prompt}"].

Lemma resume_executable_fixed_witness :
  exists exe kind rest,
    head ["claude"; "--resume={cliResumeRef}"; "{prompt}"] = Some exe /\
    validateCommandExecutable (JString exe) "resumeArgvTemplate[0]" = inl kind /\
    materializeResumeArgv ["claude"; "--resume={cliResumeRef}"; "{prompt}"] "/bin/sh" "rm" true = exe :: rest.
Proof. apply (resume_executable_fixed example_template None _ None). vm_compute. reflexivity. Defined.

Lemma resume_ref_single_hole_witness :
  exists pre l r post, forall ref,
    materializeResumeArgv ["claude"; "--resume={cliResumeRef}"; "{prompt}"] ref "hi" true =
    (pre ++ [l ++ ref ++ r]%string ++ post)%list.
Proof. apply (resume_ref_single_hole example_template None _ None). vm_compute. reflexivity. Defined.

(** The entry check is decided by computation, so acceptance of a concrete argv is too. *)
Example command_argv_example :
  validateCommandArgv (JArray [JString "bin/run"; JString "--fast"]) = inl ["bin/run"; "--fast"] /\
  (exists e, validateCommandArgv (JArray [JString "bin/../../sh"]) = inr e).
Proof. split; [vm_compute; reflexivity|]. eexists. vm_compute. reflexivity. Qed.
