(* ===== verification/SessionTarget.v ===== *)
(** * Route resolution

    services/api/src/control-plane-session-target.ts: which command, account and
    argv an entry of a session's target policy resolves to on a worktree, the
    main checkout of a host, or a workspace slot. *)

From Stdlib Require Import ZArith Lia Sorted Permutation String.
From stdpp Require Import base strings list.
From S2P Require Import Prelude DateTime Types Ordering ProviderCascade CommandResume.

Local Open Scope string_scope.
Local Open Scope Z_scope.

(** ** Routes *)
Module Target.
(** [Omit<ResolvedSessionRoute, "targetIndex">]. *)
Record TargetRoute := mkTargetRoute {
  providerId : option string;
  providerAccountId : option string;
  commandId : string;
  resolvedArgv : list string;
  resumeSpec : SessionResumeSpec;
}.
End Target.
Notation TargetRoute := Target.TargetRoute.

Record ResolvedSessionRoute := mkResolved { targetIndex : Z; route :> TargetRoute }.

Definition buildProviderCatalog (state : ControlPlaneState) : ProviderCatalog :=
  Catalog.mkCatalog (Plane.providers state) (Plane.providerAccounts state).

Definition prefersNativeResumeRoute (s : SessionRecord) : bool :=
  is_some (Session.cliResumeRef s) &&
  is_some (spec ← Session.resumeSpec s; Resume.resumeArgvTemplate spec).

(** A CLI resume is valid only on precisely the route that produced its ref. *)
Definition matchesNativeResumePin (s : SessionRecord) (r : ResolvedSessionRoute) : bool :=
  match truthy_nul (Session.pinnedHostId s) with
  | None => true
  | Some _ =>
      if is_some (Session.pinnedTargetIndex s) &&
         negb (bool_decide (Session.pinnedTargetIndex s = Some (targetIndex r))) then false
      else if is_some (Session.pinnedCommandId s) &&
              negb (bool_decide (Session.pinnedCommandId s = Some (Target.commandId r))) then false
      else match truthy_nul (Session.pinnedProviderAccountId s) with
           | None => true
           | Some account => bool_decide (Target.providerAccountId r = Some account)
           end
  end.

Definition append_prompt (argv : list string) (appendPrompt : bool) (separator : option bool)
    (prompt : string) : list string :=
  if negb appendPrompt then argv
  else if is_true_opt separator then (argv ++ ["--"; prompt])%list
  else (argv ++ [prompt])%list.

Definition buildArgv (command : option CommandRecord) (prompt : string) : option (list string) :=
  match command with
  | None => None
  | Some c =>
      if bool_decide (Cmd.argv c = []) then None
      else Some (append_prompt (Cmd.argv c) (Cmd.appendPrompt c) (Cmd.appendPromptSeparator c) prompt)
  end.

Definition commandResumeSpec (c : CommandRecord) : SessionResumeSpec :=
  Resume.mkSessionResumeSpec (Cmd.argv c) (Cmd.appendPrompt c) (Cmd.appendPromptSeparator c)
    (Cmd.resumeArgvTemplate c) (Cmd.resumeRefCapture c).

Definition copyResumeSpec (spec : SessionResumeSpec) (argv : list string)
    (resumeArgvTemplate : option (list string)) : SessionResumeSpec :=
  Resume.mkSessionResumeSpec argv (Resume.appendPrompt spec) (Resume.appendPromptSeparator spec)
    resumeArgvTemplate (Resume.resumeRefCapture spec).

(** The scope of a worktree in its host's inventory. *)
Definition host_scope (state : ControlPlaneState) (w : WorktreeRecord)
    : option HostInventory * option HostRepository * option HostWorktree :=
  let host := JsMap.get (Worktree.hostId w) (Plane.hostInventories state) in
  let repo := inv ← host; find_repository inv (Worktree.repositoryId w) in
  let wt := r ← repo; find_worktree r (Worktree.id w) in
  (host, repo, wt).

Definition account_enabled_at (state : ControlPlaneState) (w : WorktreeRecord) (account : string) : bool :=
  let '(host, repo, wt) := host_scope state w in resolveProviderAccountEnabled account wt repo host.

(** [policy[targetIndex]] of [[session.target, ...session.fallbacks]]. *)
Definition target_at (s : SessionRecord) (i : Z) : option TargetRef :=
  if i <? 0 then None else (Session.target s :: Session.fallbacks s) !! Z.to_nat i.

Definition target_suppressed (s : SessionRecord) (i : Z) : bool :=
  match Session.suppressedTargetIndexes s with
  | Some l => existsb (Z.eqb i) l
  | None => false
  end.

(** [0 .. fallbacks.length]. *)
Definition target_indexes (s : SessionRecord) : list Z :=
  map Z.of_nat (seq 0 (S (length (Session.fallbacks s)))).

Section resolve.
Context {LC : LocaleCompare} {DP : DateParse}.

Definition compareAccountsForFairness (a b : ProviderAccountRecord) : Z :=
  cmp_or (localeCompare (opt_or (Account.lastAssignedAt a) "") (opt_or (Account.lastAssignedAt b) ""))
    (localeCompare (Account.id a) (Account.id b)).

Definition account_eligible (state : ControlPlaneState) (providerId : string) (w : WorktreeRecord)
    (nowMs : option Z) (pinned : nullable string) (a : ProviderAccountRecord) : bool :=
  str_eqb (Account.providerId a) providerId &&
  match truthy_nul pinned with None => true | Some p => str_eqb (Account.id a) p end &&
  match truthy_opt (Account.usageLimitedUntil a) with
  | None => true
  | Some until => date_le (date_parse until) nowMs
  end &&
  account_enabled_at state w (Account.id a).

Definition resolveEligibleAccounts (state : ControlPlaneState) (providerId : string) (w : WorktreeRecord)
    (nowMs : option Z) (pinned : nullable string) : list ProviderAccountRecord :=
  toSorted compareAccountsForFairness
    (List.filter (account_eligible state providerId w nowMs pinned)
       (JsMap.values (Plane.providerAccounts state))).

Definition resolveTargets (state : ControlPlaneState) (catalog : ProviderCatalog) (target : TargetRef)
    (prompt : string) (w : WorktreeRecord) (nowMs : option Z) (pinned : nullable string)
    : list TargetRoute :=
  match target with
  | target_command id =>
      match JsMap.get id (Plane.commands state) with
      | None => []
      | Some command =>
          match buildArgv (Some command) prompt with
          | None => []
          | Some argv =>
              match Cmd.providerId command with
              | None => [Target.mkTargetRoute None None (Cmd.id command) argv (commandResumeSpec command)]
              | Some providerId =>
                  map (fun a => Target.mkTargetRoute (Some providerId) (Some (Account.id a))
                                  (Cmd.id command) argv (commandResumeSpec command))
                    (resolveEligibleAccounts state providerId w nowMs pinned)
              end
          end
      end
  | target_provider providerId =>
      let '(host, repo, wt) := host_scope state w in
      flat_map (fun a =>
        match truthy_opt (resolveProviderAccountCommandId (Account.id a) wt repo host catalog) with
        | None => []
        | Some commandId =>
            match JsMap.get commandId (Plane.commands state) with
            | None => []
            | Some command =>
                match buildArgv (Some command) prompt with
                | None => []
                | Some argv => [Target.mkTargetRoute (Some providerId) (Some (Account.id a)) commandId
                                  argv (commandResumeSpec command)]
                end
            end
        end) (resolveEligibleAccounts state providerId w nowMs pinned)
  end.

Definition resolveTarget (state : ControlPlaneState) (catalog : ProviderCatalog) (target : TargetRef)
    (prompt : string) (w : WorktreeRecord) (nowMs : option Z) (pinned : nullable string)
    : option TargetRoute :=
  head (resolveTargets state catalog target prompt w nowMs pinned).

(** The frozen template of a native continuation, revalidated: [None] when it no
    longer passes. *)
Definition revalidated_template (spec : SessionResumeSpec) : option (option (list string)) :=
  match Resume.resumeArgvTemplate spec with
  | None => Some None
  | Some t =>
      match validateCommandResumeSpec (Some (JArray (map JString t))) None with
      | inl (t', _) => Some t'
      | inr _ => None
      end
  end.

Definition pinned_account_blocked (state : ControlPlaneState) (w : WorktreeRecord) (nowMs : option Z)
    (accountId : string) : bool :=
  match JsMap.get accountId (Plane.providerAccounts state) with
  | None => true
  | Some account =>
      match truthy_opt (Account.usageLimitedUntil account) with
      | Some until => date_gt (date_parse until) nowMs
      | None => false
      end || negb (account_enabled_at state w accountId)
  end.

Definition resolveNativeResumeRoute (state : ControlPlaneState) (catalog : ProviderCatalog)
    (s : SessionRecord) (w : WorktreeRecord) (nowMs : option Z) (index : Z)
    : option ResolvedSessionRoute :=
  match truthy_opt (Session.resumedFromSessionId s), Session.resumeSpec s, Session.pinnedCommandId s with
  | Some _, Some spec, Some pinnedCommandId =>
      if (negb (is_some (truthy_opt (Session.cliResumeRef s))) &&
          negb (is_true_opt (Session.resumeFallback s))) ||
         negb (bool_decide (Session.pinnedTargetIndex s = Some index)) ||
         negb (JsMap.has pinnedCommandId (Plane.commands state))
      then None else
      let accountId := truthy_nul (Session.pinnedProviderAccountId s) in
      if match accountId with
         | Some id => pinned_account_blocked state w nowMs id
         | None => false
         end then None else
      if is_some (Resume.resumeArgvTemplate spec) && negb (is_some (truthy_opt (Session.cliResumeRef s)))
      then None else
      let providerId :=
        id ← accountId; a ← JsMap.get id (Catalog.providerAccounts catalog); Some (Account.providerId a) in
      match revalidated_template spec with
      | None => None
      | Some template =>
          Some (mkResolved index (Target.mkTargetRoute providerId accountId pinnedCommandId
            (match template with
             | Some t => materializeResumeArgv t (opt_or (Session.cliResumeRef s) "") (Session.prompt s)
                           (is_true_opt (Resume.appendPromptSeparator spec))
             | None => append_prompt (Resume.argv spec) (Resume.appendPrompt spec)
                         (Resume.appendPromptSeparator spec) (Session.prompt s)
             end)
            (copyResumeSpec spec (Resume.argv spec) template)))
      end
  | _, _, _ => None
  end.

(** [session.pinnedHostId ? session.pinnedProviderAccountId : undefined]. *)
Definition live_pin (s : SessionRecord) : nullable string :=
  if is_some (truthy_nul (Session.pinnedHostId s)) then Session.pinnedProviderAccountId s else Undef.

Definition keep_pinned (s : SessionRecord) (r : option ResolvedSessionRoute) : option ResolvedSessionRoute :=
  x ← r; if matchesNativeResumePin s x then Some x else None.

Definition resolveSessionTargetRouteAt (state : ControlPlaneState) (catalog : ProviderCatalog)
    (s : SessionRecord) (w : WorktreeRecord) (nowMs : option Z) (index : Z)
    : option ResolvedSessionRoute :=
  if target_suppressed s index then None else
  match target_at s index with
  | None => None
  | Some target =>
      if prefersNativeResumeRoute s && bool_decide (Session.pinnedTargetIndex s = Some index) then
        keep_pinned s (resolveNativeResumeRoute state catalog s w nowMs index)
      else
        keep_pinned s
          (match resolveTarget state catalog target (Session.prompt s) w nowMs (live_pin s) with
           | Some r => Some (mkResolved index r)
           | None => resolveNativeResumeRoute state catalog s w nowMs index
           end)
  end.

(** The first index of the policy that resolves. *)
Fixpoint first_route (f : Z -> option ResolvedSessionRoute) (indexes : list Z)
    : option ResolvedSessionRoute :=
  match indexes with
  | [] => None
  | i :: rest => match f i with Some r => Some r | None => first_route f rest end
  end.

Definition resolveSessionTargetRoute (state : ControlPlaneState) (catalog : ProviderCatalog)
    (s : SessionRecord) (w : WorktreeRecord) (nowMs : option Z) : option ResolvedSessionRoute :=
  first_route (resolveSessionTargetRouteAt state catalog s w nowMs) (target_indexes s).

Definition resolveSessionTargetArgv (state : ControlPlaneState) (catalog : ProviderCatalog)
    (s : SessionRecord) (w : WorktreeRecord) : option (list string) :=
  option_map (fun r : ResolvedSessionRoute => Target.resolvedArgv r)
    (resolveSessionTargetRoute state catalog s w (date_parse (Plane.now state))).

Definition resolveSessionTargetRoutesAt (state : ControlPlaneState) (catalog : ProviderCatalog)
    (s : SessionRecord) (w : WorktreeRecord) (nowMs : option Z) (index : Z)
    : list ResolvedSessionRoute :=
  if target_suppressed s index then [] else
  match target_at s index with
  | None => []
  | Some target =>
      if prefersNativeResumeRoute s && bool_decide (Session.pinnedTargetIndex s = Some index) then
        option_list (keep_pinned s (resolveNativeResumeRoute state catalog s w nowMs index))
      else
        match resolveTargets state catalog target (Session.prompt s) w nowMs (live_pin s) with
        | [] => option_list (keep_pinned s (resolveNativeResumeRoute state catalog s w nowMs index))
        | routes => List.filter (matchesNativeResumePin s) (map (mkResolved index) routes)
        end
  end.

(** The repository checkout of a host, as a worktree no inventory entry can name. *)
Definition main_checkout (hostId : string) (s : SessionRecord) (repository : HostRepository) : WorktreeRecord :=
  Worktree.mkWorktree ("main-checkout:" ++ hostId ++ ":" ++ Session.repositoryId s) "main checkout" hostId
    (Session.repositoryId s) (HRepository.path repository) [] idle true Undef None Undef.

Definition resolveScheduledSessionTargets (state : ControlPlaneState) (catalog : ProviderCatalog)
    (s : SessionRecord) (hostId : string) : list ResolvedSessionRoute :=
  match (inv ← JsMap.get hostId (Plane.hostInventories state);
         find_repository inv (Session.repositoryId s)) with
  | None => []
  | Some repository =>
      let nowMs := date_parse (Plane.now state) in
      flat_map (fun index =>
        if target_suppressed s index then [] else
        match target_at s index with
        | None => []
        | Some target =>
            List.filter (matchesNativeResumePin s)
              (map (mkResolved index)
                 (resolveTargets state catalog target (Session.prompt s)
                    (main_checkout hostId s repository) nowMs (live_pin s)))
        end) (target_indexes s)
  end.

Definition slot_worktree (slot : WorkspaceSlotRecord) : WorktreeRecord :=
  Worktree.mkWorktree (Slot.id slot) (Slot.name slot) (Slot.hostId slot) "" (Slot.path slot) []
    (Slot.status slot) (Slot.online slot) Undef None Undef.

Definition resolveWorkspaceSessionTargets (state : ControlPlaneState) (catalog : ProviderCatalog)
    (s : SessionRecord) (slot : WorkspaceSlotRecord) : list ResolvedSessionRoute :=
  let nowMs := date_parse (Plane.now state) in
  flat_map (fun index =>
    if target_suppressed s index then [] else
    match target_at s index with
    | None => []
    | Some target =>
        map (mkResolved index)
          (resolveTargets state catalog target (Session.prompt s) (slot_worktree slot) nowMs Undef)
    end) (target_indexes s).

Definition resolveScheduledSessionTarget (state : ControlPlaneState) (catalog : ProviderCatalog)
    (s : SessionRecord) (hostId : string) : option ResolvedSessionRoute :=
  head (resolveScheduledSessionTargets state catalog s hostId).
End resolve.

(** ** Properties *)
Section properties.
Context {LC : LocaleCompare} {LL : LocaleCompareLaws LC} {DP : DateParse}.
Implicit Types (state : ControlPlaneState) (s : SessionRecord) (w : WorktreeRecord).

Lemma compareAccountsForFairness_preorder : TotalPreorder compareAccountsForFairness.
Proof.
  apply (tp_lex (fun a b : ProviderAccountRecord => localeCompare _ _)
                (fun a b : ProviderAccountRecord => localeCompare _ _));
    [apply (tp_on _ (fun a => opt_or (Account.lastAssignedAt a) "")), lc_preorder
    |apply (tp_on _ Account.id), lc_preorder].
Qed.

Lemma keep_pinned_Some s x r : keep_pinned s x = Some r <-> x = Some r /\ matchesNativeResumePin s r = true.
Proof.
  unfold keep_pinned. destruct x as [y|]; simpl; [|naive_solver].
  destruct (matchesNativeResumePin s y) eqn:E; naive_solver congruence.
Qed.

(** The single-route resolution never drifts from the scheduler's: what
    [resolveSessionTargetRouteAt] returns for an entry of the policy is the
    first of the routes [resolveSessionTargetRoutesAt] offers for it. *)
Theorem route_at_is_first_route state catalog s w nowMs index r :
  resolveSessionTargetRouteAt state catalog s w nowMs index = Some r ->
  head (resolveSessionTargetRoutesAt state catalog s w nowMs index) = Some r.
Proof.
  unfold resolveSessionTargetRouteAt, resolveSessionTargetRoutesAt, resolveTarget.
  destruct (target_suppressed s index); [done|]. destruct (target_at s index) as [target|]; [|done].
  destruct (_ && bool_decide _); [by intros ->|].
  destruct (resolveTargets _ _ _ _ _ _ _) as [|t routes]; cbn [head]; [by intros ->|].
  rewrite keep_pinned_Some. intros [[= <-] Hm]. cbn [map List.filter]. by rewrite Hm.
Qed.

(** The accounts a route may use. *)
Lemma resolveEligibleAccounts_In state providerId w nowMs pinned a :
  In a (resolveEligibleAccounts state providerId w nowMs pinned) ->
  In a (JsMap.values (Plane.providerAccounts state)) /\
  account_eligible state providerId w nowMs pinned a = true.
Proof. unfold resolveEligibleAccounts. rewrite toSorted_In, filter_In. done. Qed.

(** What a live (not frozen) route of a target is made of. *)
Definition live_route state target w nowMs pinned (prompt : string) (t : TargetRoute) : Prop :=
  (exists key command argv,
     JsMap.get key (Plane.commands state) = Some command /\
     buildArgv (Some command) prompt = Some argv /\
     Target.resolvedArgv t = argv /\
     (target = target_command key -> Target.commandId t = Cmd.id command)) /\
  match Target.providerAccountId t with
  | None => exists id, target = target_command id /\ Target.providerId t = None
  | Some account =>
      exists providerId a,
        Target.providerId t = Some providerId /\
        In a (JsMap.values (Plane.providerAccounts state)) /\ Account.id a = account /\
        account_eligible state providerId w nowMs pinned a = true
  end.

Lemma resolveTargets_live state catalog target prompt w nowMs pinned t :
  In t (resolveTargets state catalog target prompt w nowMs pinned) ->
  live_route state target w nowMs pinned prompt t.
Proof.
  unfold resolveTargets, live_route. destruct target as [providerId|id].
  - destruct (host_scope state w) as [[host repo] wt]. rewrite in_flat_map. intros (a & Ha & Ht).
    apply resolveEligibleAccounts_In in Ha as [Ha Hel].
    destruct (truthy_opt _) as [commandId|] eqn:Hc; [|done].
    destruct (JsMap.get commandId _) as [command|] eqn:Hget; [|done].
    destruct (buildArgv _ _) as [argv|] eqn:Hargv; [|done]. destruct Ht as [<-|[]].
    simpl. split; [exists commandId, command, argv; naive_solver|].
    exists providerId, a. naive_solver.
  - destruct (JsMap.get id _) as [command|] eqn:Hget; [|done].
    destruct (buildArgv _ _) as [argv|] eqn:Hargv; [|done].
    destruct (Cmd.providerId command) as [providerId|] eqn:Hp.
    + rewrite in_map_iff. intros (a & <- & Ha). apply resolveEligibleAccounts_In in Ha as [Ha Hel].
      simpl. split; [exists id, command, argv; naive_solver|]. exists providerId, a. naive_solver.
    + intros [<-|[]]. simpl. split; [exists id, command, argv; naive_solver|]. by exists id.
Qed.

Lemma resolveTargets_index state catalog target prompt w nowMs pinned index r :
  In r (map (mkResolved index) (resolveTargets state catalog target prompt w nowMs pinned)) ->
  targetIndex r = index /\ live_route state target w nowMs pinned prompt r.
Proof.
  rewrite in_map_iff. intros (t & <- & Ht). split; [done|]. by eapply resolveTargets_live.
Qed.

(** ** The executable is never chosen by a prompt or a resume reference *)

Lemma append_prompt_head argv appendPrompt sep prompt exe rest :
  argv = exe :: rest -> head (append_prompt argv appendPrompt sep prompt) = Some exe.
Proof. intros ->. unfold append_prompt. by repeat case_match. Qed.

Lemma buildArgv_head command prompt argv :
  buildArgv (Some command) prompt = Some argv -> head argv = head (Cmd.argv command) /\ argv <> [].
Proof.
  simpl. case_bool_decide as Hne; [done|]. intros [= <-].
  destruct (Cmd.argv command) as [|exe rest] eqn:E; [done|].
  pose proof (append_prompt_head (exe :: rest) (Cmd.appendPrompt command)
    (Cmd.appendPromptSeparator command) prompt exe rest eq_refl) as Hh.
  split; [by rewrite Hh|]. intros H. by rewrite H in Hh.
Qed.

(** Argvs an operator stored: a command of the catalog, or the frozen command and
    template of the session. *)
Definition operator_argv state s (argv : list string) : Prop :=
  (exists key command, JsMap.get key (Plane.commands state) = Some command /\ argv = Cmd.argv command) \/
  (exists spec, Session.resumeSpec s = Some spec /\
     (argv = Resume.argv spec \/ Resume.resumeArgvTemplate spec = Some argv)).

Lemma validated_template_same t t' cap :
  validateCommandResumeSpec (Some (JArray (map JString t))) None = inl (t', cap) -> t' = Some t.
Proof.
  unfold validateCommandResumeSpec. destruct (validate_template (map JString t)) as [u|] eqn:Hv; [|done].
  intros [= <- _]. f_equal. unfold validate_template in Hv. destruct (map JString t) eqn:Ht; [done|].
  repeat (case_match; simplify_eq). rewrite <- Ht, map_map. simpl. apply map_id.
Qed.

Lemma native_route_argv state catalog s w nowMs index r :
  resolveNativeResumeRoute state catalog s w nowMs index = Some r ->
  targetIndex r = index /\
  JsMap.has (Target.commandId r) (Plane.commands state) = true /\
  exists argv, operator_argv state s argv /\
    (head (Target.resolvedArgv r) = head argv \/
     exists spec, Session.resumeSpec s = Some spec /\ Resume.argv spec = []).
Proof.
  unfold resolveNativeResumeRoute. destruct (truthy_opt _); [|done].
  destruct (Session.resumeSpec s) as [spec|] eqn:Hspec; [|done].
  destruct (Session.pinnedCommandId s) as [cmd|]; [|done].
  destruct (_ || _ || _) eqn:Hg; [done|]. apply orb_false_iff in Hg as [_ Hcmd].
  apply negb_false_iff in Hcmd. cbv zeta. destruct (match truthy_nul _ with Some _ => _ | None => _ end); [done|].
  destruct (_ && negb _); [done|].
  unfold revalidated_template. destruct (Resume.resumeArgvTemplate spec) as [t|] eqn:Ht.
  - destruct (validateCommandResumeSpec _ _) as [[t' cap]|] eqn:Hv; [|done].
    apply validated_template_same in Hv as Heq. subst t'. intros [= <-]. simpl.
    split; [done|]. split; [done|]. exists t. split; [right; exists spec; auto|left].
    destruct (materialize_executable _ _ _ _ (opt_or (Session.cliResumeRef s) "") (Session.prompt s)
      (is_true_opt (Resume.appendPromptSeparator spec)) Hv) as (exe & kind & rest & Hh & _ & ->). done.
  - intros [= <-]. simpl. split; [done|]. split; [done|]. exists (Resume.argv spec).
    split; [right; exists spec; auto|]. destruct (Resume.argv spec) as [|exe rest] eqn:E; [right; by exists spec|left].
    by eapply append_prompt_head.
Qed.

(** Every route offered for an entry is live, or the session's native continuation. *)
Lemma routes_at_cases state catalog s w nowMs index r :
  In r (resolveSessionTargetRoutesAt state catalog s w nowMs index) ->
  matchesNativeResumePin s r = true /\
  (resolveNativeResumeRoute state catalog s w nowMs index = Some r \/
   targetIndex r = index /\
   exists target, target_at s index = Some target /\
     live_route state target w nowMs (live_pin s) (Session.prompt s) r).
Proof.
  unfold resolveSessionTargetRoutesAt. destruct (target_suppressed s index); [done|].
  destruct (target_at s index) as [target|]; [|done].
  assert (Hnative : In r (option_list (keep_pinned s (resolveNativeResumeRoute state catalog s w nowMs index))) ->
    matchesNativeResumePin s r = true /\ resolveNativeResumeRoute state catalog s w nowMs index = Some r).
  { destruct (keep_pinned s _) as [x|] eqn:E; [|done]. intros [<-|[]].
    by apply keep_pinned_Some in E as [? ?]. }
  destruct (_ && bool_decide _); [naive_solver|].
  destruct (resolveTargets _ _ _ _ _ _ _) as [|t routes] eqn:Hr; [naive_solver|].
  rewrite filter_In, <- Hr. intros [Hin Hm]. apply resolveTargets_index in Hin as [Hi Hl].
  split; [done|]. right. split; [done|]. by exists target.
Qed.

Lemma live_route_argv state s target w nowMs pinned prompt t :
  live_route state target w nowMs pinned prompt t ->
  exists argv, operator_argv state s argv /\ head (Target.resolvedArgv t) = head argv.
Proof.
  intros [(key & command & argv & Hget & Hargv & <- & _) _]. exists (Cmd.argv command).
  apply buildArgv_head in Hargv as [Hh _]. split; [left; by exists key, command|done].
Qed.

(** [C39] The executable of an assignment is always the operator's: the first argument of every
    route offered on a worktree is the first argument of a command in the catalog, or of the
    command or resume template frozen for the session, never the prompt or the resume reference.
    The argv frozen in the session, if any, is not empty. *)
Theorem route_executable_is_operators state catalog s w nowMs index r :
  (forall spec, Session.resumeSpec s = Some spec -> Resume.argv spec <> []) ->
  In r (resolveSessionTargetRoutesAt state catalog s w nowMs index) ->
  exists argv, operator_argv state s argv /\ head (Target.resolvedArgv r) = head argv.
Proof.
  intros Hspec Hin. apply routes_at_cases in Hin as [_ [Hn|(_ & target & _ & Hl)]];
    [|by eapply live_route_argv].
  apply native_route_argv in Hn as (_ & _ & argv & Hop & Hh). exists argv. split; [done|].
  destruct Hh as [Hh|(spec & Hs & Hnil)]; [done|]. by destruct (Hspec spec Hs).
Qed.

(** The account is paused by a vendor usage limit at [nowMs]. *)
Definition usage_limited (a : ProviderAccountRecord) (nowMs : option Z) : bool :=
  match truthy_opt (Account.usageLimitedUntil a) with
  | Some until => date_gt (date_parse until) nowMs
  | None => false
  end.

Lemma date_le_not_gt a b : date_le a b = true -> date_gt a b = false.
Proof.
  unfold date_le, date_gt, date_lt. destruct a, b; try done.
  intros H%Z.leb_le. apply Z.ltb_ge. lia.
Qed.

Lemma eligible_usable state providerId w nowMs pinned a :
  account_eligible state providerId w nowMs pinned a = true ->
  usage_limited a nowMs = false /\ account_enabled_at state w (Account.id a) = true.
Proof.
  unfold account_eligible, usage_limited. rewrite !andb_true_iff. intros [[_ Hu] He].
  split; [|done]. destruct (truthy_opt _); [by apply date_le_not_gt|done].
Qed.

Lemma native_route_account state catalog s w nowMs index r account :
  resolveNativeResumeRoute state catalog s w nowMs index = Some r ->
  Target.providerAccountId r = Some account ->
  exists a, JsMap.get account (Plane.providerAccounts state) = Some a /\
    usage_limited a nowMs = false /\ account_enabled_at state w account = true.
Proof.
  unfold resolveNativeResumeRoute. destruct (truthy_opt _); [|done].
  destruct (Session.resumeSpec s) as [spec|]; [|done]. destruct (Session.pinnedCommandId s); [|done].
  destruct (_ || _ || _); [done|]. cbv zeta.
  destruct (truthy_nul (Session.pinnedProviderAccountId s)) as [id|] eqn:Hid.
  - unfold pinned_account_blocked. destruct (JsMap.get id _) as [a|] eqn:Ha; [|done].
    fold (usage_limited a nowMs). destruct (_ || _) eqn:Hb; [done|].
    apply orb_false_iff in Hb as [Hu He]. apply negb_false_iff in He.
    destruct (_ && negb _); [done|]. destruct (revalidated_template spec); [|done].
    intros [= <-] [= <-]. by exists a.
  - destruct (_ && negb _); [done|]. destruct (revalidated_template spec); [|done]. by intros [= <-].
Qed.

(** No assignment uses an account it must not: the account of every route
    offered on a worktree exists in the catalog, is attached and enabled at that
    worktree's scope, and is not paused by a usage limit. *)
Theorem route_account_usable state catalog s w nowMs index r account :
  (forall k a, JsMap.get k (Plane.providerAccounts state) = Some a -> Account.id a = k) ->
  In r (resolveSessionTargetRoutesAt state catalog s w nowMs index) ->
  Target.providerAccountId r = Some account ->
  exists a, In a (JsMap.values (Plane.providerAccounts state)) /\ Account.id a = account /\
    usage_limited a nowMs = false /\ account_enabled_at state w account = true.
Proof.
  intros Hkeys Hin Hacc. apply routes_at_cases in Hin as [_ [Hn|(_ & target & _ & [_ Hl])]].
  - destruct (native_route_account _ _ _ _ _ _ _ _ Hn Hacc) as (a & Ha & ? & ?).
    exists a. split; [by eapply JsMap.get_In_values|]. split; [by apply Hkeys|done].
  - rewrite Hacc in Hl. destruct Hl as (p & a & _ & Ha & <- & Hel).
    exists a. apply eligible_usable in Hel as [? ?]. done.
Qed.

(** Deleting a command invalidates its native continuations: a session with
    a captured reference and a frozen template gets no route at its pinned entry
    once the pinned command is gone, not even a live one. *)
Theorem deleted_command_not_replayed state catalog s w nowMs index command :
  prefersNativeResumeRoute s = true -> Session.pinnedTargetIndex s = Some index ->
  Session.pinnedCommandId s = Some command -> JsMap.get command (Plane.commands state) = None ->
  resolveSessionTargetRoutesAt state catalog s w nowMs index = [].
Proof.
  intros Hn Hi Hc Hget. unfold resolveSessionTargetRoutesAt.
  destruct (target_suppressed s index); [done|]. destruct (target_at s index); [|done].
  rewrite Hn, bool_decide_true by done. simpl.
  assert (resolveNativeResumeRoute state catalog s w nowMs index = None) as ->; [|done].
  unfold resolveNativeResumeRoute. rewrite Hc. destruct (truthy_opt _); [|done].
  destruct (Session.resumeSpec s); [|done]. unfold JsMap.has. rewrite Hget. simpl. by rewrite orb_true_r.
Qed.

(** Accounts are offered fairly: the eligible accounts of a provider are all
    offered, least recently assigned first, ties by id. *)
Theorem eligible_accounts_fair state providerId w nowMs pinned :
  Permutation (resolveEligibleAccounts state providerId w nowMs pinned)
    (List.filter (account_eligible state providerId w nowMs pinned)
       (JsMap.values (Plane.providerAccounts state))) /\
  StronglySorted (fun a b => compareAccountsForFairness a b <= 0)
    (resolveEligibleAccounts state providerId w nowMs pinned).
Proof. split; [apply toSorted_perm|apply toSorted_sorted, compareAccountsForFairness_preorder]. Qed.
End properties.

(** ** A small plane, for the witnesses *)
Definition example_worktree : WorktreeRecord :=
  Worktree.mkWorktree "w1" "one" "h1" "repo" "/repo/.worktrees/one" ["gpu"] idle true Null None Undef.

Definition example_command : CommandRecord :=
  Cmd.mkCommand "cmd-wt" "claude-print" ["claude"; "-p"] true (Some true)
    (Some ["claude"; "--resume={cliResumeRef}"; "{prompt}"]) None (Some "claude")
    "2026-01-01T00:00:00.000Z" "2026-01-01T00:00:00.000Z".

Definition example_runtime : HostRuntimeReport :=
  Runtime.mkHostRuntimeReport "1.0.0" (Some "2.45.0") true None (Some ["PATH"]) (Some true).

Definition example_connection : ConnectionRecord :=
  Connection.mkConnection "c1" true "h1" "2026-01-01T00:00:00.000Z" "2026-01-01T00:00:00.000Z" None None
    (Some 4) (Some [Readiness.mkReadiness "acct" true "f"]) (Some example_runtime) (Some 7) (Some 7) None.

Definition example_repository : RepositoryRecord :=
  Repo.mkRepository "repo" "repo" "https://example.com/repo.git" "main" None None (Some "active") None None
    None None "2026-01-01T00:00:00.000Z" "2026-01-01T00:00:00.000Z".

Definition example_state : ControlPlaneState :=
  Plane.mkControlPlaneState
    [("s1", example_session "s1" 0 0 "2026-01-01T00:00:00.000Z")]
    [("w1", example_worktree)] [] [("c1", example_connection)] [("h1", "c1")] []
    [("repo", example_repository)]
    [("h1", setScopeProviderEnabled example_inventory (mkScope "repo" (Some "w1")) "acct" (Some true))]
    (Catalog.providers example_catalog) (Catalog.providerAccounts example_catalog)
    [("cmd-wt", example_command)] [] [] [] [] [] [] [] 0 (fun n => "conn-" ++ number_string n) 0 60000 []
    "2026-01-01T00:05:00.000Z"
    (fun n => "attempt-" ++ number_string n) 0 4 15000 75000 (fun n => "id-" ++ number_string n) 0
    (fun n => mkSessionApiKey ("hns_session_" ++ number_string n) (number_string n)) 0
    "https://harness.test" None [] [] [].

Definition example_queued : SessionRecord := example_session "s1" 0 0 "2026-01-01T00:00:00.000Z".

Definition example_now : option Z := Some 1767225900000.

Definition example_route : ResolvedSessionRoute :=
  mkResolved 0 (Target.mkTargetRoute (Some "claude") (Some "acct") "cmd-wt"
    ["claude"; "-p"; "--"; "hello"] (commandResumeSpec example_command)).

Example example_routes :
  resolveSessionTargetRoutesAt (LC := code_order) (DP := iso_date_parse) example_state
    (buildProviderCatalog example_state) example_queued example_worktree example_now 0 = [example_route].
Proof. vm_compute. reflexivity. Qed.

Lemma route_at_is_first_route_witness :
  head (resolveSessionTargetRoutesAt (LC := code_order) (DP := iso_date_parse) example_state
    (buildProviderCatalog example_state) example_queued example_worktree example_now 0) = Some example_route.
Proof. apply (route_at_is_first_route (LC := code_order)). vm_compute. reflexivity. Defined.

Lemma route_executable_is_operators_witness :
  exists argv, operator_argv example_state example_queued argv /\
    head ["claude"; "-p"; "--"; "hello"] = head argv.
Proof.
  apply (route_executable_is_operators (LC := code_order) (DP := iso_date_parse) example_state
    (buildProviderCatalog example_state) example_queued example_worktree example_now 0 example_route).
  - intros spec H. discriminate H.
  - left. vm_compute. reflexivity.
Defined.

Lemma route_account_usable_witness :
  exists a, In a (JsMap.values (Plane.providerAccounts example_state)) /\ Account.id a = "acct" /\
    usage_limited (DP := iso_date_parse) a example_now = false /\
    account_enabled_at example_state example_worktree "acct" = true.
Proof.
  apply (route_account_usable (LC := code_order) (DP := iso_date_parse) example_state
    (buildProviderCatalog example_state) example_queued example_worktree example_now 0 example_route).
  - intros k a. simpl. destruct (str_eqb k "acct") eqn:E; [|discriminate].
    apply str_eqb_true in E. intros [= <-]. symmetry. exact E.
  - left. vm_compute. reflexivity.
  - reflexivity.
Defined.

Definition example_continuation : SessionRecord :=
  example_queued <| Session.cliResumeRef := Some "ref" |>
    <| Session.resumeSpec := Some (commandResumeSpec example_command) |>
    <| Session.resumedFromSessionId := Some "s0" |> <| Session.pinnedHostId := Val "h1" |>
    <| Session.pinnedTargetIndex := Some 0 |> <| Session.pinnedCommandId := Some "cmd-gone" |>.

Lemma deleted_command_not_replayed_witness :
  resolveSessionTargetRoutesAt (LC := code_order) (DP := iso_date_parse) example_state
    (buildProviderCatalog example_state) example_continuation example_worktree example_now 0 = [].
Proof. apply (deleted_command_not_replayed _ _ _ _ _ _ "cmd-gone"); vm_compute; reflexivity. Defined.

Lemma eligible_accounts_fair_witness :
  Permutation
    (resolveEligibleAccounts (LC := code_order) (DP := iso_date_parse) example_state "claude" example_worktree
       example_now Undef) [example_account].
Proof.
  exact (proj1 (eligible_accounts_fair (LC := code_order) (DP := iso_date_parse) example_state "claude"
    example_worktree example_now Undef)).
Defined.
