(* ===== verification/AccountLeases.v ===== *)
(** * Provider-account leases and host capacity

    services/api/src/control-plane-provider-account-leases.ts (the storage-less
    paths), control-plane-provider-account-capacity.ts and the lease identifiers
    of modules/shared/src/host-registration.ts.  A function that mutates the
    state, or the session object it is handed, returns the new value. *)

From Stdlib Require Import ZArith Lia Ascii String.
From stdpp Require Import base strings list list_numbers.
From S2P Require Import Prelude DateTime Types Ordering.

Local Open Scope string_scope.
Local Open Scope Z_scope.

(** ** Identifiers and caps *)
Definition PROVIDER_ACCOUNT_LEASE_PREFIX : string := "provider-lease:".

Definition providerAccountLeaseConcurrencyId (providerAccountId : string) (slot : Z) : string :=
  PROVIDER_ACCOUNT_LEASE_PREFIX ++ providerAccountId ++ ":" ++ number_string slot.

Definition maxConcurrentSessionsFor (account : option ProviderAccountRecord) : Z :=
  opt_or (a ← account; Account.maxConcurrentSessions a) DEFAULT_MAX_CONCURRENT_SESSIONS.

(** The size of a JavaScript [Set] filled with the elements of a list. *)
Definition set_size (l : list string) : Z := Z.of_nat (length (remove_dups l)).

(** ** Lease views *)
Module Lock.
Record ProviderAccountLeaseLock := mkLock {
  concurrencyId : string;
  providerAccountId : string;
  slot : Z;
  attemptId : string;
  sessionId : string;
  hostId : option string;
}.
End Lock.
Notation ProviderAccountLeaseLock := Lock.ProviderAccountLeaseLock.

Inductive ReleaseBlock :=
| session_not_terminal | session_assignment_attached | session_not_found | session_lease_mismatch.

#[global] Instance ReleaseBlock_eq_dec : EqDecision ReleaseBlock.
Proof. solve_decision. Defined.

Module Holder.
Record LeaseHolder := mkHolder {
  sessionId : string;
  attemptId : string;
  hostId : option string;
  sessionStatus : option SessionStatus;
  sessionCreatedAt : option string;
  sessionStartedAt : option string;
  releasable : bool;
  releaseBlock : option ReleaseBlock;
}.
End Holder.
Notation LeaseHolder := Holder.LeaseHolder.

Module LeaseView.
Record ProviderAccountLeaseState := mkLeaseState {
  providerAccountId : string;
  slot : Z;
  holder : option LeaseHolder;
}.
End LeaseView.
Notation ProviderAccountLeaseState := LeaseView.ProviderAccountLeaseState.

Inductive ProviderAccountLeaseOperation :=
| lease_ok (released : bool) (before after : ProviderAccountLeaseState) (repositoryId : option string)
| lease_not_found
| lease_conflict (releaseBlock : option ReleaseBlock).

Definition sessionAttemptId (s : SessionRecord) : option string :=
  opt_else (Session.attemptId s) (r ← Session.resolvedRoute s; Some (Route.attemptId r)).

Definition sessionMatchesProviderAccountLease (session : option SessionRecord)
    (lease : ProviderAccountLeaseLock) : bool :=
  match session with
  | None => false
  | Some s =>
      match Session.providerAccountLease s with
      | None => false
      | Some held =>
          str_eqb (AccountLease.concurrencyId held) (Lock.concurrencyId lease) &&
          str_eqb (AccountLease.providerAccountId held) (Lock.providerAccountId lease) &&
          (AccountLease.slot held =? Lock.slot lease) &&
          str_eqb (AccountLease.attemptId held) (Lock.attemptId lease) &&
          bool_decide (sessionAttemptId s = Some (Lock.attemptId lease))
      end
  end.

Definition sessionAssignmentDetached (s : SessionRecord) : bool :=
  negb (nul_present (Session.worktreeId s)) &&
  negb (is_true_opt (Session.mainCheckoutLease s)) &&
  negb (is_some (Session.assignmentConnectionId s)) &&
  negb (is_some (Session.hostAssignmentLease s)) &&
  negb (is_some (Session.timedOutHostId s)) &&
  negb (is_some (Session.timedOutAssignmentConnectionId s)).

Definition release_block (lease : ProviderAccountLeaseLock) (session : option SessionRecord)
    : option ReleaseBlock :=
  match session with
  | None => Some session_not_found
  | Some s =>
      if negb (sessionMatchesProviderAccountLease session lease) then Some session_lease_mismatch
      else if negb (isTerminalSessionStatus (Session.status s)) then Some session_not_terminal
      else if negb (sessionAssignmentDetached s) then Some session_assignment_attached
      else None
  end.

Definition providerAccountLeaseState (lease : ProviderAccountLeaseLock) (session : option SessionRecord)
    : ProviderAccountLeaseState :=
  let block := release_block lease session in
  LeaseView.mkLeaseState (Lock.providerAccountId lease) (Lock.slot lease)
    (Some (Holder.mkHolder (Lock.sessionId lease) (Lock.attemptId lease)
             (opt_else (s ← session; nul_opt (Session.hostId s)) (Lock.hostId lease))
             (Session.status <$> session) (Session.createdAt <$> session)
             (s ← session; Session.startedAt s)
             (negb (is_some block)) block)).

Definition freeProviderAccountLeaseState (providerAccountId : string) (slot : Z)
    : ProviderAccountLeaseState :=
  LeaseView.mkLeaseState providerAccountId slot None.

(** The lock of a slot: the lease table, else the first session that carries the lease. *)
Definition localProviderAccountLeaseLock (state : ControlPlaneState) (providerAccountId : string) (slot : Z)
    : option ProviderAccountLeaseLock :=
  let concurrencyId := providerAccountLeaseConcurrencyId providerAccountId slot in
  match JsMap.get concurrencyId (Plane.providerAccountLeases state) with
  | Some held =>
      Some (Lock.mkLock concurrencyId (HeldLease.providerAccountId held) (HeldLease.slot held)
              (HeldLease.attemptId held) (HeldLease.sessionId held) (Some (HeldLease.hostId held)))
  | None =>
      s ← List.find (fun s =>
            match Session.providerAccountLease s with
            | Some lease =>
                str_eqb (AccountLease.concurrencyId lease) concurrencyId &&
                str_eqb (AccountLease.providerAccountId lease) providerAccountId &&
                (AccountLease.slot lease =? slot)
            | None => false
            end) (JsMap.values (Plane.sessions state));
      lease ← Session.providerAccountLease s;
      Some (Lock.mkLock (AccountLease.concurrencyId lease) (AccountLease.providerAccountId lease)
              (AccountLease.slot lease) (AccountLease.attemptId lease) (Session.id s)
              (truthy_nul (Session.hostId s)))
  end.

Definition listProviderAccountLeaseStates (state : ControlPlaneState) (providerAccountId : string)
    (mayAccessSession : option SessionRecord -> bool) : option (list ProviderAccountLeaseState) :=
  if negb (JsMap.has providerAccountId (Plane.providerAccounts state)) then None
  else Some (flat_map (fun slot =>
    match localProviderAccountLeaseLock state providerAccountId slot with
    | None => []
    | Some lease =>
        let session := JsMap.get (Lock.sessionId lease) (Plane.sessions state) in
        if mayAccessSession session then [providerAccountLeaseState lease session] else []
    end) (seqZ 0 MAX_CONCURRENT_SESSIONS_LIMIT)).

(** [state.sessions.get(id)] mutated in place. *)
Definition update_session (state : ControlPlaneState) (id : string) (s : SessionRecord) : ControlPlaneState :=
  state <| Plane.sessions := JsMap.set id s (Plane.sessions state) |>.

Definition forceReleaseLocalProviderAccountLease (state : ControlPlaneState) (providerAccountId : string)
    (slot : Z) (mayAccessSession : option SessionRecord -> bool)
    : ProviderAccountLeaseOperation * ControlPlaneState :=
  let concurrencyId := providerAccountLeaseConcurrencyId providerAccountId slot in
  if negb (JsMap.has providerAccountId (Plane.providerAccounts state)) then (lease_not_found, state) else
  match localProviderAccountLeaseLock state providerAccountId slot with
  | None =>
      let free := freeProviderAccountLeaseState providerAccountId slot in
      (lease_ok false free free None, state)
  | Some lease =>
      let session := JsMap.get (Lock.sessionId lease) (Plane.sessions state) in
      let before := providerAccountLeaseState lease session in
      if negb (mayAccessSession session) then (lease_not_found, state) else
      match session with
      | Some s =>
          if negb (sessionMatchesProviderAccountLease session lease) ||
             negb (isTerminalSessionStatus (Session.status s)) ||
             negb (sessionAssignmentDetached s)
          then (lease_conflict (release_block lease session), state)
          else
            let state1 := update_session state (Lock.sessionId lease)
                            (s <| Session.providerAccountLease := None |>) in
            let state2 :=
              match JsMap.get concurrencyId (Plane.providerAccountLeases state1) with
              | Some cached =>
                  if str_eqb (HeldLease.sessionId cached) (Lock.sessionId lease) &&
                     str_eqb (HeldLease.attemptId cached) (Lock.attemptId lease)
                  then state1 <| Plane.providerAccountLeases :=
                                   JsMap.delete concurrencyId (Plane.providerAccountLeases state1) |>
                  else state1
              | None => state1
              end in
            (lease_ok true before (freeProviderAccountLeaseState providerAccountId slot)
               (Some (Session.repositoryId s)), state2)
      | None => (lease_conflict (release_block lease session), state)
      end
  end.

(** ** Readiness and capacity *)

(** [state.connections.get(state.hostConnection.get(hostId))]. *)
Definition live_connection (state : ControlPlaneState) (hostId : string) : option ConnectionRecord :=
  c ← truthy_opt (JsMap.get hostId (Plane.hostConnection state));
  JsMap.get c (Plane.connections state).

Definition hostProviderAccountReady (state : ControlPlaneState) (hostId : string)
    (providerAccountId : option string) : bool :=
  match truthy_opt providerAccountId with
  | None => true
  | Some account =>
      match (c ← live_connection state hostId; Connection.providerAccountReadiness c) with
      | Some readiness =>
          existsb (fun e => str_eqb (Readiness.providerAccountId e) account && Readiness.ready e) readiness
      | None => false
      end
  end.

Definition sessionOccupiesHostAssignment (s : SessionRecord) : bool :=
  match truthy_nul (Session.hostId s) with
  | None => false
  | Some _ =>
      bool_decide (Session.status s = running) ||
      is_some (Session.providerAccountLease s) ||
      nul_present (Session.worktreeId s) ||
      is_true_opt (Session.mainCheckoutLease s) ||
      is_true_opt (Session.workspaceSlotLease s)
  end.

Definition sessionHoldsHostAssignment (s : SessionRecord) (hostId : string) : bool :=
  bool_decide (Session.hostId s = Val hostId) && sessionOccupiesHostAssignment s.

Definition hostOccupancyKey (s : SessionRecord) : string :=
  match truthy_nul (Session.worktreeId s) with
  | Some w => "w:" ++ w
  | None =>
      if is_true_opt (Session.mainCheckoutLease s) then "c:" ++ Session.repositoryId s
      else match truthy_nul (Session.workspaceSlotId s) with
           | Some x => "x:" ++ x
           | None => "s:" ++ Session.id s
           end
  end.

(** Keys of [mainCheckoutLeases]: host and repository joined by NUL. *)
Definition main_checkout_key (hostId repositoryId : string) : string :=
  hostId ++ String "000"%char repositoryId.

Fixpoint strip_prefix (p s : string) : option string :=
  match p, s with
  | "", _ => Some s
  | String a p', String b s' => if Ascii.eqb a b then strip_prefix p' s' else None
  | _, "" => None
  end.

Definition occupied (status : WorktreeStatus) (currentSessionId : nullable string) : bool :=
  bool_decide (status = busy) || is_some (truthy_nul currentSessionId).

Definition host_occupancy (state : ControlPlaneState) (hostId : string) : list string :=
  (map hostOccupancyKey
     (List.filter (fun s => sessionHoldsHostAssignment s hostId) (JsMap.values (Plane.sessions state))) ++
   map (fun w => "w:" ++ Worktree.id w)%string
     (List.filter (fun w => str_eqb (Worktree.hostId w) hostId &&
                            occupied (Worktree.status w) (Worktree.currentSessionId w))
        (JsMap.values (Plane.worktrees state))) ++
   map (fun x => "x:" ++ Slot.id x)%string
     (List.filter (fun x => str_eqb (Slot.hostId x) hostId &&
                            occupied (Slot.status x) (Slot.currentSessionId x))
        (JsMap.values (Plane.workspaceSlots state))) ++
   flat_map (fun key => match strip_prefix (hostId ++ String "000"%char "") key with
                        | Some repo => [("c:" ++ repo)%string]
                        | None => []
                        end) (JsMap.keys (Plane.mainCheckoutLeases state)))%list.

Definition hostAssignmentOccupancyCount (state : ControlPlaneState) (hostId : string) : Z :=
  set_size (host_occupancy state hostId).

Definition hostHasAssignmentCapacity (state : ControlPlaneState) (hostId : string) : bool :=
  match (c ← live_connection state hostId; Connection.maxConcurrentAssignments c) with
  | None => true
  | Some cap => hostAssignmentOccupancyCount state hostId <? cap
  end.

Definition accountHasLeaseCapacityOverCap (state : ControlPlaneState) (providerAccountId : string) : bool :=
  let max := maxConcurrentSessionsFor (JsMap.get providerAccountId (Plane.providerAccounts state)) in
  let leases := List.filter (fun l => str_eqb (HeldLease.providerAccountId l) providerAccountId)
                  (JsMap.values (Plane.providerAccountLeases state)) in
  existsb (fun l => max <=? HeldLease.slot l) leases ||
  (max <? set_size (map HeldLease.sessionId leases)).

Definition sessionOccupiesProviderAccountLease (s : SessionRecord) : bool :=
  is_some (Session.providerAccountLease s) &&
  (bool_decide (Session.status s = running) ||
   bool_decide (Session.status s = cancelled) && nul_present (Session.hostId s) ||
   bool_decide (Session.status s = timed_out) && is_some (Session.timedOutHostId s)).

(** The session counts against the account in the read model. *)
Definition session_uses_account (s : SessionRecord) (account : string) : bool :=
  sessionOccupiesProviderAccountLease s &&
    bool_decide (AccountLease.providerAccountId <$> Session.providerAccountLease s = Some account) ||
  (bool_decide (Session.status s = running) ||
   bool_decide (Session.status s = cancelled) && nul_present (Session.hostId s)) &&
    bool_decide ((r ← Session.resolvedRoute s; Route.providerAccountId r) = Some account).

Definition account_holders (state : ControlPlaneState) (account : string) : list string :=
  (map HeldLease.sessionId
     (List.filter (fun l => str_eqb (HeldLease.providerAccountId l) account)
        (JsMap.values (Plane.providerAccountLeases state))) ++
   map Session.id
     (List.filter (fun s => session_uses_account s account) (JsMap.values (Plane.sessions state))))%list.

Definition accountHasLeaseCapacityFromReadModel (state : ControlPlaneState)
    (providerAccountId : option string) : bool :=
  match truthy_opt providerAccountId with
  | None => true
  | Some account =>
      set_size (account_holders state account) <?
      maxConcurrentSessionsFor (JsMap.get account (Plane.providerAccounts state))
  end.

(** Without storage the read model decides. *)
Definition accountHasLeaseCapacity (state : ControlPlaneState) (providerAccountId : option string) : bool :=
  match truthy_opt providerAccountId with
  | None => true
  | Some _ => accountHasLeaseCapacityFromReadModel state providerAccountId
  end.

(** ** Acquire and release *)
Definition rebuildProviderAccountLeasesFromSessions (state : ControlPlaneState) : ControlPlaneState :=
  state <| Plane.providerAccountLeases :=
    fold_left (fun leases s =>
      match Session.providerAccountLease s with
      | Some lease =>
          if sessionOccupiesProviderAccountLease s then
            JsMap.set (AccountLease.concurrencyId lease)
              (HeldLease.mkHeldAccountLease (Session.id s) (AccountLease.attemptId lease)
                 (AccountLease.slot lease)
                 (opt_or (opt_else (nul_opt (Session.hostId s)) (Session.timedOutHostId s)) "")
                 (AccountLease.providerAccountId lease)) leases
          else leases
      | None => leases
      end) (JsMap.values (Plane.sessions state)) JsMap.empty |>.

Definition slot_free (state : ControlPlaneState) (account : string) (occupiedSlots : list Z)
    (consultLocalMap : bool) (slot : Z) : bool :=
  negb (existsb (Z.eqb slot) occupiedSlots) &&
  negb (consultLocalMap &&
        JsMap.has (providerAccountLeaseConcurrencyId account slot) (Plane.providerAccountLeases state)).

Definition tryAcquireProviderAccountLeaseLocal (state : ControlPlaneState) (s : SessionRecord)
    (providerAccountId : option string) (attemptId hostId : string) (occupiedSlots : list Z)
    (consultLocalMap : bool) : option ProviderAccountLease * ControlPlaneState :=
  match truthy_opt providerAccountId with
  | None => (None, state)
  | Some account =>
      let max := maxConcurrentSessionsFor (JsMap.get account (Plane.providerAccounts state)) in
      match List.find (slot_free state account occupiedSlots consultLocalMap) (seqZ 0 max) with
      | None => (None, state)
      | Some slot =>
          let concurrencyId := providerAccountLeaseConcurrencyId account slot in
          (Some (AccountLease.mkProviderAccountLease concurrencyId account slot attemptId),
           state <| Plane.providerAccountLeases :=
                      JsMap.set concurrencyId
                        (HeldLease.mkHeldAccountLease (Session.id s) attemptId slot hostId account)
                        (Plane.providerAccountLeases state) |>)
      end
  end.

Definition releaseProviderAccountLeaseLocal (state : ControlPlaneState) (s : SessionRecord)
    : bool * ControlPlaneState :=
  match Session.providerAccountLease s with
  | None => (false, state)
  | Some lease =>
      match JsMap.get (AccountLease.concurrencyId lease) (Plane.providerAccountLeases state) with
      | None => (false, state)
      | Some held =>
          if negb (str_eqb (HeldLease.sessionId held) (Session.id s)) ||
             negb (str_eqb (HeldLease.attemptId held) (AccountLease.attemptId lease))
          then (false, state)
          else (true, state <| Plane.providerAccountLeases :=
                        JsMap.delete (AccountLease.concurrencyId lease) (Plane.providerAccountLeases state) |>)
      end
  end.

(** Returns the state and the session object without its leases. *)
Definition releaseProviderAccountLease (state : ControlPlaneState) (s : SessionRecord)
    : ControlPlaneState * SessionRecord :=
  match Session.providerAccountLease s with
  | None => (state, s <| Session.hostAssignmentLease := None |>)
  | Some _ =>
      ((releaseProviderAccountLeaseLocal state s).2,
       s <| Session.providerAccountLease := None |> <| Session.hostAssignmentLease := None |>)
  end.

Definition releaseProviderAccountLeaseForSession (state : ControlPlaneState) (s : SessionRecord)
    : ControlPlaneState * SessionRecord :=
  match Session.providerAccountLease s with
  | None => (state, s)
  | Some _ => releaseProviderAccountLease state s
  end.

(** [if (result && session.result === undefined) session.result = result]. *)
Definition keep_result (s : SessionRecord) (result : option SessionResult) : SessionRecord :=
  match result, Session.result s with
  | Some r, None => s <| Session.result := Some r |>
  | _, _ => s
  end.

Definition releaseTimedOutProviderAccountLease (state : ControlPlaneState) (s : SessionRecord)
    (result : option SessionResult) : ControlPlaneState * SessionRecord :=
  let '(state', s') := releaseProviderAccountLease state s in
  (state', keep_result
     (s' <| Session.timedOutHostId := None |> <| Session.timedOutAssignmentConnectionId := None |>
         <| Session.activeHostId := None |> <| Session.activeHostOrder := None |>) result).

(** The sessions are those listed before the loop; each is stored back once released. *)
Definition releaseTimedOutProviderAccountLeasesForHost (state : ControlPlaneState) (hostId : string)
    : list string * ControlPlaneState :=
  fold_left (fun '(released, st) s =>
    if negb (bool_decide (Session.status s = timed_out)) ||
       negb (bool_decide (Session.timedOutHostId s = Some hostId))
    then (released, st)
    else let '(st', s') := releaseTimedOutProviderAccountLease st s None in
         ((released ++ [Session.id s])%list, update_session st' (Session.id s) s'))
    (JsMap.values (Plane.sessions state)) ([], state).

(** ** Lease identifiers are injective *)

Definition is_digit (c : ascii) : bool := (48 <=? Z.of_N (N_of_ascii c)) && (Z.of_N (N_of_ascii c) <=? 57).

Fixpoint all_digits (s : string) : bool :=
  match s with "" => true | String c s' => is_digit c && all_digits s' end.

Lemma all_digits_app a b : all_digits (a ++ b) = all_digits a && all_digits b.
Proof.
  induction a as [|c a IH]; [done|]. rewrite string_app_cons. cbn [all_digits]. by rewrite IH, andb_assoc.
Qed.

Lemma decimal_all_digits f n : all_digits (decimal_digits f n) = true.
Proof.
  revert n. induction f as [|f IH]; intros n; cbn [decimal_digits]; [done|]. cbv zeta.
  assert (Hd : all_digits (String (ascii_of_N (Z.to_N (48 + n mod 10))) "") = true).
  { cbn [all_digits]. unfold is_digit. pose proof (Z.mod_pos_bound n 10).
    rewrite N_ascii_embedding by lia. rewrite Z2N.id by lia.
    rewrite !(proj2 (Z.leb_le _ _)) by lia. done. }
  destruct (n <? 10); [done|]. by rewrite all_digits_app, IH, Hd.
Qed.

Lemma number_string_inj n m : 0 <= n -> 0 <= m -> number_string n = number_string m -> n = m.
Proof.
  intros Hn Hm H. set (k := Z.to_nat (n + m)).
  assert (Hbig : forall x, 0 <= x <= n + m -> x < 10 ^ Z.of_nat (S k)).
  { intros x Hx. unfold k. rewrite Nat2Z.inj_succ, Z2Nat.id by lia.
    pose proof (Z.pow_gt_lin_r 10 (Z.succ (n + m))). lia. }
  assert (Hfix : forall x, 0 <= x <= n + m -> padStart (number_string x) (S k) "0" = fixed_digits (S k) x).
  { intros x Hx. unfold number_string. apply decimal_digits_pad; [split; [lia|by apply Hbig]|].
    destruct (Z.eq_dec x 0) as [->|]; [done|]. pose proof (Z.log2_spec x) as [_ Hl]; [lia|].
    rewrite Nat2Z.inj_succ, Z2Nat.id by apply Z.log2_nonneg.
    eapply Z.lt_le_trans; [exact Hl|]. apply Z.pow_le_mono_l. lia. }
  pose proof (fixed_digits_compare (S k) n m) as Hc.
  rewrite <- !Hfix, H in Hc by lia. rewrite (proj2 (code_compare_eq _ _)) in Hc by done.
  specialize (Hc (conj Hn (Hbig n ltac:(lia))) (conj Hm (Hbig m ltac:(lia)))). lia.
Qed.

(** The digits after the last colon are the slot. *)
Lemma colon_split a b d e :
  all_digits d = true -> all_digits e = true -> a ++ String ":" d = b ++ String ":" e -> a = b /\ d = e.
Proof.
  revert b. induction a as [|x a IH]; intros [|y b] Hd He H; rewrite ?string_app_cons in H.
  - by injection H.
  - injection H as <- H. exfalso. rewrite H, all_digits_app in Hd. by rewrite andb_false_r in Hd.
  - injection H as -> H. exfalso. rewrite <- H, all_digits_app in He. by rewrite andb_false_r in He.
  - injection H as -> H. by destruct (IH b Hd He H) as [-> ->].
Qed.

(** Lease identifiers are unambiguous: distinct accounts or slots, whatever
    characters an account id contains, never share a lease. *)
Theorem lease_id_injective a b n m :
  0 <= n -> 0 <= m ->
  providerAccountLeaseConcurrencyId a n = providerAccountLeaseConcurrencyId b m -> a = b /\ n = m.
Proof.
  intros Hn Hm H. unfold providerAccountLeaseConcurrencyId, PROVIDER_ACCOUNT_LEASE_PREFIX in H.
  repeat (rewrite !string_app_cons in H; injection H as H). 
  apply (colon_split a b) in H as [-> H]; [|apply decimal_all_digits..].
  split; [done|]. by apply number_string_inj.
Qed.

(** ** The lease table *)

Definition max_for (state : ControlPlaneState) (account : string) : Z :=
  maxConcurrentSessionsFor (JsMap.get account (Plane.providerAccounts state)).

Definition account_leases (state : ControlPlaneState) (account : string) : list HeldAccountLease :=
  List.filter (fun l => str_eqb (HeldLease.providerAccountId l) account)
    (JsMap.values (Plane.providerAccountLeases state)).

(** Every entry is filed under its own identifier, and below its account's cap. *)
Definition lease_inv (state : ControlPlaneState) : Prop :=
  JsMap.wf (Plane.providerAccountLeases state) /\
  forall k l, JsMap.get k (Plane.providerAccountLeases state) = Some l ->
    k = providerAccountLeaseConcurrencyId (HeldLease.providerAccountId l) (HeldLease.slot l) /\
    0 <= HeldLease.slot l < max_for state (HeldLease.providerAccountId l).

Lemma slots_nodup (m : JsMap.t HeldAccountLease) account :
  JsMap.wf m ->
  (forall k l, JsMap.get k m = Some l ->
     k = providerAccountLeaseConcurrencyId (HeldLease.providerAccountId l) (HeldLease.slot l)) ->
  NoDup (map HeldLease.slot
           (List.filter (fun l => str_eqb (HeldLease.providerAccountId l) account) (JsMap.values m))).
Proof.
  unfold JsMap.wf, JsMap.values, JsMap.keys.
  intros Hwf Hk. assert (Hk' : forall k l, In (k, l) m ->
    k = providerAccountLeaseConcurrencyId (HeldLease.providerAccountId l) (HeldLease.slot l))
    by (intros k l Hin; apply Hk; by apply JsMap.In_get). clear Hk.
  induction m as [|[k l] m IH]; simpl in *; [constructor|].
  apply NoDup_cons in Hwf as [Hnew Hwf].
  assert (Hrest : NoDup (map HeldLease.slot
    (List.filter (fun l => str_eqb (HeldLease.providerAccountId l) account) (map snd m))))
    by (apply IH; auto).
  destruct (str_eqb (HeldLease.providerAccountId l) account) eqn:E; [|done]. simpl.
  apply NoDup_cons. split; [|done]. rewrite list_elem_of_In, in_map_iff.
  intros (l' & Hslot & Hin). apply filter_In in Hin as [Hin E'].
  apply in_map_iff in Hin as ([k' l''] & Heq & Hin). simpl in Heq. subst l''.
  apply str_eqb_true in E, E'. apply Hnew. rewrite list_elem_of_In, in_map_iff.
  exists (k', l'). split; [simpl|done]. rewrite (Hk' k' l') by by right.
  rewrite (Hk' k l) by by left. by rewrite E, E', Hslot.
Qed.

(** At most the cap, because the entries sit in distinct slots below it. *)
Lemma lease_inv_count state account :
  lease_inv state ->
  Z.of_nat (length (account_leases state account)) <= Z.max 0 (max_for state account).
Proof.
  intros [Hwf Hinv].
  assert (Hnd : NoDup (map HeldLease.slot (account_leases state account)))
    by (apply slots_nodup; [done|]; intros k l Hl; by apply Hinv in Hl as [-> _]).
  assert (Hsub : map HeldLease.slot (account_leases state account) ⊆ seqZ 0 (max_for state account)).
  { intros x Hx. apply list_elem_of_In, in_map_iff in Hx as (l & <- & Hl).
    apply filter_In in Hl as [Hl E]. apply str_eqb_true in E.
    apply JsMap.In_values_get in Hl as [k Hk]; [|done]. apply Hinv in Hk as [_ Hk].
    apply elem_of_seqZ. rewrite <- E. lia. }
  apply NoDup_submseteq in Hsub; [|done]. apply submseteq_length in Hsub.
  rewrite length_map, length_seqZ in Hsub. lia.
Qed.

Lemma find_seqZ_free state account occ consult max slot :
  List.find (slot_free state account occ consult) (seqZ 0 max) = Some slot ->
  0 <= slot < max /\ slot_free state account occ consult slot = true.
Proof.
  intros H. apply find_some in H as [Hin Hf]. split; [|done].
  apply list_elem_of_In, elem_of_seqZ in Hin. lia.
Qed.

(** The concurrency cap of a provider account is never exceeded: acquiring a
    lease keeps every entry of the lease table under its own identifier and
    below its account's cap, so an account never has more leases than
    [maxConcurrentSessions]. *)
Theorem lease_cap_invariant state s account attemptId hostId occ :
  lease_inv state ->
  let state' := (tryAcquireProviderAccountLeaseLocal state s account attemptId hostId occ true).2 in
  lease_inv state' /\
  forall a, Z.of_nat (length (account_leases state' a)) <= Z.max 0 (max_for state' a).
Proof.
  intros Hinv. cbv zeta. enough (H : lease_inv _) by (split; [exact H|intros a; by apply lease_inv_count]).
  unfold tryAcquireProviderAccountLeaseLocal. destruct (truthy_opt account) as [a|]; [|done].
  cbv zeta. destruct (List.find _ _) as [slot|] eqn:Hf; [|done].
  apply find_seqZ_free in Hf as [Hslot _]. destruct Hinv as [Hwf Hk].
  split; simpl; [by apply JsMap.wf_set|]. intros k l. rewrite JsMap.get_set.
  case_decide as E; [|apply Hk]. intros [= <-]. simpl. done.
Qed.

(** Acquisition is complete: it fails for a gated account exactly when
    every slot below the cap is taken, and otherwise files a lease for the
    session and attempt under a slot that was free. *)
Theorem acquire_fails_iff_full state s account attemptId hostId :
  account <> "" ->
  match tryAcquireProviderAccountLeaseLocal state s (Some account) attemptId hostId [] true with
  | (None, state') =>
      state' = state /\
      forall slot, 0 <= slot < max_for state account ->
        JsMap.has (providerAccountLeaseConcurrencyId account slot) (Plane.providerAccountLeases state) = true
  | (Some lease, state') =>
      let id := providerAccountLeaseConcurrencyId account (AccountLease.slot lease) in
      lease = AccountLease.mkProviderAccountLease id account (AccountLease.slot lease) attemptId /\
      0 <= AccountLease.slot lease < max_for state account /\
      JsMap.get id (Plane.providerAccountLeases state) = None /\
      JsMap.get id (Plane.providerAccountLeases state') =
        Some (HeldLease.mkHeldAccountLease (Session.id s) attemptId (AccountLease.slot lease) hostId account)
  end.
Proof.
  intros Hne. unfold tryAcquireProviderAccountLeaseLocal.
  rewrite (proj2 (truthy_opt_Some (Some account) account)) by done. cbv zeta.
  fold (max_for state account). destruct (List.find _ _) as [slot|] eqn:Hf.
  - apply find_seqZ_free in Hf as [Hslot Hfree]. simpl. split; [done|]. split; [done|].
    unfold slot_free, JsMap.has in Hfree. simpl in Hfree.
    destruct (JsMap.get _ _); [done|]. split; [done|]. apply JsMap.get_set_eq.
  - split; [done|]. intros slot Hslot.
    assert (Hin : In slot (seqZ 0 (max_for state account))) by (apply list_elem_of_In, elem_of_seqZ; lia).
    pose proof (find_none _ _ Hf _ Hin) as Hno. unfold slot_free in Hno. simpl in Hno.
    by apply negb_false_iff in Hno.
Qed.

(** What a release removes: the session's own entry, nothing else. *)
Lemma release_get state s k :
  JsMap.get k (Plane.providerAccountLeases (releaseProviderAccountLeaseLocal state s).2) =
  match Session.providerAccountLease s, JsMap.get k (Plane.providerAccountLeases state) with
  | Some lease, Some held =>
      if decide (k = AccountLease.concurrencyId lease /\ HeldLease.sessionId held = Session.id s /\
                 HeldLease.attemptId held = AccountLease.attemptId lease)
      then None else Some held
  | _, held => held
  end.
Proof.
  unfold releaseProviderAccountLeaseLocal.
  destruct (Session.providerAccountLease s) as [lease|]; [|done].
  destruct (JsMap.get (AccountLease.concurrencyId lease) _) as [held|] eqn:Hh; simpl.
  - destruct (_ || _) eqn:Hg; simpl.
    + destruct (JsMap.get k _) as [h|] eqn:Hk; [|done]. case_decide as Hd; [|done].
      destruct Hd as (-> & H1 & H2). rewrite Hh in Hk. simplify_eq.
      by rewrite H1, H2, !str_eqb_refl in Hg.
    + rewrite JsMap.get_delete. apply orb_false_iff in Hg as [H1 H2].
      apply negb_false_iff, str_eqb_true in H1, H2. case_decide as Hk.
      * subst k. rewrite Hh. by rewrite decide_True.
      * destruct (JsMap.get k _); [|done]. rewrite decide_False; [done|]. intros [? _]. congruence.
  - destruct (JsMap.get k _) as [h|] eqn:Hk; [|done]. case_decide as Hd; [|done].
    destruct Hd as (-> & _). congruence.
Qed.

(** Releasing is idempotent and exact: a second release of the same attempt
    reports that it did nothing and changes nothing, and a release never touches
    a lease held by another session or attempt. *)
Theorem release_idempotent state s :
  let '(_, state') := releaseProviderAccountLeaseLocal state s in
  releaseProviderAccountLeaseLocal state' s = (false, state') /\
  forall k held, JsMap.get k (Plane.providerAccountLeases state) = Some held ->
    HeldLease.sessionId held <> Session.id s \/
      Some (HeldLease.attemptId held) <> (AccountLease.attemptId <$> Session.providerAccountLease s) ->
    JsMap.get k (Plane.providerAccountLeases state') = Some held.
Proof.
  pose proof (release_get state s) as Hget.
  destruct (releaseProviderAccountLeaseLocal state s) as [b state'] eqn:Hr. simpl in Hget. split.
  - unfold releaseProviderAccountLeaseLocal.
    destruct (Session.providerAccountLease s) as [lease|]; [|done].
    specialize (Hget (AccountLease.concurrencyId lease)). rewrite Hget.
    destruct (JsMap.get _ (Plane.providerAccountLeases state)) as [held|]; [|done].
    case_decide as Hd; [done|].
    destruct (str_eqb (HeldLease.sessionId held) _) eqn:E1; simpl; [|done].
    destruct (str_eqb (HeldLease.attemptId held) _) eqn:E2; simpl; [|done].
    apply str_eqb_true in E1, E2. by destruct Hd.
  - intros k held Hk Hother. rewrite Hget, Hk. destruct (Session.providerAccountLease s) as [lease|]; [|done].
    rewrite decide_False; [done|]. intros (_ & H1 & H2). simpl in Hother. rewrite H2 in Hother. naive_solver.
Qed.

(** Acquire then release restores the lease table: a session that carries
    the lease it acquired gives it back, and every lookup is as before. *)
Theorem acquire_release_roundtrip state s account attemptId hostId lease state' k :
  tryAcquireProviderAccountLeaseLocal state s account attemptId hostId [] true = (Some lease, state') ->
  JsMap.get k (Plane.providerAccountLeases
    (releaseProviderAccountLease state' (s <| Session.providerAccountLease := Some lease |>)).1) =
  JsMap.get k (Plane.providerAccountLeases state).
Proof.
  unfold tryAcquireProviderAccountLeaseLocal. destruct (truthy_opt account) as [a|]; [|done]. cbv zeta.
  destruct (List.find _ _) as [slot|] eqn:Hf; [|done]. intros [= <- <-].
  apply find_seqZ_free in Hf as [_ Hfree]. unfold slot_free, JsMap.has in Hfree. simpl in Hfree.
  unfold releaseProviderAccountLease. cbn [Session.providerAccountLease set Session.set_providerAccountLease fst].
  rewrite release_get. cbn. rewrite JsMap.get_set. case_decide as E.
  - subst k. rewrite decide_True by done. by destruct (JsMap.get _ (Plane.providerAccountLeases state)).
  - destruct (JsMap.get k _); [|done]. rewrite decide_False; [done|]. intros [-> _]. done.
Qed.

(** The lock comes from the table only under its own identifier. *)
Lemma local_lock_table state account slot lease held :
  localProviderAccountLeaseLock state account slot = Some lease ->
  JsMap.get (providerAccountLeaseConcurrencyId account slot) (Plane.providerAccountLeases state) = Some held ->
  HeldLease.sessionId held = Lock.sessionId lease /\ HeldLease.attemptId held = Lock.attemptId lease.
Proof. unfold localProviderAccountLeaseLock. intros H Hh. rewrite Hh in H. by injection H as <-. Qed.

(** An operator's force release is safe: it changes the state only for a
    terminal session whose assignment is fully detached and which carries
    exactly this lease; then the slot is free in the lease table, that session
    no longer carries the lease, and no other lease or session is touched. *)
Theorem force_release_safe state account slot may :
  let '(op, state') := forceReleaseLocalProviderAccountLease state account slot may in
  let id := providerAccountLeaseConcurrencyId account slot in
  (state' = state /\ forall b a r, op <> lease_ok true b a r) \/
  exists lease s,
    localProviderAccountLeaseLock state account slot = Some lease /\
    JsMap.get (Lock.sessionId lease) (Plane.sessions state) = Some s /\
    may (Some s) = true /\
    sessionMatchesProviderAccountLease (Some s) lease = true /\
    isTerminalSessionStatus (Session.status s) = true /\ sessionAssignmentDetached s = true /\
    JsMap.get id (Plane.providerAccountLeases state') = None /\
    (forall k, k <> id -> JsMap.get k (Plane.providerAccountLeases state') =
                          JsMap.get k (Plane.providerAccountLeases state)) /\
    (forall k, JsMap.get k (Plane.sessions state') =
       if decide (Lock.sessionId lease = k) then Some (s <| Session.providerAccountLease := None |>)
       else JsMap.get k (Plane.sessions state)).
Proof.
  unfold forceReleaseLocalProviderAccountLease. cbv zeta.
  destruct (JsMap.has _ _); simpl; [|by left].
  destruct (localProviderAccountLeaseLock state account slot) as [lease|] eqn:Hl; [|by left].
  destruct (may _) eqn:Hmay; simpl; [|by left].
  destruct (JsMap.get (Lock.sessionId lease) _) as [s|] eqn:Hs; [|by left].
  destruct (_ || _ || _) eqn:Hg; [by left|]. right.
  apply orb_false_iff in Hg as [[Hm Ht]%orb_false_iff Hd]. apply negb_false_iff in Hm, Ht, Hd.
  exists lease, s. do 6 (split; [done|]).
  assert (Hsess : forall k, JsMap.get k (JsMap.set (Lock.sessionId lease)
      (s <| Session.providerAccountLease := None |>) (Plane.sessions state)) =
      if decide (Lock.sessionId lease = k) then Some (s <| Session.providerAccountLease := None |>)
      else JsMap.get k (Plane.sessions state)) by (intros k; apply JsMap.get_set).
  unfold update_session. cbn [Plane.providerAccountLeases set Plane.set_sessions].
  destruct (JsMap.get (providerAccountLeaseConcurrencyId account slot) (Plane.providerAccountLeases state))
    as [held|] eqn:Hh.
  - destruct (local_lock_table _ _ _ _ _ Hl Hh) as [-> ->]. rewrite !str_eqb_refl. simpl.
    split; [apply JsMap.get_delete_eq|]. split; [|done].
    intros k Hk. by apply JsMap.get_delete_ne.
  - simpl. by rewrite Hh.
Qed.

(** ** Witnesses *)
Definition lease_state (leases : JsMap.t HeldAccountLease) (cap : Z) : ControlPlaneState :=
  Plane.mkControlPlaneState [] [] [] [] [] [] [] [] []
    [("acct", Account.mkProviderAccount "acct" "claude" "me" 18000 (Some cap) None None None "" "" None)]
    [] [] [] leases [] [] [] [] 0 (fun n => "conn-" ++ number_string n) 0 60000 [] "2026-01-01T00:05:00.000Z" (fun n => number_string n) 0 4 15000 75000 (fun n => "id-" ++ number_string n) 0
    (fun n => mkSessionApiKey ("hns_session_" ++ number_string n) (number_string n)) 0
    "https://harness.test" None [] [] [].

Definition lease_session : SessionRecord := example_session "s1" 0 0 "2026-01-01T00:00:00.000Z".

Lemma lease_cap_invariant_witness :
  let state' := (tryAcquireProviderAccountLeaseLocal (lease_state [] 1) lease_session (Some "acct") "a1" "h1"
                   [] true).2 in
  length (account_leases state' "acct") = 1%nat /\
  Z.of_nat (length (account_leases state' "acct")) <= Z.max 0 (max_for state' "acct").
Proof.
  split; [vm_compute; reflexivity|].
  apply (lease_cap_invariant (lease_state [] 1) lease_session (Some "acct") "a1" "h1" []).
  split; [apply NoDup_nil_2|]. intros k l H. discriminate H.
Defined.

Definition full_state : ControlPlaneState :=
  lease_state [("provider-lease:acct:0", HeldLease.mkHeldAccountLease "s0" "a0" 0 "h1" "acct")] 1.

Lemma acquire_full_state :
  tryAcquireProviderAccountLeaseLocal full_state lease_session (Some "acct") "a1" "h1" [] true =
  (None, full_state).
Proof. vm_compute. reflexivity. Qed.

Lemma acquire_fails_iff_full_witness :
  max_for full_state "acct" = 1 /\
  JsMap.has (providerAccountLeaseConcurrencyId "acct" 0) (Plane.providerAccountLeases full_state) = true.
Proof.
  split; [reflexivity|].
  pose proof (acquire_fails_iff_full full_state lease_session "acct" "a1" "h1" ltac:(discriminate)) as H.
  rewrite acquire_full_state in H. apply (proj2 H).
  split; [discriminate|reflexivity].
Defined.

Lemma acquire_release_roundtrip_witness :
  exists lease state',
    tryAcquireProviderAccountLeaseLocal (lease_state [] 1) lease_session (Some "acct") "a1" "h1" [] true
      = (Some lease, state') /\
    JsMap.get "provider-lease:acct:0" (Plane.providerAccountLeases
      (releaseProviderAccountLease state' (lease_session <| Session.providerAccountLease := Some lease |>)).1)
    = None.
Proof.
  destruct (tryAcquireProviderAccountLeaseLocal (lease_state [] 1) lease_session (Some "acct") "a1" "h1" []
    true) as [[lease|] state'] eqn:E; [|discriminate E].
  exists lease, state'. split; [reflexivity|].
  rewrite (acquire_release_roundtrip _ _ _ _ _ _ _ "provider-lease:acct:0" E). reflexivity.
Defined.

Lemma lease_id_injective_witness :
  providerAccountLeaseConcurrencyId "a:1" 2 <> providerAccountLeaseConcurrencyId "a" 12.
Proof.
  intros H. destruct (lease_id_injective "a:1" "a" 2 12 ltac:(lia) ltac:(lia) H) as [E _]. discriminate E.
Defined.
