(* ===== verification/Placement.v ===== *)
(** * Queue placement

    services/api/src/queue-placement-planner.ts with the gates it consults:
    control-plane-host-environment.ts, control-plane-protocol.ts,
    control-plane-repository-admission-state.ts, modules/shared/src
    repository-admission.ts and host-capabilities.ts. *)

From Stdlib Require Import ZArith Lia Sorted Permutation Ascii String.
From stdpp Require Import base strings list.
From S2P Require Import Prelude DateTime Types Ordering ProviderCascade CommandResume SessionTarget.
From S2P Require Import AccountLeases.

Local Open Scope string_scope.
Local Open Scope Z_scope.

(** ** Protocol *)
Definition negotiateHostProtocolVersion (advertised : option Z) : option Z :=
  if bool_decide (advertised = Some HOST_PROTOCOL_VERSION) then Some HOST_PROTOCOL_VERSION else None.

Definition connectionProtocolVersion (connection : option ConnectionRecord) : option Z :=
  c ← connection; opt_else (Connection.negotiatedProtocolVersion c) (Connection.protocolVersion c).

Definition durableConnectionProtocolVersion (connection : option ConnectionRecord) : option Z :=
  c ← connection; Connection.negotiatedProtocolVersion c.

Definition isCurrentHostProtocol (version : option Z) : bool :=
  bool_decide (version = Some HOST_PROTOCOL_VERSION).

(** ** Host environment *)

(** [toUpperCase] on the ASCII letters environment names are made of. *)
Definition upper_char (c : ascii) : ascii :=
  let n := N_of_ascii c in
  if (97 <=? n)%N && (n <=? 122)%N then ascii_of_N (n - 32) else c.

Fixpoint toUpperCase (s : string) : string :=
  match s with "" => "" | String c s' => String (upper_char c) (toUpperCase s') end.

(** [names.filter((name, i) => names.indexOf(name) === i)]. *)
Fixpoint first_occurrences (seen names : list string) : list string :=
  match names with
  | [] => []
  | n :: rest =>
      if existsb (str_eqb n) seen then first_occurrences seen rest
      else n :: first_occurrences (n :: seen) rest
  end.

Module Readable.
Record RepositoryEnvironmentReadiness := mkEnvironmentReadiness {
  required : list string;
  missing : list string;
  ready : bool;
}.
End Readable.
Notation RepositoryEnvironmentReadiness := Readable.RepositoryEnvironmentReadiness.

Definition repositoryEnvironmentReadiness (state : ControlPlaneState) (hostId repositoryId : string)
    : RepositoryEnvironmentReadiness :=
  let inventory := JsMap.get hostId (Plane.hostInventories state) in
  let repository := inv ← inventory; find_repository inv repositoryId in
  let required := first_occurrences []
    (opt_or (inv ← inventory; Inventory.requiredEnvironment inv) [] ++
     opt_or (r ← repository; HRepository.requiredEnvironment r) [])%list in
  let runtime :=
    match truthy_opt (JsMap.get hostId (Plane.hostConnection state)) with
    | Some c => conn ← JsMap.get c (Plane.connections state); Connection.runtime conn
    | None => inv ← inventory; Inventory.runtime inv
    end in
  let caseSensitive :=
    negb (bool_decide ((r ← runtime; Runtime.environmentNamesCaseSensitive r) = Some false)) in
  let normal := fun name => if caseSensitive then name else toUpperCase name in
  let available := map normal (opt_or (r ← runtime; Runtime.environmentNames r) []) in
  let missing := List.filter (fun name => negb (existsb (str_eqb (normal name)) available)) required in
  Readable.mkEnvironmentReadiness required missing (bool_decide (missing = [])).

Definition hostEnvironmentReady (state : ControlPlaneState) (hostId repositoryId : string) : bool :=
  Readable.ready (repositoryEnvironmentReadiness state hostId repositoryId).

Definition hostAcceptsNewAssignments (state : ControlPlaneState) (hostId : string) : bool :=
  match truthy_opt (JsMap.get hostId (Plane.hostConnection state)) with
  | None => false
  | Some c => isCurrentHostProtocol (connectionProtocolVersion (JsMap.get c (Plane.connections state)))
  end.

(** ** Repository admission *)
Inductive RepositoryAdmissionState := adm_active | adm_paused | adm_draining.

#[global] Instance RepositoryAdmissionState_eq_dec : EqDecision RepositoryAdmissionState.
Proof. solve_decision. Defined.

(** Throws ([None]) on a missing or unknown value. *)
Definition repositoryAdmissionState (value : option string) : option RepositoryAdmissionState :=
  match value with
  | Some v =>
      if str_eqb v "active" then Some adm_active
      else if str_eqb v "paused" then Some adm_paused
      else if str_eqb v "draining" then Some adm_draining else None
  | None => None
  end.

Definition admission_name (a : RepositoryAdmissionState) : string :=
  match a with adm_active => "active" | adm_paused => "paused" | adm_draining => "draining" end.

Definition repositoryAdmissionClosedMessage (a : RepositoryAdmissionState) : string :=
  "repository admission is " ++ admission_name a.

Definition repositoryAdmissionOpen (value : option string) : bool :=
  bool_decide (repositoryAdmissionState value = Some adm_active).

(** The error and code of a refused admission, [None] when it is open. *)
Definition repositoryAdmissionFailure (state : ControlPlaneState) (repositoryId : string)
    : option (string * string) :=
  match JsMap.get repositoryId (Plane.repositories state) with
  | None => Some ("repository not found", "NOT_FOUND")
  | Some r =>
      match opt_or (repositoryAdmissionState (Repo.admissionState r)) adm_paused with
      | adm_active => None
      | admission => Some (repositoryAdmissionClosedMessage admission, "REPOSITORY_ADMISSION_CLOSED")
      end
  end.

Definition admission_state (state : ControlPlaneState) (repositoryId : string) : option string :=
  r ← JsMap.get repositoryId (Plane.repositories state); Repo.admissionState r.

(** ** Capabilities *)
Definition hasHostCapability (capabilities : option (list string)) (capability : string) : bool :=
  match capabilities with Some l => existsb (str_eqb capability) l | None => false end.

(** ** Plans *)
Inductive PlacementWaitReason :=
| wait_queue_expired | wait_admission_closed | wait_admission_draining | wait_already_assigned
| wait_no_idle_worktree | wait_no_eligible_host | wait_no_eligible_route.

Inductive PromptPlacementPlan :=
| prompt_expire
| prompt_skip (reason : PlacementWaitReason)
| prompt_clear_pin
| prompt_assign (candidates : list (WorktreeRecord * ResolvedSessionRoute)).

Inductive ScheduledPlacementPlan :=
| scheduled_expire
| scheduled_cancel_draining
| scheduled_skip (reason : PlacementWaitReason)
| scheduled_assign (candidates : list ((string * string) * ResolvedSessionRoute)).

Inductive WorkspacePlacementPlan :=
| workspace_expire
| workspace_skip (reason : PlacementWaitReason)
| workspace_assign (candidates : list (WorkspaceSlotRecord * ResolvedSessionRoute)).

(** [connectionId !== undefined && connections.get(connectionId)?.runtime?.gitReady === true]. *)
Definition hostGitReady (state : ControlPlaneState) (hostId : string) : bool :=
  match (c ← JsMap.get hostId (Plane.hostConnection state);
         conn ← JsMap.get c (Plane.connections state); Connection.runtime conn) with
  | Some runtime => Runtime.gitReady runtime
  | None => false
  end.

Definition host_schedulable (state : ControlPlaneState) (hostId repositoryId : string) : bool :=
  hostAcceptsNewAssignments state hostId &&
  hostHasAssignmentCapacity state hostId &&
  hostEnvironmentReady state hostId repositoryId &&
  negb (existsb (str_eqb hostId) (Plane.drainingHosts state)) &&
  negb (JsMap.has hostId (Plane.disconnectedHosts state)).

Definition isSchedulableWorktree (state : ControlPlaneState) (w : WorktreeRecord)
    (repositoryId : option string) : bool :=
  match repositoryId with Some r => str_eqb (Worktree.repositoryId w) r | None => true end &&
  bool_decide (Worktree.status w = idle) &&
  Worktree.online w &&
  hostGitReady state (Worktree.hostId w) &&
  host_schedulable state (Worktree.hostId w) (Worktree.repositoryId w).

Definition labels_cover (w : WorktreeRecord) (required : list string) : bool :=
  forallb (fun label => existsb (str_eqb label) (Worktree.labels w)) required.

Definition eligibleIdleWorktrees (state : ControlPlaneState) (s : SessionRecord) : list WorktreeRecord :=
  List.filter (fun w => isSchedulableWorktree state w (Some (Session.repositoryId s)) &&
                        labels_cover w (Session.requiredLabels s))
    (JsMap.values (Plane.worktrees state)).

Section placement.
Context {LC : LocaleCompare} {DP : DateParse}.

(** When the account of a route was last assigned; "" when it has none. *)
Definition route_last_assigned (state : ControlPlaneState) (r : ResolvedSessionRoute) : string :=
  match truthy_opt (Target.providerAccountId r) with
  | Some account =>
      opt_or (a ← JsMap.get account (Plane.providerAccounts state); Account.lastAssignedAt a) ""
  | None => ""
  end.

Definition compareCandidates (state : ControlPlaneState) (a b : WorktreeRecord * ResolvedSessionRoute) : Z :=
  cmp_or (localeCompare (route_last_assigned state a.2) (route_last_assigned state b.2))
    (compareWorktreesForRoundRobin a.1 b.1).

Definition eligibleRoutes (state : ControlPlaneState) (catalog : ProviderCatalog) (s : SessionRecord)
    (worktrees : list WorktreeRecord) (nowMs : option Z) (index : Z)
    : list (WorktreeRecord * ResolvedSessionRoute) :=
  toSorted (compareCandidates state)
    (flat_map (fun w => map (fun r => (w, r))
       (resolveSessionTargetRoutesAt state catalog s w nowMs index)) worktrees).

Definition queueExpired (s : SessionRecord) (nowMs : option Z) : bool :=
  date_le (date_parse (Session.queueExpiresAt s)) nowMs.

Definition compareWorkspaceSlots (a b : WorkspaceSlotRecord) : Z :=
  cmp_or (localeCompare (opt_or (nul_opt (Slot.lastAssignedAt a)) "")
            (opt_or (nul_opt (Slot.lastAssignedAt b)) ""))
    (localeCompare (Slot.id a) (Slot.id b)).

(** The host can run this route now. *)
Definition route_ready (state : ControlPlaneState) (hostId : string) (r : ResolvedSessionRoute) : bool :=
  hostProviderAccountReady state hostId (Target.providerAccountId r) &&
  accountHasLeaseCapacity state (Target.providerAccountId r).

Definition slot_schedulable (state : ControlPlaneState) (s : SessionRecord) (slot : WorkspaceSlotRecord) : bool :=
  bool_decide (Some (Slot.workspacePoolId slot) = Session.workspacePoolId s) &&
  bool_decide (Slot.status slot = idle) &&
  negb (is_true_opt (Slot.retired slot)) &&
  Slot.online slot &&
  hasHostCapability (c ← live_connection state (Slot.hostId slot); Connection.capabilities c)
    "workspace-sessions" &&
  host_schedulable state (Slot.hostId slot) "".

Definition planWorkspacePlacement (state : ControlPlaneState) (catalog : ProviderCatalog)
    (s : SessionRecord) (nowMs : option Z) : WorkspacePlacementPlan :=
  if queueExpired s nowMs then workspace_expire else
  match truthy_opt (Session.workspacePoolId s) with
  | None => workspace_skip wait_no_idle_worktree
  | Some _ =>
      let eligible := toSorted compareWorkspaceSlots
        (List.filter (slot_schedulable state s) (JsMap.values (Plane.workspaceSlots state))) in
      let candidates :=
        flat_map (fun index =>
          flat_map (fun slot =>
            map (fun r => (slot, r))
              (List.filter (fun r => (targetIndex r =? index) && route_ready state (Slot.hostId slot) r)
                 (resolveWorkspaceSessionTargets state catalog s slot))) eligible)
          (target_indexes s) in
      match candidates with
      | [] => workspace_skip (if bool_decide (eligible = []) then wait_no_eligible_host
                              else wait_no_eligible_route)
      | _ => workspace_assign candidates
      end
  end.

(** Some idle worktree of the pinned host resolves the pinned entry with a ready account. *)
Definition has_native_route (state : ControlPlaneState) (catalog : ProviderCatalog) (s : SessionRecord)
    (nowMs : option Z) (worktrees : list WorktreeRecord) : bool :=
  match Session.pinnedTargetIndex s with
  | None => false
  | Some index =>
      existsb (fun w =>
        match resolveSessionTargetRouteAt state catalog s w nowMs index with
        | Some r => hostProviderAccountReady state (Worktree.hostId w) (Target.providerAccountId r)
        | None => false
        end) worktrees
  end.

(** The idle worktrees left after the pin, or [None] when the pin must be cleared. *)
Definition pinned_worktrees (state : ControlPlaneState) (catalog : ProviderCatalog) (s : SessionRecord)
    (nowMs : option Z) : option (list WorktreeRecord) :=
  let all_idle := eligibleIdleWorktrees state s in
  match truthy_nul (Session.pinnedHostId s) with
  | None => Some all_idle
  | Some host =>
      if match truthy_opt (Session.pinExpiresAt s) with
         | Some at_ => date_lt (date_parse at_) nowMs
         | None => false
         end then None else
      let on_host := List.filter (fun w => str_eqb (Worktree.hostId w) host) all_idle in
      if has_native_route state catalog s nowMs on_host then Some on_host else None
  end.

Definition prompt_candidates (state : ControlPlaneState) (catalog : ProviderCatalog) (s : SessionRecord)
    (nowMs : option Z) (worktrees : list WorktreeRecord) : list (WorktreeRecord * ResolvedSessionRoute) :=
  flat_map (fun index =>
    List.filter (fun c => route_ready state (Worktree.hostId c.1) c.2)
      (eligibleRoutes state catalog s worktrees nowMs index)) (target_indexes s).

Definition planPromptPlacement (state : ControlPlaneState) (catalog : ProviderCatalog)
    (s : SessionRecord) (nowMs : option Z) : PromptPlacementPlan :=
  if queueExpired s nowMs then prompt_expire
  else if negb (repositoryAdmissionOpen (admission_state state (Session.repositoryId s)))
  then prompt_skip wait_admission_closed
  else if is_some (truthy_nul (Session.hostId s)) && is_some (truthy_nul (Session.worktreeId s)) &&
          is_some (truthy_opt (Session.ackReceivedAt s))
  then prompt_skip wait_already_assigned
  else match pinned_worktrees state catalog s nowMs with
       | None => prompt_clear_pin
       | Some worktrees =>
           let sorted := toSorted compareWorktreesForRoundRobin worktrees in
           match prompt_candidates state catalog s nowMs sorted with
           | [] => prompt_skip (if bool_decide (sorted = []) then wait_no_idle_worktree
                                else wait_no_eligible_route)
           | candidates => prompt_assign candidates
           end
       end.

Definition planScheduledPlacement (state : ControlPlaneState) (catalog : ProviderCatalog)
    (s : SessionRecord) (hosts : list (string * string)) : ScheduledPlacementPlan :=
  let nowMs := date_parse (Plane.now state) in
  if queueExpired s nowMs then scheduled_expire else
  let admission := admission_state state (Session.repositoryId s) in
  if bool_decide (admission = Some "draining") then scheduled_cancel_draining
  else if negb (repositoryAdmissionOpen admission) then scheduled_skip wait_admission_closed
  else
    let candidates :=
      flat_map (fun index =>
        flat_map (fun host =>
          map (fun r => (host, r))
            (List.filter (fun r => (targetIndex r =? index) && route_ready state host.1 r)
               (resolveScheduledSessionTargets state catalog s host.1))) hosts)
        (target_indexes s) in
    match candidates with
    | [] => scheduled_skip (if bool_decide (hosts = []) then wait_no_eligible_host
                            else wait_no_eligible_route)
    | _ => scheduled_assign candidates
    end.

Definition sessionWithClearedPin (s : SessionRecord) : SessionRecord :=
  s <| Session.resumeFallback := Some true |> <| Session.pinnedHostId := Undef |>
    <| Session.pinnedProviderAccountId := Undef |> <| Session.pinnedTargetIndex := None |>
    <| Session.pinnedCommandId := None |> <| Session.pinExpiresAt := None |>.

(** [None] inside the sum is "assignable"; the outer [None] is running out of fuel. *)
Fixpoint explainPromptPlacement (fuel : nat) (state : ControlPlaneState) (catalog : ProviderCatalog)
    (s : SessionRecord) (nowMs : option Z) : option (option PlacementWaitReason) :=
  match fuel with
  | O => None
  | S fuel' =>
      match planPromptPlacement state catalog s nowMs with
      | prompt_clear_pin => explainPromptPlacement fuel' state catalog (sessionWithClearedPin s) nowMs
      | prompt_assign _ => Some None
      | prompt_expire => Some (Some wait_queue_expired)
      | prompt_skip reason => Some (Some reason)
      end
  end.

Definition availability_probe (target : TargetRef) (w : WorktreeRecord) : SessionRecord :=
  session_literal "availability-probe" (Worktree.repositoryId w) "" target [] [] 1
    "9999-01-01T00:00:00.000Z" 1 0 [] queued 0 "1970-01-01T00:00:00.000Z".

Definition targetIsAvailable (state : ControlPlaneState) (catalog : ProviderCatalog) (target : TargetRef)
    (nowMs : option Z) : bool :=
  existsb (fun w =>
    isSchedulableWorktree state w None &&
    existsb (fun r : ResolvedSessionRoute =>
      hostProviderAccountReady state (Worktree.hostId w) (Target.providerAccountId r) &&
      accountHasLeaseCapacityFromReadModel state (Target.providerAccountId r))
      (resolveSessionTargetRoutesAt state catalog (availability_probe target w) w nowMs 0))
    (JsMap.values (Plane.worktrees state)).
End placement.

Example example_placement :
  planPromptPlacement (LC := code_order) (DP := iso_date_parse) example_state
    (buildProviderCatalog example_state) example_queued example_now =
  prompt_assign [(example_worktree, example_route)].
Proof. vm_compute. reflexivity. Qed.

Example example_available :
  targetIsAvailable (LC := code_order) (DP := iso_date_parse) example_state
    (buildProviderCatalog example_state) (target_provider "claude") example_now = true.
Proof. vm_compute. reflexivity. Qed.

(** ** Properties *)
Section properties.
Context {LC : LocaleCompare} {LL : LocaleCompareLaws LC} {DP : DateParse}.
Implicit Types (state : ControlPlaneState) (s : SessionRecord) (w : WorktreeRecord)
  (r : ResolvedSessionRoute).

Lemma target_indexes_In s i : In i (target_indexes s) <-> 0 <= i <= Z.of_nat (length (Session.fallbacks s)).
Proof.
  unfold target_indexes. rewrite in_map_iff. split.
  - intros (n & <- & Hn). apply in_seq in Hn. lia.
  - intros H. exists (Z.to_nat i). split; [lia|]. apply in_seq. lia.
Qed.

Lemma eligibleIdleWorktrees_In state s w :
  In w (eligibleIdleWorktrees state s) <->
  In w (JsMap.values (Plane.worktrees state)) /\
  isSchedulableWorktree state w (Some (Session.repositoryId s)) = true /\
  labels_cover w (Session.requiredLabels s) = true.
Proof. unfold eligibleIdleWorktrees. rewrite filter_In, andb_true_iff. done. Qed.

(** The worktree respects the session's host pin. *)
Definition on_pinned_host s w : Prop :=
  match truthy_nul (Session.pinnedHostId s) with
  | Some host => Worktree.hostId w = host
  | None => True
  end.

Lemma pinned_worktrees_In state catalog s nowMs worktrees w :
  pinned_worktrees state catalog s nowMs = Some worktrees ->
  In w worktrees <-> In w (eligibleIdleWorktrees state s) /\ on_pinned_host s w.
Proof.
  unfold pinned_worktrees, on_pinned_host. cbv zeta.
  destruct (truthy_nul (Session.pinnedHostId s)) as [host|]; [|intros [= <-]; naive_solver].
  destruct (match truthy_opt _ with Some _ => _ | None => _ end); [done|].
  destruct (has_native_route _ _ _ _ _); [|done]. intros [= <-]. rewrite filter_In, str_eqb_true. done.
Qed.

(** Exactly the placements the gates allow for a prompt session. *)
Definition prompt_candidate state catalog s nowMs w r : Prop :=
  In w (JsMap.values (Plane.worktrees state)) /\
  isSchedulableWorktree state w (Some (Session.repositoryId s)) = true /\
  labels_cover w (Session.requiredLabels s) = true /\ on_pinned_host s w /\
  (exists index, 0 <= index <= Z.of_nat (length (Session.fallbacks s)) /\
     In r (resolveSessionTargetRoutesAt state catalog s w nowMs index)) /\
  route_ready state (Worktree.hostId w) r = true.

Lemma eligibleRoutes_In state catalog s worktrees nowMs index w r :
  In (w, r) (eligibleRoutes state catalog s worktrees nowMs index) <->
  In w worktrees /\ In r (resolveSessionTargetRoutesAt state catalog s w nowMs index).
Proof.
  unfold eligibleRoutes. rewrite toSorted_In, in_flat_map. setoid_rewrite in_map_iff.
  split; [intros (w' & Hw & r' & [= <- <-] & Hr); done|]. intros [Hw Hr]. exists w. eauto.
Qed.

Lemma prompt_candidates_In state catalog s nowMs worktrees w r :
  pinned_worktrees state catalog s nowMs = Some worktrees ->
  In (w, r) (prompt_candidates state catalog s nowMs (toSorted compareWorktreesForRoundRobin worktrees)) <->
  prompt_candidate state catalog s nowMs w r.
Proof.
  intros Hp. unfold prompt_candidates, prompt_candidate. rewrite in_flat_map.
  setoid_rewrite filter_In. setoid_rewrite eligibleRoutes_In. setoid_rewrite target_indexes_In.
  setoid_rewrite toSorted_In. pose proof (pinned_worktrees_In _ _ _ _ _ w Hp) as Hw.
  rewrite eligibleIdleWorktrees_In in Hw. simpl. naive_solver.
Qed.

(** Prompt placement is sound and complete: it proposes exactly the
    worktree/route pairs that pass every gate (idle, online, right repository
    and labels, host on the current protocol with git, capacity and environment
    ready, neither draining nor disconnected, pin respected, account ready and
    with lease capacity), and it reports no idle worktree or no eligible route
    only when there is none. *)
Theorem prompt_placement_exact state catalog s nowMs :
  match planPromptPlacement state catalog s nowMs with
  | prompt_assign candidates =>
      candidates <> [] /\
      forall w r, In (w, r) candidates <-> prompt_candidate state catalog s nowMs w r
  | prompt_skip wait_no_idle_worktree =>
      forall w, In w (eligibleIdleWorktrees state s) -> ~ on_pinned_host s w
  | prompt_skip wait_no_eligible_route =>
      forall w r, ~ prompt_candidate state catalog s nowMs w r
  | _ => True
  end.
Proof.
  unfold planPromptPlacement. destruct (queueExpired s nowMs); [done|].
  destruct (negb _); [done|]. destruct (_ && _ && _); [done|].
  destruct (pinned_worktrees state catalog s nowMs) as [worktrees|] eqn:Hp; [|done]. cbv zeta.
  pose proof (fun w r => prompt_candidates_In _ _ _ _ _ w r Hp) as Hin.
  destruct (prompt_candidates _ _ _ _ _) as [|c cs] eqn:Hc; [|done].
  case_bool_decide as Hnil.
  - intros w Hw Hpin. assert (Hww : In w worktrees) by (apply (pinned_worktrees_In _ _ _ _ _ w Hp); auto).
    apply (toSorted_In compareWorktreesForRoundRobin) in Hww. by rewrite Hnil in Hww.
  - intros w r Hwr. by apply Hin in Hwr.
Qed.

(** ** Order of the candidates *)

Lemma routes_at_index state catalog s w nowMs index r :
  In r (resolveSessionTargetRoutesAt state catalog s w nowMs index) -> targetIndex r = index.
Proof.
  intros H. apply routes_at_cases in H as [_ [H|[H _]]]; [|done].
  by apply native_route_argv in H as [H _].
Qed.

Lemma compareCandidates_preorder state : TotalPreorder (compareCandidates state).
Proof.
  apply (tp_lex (fun a b : WorktreeRecord * ResolvedSessionRoute => localeCompare _ _)
                (fun a b : WorktreeRecord * ResolvedSessionRoute => compareWorktreesForRoundRobin _ _));
    [apply (tp_on _ (fun c => route_last_assigned state c.2)), lc_preorder
    |apply (tp_on _ fst), compareWorktreesForRoundRobin_preorder].
Qed.

(** Earlier policy entry first; within an entry, the fairness order. *)
Definition candidate_le state (a b : WorktreeRecord * ResolvedSessionRoute) : Prop :=
  targetIndex a.2 < targetIndex b.2 \/
  targetIndex a.2 = targetIndex b.2 /\ compareCandidates state a b <= 0.

Lemma StronglySorted_filter {A} (R : A -> A -> Prop) (p : A -> bool) l :
  StronglySorted R l -> StronglySorted R (List.filter p l).
Proof.
  induction 1 as [|a l Hs IH Ha]; simpl; [constructor|]. destruct (p a); [|done].
  constructor; [done|]. rewrite List.Forall_forall in Ha |- *. intros x Hx.
  apply filter_In in Hx as [Hx _]. by apply Ha.
Qed.

Lemma StronglySorted_app {A} (R : A -> A -> Prop) l1 l2 :
  StronglySorted R l1 -> StronglySorted R l2 ->
  (forall a b, In a l1 -> In b l2 -> R a b) -> StronglySorted R (l1 ++ l2).
Proof.
  induction 1 as [|a l Hs IH Ha]; intros H2 H12; simpl; [done|].
  constructor; [apply IH; [done|]; intros x y Hx; apply H12; by right|].
  apply List.Forall_app. split; [done|]. apply List.Forall_forall. intros b Hb. apply H12; [by left|done].
Qed.

Lemma StronglySorted_impl_In {A} (R R' : A -> A -> Prop) l :
  (forall a b, In a l -> In b l -> R a b -> R' a b) -> StronglySorted R l -> StronglySorted R' l.
Proof.
  intros H. induction 1 as [|a l Hs IH Ha]; [constructor|]. constructor.
  - apply IH. intros x y Hx Hy. apply H; by right.
  - rewrite List.Forall_forall in Ha |- *. intros b Hb. apply H; [by left|by right|by apply Ha].
Qed.

Lemma entry_sorted state catalog s worktrees nowMs index :
  let entry := List.filter (fun c => route_ready state (Worktree.hostId c.1) c.2)
                 (eligibleRoutes state catalog s worktrees nowMs index) in
  StronglySorted (candidate_le state) entry /\ forall c, In c entry -> targetIndex c.2 = index.
Proof.
  cbv zeta. set (entry := List.filter _ _).
  assert (Hi : forall c, In c entry -> targetIndex c.2 = index).
  { intros [w r] Hc. apply filter_In in Hc as [Hc _]. apply eligibleRoutes_In in Hc as [_ Hr].
    by apply routes_at_index in Hr. }
  split; [|done]. apply (StronglySorted_impl_In (cmp_le (compareCandidates state))).
  - intros a b Ha Hb Hab. right. by rewrite (Hi a Ha), (Hi b Hb).
  - apply StronglySorted_filter, toSorted_sorted, compareCandidates_preorder.
Qed.

Lemma prompt_candidates_sorted state catalog s nowMs worktrees :
  StronglySorted (candidate_le state) (prompt_candidates state catalog s nowMs worktrees).
Proof.
  unfold prompt_candidates, target_indexes.
  assert (Hgen : forall n k, StronglySorted (candidate_le state)
      (flat_map (fun index => List.filter (fun c => route_ready state (Worktree.hostId c.1) c.2)
         (eligibleRoutes state catalog s worktrees nowMs index)) (map Z.of_nat (seq k n))) /\
      forall c, In c (flat_map (fun index => List.filter (fun c => route_ready state (Worktree.hostId c.1) c.2)
         (eligibleRoutes state catalog s worktrees nowMs index)) (map Z.of_nat (seq k n))) ->
        Z.of_nat k <= targetIndex c.2).
  { induction n as [|n IH]; intros k; simpl; [split; [constructor|done]|].
    destruct (entry_sorted state catalog s worktrees nowMs (Z.of_nat k)) as [Hs Hi].
    destruct (IH (S k)) as [Hs' Hi']. split.
    - apply StronglySorted_app; [done|done|]. intros a b Ha Hb. left.
      rewrite (Hi a Ha). apply Hi' in Hb. lia.
    - intros c Hc. apply in_app_or in Hc as [Hc|Hc]; [rewrite (Hi c Hc); lia|apply Hi' in Hc; lia]. }
  apply Hgen.
Qed.

(** Fallbacks come last and accounts are fair: the candidates of a prompt
    session list every placement of an earlier entry of its target policy before
    any of a later one, and within an entry go to the account assigned longest
    ago, then to the worktree assigned longest ago. *)
Theorem prompt_candidates_ordered state catalog s nowMs candidates :
  planPromptPlacement state catalog s nowMs = prompt_assign candidates ->
  StronglySorted (candidate_le state) candidates.
Proof.
  unfold planPromptPlacement. destruct (queueExpired s nowMs); [done|].
  destruct (negb _); [done|]. destruct (_ && _ && _); [done|].
  destruct (pinned_worktrees _ _ _ _) as [worktrees|]; [|done]. cbv zeta.
  destruct (prompt_candidates _ _ _ _ _) as [|c cs] eqn:Hc; [done|].
  intros [= <-]. rewrite <- Hc. apply prompt_candidates_sorted.
Qed.

Lemma admission_open_iff v : repositoryAdmissionOpen v = true <-> v = Some "active".
Proof.
  unfold repositoryAdmissionOpen. rewrite bool_decide_eq_true. destruct v as [v|]; simpl; [|done].
  destruct (str_eqb v "active") eqn:E; [apply str_eqb_true in E; naive_solver|].
  split; [|intros [= ->]; by rewrite str_eqb_refl in E].
  destruct (str_eqb v "paused"); [done|]. by destruct (str_eqb v "draining").
Qed.

(** Admission fails closed: unless the repository exists and its stored
    admission state is exactly "active" (not missing, paused, draining or
    malformed), no prompt or scheduled session of it is placed, and creating one
    is refused with an error. *)
Theorem admission_fails_closed state catalog s nowMs hosts :
  admission_state state (Session.repositoryId s) <> Some "active" ->
  (forall c, planPromptPlacement state catalog s nowMs <> prompt_assign c) /\
  planPromptPlacement state catalog s nowMs <> prompt_clear_pin /\
  (forall c, planScheduledPlacement state catalog s hosts <> scheduled_assign c) /\
  is_Some (repositoryAdmissionFailure state (Session.repositoryId s)).
Proof.
  intros Hadm.
  assert (Hclosed : repositoryAdmissionOpen (admission_state state (Session.repositoryId s)) = false)
    by (apply not_true_iff_false; by rewrite admission_open_iff).
  split; [|split; [|split]].
  - intros c. unfold planPromptPlacement. rewrite Hclosed. by case_match.
  - unfold planPromptPlacement. rewrite Hclosed. by case_match.
  - intros c. unfold planScheduledPlacement. cbv zeta. rewrite Hclosed. by repeat case_match.
  - unfold repositoryAdmissionFailure. unfold admission_state in Hclosed, Hadm.
    destruct (JsMap.get _ _) as [repo|]; [|by eexists]. simpl in *.
    unfold repositoryAdmissionOpen in Hclosed. apply bool_decide_eq_false in Hclosed.
    destruct (repositoryAdmissionState _) as [[]|]; simpl; [done|by eexists..].
Qed.

(** A cleared pin is never cleared again. *)
Lemma cleared_pin_not_cleared state catalog s nowMs :
  planPromptPlacement state catalog (sessionWithClearedPin s) nowMs <> prompt_clear_pin.
Proof.
  unfold planPromptPlacement, pinned_worktrees. simpl. unfold truthy_nul. simpl.
  by repeat case_match.
Qed.

(** The explanation shown for a waiting session terminates and agrees with
    the scheduler: two evaluations are always enough, and "assignable" is
    reported exactly when the session, or the session with its expired or
    unsatisfiable pin cleared, would be placed. *)
Theorem explain_terminates state catalog s nowMs :
  exists verdict, explainPromptPlacement 2 state catalog s nowMs = Some verdict /\
    (verdict = None <->
     (exists c, planPromptPlacement state catalog s nowMs = prompt_assign c) \/
     planPromptPlacement state catalog s nowMs = prompt_clear_pin /\
     exists c, planPromptPlacement state catalog (sessionWithClearedPin s) nowMs = prompt_assign c).
Proof.
  cbn [explainPromptPlacement]. pose proof (cleared_pin_not_cleared state catalog s nowMs) as Hc.
  destruct (planPromptPlacement state catalog s nowMs);
    try (eexists; split; [reflexivity|naive_solver]).
  destruct (planPromptPlacement state catalog (sessionWithClearedPin s) nowMs); try done;
    (eexists; split; [reflexivity|naive_solver]).
Qed.

(** The nested loops over entries, places and routes. *)
Lemma entry_loop_In {A} (indexes : list Z) (places : list A) (routes : A -> list ResolvedSessionRoute)
    (ready : A -> ResolvedSessionRoute -> bool) (x : A) r :
  In (x, r) (flat_map (fun index => flat_map (fun p => map (fun r => (p, r))
      (List.filter (fun r => (targetIndex r =? index) && ready p r) (routes p))) places) indexes) <->
  In x places /\ In r (routes x) /\ ready x r = true /\ In (targetIndex r) indexes.
Proof.
  rewrite in_flat_map. setoid_rewrite in_flat_map. setoid_rewrite in_map_iff.
  setoid_rewrite filter_In. setoid_rewrite andb_true_iff. setoid_rewrite Z.eqb_eq. split.
  - intros (i & Hi & p & Hp & r' & [= -> ->] & Hr & <- & Hready). done.
  - intros (Hx & Hr & Hready & Hi). exists (targetIndex r). split; [done|]. exists x. split; [done|].
    by exists r.
Qed.

Lemma scheduled_routes_index state catalog s hostId r :
  In r (resolveScheduledSessionTargets state catalog s hostId) -> In (targetIndex r) (target_indexes s).
Proof.
  unfold resolveScheduledSessionTargets. destruct (_ ≫= _) as [repo|]; [|done]. cbv zeta.
  rewrite in_flat_map. intros (i & Hi & Hr). destruct (target_suppressed s i); [done|].
  destruct (target_at s i) as [t|]; [|done]. apply filter_In in Hr as [Hr _].
  apply resolveTargets_index in Hr as [-> _]. done.
Qed.

Lemma workspace_routes_index state catalog s slot r :
  In r (resolveWorkspaceSessionTargets state catalog s slot) -> In (targetIndex r) (target_indexes s).
Proof.
  unfold resolveWorkspaceSessionTargets. cbv zeta. rewrite in_flat_map. intros (i & Hi & Hr).
  destruct (target_suppressed s i); [done|]. destruct (target_at s i) as [t|]; [|done].
  apply resolveTargets_index in Hr as [-> _]. done.
Qed.

(** Scheduled placement is sound and complete: the candidates are exactly
    the ready routes of the offered hosts, and a run of a draining repository is
    cancelled, never placed. *)
Theorem scheduled_placement_exact state catalog s hosts :
  match planScheduledPlacement state catalog s hosts with
  | scheduled_assign candidates =>
      candidates <> [] /\ admission_state state (Session.repositoryId s) = Some "active" /\
      forall host r, In (host, r) candidates <->
        In host hosts /\ In r (resolveScheduledSessionTargets state catalog s host.1) /\
        route_ready state host.1 r = true
  | scheduled_skip wait_no_eligible_route =>
      forall host r, In host hosts -> In r (resolveScheduledSessionTargets state catalog s host.1) ->
        route_ready state host.1 r = false
  | scheduled_cancel_draining => admission_state state (Session.repositoryId s) = Some "draining"
  | _ => True
  end.
Proof.
  unfold planScheduledPlacement. cbv zeta. destruct (queueExpired _ _); [done|].
  case_bool_decide as Hd; [done|].
  destruct (repositoryAdmissionOpen _) eqn:Hopen; simpl; [|done]. apply admission_open_iff in Hopen.
  match goal with |- context [match ?c with [] => _ | _ :: _ => _ end] => set (cands := c) end.
  assert (Hin : forall host r, In (host, r) cands <->
    In host hosts /\ In r (resolveScheduledSessionTargets state catalog s host.1) /\
    route_ready state host.1 r = true).
  { intros host r. unfold cands.
    etransitivity; [apply (entry_loop_In (target_indexes s) hosts
      (fun h => resolveScheduledSessionTargets state catalog s h.1) (fun h r => route_ready state h.1 r))|].
    pose proof (scheduled_routes_index state catalog s host.1 r). naive_solver. }
  clearbody cands. destruct cands as [|c cs]; [|done].
  case_bool_decide; [done|]. intros host r Hh Hr.
  destruct (route_ready state host.1 r) eqn:E; [|done]. by destruct (proj2 (Hin host r)).
Qed.

(** Workspace placement is sound and complete: the candidates are exactly
    the ready routes of the idle, online, unretired slots of the session's pool
    on hosts that advertise workspace support and accept work. *)
Theorem workspace_placement_exact state catalog s nowMs :
  match planWorkspacePlacement state catalog s nowMs with
  | workspace_assign candidates =>
      candidates <> [] /\
      forall slot r, In (slot, r) candidates <->
        In slot (JsMap.values (Plane.workspaceSlots state)) /\ slot_schedulable state s slot = true /\
        In r (resolveWorkspaceSessionTargets state catalog s slot) /\
        route_ready state (Slot.hostId slot) r = true
  | workspace_skip wait_no_eligible_host =>
      forall slot, In slot (JsMap.values (Plane.workspaceSlots state)) -> slot_schedulable state s slot = false
  | workspace_skip wait_no_eligible_route =>
      forall slot r, In slot (JsMap.values (Plane.workspaceSlots state)) ->
        slot_schedulable state s slot = true ->
        In r (resolveWorkspaceSessionTargets state catalog s slot) ->
        route_ready state (Slot.hostId slot) r = false
  | _ => True
  end.
Proof.
  unfold planWorkspacePlacement. destruct (queueExpired _ _); [done|].
  destruct (truthy_opt _); [|done]. cbv zeta.
  set (eligible := toSorted compareWorkspaceSlots _).
  assert (Hel : forall slot, In slot eligible <->
    In slot (JsMap.values (Plane.workspaceSlots state)) /\ slot_schedulable state s slot = true).
  { intros slot. unfold eligible. rewrite toSorted_In, filter_In. done. }
  match goal with |- context [match ?c with [] => _ | _ :: _ => _ end] => set (cands := c) end.
  assert (Hin : forall slot r, In (slot, r) cands <->
    In slot (JsMap.values (Plane.workspaceSlots state)) /\ slot_schedulable state s slot = true /\
    In r (resolveWorkspaceSessionTargets state catalog s slot) /\
    route_ready state (Slot.hostId slot) r = true).
  { intros slot r. unfold cands.
    etransitivity; [apply (entry_loop_In (target_indexes s) eligible
      (fun x => resolveWorkspaceSessionTargets state catalog s x)
      (fun x r => route_ready state (Slot.hostId x) r))|].
    rewrite Hel. pose proof (workspace_routes_index state catalog s slot r). naive_solver. }
  clearbody cands. destruct cands as [|c cs]; [|done]. case_bool_decide as Hnil.
  - intros slot Hslot. destruct (slot_schedulable state s slot) eqn:E; [|done].
    assert (Hx : In slot eligible) by by apply Hel. by rewrite Hnil in Hx.
  - intros slot r Hs Hsch Hr. destruct (route_ready state (Slot.hostId slot) r) eqn:E; [|done].
    by destruct (proj2 (Hin slot r)).
Qed.
End properties.

(** ** Witnesses *)
Lemma prompt_candidates_ordered_witness :
  StronglySorted (candidate_le (LC := code_order) example_state) [(example_worktree, example_route)].
Proof.
  apply (prompt_candidates_ordered (LC := code_order) (DP := iso_date_parse) example_state
    (buildProviderCatalog example_state) example_queued example_now). vm_compute. reflexivity.
Defined.

Definition paused_state : ControlPlaneState :=
  example_state <| Plane.repositories :=
    [("repo", example_repository <| Repo.admissionState := None |>)] |>.

Lemma admission_fails_closed_witness :
  planPromptPlacement (LC := code_order) (DP := iso_date_parse) paused_state
    (buildProviderCatalog paused_state) example_queued example_now <> prompt_clear_pin /\
  is_Some (repositoryAdmissionFailure paused_state (Session.repositoryId example_queued)).
Proof.
  destruct (admission_fails_closed (LC := code_order) (DP := iso_date_parse) paused_state
    (buildProviderCatalog paused_state) example_queued example_now []) as (_ & H1 & _ & H2); [discriminate|].
  split; [exact H1|exact H2].
Defined.
