(* ===== verification/SessionOutcome.v ===== *)
(** * Session results

    modules/shared/src/session-result.ts: the bounded, canonical form of the
    result a host reports for a session, and the wire predicate that accepts
    one.  Strings are sequences of code units below 256; [new URL] is a
    parameter (the WHATWG URL parser of the platform). *)

From Stdlib Require Import ZArith Lia Ascii String Permutation Sorted.
From stdpp Require Import base strings list.
From S2P Require Import Prelude Types Ordering CommandResume.

Local Open Scope string_scope.
Local Open Scope Z_scope.

(** [new URL(value).protocol]; [None] when the constructor throws. *)
Class UrlParse := url_protocol : string -> option string.

Definition MAX_SESSION_RESULT_BYTES : Z := 32 * 1024.
Definition MAX_SESSION_RESULT_SUMMARY_BYTES : Z := 4 * 1024.
Definition MAX_SESSION_RESULT_BRANCH_BYTES : Z := 1024.
Definition MAX_SESSION_RESULT_URL_BYTES : Z := 2 * 1024.
Definition MAX_SESSION_RESULT_FILES : Z := 256.
Definition MAX_SESSION_RESULT_FILE_BYTES : Z := 4 * 1024.

(** [harnessSessionResult]. *)
Definition harnessSessionResult (status : SessionStatus) : SessionResult :=
  mkSessionResult ("Session " ++ status_name status) summary_harness None None None None None.

(** The [while] loop of [truncate]: the number of code units kept. *)
Fixpoint truncate_end (value : string) (maxBytes : Z) (stop : nat) : nat :=
  match stop with
  | O => O
  | S stop' =>
      if maxBytes <? utf8_length (substring 0 stop value) then truncate_end value maxBytes stop' else stop
  end.

Definition truncate (value : string) (maxBytes : Z) : string :=
  if utf8_length value <=? maxBytes then value
  else substring 0 (truncate_end value maxBytes (Nat.min (String.length value) (Z.to_nat maxBytes))) value.

(** [text(value, maxBytes)] *)
Definition result_text (value : option json) (maxBytes : Z) : option string :=
  match value with Some (JString s) => Some (truncate s maxBytes) | _ => None end.

Definition validHttpUrl {UP : UrlParse} (value : string) : bool :=
  match url_protocol value with
  | Some p => str_eqb p "http:" || str_eqb p "https:"
  | None => false
  end.

(** ** [JSON.stringify] of a result *)
Definition hex_digit (n : Z) : ascii :=
  ascii_of_N (Z.to_N (if n <? 10 then 48 + n else 87 + n)).

Definition json_escape (c : ascii) : string :=
  let n := code c in
  if (n =? 34) || (n =? 92) then String "\" (String c "")
  else if n =? 8 then "\b" else if n =? 12 then "\f" else if n =? 10 then "\n"
  else if n =? 13 then "\r" else if n =? 9 then "\t"
  else if n <? 32 then "\u00" ++ String (hex_digit (n / 16)) (String (hex_digit (n mod 16)) "")
  else String c "".

Fixpoint json_chars (s : string) : string :=
  match s with "" => "" | String c s' => json_escape c ++ json_chars s' end.

Definition quote : string := String "034"%char "".
Definition json_quote (s : string) : string := quote ++ json_chars s ++ quote.

Fixpoint json_join (items : list string) : string :=
  match items with
  | [] => ""
  | [x] => json_quote x
  | x :: rest => json_quote x ++ "," ++ json_join rest
  end.

Definition json_member (key text : string) : string := "," ++ json_quote key ++ ":" ++ text.

Definition source_name (s : SummarySource) : string :=
  match s with summary_agent => "agent" | summary_harness => "harness" end.

Definition flag_member (key : string) (flag : option bool) : string :=
  match flag with Some _ => json_member key "true" | None => "" end.

(** [JSON.stringify]. *)
Fixpoint stringify (v : json) : string :=
  match v with
  | JNull => "null"
  | JBool b => if b then "true" else "false"
  | JNumber z => if z <? 0 then "-" ++ number_string (- z) else number_string z
  | JString s => json_quote s
  | JArray items =>
      "[" ++ String.concat "," (map stringify items) ++ "]"
  | JObject entries =>
      "{" ++ String.concat "," (map (fun e => json_quote e.1 ++ ":" ++ stringify e.2) entries) ++ "}"
  end.

(** The members are printed in one fixed order; the size does not depend on it. *)
Definition stringify_result (r : SessionResult) : string :=
  "{" ++ json_quote "summary" ++ ":" ++ json_quote (summary r) ++
  json_member "summarySource" (json_quote (source_name (summarySource r))) ++
  flag_member "summaryTruncated" (summaryTruncated r) ++
  match branch r with Some b => json_member "branch" (json_quote b) | None => "" end ++
  match pullRequestUrl r with Some u => json_member "pullRequestUrl" (json_quote u) | None => "" end ++
  match filesChanged r with
  | Some files => json_member "filesChanged" ("[" ++ json_join files ++ "]")
  | None => ""
  end ++
  flag_member "filesChangedTruncated" (filesChangedTruncated r) ++ "}".

Definition result_bytes (r : SessionResult) : Z := utf8_length (stringify_result r).

(** ** Normalisation *)

(** The [for] loop over [input.filesChanged]: the set and whether an entry was too long. *)
Fixpoint collect_files (items : list json) (files : list string) (truncated : bool)
    : list string * bool :=
  match items with
  | [] => (files, truncated)
  | JString candidate :: rest =>
      if slen candidate =? 0 then collect_files rest files truncated
      else if MAX_SESSION_RESULT_FILE_BYTES <? utf8_length candidate
      then collect_files rest files true
      else
        let files' := set_add candidate files in
        if MAX_SESSION_RESULT_FILES <=? Z.of_nat (length files') then (files', truncated)
        else collect_files rest files' truncated
  | _ :: rest => collect_files rest files truncated
  end.

Definition json_is_true (v : option json) : bool :=
  match v with Some (JBool b) => b | _ => false end.

Definition true_flag (b : bool) : option bool := if b then Some true else None.

(** The [filesChanged] and [filesChangedTruncated] properties before the size loop. *)
Definition normalize_files (input : list (string * json)) : option (list string) * option bool :=
  match JsMap.get "filesChanged" input with
  | Some (JArray items) =>
      let '(files, oversized) := collect_files items [] false in
      (if negb (bool_decide (files = [])) || bool_decide (items = [])
       then Some (toSorted code_compare files) else None,
       true_flag (oversized || (MAX_SESSION_RESULT_FILES <? Z.of_nat (length items)) ||
                  json_is_true (JsMap.get "filesChangedTruncated" input)))
  | _ => (None, None)
  end.

Definition with_files (r : SessionResult) (files : option (list string)) (truncated : option bool)
    : SessionResult :=
  mkSessionResult (summary r) (summarySource r) (summaryTruncated r) (branch r) files truncated
    (pullRequestUrl r).

(** The size loop: drop the last file while the document is too large; [fuel]
    is the number of files. *)
Fixpoint shrink_files (fuel : nat) (r : SessionResult) : SessionResult :=
  match fuel with
  | O => r
  | S fuel' =>
      match filesChanged r with
      | Some (x :: rest) =>
          if MAX_SESSION_RESULT_BYTES <? result_bytes r
          then shrink_files fuel' (with_files r (Some (removelast (x :: rest))) (Some true))
          else r
      | _ => r
      end
  end.

Definition file_count (r : SessionResult) : nat :=
  match filesChanged r with Some files => length files | None => O end.

Section normalize.
Context {UP : UrlParse}.

Definition normalize_branch (v : option json) : option string :=
  match v with
  | Some (JString b) =>
      if negb (slen b =? 0) && (utf8_length b <=? MAX_SESSION_RESULT_BRANCH_BYTES) then Some b else None
  | _ => None
  end.

Definition normalize_url (v : option json) : option string :=
  match v with
  | Some (JString u) =>
      if (utf8_length u <=? MAX_SESSION_RESULT_URL_BYTES) && validHttpUrl u then Some u else None
  | _ => None
  end.

Definition summary_source (v : option json) : option SummarySource :=
  match v with
  | Some (JString s) =>
      if str_eqb s "agent" then Some summary_agent
      else if str_eqb s "harness" then Some summary_harness else None
  | _ => None
  end.

(** [bytes(input.summary) > MAX_SESSION_RESULT_SUMMARY_BYTES] for a string summary. *)
Definition summary_too_long (v : option json) : bool :=
  match v with
  | Some (JString s) => MAX_SESSION_RESULT_SUMMARY_BYTES <? utf8_length s
  | _ => false
  end.

Definition normalizeSessionResult (value : json) : option SessionResult :=
  match value with
  | JObject input =>
      source ← summary_source (JsMap.get "summarySource" input);
      text ← result_text (JsMap.get "summary" input) MAX_SESSION_RESULT_SUMMARY_BYTES;
      if slen text =? 0 then None else
      let '(files, truncated) := normalize_files input in
      let r := mkSessionResult text source
        (true_flag (summary_too_long (JsMap.get "summary" input) ||
                    json_is_true (JsMap.get "summaryTruncated" input)))
        (normalize_branch (JsMap.get "branch" input)) files truncated
        (normalize_url (JsMap.get "pullRequestUrl" input)) in
      Some (shrink_files (file_count r) r)
  | _ => None
  end.

(** [x === undefined || x === true]. *)
Definition flag_ok (v : option json) : bool :=
  match v with None => true | Some (JBool b) => b | _ => false end.

Definition file_ok (v : json) : bool :=
  match v with
  | JString f => negb (slen f =? 0) && (utf8_length f <=? MAX_SESSION_RESULT_FILE_BYTES)
  | _ => false
  end.

Definition isSessionResult (value : json) : bool :=
  match value with
  | JObject input =>
      match JsMap.get "summary" input with
      | Some (JString s) =>
          negb (slen s =? 0) && (utf8_length s <=? MAX_SESSION_RESULT_SUMMARY_BYTES)
      | _ => false
      end &&
      is_some (summary_source (JsMap.get "summarySource" input)) &&
      flag_ok (JsMap.get "summaryTruncated" input) &&
      match JsMap.get "branch" input with
      | None => true
      | Some (JString b) => utf8_length b <=? MAX_SESSION_RESULT_BRANCH_BYTES
      | Some _ => false
      end &&
      match JsMap.get "pullRequestUrl" input with
      | None => true
      | Some (JString u) => (utf8_length u <=? MAX_SESSION_RESULT_URL_BYTES) && validHttpUrl u
      | Some _ => false
      end &&
      match JsMap.get "filesChanged" input with
      | None => true
      | Some (JArray items) =>
          (Z.of_nat (length items) <=? MAX_SESSION_RESULT_FILES) && forallb file_ok items
      | Some _ => false
      end &&
      flag_ok (JsMap.get "filesChangedTruncated" input)
  | _ => false
  end.
End normalize.

(** The object a result is on the wire. *)
Definition opt_member {A} (key : string) (f : A -> json) (v : option A) : list (string * json) :=
  match v with Some a => [(key, f a)] | None => [] end.

Definition result_json (r : SessionResult) : json :=
  JObject ([("summary", JString (summary r)); ("summarySource", JString (source_name (summarySource r)))] ++
    opt_member "summaryTruncated" JBool (summaryTruncated r) ++
    opt_member "branch" JString (branch r) ++
    opt_member "pullRequestUrl" JString (pullRequestUrl r) ++
    opt_member "filesChanged" (fun files => JArray (map JString files)) (filesChanged r) ++
    opt_member "filesChangedTruncated" JBool (filesChangedTruncated r)).

(** ** Strings *)
Lemma utf8_length_nonneg s : 0 <= utf8_length s.
Proof. induction s as [|c s IH]; simpl; [done|]. destruct (_ <? 128)%N; lia. Qed.

Lemma utf8_length_app a b : utf8_length (a ++ b) = utf8_length a + utf8_length b.
Proof.
  induction a as [|c a IH]; [done|]. rewrite string_app_cons. simpl. rewrite IH. lia.
Qed.

Lemma slen_zero s : (slen s =? 0) = bool_decide (s = "").
Proof. destruct s; [done|]. rewrite bool_decide_false by done. apply Z.eqb_neq. unfold slen. simpl. lia. Qed.

Lemma truncate_end_fits value maxBytes stop :
  0 <= maxBytes -> utf8_length (substring 0 (truncate_end value maxBytes stop) value) <= maxBytes.
Proof.
  intros Hmax. induction stop as [|stop IH]; cbn [truncate_end].
  - by destruct value.
  - destruct (Z.ltb_spec maxBytes (utf8_length (substring 0 (S stop) value))); [done|lia].
Qed.

Lemma truncate_end_pos value maxBytes stop :
  2 <= maxBytes -> (1 <= stop)%nat -> (1 <= truncate_end value maxBytes stop)%nat.
Proof.
  intros Hmax. induction stop as [|stop IH]; intros Hs; [lia|]. cbn [truncate_end].
  destruct (Z.ltb_spec maxBytes (utf8_length (substring 0 (S stop) value))) as [Hlt|]; [|lia].
  destruct stop as [|stop]; [|apply IH; lia].
  exfalso. destruct value as [|c value]; simpl in Hlt; [lia|].
  replace (substring 0 0 value) with "" in Hlt by (by destruct value). simpl in Hlt.
  destruct (_ <? 128)%N; lia.
Qed.

Lemma truncate_fits value maxBytes : 0 <= maxBytes -> utf8_length (truncate value maxBytes) <= maxBytes.
Proof.
  intros Hmax. unfold truncate. destruct (Z.leb_spec (utf8_length value) maxBytes); [done|].
  by apply truncate_end_fits.
Qed.

Lemma truncate_id value maxBytes : utf8_length value <= maxBytes -> truncate value maxBytes = value.
Proof. intros H. unfold truncate. by rewrite (proj2 (Z.leb_le _ _) H). Qed.

Lemma truncate_nonempty value maxBytes :
  2 <= maxBytes -> truncate value maxBytes = "" -> value = "".
Proof.
  intros Hmax. unfold truncate. destruct (Z.leb_spec (utf8_length value) maxBytes) as [|Hlong]; [done|].
  destruct value as [|c value]; [done|].
  set (stop := truncate_end _ _ _).
  assert (1 <= stop)%nat by (apply truncate_end_pos; [done|cbn [String.length]; lia]).
  destruct stop as [|stop']; [lia|done].
Qed.

(** ** Canonical results *)
Definition file_name_ok (f : string) : Prop := f <> "" /\ utf8_length f <= MAX_SESSION_RESULT_FILE_BYTES.

Definition flag_canonical (f : option bool) : Prop := f = None \/ f = Some true.

Record files_ok (files : list string) : Prop := {
  fo_count : Z.of_nat (length files) <= MAX_SESSION_RESULT_FILES;
  fo_names : Forall file_name_ok files;
  fo_nodup : List.NoDup files;
}.

Definition files_sorted (files : list string) : Prop := StronglySorted (cmp_le code_compare) files.

Record canonical {UP : UrlParse} (r : SessionResult) : Prop := {
  ca_summary : summary r <> "" /\ utf8_length (summary r) <= MAX_SESSION_RESULT_SUMMARY_BYTES;
  ca_truncated : flag_canonical (summaryTruncated r);
  ca_branch : forall b, branch r = Some b ->
    b <> "" /\ utf8_length b <= MAX_SESSION_RESULT_BRANCH_BYTES;
  ca_url : forall u, pullRequestUrl r = Some u ->
    utf8_length u <= MAX_SESSION_RESULT_URL_BYTES /\ validHttpUrl u = true;
  ca_files : forall files, filesChanged r = Some files -> files_ok files /\ files_sorted files;
  ca_files_truncated : flag_canonical (filesChangedTruncated r);
}.

Lemma code_compare_preorder : TotalPreorder code_compare.
Proof.
  split; [intros a; by apply code_compare_eq| |apply code_compare_trans].
  intros a b. rewrite (code_compare_sym a b). lia.
Qed.

Lemma toSorted_id {A} (cmp : A -> A -> Z) l : StronglySorted (cmp_le cmp) l -> toSorted cmp l = l.
Proof.
  induction 1 as [|x l Hs IH Hall]; [done|]. simpl. rewrite IH.
  destruct l as [|y l]; [done|]. simpl.
  inversion Hall as [|? ? Hxy]; subst. unfold cmp_le in Hxy. by rewrite (proj2 (Z.leb_le _ _) Hxy).
Qed.

Lemma true_flag_canonical b : flag_canonical (true_flag b).
Proof. destruct b; unfold flag_canonical; auto. Qed.

Lemma set_add_ok x files :
  files_ok files -> file_name_ok x -> Z.of_nat (length files) < MAX_SESSION_RESULT_FILES ->
  files_ok (set_add x files).
Proof.
  intros [Hc Hn Hd] Hx Hlt. unfold set_add. destruct (existsb (str_eqb x) files) eqn:E; [done|].
  split.
  - rewrite length_app. simpl. lia.
  - apply Forall_app. auto.
  - apply Permutation_NoDup with (l := x :: files); [apply Permutation_cons_append|].
    constructor; [|done]. intros Hin.
    rewrite <- not_true_iff_false, existsb_exists in E. apply E. exists x. split; [done|apply str_eqb_refl].
Qed.

Lemma collect_files_ok items files truncated :
  files_ok files -> Z.of_nat (length files) < MAX_SESSION_RESULT_FILES ->
  files_ok (collect_files items files truncated).1.
Proof.
  revert files truncated. induction items as [|v items IH]; intros files truncated Hok Hlt; [done|].
  destruct v as [| | |c| |]; simpl; auto.
  rewrite slen_zero. case_bool_decide as Hc; [by apply IH|].
  destruct (Z.ltb_spec MAX_SESSION_RESULT_FILE_BYTES (utf8_length c)); [by apply IH|].
  assert (files_ok (set_add c files)) by (apply set_add_ok; [done|split; [done|lia]|done]).
  destruct (Z.leb_spec MAX_SESSION_RESULT_FILES (Z.of_nat (length (set_add c files)))); simpl; auto.
Qed.

(** Files that are already canonical are collected unchanged. *)
Lemma collect_files_id files : forall acc truncated,
  files_ok (acc ++ files)%list ->
  collect_files (map JString files) acc truncated = ((acc ++ files)%list, truncated).
Proof.
  induction files as [|f files IH]; intros acc truncated Hok; simpl; [by rewrite app_nil_r|].
  destruct (Hok) as [Hc Hn Hd].
  apply Forall_app in Hn as [_ Hn]. inversion Hn as [|? ? [Hf Hb] _]; subst.
  rewrite slen_zero, bool_decide_false by done.
  destruct (Z.ltb_spec MAX_SESSION_RESULT_FILE_BYTES (utf8_length f)); [lia|].
  assert (set_add f acc = (acc ++ [f])%list) as ->.
  { unfold set_add. destruct (existsb (str_eqb f) acc) eqn:E; [|done].
    apply existsb_exists in E as (x & Hx & Heq). apply str_eqb_true in Heq. subst x.
    apply NoDup_remove_2 in Hd. destruct Hd. apply in_app_iff. by left. }
  rewrite !length_app in *. simpl in *.
  destruct (Z.leb_spec MAX_SESSION_RESULT_FILES (Z.of_nat (length acc + 1))).
  - destruct files; simpl in *; [done|lia].
  - rewrite IH; by rewrite <- (assoc_L (++)%list).
Qed.

Lemma files_ok_perm l l' : Permutation l l' -> files_ok l -> files_ok l'.
Proof.
  intros Hp [Hc Hn Hd]. split; [by rewrite <- Hp|by rewrite <- Hp|by eapply Permutation_NoDup].
Qed.

Lemma normalize_files_ok input files truncated :
  normalize_files input = (Some files, truncated) -> files_ok files /\ files_sorted files.
Proof.
  unfold normalize_files. destruct (JsMap.get _ _) as [[| | | |items|]|]; try done.
  assert (files_ok (collect_files items [] false).1) as Hok.
  { apply collect_files_ok; [|simpl; unfold MAX_SESSION_RESULT_FILES; lia].
    split; [simpl; unfold MAX_SESSION_RESULT_FILES; lia|constructor|constructor]. }
  destruct (collect_files items [] false) as [fs over]. simpl in Hok.
  destruct (negb _ || _); [|done]. intros [= <- _]. split.
  - eapply files_ok_perm; [symmetry; apply toSorted_perm|done].
  - apply toSorted_sorted, code_compare_preorder.
Qed.

Lemma removelast_spec {A} (l : list A) : l <> [] -> exists x, l = (removelast l ++ [x])%list.
Proof. intros H. destruct (exists_last H) as (l' & x & ->). exists x. by rewrite removelast_last. Qed.

Lemma StronglySorted_prefix {A} (R : A -> A -> Prop) l1 l2 :
  StronglySorted R (l1 ++ l2)%list -> StronglySorted R l1.
Proof.
  induction l1 as [|x l1 IH]; simpl; [constructor|]. intros H. inversion H as [|? ? Hs Hall]; subst.
  apply Forall_app in Hall as [Hall _]. constructor; auto.
Qed.

Lemma removelast_ok l : l <> [] -> files_ok l /\ files_sorted l ->
  files_ok (removelast l) /\ files_sorted (removelast l).
Proof.
  intros Hne [[Hc Hn Hd] Hs]. destruct (removelast_spec l Hne) as [x E]. rewrite E in Hc, Hn, Hd, Hs.
  split; [split|].
  - rewrite length_app in Hc. lia.
  - by apply Forall_app in Hn as [Hn _].
  - by apply NoDup_app_remove_r in Hd.
  - by eapply StronglySorted_prefix.
Qed.

Lemma shrink_fields fuel r :
  let r' := shrink_files fuel r in
  summary r' = summary r /\ summarySource r' = summarySource r /\
  summaryTruncated r' = summaryTruncated r /\ branch r' = branch r /\
  pullRequestUrl r' = pullRequestUrl r.
Proof.
  revert r. induction fuel as [|fuel IH]; intros r; cbn [shrink_files]; [done|].
  destruct (filesChanged r) as [[|x rest]|]; [done| |done].
  destruct (_ <? _); [|done].
  exact (IH (with_files r (Some (removelast (x :: rest))) (Some true))).
Qed.

Lemma shrink_canonical {UP : UrlParse} fuel r : canonical r -> canonical (shrink_files fuel r).
Proof.
  revert r. induction fuel as [|fuel IH]; intros r Hr; simpl; [done|].
  destruct (filesChanged r) as [[|x rest]|] eqn:Hf; [done| |done].
  destruct (_ <? _); [|done]. apply IH. destruct Hr as [H1 H2 H3 H4 H5 H6]. split; simpl; try done.
  - intros files [= <-]. apply (removelast_ok (x :: rest)); [done|]. by apply H5.
  - by right.
Qed.

(** The size loop runs until the document fits or no file is left. *)
Lemma shrink_stops fuel r :
  (file_count r <= fuel)%nat ->
  file_count (shrink_files fuel r) = O \/ result_bytes (shrink_files fuel r) <= MAX_SESSION_RESULT_BYTES.
Proof.
  revert r. induction fuel as [|fuel IH]; intros r Hfuel; cbn [shrink_files]; [left; lia|].
  unfold file_count in *.
  destruct (filesChanged r) as [[|x rest]|] eqn:Hf; [by rewrite Hf; left| |by rewrite Hf; left].
  destruct (Z.ltb_spec MAX_SESSION_RESULT_BYTES (result_bytes r)); [|by right].
  apply IH. cbn [with_files filesChanged].
  destruct (removelast_spec (x :: rest)) as [y E]; [done|].
  apply (f_equal length) in E. rewrite length_app in E. cbn [length] in *. lia.
Qed.

Section results.
Context {UP : UrlParse}.

Lemma normalize_canonical v r :
  normalizeSessionResult v = Some r ->
  canonical r /\ (file_count r = O \/ result_bytes r <= MAX_SESSION_RESULT_BYTES).
Proof.
  destruct v as [| | | | |input]; try done. unfold normalizeSessionResult.
  destruct (summary_source _) as [source|]; [simpl|done].
  destruct (JsMap.get "summary" input) as [[| | |s| |]|]; try done. simpl.
  rewrite slen_zero. case_bool_decide as Hempty; [done|].
  destruct (normalize_files input) as [files truncated] eqn:Hfiles.
  intros [= <-]. split; [|by apply shrink_stops].
  apply shrink_canonical. split; simpl.
  - split; [done|]. by apply truncate_fits.
  - apply true_flag_canonical.
  - intros b Hb. destruct (JsMap.get "branch" input) as [[| | |b'| |]|]; try done. simpl in Hb.
    rewrite slen_zero in Hb. case_bool_decide; simpl in Hb; [done|].
    destruct (Z.leb_spec (utf8_length b') MAX_SESSION_RESULT_BRANCH_BYTES); [|done].
    by injection Hb as <-.
  - intros u Hu. destruct (JsMap.get "pullRequestUrl" input) as [[| | |u'| |]|]; try done. simpl in Hu.
    destruct (Z.leb_spec (utf8_length u') MAX_SESSION_RESULT_URL_BYTES); [|done].
    destruct (validHttpUrl u') eqn:Hv; simpl in Hu; [|done]. by injection Hu as <-.
  - intros fs ->. by eapply normalize_files_ok.
  - unfold normalize_files in Hfiles. destruct (JsMap.get "filesChanged" input) as [[| | | |items|]|];
      try (injection Hfiles as <- <-; by left).
    destruct (collect_files items [] false). injection Hfiles as <- <-. apply true_flag_canonical.
Qed.

(** The members of a result's object, read back. *)
Lemma result_json_get r input : result_json r = JObject input ->
  JsMap.get "summary" input = Some (JString (summary r)) /\
  JsMap.get "summarySource" input = Some (JString (source_name (summarySource r))) /\
  JsMap.get "summaryTruncated" input = JBool <$> summaryTruncated r /\
  JsMap.get "branch" input = JString <$> branch r /\
  JsMap.get "pullRequestUrl" input = JString <$> pullRequestUrl r /\
  JsMap.get "filesChanged" input = (fun fs => JArray (map JString fs)) <$> filesChanged r /\
  JsMap.get "filesChangedTruncated" input = JBool <$> filesChangedTruncated r.
Proof.
  intros [= <-]. destruct r as [s src st br fs ft url]; simpl.
  destruct st, br, url, fs, ft; repeat split.
Qed.

Lemma summary_source_name s : summary_source (Some (JString (source_name s))) = Some s.
Proof. by destruct s. Qed.

Lemma flag_ok_canonical f : flag_canonical f -> flag_ok (JBool <$> f) = true.
Proof. by intros [-> | ->]. Qed.

Lemma canonical_accepted r : canonical r -> isSessionResult (result_json r) = true.
Proof.
  intros [[Hs1 Hs2] Ht Hb Hu Hf Hft].
  destruct (result_json r) as [| | | | |input] eqn:E; try done.
  unfold isSessionResult. destruct (result_json_get r input E) as (-> & -> & -> & -> & -> & -> & ->).
  rewrite summary_source_name, slen_zero, bool_decide_false, !flag_ok_canonical by done.
  rewrite !andb_true_iff. repeat split.
  - by apply Z.leb_le.
  - destruct (branch r) as [b|]; [|done]. apply Z.leb_le, (Hb b), eq_refl.
  - destruct (pullRequestUrl r) as [u|]; [|done]. destruct (Hu u eq_refl) as [Hlen Hv].
    apply andb_true_iff. split; [by apply Z.leb_le|done].
  - destruct (filesChanged r) as [fs|]; [|done]. destruct (Hf fs eq_refl) as [[Hc Hn _] _].
    apply andb_true_iff. simpl. rewrite length_map. split; [by apply Z.leb_le|].
    apply forallb_forall. intros v Hv. apply in_map_iff in Hv as (f & <- & Hin).
    rewrite List.Forall_forall in Hn. destruct (Hn f Hin) as [Hne Hlen]. simpl.
    rewrite slen_zero, bool_decide_false by done. by apply Z.leb_le.
Qed.

Lemma flag_true f : flag_canonical f -> true_flag (json_is_true (JBool <$> f)) = f.
Proof. by intros [-> | ->]. Qed.

(** What the second normalisation cannot see: truncation of a list that was dropped whole. *)
Definition truncation_recorded (r : SessionResult) : Prop :=
  filesChanged r = None -> filesChangedTruncated r = None.

Lemma shrink_fits fuel r :
  file_count r = O \/ result_bytes r <= MAX_SESSION_RESULT_BYTES -> shrink_files fuel r = r.
Proof.
  intros H. destruct fuel as [|fuel]; [done|]. cbn [shrink_files]. unfold file_count in H.
  destruct (filesChanged r) as [[|x rest]|]; [done| |done].
  destruct (Z.ltb_spec MAX_SESSION_RESULT_BYTES (result_bytes r)); [|done]. simpl in H. lia.
Qed.

Lemma normalize_files_id r input :
  canonical r -> truncation_recorded r -> result_json r = JObject input ->
  normalize_files input = (filesChanged r, filesChangedTruncated r).
Proof.
  intros [_ _ _ _ Hf Hft] Hrec E. unfold normalize_files.
  destruct (result_json_get r input E) as (_ & _ & _ & _ & _ & -> & ->).
  destruct (filesChanged r) as [fs|] eqn:Efs; simpl; [|by rewrite Hrec].
  destruct (Hf fs eq_refl) as [Hok Hs].
  rewrite (collect_files_id fs [] false) by done. simpl.
  rewrite toSorted_id, length_map by done.
  destruct (Z.ltb_spec MAX_SESSION_RESULT_FILES (Z.of_nat (length fs))); [destruct Hok; lia|]. simpl.
  rewrite flag_true by done. destruct fs; by simpl.
Qed.

Lemma canonical_fixpoint r :
  canonical r -> truncation_recorded r ->
  file_count r = O \/ result_bytes r <= MAX_SESSION_RESULT_BYTES ->
  normalizeSessionResult (result_json r) = Some r.
Proof.
  intros Hc Hrec Hsize. destruct (result_json r) as [| | | | |input] eqn:E; try done.
  unfold normalizeSessionResult. rewrite (normalize_files_id r) by done.
  destruct Hc as [[Hs1 Hs2] Ht Hb Hu Hf Hft].
  destruct (result_json_get r input E) as (-> & -> & -> & -> & -> & _ & _).
  rewrite summary_source_name. simpl. rewrite truncate_id, slen_zero, bool_decide_false by done.
  rewrite (proj2 (Z.ltb_ge _ _)) by done. simpl. rewrite flag_true by done.
  assert (normalize_branch (JString <$> branch r) = branch r) as ->.
  { destruct (branch r) as [b|]; [|done]. destruct (Hb b eq_refl). simpl.
    by rewrite slen_zero, bool_decide_false, (proj2 (Z.leb_le _ _)) by done. }
  assert (normalize_url (JString <$> pullRequestUrl r) = pullRequestUrl r) as ->.
  { destruct (pullRequestUrl r) as [u|]; [|done]. destruct (Hu u eq_refl) as [? Hv]. simpl.
    by rewrite Hv, (proj2 (Z.leb_le _ _)) by done. }
  replace (mkSessionResult _ _ _ _ _ _ _) with r by (by destruct r).
  by rewrite shrink_fits.
Qed.

(** A normalised result is canonical: the wire predicate accepts it, its
    file list has at most 256 distinct names in code-unit order, and normalising
    it again changes nothing (unless all of its files were dropped as too long,
    when the second pass forgets that some were). *)
Theorem normalized_result_canonical v r :
  normalizeSessionResult v = Some r ->
  isSessionResult (result_json r) = true /\
  (forall files, filesChanged r = Some files ->
     Z.of_nat (length files) <= MAX_SESSION_RESULT_FILES /\ List.NoDup files /\ files_sorted files) /\
  ((filesChanged r = None -> filesChangedTruncated r = None) ->
   normalizeSessionResult (result_json r) = Some r).
Proof.
  intros H. apply normalize_canonical in H as [Hc Hsize]. repeat split.
  - by apply canonical_accepted.
  - destruct (ca_files r Hc files); [done|]. by apply fo_count.
  - destruct (ca_files r Hc files); [done|]. by apply fo_nodup.
  - by destruct (ca_files r Hc files).
  - intros Hrec. by apply canonical_fixpoint.
Qed.
End results.

(** ** Size of the document *)
Lemma json_escape_bytes c : utf8_length (json_escape c) <= 6 * utf8_length (String c "").
Proof. destruct c as [[] [] [] [] [] [] [] []]; vm_compute; discriminate. Qed.

Lemma json_chars_bytes s : utf8_length (json_chars s) <= 6 * utf8_length s.
Proof.
  induction s as [|c s IH]; [done|]. cbn [json_chars]. rewrite utf8_length_app.
  pose proof (json_escape_bytes c) as H. cbn [utf8_length] in *. lia.
Qed.

Lemma json_quote_bytes s : utf8_length (json_quote s) <= 2 + 6 * utf8_length s.
Proof.
  unfold json_quote. rewrite !utf8_length_app. pose proof (json_chars_bytes s).
  change (utf8_length quote) with 1. lia.
Qed.

Lemma json_member_bytes key text :
  utf8_length (json_member key text) = 2 + utf8_length (json_quote key) + utf8_length text.
Proof.
  unfold json_member. rewrite !utf8_length_app.
  change (utf8_length ",") with 1. change (utf8_length ":") with 1. lia.
Qed.

Lemma flag_member_bytes key flag :
  utf8_length (flag_member key flag) <= 6 + utf8_length (json_quote key).
Proof.
  pose proof (utf8_length_nonneg (json_quote key)).
  destruct flag; simpl flag_member; [|change (utf8_length "") with 0; lia].
  rewrite json_member_bytes. change (utf8_length "true") with 4. lia.
Qed.

Lemma text_member_bytes key v :
  utf8_length (match v with Some b => json_member key (json_quote b) | None => "" end) <=
  4 + utf8_length (json_quote key) + 6 * utf8_length (opt_or v "").
Proof.
  pose proof (utf8_length_nonneg (json_quote key)).
  destruct v as [b|]; simpl opt_or; [|change (utf8_length "") with 0; lia].
  rewrite json_member_bytes. pose proof (json_quote_bytes b). lia.
Qed.

Lemma files_member_bytes r :
  file_count r = O ->
  utf8_length (match filesChanged r with
               | Some files => json_member "filesChanged" ("[" ++ json_join files ++ "]")
               | None => "" end) <= 18.
Proof. unfold file_count. destruct (filesChanged r) as [[|]|]; [|done|]; vm_compute; discriminate. Qed.

Lemma fileless_bytes r :
  file_count r = O ->
  result_bytes r <= 143 + 6 * (utf8_length (summary r) + utf8_length (opt_or (branch r) "") +
                               utf8_length (opt_or (pullRequestUrl r) "")).
Proof.
  intros Hf. unfold result_bytes, stringify_result. rewrite !utf8_length_app.
  pose proof (json_quote_bytes (summary r)).
  assert (utf8_length (json_member "summarySource" (json_quote (source_name (summarySource r)))) <= 26)
    by (destruct (summarySource r); vm_compute; discriminate).
  pose proof (flag_member_bytes "summaryTruncated" (summaryTruncated r)).
  pose proof (flag_member_bytes "filesChangedTruncated" (filesChangedTruncated r)).
  pose proof (text_member_bytes "branch" (branch r)).
  pose proof (text_member_bytes "pullRequestUrl" (pullRequestUrl r)).
  pose proof (files_member_bytes r Hf).
  change (utf8_length "{") with 1. change (utf8_length "}") with 1. change (utf8_length ":") with 1.
  change (utf8_length (json_quote "summary")) with 9.
  change (utf8_length (json_quote "summaryTruncated")) with 18 in *.
  change (utf8_length (json_quote "filesChangedTruncated")) with 23 in *.
  change (utf8_length (json_quote "branch")) with 8 in *.
  change (utf8_length (json_quote "pullRequestUrl")) with 16 in *.
  lia.
Qed.

Section size.
Context {UP : UrlParse}.

(** The size of a normalised result: while it lists files it fits the
    32 KiB budget; without files it can exceed it, by escaping alone, but never
    reaches 43,152 bytes. *)
Theorem normalized_result_size v r :
  normalizeSessionResult v = Some r ->
  (file_count r <> O -> result_bytes r <= MAX_SESSION_RESULT_BYTES) /\ result_bytes r <= 43151.
Proof.
  intros H. apply normalize_canonical in H as [[[_ Hs] _ Hb Hu _ _] Hsize].
  split; [naive_solver|]. destruct Hsize as [Hnone|]; [|unfold MAX_SESSION_RESULT_BYTES in *; lia].
  pose proof (fileless_bytes r Hnone) as H.
  assert (utf8_length (opt_or (branch r) "") <= MAX_SESSION_RESULT_BRANCH_BYTES).
  { destruct (branch r) as [b|]; [apply (Hb b eq_refl)|done]. }
  assert (utf8_length (opt_or (pullRequestUrl r) "") <= MAX_SESSION_RESULT_URL_BYTES).
  { destruct (pullRequestUrl r) as [u|]; [apply (Hu u eq_refl)|done]. }
  unfold MAX_SESSION_RESULT_SUMMARY_BYTES, MAX_SESSION_RESULT_BRANCH_BYTES,
    MAX_SESSION_RESULT_URL_BYTES in *. lia.
Qed.
End size.

(** ** Witnesses *)

(** A URL parser that knows the two schemes the code accepts. *)
Definition scheme_url : UrlParse := fun s =>
  if String.prefix "http://" s then Some "http:" else if String.prefix "https://" s then Some "https:" else None.

Definition example_report : json := JObject [
  ("summary", JString "done"); ("summarySource", JString "agent"); ("branch", JString "fix");
  ("pullRequestUrl", JString "https://example.test/1");
  ("filesChanged", JArray [JString "b"; JString "a"; JNull; JString "b"])].

Definition example_result : SessionResult :=
  mkSessionResult "done" summary_agent None (Some "fix") (Some ["a"; "b"]) None
    (Some "https://example.test/1").

Lemma normalized_result_canonical_witness :
  normalizeSessionResult (UP := scheme_url) (result_json example_result) = Some example_result.
Proof.
  apply (normalized_result_canonical (UP := scheme_url) example_report example_result); [reflexivity|].
  discriminate.
Defined.

Lemma normalized_result_size_witness : result_bytes example_result <= 43151.
Proof.
  apply (normalized_result_size (UP := scheme_url) example_report example_result). reflexivity.
Defined.

(** A report of unprintable characters, each escaped into six bytes. *)
Definition control_text (n : nat) : string := repeat_char "001"%char n.

Definition oversized_report : json := JObject [
  ("summary", JString (control_text 4096)); ("summarySource", JString "agent");
  ("branch", JString (control_text 1024));
  ("pullRequestUrl", JString ("http://h/" ++ control_text 2000))].

(** The storage budget can be exceeded: a peer's result whose summary,
    branch and URL are within their own limits normalises to a document of more
    than 32 KiB, because the size loop drops only files. *)
Theorem normalized_result_over_budget :
  exists r, normalizeSessionResult (UP := scheme_url) oversized_report = Some r /\
    MAX_SESSION_RESULT_BYTES < result_bytes r.
Proof. eexists. split; [vm_compute; reflexivity|]. vm_compute. reflexivity. Qed.
