(* ===== verification/LogSettings.v ===== *)
(** * Session log settings

    modules/shared/src/session-log-settings.ts and [assignLogSettings] of
    services/api/src/control-plane-session-log-settings.ts: the upload knobs
    snapshotted into an assignment.  Numbers are finite integers ([Math.trunc]
    and [Number.isFinite] are the identity and [true] on them). *)

From Stdlib Require Import ZArith Lia String.
From stdpp Require Import base strings list.
From S2P Require Import Prelude Types.

Local Open Scope string_scope.
Local Open Scope Z_scope.

Definition SESSION_LOG_UPLOAD_MODES : list string := ["off"; "subscribed"; "always"].

Definition DEFAULT_SESSION_LOG_SETTINGS : SessionLogSettings :=
  LogSettings.mkSessionLogSettings "off" 256 500 60000 60000.

Definition DEFAULT_SESSION_RETENTION_DAYS : Z := 30.
Definition SESSION_RETENTION_DAYS_MIN : Z := 1.
Definition SESSION_RETENTION_DAYS_MAX : Z := 3650.

Definition isSessionLogUploadMode (value : option string) : bool :=
  match value with Some m => existsb (str_eqb m) SESSION_LOG_UPLOAD_MODES | None => false end.

Definition clampInt (value lo hi : Z) : Z := Z.min hi (Z.max lo value).

Definition normalizeSessionLogSettings (over : option StoredLogSettings) : SessionLogSettings :=
  let d := DEFAULT_SESSION_LOG_SETTINGS in
  let mode := o ← over; StoredLogs.uploadMode o in
  LogSettings.mkSessionLogSettings
    (if isSessionLogUploadMode mode then opt_or mode "" else LogSettings.uploadMode d)
    (clampInt (opt_or (o ← over; StoredLogs.batchMaxKb o) (LogSettings.batchMaxKb d)) 1 (5 * 1024))
    (clampInt (opt_or (o ← over; StoredLogs.batchMaxLines o) (LogSettings.batchMaxLines d)) 1 50000)
    (clampInt (opt_or (o ← over; StoredLogs.batchMaxWaitMs o) (LogSettings.batchMaxWaitMs d))
       1000 (5 * 60000))
    (clampInt (opt_or (o ← over; StoredLogs.controlPlanePollMs o) (LogSettings.controlPlanePollMs d))
       5000 (5 * 60000)).

Definition isSessionRetentionDays (value : Z) : bool :=
  (SESSION_RETENTION_DAYS_MIN <=? value) && (value <=? SESSION_RETENTION_DAYS_MAX).

(** [None] is the thrown error. *)
Definition normalizeControlPlaneSessionLogSettings (over : option StoredLogSettings)
    : option (SessionLogSettings * Z) :=
  let days := opt_or (o ← over; StoredLogs.sessionRetentionDays o) DEFAULT_SESSION_RETENTION_DAYS in
  if isSessionRetentionDays days then Some (normalizeSessionLogSettings over, days) else None.

Definition assignLogSettings (state : ControlPlaneState) : option SessionLogSettings :=
  fst <$> normalizeControlPlaneSessionLogSettings (Plane.sessionLogSettings state).

(** The settings as persisted. *)
Definition stored_settings (s : SessionLogSettings) (days : Z) : StoredLogSettings :=
  StoredLogs.mkStoredLogSettings (Some (LogSettings.uploadMode s)) (Some (LogSettings.batchMaxKb s))
    (Some (LogSettings.batchMaxLines s)) (Some (LogSettings.batchMaxWaitMs s))
    (Some (LogSettings.controlPlanePollMs s)) (Some days).

Lemma clampInt_id v lo hi : lo <= v <= hi -> clampInt v lo hi = v.
Proof. unfold clampInt. lia. Qed.

Lemma clampInt_range v lo hi : lo <= hi -> lo <= clampInt v lo hi <= hi.
Proof. unfold clampInt. lia. Qed.

(** Normalised settings are a fixed point: persisting and reading them back changes nothing. *)
Lemma normalized_settings_stable over s days :
  normalizeControlPlaneSessionLogSettings over = Some (s, days) ->
  normalizeControlPlaneSessionLogSettings (Some (stored_settings s days)) = Some (s, days).
Proof.
  unfold normalizeControlPlaneSessionLogSettings. simpl.
  set (d := opt_or _ _). destruct (isSessionRetentionDays d) eqn:E; [|done].
  intros [= <- <-]. rewrite E. f_equal. f_equal. unfold normalizeSessionLogSettings. simpl.
  rewrite !(clampInt_id (clampInt _ _ _)) by (apply clampInt_range; lia).
  destruct (isSessionLogUploadMode (over ≫= StoredLogs.uploadMode)) eqn:M; simpl; [|done].
  destruct (over ≫= StoredLogs.uploadMode); [|done]. simpl in *. by rewrite M.
Qed.
