(* ===== verification/Worktrees.v ===== *)
(** * Worktrees, checkouts and slots of the in-memory plane

    services/api/src: control-plane-worktrees.ts, control-plane-worktree-release.ts,
    control-plane-scheduled-lease.ts, control-plane-reconnect-session.ts,
    control-plane-infrastructure-retry.ts, control-plane-workspace-slot-retirement.ts
    and the persistence helpers of control-plane-state.ts, without storage.

    The source mutates the session and worktree objects its maps hold; a
    mutation is written back under the object's key with [JsMap.set], which
    keeps the key's position.  An operation that can throw returns [option]
    next to the state it leaves. *)

From Stdlib Require Import ZArith Lia Ascii String.
From stdpp Require Import base strings list.
From S2P Require Import Prelude DateTime Types Ordering TransitionPlanner AccountLeases.

Local Open Scope string_scope.
Local Open Scope Z_scope.

(** ** State helpers *)

(** [state.onHostMessage?.(hostId, msg)]. *)
Definition emit (state : ControlPlaneState) (hostId : string) (msg : HostWireMessage) : ControlPlaneState :=
  state <| Plane.outbox := (Plane.outbox state ++ [(hostId, msg)])%list |>.

(** [state.idFactory()]. *)
Definition draw_id (state : ControlPlaneState) : string * ControlPlaneState :=
  (Plane.idFactory state (Plane.idsDrawn state), state <| Plane.idsDrawn := Plane.idsDrawn state + 1 |>).

(** [state.attemptIdFactory()]. *)
Definition draw_attempt (state : ControlPlaneState) : string * ControlPlaneState :=
  (Plane.attemptIdFactory state (Plane.attemptsDrawn state),
   state <| Plane.attemptsDrawn := Plane.attemptsDrawn state + 1 |>).

(** [createSessionApiKey()]: random bytes, drawn from the supply of the state. *)
Definition createSessionApiKey (state : ControlPlaneState) : SessionApiKey * ControlPlaneState :=
  (Plane.sessionApiKeys state (Plane.apiKeysDrawn state),
   state <| Plane.apiKeysDrawn := Plane.apiKeysDrawn state + 1 |>).

Definition queueSessionArchive (state : ControlPlaneState) (id : string) : ControlPlaneState :=
  state <| Plane.archiveRequests := (Plane.archiveRequests state ++ [id])%list |>.

Definition forget_ack (state : ControlPlaneState) (id : string) : ControlPlaneState :=
  state <| Plane.pendingAcks := JsMap.delete id (Plane.pendingAcks state) |>.

Definition set_worktree (state : ControlPlaneState) (k : string) (w : WorktreeRecord) : ControlPlaneState :=
  state <| Plane.worktrees := JsMap.set k w (Plane.worktrees state) |>.

Definition set_slot (state : ControlPlaneState) (k : string) (w : WorkspaceSlotRecord) : ControlPlaneState :=
  state <| Plane.workspaceSlots := JsMap.set k w (Plane.workspaceSlots state) |>.

(** ** Persistence *)
Definition retainsActiveHostClaim (s : SessionRecord) : bool :=
  bool_decide (Session.status s = running) ||
  (bool_decide (Session.status s = cancelled) &&
   (nul_present (Session.worktreeId s) || bool_decide (Session.mainCheckoutLease s = Some true))) ||
  (bool_decide (Session.status s = timed_out) &&
   (is_some (Session.providerAccountLease s) || is_some (Session.hostAssignmentLease s) ||
    is_some (Session.timedOutHostId s))).

Definition sessionForPersistence (session : SessionRecord) : SessionRecord :=
  let stored :=
    if retainsActiveHostClaim session then session
    else session <| Session.activeHostId := None |> <| Session.activeHostOrder := None |> in
  if bool_decide (Session.status stored = running) then stored
  else stored <| Session.sessionApiKeyHash := None |>.

Definition persistSession (state : ControlPlaneState) (s : SessionRecord) : ControlPlaneState :=
  update_session state (Session.id s) (sessionForPersistence s).

Definition persistWorktree (state : ControlPlaneState) (w : WorktreeRecord) : ControlPlaneState :=
  set_worktree state (Worktree.id w) w.

(** A session as the API shows it: without the internal fields. *)
Record PublicSession := mkPublicSession {
  publicRecord : SessionRecord;
  publicRepositoryId : option string;
  publicUrl : string;
}.

Definition toPublic (state : ControlPlaneState) (s : SessionRecord) (detail : bool) : PublicSession :=
  let p := s <| Session.principalId := None |> <| Session.workspaceSetupScript := None |>
    <| Session.sessionApiKeyHash := None |> <| Session.cancelledByDrainOperationId := None |>
    <| Session.activeHostId := None |> <| Session.activeHostOrder := None |>
    <| Session.primaryCommandStartState := None |> <| Session.descendantCount := None |>
    <| Session.terminalHookHandoff := None |> <| Session.terminalHookHandoffSettled := None |>
    <| Session.terminalHookHandoffExpiredAt := None |>
    <| Session.terminalHookLifecycleEnqueuedAt := None |> <| Session.retentionToken := None |>
    <| Session.retentionClaimedAt := None |> <| Session.outputsUploadExpiresAt := None |>
    <| Session.infrastructureRetryAttemptId := None |> in
  mkPublicSession
    (if detail then p else p <| Session.result := None |> <| Session.resolvedArgv := None |>)
    (if is_some (truthy_opt (Session.workspacePoolId s)) then None else Some (Session.repositoryId s))
    (Plane.publicBaseUrl state ++ "/sessions/" ++ Session.id s).

(** ** Worktrees *)
Definition seedWorktree (state : ControlPlaneState) (record : WorktreeRecord) : ControlPlaneState :=
  persistWorktree state record.

Definition listWorktrees (state : ControlPlaneState) : list WorktreeRecord :=
  JsMap.values (Plane.worktrees state).

Definition getWorktree (state : ControlPlaneState) (id : string) : option WorktreeRecord :=
  JsMap.get id (Plane.worktrees state).

Definition tryClaimWorktree (state : ControlPlaneState) (worktreeId sessionId now : string)
    : bool * ControlPlaneState :=
  match JsMap.get worktreeId (Plane.worktrees state) with
  | None => (false, state)
  | Some wt =>
      if negb (bool_decide (Worktree.status wt = idle)) || negb (Worktree.online wt)
      then (false, state)
      else
        let wt := wt <| Worktree.status := busy |> <| Worktree.currentSessionId := Val sessionId |>
                     <| Worktree.lastAssignedAt := Val now |> in
        (true, persistWorktree (set_worktree state worktreeId wt) wt)
  end.

Definition host_unavailable (state : ControlPlaneState) (hostId : string) : bool :=
  existsb (str_eqb hostId) (Plane.drainingHosts state) ||
  JsMap.has hostId (Plane.disconnectedHosts state).

Definition releaseWorktree (state : ControlPlaneState) (worktreeId : string) : ControlPlaneState :=
  match JsMap.get worktreeId (Plane.worktrees state) with
  | None => state
  | Some wt =>
      let wt := wt <| Worktree.status := idle |> <| Worktree.currentSessionId := Null |> in
      let wt := if host_unavailable state (Worktree.hostId wt)
                then wt <| Worktree.online := false |> else wt in
      persistWorktree (set_worktree state worktreeId wt) wt
  end.

(** [const wt = state.worktrees.get(id); if (wt?.currentSessionId === session.id) releaseWorktree]. *)
Definition release_if_owner (state : ControlPlaneState) (worktreeId sessionId : string) : ControlPlaneState :=
  match JsMap.get worktreeId (Plane.worktrees state) with
  | Some wt =>
      if bool_decide (Worktree.currentSessionId wt = Val sessionId)
      then releaseWorktree state worktreeId else state
  | None => state
  end.

(** ** Main checkouts *)
Definition holdsScheduledLeaseLocal (state : ControlPlaneState) (s : SessionRecord) : bool :=
  match truthy_nul (Session.hostId s), truthy_opt (Session.assignmentConnectionId s) with
  | Some hostId, Some connectionId =>
      is_true_opt (Session.mainCheckoutLease s) &&
      match JsMap.get (main_checkout_key hostId (Session.repositoryId s)) (Plane.mainCheckoutLeases state) with
      | Some lease =>
          str_eqb (Checkout.sessionId lease) (Session.id s) &&
          str_eqb (Checkout.connectionId lease) connectionId
      | None => false
      end
  | _, _ => false
  end.

Definition releaseScheduledLeaseLocal (state : ControlPlaneState) (s : SessionRecord)
    : bool * ControlPlaneState :=
  match truthy_nul (Session.hostId s) with
  | Some hostId =>
      if holdsScheduledLeaseLocal state s
      then (true, state <| Plane.mainCheckoutLeases :=
                      JsMap.delete (main_checkout_key hostId (Session.repositoryId s))
                        (Plane.mainCheckoutLeases state) |>)
      else (false, state)
  | None => (false, state)
  end.

(** [delete session.mainCheckoutLease; delete session.assignmentConnectionId; ...]. *)
Definition drop_checkout_fields (s : SessionRecord) : SessionRecord :=
  s <| Session.mainCheckoutLease := None |> <| Session.assignmentConnectionId := None |>
    <| Session.assignmentSentAt := None |> <| Session.ackReceivedAt := None |>
    <| Session.reconnectDeadlineAt := None |>.

(** ** Workspace slots *)
Definition removeReleasedRetiredWorkspaceSlot (state : ControlPlaneState) (slotId : string)
    : bool * ControlPlaneState :=
  match JsMap.get slotId (Plane.workspaceSlots state) with
  | Some slot =>
      if negb (is_true_opt (Slot.retired slot)) || nul_present (Slot.currentSessionId slot)
      then (false, state)
      else (true, state <| Plane.workspaceSlots := JsMap.delete slotId (Plane.workspaceSlots state) |>)
  | None => (false, state)
  end.

(** [releaseWorkspaceSlotLocal] of control-plane-messages.ts; returns the mutated session. *)
Definition releaseWorkspaceSlotLocal (state : ControlPlaneState) (s : SessionRecord)
    (errorMessage : option string) : ControlPlaneState * SessionRecord :=
  match truthy_nul (Session.workspaceSlotId s) with
  | None => (state, s)
  | Some slotId =>
      let state :=
        match JsMap.get slotId (Plane.workspaceSlots state) with
        | Some slot =>
            if bool_decide (Slot.currentSessionId slot = Val (Session.id s)) then
              (removeReleasedRetiredWorkspaceSlot
                 (set_slot state slotId
                    (slot <| Slot.status := if is_some errorMessage then error else idle |>
                          <| Slot.currentSessionId := Null |> <| Slot.errorMessage := errorMessage |>))
                 slotId).2
            else state
        | None => state
        end in
      (state, s <| Session.workspaceSlotId := Null |> <| Session.workspaceSlotLease := None |>)
  end.

(** [releaseWorkspaceSlot] of control-plane-running-timeout.ts. *)
Definition releaseWorkspaceSlot (state : ControlPlaneState) (s : SessionRecord)
    : ControlPlaneState * SessionRecord :=
  match truthy_nul (Session.workspaceSlotId s) with
  | None => (state, s)
  | Some slotId =>
      let state :=
        match JsMap.get slotId (Plane.workspaceSlots state) with
        | Some slot =>
            if bool_decide (Slot.currentSessionId slot = Val (Session.id s)) then
              set_slot state slotId
                (slot <| Slot.status := idle |> <| Slot.currentSessionId := Null |>
                      <| Slot.errorMessage := None |>)
            else state
        | None => state
        end in
      (state, s <| Session.workspaceSlotId := Null |> <| Session.workspaceSlotLease := None |>)
  end.

(** ** Requeueing after a lost host *)
Definition queueReconnectSession (s : SessionRecord) (reason : string) : SessionRecord :=
  s <| Session.ackReceivedAt := None |> <| Session.reconnectDeadlineAt := None |>
    <| Session.assignmentConnectionId := None |> <| Session.assignmentSentAt := None |>
    <| Session.startedAt := None |> <| Session.mainCheckoutLease := None |>
    <| Session.workspaceSlotLease := None |> <| Session.providerAccountLease := None |>
    <| Session.activeHostId := None |> <| Session.activeHostOrder := None |>
    <| Session.result := None |> <| Session.primaryCommandStartState := None |>
    <| Session.sessionApiKeyHash := None |>
    <| Session.status := queued |> <| Session.hostId := Null |> <| Session.worktreeId := Null |>
    <| Session.workspaceSlotId := Null |> <| Session.errorMessage := Some reason |>.

Definition HOST_LOSS_RETRY_REASON : string := "host was lost before command launch; retrying once".
Definition HOST_LOSS_TERMINAL_REASON : string :=
  "host lost after command authorization or retry exhaustion".
Definition TERMINAL_HOOK_HANDOFF_MAX_AGE_MS : Z := 24 * 60 * 60 * 1000.

Definition canRetryHostLoss (s : SessionRecord) : bool :=
  bool_decide (Session.primaryCommandStartState s = Some start_pending) &&
  (opt_or (Session.infrastructureRetryCount s) 0 <? 1).

Definition queueHostLossRetry (s : SessionRecord) : SessionRecord :=
  let next := (queueReconnectSession s HOST_LOSS_RETRY_REASON)
    <| Session.infrastructureRetryCount := Some (opt_or (Session.infrastructureRetryCount s) 0 + 1) |>
    <| Session.lastInfrastructureErrorCode := Some host_lost |> in
  match truthy_opt (Session.attemptId s) with
  | Some attempt => next <| Session.infrastructureRetryAttemptId := Some attempt |>
  | None => next
  end.

Section hostloss.
Context {DP : DateParse}.

(** [new Date(Date.parse(state.now()) + age).toISOString()]. *)
Definition now_plus (state : ControlPlaneState) (ms : Z) : option string :=
  date_iso (date_plus (Plane.now state) ms).

(** The handoff, if any ([None] inside); the outer [None] is a thrown error. *)
Definition hostLostTerminalHookHandoff (state : ControlPlaneState) (s : SessionRecord)
    : option (option TerminalHookHandoff) * ControlPlaneState :=
  match truthy_nul (Session.hostId s) with
  | None => (Some None, state)
  | Some hostId =>
      let '(handoffId, state) := draw_id state in
      (expiresAt ← now_plus state TERMINAL_HOOK_HANDOFF_MAX_AGE_MS;
       Some (Some (Handoff.mkTerminalHookHandoff handoffId (truthy_opt (Session.attemptId s)) hostId
         (Session.repositoryId s) (nul_opt (Session.worktreeId s))
         (if is_true_opt (Session.mainCheckoutLease s) then Some true else None) failed
         (Some "host_lost") expiresAt (Session.ref s) (Session.metadata s))), state)
  end.

Definition handoff_holds_checkout (handoff : option TerminalHookHandoff) : bool :=
  match handoff with Some h => is_true_opt (Handoff.mainCheckoutLease h) | None => false end.

Definition finishHostLostSession (state : ControlPlaneState) (s : SessionRecord)
    (handoff : option TerminalHookHandoff) : SessionRecord * ControlPlaneState :=
  let holds := handoff_holds_checkout handoff in
  let next := s <| Session.status := failed |> <| Session.completedAt := Some (Plane.now state) |>
    <| Session.errorCode := Some "host_lost" |>
    <| Session.errorMessage := Some HOST_LOSS_TERMINAL_REASON |> <| Session.worktreeId := Null |>
    <| Session.hostId := if holds then match Session.hostId s with Undef => Null | h => h end
                         else Null |> in
  let next := match handoff with
              | Some h => next <| Session.terminalHookHandoff := Some h |>
              | None => next
              end in
  let next := if holds then next else drop_checkout_fields next in
  let next := match handoff with
              | Some _ => next
              | None => next <| Session.activeHostId := None |> <| Session.activeHostOrder := None |>
              end in
  let next := next <| Session.primaryCommandStartState := None |>
    <| Session.providerAccountLease := None |> <| Session.hostAssignmentLease := None |> in
  (next, match handoff with Some _ => state | None => queueSessionArchive state (Session.id s) end).

(** [undefined] selects the default handoff, so the session's own one is minted. *)
Definition finishHostLostWorkspaceSession (state : ControlPlaneState) (s : SessionRecord)
    : option SessionRecord * ControlPlaneState :=
  let '(handoff, state) := hostLostTerminalHookHandoff state s in
  match handoff with
  | None => (None, state)
  | Some handoff =>
      let '(next, state) := finishHostLostSession state s handoff in
      (Some (next <| Session.workspaceSlotId := Undef |> <| Session.workspaceSlotLease := None |>
                  <| Session.hostId := Null |>), state)
  end.

(** ** A host goes offline *)

(** One worktree of the host: [None] when the clock cannot be read. *)
Definition offline_worktree (state : ControlPlaneState) (reason : string) (k : string) (wt : WorktreeRecord)
    : option (list string) * ControlPlaneState :=
  let wt := wt <| Worktree.online := false |> in
  let state := set_worktree state k wt in
  if negb (bool_decide (Worktree.status wt = busy)) then (Some [], state) else
  match truthy_nul (Worktree.currentSessionId wt) with
  | None => (Some [], persistWorktree state wt)
  | Some sid =>
      match JsMap.get sid (Plane.sessions state) with
      | Some s =>
          if negb (bool_decide (Session.status s = running)) then (Some [], state)
          else if is_some (truthy_opt (Session.ackReceivedAt s)) then
            match now_plus state (Plane.reconnectGraceMs state) with
            | None => (None, state)
            | Some deadline =>
                (Some [], persistWorktree
                   (update_session state sid (s <| Session.reconnectDeadlineAt := Some deadline |>)) wt)
            end
          else
            let state := releaseWorktree state (Worktree.id wt) in
            let '(state, s) := releaseProviderAccountLease state s in
            let s := s <| Session.status := queued |> <| Session.worktreeId := Null |>
                       <| Session.hostId := Null |> <| Session.errorMessage := Some reason |> in
            (Some [sid], forget_ack (update_session state sid s) sid)
      | None => (Some [], state)
      end
  end.

(** One scheduled session of the host. *)
Definition offline_scheduled (state : ControlPlaneState) (hostId reason : string) (k : string) (s : SessionRecord)
    : option (list string) * ControlPlaneState :=
  if negb (bool_decide (Session.hostId s = Val hostId)) ||
     negb (is_true_opt (Session.mainCheckoutLease s)) || negb (bool_decide (Session.status s = running))
  then (Some [], state)
  else if is_some (truthy_opt (Session.ackReceivedAt s)) then
    match now_plus state (Plane.reconnectGraceMs state) with
    | None => (None, state)
    | Some deadline =>
        (Some [], update_session state k (s <| Session.reconnectDeadlineAt := Some deadline |>))
    end
  else
    let state := (releaseScheduledLeaseLocal state s).2 in
    let '(state, s) := releaseProviderAccountLease state s in
    (Some [Session.id s],
     forget_ack (update_session state (Session.id s) (queueReconnectSession s reason)) (Session.id s)).

(** [for (const x of map.values())]: each key is visited with its value at that
    time; a thrown error stops the loop. *)
Fixpoint for_each {A V} (look : ControlPlaneState -> JsMap.t V)
    (body : ControlPlaneState -> string -> V -> option (list A) * ControlPlaneState)
    (keys : list string) (state : ControlPlaneState) : option (list A) * ControlPlaneState :=
  match keys with
  | [] => (Some [], state)
  | k :: rest =>
      match JsMap.get k (look state) with
      | None => for_each look body rest state
      | Some v =>
          match body state k v with
          | (None, state) => (None, state)
          | (Some out, state) =>
              let '(more, state) := for_each look body rest state in
              ((fun l => (out ++ l)%list) <$> more, state)
          end
      end
  end.

Definition offlineHostAndRequeue (state : ControlPlaneState) (hostId reason : string)
    : option (list string) * ControlPlaneState :=
  let '(requeued, state) :=
    for_each Plane.worktrees
      (fun st k wt => if negb (str_eqb (Worktree.hostId wt) hostId) then (Some [], st)
                      else offline_worktree st reason k wt)
      (JsMap.keys (Plane.worktrees state)) state in
  match requeued with
  | None => (None, state)
  | Some first =>
      let '(more, state) :=
        for_each Plane.sessions (fun st k s => offline_scheduled st hostId reason k s)
          (JsMap.keys (Plane.sessions state)) state in
      ((fun l => (first ++ l)%list) <$> more, state)
  end.
End hostloss.
