(* ===== verification/Assignment.v ===== *)
(** * Assignment of prompt sessions and the sweeps of the in-memory plane

    services/api/src/control-plane-assign.ts (the storage-less operations),
    control-plane-session-output-prompt.ts, control-plane-running-timeout.ts,
    control-plane-cancel-local.ts and modules/shared/src/prior-context.ts. *)

From Stdlib Require Import ZArith Lia Ascii String.
From stdpp Require Import base strings list.
From S2P Require Import Prelude DateTime Types Ordering TransitionPlanner ProviderCascade.
From S2P Require Import CommandResume SessionTarget AccountLeases Placement LogSettings Worktrees.

Local Open Scope string_scope.
Local Open Scope Z_scope.

(** ** Prompt pointers *)
Definition newline : string := String "010"%char "".

(** [s.includes(needle)]. *)
Fixpoint string_includes (needle s : string) : bool :=
  String.prefix needle s || match s with String _ s' => string_includes needle s' | "" => false end.

(** [s.endsWith(suffix)]. *)
Fixpoint string_ends_with (suffix s : string) : bool :=
  str_eqb suffix s || match s with String _ s' => string_ends_with suffix s' | "" => false end.

Definition MAX_PROMPT_BYTES : Z := 65536.

Definition PRIOR_CONTEXT_RELATIVE_PATH : string := ".auto-harness/prior-session.md".

Definition PRIOR_CONTEXT_PROMPT_POINTER : string :=
  newline ++ newline ++ "A transcript of the previous session may be available at `" ++
  PRIOR_CONTEXT_RELATIVE_PATH ++
  "` in the working directory. Read or search that file if you need context from the previous run. It is not part of the repository and must not be committed.".

Definition hasPriorContextPointer (prompt : string) : bool :=
  string_includes PRIOR_CONTEXT_PROMPT_POINTER prompt.

Definition appendPriorContextPointer (prompt : string) : string :=
  if hasPriorContextPointer prompt then prompt
  else
    let next := prompt ++ PRIOR_CONTEXT_PROMPT_POINTER in
    if MAX_PROMPT_BYTES <? utf8_length next then prompt else next.

Definition OUTPUT_POINTER : string :=
  "If relevant, you may write the final JSON value to $HARNESS_OUTPUT_FILE and place files to keep in $HARNESS_ARTIFACTS_DIR.".

Definition appendSessionOutputPointer (prompt : string) : string :=
  let tail := newline ++ newline ++ OUTPUT_POINTER in
  if string_ends_with tail prompt then prompt else prompt ++ tail.

(** The branch of [assignmentOutputArgv] that rewrites the appended prompt. *)
Definition replace_prompt (state : ControlPlaneState) (s : SessionRecord) (commandId pointed : string)
    (argv : list string) : list string :=
  if is_true_opt (Cmd.appendPrompt <$> JsMap.get commandId (Plane.commands state)) &&
     bool_decide (last argv = Some (Session.prompt s))
  then (removelast argv ++ [pointed])%list else argv.

Definition assignmentOutputArgv (state : ControlPlaneState) (s : SessionRecord) (commandId : string)
    (argv : list string) (supported : bool) (routeSpec : option SessionResumeSpec) : list string :=
  if negb supported || negb (truthy (Session.prompt s)) then argv
  else
    let pointed := appendSessionOutputPointer (Session.prompt s) in
    if is_true_opt (Session.resumeFallback s) then replace_prompt state s commandId pointed argv
    else
      match truthy_opt (Session.cliResumeRef s), (spec ← routeSpec; Resume.resumeArgvTemplate spec) with
      | Some ref, Some template =>
          materializeResumeArgv template ref pointed
            (is_true_opt (spec ← routeSpec; Resume.appendPromptSeparator spec))
      | _, _ => replace_prompt state s commandId pointed argv
      end.

(** ** Assigning queued prompt sessions *)
Definition touchAccount (state : ControlPlaneState) (id : option string) (at_ : string) : ControlPlaneState :=
  match truthy_opt id with
  | None => state
  | Some id =>
      match JsMap.get id (Plane.providerAccounts state) with
      | None => state
      | Some account =>
          state <| Plane.providerAccounts := JsMap.set id
            (account <| Account.lastAssignedAt := Some at_ |> <| Account.updatedAt := at_ |>)
            (Plane.providerAccounts state) |>
      end
  end.

Definition clearResumePin (s : SessionRecord) : SessionRecord :=
  s <| Session.pinnedHostId := Undef |> <| Session.pinnedProviderAccountId := Undef |>
    <| Session.pinnedTargetIndex := None |> <| Session.pinnedCommandId := None |>
    <| Session.pinExpiresAt := None |> <| Session.cliResumeRef := None |>
    <| Session.resumeSpec := None |> <| Session.resolvedArgv := None |>
    <| Session.resumeFallback := Some true |>
    <| Session.prompt := appendPriorContextPointer (Session.prompt s) |>.

(** [state.connections.get(state.hostConnection.get(hostId)!)?.capabilities] has the feature. *)
Definition host_advertises (state : ControlPlaneState) (hostId capability : string) : bool :=
  hasHostCapability (c ← live_connection state hostId; Connection.capabilities c) capability.

Definition hostAdvertisesPriorContext (state : ControlPlaneState) (hostId : string) : bool :=
  host_advertises state hostId "prior-session-context".
Definition hostAdvertisesSessionSpawn (state : ControlPlaneState) (hostId : string) : bool :=
  host_advertises state hostId "session-spawn".
Definition hostAdvertisesSessionOutputs (state : ControlPlaneState) (hostId : string) : bool :=
  host_advertises state hostId "session-outputs".

(** [{ ...msg, ...resumeWireFields(session, priorContextAvailable) }]. *)
Definition resumeWireFields (s : SessionRecord) (priorContextAvailable : bool) (m : SessionAssign)
    : SessionAssign :=
  match truthy_opt (Session.resumedFromSessionId s) with
  | None => m
  | Some source =>
      if negb (is_true_opt (Session.resumeFallback s))
      then m <| Assign.resumedFromSessionId := Some source |> <| Assign.resume := true |>
             <| Assign.cliResumeRef := Session.cliResumeRef s |>
      else m <| Assign.resumedFromSessionId := Some source |>
             <| Assign.priorContext := if priorContextAvailable then Some source else None |>
  end.

Definition expireQueuedLocal (state : ControlPlaneState) (s : SessionRecord) (nowIso : string)
    : ControlPlaneState :=
  persistSession state
    (s <| Session.status := failed |> <| Session.errorCode := Some "queue_expired" |>
       <| Session.errorMessage := Some "queue TTL expired before capacity became available" |>
       <| Session.completedAt := Some nowIso |>).

(** The session once it holds the worktree.  [clearAbandonedUsageLimitRetryFields]
    deletes [retryAfter] and [retryCount], which [SessionRecord] no longer has. *)
Definition assigned_session (s : SessionRecord) (w : WorktreeRecord) (r : ResolvedSessionRoute)
    (nowIso attemptId : string) (argv : list string) (outputs : bool) (key : option SessionApiKey)
    (lease : option ProviderAccountLease) : SessionRecord :=
  s <| Session.status := running |> <| Session.worktreeId := Val (Worktree.id w) |>
    <| Session.hostId := Val (Worktree.hostId w) |> <| Session.startedAt := Some nowIso |>
    <| Session.resolvedArgv := Some argv |> <| Session.sessionOutputsSupported := Some outputs |>
    <| Session.resumeSpec := opt_else (Session.resumeSpec s) (Some (Target.resumeSpec r)) |>
    <| Session.resolvedRoute := Some (Route.mkResolvedRoute (targetIndex r)
         (truthy_opt (Target.providerId r)) (truthy_opt (Target.providerAccountId r))
         (Target.commandId r) (Worktree.hostId w) (Some (Worktree.id w)) None None attemptId) |>
    <| Session.attemptId := Some attemptId |>
    <| Session.primaryCommandStartState := Some start_pending |>
    <| Session.sessionApiKeyHash := apiKeyHash <$> key |>
    <| Session.providerAccountLease := lease |> <| Session.ackReceivedAt := None |>
    <| Session.errorCode := None |> <| Session.errorMessage := None |>.

(** The [session:assign] frame of an assigned prompt session. *)
Definition assign_message (state : ControlPlaneState) (s : SessionRecord) (w : WorktreeRecord)
    (r : ResolvedSessionRoute) (nowIso attemptId : string) (argv : list string) (outputs : bool)
    (key : option SessionApiKey) (logSettings : SessionLogSettings) : SessionAssign :=
  resumeWireFields s (hostAdvertisesPriorContext state (Worktree.hostId w))
    (Assign.mkSessionAssign (Session.id s) prompt_kind (Some (Session.repositoryId s)) (Session.prompt s)
       (apiKey <$> key) outputs argv (Session.timeout s) (Some (Worktree.id w))
       (Some (opt_or (Session.infrastructureRetryCount s) 0)) None None None None (Session.ref s) None
       false None None (spec ← Session.resumeSpec s; Resume.resumeRefCapture spec) (Session.metadata s)
       (truthy_opt (Target.providerAccountId r)) (Some (Target.commandId r))
       (Some (targetIndex r)) None nowIso attemptId logSettings None).

Record Assignment := mkAssignment { assignedSession : PublicSession; assignedWorktree : WorktreeRecord }.

(** How one pass over the candidates of a session ends. *)
Inductive Attempt := attempt_none | attempt_assigned (a : Assignment) | attempt_threw.

Section assign.
Context {LC : LocaleCompare} {DP : DateParse}.

(** The body of the loop once the worktree is claimed. *)
Definition assign_claimed (state : ControlPlaneState) (s : SessionRecord) (w : WorktreeRecord)
    (r : ResolvedSessionRoute) (nowIso : string) (nowMs : option Z) : Attempt * ControlPlaneState :=
  let '(attemptId, state) := draw_attempt state in
  let outputs := hostAdvertisesSessionOutputs state (Worktree.hostId w) in
  let argv := assignmentOutputArgv state s (Target.commandId r) (Target.resolvedArgv r) outputs
                (Some (Target.resumeSpec r)) in
  let '(key, state) :=
    if hostAdvertisesSessionSpawn state (Worktree.hostId w)
    then let '(k, st) := createSessionApiKey state in (Some k, st) else (None, state) in
  let '(lease, state) :=
    tryAcquireProviderAccountLeaseLocal state s (Target.providerAccountId r) attemptId
      (Worktree.hostId w) [] true in
  if is_some (truthy_opt (Target.providerAccountId r)) && negb (is_some lease)
  then (attempt_none, releaseWorktree state (Worktree.id w))
  else
    let s := assigned_session s w r nowIso attemptId argv outputs key lease in
    let state := update_session state (Session.id s) s in
    let state := touchAccount state (Target.providerAccountId r) nowIso in
    let state := state <| Plane.pendingAcks := JsMap.set (Session.id s)
      (Ack.mkPendingAck (Session.id s) (Some (Worktree.id w)) attemptId nowMs) (Plane.pendingAcks state) |> in
    match assignLogSettings state with
    | None => (attempt_threw, state)
    | Some logSettings =>
        let state := emit state (Worktree.hostId w)
          (msg_assign (assign_message state s w r nowIso attemptId argv outputs key logSettings)) in
        (attempt_assigned (mkAssignment (toPublic state s true)
           (opt_or (JsMap.get (Worktree.id w) (Plane.worktrees state)) w)), state)
    end.

(** [for (const { worktree: candidate, route } of plan.candidates)]. *)
Fixpoint try_candidates (state : ControlPlaneState) (s : SessionRecord) (nowIso : string) (nowMs : option Z)
    (candidates : list (WorktreeRecord * ResolvedSessionRoute)) : Attempt * ControlPlaneState :=
  match candidates with
  | [] => (attempt_none, state)
  | (w, r) :: rest =>
      if negb (hostProviderAccountReady state (Worktree.hostId w) (Target.providerAccountId r)) ||
         negb (accountHasLeaseCapacity state (Target.providerAccountId r))
      then try_candidates state s nowIso nowMs rest
      else
        match tryClaimWorktree state (Worktree.id w) (Session.id s) nowIso with
        | (false, state) => try_candidates state s nowIso nowMs rest
        | (true, state) =>
            match assign_claimed state s w r nowIso nowMs with
            | (attempt_none, state) => try_candidates state s nowIso nowMs rest
            | done => done
            end
        end
  end.

(** One queued session. *)
Definition assign_session (state : ControlPlaneState) (catalog : ProviderCatalog) (s : SessionRecord)
    (nowIso : string) (nowMs : option Z) : Attempt * ControlPlaneState :=
  let '(s, state, plan) :=
    match planPromptPlacement state catalog s nowMs with
    | prompt_clear_pin =>
        let s := clearResumePin s in
        let state := update_session state (Session.id s) s in
        (s, state, planPromptPlacement state catalog s nowMs)
    | plan => (s, state, plan)
    end in
  match plan with
  | prompt_expire => (attempt_none, expireQueuedLocal state s nowIso)
  | prompt_assign candidates => try_candidates state s nowIso nowMs candidates
  | _ => (attempt_none, state)
  end.

(** The loop over the ordered queue; [None] when an error was thrown. *)
Fixpoint assign_loop (state : ControlPlaneState) (catalog : ProviderCatalog) (sessionId : option string)
    (nowIso : string) (nowMs : option Z) (queue : list SessionRecord)
    : option (list Assignment) * ControlPlaneState :=
  match queue with
  | [] => (Some [], state)
  | s :: rest =>
      if match sessionId with Some id => negb (str_eqb (Session.id s) id) | None => false end
      then assign_loop state catalog sessionId nowIso nowMs rest
      else
        match assign_session state catalog s nowIso nowMs with
        | (attempt_threw, state) => (None, state)
        | (attempt_none, state) => assign_loop state catalog sessionId nowIso nowMs rest
        | (attempt_assigned a, state) =>
            let '(more, state) := assign_loop state catalog sessionId nowIso nowMs rest in
            (cons a <$> more, state)
        end
  end.

Definition assignQueued (state : ControlPlaneState) (sessionId : option string)
    : option (list Assignment) * ControlPlaneState :=
  let nowIso := Plane.now state in
  assign_loop state (buildProviderCatalog state) sessionId nowIso (date_parse nowIso)
    (opt_or (orderedQueuedSessions (JsMap.values (Plane.sessions state)) (Plane.shardCount state)
               prompt_kind) []).
End assign.

(** ** Acknowledgement deadlines *)
Definition ACK_TIMEOUT_REASON : string := "agent did not acknowledge assignment; requeued".

(** [nowMs - assignedAtMs < ackDeadlineMs]; false when [assignedAtMs] is NaN. *)
Definition ack_not_due (state : ControlPlaneState) (nowMs : Z) (p : PendingAck) : bool :=
  match Ack.assignedAtMs p with Some at_ => nowMs - at_ <? Plane.ackDeadlineMs state | None => false end.

(** The assignment the acknowledgement is awaited for is still the session's. *)
Definition awaits_ack (s : SessionRecord) (p : PendingAck) : bool :=
  negb (is_some (truthy_opt (Session.ackReceivedAt s))) &&
  bool_decide (Session.worktreeId s = wire_worktree (Ack.worktreeId p)) &&
  bool_decide (Session.attemptId s = Some (Ack.attemptId p)).

(** Gives the assignment of an unacknowledged session back and requeues it. *)
Definition requeue_unacked (state : ControlPlaneState) (sessionId : string) (s : SessionRecord)
    (p : PendingAck) : ControlPlaneState :=
  match truthy_opt (Ack.worktreeId p) with
  | Some w =>
      let '(state, s) := releaseProviderAccountLease (releaseWorktree state w) s in
      update_session state sessionId
        (s <| Session.status := queued |> <| Session.worktreeId := Null |> <| Session.hostId := Null |>
           <| Session.startedAt := None |> <| Session.sessionApiKeyHash := None |>)
  | None =>
      let '(state, s) := releaseProviderAccountLease (releaseScheduledLeaseLocal state s).2 s in
      update_session state sessionId (queueReconnectSession s ACK_TIMEOUT_REASON)
  end.

Definition enforce_ack (nowMs : Z) (state : ControlPlaneState) (sessionId : string) (p : PendingAck)
    : option (list string) * ControlPlaneState :=
  if ack_not_due state nowMs p then (Some [], state) else
  match JsMap.get sessionId (Plane.sessions state) with
  | Some s =>
      if awaits_ack s p
      then (Some [sessionId], forget_ack (requeue_unacked state sessionId s p) sessionId)
      else (Some [], forget_ack state sessionId)
  | None => (Some [], forget_ack state sessionId)
  end.

Definition enforceAckDeadlines (state : ControlPlaneState) (nowMs : Z)
    : option (list string) * ControlPlaneState :=
  for_each Plane.pendingAcks (enforce_ack nowMs) (JsMap.keys (Plane.pendingAcks state)) state.

(** ** Running timeouts *)
Definition TIMEOUT_ERROR : string := "session exceeded timeout without a host terminal report".

Section timeouts.
Context {DP : DateParse}.

Definition isAcknowledgedRunningDue (s : SessionRecord) (nowMs : Z) : bool :=
  bool_decide (Session.status s = running) &&
  match truthy_opt (Session.ackReceivedAt s) with
  | Some at_ =>
      match date_parse at_ with
      | Some acked => acked + Session.timeout s * 1000 <=? nowMs
      | None => false
      end
  | None => false
  end.

(** The host whose capacity a timed-out session still occupies. *)
Definition timed_out_host (s : SessionRecord) : option string :=
  if is_some (Session.providerAccountLease s) || is_some (Session.hostAssignmentLease s) ||
     is_some (truthy_opt (Session.assignmentConnectionId s))
  then truthy_nul (Session.hostId s) else None.

(** The three-way release of [timeOutAcknowledgedSession]. *)
Definition release_timed_out (state : ControlPlaneState) (s : SessionRecord)
    : ControlPlaneState * SessionRecord :=
  if is_true_opt (Session.mainCheckoutLease s)
  then ((releaseScheduledLeaseLocal state s).2, drop_checkout_fields s)
  else match truthy_nul (Session.worktreeId s) with
       | Some w => (release_if_owner state w (Session.id s), s)
       | None => releaseWorkspaceSlot state s
       end.

Definition timeOutAcknowledgedSession (state : ControlPlaneState) (s : SessionRecord) : ControlPlaneState :=
  let host := timed_out_host s in
  let connection := match host with
                    | Some _ => truthy_opt (Session.assignmentConnectionId s)
                    | None => None
                    end in
  let s := s <| Session.status := timed_out |> <| Session.errorMessage := Some TIMEOUT_ERROR |>
             <| Session.completedAt := Some (Plane.now state) |> in
  let state := forget_ack state (Session.id s) in
  let state := match truthy_nul (Session.hostId s) with
               | Some h => emit state h (msg_cancel (Session.id s) (Session.attemptId s))
               | None => state
               end in
  let '(state, s) := release_timed_out state s in
  let s := s <| Session.worktreeId := Null |> <| Session.hostId := Null |>
             <| Session.timedOutHostId := opt_else host (Session.timedOutHostId s) |>
             <| Session.timedOutAssignmentConnectionId :=
                  opt_else connection (Session.timedOutAssignmentConnectionId s) |> in
  queueSessionArchive (persistSession state s) (Session.id s).

Definition enforceRunningTimeouts (state : ControlPlaneState) (nowMs : Z)
    : option (list string) * ControlPlaneState :=
  for_each Plane.sessions
    (fun st _ s => if isAcknowledgedRunningDue s nowMs
                   then (Some [Session.id s], timeOutAcknowledgedSession st s) else (Some [], st))
    (JsMap.keys (Plane.sessions state)) state.

(** ** Cancellation *)

(** [transitionEffect(plan, type)]: the first effect of a kind. *)
Fixpoint find_effect {A} (pick : SessionTransitionEffect -> option A) (plan : SessionTransitionPlan)
    : option A :=
  match plan with
  | [] => None
  | e :: rest => match pick e with Some a => Some a | None => find_effect pick rest end
  end.

Definition pick_reject e := match e with fx_reject message => Some message | _ => None end.
Definition pick_cancel e := match e with fx_cancel hold => Some hold | _ => None end.
Definition pick_release_worktree e := match e with fx_release_worktree => Some tt | _ => None end.
Definition pick_release_workspace e := match e with fx_release_workspace => Some tt | _ => None end.
Definition pick_release_lease e := match e with fx_release_lease => Some tt | _ => None end.
Definition pick_ignore e := match e with fx_ignore reason => Some reason | _ => None end.
Definition pick_ack e := match e with fx_ack => Some tt | _ => None end.
Definition pick_authorize e := match e with fx_authorize_command_start => Some tt | _ => None end.
Definition pick_requeue e := match e with fx_requeue reason fields => Some (reason, fields) | _ => None end.
Definition pick_reschedule e := match e with fx_reschedule kind => Some kind | _ => None end.
Definition pick_patch e := match e with fx_patch_report status fields => Some (status, fields) | _ => None end.
Definition pick_finish e :=
  match e with fx_finish _ _ clear fields => Some (clear, fields) | _ => None end.
Definition pick_cooldown e := match e with fx_cooldown account until => Some (account, until) | _ => None end.
Definition pick_suppress e := match e with fx_suppress_target index => Some index | _ => None end.

Definition has_effect {A} (pick : SessionTransitionEffect -> option A) (plan : SessionTransitionPlan) : bool :=
  is_some (find_effect pick plan).

(** The session or an error message; [None] is a thrown error. *)
Definition cancelSession (state : ControlPlaneState) (id : string)
    : option (PublicSession + string) * ControlPlaneState :=
  match JsMap.get id (Plane.sessions state) with
  | None => (Some (inr "session not found"), state)
  | Some s =>
      match planSessionTransition (Some s) ev_cancel
              (Ctx.mkContext (Plane.now state) local None None None None) with
      | None => (None, state)
      | Some plan =>
          match find_effect pick_reject plan, find_effect pick_cancel plan with
          | Some message, _ => (Some (inr message), state)
          | None, None => (None, state)
          | None, Some hold =>
              let state := forget_ack state id in
              let s := s <| Session.status := cancelled |>
                         <| Session.errorMessage := Some "cancelled by operator" |>
                         <| Session.completedAt := Some (Plane.now state) |> in
              match (if hold : bool then truthy_nul (Session.hostId s) else None) with
              | Some host =>
                  let state := persistSession (emit state host (msg_cancel id (Session.attemptId s))) s in
                  (Some (inl (toPublic state s true)), state)
              | None =>
                  let state :=
                    match (if has_effect pick_release_worktree plan
                           then truthy_nul (Session.worktreeId s) else None) with
                    | Some w => releaseWorktree state w
                    | None => state
                    end in
                  let '(state, s) := releaseProviderAccountLease state s in
                  let s := s <| Session.worktreeId := Null |> <| Session.hostId := Null |> in
                  let state := persistSession state s in
                  (Some (inl (toPublic state s true)), state)
              end
          end
      end
  end.
End timeouts.
