(* ===== verification/CheckoutAssignment.v ===== *)
(** * Assignment of scheduled and workspace sessions

    services/api/src/control-plane-scheduled-assign.ts and
    control-plane-workspace-assign.ts without a storage: a scheduled session takes
    the main checkout of a repository on a host, a workspace session takes a slot
    of its pool.  The branches that ask the storage are left out, and without them
    neither pass is interrupted by other work. *)

From Stdlib Require Import ZArith Lia Ascii String.
From stdpp Require Import base strings list.
From S2P Require Import Prelude DateTime Types Ordering TransitionPlanner ProviderCascade CommandResume.
From S2P Require Import SessionTarget AccountLeases Placement SessionOutcome LogSettings Worktrees Assignment.

Local Open Scope string_scope.
Local Open Scope Z_scope.

(** How the candidates of one session end. *)
Inductive Placed (A : Type) := placed_none | placed_in (a : A) | placed_threw.
Arguments placed_none {A}.
Arguments placed_in {A} a.
Arguments placed_threw {A}.

(** The lease of the account, taken when the target is free and given back when it is not:
    the [while (true)] loops of both passes turn once.  [None] when the candidate is skipped. *)
Definition acquire_for (state : ControlPlaneState) (s : SessionRecord) (account : option string)
    (attemptId hostId : string) (free : bool)
    : option (option ProviderAccountLease) * ControlPlaneState :=
  let '(lease, state) := tryAcquireProviderAccountLeaseLocal state s account attemptId hostId [] true in
  if is_some (truthy_opt account) && negb (is_some lease) then (None, state)
  else if free then (Some lease, state)
  else
    (None, match lease with
           | Some l => state <| Plane.providerAccountLeases :=
                         JsMap.delete (AccountLease.concurrencyId l) (Plane.providerAccountLeases state) |>
           | None => state
           end).

(** ** Scheduled sessions *)
Section scheduled.
Context {LC : LocaleCompare} {DP : DateParse}.

(** [connection?.runtime?.gitReady]. *)
Definition git_ready (c : ConnectionRecord) : bool :=
  match Connection.runtime c with Some r => Runtime.gitReady r | None => false end.

Definition serves_repository (state : ControlPlaneState) (repositoryId : string) (c : ConnectionRecord) : bool :=
  Connection.isHost c &&
  bool_decide (JsMap.get (Connection.hostId c) (Plane.hostConnection state) = Some (Connection.connectionId c)) &&
  hasHostCapability (Connection.capabilities c) "scheduled-main-checkout" &&
  git_ready c &&
  hostAcceptsNewAssignments state (Connection.hostId c) &&
  hostHasAssignmentCapacity state (Connection.hostId c) &&
  hostEnvironmentReady state (Connection.hostId c) repositoryId &&
  match Connection.repositoryIds c with Some ids => existsb (str_eqb repositoryId) ids | None => false end.

(** [last(id)]: the latest start of a scheduled session on the host. *)
Definition last_scheduled_start (state : ControlPlaneState) (hostId : string) : string :=
  List.last
    (toSorted code_compare
       (map (fun s => opt_or (Session.startedAt s) "")
          (List.filter (fun s => bool_decide (Session.type s = Some "scheduled") &&
                                 bool_decide (Session.hostId s = Val hostId))
             (JsMap.values (Plane.sessions state))))) "".

Definition eligibleHosts (state : ControlPlaneState) (repositoryId : string) : list (string * string) :=
  let unique :=
    fold_left (fun m c => if serves_repository state repositoryId c
                          then JsMap.set (Connection.hostId c) (Connection.connectionId c) m else m)
      (JsMap.values (Plane.connections state)) JsMap.empty in
  let hosts :=
    List.filter (fun h => negb (JsMap.has (main_checkout_key h.1 repositoryId) (Plane.mainCheckoutLeases state)))
      (List.filter (fun h => negb (existsb (str_eqb h.1) (Plane.drainingHosts state)) &&
                             negb (JsMap.has h.1 (Plane.disconnectedHosts state))) unique) in
  toSorted (fun a b =>
    let c := localeCompare (last_scheduled_start state a.1) (last_scheduled_start state b.1) in
    if c =? 0 then localeCompare a.1 b.1 else c) hosts.

(** The frame of a scheduled assignment. *)
Definition wire (s : SessionRecord) (now : string) (key : option string) (logSettings : SessionLogSettings)
    : SessionAssign :=
  let route := Session.resolvedRoute s in
  Assign.mkSessionAssign (Session.id s) scheduled_kind (Some (Session.repositoryId s)) (Session.prompt s)
    (truthy_opt key) (is_true_opt (Session.sessionOutputsSupported s)) (opt_or (Session.resolvedArgv s) [])
    (Session.timeout s) None (Some (opt_or (Session.infrastructureRetryCount s) 0)) None None None None
    (truthy_opt (Session.ref s)) None false None None None (Session.metadata s)
    (r ← route; truthy_opt (Route.providerAccountId r)) (r ← route; truthy_opt (Some (Route.commandId r)))
    (Route.targetIndex <$> route) None now (opt_or (Session.attemptId s) "") logSettings
    (r ← route; truthy_opt (Route.providerId r)).

(** [next], the session once it holds the checkout. *)
Definition scheduled_session (s : SessionRecord) (hostId connectionId : string) (r : ResolvedSessionRoute)
    (now attemptId : string) (argv : list string) (outputs : bool) (key : option SessionApiKey)
    (lease : option ProviderAccountLease) : SessionRecord :=
  s <| Session.status := running |> <| Session.worktreeId := Null |> <| Session.hostId := Val hostId |>
    <| Session.startedAt := Some now |> <| Session.assignmentSentAt := Some now |>
    <| Session.resolvedArgv := Some argv |> <| Session.sessionOutputsSupported := Some outputs |>
    <| Session.resumeSpec := opt_else (Session.resumeSpec s) (Some (Target.resumeSpec r)) |>
    <| Session.resolvedRoute := Some (Route.mkResolvedRoute (targetIndex r) (truthy_opt (Target.providerId r))
         (truthy_opt (Target.providerAccountId r)) (Target.commandId r) hostId None None None attemptId) |>
    <| Session.assignmentConnectionId := Some connectionId |> <| Session.mainCheckoutLease := Some true |>
    <| Session.attemptId := Some attemptId |> <| Session.primaryCommandStartState := Some start_pending |>
    <| Session.sessionApiKeyHash := apiKeyHash <$> key |>
    <| Session.providerAccountLease := opt_else lease (Session.providerAccountLease s) |>
    <| Session.hostAssignmentLease := Some (HostLease.mkHostAssignmentLease hostId) |>
    <| Session.completedAt := None |> <| Session.exitCode := Undef |> <| Session.errorCode := None |>
    <| Session.errorMessage := None |>.

(** [ScheduledAssignment]. *)
Record ScheduledAssignment := mkScheduledAssignment {
  scheduledSession : PublicSession;
  scheduledHostId : string;
}.

(** The candidate has won its lease: the session is stored, the checkout taken, the frame sent. *)
Definition place_scheduled (state : ControlPlaneState) (s : SessionRecord) (hostId connectionId : string)
    (r : ResolvedSessionRoute) (now attemptId : string) (argv : list string) (outputs : bool)
    (key : option SessionApiKey) (lease : option ProviderAccountLease)
    : Placed ScheduledAssignment * ControlPlaneState :=
  let next := scheduled_session s hostId connectionId r now attemptId argv outputs key lease in
  let state := update_session state (Session.id s) next in
  let state := touchAccount state (Target.providerAccountId r) now in
  let state := state <| Plane.mainCheckoutLeases :=
    JsMap.set (main_checkout_key hostId (Session.repositoryId s))
      (Checkout.mkMainCheckoutLease (Session.id s) connectionId) (Plane.mainCheckoutLeases state) |> in
  let state := state <| Plane.pendingAcks := JsMap.set (Session.id s)
    (Ack.mkPendingAck (Session.id s) None attemptId (date_parse now)) (Plane.pendingAcks state) |> in
  match assignLogSettings state with
  | None => (placed_threw, state)
  | Some logSettings =>
      let state := emit state hostId (msg_assign (wire next now (apiKey <$> key) logSettings)) in
      (placed_in (mkScheduledAssignment (toPublic state next true) hostId), state)
  end.

(** [for (const { hostId, connectionId, route: target } of plan.candidates)], and what follows it. *)
Fixpoint try_hosts (state : ControlPlaneState) (s : SessionRecord) (now : string)
    (candidates : list ((string * string) * ResolvedSessionRoute)) : Placed ScheduledAssignment * ControlPlaneState :=
  match candidates with
  | [] => (placed_none, state)
  | ((hostId, connectionId), r) :: rest =>
      match JsMap.get connectionId (Plane.connections state) with
      | None => try_hosts state s now rest
      | Some connection =>
          if negb (bool_decide (JsMap.get hostId (Plane.hostConnection state) = Some connectionId)) ||
             negb (git_ready connection) ||
             negb (hostProviderAccountReady state hostId (Target.providerAccountId r)) ||
             negb (accountHasLeaseCapacity state (Target.providerAccountId r))
          then try_hosts state s now rest
          else
            let '(attemptId, state) := draw_attempt state in
            let outputs := hasHostCapability (Connection.capabilities connection) "session-outputs" in
            let argv := assignmentOutputArgv state s (Target.commandId r) (Target.resolvedArgv r) outputs
                          (Some (Target.resumeSpec r)) in
            let '(key, state) :=
              if hasHostCapability (Connection.capabilities connection) "session-spawn"
              then let '(k, st) := createSessionApiKey state in (Some k, st) else (None, state) in
            match acquire_for state s (Target.providerAccountId r) attemptId hostId
                    (negb (JsMap.has (main_checkout_key hostId (Session.repositoryId s))
                             (Plane.mainCheckoutLeases state))) with
            | (None, state) => try_hosts state s now rest
            | (Some lease, state) =>
                place_scheduled state s hostId connectionId r now attemptId argv outputs key lease
            end
      end
  end.

Definition expireScheduledQueued (state : ControlPlaneState) (s : SessionRecord) (now : string)
    : ControlPlaneState :=
  update_session state (Session.id s)
    (s <| Session.status := failed |> <| Session.completedAt := Some now |>
       <| Session.errorCode := Some "queue_expired" |>
       <| Session.errorMessage := Some "queue TTL expired before capacity became available" |>).

Definition assign_scheduled_session (state : ControlPlaneState) (catalog : ProviderCatalog) (s : SessionRecord)
    (now : string) : Placed ScheduledAssignment * ControlPlaneState :=
  match planScheduledPlacement state catalog s (eligibleHosts state (Session.repositoryId s)) with
  | scheduled_expire => (placed_none, expireScheduledQueued state s now)
  | scheduled_cancel_draining => (placed_none, (cancelSession state (Session.id s)).2)
  | scheduled_skip _ => (placed_none, state)
  | scheduled_assign candidates => try_hosts state s now candidates
  end.
End scheduled.

(** ** Workspace sessions *)
Definition MAX_WORKSPACE_ASSIGN_BYTES : Z := 120 * 1024.

Definition setupScriptFor (state : ControlPlaneState) (s : SessionRecord) : option string :=
  let pool := id ← truthy_opt (Session.workspacePoolId s); JsMap.get id (Plane.workspacePools state) in
  match truthy_opt (opt_else (Session.setupProfileId s) (p ← pool; Pool.defaultSetupProfileId p)) with
  | None => None
  | Some profileId =>
      p ← pool;
      Profile.script <$> List.find (fun f => str_eqb (Profile.id f) profileId) (Pool.setupProfiles p)
  end.

(** The frame of a workspace assignment. *)
Definition assignMessage (s : SessionRecord) (slot : WorkspaceSlotRecord) (r : ResolvedSessionRoute)
    (argv : list string) (attemptId assignedAt : string) (setupScript : option string)
    (logSettings : SessionLogSettings) (outputs : bool) : SessionAssign :=
  Assign.mkSessionAssign (Session.id s) workspace_kind None "" None outputs argv (Session.timeout s) None None
    (Session.workspacePoolId s) (Some (Slot.id slot)) (truthy_opt (Session.setupProfileId s))
    (Session.destroyWorkspaceAfter s) None (truthy_opt setupScript) false None None None (Session.metadata s)
    (truthy_opt (Target.providerAccountId r)) (Some (Target.commandId r)) (Some (targetIndex r)) None assignedAt
    attemptId logSettings None.

(** A member that is present when its value is. *)
Definition member {A} (key : string) (f : A -> json) (v : option A) : list (string * json) :=
  match v with Some a => [(key, f a)] | None => [] end.

(** The members of the workspace frame, in the order of the object literal. *)
Definition workspace_frame (m : SessionAssign) : json :=
  JObject ([("type", JString "session:assign"); ("sessionId", JString (Assign.sessionId m));
            ("sessionType", JString "workspace"); ("repositoryId", JNull); ("worktreeId", JNull)] ++
    member "workspacePoolId" JString (Assign.workspacePoolId m) ++
    member "workspaceSlotId" JString (Assign.workspaceSlotId m) ++
    member "setupProfileId" JString (Assign.setupProfileId m) ++
    member "setupScript" JString (Assign.setupScript m) ++
    member "destroyWorkspaceAfter" JBool (Assign.destroyWorkspaceAfter m) ++
    [("prompt", JString (Assign.prompt m))] ++
    (if Assign.outputs m then [("outputs", JBool true)] else []) ++
    [("resolvedArgv", JArray (map JString (Assign.resolvedArgv m))); ("timeout", JNumber (Assign.timeout m));
     ("assignedAt", JString (Assign.assignedAt m)); ("attemptId", JString (Assign.attemptId m))] ++
    member "metadata" JObject (Assign.metadata m) ++
    member "providerAccountId" JString (Assign.providerAccountId m) ++
    member "commandId" JString (Assign.commandId m) ++
    member "targetIndex" JNumber (Assign.targetIndex m) ++
    [("logSettings", JObject
       [("uploadMode", JString (LogSettings.uploadMode (Assign.logSettings m)));
        ("batchMaxKb", JNumber (LogSettings.batchMaxKb (Assign.logSettings m)));
        ("batchMaxLines", JNumber (LogSettings.batchMaxLines (Assign.logSettings m)));
        ("batchMaxWaitMs", JNumber (LogSettings.batchMaxWaitMs (Assign.logSettings m)));
        ("controlPlanePollMs", JNumber (LogSettings.controlPlanePollMs (Assign.logSettings m)))])])%list.

Definition fitsWorkspaceAssignFrame (m : SessionAssign) : bool :=
  utf8_length (stringify (workspace_frame m)) <=? MAX_WORKSPACE_ASSIGN_BYTES.

(** [nextSession], with the outputs flag set after it. *)
Definition nextSession (s : SessionRecord) (slot : WorkspaceSlotRecord) (r : ResolvedSessionRoute)
    (argv : list string) (attemptId now : string) (lease : option ProviderAccountLease) (outputs : bool)
    : SessionRecord :=
  s <| Session.status := running |> <| Session.repositoryId := "" |> <| Session.worktreeId := Null |>
    <| Session.workspaceSlotId := Val (Slot.id slot) |> <| Session.workspaceSlotLease := Some true |>
    <| Session.hostId := Val (Slot.hostId slot) |> <| Session.startedAt := Some now |>
    <| Session.attemptId := Some attemptId |> <| Session.resolvedArgv := Some argv |>
    <| Session.resolvedRoute := Some (Route.mkResolvedRoute (targetIndex r) (truthy_opt (Target.providerId r))
         (truthy_opt (Target.providerAccountId r)) (Target.commandId r) (Slot.hostId slot) None
         (Session.workspacePoolId s) (Some (Slot.id slot)) attemptId) |>
    <| Session.primaryCommandStartState := Some start_pending |>
    <| Session.providerAccountLease := opt_else lease (Session.providerAccountLease s) |>
    <| Session.hostAssignmentLease := Some (HostLease.mkHostAssignmentLease (Slot.hostId slot)) |>
    <| Session.errorCode := None |> <| Session.errorMessage := None |>
    <| Session.sessionOutputsSupported := Some outputs |>.

Record WorkspaceAssignment := mkWorkspaceAssignment {
  workspaceSession : PublicSession;
  workspaceSlot : WorkspaceSlotRecord;
}.

Section workspace.
Context {LC : LocaleCompare} {DP : DateParse}.

(** The candidate has won its lease. *)
Definition place_workspace (state : ControlPlaneState) (s : SessionRecord) (slot : WorkspaceSlotRecord)
    (r : ResolvedSessionRoute) (connectionId now attemptId : string) (nowMs : option Z) (argv : list string)
    (outputs : bool) (message : SessionAssign) (lease : option ProviderAccountLease)
    : WorkspaceAssignment * ControlPlaneState :=
  let updatedSession := nextSession s slot r argv attemptId now lease outputs in
  let updatedSlot := slot <| Slot.status := busy |> <| Slot.currentSessionId := Val (Session.id s) |>
                          <| Slot.connectionId := Some connectionId |> <| Slot.lastAssignedAt := Val now |> in
  let state := update_session state (Session.id s) updatedSession in
  let state := set_slot state (Slot.id slot) updatedSlot in
  let state := touchAccount state (Target.providerAccountId r) now in
  let state := state <| Plane.pendingAcks := JsMap.set (Session.id s)
    (Ack.mkPendingAck (Session.id s) None attemptId nowMs) (Plane.pendingAcks state) |> in
  let state := emit state (Slot.hostId slot) (msg_assign message) in
  (mkWorkspaceAssignment (toPublic state updatedSession true) updatedSlot, state).

(** [for (const { slot, route } of plan.candidates)]. *)
Fixpoint try_slots (state : ControlPlaneState) (s : SessionRecord) (now : string) (nowMs : option Z)
    (candidates : list (WorkspaceSlotRecord * ResolvedSessionRoute))
    : Placed WorkspaceAssignment * ControlPlaneState :=
  match candidates with
  | [] => (placed_none, state)
  | (slot, r) :: rest =>
      match truthy_opt (JsMap.get (Slot.hostId slot) (Plane.hostConnection state)) with
      | None => try_slots state s now nowMs rest
      | Some connectionId =>
          if negb (hostProviderAccountReady state (Slot.hostId slot) (Target.providerAccountId r)) ||
             negb (accountHasLeaseCapacity state (Target.providerAccountId r))
          then try_slots state s now nowMs rest
          else
            let '(attemptId, state) := draw_attempt state in
            let outputs := hasHostCapability
              (c ← JsMap.get connectionId (Plane.connections state); Connection.capabilities c)
              "session-outputs" in
            let argv := assignmentOutputArgv state s (Target.commandId r) (Target.resolvedArgv r) outputs
                          (Some (Target.resumeSpec r)) in
            match assignLogSettings state with
            | None => (placed_threw, state)
            | Some logSettings =>
                let message := assignMessage s slot r argv attemptId now
                  (opt_else (Session.workspaceSetupScript s) (setupScriptFor state s)) logSettings outputs in
                if negb (fitsWorkspaceAssignFrame message) then try_slots state s now nowMs rest
                else
                  match acquire_for state s (Target.providerAccountId r) attemptId (Slot.hostId slot)
                          (bool_decide (Slot.status slot = idle) && Slot.online slot) with
                  | (None, state) => try_slots state s now nowMs rest
                  | (Some lease, state) =>
                      let '(a, state) :=
                        place_workspace state s slot r connectionId now attemptId nowMs argv outputs message lease in
                      (placed_in a, state)
                  end
            end
      end
  end.

Definition expireWorkspaceSession (state : ControlPlaneState) (s : SessionRecord) (now : string)
    : ControlPlaneState :=
  update_session state (Session.id s)
    (s <| Session.status := failed |> <| Session.completedAt := Some now |>
       <| Session.errorCode := Some "queue_expired" |>
       <| Session.errorMessage := Some "queue TTL expired before workspace capacity became available" |>).

Definition assign_workspace_session (state : ControlPlaneState) (catalog : ProviderCatalog) (s : SessionRecord)
    (now : string) (nowMs : option Z) : Placed WorkspaceAssignment * ControlPlaneState :=
  match planWorkspacePlacement state catalog s nowMs with
  | workspace_expire => (placed_none, expireWorkspaceSession state s now)
  | workspace_skip _ => (placed_none, state)
  | workspace_assign candidates => try_slots state s now nowMs candidates
  end.
End workspace.

(** ** The passes *)

(** The loop over the ordered queue, for either kind of session; [None] when an error was thrown. *)
Fixpoint pass_loop {A} (place : ControlPlaneState -> SessionRecord -> Placed A * ControlPlaneState)
    (chosen : SessionRecord -> bool) (queue : list SessionRecord) (state : ControlPlaneState)
    : option (list A) * ControlPlaneState :=
  match queue with
  | [] => (Some [], state)
  | s :: rest =>
      if negb (chosen s) then pass_loop place chosen rest state
      else
        match place state s with
        | (placed_threw, state) => (None, state)
        | (placed_none, state) => pass_loop place chosen rest state
        | (placed_in a, state) =>
            let '(more, state) := pass_loop place chosen rest state in (cons a <$> more, state)
        end
  end.

Section passes.
Context {LC : LocaleCompare} {DP : DateParse}.

Definition queue_of (state : ControlPlaneState) (kind : ScheduleKind) : list SessionRecord :=
  opt_or (orderedQueuedSessions (JsMap.values (Plane.sessions state)) (Plane.shardCount state) kind) [].

(** [getSessionLogSettings] throws first when the stored settings are invalid. *)
Definition assignScheduledQueuedDurable (state : ControlPlaneState) (sessionId : option string)
    : option (list ScheduledAssignment) * ControlPlaneState :=
  match assignLogSettings state with
  | None => (None, state)
  | Some _ =>
      let catalog := buildProviderCatalog state in
      pass_loop (fun state s => assign_scheduled_session state catalog s (Plane.now state))
        (fun s => match sessionId with Some id => str_eqb (Session.id s) id | None => true end)
        (queue_of state scheduled_kind) state
  end.

Definition assignWorkspaceQueuedDurable (state : ControlPlaneState) (sessionId : option string)
    : option (list WorkspaceAssignment) * ControlPlaneState :=
  match assignLogSettings state with
  | None => (None, state)
  | Some _ =>
      let catalog := buildProviderCatalog state in
      let now := Plane.now state in
      pass_loop (fun state s => assign_workspace_session state catalog s now (date_parse now))
        (fun s => match truthy_opt sessionId with Some id => str_eqb (Session.id s) id | None => true end)
        (queue_of state workspace_kind) state
  end.
End passes.
