(* ===== verification/HostMessages.v ===== *)
(** * Host messages of the in-memory plane

    services/api/src/control-plane-messages.ts: the [session:ack],
    [session:command-start] and [session:status] cases of [handleHostMessage]
    with [applySessionStatus], without storage.  A [usage] report attached to a
    status frame is stored by control-plane-usage.ts before the frame is
    applied and is not part of these frames. *)

From Stdlib Require Import ZArith Lia Ascii String.
From stdpp Require Import base strings list.
From S2P Require Import Prelude DateTime Types Ordering TransitionPlanner SessionTarget.
From S2P Require Import AccountLeases Placement SessionOutcome Worktrees Assignment.

Local Open Scope string_scope.
Local Open Scope Z_scope.

(** The [session:status] frame. *)
Module Status.
Record StatusMessage := mkStatus {
  sessionId : string;
  worktreeId : option string;
  workspaceSlotError : option string;
  attemptId : string;
  status : SessionStatus;
  exitCode : nullable Z;
  errorCode : option string;
  errorMessage : option string;
  cliResumeRef : option string;
  result : option json;
  deferTerminalHookResult : bool;
}.
End Status.
Notation StatusMessage := Status.StatusMessage.

(** What [applySessionStatus] returns. *)
Record StatusResult := mkStatusResult {
  ok : bool;
  error_ : option string;
  retryAccepted : option bool;
  terminalHookHandoffId : option string;
  terminalHookHandoffExpiresAt : option string;
}.

Definition status_ok : StatusResult := mkStatusResult true None None None None.

(** [...(cond ? { retryAccepted: b } : {})]. *)
Definition retry_flag (cond b : bool) : option bool := if cond then Some b else None.

Definition handoff_result (retry : option bool) (h : option TerminalHookHandoff) : StatusResult :=
  mkStatusResult true None retry (Handoff.handoffId <$> h) (Handoff.expiresAt <$> h).

(** ** Frame and ownership helpers *)
Definition isFirstCheckoutFetchFailure (msg : StatusMessage) (s : SessionRecord) : bool :=
  bool_decide (Status.status msg = failed) &&
  bool_decide (Status.errorCode msg = Some "checkout_fetch_failed") &&
  (opt_or (Session.infrastructureRetryCount s) 0 =? 0).

Definition settledCheckoutFetchRetryDisposition (msg : StatusMessage) (s : SessionRecord) : option bool :=
  if negb (bool_decide (Status.status msg = failed)) ||
     negb (bool_decide (Status.errorCode msg = Some "checkout_fetch_failed"))
  then None
  else Some (bool_decide (Session.infrastructureRetryAttemptId s = Some (Status.attemptId msg))).

Definition hostMessageOwner (state : ControlPlaneState) (session : option SessionRecord)
    (sourceConnectionId : option string) : option string :=
  match (s ← session; truthy_nul (Session.hostId s)), (s ← session; truthy_opt (Session.timedOutHostId s)) with
  | Some h, _ => Some h
  | None, Some h => Some h
  | None, None =>
      c ← truthy_opt sourceConnectionId; Connection.hostId <$> JsMap.get c (Plane.connections state)
  end.

Definition hostMessageProtocolVersion (state : ControlPlaneState) (s : SessionRecord)
    (sourceConnectionId : option string) : option Z :=
  let owner := opt_else (nul_opt (Session.hostId s)) (Session.timedOutHostId s) in
  let connectionId :=
    opt_else sourceConnectionId (o ← truthy_opt owner; JsMap.get o (Plane.hostConnection state)) in
  connectionProtocolVersion (c ← truthy_opt connectionId; JsMap.get c (Plane.connections state)).

Definition localDeferredHandoffAck (msg : StatusMessage) (s : SessionRecord)
    (reportingHostId : option string) : option StatusResult :=
  match Session.terminalHookHandoff s with
  | Some h =>
      if Status.deferTerminalHookResult msg &&
         bool_decide (Handoff.attemptId h = Some (Status.attemptId msg))
      then
        let owned := bool_decide (Handoff.status h = Status.status msg) &&
          match truthy_opt reportingHostId with Some r => str_eqb (Handoff.hostId h) r | None => true end in
        Some (handoff_result (settledCheckoutFetchRetryDisposition msg s) (if owned then Some h else None))
      else None
  | None => None
  end.

Definition cachedProviderAccount (state : ControlPlaneState) (s : SessionRecord) : option ProviderAccountRecord :=
  r ← Session.resolvedRoute s; id ← truthy_opt (Route.providerAccountId r);
  JsMap.get id (Plane.providerAccounts state).

Definition plannerContext (state : ControlPlaneState) (source : PlanSource)
    (account : option ProviderAccountRecord) (protocolVersion : option Z) (defer : bool)
    : SessionTransitionContext :=
  Ctx.mkContext (Plane.now state) source protocolVersion (true_flag defer)
    (Account.usageLimitCooldownSeconds <$> account) None.

(** Gives back whatever a cancelled session still holds. *)
Definition releaseLocalLateTerminalAssignment (state : ControlPlaneState) (s : SessionRecord)
    (workspaceSlotError : option string) : ControlPlaneState * SessionRecord :=
  let releaseLease := is_true_opt (Session.mainCheckoutLease s) in
  let releaseWorkspace := is_some (truthy_nul (Session.workspaceSlotId s)) in
  let releaseWorktreeTarget := is_some (truthy_nul (Session.worktreeId s)) in
  let '(state, s) :=
    if releaseLease || releaseWorkspace || releaseWorktreeTarget
    then releaseProviderAccountLease state s else (state, s) in
  let '(state, s) :=
    if releaseLease
    then ((releaseScheduledLeaseLocal state s).2, (drop_checkout_fields s) <| Session.worktreeId := Null |>)
    else (state, s) in
  let '(state, s) :=
    match (if releaseWorktreeTarget then truthy_nul (Session.worktreeId s) else None) with
    | Some w => (release_if_owner state w (Session.id s), s <| Session.worktreeId := Null |>)
    | None => (state, s)
    end in
  if releaseWorkspace then releaseWorkspaceSlotLocal state s workspaceSlotError else (state, s).

(** [delete session.timedOutHostId; ...; delete session.activeHostOrder]. *)
Definition drop_timeout_fields (s : SessionRecord) : SessionRecord :=
  s <| Session.timedOutHostId := None |> <| Session.timedOutAssignmentConnectionId := None |>
    <| Session.hostAssignmentLease := None |> <| Session.activeHostId := None |>
    <| Session.activeHostOrder := None |>.

Definition infrastructure_code_of (name : option string) : InfrastructureCode :=
  if bool_decide (name = Some "host_lost") then host_lost else checkout_fetch_failed.

Section messages.
Context {LC : LocaleCompare} {DP : DateParse} {UP : UrlParse}.

(** The event of a status frame, with its result normalised. *)
Definition hostStatusEvent (msg : StatusMessage) : SessionTransitionEvent :=
  ev_status (Status.worktreeId msg) (Status.attemptId msg) (Status.status msg)
    (Report.mkReport (Status.exitCode msg) (Status.errorCode msg) (Status.errorMessage msg)
       (Status.cliResumeRef msg) (r ← Status.result msg; normalizeSessionResult r)).

(** The outer [None] is a thrown error, the inner one no owner. *)
Definition deferredTerminalHookHandoff (state : ControlPlaneState) (s : SessionRecord)
    (msg : StatusMessage) (fallbackHostId : option string)
    : option (option TerminalHookHandoff) * ControlPlaneState :=
  match truthy_opt (opt_else (nul_opt (Session.hostId s))
                      (opt_else (Session.timedOutHostId s) fallbackHostId)) with
  | None => (Some None, state)
  | Some hostId =>
      let '(handoffId, state) := draw_id state in
      (expiresAt ← now_plus state TERMINAL_HOOK_HANDOFF_MAX_AGE_MS;
       Some (Some (Handoff.mkTerminalHookHandoff handoffId (Some (Status.attemptId msg)) hostId
         (Session.repositoryId s) (nul_opt (Session.worktreeId s))
         (if is_true_opt (Session.mainCheckoutLease s) then Some true else None)
         (Status.status msg) (Status.errorCode msg) expiresAt (Session.ref s) (Session.metadata s))), state)
  end.

(** ** Acknowledgement and command start *)

(** [{ ok, error }] of [handleHostMessage]: [None] no error. *)
Definition handleSessionAck (state : ControlPlaneState) (sessionId : string) (worktreeId : option string)
    (attemptId : string) : option string * ControlPlaneState :=
  match JsMap.get sessionId (Plane.sessions state) with
  | None => (Some "session not found", state)
  | Some s =>
      match planSessionTransition (Some s) (ev_ack worktreeId attemptId)
              (plannerContext state local None None false) with
      | Some plan =>
          if negb (has_effect pick_ack plan) then (None, state) else
          let s := s <| Session.ackReceivedAt := Some (Plane.now state) |> in
          let state := forget_ack (update_session state sessionId s) sessionId in
          (None, match truthy_nul (Session.hostId s) with
                 | Some host => emit state host (msg_acknowledged (Session.id s) attemptId)
                 | None => state
                 end)
      | None => (None, state)
      end
  end.

Definition handleCommandStart (state : ControlPlaneState) (sessionId : string) (worktreeId : option string)
    (attemptId : string) : option string * ControlPlaneState :=
  match JsMap.get sessionId (Plane.sessions state) with
  | None => (Some "session not found", state)
  | Some s =>
      match planSessionTransition (Some s) (ev_command_start worktreeId attemptId)
              (plannerContext state local None None false) with
      | Some plan =>
          let accepted := negb (has_effect pick_ignore plan) && negb (has_effect pick_reject plan) in
          let '(s, state) :=
            if accepted && has_effect pick_authorize plan
            then let s := s <| Session.primaryCommandStartState := Some start_authorized |> in
                 (s, update_session state sessionId s)
            else (s, state) in
          (None, match truthy_nul (Session.hostId s) with
                 | Some host =>
                     if accepted && bool_decide (Session.primaryCommandStartState s = Some start_authorized)
                     then emit state host (msg_command_start_acknowledged (Session.id s) attemptId)
                     else state
                 | None => state
                 end)
      | None => (None, state)
      end
  end.

(** ** Status reports *)

(** The early return that mints a handoff for a cancelled or timed-out session;
    [None] when the frame is handled further below. *)
Definition settle_deferred (state : ControlPlaneState) (s : SessionRecord) (msg : StatusMessage)
    (reportingHostId : option string) : option (option StatusResult * ControlPlaneState) :=
  if Status.deferTerminalHookResult msg &&
     (bool_decide (Session.status s = cancelled) || bool_decide (Session.status s = timed_out)) &&
     isTerminalSessionStatus (Status.status msg) &&
     bool_decide (Session.attemptId s = Some (Status.attemptId msg))
  then
    if bool_decide (settledCheckoutFetchRetryDisposition msg s = Some true)
    then Some (Some (handoff_result (Some true) None), state)
    else if is_some (Session.terminalHookHandoffSettled s) ||
            is_some (truthy_opt (Session.terminalHookHandoffExpiredAt s))
    then None
    else
      match deferredTerminalHookHandoff state s msg reportingHostId with
      | (None, state) => Some (None, state)
      | (Some None, _) => None
      | (Some (Some handoff), state) =>
          let first := isFirstCheckoutFetchFailure msg s in
          let s := s <| Session.terminalHookHandoff := Some handoff |> in
          let '(state, s) :=
            if bool_decide (Session.status s = timed_out)
            then let '(state, s) := releaseProviderAccountLease state s in (state, drop_timeout_fields s)
            else releaseLocalLateTerminalAssignment state s (Status.workspaceSlotError msg) in
          Some (Some (handoff_result (retry_flag first false) (Some handoff)), persistSession state s)
      end
  else None.

(** A late report of a timed-out session that still occupies capacity. *)
Definition settles_timeout (s : SessionRecord) (msg : StatusMessage) : bool :=
  bool_decide (Session.status s = timed_out) && isTerminalSessionStatus (Status.status msg) &&
  match Session.providerAccountLease s with
  | Some lease => str_eqb (AccountLease.attemptId lease) (Status.attemptId msg)
  | None => is_some (Session.timedOutHostId s) &&
            bool_decide (Session.attemptId s = Some (Status.attemptId msg))
  end.

Definition settle_timeout (state : ControlPlaneState) (s : SessionRecord)
    (reportedResult : option SessionResult) : ControlPlaneState :=
  let '(state, s) := releaseProviderAccountLease state s in
  persistSession state (drop_timeout_fields (keep_result s reportedResult)).

Definition request_assign (state : ControlPlaneState) (kind : ScheduleKind) : ControlPlaneState :=
  state <| Plane.assignRequests := (Plane.assignRequests state ++ [kind])%list |>.

(** The assignment pass after an infrastructure retry; [false] when it throws. *)
Definition retry_pass (state : ControlPlaneState) (plan : SessionTransitionPlan) : bool * ControlPlaneState :=
  match find_effect pick_reschedule plan with
  | Some scheduled_kind => (true, request_assign state scheduled_kind)
  | Some _ => let '(out, state) := assignQueued state None in (is_some out, state)
  | None => (true, state)
  end.

(** The assignment pass after a usage limit. *)
Definition requeue_pass (state : ControlPlaneState) (plan : SessionTransitionPlan) : bool * ControlPlaneState :=
  match find_effect pick_reschedule plan with
  | Some prompt_kind => let '(out, state) := assignQueued state None in (is_some out, state)
  | Some kind => (true, request_assign state kind)
  | None => (true, state)
  end.

(** The automatic replay of a failed checkout. *)
Definition apply_infrastructure_retry (state : ControlPlaneState) (s : SessionRecord) (msg : StatusMessage)
    (plan : SessionTransitionPlan) (fields : SessionReportFields)
    : option StatusResult * ControlPlaneState :=
  let code := infrastructure_code_of (Report.errorCode fields) in
  let first := isFirstCheckoutFetchFailure msg s in
  let '(released, state) :=
    if is_true_opt (Session.mainCheckoutLease s) then releaseScheduledLeaseLocal state s
    else match truthy_nul (Session.worktreeId s) with
         | Some w => (true, releaseWorktree state w)
         | None => (false, state)
         end in
  if negb released then (Some status_ok, state) else
  let '(state, s) := releaseProviderAccountLease state s in
  let next := (queueReconnectSession s (opt_or (Report.errorMessage fields) "infrastructure retry"))
    <| Session.infrastructureRetryCount := Some (opt_or (Session.infrastructureRetryCount s) 0 + 1) |>
    <| Session.lastInfrastructureErrorCode := Some code |>
    <| Session.infrastructureRetryAttemptId := Some (Status.attemptId msg) |> in
  let state := forget_ack (update_session state (Session.id s) next) (Session.id s) in
  let '(returned, state) := retry_pass state plan in
  (if returned
   then Some (handoff_result
          (retry_flag (bool_decide (code = checkout_fetch_failed) && first) true) None)
   else None, state).

(** A report for a session that is no longer running. *)
Definition apply_late_report (state : ControlPlaneState) (s : SessionRecord) (msg : StatusMessage)
    (plan : SessionTransitionPlan) : ControlPlaneState :=
  let patch := find_effect pick_patch plan in
  let '(state, s) :=
    if has_effect pick_release_lease plan || has_effect pick_release_worktree plan ||
       has_effect pick_release_workspace plan
    then releaseProviderAccountLease state s else (state, s) in
  let '(state, s) :=
    if has_effect pick_release_lease plan && is_true_opt (Session.mainCheckoutLease s)
    then ((releaseScheduledLeaseLocal state s).2, (drop_checkout_fields s) <| Session.worktreeId := Null |>)
    else (state, s) in
  let '(state, s) :=
    match (if has_effect pick_release_worktree plan then truthy_nul (Session.worktreeId s) else None) with
    | Some w => (release_if_owner state w (Session.id s), s <| Session.worktreeId := Null |>)
    | None => (state, s)
    end in
  let '(state, s) :=
    if has_effect pick_release_workspace plan
    then releaseWorkspaceSlotLocal state s (Status.workspaceSlotError msg) else (state, s) in
  let s := match (p ← patch; Report.cliResumeRef p.2) with
           | Some ref => s <| Session.cliResumeRef := Some ref |>
           | None => s
           end in
  persistSession state (keep_result s (p ← patch; Report.result p.2)).

(** The fields a report sets on a running session, present ones only. *)
Definition report_fields (s : SessionRecord) (msg : StatusMessage) (status : SessionStatus)
    (reportedResult : option SessionResult) : SessionRecord :=
  let s := s <| Session.status := status |>
    <| Session.exitCode := match Status.exitCode msg with Undef => Session.exitCode s | v => v end |>
    <| Session.errorCode := opt_else (Status.errorCode msg) (Session.errorCode s) |>
    <| Session.errorMessage := opt_else (Status.errorMessage msg) (Session.errorMessage s) |>
    <| Session.cliResumeRef := opt_else (Status.cliResumeRef msg) (Session.cliResumeRef s) |> in
  keep_result s reportedResult.

(** Releases what a terminal report ends, unless a deferred hook still needs it. *)
Definition release_terminal (state : ControlPlaneState) (s : SessionRecord) (msg : StatusMessage)
    (plan : SessionTransitionPlan) (handoff : option TerminalHookHandoff)
    : ControlPlaneState * SessionRecord :=
  if is_true_opt (Session.mainCheckoutLease s) then
    (state, if handoff_holds_checkout handoff then s else drop_checkout_fields s)
  else
    match (if has_effect pick_release_worktree plan then truthy_nul (Session.worktreeId s) else None) with
    | Some w =>
        if bool_decide ((h ← handoff; Handoff.worktreeId h) = Some w)
        then if has_effect pick_release_workspace plan
             then releaseWorkspaceSlotLocal state s (Status.workspaceSlotError msg) else (state, s)
        else (releaseWorktree state w, s)
    | None =>
        if has_effect pick_release_workspace plan
        then releaseWorkspaceSlotLocal state s (Status.workspaceSlotError msg) else (state, s)
    end.

(** Pauses the account that reported a usage limit. *)
Definition apply_cooldown (state : ControlPlaneState) (cooldown : option (string * string)) : ControlPlaneState :=
  match cooldown with
  | Some (id, until) =>
      match JsMap.get id (Plane.providerAccounts state) with
      | Some account =>
          state <| Plane.providerAccounts := JsMap.set id
            (account <| Account.usageLimitedUntil := Some until |>
                     <| Account.lastUsageLimitedAt := Some (Plane.now state) |>
                     <| Account.updatedAt := Plane.now state |>)
            (Plane.providerAccounts state) |>
      | None => state
      end
  | None => state
  end.

Definition requeued_session (s : SessionRecord) : SessionRecord :=
  s <| Session.status := queued |> <| Session.worktreeId := Null |> <| Session.hostId := Null |>
    <| Session.completedAt := None |> <| Session.result := None |>.

(** The requeue of a usage-limited session and the assignment pass it starts;
    the session object is shared with the map, so it is read back after the pass. *)
Definition apply_requeue (state : ControlPlaneState) (s : SessionRecord) (plan : SessionTransitionPlan)
    (first : bool) : option StatusResult * ControlPlaneState :=
  let id := Session.id s in
  let s := requeued_session s in
  let state := update_session state id s in
  let '(returned, state) := requeue_pass state plan in
  if negb returned then (None, state)
  else (Some (handoff_result (retry_flag first false) None),
        persistSession state (opt_or (JsMap.get id (Plane.sessions state)) s)).

(** The end of a session. *)
Definition apply_finish (state : ControlPlaneState) (s : SessionRecord) (clearResumeRef : bool)
    (fields : SessionReportFields) (handoff : option TerminalHookHandoff) (first : bool)
    : StatusResult * ControlPlaneState :=
  let s := s <| Session.errorCode := opt_else (Report.errorCode fields) (Session.errorCode s) |>
    <| Session.errorMessage := opt_else (Report.errorMessage fields) (Session.errorMessage s) |>
    <| Session.terminalHookHandoff := opt_else handoff (Session.terminalHookHandoff s) |>
    <| Session.worktreeId := Null |> <| Session.workspaceSlotId := Null |>
    <| Session.cliResumeRef := if clearResumeRef then None else Session.cliResumeRef s |> in
  let state := if is_some handoff then state else queueSessionArchive state (Session.id s) in
  (handoff_result (retry_flag (first || is_some handoff) false) handoff, persistSession state s).

(** A report for a running session whose resources it may release. *)
Definition apply_running_report (state : ControlPlaneState) (s : SessionRecord) (msg : StatusMessage)
    (plan : SessionTransitionPlan) (handoff : option TerminalHookHandoff) (first : bool)
    (reportedResult : option SessionResult) : option StatusResult * ControlPlaneState :=
  let patch := find_effect pick_patch plan in
  let s := report_fields s msg (opt_or (p ← patch; p.1) (Status.status msg)) reportedResult in
  if negb (isTerminalSessionStatus (Status.status msg))
  then (Some (handoff_result (retry_flag first false) None), persistSession state s)
  else
    let s := s <| Session.completedAt := Some (Plane.now state) |> in
    let '(state, s) := releaseProviderAccountLease (forget_ack state (Status.sessionId msg)) s in
    let '(state, s) := release_terminal state s msg plan handoff in
    let state := apply_cooldown state (find_effect pick_cooldown plan) in
    let s := match find_effect pick_suppress plan with
             | Some index => s <| Session.suppressedTargetIndexes :=
                 Some (opt_or (Session.suppressedTargetIndexes s) [] ++ [index])%list |>
             | None => s
             end in
    match find_effect pick_requeue plan, find_effect pick_finish plan with
    | Some _, _ => apply_requeue state s plan first
    | None, Some (clear, fields) =>
        let '(r, state) := apply_finish state s clear fields handoff first in (Some r, state)
    | None, None => (Some (handoff_result (retry_flag first false) None), persistSession state s)
    end.

(** The guard on the main checkout: [None] ends the report with [{ ok: true }]. *)
Definition release_checkout (state : ControlPlaneState) (s : SessionRecord) (plan : SessionTransitionPlan)
    (handoff : option TerminalHookHandoff) : option ControlPlaneState :=
  if has_effect pick_release_lease plan then
    let '(released, state') :=
      if handoff_holds_checkout handoff then (holdsScheduledLeaseLocal state s, state)
      else releaseScheduledLeaseLocal state s in
    if is_true_opt (Session.mainCheckoutLease s) && negb released then None else Some state'
  else Some state.

Definition apply_plan (state : ControlPlaneState) (s : SessionRecord) (msg : StatusMessage)
    (plan : SessionTransitionPlan) (reportingHostId : option string)
    (reportedResult : option SessionResult) : option StatusResult * ControlPlaneState :=
  let first := isFirstCheckoutFetchFailure msg s in
  if has_effect pick_ignore plan then (Some status_ok, state) else
  match find_effect pick_requeue plan with
  | Some (requeue_infrastructure, fields) => apply_infrastructure_retry state s msg plan fields
  | _ =>
      if negb (bool_decide (Session.status s = running))
      then (Some status_ok, apply_late_report state s msg plan)
      else
        let '(minted, state) :=
          if has_effect pick_finish plan && Status.deferTerminalHookResult msg
          then deferredTerminalHookHandoff state s msg reportingHostId else (Some None, state) in
        match minted with
        | None => (None, state)
        | Some handoff =>
            match release_checkout state s plan handoff with
            | None => (Some status_ok, state)
            | Some state => apply_running_report state s msg plan handoff first reportedResult
            end
        end
  end.

Definition applySessionStatus (state : ControlPlaneState) (msg : StatusMessage)
    (sourceConnectionId : option string) : option StatusResult * ControlPlaneState :=
  let reportedResult := r ← Status.result msg; normalizeSessionResult r in
  match JsMap.get (Status.sessionId msg) (Plane.sessions state) with
  | None => (Some (mkStatusResult false (Some "session not found") None None None), state)
  | Some s =>
      let reportingHostId := hostMessageOwner state (Some s) sourceConnectionId in
      match localDeferredHandoffAck msg s reportingHostId with
      | Some replayed => (Some replayed, state)
      | None =>
          match settle_deferred state s msg reportingHostId with
          | Some done => done
          | None =>
              if settles_timeout s msg then (Some status_ok, settle_timeout state s reportedResult)
              else
                match planSessionTransition (Some s) (hostStatusEvent msg)
                        (plannerContext state local (cachedProviderAccount state s)
                           (hostMessageProtocolVersion state s sourceConnectionId)
                           (Status.deferTerminalHookResult msg)) with
                | None => (None, state)
                | Some plan => apply_plan state s msg plan reportingHostId reportedResult
                end
          end
      end
  end.

(** The [session:status] case: [None] is a thrown error. *)
Definition handleSessionStatus (state : ControlPlaneState) (msg : StatusMessage)
    (sourceConnectionId : option string) : option StatusResult * ControlPlaneState :=
  let owner := hostMessageOwner state (JsMap.get (Status.sessionId msg) (Plane.sessions state))
                 sourceConnectionId in
  match applySessionStatus state msg sourceConnectionId with
  | (None, state) => (None, state)
  | (Some r, state) =>
      (Some r, match (if ok r then truthy_opt owner else None) with
               | Some host => emit state host
                   (msg_status_acknowledged (Status.sessionId msg) (Status.attemptId msg)
                      (retryAccepted r) (terminalHookHandoffId r) (terminalHookHandoffExpiresAt r))
               | None => state
               end)
  end.
End messages.
