(* ===== verification/Registration.v ===== *)
(** * What a daemon says when it registers

    The validators of the untrusted parts of a [host:register] frame:
    modules/shared/src/host-registration.ts, host-runtime.ts,
    host-capabilities.ts and slug.ts, and [parseHostRegistrationRepositories]
    of services/api/src/control-plane-agent-registration.ts.  A value of type
    [unknown] is a [json]; [None] next to it is [undefined]. *)

From Stdlib Require Import ZArith Lia Ascii String.
From stdpp Require Import base strings list.
From S2P Require Import Prelude DateTime Types Ordering AccountLeases CommandResume SessionOutcome.

Local Open Scope string_scope.
Local Open Scope Z_scope.

(** ** Advertisements *)
Module RepoReg.
Record HostRepositoryRegistration := mkHostRepositoryRegistration {
  id : string;
  path : string;
  defaultBranch : option string;
}.
End RepoReg.
Notation HostRepositoryRegistration := RepoReg.HostRepositoryRegistration.

Module RunningAttempt.
Record HostRunningAttempt := mkHostRunningAttempt { sessionId : string; attemptId : string }.
End RunningAttempt.
Notation HostRunningAttempt := RunningAttempt.HostRunningAttempt.

Definition MAX_PROVIDER_ACCOUNT_READINESS : Z := 256.
Definition MAX_PROVIDER_ACCOUNT_ID_LENGTH : Z := 512.

(** The object a typed value is at run time. *)
Definition repository_json (r : HostRepositoryRegistration) : json :=
  JObject ([("id", JString (RepoReg.id r)); ("path", JString (RepoReg.path r))] ++
    opt_member "defaultBranch" JString (RepoReg.defaultBranch r))%list.

Definition attempt_json (a : HostRunningAttempt) : json :=
  JObject [("sessionId", JString (RunningAttempt.sessionId a));
           ("attemptId", JString (RunningAttempt.attemptId a))].

Definition readiness_json (r : ProviderAccountReadiness) : json :=
  JObject [("providerAccountId", JString (Readiness.providerAccountId r));
           ("ready", JBool (Readiness.ready r));
           ("fingerprint", JString (Readiness.fingerprint r))].

(** [typeof v === "string" && v.length > 0]. *)
Definition filled_string (v : option json) : bool :=
  match v with Some (JString s) => 0 <? slen s | _ => false end.

(** [/^[0-9a-f]{64}$/]. *)
Definition is_hex (c : ascii) : bool :=
  let n := Z.of_N (N_of_ascii c) in ((48 <=? n) && (n <=? 57)) || ((97 <=? n) && (n <=? 102)).

Fixpoint all_chars (p : ascii -> bool) (s : string) : bool :=
  match s with "" => true | String c s' => p c && all_chars p s' end.

Definition PROVIDER_ACCOUNT_FINGERPRINT_PATTERN (s : string) : bool :=
  (slen s =? 64) && all_chars is_hex s.

Definition isHostRepositoryRegistration (value : json) : bool :=
  match value with
  | JObject entry =>
      filled_string (JsMap.get "id" entry) && filled_string (JsMap.get "path" entry) &&
      match JsMap.get "defaultBranch" entry with None => true | b => filled_string b end
  | _ => false
  end.

Definition isHostRunningAttempt (value : json) : bool :=
  match value with
  | JObject entry =>
      filled_string (JsMap.get "sessionId" entry) && filled_string (JsMap.get "attemptId" entry)
  | _ => false
  end.

Definition isProviderAccountReadiness (value : json) : bool :=
  match value with
  | JObject entry =>
      match JsMap.get "providerAccountId" entry with
      | Some (JString id) => (0 <? slen id) && (slen id <=? MAX_PROVIDER_ACCOUNT_ID_LENGTH)
      | _ => false
      end &&
      match JsMap.get "ready" entry with Some (JBool _) => true | _ => false end &&
      match JsMap.get "fingerprint" entry with
      | Some (JString f) => PROVIDER_ACCOUNT_FINGERPRINT_PATTERN f
      | _ => false
      end
  | _ => false
  end.

(** The loop the three validators share: every entry is well formed and no key repeats. *)
Fixpoint check_entries {A} (ok : A -> bool) (key : A -> string) (invalid duplicate : string)
    (seen : list string) (l : list A) : option string :=
  match l with
  | [] => None
  | a :: rest =>
      if negb (ok a) then Some invalid
      else if existsb (str_eqb (key a)) seen then Some (duplicate ++ key a)
      else check_entries ok key invalid duplicate (set_add (key a) seen) rest
  end.

Definition validateHostRepositoryRegistrations (repositories : list HostRepositoryRegistration)
    : option string :=
  check_entries (fun r => isHostRepositoryRegistration (repository_json r)) RepoReg.id
    "invalid repository registration" "duplicate repository " [] repositories.

Definition validateHostRunningAttempts (attempts : list HostRunningAttempt) : option string :=
  check_entries (fun a => isHostRunningAttempt (attempt_json a)) RunningAttempt.sessionId
    "invalid running attempt" "duplicate running session " [] attempts.

(** Only the declared properties survive: the record has no others. *)
Definition sanitizeProviderAccountReadiness (readiness : list ProviderAccountReadiness)
    : list ProviderAccountReadiness :=
  map (fun e => Readiness.mkReadiness (Readiness.providerAccountId e) (Readiness.ready e)
                  (Readiness.fingerprint e)) readiness.

Definition validateProviderAccountReadiness (readiness : list ProviderAccountReadiness)
    : option string :=
  if MAX_PROVIDER_ACCOUNT_READINESS <? Z.of_nat (length readiness)
  then Some "too many provider account readiness entries"
  else check_entries (fun r => isProviderAccountReadiness (readiness_json r)) Readiness.providerAccountId
         "invalid provider account readiness" "duplicate provider account " [] readiness.

(** ** Repositories of a registration frame *)
Definition index_error (index : nat) (text : string) : string :=
  "repositories[" ++ number_string (Z.of_nat index) ++ "]" ++ text.

(** One element of the array: the error it throws or the entry it pushes. *)
Definition parse_repository (index : nat) (value : json) : string + HostRepositoryRegistration :=
  match value with
  | JObject entry =>
      match JsMap.get "id" entry, JsMap.get "path" entry with
      | Some (JString id), Some (JString path) =>
          if (slen id =? 0) || (slen path =? 0)
          then inl (index_error index " id and path must be non-empty strings")
          else
            match JsMap.get "defaultBranch" entry with
            | None => inr (RepoReg.mkHostRepositoryRegistration id path None)
            | Some (JString b) => inr (RepoReg.mkHostRepositoryRegistration id path (Some b))
            | Some _ => inl (index_error index ".defaultBranch must be a string")
            end
      | _, _ => inl (index_error index " must contain id and path")
      end
  | _ => inl (index_error index " must contain id and path")
  end.

Fixpoint parse_repositories (index : nat) (raw : list json) : string + list HostRepositoryRegistration :=
  match raw with
  | [] => inr []
  | v :: rest =>
      match parse_repository index v with
      | inl e => inl e
      | inr r => match parse_repositories (S index) rest with inl e => inl e | inr l => inr (r :: l) end
      end
  end.

Definition parseHostRegistrationRepositories (raw : option json)
    : string + option (list HostRepositoryRegistration) :=
  match raw with
  | None => inr None
  | Some (JArray items) =>
      match parse_repositories 0 items with
      | inl e => inl e
      | inr repositories =>
          match validateHostRepositoryRegistrations repositories with
          | Some e => inl e
          | None => inr (Some repositories)
          end
      end
  | Some _ => inl "repositories must be an array"
  end.

(** ** Capabilities *)
Definition HOST_CAPABILITIES : list string :=
  ["scheduled-main-checkout"; "prior-session-context"; "workspace-sessions"; "session-spawn";
   "session-outputs"].

Definition DEFAULT_MAX_CONCURRENT_ASSIGNMENTS : Z := 64.
Definition MAX_CONCURRENT_ASSIGNMENTS_LIMIT : Z := 256.

Definition isHostCapability (value : json) : bool :=
  match value with JString s => existsb (str_eqb s) HOST_CAPABILITIES | _ => false end.

Definition normalizeHostCapabilities (capabilities : option (list string)) : list string :=
  toSorted code_compare (dedup [] (opt_or capabilities [])).

Definition isPositiveAssignmentCap (value : json) : bool :=
  match value with JNumber n => (1 <=? n) && (n <=? MAX_CONCURRENT_ASSIGNMENTS_LIMIT) | _ => false end.

Module Advertisement.
Record HostCapabilitiesAdvertisement := mkAdvertisement {
  features : list string;
  maxConcurrentAssignments : option Z;
}.
End Advertisement.
Notation HostCapabilitiesAdvertisement := Advertisement.HostCapabilitiesAdvertisement.

Definition json_string (v : json) : option string :=
  match v with JString s => Some s | _ => None end.

(** The [features] of an advertisement: [None] rejects it. *)
Definition advertised_features (v : option json) : option (list string) :=
  match v with
  | None => Some []
  | Some (JArray items) =>
      let names := omap json_string items in
      if (Z.of_nat (length HOST_CAPABILITIES) <? Z.of_nat (length items)) ||
         negb (forallb isHostCapability items) ||
         negb (Nat.eqb (length (dedup [] names)) (length items))
      then None else Some (normalizeHostCapabilities (Some names))
  | Some _ => None
  end.

Definition parseHostCapabilitiesAdvertisement (value : option json)
    : option HostCapabilitiesAdvertisement :=
  match value with
  | None => Some (Advertisement.mkAdvertisement [] None)
  | Some (JObject advertised) =>
      if existsb (fun k => negb (str_eqb k "features") && negb (str_eqb k "maxConcurrentAssignments"))
           (JsMap.keys advertised)
      then None
      else
        match advertised_features (JsMap.get "features" advertised) with
        | None => None
        | Some features =>
            match JsMap.get "maxConcurrentAssignments" advertised with
            | None => Some (Advertisement.mkAdvertisement features (Some DEFAULT_MAX_CONCURRENT_ASSIGNMENTS))
            | Some (JNumber n) =>
                if isPositiveAssignmentCap (JNumber n)
                then Some (Advertisement.mkAdvertisement features (Some n)) else None
            | Some _ => None
            end
        end
  | Some _ => None
  end.

Definition defaultMaxConcurrentAssignments (advertised : option Z) : Z :=
  opt_or advertised DEFAULT_MAX_CONCURRENT_ASSIGNMENTS.

(** ** Runtime reports *)
Definition GIT_READINESS_REASONS : list string :=
  ["git_unavailable"; "git_version_unparseable"; "git_version_unsupported"; "git_readiness_unreported"].

Definition MAX_RUNTIME_ENVIRONMENT_NAMES : Z := 512.
Definition MAX_RUNTIME_ENVIRONMENT_NAME_LENGTH : Z := 128.

Definition boundedRuntimeText (candidate : option json) : bool :=
  match candidate with Some (JString s) => (0 <? slen s) && (slen s <=? 128) | _ => false end.

Definition environment_name_ok (v : json) : bool :=
  match v with
  | JString name => (0 <? slen name) && (slen name <=? MAX_RUNTIME_ENVIRONMENT_NAME_LENGTH)
  | _ => false
  end.

(** The [environmentNames] member, when present, is a bounded array of distinct names. *)
Definition environment_names_ok (v : option json) : bool :=
  match v with
  | None => true
  | Some (JArray names) =>
      (Z.of_nat (length names) <=? MAX_RUNTIME_ENVIRONMENT_NAMES) &&
      forallb environment_name_ok names &&
      Nat.eqb (length (dedup [] (omap json_string names))) (length names)
  | Some _ => false
  end.

(** The last test: a ready Git has a version and no reason, any other has a reported reason. *)
Definition readiness_consistent (runtime : list (string * json)) : bool :=
  match JsMap.get "gitReady" runtime with
  | Some (JBool true) =>
      match JsMap.get "gitVersion" runtime with Some JNull => false | _ => true end &&
      negb (is_some (JsMap.get "gitReadinessReason" runtime))
  | _ =>
      match JsMap.get "gitReadinessReason" runtime with
      | Some (JString reason) =>
          existsb (str_eqb reason)
            (List.filter (fun r => negb (str_eqb r "git_readiness_unreported")) GIT_READINESS_REASONS)
      | _ => false
      end
  end.

Definition isHostRuntimeReport (value : json) : bool :=
  match value with
  | JObject runtime =>
      boundedRuntimeText (JsMap.get "daemonVersion" runtime) &&
      match JsMap.get "gitVersion" runtime with Some JNull => true | v => boundedRuntimeText v end &&
      match JsMap.get "gitReady" runtime with Some (JBool _) => true | _ => false end &&
      match JsMap.get "environmentNamesCaseSensitive" runtime with
      | None | Some (JBool _) => true | Some _ => false end &&
      environment_names_ok (JsMap.get "environmentNames" runtime) &&
      readiness_consistent runtime
  | _ => false
  end.

(** The object a typed report is at run time. *)
Definition runtime_json (r : HostRuntimeReport) : json :=
  JObject ([("daemonVersion", JString (Runtime.daemonVersion r));
            ("gitVersion", match Runtime.gitVersion r with Some v => JString v | None => JNull end);
            ("gitReady", JBool (Runtime.gitReady r))] ++
    opt_member "gitReadinessReason" JString (Runtime.gitReadinessReason r) ++
    opt_member "environmentNames" (fun l => JArray (map JString l)) (Runtime.environmentNames r) ++
    opt_member "environmentNamesCaseSensitive" JBool (Runtime.environmentNamesCaseSensitive r))%list.

(** ** Names *)

(** [/^[a-z0-9]+(-[a-z0-9]+)*$/], as the automaton the pattern is: [after] tells
    whether the previous character was a letter or a digit. *)
Definition is_slug_char (c : ascii) : bool :=
  let n := Z.of_N (N_of_ascii c) in ((97 <=? n) && (n <=? 122)) || ((48 <=? n) && (n <=? 57)).

Fixpoint slug_from (after : bool) (s : string) : bool :=
  match s with
  | "" => after
  | String c s' =>
      if is_slug_char c then slug_from true s'
      else if Ascii.eqb c "-"%char then after && slug_from false s' else false
  end.

Definition isValidSlugName (value : string) : bool := slug_from false value.

Definition SLUG_NAME_HINT : string := "lowercase letters, numbers, and dashes only (e.g. my-repo-name)".

(** ** Accepted registrations *)

Lemma check_entries_None {A} ok (key : A -> string) invalid duplicate seen l :
  check_entries ok key invalid duplicate seen l = None <->
  (forall a, In a l -> ok a = true) /\ NoDup (map key l) /\ (forall a, In a l -> ~ In (key a) seen).
Proof.
  revert seen. induction l as [|a l IH]; intros seen; simpl.
  { split; [|done]. intros _. split; [done|]. split; [apply NoDup_nil_2|done]. }
  destruct (ok a) eqn:Hok; simpl; [|split; [done|]; intros [H _]; rewrite (H a) in Hok by (by left); done].
  destruct (existsb (str_eqb (key a)) seen) eqn:E.
  - split; [done|]. intros (_ & _ & H). apply existsb_str_In in E. exfalso. apply (H a); [by left|done].
  - rewrite IH, NoDup_cons, list_elem_of_In, in_map_iff. apply (set_has_not_In (key a) seen) in E. split.
    + intros (Ho & Hn & Hd). split; [intros b [<-|Hb]; [done|by apply Ho]|]. split.
      * split; [|done]. intros (b & Eb & Hb). apply (Hd b Hb). rewrite set_add_In. by left.
      * intros b [<-|Hb]; [done|]. intros Hs. apply (Hd b Hb). rewrite set_add_In. by right.
    + intros (Ho & [Hn1 Hn2] & Hd). split; [intros b Hb; apply Ho; by right|]. split; [done|].
      intros b Hb. rewrite set_add_In. intros [Eb|Hs]; [apply Hn1; by exists b|].
      by apply (Hd b); [right|].
Qed.

(** What the plane relies on in a list of registered repositories. *)
Definition repository_filled (r : HostRepositoryRegistration) : Prop :=
  RepoReg.id r <> "" /\ RepoReg.path r <> "" /\ RepoReg.defaultBranch r <> Some "".

Record registrations_wf (rs : list HostRepositoryRegistration) : Prop := {
  rw_filled : forall r, In r rs -> repository_filled r;
  rw_ids : NoDup (map RepoReg.id rs);
}.

Lemma slen_pos s : 0 < slen s <-> s <> "".
Proof. destruct s; unfold slen; simpl; split; (done || lia || (intros; lia)). Qed.

Lemma repository_json_ok r : isHostRepositoryRegistration (repository_json r) = true <-> repository_filled r.
Proof.
  destruct r as [i p b]. unfold repository_filled, filled_string. simpl.
  rewrite !andb_true_iff, !Z.ltb_lt, !slen_pos.
  destruct b as [b|]; simpl; [rewrite Z.ltb_lt, slen_pos|]; intuition congruence.
Qed.

Lemma validate_repositories_None rs :
  validateHostRepositoryRegistrations rs = None <-> registrations_wf rs.
Proof.
  unfold validateHostRepositoryRegistrations. rewrite check_entries_None. split.
  - intros (H & Hn & _). split; [|done]. intros r Hr. by apply repository_json_ok, H.
  - intros [H Hn]. split; [|split; [done|intros ? ? []]]. intros r Hr. by apply repository_json_ok, H.
Qed.

Lemma parse_repository_json i r :
  RepoReg.id r <> "" -> RepoReg.path r <> "" -> parse_repository i (repository_json r) = inr r.
Proof.
  destruct r as [id p b]. intros Hi Hp. apply slen_pos in Hi, Hp. simpl in Hi, Hp.
  unfold parse_repository, repository_json. cbn [RepoReg.id RepoReg.path RepoReg.defaultBranch].
  assert (slen id =? 0 = false) as E1 by lia. assert (slen p =? 0 = false) as E2 by lia.
  destruct b; simpl; rewrite ?E1, ?E2; done.
Qed.

Lemma parse_repositories_json i rs :
  (forall r, In r rs -> repository_filled r) ->
  parse_repositories i (map repository_json rs) = inr rs.
Proof.
  revert i. induction rs as [|r rs IH]; intros i H; [done|]. cbn [map parse_repositories].
  destruct (H r (or_introl eq_refl)) as (Hi & Hp & _).
  rewrite parse_repository_json by done. rewrite IH; [done|]. intros. apply H. by right.
Qed.

(** The repositories of a registration frame are type checked: whatever a
    daemon sends, a list the parser returns has only non-empty ids, paths and
    branches and no repeated id, and it is exactly such lists that survive being
    sent and parsed unchanged; anything else is an error or the absence of a list. *)
Theorem registration_repositories_exact raw :
  (forall rs, parseHostRegistrationRepositories raw = inr (Some rs) -> registrations_wf rs) /\
  (forall rs, parseHostRegistrationRepositories (Some (JArray (map repository_json rs))) = inr (Some rs) <->
              registrations_wf rs) /\
  (parseHostRegistrationRepositories raw = inr None <-> raw = None).
Proof.
  assert (Hsound : forall raw rs,
    parseHostRegistrationRepositories raw = inr (Some rs) -> registrations_wf rs).
  { intros r rs. unfold parseHostRegistrationRepositories.
    destruct r as [[]|]; try done. destruct (parse_repositories _ _) as [|l]; [done|].
    destruct (validateHostRepositoryRegistrations l) eqn:V; [done|].
    intros [= <-]. by apply validate_repositories_None. }
  split; [by apply Hsound|]. split.
  - intros rs. split; [by apply Hsound|]. intros H. unfold parseHostRegistrationRepositories.
    rewrite parse_repositories_json by apply H. by rewrite (proj2 (validate_repositories_None rs) H).
  - split; [|by intros ->]. unfold parseHostRegistrationRepositories.
    destruct raw as [[]|]; try done. destruct (parse_repositories _ _) as [|l]; [done|].
    by destruct (validateHostRepositoryRegistrations l).
Qed.

(** Accepted running attempts name each session once. *)
Lemma validate_attempts_NoDup attempts :
  validateHostRunningAttempts attempts = None -> NoDup (map RunningAttempt.sessionId attempts).
Proof. unfold validateHostRunningAttempts. rewrite check_entries_None. tauto. Qed.

(** Normalised capabilities: the same features, once each, in code-unit order. *)
Lemma normalize_capabilities_spec caps :
  NoDup (normalizeHostCapabilities caps) /\
  files_sorted (normalizeHostCapabilities caps) /\
  (forall c, In c (normalizeHostCapabilities caps) <-> In c (opt_or caps [])).
Proof.
  unfold normalizeHostCapabilities. split; [|split].
  - rewrite toSorted_perm. apply dedup_NoDup, NoDup_nil_2.
  - apply toSorted_sorted, code_compare_preorder.
  - intros c. rewrite toSorted_In, dedup_In. simpl. tauto.
Qed.
