(* ===== verification/Inventory.v ===== *)
(** * Host inventories

    services/api/src/control-plane-agent-registration.ts (how a registration
    becomes the host's inventory document), control-plane-worktree-names.ts and
    the projections of control-plane-agent-hosts.ts that turn an inventory into
    worktree and workspace-slot rows.  The spread [{ ...prior, id, .. }] of an
    absent [prior] has no other property, so its optional fields are [None]. *)

From Stdlib Require Import ZArith Lia Ascii String Permutation.
From stdpp Require Import base strings list.
From S2P Require Import Prelude DateTime Types Ordering TransitionPlanner SessionTarget AccountLeases.
From S2P Require Import Worktrees Registration.

Local Open Scope string_scope.
Local Open Scope Z_scope.

(** A worktree as a registration frame lists it. *)
Module RegWt.
Record RegisteredWorktree := mkRegisteredWorktree {
  id : string;
  name : string;
  repositoryId : string;
  path : string;
  labels : list string;
}.
End RegWt.
Notation RegisteredWorktree := RegWt.RegisteredWorktree.

Module DaemonId.
Record RegisteredDaemonIdentity := mkDaemonIdentity { instanceId : string; startedAt : string }.
End DaemonId.
Notation RegisteredDaemonIdentity := DaemonId.RegisteredDaemonIdentity.

(** ** Labels *)
Definition sameLabels (left_ right_ : list string) : bool := bool_decide (left_ = right_).

(** [previous?.repositories ?? []]. *)
Definition prior_repositories (previous : option HostInventory) : list HostRepository :=
  match previous with Some p => Inventory.repositories p | None => [] end.

Definition find_repository (id : string) (l : list HostRepository) : option HostRepository :=
  List.find (fun r => str_eqb (HRepository.id r) id) l.

Definition find_worktree (id : string) (l : list HostWorktree) : option HostWorktree :=
  List.find (fun w => str_eqb (HWorktree.id w) id) l.

Definition previousWorktree (previous : option HostInventory) (w : RegisteredWorktree)
    : option HostWorktree :=
  r ← find_repository (RegWt.repositoryId w) (prior_repositories previous);
  find_worktree (RegWt.id w) (HRepository.worktrees r).

Definition registeredWorktreeLabels (previous : option HostInventory) (w : RegisteredWorktree)
    : list string :=
  match previousWorktree previous w with
  | None => RegWt.labels w
  | Some prior =>
      match HWorktree.daemonLabels prior with
      | None => HWorktree.labels prior
      | Some snapshot =>
          if sameLabels (RegWt.labels w) snapshot then HWorktree.labels prior else RegWt.labels w
      end
  end.

Definition withoutDaemonLabelProvenance (record : HostInventory) : HostInventory :=
  record <| Inventory.repositories :=
    map (fun r => r <| HRepository.worktrees :=
      map (fun w => w <| HWorktree.daemonLabels := None |>) (HRepository.worktrees r) |>)
      (Inventory.repositories record) |>.

(** ** Daemon identity *)
Module RuntimeFields.
Record t := mk {
  daemonInstanceId : option string;
  daemonStartedAt : option string;
  restartCount : option Z;
  lastRestartDetectedAt : option string;
  runtime : option HostRuntimeReport;
}.
End RuntimeFields.

Definition preservedDaemonRuntime (previous : option HostInventory) : RuntimeFields.t :=
  RuntimeFields.mk
    (p ← previous; truthy_opt (Inventory.daemonInstanceId p))
    (p ← previous; truthy_opt (Inventory.daemonStartedAt p))
    (p ← previous; Inventory.restartCount p)
    (p ← previous; truthy_opt (Inventory.lastRestartDetectedAt p))
    (p ← previous; Inventory.runtime p).

(** [previous?.daemonInstanceId !== undefined && previous.daemonInstanceId !== identity.instanceId]. *)
Definition daemon_changed (previous : option HostInventory) (identity : RegisteredDaemonIdentity) : bool :=
  match (p ← previous; Inventory.daemonInstanceId p) with
  | Some known => negb (str_eqb known (DaemonId.instanceId identity))
  | None => false
  end.

Definition nextDaemonRuntime (previous : option HostInventory)
    (identity : option RegisteredDaemonIdentity) (detectedAt : string) : RuntimeFields.t :=
  match identity with
  | None => preservedDaemonRuntime previous
  | Some identity =>
      let priorCount := opt_or (p ← previous; Inventory.restartCount p) 0 in
      let changed := daemon_changed previous identity in
      RuntimeFields.mk
        (Some (DaemonId.instanceId identity))
        (Some (match (p ← previous; Inventory.daemonInstanceId p),
                     (p ← previous; truthy_opt (Inventory.daemonStartedAt p)) with
               | Some known, Some startedAt =>
                   if str_eqb known (DaemonId.instanceId identity) then startedAt
                   else DaemonId.startedAt identity
               | _, _ => DaemonId.startedAt identity
               end))
        (Some (priorCount + if changed then 1 else 0))
        (if changed then Some detectedAt
         else p ← previous; truthy_opt (Inventory.lastRestartDetectedAt p))
        None
  end.

(** ** Repositories *)

(** The loop over the worktrees: one entry per repository, in order of first mention. *)
Fixpoint collect_repositories (worktrees : list RegisteredWorktree)
    (byId : JsMap.t HostRepositoryRegistration) : JsMap.t HostRepositoryRegistration :=
  match worktrees with
  | [] => byId
  | w :: rest =>
      collect_repositories rest
        (if JsMap.has (RegWt.repositoryId w) byId then byId
         else JsMap.set (RegWt.repositoryId w)
                (RepoReg.mkHostRepositoryRegistration (RegWt.repositoryId w) (RegWt.path w) (Some "main")) byId)
  end.

Definition repositoriesFromWorktrees (worktrees : list RegisteredWorktree)
    : list HostRepositoryRegistration :=
  JsMap.values (collect_repositories worktrees JsMap.empty).

Definition resolveRegisteredRepositories (repositories : option (list HostRepositoryRegistration))
    (worktrees : list RegisteredWorktree) (previous : option HostInventory)
    : list HostRepositoryRegistration :=
  match repositories with
  | Some repositories => repositories
  | None =>
      match prior_repositories previous with
      | [] => repositoriesFromWorktrees worktrees
      | prior =>
          map (fun r => RepoReg.mkHostRepositoryRegistration (HRepository.id r) (HRepository.path r)
                          (Some (HRepository.defaultBranch r))) prior
      end
  end.

(** No advertised worktree has this one's id, name or path. *)
Definition is_unadvertised (advertised : list RegisteredWorktree) (w : HostWorktree) : bool :=
  negb (set_has (HWorktree.id w) (map RegWt.id advertised)) &&
  negb (set_has (HWorktree.name w) (map RegWt.name advertised)) &&
  negb (set_has (HWorktree.path w) (map RegWt.path advertised)).

Definition unadvertisedWorktrees (prior : option HostRepository) (advertised : list RegisteredWorktree)
    : list HostWorktree :=
  List.filter (is_unadvertised advertised)
    match prior with Some r => HRepository.worktrees r | None => [] end.

Definition unregisteredRepositories (previous : option HostInventory)
    (registered : list HostRepositoryRegistration) (advertised : list RegisteredWorktree)
    : list HostRepository :=
  map (fun r => r <| HRepository.worktrees := unadvertisedWorktrees (Some r) advertised |>)
    (List.filter (fun r => negb (set_has (HRepository.id r) (map RepoReg.id registered)) &&
                           negb (set_has (HRepository.path r) (map RepoReg.path registered)))
       (prior_repositories previous)).

(** [priorById.get(id)]: of two entries with one id the map keeps the later. *)
Definition prior_by_id (previous : option HostInventory) (id : string) : option HostRepository :=
  find_repository id (rev (prior_repositories previous)).

(** [{ ...priorWorktree, id, name, path, labels, daemonLabels }]. *)
Definition registered_worktree (previous : option HostInventory) (prior : option HostRepository)
    (w : RegisteredWorktree) : HostWorktree :=
  let priorWorktree := r ← prior; find_worktree (RegWt.id w) (HRepository.worktrees r) in
  HWorktree.mkHostWorktree (RegWt.id w) (RegWt.name w) (RegWt.path w)
    (registeredWorktreeLabels previous w) (Some (RegWt.labels w))
    (p ← priorWorktree; HWorktree.setupScript p)
    (p ← priorWorktree; HWorktree.setupCacheInputs p)
    (p ← priorWorktree; HWorktree.providerAccountOverrides p).

(** [{ ...prior, id, path, defaultBranch, worktrees }]. *)
Definition registered_repository (previous : option HostInventory) (worktrees : list RegisteredWorktree)
    (repository : HostRepositoryRegistration) : HostRepository :=
  let prior := prior_by_id previous (RepoReg.id repository) in
  let advertised := List.filter (fun w => str_eqb (RegWt.repositoryId w) (RepoReg.id repository)) worktrees in
  HRepository.mkHostRepository (RepoReg.id repository) (RepoReg.path repository)
    (opt_or (RepoReg.defaultBranch repository) (opt_or (HRepository.defaultBranch <$> prior) "main"))
    (map (registered_worktree previous prior) advertised ++ unadvertisedWorktrees prior worktrees)%list
    (p ← prior; HRepository.setupScript p) (p ← prior; HRepository.setupCacheInputs p)
    (p ← prior; HRepository.terminalHookScript p) (p ← prior; HRepository.requiredEnvironment p)
    (p ← prior; HRepository.providerAccountOverrides p).

Definition buildRegisteredInventory (hostId : string) (repositories : list HostRepositoryRegistration)
    (worktrees : list RegisteredWorktree) (capabilities : option (list string)) (updatedAt : string)
    (previous : option HostInventory) (daemonIdentity : option RegisteredDaemonIdentity)
    (runtime : option HostRuntimeReport) (workspacePools : option (list WorkspacePoolAttachment))
    : HostInventory :=
  let daemon := nextDaemonRuntime previous daemonIdentity updatedAt in
  Inventory.mkHostInventory hostId
    (p ← previous; Inventory.setupScript p)
    (p ← previous; Inventory.setupCacheInputs p)
    (p ← previous; Inventory.setupCacheHostInputs p)
    (p ← previous; Inventory.allowedRoots p)
    (p ← previous; Inventory.requiredEnvironment p)
    None
    (RuntimeFields.daemonInstanceId daemon) (RuntimeFields.daemonStartedAt daemon)
    (RuntimeFields.restartCount daemon) (RuntimeFields.lastRestartDetectedAt daemon)
    (opt_else runtime (RuntimeFields.runtime daemon))
    (map (registered_repository previous worktrees) repositories ++
     unregisteredRepositories previous repositories worktrees)%list
    (opt_else (p ← previous; Inventory.workspacePools p) workspacePools)
    (match previous with Some p => Inventory.providerAccounts p | None => [] end)
    capabilities updatedAt
    (Some (opt_or (p ← previous; Inventory.version p) 0 + 1)).

(** ** Worktree names *)

(** The first repeated name of the request, or the set of its names. *)
Fixpoint names_in_body (seen : list string) (worktrees : list HostWorktree) : string + list string :=
  match worktrees with
  | [] => inr seen
  | w :: rest =>
      if set_has (HWorktree.name w) seen
      then inl ("worktree name already used in this same request: " ++ HWorktree.name w)
      else names_in_body (set_add (HWorktree.name w) seen) rest
  end.

Definition findWorktreeNameCollision (state : ControlPlaneState) (hostId : string)
    (repositories : list HostRepository) : option string :=
  match names_in_body [] (flat_map HRepository.worktrees repositories) with
  | inl e => Some e
  | inr names =>
      match List.find (fun w => negb (str_eqb (Worktree.hostId w) hostId) && set_has (Worktree.name w) names)
              (JsMap.values (Plane.worktrees state)) with
      | Some w => Some ("worktree name already in use on host " ++ Worktree.hostId w ++ ": " ++ Worktree.name w)
      | None => None
      end
  end.

(** The worktrees as the single repository [_] that the check is given. *)
Definition body_repository (worktrees : list RegisteredWorktree) : HostRepository :=
  HRepository.mkHostRepository "_" "_" "main"
    (map (fun w => HWorktree.mkHostWorktree (RegWt.id w) (RegWt.name w) (RegWt.path w) (RegWt.labels w)
                     None None None None) worktrees)
    None None None None None.

Definition validateRegisterWorktreeNames (state : ControlPlaneState) (hostId : string)
    (worktrees : list RegisteredWorktree) : option string :=
  match List.find (fun w => negb (isValidSlugName (RegWt.name w))) worktrees with
  | Some w => Some ("worktree." ++ RegWt.id w ++ ".name must be " ++ SLUG_NAME_HINT)
  | None => findWorktreeNameCollision state hostId [body_repository worktrees]
  end.

(** ** Worktree rows *)

Definition project_worktree (state : ControlPlaneState) (host : HostInventory) (repoId : string)
    (w : HostWorktree) : WorktreeRecord :=
  let prev := JsMap.get (HWorktree.id w) (Plane.worktrees state) in
  Worktree.mkWorktree (HWorktree.id w) (HWorktree.name w) (Inventory.hostId host) repoId
    (HWorktree.path w) (HWorktree.labels w)
    (match prev with
     | Some p => if bool_decide (Worktree.status p = busy) then busy else idle
     | None => idle
     end)
    (match prev with
     | Some p => Worktree.online p
     | None => JsMap.has (Inventory.hostId host) (Plane.hostConnection state)
     end)
    (match prev with
     | Some p => match Worktree.currentSessionId p with Val s => Val s | _ => Null end
     | None => Null
     end)
    None
    (match prev with
     | Some p => match Worktree.lastAssignedAt p with Val t => Val t | _ => Null end
     | None => Null
     end).

Definition configured_worktrees (host : HostInventory) : list (string * HostWorktree) :=
  flat_map (fun r => map (fun w => (HRepository.id r, w)) (HRepository.worktrees r))
    (Inventory.repositories host).

Definition projectHostWorktrees (state : ControlPlaneState) (host : HostInventory)
    : list WorktreeRecord * list string :=
  let configuredIds := map (fun rw => HWorktree.id rw.2) (configured_worktrees host) in
  (map (fun rw => project_worktree state host rw.1 rw.2) (configured_worktrees host),
   map fst (List.filter (fun e => str_eqb (Worktree.hostId e.2) (Inventory.hostId host) &&
                                  negb (set_has e.1 configuredIds) &&
                                  negb (bool_decide (Worktree.status e.2 = busy)))
              (Plane.worktrees state))).

Definition delete_worktree (state : ControlPlaneState) (id : string) : ControlPlaneState :=
  state <| Plane.worktrees := JsMap.delete id (Plane.worktrees state) |>.

Definition delete_slot (state : ControlPlaneState) (id : string) : ControlPlaneState :=
  state <| Plane.workspaceSlots := JsMap.delete id (Plane.workspaceSlots state) |>.

Definition syncWorktreesFromHost (state : ControlPlaneState) (host : HostInventory) : ControlPlaneState :=
  let '(worktrees, removedIds) := projectHostWorktrees state host in
  fold_left delete_worktree removedIds (fold_left persistWorktree worktrees state).

(** ** Workspace-slot rows *)

(** The daemon advertised this slot of this pool. *)
Definition slot_advertised (pools : list WorkspacePoolAttachment) (poolId id name path : string) : bool :=
  existsb (fun p => str_eqb (Attachment.workspacePoolId p) poolId &&
    existsb (fun c => str_eqb (WSlot.id c) id && str_eqb (WSlot.name c) name && str_eqb (WSlot.path c) path)
      (Attachment.slots p)) pools.

(** One configured slot; [advertised] is [None] when the caller gives no advertisement. *)
Definition project_slot (state : ControlPlaneState) (host : HostInventory)
    (advertised : option (list WorkspacePoolAttachment)) (poolId : string) (slot : WorkspaceSlot)
    : WorkspaceSlotRecord :=
  let hostId := Inventory.hostId host in
  let previous := JsMap.get (WSlot.id slot) (Plane.workspaceSlots state) in
  let unchanged :=
    match previous with
    | Some p => str_eqb (Slot.hostId p) hostId && str_eqb (Slot.workspacePoolId p) poolId &&
                str_eqb (Slot.path p) (WSlot.path slot)
    | None => false
    end in
  let acknowledged :=
    match advertised with
    | Some pools => slot_advertised pools poolId (WSlot.id slot) (WSlot.name slot) (WSlot.path slot)
    | None => false
    end in
  let kept {A} (f : WorkspaceSlotRecord -> option A) : option A :=
    if unchanged then p ← previous; f p else None in
  let connectionId :=
    if acknowledged then JsMap.get hostId (Plane.hostConnection state)
    else if is_some advertised then None
    else kept Slot.connectionId in
  Slot.mkWorkspaceSlot (WSlot.id slot) (WSlot.name slot) hostId poolId (WSlot.path slot)
    (match previous with
     | Some p => match Slot.status p with idle => idle | s => s end
     | None => idle
     end)
    (match advertised with
     | Some _ => acknowledged && JsMap.has hostId (Plane.hostConnection state)
     | None => opt_or (kept (fun p => Some (Slot.online p))) false
     end)
    (match previous with
     | Some p => match Slot.currentSessionId p with Val s => Val s | _ => Null end
     | None => Null
     end)
    None (truthy_opt connectionId)
    (match previous with
     | Some p => match Slot.lastAssignedAt p with Val t => Val t | _ => Null end
     | None => Null
     end)
    (p ← previous; truthy_opt (Slot.errorMessage p)).

Definition configured_slots (host : HostInventory) : list (string * WorkspaceSlot) :=
  flat_map (fun a => map (fun s => (Attachment.workspacePoolId a, s)) (Attachment.slots a))
    (opt_or (Inventory.workspacePools host) []).

Record SlotProjection := mkSlotProjection {
  projectedSlots : list WorkspaceSlotRecord;
  retiredSlots : list WorkspaceSlotRecord;
  removedSlotIds : list string;
}.

Definition projectHostWorkspaceSlots (state : ControlPlaneState) (host : HostInventory)
    (advertised : option (list WorkspacePoolAttachment)) : SlotProjection :=
  let configuredIds := map (fun ps => WSlot.id ps.2) (configured_slots host) in
  let unconfigured s := str_eqb (Slot.hostId s) (Inventory.hostId host) &&
                        negb (set_has (Slot.id s) configuredIds) in
  let rows := JsMap.values (Plane.workspaceSlots state) in
  mkSlotProjection
    (map (fun ps => project_slot state host advertised ps.1 ps.2) (configured_slots host))
    (map (fun s => s <| Slot.online := false |> <| Slot.retired := Some true |>)
       (List.filter (fun s => unconfigured s && (bool_decide (Slot.status s = busy) ||
                                                 nul_present (Slot.currentSessionId s))) rows))
    (map Slot.id (List.filter (fun s => unconfigured s && negb (bool_decide (Slot.status s = busy))) rows)).

(** [advertised] is [Null] for an explicit [null] and [Undef] when omitted. *)
Definition syncHostWorkspaceSlots (state : ControlPlaneState) (host : HostInventory)
    (advertised : nullable (list WorkspacePoolAttachment)) : ControlPlaneState :=
  let pools := match advertised with
               | Val pools => pools
               | _ => opt_or (Inventory.workspacePools host) []
               end in
  let p := projectHostWorkspaceSlots state host
             match advertised with Null => None | _ => Some pools end in
  let put st s := set_slot st (Slot.id s) s in
  fold_left delete_slot (removedSlotIds p)
    (fold_left put (retiredSlots p) (fold_left put (projectedSlots p) state)).

(** ** Deleting a host *)
Definition inventory_version (h : HostInventory) : Z := opt_or (Inventory.version h) 0.

Inductive InventoryDelete := delete_ok | delete_conflict | delete_error (error : string).

Definition slot_active (s : WorkspaceSlotRecord) : bool :=
  bool_decide (Slot.status s = busy) || nul_present (Slot.currentSessionId s).

Definition deleteHostInventory (state : ControlPlaneState) (hostId : string) (expectedVersion : option Z)
    : InventoryDelete * ControlPlaneState :=
  match JsMap.get hostId (Plane.hostInventories state) with
  | None => (delete_error "agent host config not found", state)
  | Some existing =>
      let expected := opt_or expectedVersion (inventory_version existing) in
      if negb (inventory_version existing =? expected) then (delete_conflict, state)
      else if existsb (fun s => str_eqb (Slot.hostId s) hostId && slot_active s)
                (JsMap.values (Plane.workspaceSlots state))
      then (delete_error "host has active workspace slots", state)
      else
        (delete_ok,
         state <| Plane.hostInventories := JsMap.delete hostId (Plane.hostInventories state) |>
               <| Plane.hostInventoryRevision := Plane.hostInventoryRevision state + 1 |>
               <| Plane.worktrees :=
                    List.filter (fun e => negb (str_eqb (Worktree.hostId e.2) hostId)) (Plane.worktrees state) |>
               <| Plane.workspaceSlots :=
                    List.filter (fun e => negb (str_eqb (Slot.hostId e.2) hostId)) (Plane.workspaceSlots state) |>)
  end.

Definition getHostInventory (state : ControlPlaneState) (hostId : string) : option HostInventory :=
  withoutDaemonLabelProvenance <$> JsMap.get hostId (Plane.hostInventories state).

Definition listHostInventories {LC : LocaleCompare} (state : ControlPlaneState) : list HostInventory :=
  map withoutDaemonLabelProvenance
    (toSorted (fun a b => localeCompare (Inventory.hostId a) (Inventory.hostId b))
       (JsMap.values (Plane.hostInventories state))).

(** ** What a registration keeps *)

Lemma find_repository_In id l r : find_repository id l = Some r -> In r l /\ HRepository.id r = id.
Proof. intros H. apply find_some in H as [Hin E]. by apply str_eqb_true in E. Qed.

Lemma find_repository_unique l r :
  NoDup (map HRepository.id l) -> In r l -> find_repository (HRepository.id r) l = Some r.
Proof.
  induction l as [|x l IH]; intros Hn Hr; [done|]. simpl in *. apply NoDup_cons in Hn as [Hx Hn].
  unfold find_repository. simpl. destruct (str_eqb (HRepository.id x) (HRepository.id r)) eqn:E.
  - apply str_eqb_true in E. destruct Hr as [->|Hr]; [done|]. exfalso. apply Hx.
    rewrite E. by apply list_elem_of_In, in_map.
  - destruct Hr as [->|Hr]; [by rewrite str_eqb_refl in E|by apply IH].
Qed.

Lemma find_repository_rev id l :
  NoDup (map HRepository.id l) -> find_repository id (rev l) = find_repository id l.
Proof.
  intros Hn. destruct (find_repository id l) as [r|] eqn:E.
  - apply find_repository_In in E as [Hr <-]. apply find_repository_unique; [by rewrite map_rev, <- Permutation_rev|].
    by apply in_rev in Hr.
  - destruct (find_repository id (rev l)) as [r|] eqn:E'; [|done].
    apply find_repository_In in E' as [Hr <-]. apply in_rev in Hr. by rewrite (find_repository_unique l r Hn Hr) in E.
Qed.

Lemma prior_by_id_find previous id :
  NoDup (map HRepository.id (prior_repositories previous)) ->
  prior_by_id previous id = find_repository id (prior_repositories previous).
Proof. apply find_repository_rev. Qed.

Lemma prior_by_id_unique previous r :
  NoDup (map HRepository.id (prior_repositories previous)) -> In r (prior_repositories previous) ->
  prior_by_id previous (HRepository.id r) = Some r.
Proof.
  intros Hn Hr. unfold prior_by_id. apply find_repository_unique; [|by apply in_rev in Hr].
  rewrite map_rev, <- Permutation_rev. done.
Qed.

(** The operator's settings of a repository are as before. *)
Definition repository_settings_kept (r r' : HostRepository) : Prop :=
  HRepository.id r' = HRepository.id r /\
  HRepository.setupScript r' = HRepository.setupScript r /\
  HRepository.setupCacheInputs r' = HRepository.setupCacheInputs r /\
  HRepository.terminalHookScript r' = HRepository.terminalHookScript r /\
  HRepository.requiredEnvironment r' = HRepository.requiredEnvironment r /\
  HRepository.providerAccountOverrides r' = HRepository.providerAccountOverrides r.

(** The operator's settings of the host are as before, but for the update policy. *)
Definition host_settings_kept (h h' : HostInventory) : Prop :=
  Inventory.setupScript h' = Inventory.setupScript h /\
  Inventory.setupCacheInputs h' = Inventory.setupCacheInputs h /\
  Inventory.setupCacheHostInputs h' = Inventory.setupCacheHostInputs h /\
  Inventory.allowedRoots h' = Inventory.allowedRoots h /\
  Inventory.requiredEnvironment h' = Inventory.requiredEnvironment h /\
  Inventory.providerAccounts h' = Inventory.providerAccounts h /\
  (is_some (Inventory.workspacePools h) = true -> Inventory.workspacePools h' = Inventory.workspacePools h).

(** The operator's settings of a worktree are as before, when it was listed. *)
Definition worktree_settings_kept (prior : option HostWorktree) (w' : HostWorktree) : Prop :=
  HWorktree.setupScript w' = mbind HWorktree.setupScript prior /\
  HWorktree.setupCacheInputs w' = mbind HWorktree.setupCacheInputs prior /\
  HWorktree.providerAccountOverrides w' = mbind HWorktree.providerAccountOverrides prior.

Section registration.
Context (hostId : string) (repositories : list HostRepositoryRegistration)
  (worktrees : list RegisteredWorktree) (capabilities : option (list string)) (updatedAt : string)
  (previous : option HostInventory) (identity : option RegisteredDaemonIdentity)
  (runtime : option HostRuntimeReport) (pools : option (list WorkspacePoolAttachment)).

Let next : HostInventory :=
  buildRegisteredInventory hostId repositories worktrees capabilities updatedAt previous identity
    runtime pools.

(** The registration gave the repository's path to another id. *)
Definition repository_replaced (r : HostRepository) : Prop :=
  ~ In (HRepository.id r) (map RepoReg.id repositories) /\
  In (HRepository.path r) (map RepoReg.path repositories).

Lemma repository_kept r :
  NoDup (map HRepository.id (prior_repositories previous)) ->
  In r (prior_repositories previous) -> ~ repository_replaced r ->
  exists r', In r' (Inventory.repositories next) /\ repository_settings_kept r r' /\
    (forall w, In w (HRepository.worktrees r) -> is_unadvertised worktrees w = true ->
       In w (HRepository.worktrees r')).
Proof.
  intros Hn Hr Hrep. cbn.
  assert (forall w, In w (HRepository.worktrees r) -> is_unadvertised worktrees w = true ->
    In w (unadvertisedWorktrees (Some r) worktrees)) as Hkept by (intros w Hw Hu; by apply filter_In).
  destruct (set_has (HRepository.id r) (map RepoReg.id repositories)) eqn:E.
  - pose proof E as E'. apply set_has_In, in_map_iff in E' as (reg & Ei & Hreg).
    exists (registered_repository previous worktrees reg).
    pose proof (prior_by_id_unique previous r Hn Hr) as Hp. rewrite <- Ei in Hp.
    split; [apply in_app_iff; left; by apply in_map|]. unfold repository_settings_kept. cbn. rewrite Hp. cbn.
    split; [by repeat split|]. intros w Hw Hu. apply in_app_iff. right. by apply Hkept.
  - exists (r <| HRepository.worktrees := unadvertisedWorktrees (Some r) worktrees |>).
    split; [|by split]. apply in_app_iff. right. unfold unregisteredRepositories.
    apply in_map_iff. exists r. split; [done|]. apply filter_In. split; [done|]. rewrite E. simpl.
    destruct (set_has (HRepository.path r) (map RepoReg.path repositories)) eqn:E2; [|done].
    exfalso. apply Hrep. split; [by apply set_has_not_In|by apply set_has_In].
Qed.

Lemma advertised_listed w reg :
  In w worktrees -> In reg repositories -> RepoReg.id reg = RegWt.repositoryId w ->
  exists r', In r' (Inventory.repositories next) /\ HRepository.id r' = RegWt.repositoryId w /\
    HRepository.path r' = RepoReg.path reg /\
    In (registered_worktree previous (prior_by_id previous (RegWt.repositoryId w)) w)
       (HRepository.worktrees r').
Proof.
  intros Hw Hreg E. exists (registered_repository previous worktrees reg).
  split; [apply in_app_iff; left; by apply in_map|]. cbn. rewrite E.
  split; [done|]. split; [done|]. apply in_app_iff. left. apply in_map. apply filter_In.
  split; [done|apply str_eqb_refl].
Qed.
End registration.

(** [C37] What a registration keeps of the operator's configuration, when the stored inventory
    lists no repository id twice.  Every repository listed before is listed after with the same
    setup script, setup cache inputs, terminal hook, required environment and account overrides,
    and holds verbatim every worktree it had that the daemon does not advertise (by id, name or
    path), unless the daemon registered its path under another id and not its own.  Every
    advertised worktree of a registered repository is listed with the advertised id, name, path
    and labels snapshot, and with the setup script, cache inputs and account overrides it had
    there.  Of the host the setup script, both cache input lists, allowed roots, required
    environment, accounts and the pools, when any are stored, are kept; the update policy is the
    exception, it is always dropped.  The version advances by one. *)
Theorem registration_keeps_configuration hostId repositories worktrees capabilities updatedAt previous
    identity runtime pools :
  let next := buildRegisteredInventory hostId repositories worktrees capabilities updatedAt
                (Some previous) identity runtime pools in
  NoDup (map HRepository.id (Inventory.repositories previous)) ->
  (forall r, In r (Inventory.repositories previous) -> ~ repository_replaced repositories r ->
     exists r', In r' (Inventory.repositories next) /\ repository_settings_kept r r' /\
       (forall w, In w (HRepository.worktrees r) -> is_unadvertised worktrees w = true ->
          In w (HRepository.worktrees r'))) /\
  (forall w reg, In w worktrees -> In reg repositories -> RepoReg.id reg = RegWt.repositoryId w ->
     exists r' w', In r' (Inventory.repositories next) /\ HRepository.id r' = RegWt.repositoryId w /\
       In w' (HRepository.worktrees r') /\ HWorktree.id w' = RegWt.id w /\ HWorktree.name w' = RegWt.name w /\
       HWorktree.path w' = RegWt.path w /\ HWorktree.daemonLabels w' = Some (RegWt.labels w) /\
       worktree_settings_kept (previousWorktree (Some previous) w) w') /\
  host_settings_kept previous next /\
  Inventory.updateConfig next = None /\
  inventory_version next = inventory_version previous + 1.
Proof.
  intros next Hn. split; [|split].
  - intros r Hr Hrep. by apply (repository_kept hostId repositories worktrees).
  - intros w reg Hw Hreg E.
    destruct (advertised_listed hostId repositories worktrees capabilities updatedAt (Some previous) identity
                runtime pools w reg Hw Hreg E) as (r' & Hr & Hi & _ & Hin).
    exists r'. eexists. split; [exact Hr|]. split; [exact Hi|]. split; [exact Hin|]. do 4 (split; [done|]).
    unfold worktree_settings_kept, previousWorktree. by rewrite <- (prior_by_id_find (Some previous)).
  - split; [|by split]. unfold host_settings_kept. cbn. do 6 (split; [done|]). by destruct (Inventory.workspacePools previous).
Qed.

Definition witness_worktree : HostWorktree :=
  HWorktree.mkHostWorktree "w9" "nine" "/repo/.worktrees/nine" ["gpu"] None None None None.

Definition witness_repository : HostRepository :=
  HRepository.mkHostRepository "repo" "/repo" "main" [witness_worktree] (Some "./setup.sh") None None None None.

Definition witness_inventory : HostInventory :=
  Inventory.mkHostInventory "h1" None None None None None None None None None None None [witness_repository] None []
    None "2026-01-01T00:00:00.000Z" (Some 3).

Lemma registration_keeps_configuration_witness :
  exists r', In r' (Inventory.repositories
      (buildRegisteredInventory "h1" [RepoReg.mkHostRepositoryRegistration "repo" "/repo" None]
         [RegWt.mkRegisteredWorktree "w1" "one" "repo" "/repo/.worktrees/one" []] None "2026-01-02T00:00:00.000Z"
         (Some witness_inventory) None None None)) /\ In witness_worktree (HRepository.worktrees r').
Proof.
  pose proof (registration_keeps_configuration "h1" [RepoReg.mkHostRepositoryRegistration "repo" "/repo" None]
    [RegWt.mkRegisteredWorktree "w1" "one" "repo" "/repo/.worktrees/one" []] None "2026-01-02T00:00:00.000Z"
    witness_inventory None None None) as [H _]; [by repeat constructor; intros ?%elem_of_nil|].
  destruct (H witness_repository) as (r' & Hr & _ & Hw); [by left|by intros [Hn _]; apply Hn; left|].
  exists r'. split; [exact Hr|]. apply Hw; [by left|reflexivity].
Defined.
