(* ===== verification/Reconnect.v ===== *)
(** * Reconnection of a host

    services/api/src: control-plane-reconnect.ts, control-plane-reconnect-confirm.ts,
    control-plane-reconnect-scheduled-confirm.ts, control-plane-reconnect-rollback.ts,
    control-plane-reconnect-scheduled.ts, control-plane-reconnect-omitted.ts and
    control-plane-terminal-hook-handoff.ts, without storage.

    Without a storage these asynchronous functions only await promises that are
    already resolved; each is one atomic operation here.  The loops run over a
    snapshot of session objects: a body that mutates its session returns the
    mutated object, so that later passes over the same snapshot see it. *)

From Stdlib Require Import ZArith Lia Ascii String.
From stdpp Require Import base strings list.
From S2P Require Import Prelude DateTime Types Ordering TransitionPlanner SessionTarget.
From S2P Require Import AccountLeases Placement SessionOutcome Worktrees Assignment HostMessages Registration.

Local Open Scope string_scope.
Local Open Scope Z_scope.

Section reconnect.
Context {DP : DateParse}.

(** ** Claims *)

(** [new Map(attempts.map(a => [a.sessionId, a.attemptId])).get(id)]: the last entry wins. *)
Definition claimed_attempt (attempts : list HostRunningAttempt) (id : string) : option string :=
  RunningAttempt.attemptId <$>
    List.find (fun a => str_eqb (RunningAttempt.sessionId a) id) (rev attempts).

Definition ignoreStaleReconnectClaim (state : ControlPlaneState) (session : option SessionRecord)
    (attemptId : option string) : bool :=
  match session, attemptId with
  | Some s, Some a =>
      match planSessionTransition (Some s) (ev_reconnect_claim a)
              (Ctx.mkContext (Plane.now state) local None None None None) with
      | Some plan => has_effect pick_ignore plan
      | None => false
      end
  | _, _ => false
  end.

(** ** Confirming a report *)

(** [{ ...worktree, online: true, ...(connectionId ? { connectionId } : {}) }]. *)
Definition online_worktree (w : WorktreeRecord) (connectionId : option string) : WorktreeRecord :=
  let w := w <| Worktree.online := true |> in
  match truthy_opt connectionId with
  | Some c => w <| Worktree.connectionId := Some c |>
  | None => w
  end.

Definition online_slot (s : WorkspaceSlotRecord) (connectionId : option string) : WorkspaceSlotRecord :=
  let s := s <| Slot.online := true |> in
  match truthy_opt connectionId with
  | Some c => s <| Slot.connectionId := Some c |>
  | None => s
  end.

Definition forget_deadline (s : SessionRecord) : SessionRecord :=
  s <| Session.reconnectDeadlineAt := None |>.

Definition confirmReportedSession (state : ControlPlaneState) (s : SessionRecord) (w : WorktreeRecord)
    (connectionId : option string) : ControlPlaneState :=
  set_worktree (update_session state (Session.id s) (forget_deadline s))
    (Worktree.id w) (online_worktree w connectionId).

Definition confirmReportedWorkspaceSession (state : ControlPlaneState) (s : SessionRecord)
    (slot : WorkspaceSlotRecord) (connectionId : option string) : ControlPlaneState :=
  set_slot (update_session state (Session.id s) (forget_deadline s))
    (Slot.id slot) (online_slot slot connectionId).

Definition set_checkout (state : ControlPlaneState) (k : string) (l : MainCheckoutLease) : ControlPlaneState :=
  state <| Plane.mainCheckoutLeases := JsMap.set k l (Plane.mainCheckoutLeases state) |>.

Definition confirmScheduledReconnect (state : ControlPlaneState) (s : SessionRecord) (hostId : string)
    (connectionId : option string) : bool * ControlPlaneState :=
  match truthy_opt (Session.assignmentConnectionId s), truthy_opt connectionId with
  | Some old, Some connectionId =>
      if negb (is_some (truthy_opt (Session.ackReceivedAt s))) ||
         negb (bool_decide (Session.status s = running))
      then (false, state)
      else
        let key := main_checkout_key hostId (Session.repositoryId s) in
        let state :=
          match JsMap.get key (Plane.mainCheckoutLeases state) with
          | Some lease =>
              if str_eqb (Checkout.sessionId lease) (Session.id s) &&
                 str_eqb (Checkout.connectionId lease) old
              then set_checkout state key (lease <| Checkout.connectionId := connectionId |>)
              else state
          | None => state
          end in
        (true, update_session state (Session.id s)
                 ((forget_deadline s) <| Session.assignmentConnectionId := Some connectionId |>))
  | _, _ => (false, state)
  end.

(** ** Rolling confirmations back *)
Inductive ReconnectConfirmation :=
| confirmed_worktree (s : SessionRecord) (w : WorktreeRecord)
| confirmed_slot (s : SessionRecord) (slot : WorkspaceSlotRecord).

Definition restore_confirmed (state : ControlPlaneState) (item : ReconnectConfirmation) : ControlPlaneState :=
  match item with
  | confirmed_worktree s w => set_worktree (update_session state (Session.id s) s) (Worktree.id w) w
  | confirmed_slot s slot => set_slot (update_session state (Session.id s) s) (Slot.id slot) slot
  end.

Definition restoreConfirmedSessions (state : ControlPlaneState) (confirmed : list ReconnectConfirmation)
    : ControlPlaneState :=
  fold_left restore_confirmed (rev confirmed) state.

(** One scheduled confirmation; [None] when the deadline cannot be computed. *)
Definition restore_scheduled (state : ControlPlaneState) (hostId : string) (connectionId : option string)
    (prior : SessionRecord) : option unit * ControlPlaneState :=
  match truthy_opt connectionId, truthy_opt (Session.assignmentConnectionId prior) with
  | Some _, Some old =>
      match opt_else (Session.reconnectDeadlineAt prior) (now_plus state (Plane.reconnectGraceMs state)) with
      | None => (None, state)
      | Some deadline =>
          (Some tt,
           set_checkout
             (update_session state (Session.id prior) (prior <| Session.reconnectDeadlineAt := Some deadline |>))
             (main_checkout_key hostId (Session.repositoryId prior))
             (Checkout.mkMainCheckoutLease (Session.id prior) old))
      end
  | _, _ => (Some tt, state)
  end.

Fixpoint restore_scheduled_all (state : ControlPlaneState) (hostId : string) (connectionId : option string)
    (items : list SessionRecord) : option unit * ControlPlaneState :=
  match items with
  | [] => (Some tt, state)
  | s :: rest =>
      match restore_scheduled state hostId connectionId s with
      | (None, state) => (None, state)
      | (Some _, state) => restore_scheduled_all state hostId connectionId rest
      end
  end.

Definition restoreScheduledReconnects (state : ControlPlaneState) (hostId : string)
    (connectionId : option string) (confirmed : list SessionRecord) : option unit * ControlPlaneState :=
  restore_scheduled_all state hostId connectionId (rev confirmed).

(** Both rollbacks in the order of the code. *)
Definition roll_back (state : ControlPlaneState) (hostId : string) (connectionId : option string)
    (confirmed : list ReconnectConfirmation) (scheduled : list SessionRecord)
    : option unit * ControlPlaneState :=
  restoreScheduledReconnects (restoreConfirmedSessions state confirmed) hostId connectionId scheduled.

(** ** Sessions a host no longer reports *)

(** What one pass adds: requeued sessions and sessions left with a terminal hook. *)
Record Omitted := mkOmitted { requeuedIds : list string; handoffIds : list string }.

Definition omitted_none : Omitted := mkOmitted [] [].

Definition omitted_app (a b : Omitted) : Omitted :=
  mkOmitted (requeuedIds a ++ requeuedIds b)%list (handoffIds a ++ handoffIds b)%list.

(** A pass over a snapshot: [None] when a body throws; the snapshot as it was mutated. *)
Fixpoint snapshot_pass (body : ControlPlaneState -> SessionRecord -> option Omitted * SessionRecord * ControlPlaneState)
    (sessions : list SessionRecord) (state : ControlPlaneState)
    : option Omitted * list SessionRecord * ControlPlaneState :=
  match sessions with
  | [] => (Some omitted_none, [], state)
  | s :: rest =>
      match body state s with
      | (None, s, state) => (None, s :: rest, state)
      | (Some out, s, state) =>
          let '(more, rest, state) := snapshot_pass body rest state in
          (omitted_app out <$> more, s :: rest, state)
      end
  end.

Definition acknowledged (s : SessionRecord) : bool := is_some (truthy_opt (Session.ackReceivedAt s)).
Definition retryable_loss (s : SessionRecord) : bool := acknowledged s && canRetryHostLoss s.
Definition terminal_loss (s : SessionRecord) : bool := acknowledged s && negb (canRetryHostLoss s).

(** [terminalHostLoss ? hostLostTerminalHookHandoff(state, session) : undefined]. *)
Definition loss_handoff (state : ControlPlaneState) (s : SessionRecord)
    : option (option TerminalHookHandoff) * ControlPlaneState :=
  if terminal_loss s then hostLostTerminalHookHandoff state s else (Some None, state).

(** The next record of an omitted session, from the session and its handoff. *)
Definition lost_session (state : ControlPlaneState) (s : SessionRecord) (reason : string)
    (handoff : option TerminalHookHandoff) : SessionRecord * ControlPlaneState :=
  if retryable_loss s then (queueHostLossRetry s, state)
  else if terminal_loss s then finishHostLostSession state s handoff
  else (queueReconnectSession s reason, state).

Definition lost_outcome (s : SessionRecord) (handoff : option TerminalHookHandoff) : Omitted :=
  mkOmitted (if terminal_loss s then [] else [Session.id s])
            (if is_some handoff then [Session.id s] else []).

(** An error thrown after the session object was mutated: the object is the map's own
    unless an earlier pass has replaced it, which changes its status. *)
Definition keep_mutation (state : ControlPlaneState) (s : SessionRecord) : ControlPlaneState :=
  match JsMap.get (Session.id s) (Plane.sessions state) with
  | Some current =>
      if bool_decide (Session.status current = Session.status s)
      then update_session state (Session.id s) s else state
  | None => state
  end.

Definition requeue_omitted_worktree (hostId : string) (running_ : list string) (reason : string)
    (state : ControlPlaneState) (s : SessionRecord) : option Omitted * SessionRecord * ControlPlaneState :=
  let skip := (Some omitted_none, s, state) in
  if negb (bool_decide (Session.status s = running)) then skip else
  match truthy_nul (Session.worktreeId s) with
  | None => skip
  | Some worktreeId =>
      if set_has (Session.id s) running_ then skip else
      match JsMap.get worktreeId (Plane.worktrees state) with
      | None => skip
      | Some w =>
          if negb (bool_decide (Worktree.status w = busy)) ||
             negb (bool_decide (Worktree.currentSessionId w = Val (Session.id s))) ||
             negb (str_eqb (Worktree.hostId w) hostId)
          then skip
          else
            let '(state, s) := releaseProviderAccountLease state s in
            match loss_handoff state s with
            | (None, state) => (None, s, keep_mutation state s)
            | (Some handoff, state) =>
                let '(next, state) := lost_session state s reason handoff in
                let state := update_session state (Session.id s) next in
                let state := if is_some handoff then state else releaseWorktree state (Worktree.id w) in
                (Some (lost_outcome s handoff), s, forget_ack state (Session.id s))
            end
      end
  end.

Definition retainsMainCheckoutLease (state : ControlPlaneState) (s : SessionRecord)
    (handoff : option TerminalHookHandoff) : bool :=
  if negb (handoff_holds_checkout handoff) then false else
  match truthy_nul (Session.hostId s), truthy_opt (Session.assignmentConnectionId s) with
  | Some hostId, Some connectionId =>
      match JsMap.get (main_checkout_key hostId (Session.repositoryId s)) (Plane.mainCheckoutLeases state) with
      | Some lease => str_eqb (Checkout.sessionId lease) (Session.id s) &&
                      str_eqb (Checkout.connectionId lease) connectionId
      | None => false
      end
  | _, _ => false
  end.

(** [handoff?.mainCheckoutLease ? retainsMainCheckoutLease(..) : releaseScheduledLeaseLocal(..)]. *)
Definition release_lost_checkout (state : ControlPlaneState) (s : SessionRecord)
    (handoff : option TerminalHookHandoff) : bool * ControlPlaneState :=
  if handoff_holds_checkout handoff then (retainsMainCheckoutLease state s handoff, state)
  else releaseScheduledLeaseLocal state s.

Definition requeue_omitted_scheduled (running_ : list string) (reason : string)
    (state : ControlPlaneState) (s : SessionRecord) : option Omitted * SessionRecord * ControlPlaneState :=
  if negb (is_true_opt (Session.mainCheckoutLease s)) ||
     negb (bool_decide (Session.status s = running)) || set_has (Session.id s) running_ ||
     negb (is_some (truthy_opt (Session.assignmentConnectionId s)))
  then (Some omitted_none, s, state)
  else
    match loss_handoff state s with
    | (None, state) => (None, s, state)
    | (Some handoff, state) =>
        match release_lost_checkout state s handoff with
        | (false, state) => (Some omitted_none, s, state)
        | (true, state) =>
            let '(state, s) := releaseProviderAccountLease state s in
            let '(next, state) := lost_session state s reason handoff in
            (Some (lost_outcome s handoff), s,
             forget_ack (update_session state (Session.id s) next) (Session.id s))
        end
    end.

(** [{ ...slot, status: "idle", currentSessionId: null }] with the error message removed,
    then the removal of a retired slot. *)
Definition free_slot (state : ControlPlaneState) (slot : WorkspaceSlotRecord) : ControlPlaneState :=
  (removeReleasedRetiredWorkspaceSlot
     (set_slot state (Slot.id slot) (slot <| Slot.status := idle |> <| Slot.currentSessionId := Null |>))
     (Slot.id slot)).2.

(** The next record of a lost workspace session; [None] when the clock cannot be read. *)
Definition lost_workspace_session (state : ControlPlaneState) (s : SessionRecord) (reason : string)
    : option SessionRecord * ControlPlaneState :=
  if retryable_loss s then (Some (queueHostLossRetry s), state)
  else if terminal_loss s then finishHostLostWorkspaceSession state s
  else (Some (queueReconnectSession s reason), state).

Definition requeue_omitted_workspace (hostId : string) (running_ : list string) (reason : string)
    (state : ControlPlaneState) (s : SessionRecord) : option Omitted * SessionRecord * ControlPlaneState :=
  let skip := (Some omitted_none, s, state) in
  if negb (bool_decide (Session.status s = running)) || set_has (Session.id s) running_ then skip else
  match truthy_nul (Session.workspaceSlotId s) with
  | None => skip
  | Some slotId =>
      match JsMap.get slotId (Plane.workspaceSlots state) with
      | None => skip
      | Some slot =>
          if negb (bool_decide (Slot.status slot = busy)) ||
             negb (bool_decide (Slot.currentSessionId slot = Val (Session.id s))) ||
             negb (str_eqb (Slot.hostId slot) hostId)
          then skip
          else
            let '(state, s) := releaseProviderAccountLease state s in
            match lost_workspace_session state s reason with
            | (None, state) => (None, s, keep_mutation state s)
            | (Some next, state) =>
                let state := update_session state (Session.id s) next in
                let state := free_slot state (slot <| Slot.errorMessage := None |>) in
                (Some (mkOmitted (if terminal_loss s then [] else [Session.id s]) []), s,
                 forget_ack state (Session.id s))
            end
      end
  end.

(** The three passes; [None] when one of them throws. *)
Definition reconcileHostOwnedSessions (state : ControlPlaneState) (hostId : string)
    (running_ : list string) (reason : string) : option Omitted * ControlPlaneState :=
  let active := List.filter (fun s => bool_decide (Session.hostId s = Val hostId))
                  (JsMap.values (Plane.sessions state)) in
  match snapshot_pass (requeue_omitted_worktree hostId running_ reason) active state with
  | (None, _, state) => (None, state)
  | (Some out1, active, state) =>
      match snapshot_pass (requeue_omitted_scheduled running_ reason) active state with
      | (None, _, state) => (None, state)
      | (Some out2, active, state) =>
          match snapshot_pass (requeue_omitted_workspace hostId running_ reason) active state with
          | (None, _, state) => (None, state)
          | (Some out3, _, state) => (Some (omitted_app out1 (omitted_app out2 out3)), state)
          end
      end
  end.

(** ** Reconciling a registration *)

(** The loop over the reported sessions: what is confirmed so far. *)
Record Claims := mkClaims {
  stillRunning : list string;
  confirmedClaims : list ReconnectConfirmation;
  scheduledClaims : list SessionRecord;
}.

(** One reported session: [None] rejects the registration. *)
Definition confirm_claim (hostId : string) (connectionId : option string)
    (attempts : list HostRunningAttempt) (state : ControlPlaneState) (c : Claims) (sessionId : string)
    : option Claims * ControlPlaneState :=
  let session := JsMap.get sessionId (Plane.sessions state) in
  if ignoreStaleReconnectClaim state session (claimed_attempt attempts sessionId)
  then (Some (mkClaims (set_delete sessionId (stillRunning c)) (confirmedClaims c) (scheduledClaims c)), state)
  else
    match session with
    | None => (None, state)
    | Some s =>
        if is_true_opt (Session.mainCheckoutLease s) then
          match confirmScheduledReconnect state s hostId connectionId with
          | (false, state) => (None, state)
          | (true, state) =>
              (Some (mkClaims (stillRunning c) (confirmedClaims c) (scheduledClaims c ++ [s])%list),
               update_session state (Session.id s)
                 ((forget_deadline s) <| Session.assignmentConnectionId := connectionId |>))
          end
        else
          match truthy_nul (Session.workspaceSlotId s) with
          | Some slotId =>
              match JsMap.get slotId (Plane.workspaceSlots state) with
              | Some slot =>
                  if acknowledged s &&
                     (bool_decide (Session.status s = running) || bool_decide (Session.status s = cancelled)) &&
                     bool_decide (Session.hostId s = Val hostId) && str_eqb (Slot.hostId slot) hostId &&
                     bool_decide (Slot.currentSessionId slot = Val (Session.id s))
                  then (Some (mkClaims (stillRunning c) (confirmedClaims c ++ [confirmed_slot s slot])%list
                                (scheduledClaims c)),
                        confirmReportedWorkspaceSession state s slot connectionId)
                  else (None, state)
              | None => (None, state)
              end
          | None =>
              match (w ← truthy_nul (Session.worktreeId s); JsMap.get w (Plane.worktrees state)) with
              | Some w =>
                  if bool_decide (Session.status s = running) && acknowledged s &&
                     bool_decide (Session.hostId s = Val hostId) && str_eqb (Worktree.hostId w) hostId &&
                     bool_decide (Worktree.currentSessionId w = Val (Session.id s))
                  then (Some (mkClaims (stillRunning c) (confirmedClaims c ++ [confirmed_worktree s w])%list
                                (scheduledClaims c)),
                        confirmReportedSession state s w connectionId)
                  else (None, state)
              | None => (None, state)
              end
          end
    end.

(** [(true, ..)] when every claim is confirmed; [(false, ..)] at the first that is not. *)
Fixpoint confirm_claims (hostId : string) (connectionId : option string)
    (attempts : list HostRunningAttempt) (state : ControlPlaneState) (c : Claims) (reported : list string)
    : bool * Claims * ControlPlaneState :=
  match reported with
  | [] => (true, c, state)
  | sessionId :: rest =>
      match confirm_claim hostId connectionId attempts state c sessionId with
      | (None, state) => (false, c, state)
      | (Some c, state) => confirm_claims hostId connectionId attempts state c rest
      end
  end.

Inductive ReconcileResult :=
| reconcile_requeued (ids : list string)
| reconcile_rejected
| reconcile_threw.

(** The [catch] block: roll back and rethrow. *)
Definition reconcile_catch (state : ControlPlaneState) (hostId : string) (connectionId : option string)
    (c : Claims) : ReconcileResult * ControlPlaneState :=
  (reconcile_threw, (roll_back state hostId connectionId (confirmedClaims c) (scheduledClaims c)).2).

Definition reconcileHostRunningSessions (state : ControlPlaneState) (hostId : string)
    (reported : list string) (attempts : list HostRunningAttempt)
    : ReconcileResult * ControlPlaneState :=
  let connectionId := JsMap.get hostId (Plane.hostConnection state) in
  let '(confirmed, c, state) :=
    confirm_claims hostId connectionId attempts state (mkClaims (dedup [] reported) [] []) reported in
  if confirmed then
    match reconcileHostOwnedSessions state hostId (stillRunning c)
            "daemon did not report session after reconnect; requeued" with
    | (Some out, state) => (reconcile_requeued (requeuedIds out), state)
    | (None, state) => reconcile_catch state hostId connectionId c
    end
  else
    match roll_back state hostId connectionId (confirmedClaims c) (scheduledClaims c) with
    | (Some _, state) => (reconcile_rejected, state)
    | (None, state) => reconcile_catch state hostId connectionId c
    end.

(** ** Terminal-hook handoffs *)
Definition TERMINAL_HOOK_HANDOFF_DELIVERY_LIMIT : Z := 500.

Definition releaseReservedWorktree (state : ControlPlaneState) (sessionId : string)
    (worktreeId : option string) : ControlPlaneState :=
  match truthy_opt worktreeId with
  | None => state
  | Some w => release_if_owner state w sessionId
  end.

Definition releaseReservedMainCheckout (state : ControlPlaneState) (sessionId : string)
    (handoff : TerminalHookHandoff) : ControlPlaneState :=
  if negb (is_true_opt (Handoff.mainCheckoutLease handoff)) then state else
  let key := main_checkout_key (Handoff.hostId handoff) (Handoff.repositoryId handoff) in
  match JsMap.get key (Plane.mainCheckoutLeases state) with
  | Some lease =>
      if str_eqb (Checkout.sessionId lease) sessionId
      then state <| Plane.mainCheckoutLeases := JsMap.delete key (Plane.mainCheckoutLeases state) |>
      else state
  | None => state
  end.

(** The deletions both ends of a handoff make. *)
Definition clear_handoff (s : SessionRecord) (handoff : TerminalHookHandoff) : SessionRecord :=
  let s := s <| Session.terminalHookHandoff := None |> <| Session.activeHostId := None |>
             <| Session.activeHostOrder := None |> in
  if is_true_opt (Handoff.mainCheckoutLease handoff) then drop_checkout_fields s else s.

Definition resolveTerminalHookCompletionResult (status : SessionStatus) (result : option SessionResult)
    : SessionResult := opt_or result (harnessSessionResult status).

(** A handoff that is settled or expired gives its reservations back. *)
Definition dispose_handoff (state : ControlPlaneState) (s next : SessionRecord)
    (handoff : TerminalHookHandoff) : ControlPlaneState :=
  let state := releaseReservedWorktree state (Session.id s) (Handoff.worktreeId handoff) in
  let state := releaseReservedMainCheckout state (Session.id s) handoff in
  queueSessionArchive (update_session state (Session.id next) next) (Session.id next).

Definition settleTerminalHookHandoff (state : ControlPlaneState) (sessionId handoffId hostId : string)
    (connectionId : option string) (result : option SessionResult) : bool * ControlPlaneState :=
  match JsMap.get sessionId (Plane.sessions state) with
  | None => (false, state)
  | Some s =>
      let duplicate :=
        match Session.terminalHookHandoffSettled s with
        | Some t => str_eqb (settledHandoffId t) handoffId && str_eqb (settledHostId t) hostId
        | None => false
        end in
      match Session.terminalHookHandoff s with
      | None => (duplicate, state)
      | Some handoff =>
          if negb (str_eqb (Handoff.handoffId handoff) handoffId) ||
             negb (str_eqb (Handoff.hostId handoff) hostId)
          then (duplicate, state)
          else if negb (is_some connectionId) ||
                  negb (bool_decide (JsMap.get hostId (Plane.hostConnection state) = connectionId))
          then (false, state)
          else
            let result := opt_else (Session.result s)
              (Some (resolveTerminalHookCompletionResult (Handoff.status handoff) result)) in
            let next := (clear_handoff (s <| Session.result := result |>) handoff)
              <| Session.terminalHookHandoffSettled := Some (mkHandoffSettled handoffId hostId) |> in
            (true, dispose_handoff state s next handoff)
      end
  end.

Definition expireTerminalHookHandoffIfNeeded (state : ControlPlaneState) (s : SessionRecord) (nowMs : Z)
    : bool * ControlPlaneState :=
  match Session.terminalHookHandoff s with
  | None => (false, state)
  | Some handoff =>
      if match date_parse (Handoff.expiresAt handoff) with Some t => nowMs <? t | None => false end
      then (false, state)
      else
        (true, dispose_handoff state s
           (clear_handoff (s <| Session.terminalHookHandoffExpiredAt := Some (Handoff.expiresAt handoff) |>)
              handoff) handoff)
  end.

(** The [session:terminal-hook-complete] case of [handleHostMessage]; [Some error] is a rejection. *)
Definition handleTerminalHookComplete {UP : UrlParse} (state : ControlPlaneState)
    (sessionId handoffId : string) (result : option json) (sourceConnectionId : option string)
    : option string * ControlPlaneState :=
  let session := JsMap.get sessionId (Plane.sessions state) in
  match (s ← session; Session.terminalHookHandoff s) with
  | None =>
      match (s ← session; Session.terminalHookHandoffSettled s) with
      | Some t =>
          if negb (str_eqb (settledHandoffId t) handoffId) || negb (is_some sourceConnectionId) ||
             negb (bool_decide (JsMap.get (settledHostId t) (Plane.hostConnection state) = sourceConnectionId))
          then (Some "terminal hook handoff not found", state)
          else (None, emit state (settledHostId t) (msg_terminal_hook_acknowledged sessionId handoffId))
      | None => (Some "terminal hook handoff not found", state)
      end
  | Some handoff =>
      let completed := r ← result; normalizeSessionResult r in
      if is_some result && negb (is_some completed) then (Some "invalid session result", state)
      else
        let '(settled, state) :=
          settleTerminalHookHandoff state sessionId handoffId (Handoff.hostId handoff)
            (truthy_opt sourceConnectionId) completed in
        (None, if settled
               then emit state (Handoff.hostId handoff) (msg_terminal_hook_acknowledged sessionId handoffId)
               else state)
  end.

(** ** Reconnect deadlines *)

(** [Date.parse(at) > nowMs], false for an unreadable date. *)
Definition after_now (at_ : string) (nowMs : Z) : bool :=
  match date_parse at_ with Some t => nowMs <? t | None => false end.

Definition deadline_reason : string := "daemon reconnect deadline exceeded; requeued".

(** [Some ids] when the session holds a main checkout and is dealt with; [None] inside
    the first component when it is not a scheduled session. *)
Definition reclaimScheduledReconnect (state : ControlPlaneState) (s : SessionRecord)
    : option (option (list string)) * ControlPlaneState :=
  if negb (is_true_opt (Session.mainCheckoutLease s)) ||
     negb (is_some (truthy_nul (Session.hostId s))) ||
     negb (is_some (truthy_opt (Session.assignmentConnectionId s)))
  then (Some None, state)
  else
    let was_cancelled := bool_decide (Session.status s = cancelled) in
    match (if was_cancelled then (Some None, state) else loss_handoff state s) with
    | (None, state) => (None, state)
    | (Some handoff, state) =>
        match release_lost_checkout state s handoff with
        | (false, state) => (Some (Some []), state)
        | (true, state) =>
            let '(state, s) := releaseProviderAccountLease state s in
            let '(next, ids, state) :=
              if was_cancelled
              then ((drop_checkout_fields s) <| Session.activeHostId := None |>
                      <| Session.activeHostOrder := None |>, [], state)
              else let '(next, state) := lost_session state s deadline_reason handoff in
                   (next, if terminal_loss s then [] else [Session.id s], state) in
            (Some (Some ids), forget_ack (update_session state (Session.id s) next) (Session.id s))
        end
    end.

(** [delete next.workspaceSlotLease; ..; delete next.timedOutAssignmentConnectionId]. *)
Definition drop_slot_fields (s : SessionRecord) : SessionRecord :=
  s <| Session.workspaceSlotLease := None |> <| Session.assignmentConnectionId := None |>
    <| Session.assignmentSentAt := None |> <| Session.ackReceivedAt := None |>
    <| Session.reconnectDeadlineAt := None |> <| Session.timedOutHostId := None |>
    <| Session.timedOutAssignmentConnectionId := None |>.

Definition reclaim_workspace (state : ControlPlaneState) (s : SessionRecord) (slotId : string)
    : option (list string) * ControlPlaneState :=
  match JsMap.get slotId (Plane.workspaceSlots state),
        truthy_opt (opt_else (nul_opt (Session.hostId s)) (Session.timedOutHostId s)) with
  | Some slot, Some _ =>
      if negb (bool_decide (Slot.currentSessionId slot = Val (Session.id s))) then (Some [], state)
      else
        let over := bool_decide (Session.status s = cancelled) || bool_decide (Session.status s = timed_out) in
        let '(state, s) := releaseProviderAccountLease state s in
        match (if over
               then (Some (s <| Session.workspaceSlotId := Null |> <| Session.hostId := Null |>), state)
               else lost_workspace_session state s deadline_reason) with
        | (None, state) => (None, keep_mutation state s)
        | (Some next, state) =>
            let state := update_session state (Session.id s) (drop_slot_fields next) in
            let state := free_slot state (slot <| Slot.online := false |>) in
            (Some (if over || terminal_loss s then [] else [Session.id s]), forget_ack state (Session.id s))
        end
  | _, _ => (Some [], state)
  end.

(** [finishHostLostSession(state, session)] mints the default handoff. *)
Definition reclaim_worktree (state : ControlPlaneState) (s : SessionRecord)
    : option (list string) * ControlPlaneState :=
  match JsMap.get (opt_or (nul_opt (Session.worktreeId s)) "") (Plane.worktrees state),
        truthy_nul (Session.hostId s) with
  | Some w, Some _ =>
      let '(state, s) := releaseProviderAccountLease state s in
      let finish (ids : list string) (next : SessionRecord) (state : ControlPlaneState) :=
        let state := update_session state (Session.id s) next in
        (Some ids, forget_ack (releaseWorktree state (Worktree.id w)) (Session.id s)) in
      if canRetryHostLoss s then finish [Session.id s] (queueHostLossRetry s) state
      else
        match hostLostTerminalHookHandoff state s with
        | (None, state) => (None, keep_mutation state s)
        | (Some handoff, state) =>
            let '(next, state) := finishHostLostSession state s handoff in
            finish [] next state
        end
  | _, _ => (Some [], state)
  end.

(** The session is waiting for its host and the deadline has passed. *)
Definition deadline_due (s : SessionRecord) (nowMs : Z) : bool :=
  (bool_decide (Session.status s = running) ||
   (bool_decide (Session.status s = cancelled) &&
    (is_true_opt (Session.mainCheckoutLease s) || is_true_opt (Session.workspaceSlotLease s))) ||
   (bool_decide (Session.status s = timed_out) && is_true_opt (Session.workspaceSlotLease s))) &&
  match truthy_opt (Session.reconnectDeadlineAt s) with
  | Some deadline => negb (after_now deadline nowMs)
  | None => false
  end &&
  (is_some (truthy_nul (Session.worktreeId s)) || is_some (truthy_nul (Session.workspaceSlotId s)) ||
   is_true_opt (Session.mainCheckoutLease s)).

Definition reclaim_session (nowMs : Z) (state : ControlPlaneState) (s : SessionRecord)
    : option (list string) * ControlPlaneState :=
  match expireTerminalHookHandoffIfNeeded state s nowMs with
  | (true, state) => (Some [], state)
  | (false, state) =>
      if negb (deadline_due s nowMs) then (Some [], state)
      else
        match reclaimScheduledReconnect state s with
        | (None, state) => (None, state)
        | (Some (Some ids), state) => (Some ids, state)
        | (Some None, state) =>
            match truthy_nul (Session.workspaceSlotId s) with
            | Some slotId => reclaim_workspace state s slotId
            | None => reclaim_worktree state s
            end
        end
  end.

(** [for (const session of sessions)] over a snapshot; a thrown error stops the loop. *)
Fixpoint for_sessions (body : ControlPlaneState -> SessionRecord -> option (list string) * ControlPlaneState)
    (sessions : list SessionRecord) (state : ControlPlaneState) : option (list string) * ControlPlaneState :=
  match sessions with
  | [] => (Some [], state)
  | s :: rest =>
      match body state s with
      | (None, state) => (None, state)
      | (Some ids, state) =>
          let '(more, state) := for_sessions body rest state in
          ((fun l => (ids ++ l)%list) <$> more, state)
      end
  end.

Definition reclaimReconnectDeadlines (state : ControlPlaneState) (nowMs : Z)
    : option (list string) * ControlPlaneState :=
  for_sessions (reclaim_session nowMs) (JsMap.values (Plane.sessions state)) state.
End reconnect.
