(* ===== verification/HostLifecycle.v ===== *)
(** * Hosts: registration, heartbeat, drain and loss

    services/api/src/control-plane-agents.ts without storage,
    [reclaimStaleHosts] of control-plane-lifecycle.ts and
    control-plane-host-socket-publish.ts.  An [async] function is cut at the
    point where another operation can run: [registerHost] with
    [deferRunningSessionReconcile], the reconciliation of the reported sessions
    ([Reconnect.reconcileHostRunningSessions]) and the rollback are separate
    operations, composed by [registerHostDurable] when nothing runs in between. *)

From Stdlib Require Import ZArith Lia Ascii String.
From stdpp Require Import base strings list.
From S2P Require Import Prelude DateTime Types Ordering TransitionPlanner SessionTarget.
From S2P Require Import AccountLeases Placement SessionOutcome Worktrees Assignment HostMessages.
From S2P Require Import Registration Inventory Reconnect.

Local Open Scope string_scope.
Local Open Scope Z_scope.

(** ** The options of a registration *)
Module Opts.
Record RegisterOpts := mkRegisterOpts {
  hostId : string;
  worktrees : list RegisteredWorktree;
  repositories : option (list HostRepositoryRegistration);
  workspacePools : option (list WorkspacePoolAttachment);
  capabilities : option (list string);
  maxConcurrentAssignments : option Z;
  providerAccountReadiness : option (list ProviderAccountReadiness);
  runningSessions : option (list string);
  runningAttempts : option (list HostRunningAttempt);
  protocolVersion : option Z;
  daemonIdentity : option RegisteredDaemonIdentity;
  runtime : option HostRuntimeReport;
  draining : bool;
  replaceExisting : bool;
  connectionId : option string;
}.

#[global] Instance eta_RegisterOpts : Eta RegisterOpts := fun r => mkRegisterOpts (hostId r) (worktrees r)
  (repositories r) (workspacePools r) (capabilities r) (maxConcurrentAssignments r)
  (providerAccountReadiness r) (runningSessions r) (runningAttempts r) (protocolVersion r)
  (daemonIdentity r) (runtime r) (draining r) (replaceExisting r) (connectionId r).

#[global] Instance set_replaceExisting : Setter replaceExisting := ltac:(derive_setter).
#[global] Instance set_runningAttempts : Setter runningAttempts := ltac:(derive_setter).
#[global] Instance set_draining : Setter draining := ltac:(derive_setter).
End Opts.
Notation RegisterOpts := Opts.RegisterOpts.

(** ** State helpers *)
Definition set_connection (state : ControlPlaneState) (k : string) (c : ConnectionRecord) : ControlPlaneState :=
  state <| Plane.connections := JsMap.set k c (Plane.connections state) |>.

Definition delete_connection (state : ControlPlaneState) (k : string) : ControlPlaneState :=
  state <| Plane.connections := JsMap.delete k (Plane.connections state) |>.

Definition set_host_connection (state : ControlPlaneState) (hostId connectionId : string) : ControlPlaneState :=
  state <| Plane.hostConnection := JsMap.set hostId connectionId (Plane.hostConnection state) |>.

Definition delete_host_connection (state : ControlPlaneState) (hostId : string) : ControlPlaneState :=
  state <| Plane.hostConnection := JsMap.delete hostId (Plane.hostConnection state) |>.

Definition set_disconnected (state : ControlPlaneState) (hostId at_ : string) : ControlPlaneState :=
  state <| Plane.disconnectedHosts := JsMap.set hostId at_ (Plane.disconnectedHosts state) |>.

Definition delete_disconnected (state : ControlPlaneState) (hostId : string) : ControlPlaneState :=
  state <| Plane.disconnectedHosts := JsMap.delete hostId (Plane.disconnectedHosts state) |>.

Definition set_draining (state : ControlPlaneState) (hostId : string) (on : bool) : ControlPlaneState :=
  state <| Plane.drainingHosts :=
    if on then set_add hostId (Plane.drainingHosts state) else set_delete hostId (Plane.drainingHosts state) |>.

Definition set_inventory (state : ControlPlaneState) (hostId : string) (h : HostInventory) : ControlPlaneState :=
  state <| Plane.hostInventories := JsMap.set hostId h (Plane.hostInventories state) |>.

Definition bump_revision (state : ControlPlaneState) : ControlPlaneState :=
  state <| Plane.hostInventoryRevision := Plane.hostInventoryRevision state + 1 |>.

(** [state.connectionIdFactory()]. *)
Definition draw_connection (state : ControlPlaneState) : string * ControlPlaneState :=
  (Plane.connectionIdFactory state (Plane.connectionsDrawn state),
   state <| Plane.connectionsDrawn := Plane.connectionsDrawn state + 1 |>).

(** [for (const x of map.values()) ..] with a body that cannot throw. *)
Definition visit {V} (look : ControlPlaneState -> JsMap.t V)
    (body : ControlPlaneState -> string -> V -> ControlPlaneState) (state : ControlPlaneState)
    : ControlPlaneState :=
  fold_left (fun st k => match JsMap.get k (look st) with Some v => body st k v | None => st end)
    (JsMap.keys (look state)) state.

(** ** Workspace slots of a host *)
Definition publishWorkspaceSlotsLocal (state : ControlPlaneState) (hostId connectionId : string)
    (online : bool) (advertised : option (list WorkspacePoolAttachment)) : ControlPlaneState :=
  visit Plane.workspaceSlots
    (fun st _ slot =>
       if negb (str_eqb (Slot.hostId slot) hostId) || bool_decide (Slot.status slot = busy) then st
       else
         let seen := slot_advertised (opt_or advertised []) (Slot.workspacePoolId slot) (Slot.id slot)
                       (Slot.name slot) (Slot.path slot) in
         set_slot st (Slot.id slot)
           (slot <| Slot.online := online && seen |> <| Slot.connectionId := Some connectionId |>))
    state.

(** The fields a session that lost its slot drops. *)
Definition drop_slot_assignment (s : SessionRecord) : SessionRecord :=
  s <| Session.workspaceSlotLease := None |> <| Session.assignmentConnectionId := None |>
    <| Session.assignmentSentAt := None |> <| Session.ackReceivedAt := None |>
    <| Session.reconnectDeadlineAt := None |>.

(** [if (session.status === "running") { status = "queued"; errorMessage = reason; delete completedAt }]. *)
Definition requeue_running (s : SessionRecord) (reason : string) : SessionRecord :=
  if bool_decide (Session.status s = running)
  then s <| Session.status := queued |> <| Session.errorMessage := Some reason |>
         <| Session.completedAt := None |>
  else s.

(** The slot as a lost host leaves it. *)
Definition offline_slot_row (slot : WorkspaceSlotRecord) : WorkspaceSlotRecord :=
  slot <| Slot.status := if bool_decide (Slot.status slot = error) then error else idle |>
       <| Slot.online := false |> <| Slot.currentSessionId := Null |>.

Section hosts.
Context {DP : DateParse}.

Definition offline_slot (hostId reason : string) (state : ControlPlaneState) (k : string)
    (slot : WorkspaceSlotRecord) : option (list string) * ControlPlaneState :=
  if negb (str_eqb (Slot.hostId slot) hostId) then (Some [], state) else
  let freed st := set_slot st (Slot.id slot) (offline_slot_row slot) in
  match (id ← truthy_nul (Slot.currentSessionId slot); JsMap.get id (Plane.sessions state)) with
  | None => (Some [], freed state)
  | Some s =>
      if bool_decide (Session.status s = running) || bool_decide (Session.status s = cancelled) then
        if acknowledged s then
          match now_plus state (Plane.reconnectGraceMs state) with
          | None => (None, state)
          | Some deadline =>
              (Some [], set_slot (persistSession state (s <| Session.reconnectDeadlineAt := Some deadline |>))
                          (Slot.id slot) (slot <| Slot.online := false |>))
          end
        else
          let '(state, s) := releaseProviderAccountLease state s in
          let requeued := if bool_decide (Session.status s = running) then [Session.id s] else [] in
          let s := drop_slot_assignment ((requeue_running s reason) <| Session.workspaceSlotId := Null |>
                     <| Session.hostId := Null |>) in
          (Some requeued, freed (persistSession state s))
      else if bool_decide (Session.status s = timed_out) then
        (Some [], freed (persistSession state (drop_slot_assignment (s <| Session.workspaceSlotId := Null |>))))
      else (Some [], freed state)
  end.

Definition offlineWorkspaceSlotsLocal (state : ControlPlaneState) (hostId reason : string)
    : option (list string) * ControlPlaneState :=
  for_each Plane.workspaceSlots (offline_slot hostId reason) (JsMap.keys (Plane.workspaceSlots state)) state.

(** ** Reported sessions *)
Definition reportedRunningSessionIds (opts : RegisterOpts) : list string :=
  match Opts.runningAttempts opts with
  | Some attempts => map RunningAttempt.sessionId attempts
  | None => opt_or (Opts.runningSessions opts) []
  end.

Definition ownedReportedRunningSessionIds (state : ControlPlaneState) (opts : RegisterOpts) : list string :=
  match Opts.runningAttempts opts with
  | Some attempts =>
      map RunningAttempt.sessionId
        (List.filter (fun a => negb (ignoreStaleReconnectClaim state
             (JsMap.get (RunningAttempt.sessionId a) (Plane.sessions state)) (Some (RunningAttempt.attemptId a))))
           attempts)
  | None => reportedRunningSessionIds opts
  end.

Definition validateReportedAttempts (opts : RegisterOpts) : option string :=
  attempts ← Opts.runningAttempts opts; validateHostRunningAttempts attempts.

(** The host still owns the session, by checkout, slot or worktree. *)
Definition owns_reported (state : ControlPlaneState) (hostId sessionId : string) : bool :=
  match JsMap.get sessionId (Plane.sessions state) with
  | None => false
  | Some s =>
      let live := bool_decide (Session.status s = running) && acknowledged s &&
                  bool_decide (Session.hostId s = Val hostId) in
      if is_true_opt (Session.mainCheckoutLease s) then
        live && bool_decide (Session.worktreeId s = Null) &&
        match truthy_opt (Session.assignmentConnectionId s),
              JsMap.get (main_checkout_key hostId (Session.repositoryId s)) (Plane.mainCheckoutLeases state) with
        | Some c, Some lease =>
            str_eqb (Checkout.sessionId lease) sessionId && str_eqb (Checkout.connectionId lease) c
        | _, _ => false
        end
      else
        match truthy_nul (Session.workspaceSlotId s) with
        | Some slotId =>
            live && bool_decide (Session.workspaceSlotLease s = Some true) &&
            match JsMap.get slotId (Plane.workspaceSlots state) with
            | Some slot => str_eqb (Slot.hostId slot) hostId &&
                           bool_decide (Slot.currentSessionId slot = Val sessionId)
            | None => false
            end
        | None =>
            live &&
            match (w ← truthy_nul (Session.worktreeId s); JsMap.get w (Plane.worktrees state)) with
            | Some w => str_eqb (Worktree.hostId w) hostId &&
                        bool_decide (Worktree.currentSessionId w = Val sessionId)
            | None => false
            end
        end
  end.

Fixpoint validate_running (state : ControlPlaneState) (hostId : string) (seen reported : list string)
    : option string :=
  match reported with
  | [] => None
  | id :: rest =>
      if set_has id seen then Some ("duplicate running session " ++ id)
      else if owns_reported state hostId id then validate_running state hostId (set_add id seen) rest
      else Some ("running session " ++ id ++ " is not owned by host " ++ hostId)
  end.

Definition validateRunningSessions (state : ControlPlaneState) (hostId : string) (reported : list string)
    : option string := validate_running state hostId [] reported.

(** ** Registration *)

(** The checks of [registerHost], in order; [inl] is the error. *)
Definition register_checks (state : ControlPlaneState) (opts : RegisterOpts) : string + Z :=
  let hostId := Opts.hostId opts in
  if match Opts.runtime opts with Some r => negb (isHostRuntimeReport (runtime_json r)) | None => false end
  then inl "runtime report is invalid" else
  match validateRegisterWorktreeNames state hostId (Opts.worktrees opts) with
  | Some e => inl e
  | None =>
      match validateReportedAttempts opts with
      | Some e => inl e
      | None =>
          match validateRunningSessions state hostId (ownedReportedRunningSessionIds state opts) with
          | Some e => inl e
          | None =>
              match negotiateHostProtocolVersion (Opts.protocolVersion opts) with
              | None => inl "unsupported host protocol"
              | Some version =>
                  if is_some (truthy_opt (JsMap.get hostId (Plane.hostConnection state))) &&
                     negb (Opts.replaceExisting opts)
                  then inl ("hostId " ++ hostId ++ " already has an active connection")
                  else inr version
              end
          end
      end
  end.

(** [if (existing) { connections.delete(existing); hostConnection.delete(hostId) }]. *)
Definition drop_existing (state : ControlPlaneState) (hostId : string) : ControlPlaneState :=
  match truthy_opt (JsMap.get hostId (Plane.hostConnection state)) with
  | Some existing => delete_host_connection (delete_connection state existing) hostId
  | None => state
  end.

Definition new_connection (opts : RegisterOpts) (connectionId at_ : string)
    (registered : list HostRepositoryRegistration) (version : Z) : ConnectionRecord :=
  Connection.mkConnection connectionId true (Opts.hostId opts) at_ at_
    (Some (map RepoReg.id registered)) (Some (normalizeHostCapabilities (Opts.capabilities opts)))
    (Opts.maxConcurrentAssignments opts)
    (sanitizeProviderAccountReadiness <$> Opts.providerAccountReadiness opts)
    (Opts.runtime opts) (Some version) (Some version) None.

(** The labels the inventory holds for an advertised worktree. *)
Definition inventory_labels (inventory : HostInventory) (w : RegisteredWorktree) : list string :=
  opt_or (r ← find_repository (RegWt.repositoryId w) (Inventory.repositories inventory);
          HWorktree.labels <$> find_worktree (RegWt.id w) (HRepository.worktrees r))
    (RegWt.labels w).

(** One advertised worktree: a busy row is left alone. *)
Definition register_worktree (opts : RegisterOpts) (connectionId : string) (inventory : HostInventory)
    (state : ControlPlaneState) (w : RegisteredWorktree) : ControlPlaneState :=
  let prev := JsMap.get (RegWt.id w) (Plane.worktrees state) in
  if match prev with Some p => bool_decide (Worktree.status p = busy) | None => false end then state
  else
    persistWorktree state
      (Worktree.mkWorktree (RegWt.id w) (RegWt.name w) (Opts.hostId opts) (RegWt.repositoryId w)
         (RegWt.path w) (inventory_labels inventory w) idle (negb (Opts.draining opts))
         (match prev with
          | Some p => match Worktree.currentSessionId p with Val s => Val s | _ => Null end
          | None => Null
          end)
         (Some connectionId)
         (match prev with
          | Some p => match Worktree.lastAssignedAt p with Val t => Val t | _ => Null end
          | None => Null
          end)).

Definition retainedOnlyRepositoryIds (previous : option HostInventory) (registered : list string)
    : list string :=
  List.filter (fun id => negb (set_has id registered)) (map HRepository.id (prior_repositories previous)).

(** A worktree of the host that the daemon did not advertise. *)
Definition refresh_worktree (opts : RegisterOpts) (connectionId : string) (retainedOnly : list string)
    (state : ControlPlaneState) (k : string) (w : WorktreeRecord) : ControlPlaneState :=
  if str_eqb (Worktree.hostId w) (Opts.hostId opts) &&
     negb (bool_decide (Worktree.status w = busy)) &&
     negb (set_has (Worktree.id w) (map RegWt.id (Opts.worktrees opts)))
  then
    let w := w <| Worktree.online := negb (Opts.draining opts) &&
                                     negb (set_has (Worktree.repositoryId w) retainedOnly) |> in
    persistWorktree (set_worktree state k w) (w <| Worktree.connectionId := Some connectionId |>)
  else state.

(** [registerHost] with [deferRunningSessionReconcile]. *)
Definition registerHost (state : ControlPlaneState) (opts : RegisterOpts)
    : (string + string) * ControlPlaneState :=
  match register_checks state opts with
  | inl e => (inl e, state)
  | inr version =>
      let hostId := Opts.hostId opts in
      let state := drop_existing state hostId in
      let '(connectionId, state) :=
        match Opts.connectionId opts with Some c => (c, state) | None => draw_connection state end in
      let at_ := Plane.now state in
      let previous := JsMap.get hostId (Plane.hostInventories state) in
      let registered := resolveRegisteredRepositories (Opts.repositories opts) (Opts.worktrees opts) previous in
      let conn := new_connection opts connectionId at_ registered version in
      let state := set_host_connection (set_connection state connectionId conn) hostId connectionId in
      let state := publishWorkspaceSlotsLocal state hostId connectionId (negb (Opts.draining opts))
                     (Opts.workspacePools opts) in
      let state := set_draining (delete_disconnected state hostId) hostId (Opts.draining opts) in
      let inventory := buildRegisteredInventory hostId registered (Opts.worktrees opts)
                         (Connection.capabilities conn) at_ previous (Opts.daemonIdentity opts)
                         (Opts.runtime opts) (Opts.workspacePools opts) in
      let state := set_inventory state hostId inventory in
      let state := bump_revision (syncHostWorkspaceSlots state inventory
                                    (Val (opt_or (Opts.workspacePools opts) []))) in
      let state := fold_left (register_worktree opts connectionId inventory) (Opts.worktrees opts) state in
      let retainedOnly := retainedOnlyRepositoryIds previous (map RepoReg.id registered) in
      (inr connectionId,
       visit Plane.worktrees (refresh_worktree opts connectionId retainedOnly) state)
  end.

(** [reconcileReportedRunningSessions(state, opts)]. *)
Definition reconcileReportedRunningSessions (state : ControlPlaneState) (opts : RegisterOpts)
    : ReconcileResult * ControlPlaneState :=
  reconcileHostRunningSessions state (Opts.hostId opts) (reportedRunningSessionIds opts)
    (opt_or (Opts.runningAttempts opts) []).

(** ** Rolling a registration back *)
Record RegistrationSnapshot := mkRegistrationSnapshot {
  snapshotWorktrees : JsMap.t WorktreeRecord;
  snapshotSlots : JsMap.t WorkspaceSlotRecord;
  snapshotInventory : option HostInventory;
  snapshotDisconnected : option string;
}.

Definition snapshotInMemoryRegistration (state : ControlPlaneState) (hostId : string) : RegistrationSnapshot :=
  mkRegistrationSnapshot
    (fold_left (fun m w => JsMap.set (Worktree.id w) w m)
       (List.filter (fun w => str_eqb (Worktree.hostId w) hostId) (JsMap.values (Plane.worktrees state))) [])
    (fold_left (fun m s => JsMap.set (Slot.id s) s m)
       (List.filter (fun s => str_eqb (Slot.hostId s) hostId) (JsMap.values (Plane.workspaceSlots state))) [])
    (JsMap.get hostId (Plane.hostInventories state))
    (JsMap.get hostId (Plane.disconnectedHosts state)).

Definition advertisedWorktreeIds (inventory : option HostInventory) : list string :=
  flat_map (fun r => map HWorktree.id (HRepository.worktrees r)) (prior_repositories inventory).

Definition advertisedSlotIds (inventory : option HostInventory) : list string :=
  flat_map (fun p => map WSlot.id (Attachment.slots p))
    (opt_or (h ← inventory; Inventory.workspacePools h) []).

Definition isUnackedProvisionalAssignment (s : SessionRecord) : bool :=
  (bool_decide (Session.status s = running) || bool_decide (Session.status s = cancelled)) &&
  negb (acknowledged s).

Inductive ProvisionalTarget := target_worktree | target_slot.

Definition releaseUnackedProvisionalAssignment (state : ControlPlaneState) (s : SessionRecord)
    (reason : string) (target : ProvisionalTarget) : option string * ControlPlaneState :=
  let requeued := if bool_decide (Session.status s = running) then Some (Session.id s) else None in
  let '(state, s) := releaseProviderAccountLease state s in
  let s := requeue_running s reason in
  let s := match target with
           | target_worktree => s <| Session.worktreeId := Null |>
           | target_slot => s <| Session.workspaceSlotId := Null |>
           end in
  let s := drop_slot_assignment (s <| Session.hostId := Null |>) in
  (requeued, persistSession (forget_ack state (Session.id s)) s).

Definition opt_ids (id : option string) : list string := match id with Some i => [i] | None => [] end.

Definition requeueUnackedWorktree (state : ControlPlaneState) (w : WorktreeRecord) (reason : string)
    : list string * ControlPlaneState :=
  match (id ← truthy_nul (Worktree.currentSessionId w); JsMap.get id (Plane.sessions state)) with
  | Some s =>
      if isUnackedProvisionalAssignment s then
        let state := releaseWorktree state (Worktree.id w) in
        let '(id, state) := releaseUnackedProvisionalAssignment state s reason target_worktree in
        (opt_ids id, state)
      else ([], state)
  | None => ([], state)
  end.

(** One worktree of the map that only the failed registration brought. *)
Definition drop_worktree (hostId reason : string) (snapshot : RegistrationSnapshot) (winner : list string)
    (state : ControlPlaneState) (k : string) (w : WorktreeRecord) : option (list string) * ControlPlaneState :=
  if negb (str_eqb (Worktree.hostId w) hostId) || JsMap.has k (snapshotWorktrees snapshot) || set_has k winner
  then (Some [], state)
  else
    let '(ids, state) := requeueUnackedWorktree state w reason in
    match JsMap.get k (Plane.worktrees state) with
    | Some w =>
        if bool_decide (Worktree.status w = busy) || is_some (truthy_nul (Worktree.currentSessionId w))
        then (Some ids, state) else (Some ids, delete_worktree state k)
    | None => (Some ids, state)
    end.

Definition drop_slot (hostId reason : string) (snapshot : RegistrationSnapshot) (winner : list string)
    (state : ControlPlaneState) (k : string) (slot : WorkspaceSlotRecord)
    : option (list string) * ControlPlaneState :=
  if negb (str_eqb (Slot.hostId slot) hostId) || JsMap.has k (snapshotSlots snapshot) || set_has k winner
  then (Some [], state)
  else
    let '(ids, state) :=
      match (id ← truthy_nul (Slot.currentSessionId slot); JsMap.get id (Plane.sessions state)) with
      | Some s =>
          if isUnackedProvisionalAssignment s then
            let '(id, state) := releaseUnackedProvisionalAssignment state s reason target_slot in
            (opt_ids id, set_slot state k (slot <| Slot.status := idle |> <| Slot.currentSessionId := Null |>))
          else ([], state)
      | None => ([], state)
      end in
    match JsMap.get k (Plane.workspaceSlots state) with
    | Some current =>
        if bool_decide (Slot.status current = busy) || is_some (truthy_nul (Slot.currentSessionId current))
        then (Some ids, state) else (Some ids, delete_slot state k)
    | None => (Some ids, delete_slot state k)
    end.

Definition dropReplacementOnlyCapacity (state : ControlPlaneState) (hostId : string)
    (snapshot : RegistrationSnapshot) (winnerOwnsHost : bool) (reason : string)
    : option (list string) * ControlPlaneState :=
  let winner := if winnerOwnsHost then JsMap.get hostId (Plane.hostInventories state) else None in
  match for_each Plane.worktrees (drop_worktree hostId reason snapshot (advertisedWorktreeIds winner))
          (JsMap.keys (Plane.worktrees state)) state with
  | (None, state) => (None, state)
  | (Some first, state) =>
      let '(more, state) :=
        for_each Plane.workspaceSlots (drop_slot hostId reason snapshot (advertisedSlotIds winner))
          (JsMap.keys (Plane.workspaceSlots state)) state in
      ((fun l => (first ++ l)%list) <$> more, state)
  end.

(** [for (const [id, wt] of snapshot.worktrees) if (!state.worktrees.has(id)) state.worktrees.set(id, wt)]. *)
Definition put_back {V} (put : ControlPlaneState -> string -> V -> ControlPlaneState)
    (look : ControlPlaneState -> JsMap.t V) (state : ControlPlaneState) (e : string * V) : ControlPlaneState :=
  if JsMap.has e.1 (look state) then state else put state e.1 e.2.

Definition restore_catalog (state : ControlPlaneState) (hostId : string) (snapshot : RegistrationSnapshot)
    : ControlPlaneState :=
  let state := match snapshotInventory snapshot with
               | Some h => set_inventory state hostId h
               | None => state <| Plane.hostInventories := JsMap.delete hostId (Plane.hostInventories state) |>
               end in
  let state := bump_revision state in
  let state := fold_left (put_back set_worktree Plane.worktrees) (snapshotWorktrees snapshot) state in
  fold_left (put_back set_slot Plane.workspaceSlots) (snapshotSlots snapshot) state.

Definition ROLLBACK_REASON : string := "reported running session lost reconnect reconciliation".

(** [catalogMoved] tells whether the inventory object is no longer the registration's own;
    [None] is a thrown error. *)
Definition restoreInMemoryRegistration (state : ControlPlaneState) (hostId failedConnectionId : string)
    (snapshot : RegistrationSnapshot) (catalogMoved : bool) : option (list string) * ControlPlaneState :=
  let winnerOwnsHost := negb (bool_decide (JsMap.get hostId (Plane.hostConnection state) = Some failedConnectionId)) in
  let state := delete_connection state failedConnectionId in
  let '(first, state) :=
    if winnerOwnsHost then (Some [], state)
    else
      let state := delete_host_connection state hostId in
      let state := if catalogMoved then state else restore_catalog state hostId snapshot in
      let state := set_draining state hostId false in
      match offlineHostAndRequeue state hostId ROLLBACK_REASON with
      | (None, state) => (None, state)
      | (Some l1, state) =>
          match offlineWorkspaceSlotsLocal state hostId ROLLBACK_REASON with
          | (None, state) => (None, state)
          | (Some l2, state) =>
              (Some (l1 ++ l2)%list,
               set_disconnected state hostId (opt_or (snapshotDisconnected snapshot) (Plane.now state)))
          end
      end in
  match first with
  | None => (None, state)
  | Some l1 =>
      let '(more, state) :=
        dropReplacementOnlyCapacity state hostId snapshot (winnerOwnsHost || catalogMoved) ROLLBACK_REASON in
      ((fun l => (l1 ++ l)%list) <$> more, state)
  end.

(** The storage-less branch of [registerHostDurable], nothing running in between and up to
    the assignment pass that a rollback may ask for
    ([requestAssignmentAfterInMemoryRegisterRollback]): [Some (inl e)] is a rejection,
    [Some (inr c)] the new connection, [None] a thrown error. *)
Definition registerHostDurable (state : ControlPlaneState) (opts : RegisterOpts)
    : option (string + string) * ControlPlaneState :=
  match negotiateHostProtocolVersion (Opts.protocolVersion opts) with
  | None => (Some (inl "unsupported host protocol"), state)
  | Some _ =>
      if match Opts.runtime opts with Some r => negb (isHostRuntimeReport (runtime_json r)) | None => false end
      then (Some (inl "runtime report is invalid"), state)
      else
        let previous := snapshotInMemoryRegistration state (Opts.hostId opts) in
        match registerHost state opts with
        | (inl e, state) => (Some (inl e), state)
        | (inr connectionId, state) =>
            match reconcileReportedRunningSessions state opts with
            | (reconcile_requeued _, state) => (Some (inr connectionId), state)
            | (reconcile_threw, state) => (None, state)
            | (reconcile_rejected, state) =>
                let '(ids, state) :=
                  restoreInMemoryRegistration state (Opts.hostId opts) connectionId previous false in
                ((fun _ => inl ROLLBACK_REASON) <$> ids, state)
            end
        end
  end.

(** ** Losing a host *)
Definition DISCONNECT_REASON : string := "agent disconnected; requeued".

(** The last loop of [disconnectHost]: timed-out sessions of the host give up their lease. *)
Definition release_timed_out_lease (hostId : string) (state : ControlPlaneState) (k : string)
    (s : SessionRecord) : ControlPlaneState :=
  if negb (bool_decide (Session.status s = timed_out)) ||
     negb (bool_decide (Session.timedOutHostId s = Some hostId))
  then state
  else
    let '(state, s) := releaseProviderAccountLease state s in
    persistSession state (s <| Session.timedOutHostId := None |>
                            <| Session.timedOutAssignmentConnectionId := None |>).

Definition disconnectHost (state : ControlPlaneState) (connectionId : string)
    : option (list string) * ControlPlaneState :=
  match JsMap.get connectionId (Plane.connections state) with
  | None => (Some [], state)
  | Some conn =>
      let hostId := Connection.hostId conn in
      let state := delete_connection state connectionId in
      let state :=
        if bool_decide (JsMap.get hostId (Plane.hostConnection state) = Some connectionId)
        then set_draining (delete_host_connection state hostId) hostId false else state in
      let state := set_disconnected state hostId (Connection.lastHeartbeatAt conn) in
      match offlineHostAndRequeue state hostId DISCONNECT_REASON with
      | (None, state) => (None, state)
      | (Some l1, state) =>
          match offlineWorkspaceSlotsLocal state hostId DISCONNECT_REASON with
          | (None, state) => (None, state)
          | (Some l2, state) =>
              (Some (l1 ++ l2)%list, visit Plane.sessions (release_timed_out_lease hostId) state)
          end
      end
  end.

Definition heartbeat (state : ControlPlaneState) (hostId : string) (at_ : option string)
    : bool * ControlPlaneState :=
  match truthy_opt (JsMap.get hostId (Plane.hostConnection state)) with
  | None => (false, state)
  | Some connectionId =>
      match JsMap.get connectionId (Plane.connections state) with
      | None => (false, delete_host_connection state hostId)
      | Some conn =>
          (true, set_connection state connectionId
                   (conn <| Connection.lastHeartbeatAt := opt_or at_ (Plane.now state) |>))
      end
  end.

Definition STALE_REASON : string := "agent heartbeat stale; requeued".

(** A host to look at: its last heartbeat and its connection, if it has one. *)
Record StaleCandidate := mkStaleCandidate { candidateHeartbeat : string; candidateConnection : option string }.

(** The first loop of [reclaimStaleHosts]: an entry without a connection is dropped. *)
Definition stale_connected (state : ControlPlaneState) (candidates : JsMap.t StaleCandidate)
    : ControlPlaneState * JsMap.t StaleCandidate :=
  fold_left
    (fun acc (e : string * string) =>
       let '(state, candidates) := acc in
       match JsMap.get e.2 (Plane.connections state) with
       | None => (delete_host_connection state e.1, candidates)
       | Some conn =>
           (state, JsMap.set e.1 (mkStaleCandidate (Connection.lastHeartbeatAt conn) (Some e.2)) candidates)
       end)
    (Plane.hostConnection state) (state, candidates).

Definition stale_disconnected (state : ControlPlaneState) (candidates : JsMap.t StaleCandidate)
    : JsMap.t StaleCandidate :=
  fold_left
    (fun acc (e : string * string) =>
       if JsMap.has e.1 acc then acc else JsMap.set e.1 (mkStaleCandidate e.2 None) acc)
    (Plane.disconnectedHosts state) candidates.

(** [nowMs - Date.parse(last) < heartbeatStaleMs], false for an unreadable date. *)
Definition heartbeat_fresh (state : ControlPlaneState) (last_ : string) (nowMs : Z) : bool :=
  match date_parse last_ with Some t => nowMs - t <? Plane.heartbeatStaleMs state | None => false end.

Definition reclaim_stale_host (nowMs : Z) (state : ControlPlaneState) (e : string * StaleCandidate)
    : option (list string) * ControlPlaneState :=
  let '(hostId, meta) := e in
  if heartbeat_fresh state (candidateHeartbeat meta) nowMs then (Some [], state)
  else
    match offlineHostAndRequeue state hostId STALE_REASON with
    | (None, state) => (None, state)
    | (Some ids, state) =>
        let state := match truthy_opt (candidateConnection meta) with
                     | Some c => delete_connection state c
                     | None => state
                     end in
        let state := delete_disconnected (delete_host_connection state hostId) hostId in
        (Some ids, state <| Plane.offlineAlerts := (Plane.offlineAlerts state ++ [hostId])%list |>)
    end.

Fixpoint reclaim_stale_all (nowMs : Z) (candidates : JsMap.t StaleCandidate) (state : ControlPlaneState)
    : option (list string) * ControlPlaneState :=
  match candidates with
  | [] => (Some [], state)
  | e :: rest =>
      match reclaim_stale_host nowMs state e with
      | (None, state) => (None, state)
      | (Some ids, state) =>
          let '(more, state) := reclaim_stale_all nowMs rest state in
          ((fun l => (ids ++ l)%list) <$> more, state)
      end
  end.

Definition reclaimStaleHosts (state : ControlPlaneState) (nowMs : Z)
    : option (list string) * ControlPlaneState :=
  let '(state, candidates) := stale_connected state JsMap.empty in
  let '(ids, state) := reclaim_stale_all nowMs (stale_disconnected state candidates) state in
  (dedup [] <$> ids, state).

(** ** Drain and resume *)

(** The worktree the body sees is mutated in place. *)
Definition set_idle_online (hostId : string) (on : bool) (state : ControlPlaneState) (k : string)
    (w : WorktreeRecord) : ControlPlaneState :=
  if str_eqb (Worktree.hostId w) hostId && bool_decide (Worktree.status w = idle)
  then set_worktree state k (w <| Worktree.online := on |>) else state.

(** [connectionId && hostConnection.get(hostId) !== connectionId]. *)
Definition stale_connection (state : ControlPlaneState) (hostId : string) (connectionId : option string)
    : bool :=
  match truthy_opt connectionId with
  | Some c => negb (bool_decide (JsMap.get hostId (Plane.hostConnection state) = Some c))
  | None => false
  end.

(** [None] is [ok: false]. *)
Definition drainHost (state : ControlPlaneState) (hostId : string) (connectionId : option string)
    : option (list string) * ControlPlaneState :=
  if stale_connection state hostId connectionId then (None, state)
  else
    let state := set_draining state hostId true in
    let running_ := map Session.id
      (List.filter (fun s => bool_decide (Session.hostId s = Val hostId) &&
                             bool_decide (Session.status s = running))
         (JsMap.values (Plane.sessions state))) in
    let state := emit state hostId msg_drain in
    (Some running_, visit Plane.worktrees (set_idle_online hostId false) state).

Definition isDraining (state : ControlPlaneState) (hostId : string) : bool :=
  set_has hostId (Plane.drainingHosts state).

Definition resumeHost (state : ControlPlaneState) (hostId : string) (connectionId : option string)
    : bool * ControlPlaneState :=
  if stale_connection state hostId connectionId then (false, state)
  else if negb (isDraining state hostId) then (true, state)
  else
    let state := emit (set_draining state hostId false) hostId msg_resume in
    (true, visit Plane.worktrees (set_idle_online hostId true) state).

(** ** Frames *)

(** The storage-less [host:keepalive]: the heartbeat, then the sessions the daemon no
    longer runs; [None] is a thrown error, [Some None] an unknown host. *)
Definition handleKeepalive (state : ControlPlaneState) (hostId : string) (at_ : option string)
    (runningSessions : option (list string)) : option (option Omitted) * ControlPlaneState :=
  match heartbeat state hostId at_ with
  | (false, state) => (Some None, state)
  | (true, state) =>
      let '(out, state) := reconcileHostOwnedSessions state hostId (dedup [] (opt_or runningSessions []))
        "daemon no longer reports session as running; requeued" in
      (Some <$> out, state)
  end.

(** ** Sockets being published *)
Definition markHostSocketPendingPublish (state : ControlPlaneState) (connectionId : string) : ControlPlaneState :=
  state <| Plane.pendingHostSocketPublish := set_add connectionId (Plane.pendingHostSocketPublish state) |>.

Definition clearHostSocketPendingPublish (state : ControlPlaneState) (connectionId : string) : ControlPlaneState :=
  state <| Plane.pendingHostSocketPublish := set_delete connectionId (Plane.pendingHostSocketPublish state) |>.

(** Whether the rollback starts an assignment pass. *)
Definition requestAssignmentAfterInMemoryRegisterRollback (state : ControlPlaneState)
    (requeued : list string) (hostId failedConnectionId : string) : bool :=
  match requeued with
  | [] => false
  | _ =>
      match JsMap.get hostId (Plane.hostConnection state) with
      | Some winner =>
          str_eqb winner failedConnectionId || negb (set_has winner (Plane.pendingHostSocketPublish state))
      | None => true
      end
  end.
End hosts.
