(* ===== verification/Validation.v ===== *)
(** * Validation of a session request

    modules/shared/src/validation.ts (the session fields) and
    modules/shared/src/scheduled-branch-ref.ts.  An [unknown] input is an optional
    [json] value, [None] for [undefined]; the numbers of a request are integers, so
    that the guards on fractions and infinities hold of every number. *)

From Stdlib Require Import ZArith Lia Ascii String.
From stdpp Require Import base strings list sets.
From S2P Require Import Prelude Cron Types Ordering CommandResume SessionOutcome Assignment Registration.

Local Open Scope string_scope.
Local Open Scope Z_scope.

(** [ValidationResult]. *)
Inductive ValidationResult (A : Type) := valid (value : A) | invalid (error : string).
Arguments valid {A} value.
Arguments invalid {A} error.

Declare Scope validation_scope.
Delimit Scope validation_scope with validation.
(** An early return, and the first failing result of a call. *)
Notation "'reject' c 'with' e ; k" := (if c then invalid e else k)
  (at level 200, c at level 100, e at level 100, k at level 200) : validation_scope.
Notation "x <-! r ; k" := (match r with valid x => k | invalid e => invalid e end)
  (at level 200, r at level 100, k at level 200) : validation_scope.
Notation "'fails' r ; k" := (match r with Some e => invalid e | None => k end)
  (at level 200, r at level 100, k at level 200) : validation_scope.
Local Open Scope validation_scope.

(** ** Limits *)
Definition MAX_CONCURRENCY_ID_BYTES : Z := 2048.
Definition MAX_SESSION_TIMEOUT_SECONDS : Z := 7 * 24 * 60 * 60.
Definition MAX_QUEUE_TTL_SECONDS : Z := 30 * 24 * 60 * 60.
Definition DEFAULT_QUEUE_TTL_SECONDS : Z := 691200.
Definition MAX_SESSION_PRIORITY : Z := 10000.
Definition MAX_REQUIRED_LABELS : Z := 16.
Definition MAX_REQUIRED_LABEL_LENGTH : Z := 64.
Definition MAX_METADATA_KEYS : Z := 32.
Definition MAX_METADATA_KEY_LENGTH : Z := 64.
Definition MAX_METADATA_STRING_LENGTH : Z := 1024.
Definition MAX_FALLBACKS : Z := 90.
Definition MAX_SCHEDULE_FALLBACKS : Z := 88.

Definition promptByteLengthError (prompt : string) : option string :=
  if MAX_PROMPT_BYTES <? utf8_length prompt
  then Some ("prompt must be at most " ++ number_string MAX_PROMPT_BYTES ++ " bytes") else None.

Definition concurrencyIdByteLengthError (concurrencyId : string) : option string :=
  if MAX_CONCURRENCY_ID_BYTES <? utf8_length concurrencyId
  then Some ("concurrencyId must be at most " ++ number_string MAX_CONCURRENCY_ID_BYTES ++ " bytes") else None.

(** [isNonEmptyString], with the string it finds. *)
Definition isNonEmptyString (value : option json) : option string :=
  match value with Some (JString s) => truthy_opt (Some s) | _ => None end.

Definition sessionTimeoutError (timeout : option json) : option string :=
  match timeout with
  | Some (JNumber t) =>
      if t <=? 0 then Some "timeout must be a positive number of seconds"
      else if MAX_SESSION_TIMEOUT_SECONDS <? t
      then Some ("timeout must be at most " ++ number_string MAX_SESSION_TIMEOUT_SECONDS ++ " seconds") else None
  | _ => Some "timeout must be a positive number of seconds"
  end.

Definition sessionPriorityError (priority : option json) : option string :=
  match priority with
  | Some (JNumber p) =>
      if MAX_SESSION_PRIORITY <? Z.abs p
      then Some ("priority must be between -" ++ number_string MAX_SESSION_PRIORITY ++ " and " ++
                 number_string MAX_SESSION_PRIORITY) else None
  | _ => Some "priority must be a number"
  end.

Definition SESSION_TYPES : list string := ["prompt"; "scheduled"; "workspace"].
Definition SESSION_SOURCES : list string := ["api"; "ui"; "webhook"; "schedule"].

Definition isSessionType (value : json) : option string :=
  match value with JString s => if existsb (str_eqb s) SESSION_TYPES then Some s else None | _ => None end.

Definition isSessionSource (value : json) : option string :=
  match value with JString s => if existsb (str_eqb s) SESSION_SOURCES then Some s else None | _ => None end.

Definition isReservedConcurrencyId (value : string) : bool :=
  String.prefix "catalog-delete:" value || String.prefix "provider-account:" value ||
  String.prefix "provider-lease:" value || String.prefix "session-spawn:" value ||
  String.prefix "webhook:" value || String.prefix "github-comment:" value.

(** ** Git refs *)
Definition MAX_SCHEDULED_BRANCH_REF_BYTES : Z := 255.

(** [/^[0-9a-f]{7,64}$/i]. *)
Definition SHA_LIKE_REF (value : string) : bool :=
  (7 <=? slen value) && (slen value <=? 64) &&
  all_chars (fun c => in_range 48 57 c || in_range 97 102 c || in_range 65 70 c) value.

Definition hasControlCharacter (value : string) : bool :=
  string_exists (fun c => (code c <=? 32) || (code c =? 127)) value.

Definition hasForbiddenBranchCharacter (value : string) : bool :=
  hasControlCharacter value ||
  string_exists (fun c => existsb (Ascii.eqb c) ["~"; "^"; ":"; "?"; "*"; "["; "\"]%char) value.

Definition hasUnsafeRefShape (value : string) : bool :=
  String.prefix "-" value || String.prefix "/" value || string_ends_with "/" value ||
  string_ends_with "." value || string_includes "//" value || string_includes ".." value ||
  string_includes "@{" value || hasControlCharacter value.

Definition hasSafeRefPathSegments (value : string) : bool :=
  forallb (fun part => negb (String.prefix "." part) && negb (string_ends_with ".lock" part)) (split_on "/" value).

Definition HEADS_PREFIX : string := "refs/heads/".

Definition isValidGitHubIngressDefaultRef (value : json) : bool :=
  match value with
  | JString s =>
      String.prefix HEADS_PREFIX s &&
      (utf8_length s <=? MAX_SCHEDULED_BRANCH_REF_BYTES) &&
      let suffix := drop_chars (String.length HEADS_PREFIX) s in
      truthy suffix && negb (str_eqb suffix "@") && negb (str_eqb suffix "HEAD") &&
      negb (hasUnsafeRefShape suffix || hasForbiddenBranchCharacter suffix) &&
      hasSafeRefPathSegments suffix
  | _ => false
  end.

Definition canonicalizeGitHubIngressDefaultRef (value : json) : option string :=
  match value with
  | JString s =>
      if isValidGitHubIngressDefaultRef value then Some s
      else if String.prefix "refs/" s then None
      else let candidate := HEADS_PREFIX ++ s in
           if isValidGitHubIngressDefaultRef (JString candidate) then Some candidate else None
  | _ => None
  end.

Definition isValidScheduledBranchRef (value : string) : bool :=
  truthy value && (utf8_length value <=? MAX_SCHEDULED_BRANCH_REF_BYTES) &&
  negb (str_eqb value "@" || str_eqb value "HEAD" || String.prefix "refs/" value ||
        hasUnsafeRefShape value || hasForbiddenBranchCharacter value || SHA_LIKE_REF value) &&
  hasSafeRefPathSegments value.

Definition isValidSessionRef (value : string) : bool :=
  truthy value && (utf8_length value <=? MAX_SCHEDULED_BRANCH_REF_BYTES) &&
  negb (hasUnsafeRefShape value) && hasSafeRefPathSegments value.

(** ** Targets *)
Definition parseTarget (value : option json) (name : string) : ValidationResult TargetRef :=
  match value with
  | Some (JObject target) =>
      let providerId := JsMap.get "providerId" target in
      let commandId := JsMap.get "commandId" target in
      reject eqb (is_some providerId) (is_some commandId)
        with (name ++ " must contain exactly one of providerId or commandId");
      if is_some providerId then
        match isNonEmptyString providerId with
        | Some p => valid (target_provider p)
        | None => invalid (name ++ ".providerId must be a non-empty string")
        end
      else
        match isNonEmptyString commandId with
        | Some c => valid (target_command c)
        | None => invalid (name ++ ".commandId must be a non-empty string")
        end
  | _ => invalid (name ++ " must be an object with exactly one of providerId or commandId")
  end.

Definition targetKey (target : TargetRef) : string :=
  match target with
  | target_provider p => "provider:" ++ p
  | target_command c => "command:" ++ c
  end.

(** [for (let i = 0; i < input.fallbacks.length; i++)]. *)
Fixpoint parse_fallbacks (i : Z) (seen : list string) (items : list json) : ValidationResult (list TargetRef) :=
  match items with
  | [] => valid []
  | item :: rest =>
      fallback <-! parseTarget (Some item) ("fallbacks[" ++ number_string i ++ "]");
      reject existsb (str_eqb (targetKey fallback)) seen with "target and fallbacks must not contain duplicates";
      fallbacks <-! parse_fallbacks (i + 1) (seen ++ [targetKey fallback]) rest;
      valid (fallback :: fallbacks)
  end.

Record TargetRouting := mkTargetRouting {
  routingTarget : TargetRef;
  routingFallbacks : list TargetRef;
  routingTtl : Z;
}.

Definition parse_fallback_list (target : TargetRef) (fallbacks : option json) (maxFallbacks : Z)
    : ValidationResult (list TargetRef) :=
  match fallbacks with
  | None => valid []
  | Some (JArray items) =>
      reject maxFallbacks <? Z.of_nat (length items)
        with ("fallbacks must have at most " ++ number_string maxFallbacks ++ " entries");
      parse_fallbacks 0 [targetKey target] items
  | Some _ => invalid "fallbacks must be an array"
  end.

Definition validateTargetRouting (target fallbacks queueTtlSeconds : option json) (maxFallbacks : Z)
    : ValidationResult TargetRouting :=
  target <-! parseTarget target "target";
  fallbacks <-! parse_fallback_list target fallbacks maxFallbacks;
  match match queueTtlSeconds with None | Some JNull => JNumber DEFAULT_QUEUE_TTL_SECONDS | Some v => v end with
  | JNumber ttl =>
      reject ttl <=? 0 with "queueTtlSeconds must be a positive integer";
      reject MAX_QUEUE_TTL_SECONDS <? ttl
        with ("queueTtlSeconds must be at most " ++ number_string MAX_QUEUE_TTL_SECONDS);
      valid (mkTargetRouting target fallbacks ttl)
  | _ => invalid "queueTtlSeconds must be a positive integer"
  end.

(** ** Metadata *)
Definition metadata_entry_error (key : string) (field : json) : option string :=
  if (slen key =? 0) || (MAX_METADATA_KEY_LENGTH <? slen key)
  then Some ("metadata keys must be 1-" ++ number_string MAX_METADATA_KEY_LENGTH ++ " characters")
  else match field with
       | JArray _ | JObject _ => Some "metadata values must be strings, numbers, booleans, or null"
       | JString s =>
           if MAX_METADATA_STRING_LENGTH <? slen s
           then Some ("metadata string values must be at most " ++ number_string MAX_METADATA_STRING_LENGTH ++
                      " characters") else None
       | _ => None
       end.

(** [for (const [key, field] of entries)]. *)
Fixpoint metadata_error (entries : list (string * json)) : option string :=
  match entries with
  | [] => None
  | (key, field) :: rest => opt_else (metadata_entry_error key field) (metadata_error rest)
  end.

Definition parseSessionMetadata (value : json) : ValidationResult Metadata :=
  match value with
  | JObject entries =>
      reject MAX_METADATA_KEYS <? Z.of_nat (length entries)
        with ("metadata must have at most " ++ number_string MAX_METADATA_KEYS ++ " keys");
      fails metadata_error entries;
      valid entries
  | _ => invalid "metadata must be an object when set"
  end.

(** ** The request *)
Record CreateInput := mkCreateInput {
  in_repositoryId : option json;
  in_prompt : option json;
  in_target : option json;
  in_fallbacks : option json;
  in_queueTtlSeconds : option json;
  in_timeout : option json;
  in_priority : option json;
  in_requiredLabels : option json;
  in_ref : option json;
  in_concurrencyId : option json;
  in_metadata : option json;
  in_type : option json;
  in_source : option json;
  in_workspacePoolId : option json;
  in_setupProfileId : option json;
  in_destroyWorkspaceAfter : option json;
  in_setupScript : option json;
  in_allowReservedConcurrencyId : bool;
}.

Record CreateOptions := mkCreateOptions {
  allowCustomWebhookConcurrencyId : bool;
  allowGitHubCommentConcurrencyId : bool;
}.

Record ValidatedFields := mkValidatedFields {
  v_repositoryId : option string;
  v_prompt : string;
  v_target : TargetRef;
  v_fallbacks : list TargetRef;
  v_queueTtlSeconds : Z;
  v_timeout : Z;
  v_priority : Z;
  v_requiredLabels : list string;
  v_ref : option string;
  v_concurrencyId : option string;
  v_metadata : option Metadata;
  v_type : string;
  v_source : string;
  v_workspacePoolId : option string;
  v_setupProfileId : option string;
  v_destroyWorkspaceAfter : option bool;
}.

(** A field that may be missing: what its check makes of a present value. *)
Definition when_set {A} (value : option json) (f : json -> ValidationResult A) : ValidationResult (option A) :=
  match value with None => valid None | Some v => x <-! f v; valid (Some x) end.

Definition all_strings (items : list json) : option (list string) :=
  mapM (fun v => match v with JString s => Some s | _ => None end) items.

Definition parse_labels (value : json) : ValidationResult (list string) :=
  match value with
  | JArray items =>
      match all_strings items with
      | None => invalid "requiredLabels must be an array of strings"
      | Some labels =>
          reject MAX_REQUIRED_LABELS <? Z.of_nat (length labels)
            with ("requiredLabels must have at most " ++ number_string MAX_REQUIRED_LABELS ++ " entries");
          reject existsb (fun label => MAX_REQUIRED_LABEL_LENGTH <? slen label) labels
            with ("requiredLabels entries must be at most " ++ number_string MAX_REQUIRED_LABEL_LENGTH ++ " characters");
          valid labels
      end
  | _ => invalid "requiredLabels must be an array of strings"
  end.

Definition parse_ref (value : json) : ValidationResult string :=
  match isNonEmptyString (Some value) with
  | None => invalid "ref must be a non-empty string when set"
  | Some r => reject negb (isValidSessionRef r) with "ref must be a valid git ref"; valid r
  end.

Definition parse_concurrency_id (input : CreateInput) (options : CreateOptions) (value : json)
    : ValidationResult string :=
  match isNonEmptyString (Some value) with
  | None => invalid "concurrencyId must be a non-empty string when set"
  | Some id =>
      reject isReservedConcurrencyId id && negb (in_allowReservedConcurrencyId input) &&
             negb ((allowCustomWebhookConcurrencyId options && String.prefix "webhook:" id) ||
                   (allowGitHubCommentConcurrencyId options && String.prefix "github-comment:" id))
        with "concurrencyId uses a reserved internal prefix";
      fails concurrencyIdByteLengthError id;
      valid id
  end.

Definition parse_priority (value : json) : ValidationResult Z :=
  match sessionPriorityError (Some value), value with
  | None, JNumber p => valid p
  | Some e, _ => invalid e
  | None, _ => invalid "priority must be a number"
  end.

Definition is_json_bool (value : json) : bool := match value with JBool _ => true | _ => false end.

Definition validateCreateSessionInput (input : CreateInput) (options : CreateOptions)
    : ValidationResult ValidatedFields :=
  let isWorkspace := match in_repositoryId input with Some JNull => true | _ => false end in
  let repositoryId := isNonEmptyString (in_repositoryId input) in
  reject negb isWorkspace && negb (is_some repositoryId) with "repositoryId is required";
  reject is_some (in_setupScript input) with "setupScript is not accepted; use setupProfileId";
  reject isWorkspace && negb (is_some (isNonEmptyString (in_workspacePoolId input)))
    with "workspacePoolId is required for workspace sessions";
  reject negb isWorkspace && is_some (in_workspacePoolId input)
    with "workspacePoolId is only valid for workspace sessions";
  reject is_some (in_setupProfileId input) && negb (is_some (isNonEmptyString (in_setupProfileId input)))
    with "setupProfileId must be a non-empty string when set";
  reject negb isWorkspace && is_some (in_setupProfileId input)
    with "setupProfileId is only valid for workspace sessions";
  reject match in_destroyWorkspaceAfter input with Some v => negb (is_json_bool v) | None => false end
    with "destroyWorkspaceAfter must be a boolean when set";
  reject negb isWorkspace && is_some (in_destroyWorkspaceAfter input)
    with "destroyWorkspaceAfter is only valid for workspace sessions";
  reject match in_type input with Some v => negb (is_some (isSessionType v)) | None => false end
    with "type must be prompt, scheduled, or workspace";
  let type := opt_or (v ← in_type input; isSessionType v) (if isWorkspace then "workspace" else "prompt") in
  reject isWorkspace && negb (str_eqb type "workspace") with "workspace sessions must have type workspace";
  reject negb isWorkspace && str_eqb type "workspace" with "workspace type requires repositoryId null";
  match in_prompt input with
  | Some (JString prompt) =>
      reject negb (truthy (trim prompt)) && negb (str_eqb type "scheduled") &&
             negb match in_source input with Some (JString s) => str_eqb s "schedule" | _ => false end
        with "prompt is required";
      fails promptByteLengthError prompt;
      routing <-! validateTargetRouting (in_target input) (in_fallbacks input) (in_queueTtlSeconds input) MAX_FALLBACKS;
      fails sessionTimeoutError (in_timeout input);
      priority <-! when_set (in_priority input) parse_priority;
      labels <-! when_set (in_requiredLabels input) parse_labels;
      let requiredLabels := opt_or labels [] in
      reject isWorkspace && (0 <? Z.of_nat (length requiredLabels))
        with "requiredLabels are not supported for workspace sessions";
      ref <-! when_set (in_ref input) parse_ref;
      reject isWorkspace && is_some ref with "ref is not supported for workspace sessions";
      concurrencyId <-! when_set (in_concurrencyId input) (parse_concurrency_id input options);
      metadata <-! when_set (in_metadata input) parseSessionMetadata;
      reject match in_source input with Some v => negb (is_some (isSessionSource v)) | None => false end
        with "source must be api, ui, webhook, or schedule";
      reject str_eqb type "scheduled" && match ref with Some r => negb (isValidScheduledBranchRef r) | None => false end
        with "scheduled ref must be a valid branch name";
      valid (mkValidatedFields (if isWorkspace then None else repositoryId) prompt
        (routingTarget routing) (routingFallbacks routing) (routingTtl routing)
        match in_timeout input with Some (JNumber t) => t | _ => 0 end
        (opt_or priority 0) requiredLabels ref concurrencyId metadata type
        (opt_or (v ← in_source input; isSessionSource v) "api")
        (if isWorkspace then isNonEmptyString (in_workspacePoolId input) else None)
        (if isWorkspace then isNonEmptyString (in_setupProfileId input) else None)
        (if isWorkspace then match in_destroyWorkspaceAfter input with Some (JBool b) => Some b | _ => None end
         else None))
  | _ => invalid "prompt is required"
  end.

(** ** What an accepted request satisfies *)
Definition target_named (t : TargetRef) : Prop :=
  match t with target_provider p => p <> "" | target_command c => c <> "" end.

Definition metadata_entry_ok (e : string * json) : Prop :=
  1 <= slen e.1 <= 64 /\
  match e.2 with JArray _ | JObject _ => False | JString s => slen s <= 1024 | _ => True end.

(** The lock namespaces a caller may name. *)
Definition may_lock (reserved : bool) (o : CreateOptions) (id : string) : Prop :=
  isReservedConcurrencyId id = true ->
  reserved = true \/
  (allowCustomWebhookConcurrencyId o = true /\ String.prefix "webhook:" id = true) \/
  (allowGitHubCommentConcurrencyId o = true /\ String.prefix "github-comment:" id = true).

(** A repository session names its repository and nothing of a workspace; a workspace
    session names its pool, and carries neither labels nor a ref. *)
Definition kind_ok (v : ValidatedFields) : Prop :=
  match v_repositoryId v with
  | Some r => r <> "" /\ (v_type v = "prompt" \/ v_type v = "scheduled") /\ v_workspacePoolId v = None /\
              v_setupProfileId v = None /\ v_destroyWorkspaceAfter v = None
  | None => v_type v = "workspace" /\ (exists p, v_workspacePoolId v = Some p /\ p <> "") /\
            v_setupProfileId v <> Some "" /\ v_requiredLabels v = [] /\ v_ref v = None
  end.

Record fields_ok (reserved : bool) (o : CreateOptions) (v : ValidatedFields) : Prop := {
  ok_kind : kind_ok v;
  ok_source : In (v_source v) SESSION_SOURCES;
  ok_prompt : utf8_length (v_prompt v) <= 65536;
  ok_blank : trim (v_prompt v) = "" -> v_type v = "scheduled" \/ v_source v = "schedule";
  ok_targets : NoDup (v_target v :: v_fallbacks v);
  ok_named : Forall target_named (v_target v :: v_fallbacks v);
  ok_fallbacks : Z.of_nat (length (v_fallbacks v)) <= 90;
  ok_ttl : 1 <= v_queueTtlSeconds v <= 2592000;
  ok_timeout : 1 <= v_timeout v <= 604800;
  ok_priority : -10000 <= v_priority v <= 10000;
  ok_labels : Z.of_nat (length (v_requiredLabels v)) <= 16;
  ok_label : Forall (fun l => slen l <= 64) (v_requiredLabels v);
  ok_ref : forall r, v_ref v = Some r ->
    isValidSessionRef r = true /\ (v_type v = "scheduled" -> isValidScheduledBranchRef r = true);
  ok_lock : forall id, v_concurrencyId v = Some id ->
    id <> "" /\ utf8_length id <= 2048 /\ may_lock reserved o id;
  ok_metadata : forall m, v_metadata v = Some m ->
    Z.of_nat (length m) <= 32 /\ Forall metadata_entry_ok m;
}.

(** ** The parsers, inverted *)
Lemma truthy_false s : truthy s = false <-> s = "".
Proof. unfold truthy. rewrite negb_false_iff, bool_decide_eq_true. done. Qed.

Lemma isNonEmptyString_some v s : isNonEmptyString v = Some s <-> v = Some (JString s) /\ s <> "".
Proof.
  split.
  - destruct v as [[]|]; simpl; try done. destruct (truthy s0) eqn:E; [|done].
    intros [= ->]. by apply truthy_true in E.
  - intros [-> Hs]. simpl. by rewrite (proj2 (truthy_true s) Hs).
Qed.

Lemma targetKey_inj : Inj (=) (=) targetKey.
Proof. intros [a|a] [b|b] H; simpl in H; simplify_eq; done. Qed.

Lemma parseTarget_ok v name t : parseTarget v name = valid t -> target_named t.
Proof.
  destruct v as [[| | | | |entries]|]; simpl; try done.
  destruct (eqb _ _); [done|]. destruct (is_some _);
    (destruct (isNonEmptyString _) as [s|] eqn:E; [|done]); intros [= <-];
    by apply isNonEmptyString_some in E as [_ ?].
Qed.

Lemma parse_fallbacks_ok items i seen l :
  parse_fallbacks i seen items = valid l ->
  length l = length items /\ Forall target_named l /\ NoDup l /\
  Forall (fun t => targetKey t ∉ seen) l.
Proof.
  revert i seen l. induction items as [|item items IH]; intros i seen l; cbn [parse_fallbacks].
  { intros [= <-]. repeat constructor. }
  destruct (parseTarget (Some item) _) as [t|] eqn:Ht; [|done].
  destruct (existsb _ seen) eqn:Hseen; [done|].
  destruct (parse_fallbacks (i + 1) _ items) as [l'|] eqn:Hl; [|done]. intros [= <-].
  apply IH in Hl as (Hlen & Hnamed & Hnd & Hfresh). rewrite Forall_forall in Hfresh.
  apply parseTarget_ok in Ht.
  assert (Hnot : targetKey t ∉ seen).
  { intros Hin. apply Bool.not_true_iff_false in Hseen. apply Hseen, existsb_exists.
    exists (targetKey t). split; [by apply list_elem_of_In|apply str_eqb_refl]. }
  repeat split; simpl; [by rewrite Hlen|by constructor| |].
  - constructor; [|done]. intros Hin. apply (Hfresh t Hin). set_solver.
  - constructor; [done|]. apply Forall_forall. intros u Hu Hin. apply (Hfresh u Hu). set_solver.
Qed.

Lemma parse_fallback_list_ok t fb n l :
  0 <= n -> parse_fallback_list t fb n = valid l ->
  Z.of_nat (length l) <= n /\ Forall target_named l /\ NoDup (t :: l).
Proof.
  intros Hn. destruct fb as [[| | | |items|]|]; simpl; try done.
  - destruct (n <? _) eqn:E; [done|]. intros H.
    apply parse_fallbacks_ok in H as (Hlen & Hnamed & Hnd & Hfresh). rewrite Forall_forall in Hfresh.
    split; [lia|]. split; [done|]. constructor; [|done].
    intros Hin. apply (Hfresh t Hin). set_solver.
  - intros [= <-]. simpl. repeat constructor; [lia|set_solver].
Qed.

Lemma validateTargetRouting_ok t fb ttl n r :
  0 <= n -> validateTargetRouting t fb ttl n = valid r ->
  target_named (routingTarget r) /\ Z.of_nat (length (routingFallbacks r)) <= n /\
  Forall target_named (routingFallbacks r) /\ NoDup (routingTarget r :: routingFallbacks r) /\
  1 <= routingTtl r <= MAX_QUEUE_TTL_SECONDS.
Proof.
  intros Hn. unfold validateTargetRouting.
  destruct (parseTarget t _) as [target|] eqn:Ht; [|done].
  destruct (parse_fallback_list target fb n) as [l|] eqn:Hl; [|done].
  destruct (match ttl with None | Some JNull => _ | Some v => v end); try done.
  destruct (z <=? 0) eqn:E1; [done|]. destruct (_ <? z) eqn:E2; [done|]. intros [= <-]. simpl.
  apply parseTarget_ok in Ht. apply parse_fallback_list_ok in Hl as (? & ? & ?); [|done].
  repeat split; [done|lia|done|done|lia|lia].
Qed.

Lemma metadata_entry_error_none k f : metadata_entry_error k f = None <-> metadata_entry_ok (k, f).
Proof.
  unfold metadata_entry_error, metadata_entry_ok, MAX_METADATA_KEY_LENGTH, MAX_METADATA_STRING_LENGTH. simpl.
  assert (0 <= slen k) by (unfold slen; lia).
  destruct ((slen k =? 0) || (64 <? slen k)) eqn:E.
  - split; [done|]. intros [? _]. lia.
  - destruct f; try (split; [intros; split; [lia|done]|done]); try (split; [done|intros [_ []]]).
    destruct (1024 <? slen s) eqn:E2; split; try done; [intros [_ ?]; lia|intros _; split; lia].
Qed.

Lemma metadata_error_none m : metadata_error m = None <-> Forall metadata_entry_ok m.
Proof.
  induction m as [|[k f] m IH]; simpl; [by split|]. rewrite Forall_cons, <- metadata_entry_error_none, <- IH.
  destruct (metadata_entry_error k f); simpl; naive_solver.
Qed.

Lemma parseSessionMetadata_valid v m :
  parseSessionMetadata v = valid m <-> v = JObject m /\ Z.of_nat (length m) <= 32 /\ Forall metadata_entry_ok m.
Proof.
  unfold parseSessionMetadata, MAX_METADATA_KEYS. split.
  - destruct v as [| | | | |entries]; try done. destruct (32 <? _) eqn:E; [done|].
    destruct (metadata_error entries) eqn:Em; [done|]. intros [= <-].
    apply metadata_error_none in Em. repeat split; [lia|done].
  - intros (-> & Hlen & Hm). destruct (32 <? _) eqn:E; [lia|].
    by rewrite (proj2 (metadata_error_none m) Hm).
Qed.

Lemma all_strings_map l : all_strings (map JString l) = Some l.
Proof. unfold all_strings. induction l as [|s l IH]; simpl; [done|]. by rewrite IH. Qed.

Lemma parse_labels_ok v l :
  parse_labels v = valid l -> Z.of_nat (length l) <= 16 /\ Forall (fun x => slen x <= 64) l.
Proof.
  unfold parse_labels, MAX_REQUIRED_LABELS, MAX_REQUIRED_LABEL_LENGTH. destruct v; try done.
  destruct (all_strings _) as [labels|]; [|done]. destruct (16 <? _) eqn:E; [done|].
  destruct (existsb _ labels) eqn:Ex; [done|]. intros [= <-]. split; [lia|].
  apply Forall_forall. intros x Hx. apply Bool.not_true_iff_false in Ex.
  apply Z.nlt_ge. intros Hlt. apply Ex, existsb_exists. exists x.
  split; [by apply list_elem_of_In|lia].
Qed.

Lemma parse_labels_complete l :
  Z.of_nat (length l) <= 16 -> Forall (fun x => slen x <= 64) l ->
  parse_labels (JArray (map JString l)) = valid l.
Proof.
  intros Hlen Hl. unfold parse_labels, MAX_REQUIRED_LABELS, MAX_REQUIRED_LABEL_LENGTH.
  rewrite all_strings_map. destruct (16 <? _) eqn:E; [lia|].
  destruct (existsb _ l) eqn:Ex; [|done]. apply existsb_exists in Ex as (x & Hx & Hlt).
  rewrite Forall_forall in Hl. specialize (Hl x (proj2 (list_elem_of_In _ _) Hx)). lia.
Qed.

Lemma parse_ref_valid v r :
  parse_ref v = valid r <-> v = JString r /\ r <> "" /\ isValidSessionRef r = true.
Proof.
  unfold parse_ref. split.
  - destruct (isNonEmptyString (Some v)) as [s|] eqn:E; [|done].
    apply isNonEmptyString_some in E as [[= ->] Hs]. destruct (isValidSessionRef s) eqn:Hv; [|done].
    by intros [= <-].
  - intros (-> & Hr & Hv). rewrite (proj2 (isNonEmptyString_some _ r) (conj eq_refl Hr)). by rewrite Hv.
Qed.

Lemma parse_concurrency_id_valid input o v id :
  parse_concurrency_id input o v = valid id <->
  v = JString id /\ id <> "" /\ utf8_length id <= 2048 /\ may_lock (in_allowReservedConcurrencyId input) o id.
Proof.
  unfold parse_concurrency_id, concurrencyIdByteLengthError, MAX_CONCURRENCY_ID_BYTES, may_lock.
  assert (Hlock : forall b1 b2 b3 b4 b5 b6 : bool,
    b1 && negb b2 && negb (b3 && b4 || b5 && b6) = false <->
    (b1 = true -> b2 = true \/ (b3 = true /\ b4 = true) \/ (b5 = true /\ b6 = true))) by
    (intros [] [] [] [] [] []; simpl; naive_solver).
  split.
  - destruct (isNonEmptyString (Some v)) as [s|] eqn:E; [|done].
    apply isNonEmptyString_some in E as [[= ->] Hs].
    destruct (_ && _ && _) eqn:Hl; [done|]. pose proof (proj1 (Hlock _ _ _ _ _ _) Hl) as Hlk.
    destruct (2048 <? _) eqn:Eb; [done|]. intros [= <-]. repeat split; [done|lia|done].
  - intros (-> & Hid & Hlen & Hl). rewrite (proj2 (isNonEmptyString_some _ id) (conj eq_refl Hid)).
    rewrite (proj2 (Hlock _ _ _ _ _ _) Hl). by destruct (2048 <? _) eqn:Eb; [lia|].
Qed.

Lemma parse_priority_valid v p : parse_priority v = valid p <-> v = JNumber p /\ Z.abs p <= 10000.
Proof.
  unfold parse_priority, sessionPriorityError, MAX_SESSION_PRIORITY. split.
  - destruct v as [| |z| | |]; try done. destruct (10000 <? _) eqn:E; [done|]. intros [= <-]. split; [done|lia].
  - intros [-> Hp]. by destruct (10000 <? _) eqn:E; [lia|].
Qed.

Lemma when_set_some {A} value (f : json -> ValidationResult A) x :
  when_set value f = valid (Some x) -> exists v, value = Some v /\ f v = valid x.
Proof. destruct value as [v|]; simpl; [|done]. destruct (f v) eqn:E; [|done]. intros [= <-]. eauto. Qed.

Lemma sessionTimeoutError_none v :
  sessionTimeoutError v = None <-> exists t, v = Some (JNumber t) /\ 1 <= t <= 604800.
Proof.
  unfold sessionTimeoutError, MAX_SESSION_TIMEOUT_SECONDS. split.
  - destruct v as [[| |t| | |]|]; try done. destruct (t <=? 0) eqn:E1; [done|].
    destruct (_ <? t) eqn:E2; [done|]. intros _. exists t. split; [done|lia].
  - intros (t & -> & Ht). destruct (t <=? 0) eqn:E1; [lia|]. by destruct (_ <? t) eqn:E2; [lia|].
Qed.

Lemma promptByteLengthError_none p : promptByteLengthError p = None <-> utf8_length p <= 65536.
Proof.
  unfold promptByteLengthError, MAX_PROMPT_BYTES. destruct (65536 <? _) eqn:E; split; try done; lia.
Qed.

(** ** Accepted fields, as a request *)
Definition target_json (t : TargetRef) : json :=
  match t with
  | target_provider p => JObject [("providerId", JString p)]
  | target_command c => JObject [("commandId", JString c)]
  end.

Definition request_of (reserved : bool) (v : ValidatedFields) : CreateInput :=
  mkCreateInput (Some match v_repositoryId v with Some r => JString r | None => JNull end)
    (Some (JString (v_prompt v))) (Some (target_json (v_target v)))
    (Some (JArray (map target_json (v_fallbacks v)))) (Some (JNumber (v_queueTtlSeconds v)))
    (Some (JNumber (v_timeout v))) (Some (JNumber (v_priority v)))
    (Some (JArray (map JString (v_requiredLabels v)))) (JString <$> v_ref v)
    (JString <$> v_concurrencyId v) (JObject <$> v_metadata v) (Some (JString (v_type v)))
    (Some (JString (v_source v))) (JString <$> v_workspacePoolId v) (JString <$> v_setupProfileId v)
    (JBool <$> v_destroyWorkspaceAfter v) None reserved.

Lemma parseTarget_json t name : target_named t -> parseTarget (Some (target_json t)) name = valid t.
Proof.
  destruct t as [s|s]; intros Hs; cbn in Hs; cbv -[truthy]; rewrite (proj2 (truthy_true s) Hs); done.
Qed.

Lemma parse_fallbacks_json l i seen :
  Forall target_named l -> NoDup l -> Forall (fun t => targetKey t ∉ seen) l ->
  parse_fallbacks i seen (map target_json l) = valid l.
Proof.
  revert i seen. induction l as [|t l IH]; intros i seen Hnamed Hnd Hfresh; [done|].
  apply Forall_cons in Hnamed as [Ht Hnamed]. apply NoDup_cons in Hnd as [Hnot Hnd].
  apply Forall_cons in Hfresh as [Hseen Hfresh]. cbn [parse_fallbacks map].
  rewrite parseTarget_json by done.
  destruct (existsb _ seen) eqn:E.
  { apply existsb_exists in E as (k & Hk & Heq). apply str_eqb_true in Heq. subst k.
    by apply list_elem_of_In in Hk. }
  rewrite IH; [done|done|done|]. rewrite Forall_forall in Hfresh |- *. intros u Hu Hin.
  apply elem_of_app in Hin as [Hin|Hin]; [by apply (Hfresh u)|].
  apply list_elem_of_singleton, targetKey_inj in Hin. by subst u.
Qed.

Lemma routing_json t l ttl n :
  Forall target_named (t :: l) -> NoDup (t :: l) -> Z.of_nat (length l) <= n ->
  1 <= ttl <= MAX_QUEUE_TTL_SECONDS ->
  validateTargetRouting (Some (target_json t)) (Some (JArray (map target_json l))) (Some (JNumber ttl)) n =
  valid (mkTargetRouting t l ttl).
Proof.
  intros Hnamed Hnd Hlen Httl. apply Forall_cons in Hnamed as [Ht Hnamed].
  apply NoDup_cons in Hnd as [Hnot Hnd].
  unfold validateTargetRouting. rewrite parseTarget_json by done. cbn [parse_fallback_list].
  rewrite length_map. destruct (n <? _) eqn:E; [lia|].
  rewrite parse_fallbacks_json; [|done|done|].
  - destruct (ttl <=? 0) eqn:E1; [lia|]. by destruct (_ <? ttl) eqn:E2; [lia|].
  - apply Forall_forall. intros u Hu Hin. apply list_elem_of_singleton, targetKey_inj in Hin. by subst u.
Qed.

Lemma when_set_fmap {A B} (x : option B) (g : B -> json) (f : json -> ValidationResult A) (h : B -> A) :
  (forall b, x = Some b -> f (g b) = valid (h b)) -> when_set (g <$> x) f = valid (h <$> x).
Proof. destruct x as [b|]; intros H; simpl; [|done]. by rewrite (H b eq_refl). Qed.

Lemma isSessionSource_in s : In s SESSION_SOURCES -> isSessionSource (JString s) = Some s.
Proof.
  intros Hin. unfold isSessionSource. destruct (existsb _ _) eqn:E; [done|].
  apply Bool.not_true_iff_false in E. destruct E. apply existsb_exists. exists s. split; [done|apply str_eqb_refl].
Qed.

Lemma isSessionSource_some v s : isSessionSource v = Some s -> v = JString s /\ In s SESSION_SOURCES.
Proof.
  destruct v; try done. unfold isSessionSource. destruct (existsb _ _) eqn:E; [|done]. intros [= <-].
  apply existsb_exists in E as (x & Hin & Hx). apply str_eqb_true in Hx. by subst x.
Qed.

Lemma isSessionType_some v s : isSessionType v = Some s ->
  v = JString s /\ (s = "prompt" \/ s = "scheduled" \/ s = "workspace").
Proof.
  destruct v; try done. unfold isSessionType. destruct (existsb _ _) eqn:E; [|done]. intros [= <-].
  apply existsb_exists in E as (x & Hin & Hx). apply str_eqb_true in Hx. subst x. simpl in Hin.
  split; [done|]. naive_solver.
Qed.

(** Peels the guards of a validation that succeeded. *)
Ltac peel H :=
  repeat match type of H with
  | (if ?c then invalid _ else _) = valid _ => destruct c eqn:?; [discriminate H|]
  | (match ?r with Some _ => invalid _ | None => _ end) = valid _ => destruct r eqn:?; [discriminate H|]
  | (match ?r with valid _ => _ | invalid _ => invalid _ end) = valid _ => destruct r eqn:?; [|discriminate H]
  end.

Lemma type_of_input t (ws : bool) :
  let ty := opt_or (v ← t; isSessionType v) (if ws then "workspace" else "prompt") in
  ty = "prompt" \/ ty = "scheduled" \/ ty = "workspace".
Proof.
  destruct t as [v|]; simpl; [|destruct ws; auto].
  destruct (isSessionType v) as [s|] eqn:E; simpl; [|destruct ws; auto].
  by apply isSessionType_some in E as [_ ?].
Qed.

Lemma source_of_input src :
  In (opt_or (v ← src; isSessionSource v) "api") SESSION_SOURCES /\
  (match src with Some (JString s) => str_eqb s "schedule" | _ => false end = true ->
   opt_or (v ← src; isSessionSource v) "api" = "schedule").
Proof.
  destruct src as [v|]; simpl; [|split; [auto|done]].
  split.
  - destruct (isSessionSource v) as [s|] eqn:E; simpl; [|auto].
    by apply isSessionSource_some in E as [_ ?].
  - destruct v as [| | |s| |]; try done. intros E. apply str_eqb_true in E. by subst s.
Qed.

Lemma kind_of_input (ws : bool) (ty : string) (repo pool profile labels : option json) (ref : option string)
    (req : list string) (destroy : option bool) v :
  v_repositoryId v = (if ws then None else isNonEmptyString repo) ->
  v_type v = ty -> v_workspacePoolId v = (if ws then isNonEmptyString pool else None) ->
  v_setupProfileId v = (if ws then isNonEmptyString profile else None) ->
  v_destroyWorkspaceAfter v = (if ws then destroy else None) ->
  v_requiredLabels v = req -> v_ref v = ref ->
  negb ws && negb (is_some (isNonEmptyString repo)) = false ->
  ws && negb (is_some (isNonEmptyString pool)) = false ->
  ws && negb (str_eqb ty "workspace") = false -> negb ws && str_eqb ty "workspace" = false ->
  ws && (0 <? Z.of_nat (length req)) = false -> ws && is_some ref = false ->
  ty = "prompt" \/ ty = "scheduled" \/ ty = "workspace" -> kind_ok v.
Proof.
  intros Hr Ht Hp Hs Hd Hl Href G1 G2 G3 G4 G5 G6 Hty. unfold kind_ok.
  rewrite Hr, Ht, Hp, Hs, Hd, Hl, Href.
  destruct ws; simpl in G1, G2, G3, G4, G5, G6.
  - apply negb_false_iff, str_eqb_true in G3. split; [done|].
    destruct (isNonEmptyString pool) as [p|] eqn:Ep; [|done].
    apply isNonEmptyString_some in Ep as [_ Hne]. split; [eauto|].
    split. { intros E. by apply isNonEmptyString_some in E as [_ ?]. }
    split; [|by destruct ref]. by destruct req.
  - destruct (isNonEmptyString repo) as [r|] eqn:Er; [|done].
    apply isNonEmptyString_some in Er as [_ Hne]. repeat split; [done|].
    destruct Hty as [?|[?|E]]; [auto|auto|]. by rewrite E in G4.
Qed.

Lemma validate_sound input o v :
  validateCreateSessionInput input o = valid v -> fields_ok (in_allowReservedConcurrencyId input) o v.
Proof.
  unfold validateCreateSessionInput. intros H. peel H.
  destruct (in_prompt input) as [[| | |prompt| |]|] eqn:Hprompt; try discriminate H. peel H.
  injection H as <-.
  set (ws := match in_repositoryId input with Some JNull => true | _ => false end) in *.
  pose proof (type_of_input (in_type input) ws) as Hty. cbv zeta in Hty.
  destruct (source_of_input (in_source input)) as [Hsrc Hsched].
  set (ty := opt_or _ (if ws then _ else _)) in *. set (src := opt_or _ "api") in *.
  match goal with E : validateTargetRouting _ _ _ _ = _ |- _ =>
    apply validateTargetRouting_ok in E as (Ht & Hfb & Hnamed & Hnd & Httl); [|done] end.
  match goal with E : sessionTimeoutError _ = None |- _ =>
    destruct (proj1 (sessionTimeoutError_none _) E) as (t & Et & Htime) end.
  constructor; cbn [v_type v_source v_prompt v_target v_fallbacks v_queueTtlSeconds v_timeout v_priority
                    v_requiredLabels v_ref v_concurrencyId v_metadata].
  - eapply (kind_of_input ws ty (in_repositoryId input) (in_workspacePoolId input) (in_setupProfileId input)
              (in_requiredLabels input)); try reflexivity; try eassumption.
  - done.
  - by apply promptByteLengthError_none.
  - intros Hb. match goal with E : negb (truthy (trim prompt)) && _ && _ = false |- _ =>
      rewrite (proj2 (truthy_false _) Hb) in E; simpl in E; apply andb_false_iff in E as [E|E];
      apply negb_false_iff in E end; [left; by apply str_eqb_true|right; by apply Hsched].
  - done.
  - by constructor.
  - done.
  - done.
  - by rewrite Et.
  - destruct value0 as [p|]; simpl; [|lia].
    match goal with E : when_set _ parse_priority = _ |- _ =>
      apply when_set_some in E as (w & _ & E); apply parse_priority_valid in E as [_ E] end. lia.
  - destruct value1 as [l|]; simpl; [|lia].
    match goal with E : when_set _ parse_labels = _ |- _ =>
      apply when_set_some in E as (w & _ & E); by apply parse_labels_ok in E as [E _] end.
  - destruct value1 as [l|]; simpl; [|constructor].
    match goal with E : when_set _ parse_labels = _ |- _ =>
      apply when_set_some in E as (w & _ & E); by apply parse_labels_ok in E as [_ E] end.
  - intros r ->. match goal with E : when_set _ parse_ref = _ |- _ =>
      apply when_set_some in E as (w & _ & E); apply parse_ref_valid in E as (_ & _ & E) end.
    split; [done|]. intros Es. match goal with E : str_eqb ty "scheduled" && _ = false |- _ =>
      rewrite Es in E; simpl in E; by apply negb_false_iff in E end.
  - intros id ->. match goal with E : when_set _ (parse_concurrency_id _ _) = _ |- _ =>
      apply when_set_some in E as (w & _ & E); by apply parse_concurrency_id_valid in E as (_ & E) end.
  - intros m ->. match goal with E : when_set _ parseSessionMetadata = _ |- _ =>
      apply when_set_some in E as (w & _ & E); by apply parseSessionMetadata_valid in E as (_ & E) end.
Qed.

Lemma isValidSessionRef_filled r : isValidSessionRef r = true -> r <> "".
Proof. intros H ->. discriminate H. Qed.

(** The optional fields of accepted fields are read back. *)
Lemma optional_fields_read_back reserved o v (r := request_of reserved v) :
  fields_ok reserved o v ->
  when_set (in_priority r) parse_priority = valid (Some (v_priority v)) /\
  when_set (in_requiredLabels r) parse_labels = valid (Some (v_requiredLabels v)) /\
  when_set (in_ref r) parse_ref = valid (v_ref v) /\
  when_set (in_concurrencyId r) (parse_concurrency_id r o) = valid (v_concurrencyId v) /\
  when_set (in_metadata r) parseSessionMetadata = valid (v_metadata v) /\
  sessionTimeoutError (in_timeout r) = None /\ promptByteLengthError (v_prompt v) = None /\
  validateTargetRouting (in_target r) (in_fallbacks r) (in_queueTtlSeconds r) MAX_FALLBACKS =
    valid (mkTargetRouting (v_target v) (v_fallbacks v) (v_queueTtlSeconds v)).
Proof.
  intros [Hkind Hsrc Hprompt Hblank Hnd Hnamed Hfb Httl Htime Hprio Hlab Hlabel Href Hlock Hmeta].
  split; [|split; [|split; [|split; [|split; [|split; [|split]]]]]].
  - subst r. cbn [in_priority request_of when_set].
    by rewrite (proj2 (parse_priority_valid (JNumber (v_priority v)) _) (conj eq_refl (proj2 (Z.abs_le _ 10000) Hprio))).
  - subst r. cbn [in_requiredLabels request_of when_set]. by rewrite parse_labels_complete.
  - subst r. cbn [in_ref request_of]. rewrite (when_set_fmap _ _ _ id); [by rewrite option_fmap_id|].
    intros x Hx. apply parse_ref_valid. destruct (Href x Hx) as [Hv _].
    split; [done|]. split; [by apply isValidSessionRef_filled|done].
  - subst r. cbn [in_concurrencyId request_of]. rewrite (when_set_fmap _ _ _ id); [by rewrite option_fmap_id|].
    intros x Hx. apply parse_concurrency_id_valid. split; [done|]. by apply Hlock.
  - subst r. cbn [in_metadata request_of]. rewrite (when_set_fmap _ _ _ id); [by rewrite option_fmap_id|].
    intros x Hx. apply parseSessionMetadata_valid. split; [done|]. by apply Hmeta.
  - apply sessionTimeoutError_none. by exists (v_timeout v).
  - by apply promptByteLengthError_none.
  - by apply routing_json.
Qed.

Lemma blank_guard_off p ty src :
  (trim p = "" -> ty = "scheduled" \/ src = "schedule") ->
  negb (truthy (trim p)) && negb (str_eqb ty "scheduled") && negb (str_eqb src "schedule") = false.
Proof.
  intros H. destruct (truthy (trim p)) eqn:E; [done|]. apply truthy_false in E.
  destruct (H E) as [-> | ->]; [done|]. simpl. by rewrite andb_false_r.
Qed.

Lemma validate_complete reserved o v :
  fields_ok reserved o v -> validateCreateSessionInput (request_of reserved v) o = valid v.
Proof.
  intros Hok. destruct (optional_fields_read_back _ _ _ Hok) as (Ep & El & Er & Ec & Em & Et & Eb & Ert).
  destruct Hok as [Hkind Hsrc _ Hblank _ _ _ _ _ _ _ _ Href _ _].
  pose proof (isSessionSource_in _ Hsrc) as Hs. pose proof (blank_guard_off _ _ _ Hblank) as Hbl.
  unfold validateCreateSessionInput.
  destruct v as [repo prompt target fallbacks ttl time prio labels ref lock meta ty src pool profile destroy].
  unfold kind_ok in Hkind. cbn [v_repositoryId v_prompt v_target v_fallbacks v_queueTtlSeconds v_timeout v_priority
    v_requiredLabels v_ref v_concurrencyId v_metadata v_type v_source v_workspacePoolId v_setupProfileId
    v_destroyWorkspaceAfter] in *.
  rewrite Ep, El, Er, Ec, Em, Et, Ert. cbn [in_prompt request_of v_prompt]. rewrite Eb.
  cbn [request_of in_repositoryId in_setupScript in_workspacePoolId in_setupProfileId in_destroyWorkspaceAfter
    in_type in_source in_timeout v_repositoryId v_type v_source v_workspacePoolId v_setupProfileId
    v_destroyWorkspaceAfter v_timeout mbind option_bind opt_or fmap option_fmap option_map is_some
    routingTarget routingFallbacks routingTtl].
  rewrite Hs.
  destruct repo as [r|].
  - destruct Hkind as (Hr & Hty & -> & -> & ->).
    cbn [isNonEmptyString fmap option_fmap option_map is_some negb andb truthy_opt].
    rewrite (proj2 (truthy_true r) Hr). cbn [is_some negb andb opt_or].
    assert (Htys : isSessionType (JString ty) = Some ty /\ str_eqb ty "workspace" = false) by
      (destruct Hty as [-> | ->]; done).
    destruct Htys as [-> Hw]. cbn [is_some negb andb opt_or]. rewrite Hw. cbn [negb andb]. rewrite Hbl.
    destruct ref as [x|]; [|by rewrite andb_false_r].
    destruct (str_eqb ty "scheduled") eqn:Esch; [|done].
    apply str_eqb_true in Esch. destruct (Href x eq_refl) as [_ Hx]. by rewrite (Hx Esch).
  - destruct Hkind as (-> & (p & -> & Hp) & Hprof & -> & ->).
    cbn [isNonEmptyString fmap option_fmap option_map is_some negb andb truthy_opt].
    rewrite (proj2 (truthy_true p) Hp). cbn [is_some negb andb opt_or].
    change (isSessionType (JString "workspace")) with (Some "workspace").
    destruct profile as [q|];
      [assert (Hq : truthy q = true) by (apply truthy_true; by intros ->)|];
      destruct destroy as [d|]; cbn [is_json_bool is_some negb andb opt_or option_map]; rewrite ?Hbl; simpl; rewrite ?Hq; done.
Qed.

(** The accepted fields are those of the request. *)
Lemma validate_reads input o v :
  validateCreateSessionInput input o = valid v ->
  in_prompt input = Some (JString (v_prompt v)) /\ in_timeout input = Some (JNumber (v_timeout v)) /\
  in_concurrencyId input = JString <$> v_concurrencyId v /\ in_ref input = JString <$> v_ref v /\
  (forall x, in_type input = Some x -> x = JString (v_type v)) /\
  (forall x, in_source input = Some x -> x = JString (v_source v)).
Proof.
  unfold validateCreateSessionInput. intros H. peel H.
  destruct (in_prompt input) as [[| | |prompt| |]|] eqn:Hprompt; try discriminate H. peel H.
  injection H as <-.
  cbn [v_prompt v_timeout v_concurrencyId v_ref v_type v_source].
  match goal with E : sessionTimeoutError _ = None |- _ =>
    destruct (proj1 (sessionTimeoutError_none _) E) as (t & Et & _) end.
  split; [done|]. split; [by rewrite Et|]. split; [|split; [|split]].
  - match goal with E : when_set _ (parse_concurrency_id _ _) = valid ?x |- _ =>
      destruct x as [c|]; [apply when_set_some in E as (w & -> & E); by apply parse_concurrency_id_valid in E as [-> _]|
        destruct (in_concurrencyId input) as [w|]; [cbn in E; by destruct (parse_concurrency_id _ _ _)|done]] end.
  - match goal with E : when_set _ parse_ref = valid ?x |- _ =>
      destruct x as [c|]; [apply when_set_some in E as (w & -> & E); by apply parse_ref_valid in E as [-> _]|
        destruct (in_ref input) as [w|]; [cbn in E; by destruct (parse_ref _)|done]] end.
  - intros x Hx. match goal with E : match in_type input with Some _ => _ | None => _ end = false |- _ =>
      rewrite Hx in E |- *; cbn in E |- *; destruct (isSessionType x) as [y|] eqn:Ey; [|done];
      by apply isSessionType_some in Ey as [-> _] end.
  - intros x Hx. match goal with E : match in_source input with Some v => negb _ | None => _ end = false |- _ =>
      rewrite Hx in E |- *; cbn in E |- *; destruct (isSessionSource x) as [y|] eqn:Ey; [|done];
      by apply isSessionSource_some in Ey as [-> _] end.
Qed.

Lemma validate_reads_metadata input o v :
  validateCreateSessionInput input o = valid v -> in_metadata input = JObject <$> v_metadata v.
Proof.
  unfold validateCreateSessionInput. intros H. peel H.
  destruct (in_prompt input) as [[| | |prompt| |]|]; try discriminate H. peel H. injection H as <-. cbn [v_metadata].
  match goal with E : when_set _ parseSessionMetadata = valid ?x |- _ =>
    destruct x as [m|]; [apply when_set_some in E as (w & -> & E); by apply parseSessionMetadata_valid in E as [-> _]|
      destruct (in_metadata input) as [w|]; [cbn [when_set] in E; by destruct (parseSessionMetadata w)|done]] end.
Qed.

(** [C25] A request is accepted with given fields exactly when they are well formed:
    every limit of the code is respected (prompt, timeout, priority, queue TTL, labels,
    metadata, lock id), targets are named and never repeated, refs pass the ref check,
    a reserved lock namespace is used only by a caller allowed to, and repository and
    workspace sessions carry only their own fields.  The accepted fields, sent again as
    a request, are accepted unchanged. *)
Theorem session_request_exact reserved o v :
  (fields_ok reserved o v <->
   exists input, in_allowReservedConcurrencyId input = reserved /\ validateCreateSessionInput input o = valid v) /\
  (fields_ok reserved o v -> validateCreateSessionInput (request_of reserved v) o = valid v).
Proof.
  split; [split|apply validate_complete].
  - intros H. exists (request_of reserved v). split; [done|]. by apply validate_complete.
  - intros (input & <- & H). by apply validate_sound.
Qed.

(** ** Accepted refs *)
Fixpoint string_all (p : ascii -> Prop) (s : string) : Prop :=
  match s with "" => True | String c s' => p c /\ string_all p s' end.

Lemma string_exists_none p s : string_exists p s = false <-> string_all (fun c => p c = false) s.
Proof. induction s as [|c s IH]; simpl; [done|]. by rewrite orb_false_iff, IH. Qed.

(** No empty path segment, when no slash is first, last or doubled. *)
Lemma slash_segments s :
  string_includes "//" s = false -> string_ends_with "/" s = false ->
  exists h t, split_on "/" s = h :: t /\ Forall (fun seg => seg <> "") t /\
              (s <> "" -> String.prefix "/" s = false -> h <> "").
Proof.
  induction s as [|c s IH]; intros Hinc Hend; [by exists "", []|].
  assert (Hinc' : string_includes "//" s = false).
  { simpl in Hinc. by apply orb_false_iff in Hinc as [_ ?]. }
  assert (Hend' : string_ends_with "/" s = false).
  { simpl in Hend. by apply orb_false_iff in Hend as [_ ?]. }
  destruct (IH Hinc' Hend') as (h & t & Hs & Ht & Hh). cbn [split_on]. rewrite Hs.
  destruct (Ascii.eqb "/" c) eqn:Ec.
  - apply Ascii.eqb_eq in Ec. subst c. exists "", (h :: t). split; [done|]. split; [|intros _ Hp; by destruct s].
    constructor; [|done]. destruct s as [|d s]; [done|]. apply Hh; [done|].
    revert Hinc. cbn [string_includes String.prefix]. destruct (ascii_dec "/" "/") as [_|]; [|done].
    destruct (ascii_dec "/" d) as [<-|]; [|done]. by destruct s.
  - exists (String c h), t. split; [done|]. split; [done|]. done.
Qed.

Definition safe_segment (seg : string) : Prop :=
  seg <> "" /\ String.prefix "." seg = false /\ string_ends_with ".lock" seg = false.

Lemma safe_segments s :
  hasUnsafeRefShape s = false -> hasSafeRefPathSegments s = true -> s <> "" ->
  Forall safe_segment (split_on "/" s).
Proof.
  intros Hshape Hsafe Hs. unfold hasUnsafeRefShape in Hshape. rewrite !orb_false_iff in Hshape.
  destruct Hshape as (((((((_ & Hp) & He) & _) & Hi) & _) & _) & _).
  destruct (slash_segments s Hi He) as (h & t & Hsplit & Ht & Hh).
  assert (Hne : Forall (fun seg => seg <> "") (split_on "/" s)) by
    (rewrite Hsplit; constructor; [by apply Hh|done]).
  unfold hasSafeRefPathSegments in Hsafe. rewrite forallb_forall in Hsafe.
  rewrite Forall_forall in Hne |- *. intros seg Hin. split; [by apply Hne|].
  apply list_elem_of_In, Hsafe in Hin. apply andb_true_iff in Hin as [H1 H2].
  by apply negb_true_iff in H1, H2.
Qed.

Lemma isValidSessionRef_true r :
  isValidSessionRef r = true <->
  r <> "" /\ utf8_length r <= 255 /\ hasUnsafeRefShape r = false /\ hasSafeRefPathSegments r = true.
Proof.
  unfold isValidSessionRef, MAX_SCHEDULED_BRANCH_REF_BYTES. rewrite !andb_true_iff, negb_true_iff, truthy_true.
  rewrite Z.leb_le. naive_solver.
Qed.

Lemma scheduled_ref_is_session_ref r : isValidScheduledBranchRef r = true -> isValidSessionRef r = true.
Proof.
  unfold isValidScheduledBranchRef, isValidSessionRef. rewrite !andb_true_iff, !negb_true_iff, !orb_false_iff.
  naive_solver.
Qed.

Lemma drop_chars_app a b : drop_chars (String.length a) (a ++ b) = b.
Proof. induction a as [|c a IH]; [done|]. exact IH. Qed.

Lemma prefix_app a b : String.prefix a (a ++ b) = true.
Proof. induction a as [|c a IH]; [by destruct b|]. simpl. destruct (ascii_dec c c); [exact IH|done]. Qed.

Lemma prefix_app_l a b s : String.prefix (a ++ b) s = true -> String.prefix a s = true.
Proof.
  revert s. induction a as [|c a IH]; intros s H; [by destruct s|].
  destruct s as [|d s]; [done|]. cbn [String.prefix] in *. change ((String c a ++ b)) with (String c (a ++ b)) in H.
  cbn [String.prefix] in H. destruct (ascii_dec c d); [by apply IH|done].
Qed.

(** A ref the create path accepts cannot be taken for a flag and is a well-formed path:
    no leading dash, no white space or control character, at most 255 bytes, no [..] and no
    [@{], and every slash-separated segment is non-empty, has no leading dot and no [.lock]
    ending.  A scheduled branch is such a ref and, while it is short enough, is rewritten to
    its [refs/heads/] name for GitHub ingress, which the rewriting then leaves alone. *)
Theorem session_ref_shape r :
  (isValidSessionRef r = true ->
   String.prefix "-" r = false /\ string_all (fun c => 32 < code c /\ code c <> 127) r /\
   utf8_length r <= 255 /\ string_includes ".." r = false /\ string_includes "@{" r = false /\
   Forall safe_segment (split_on "/" r)) /\
  (isValidScheduledBranchRef r = true ->
   isValidSessionRef r = true /\
   (utf8_length (HEADS_PREFIX ++ r) <= 255 ->
    canonicalizeGitHubIngressDefaultRef (JString r) = Some (HEADS_PREFIX ++ r))) /\
  (forall v, canonicalizeGitHubIngressDefaultRef v = Some r ->
   canonicalizeGitHubIngressDefaultRef (JString r) = Some r).
Proof.
  split; [|split].
  - intros H. apply isValidSessionRef_true in H as (Hne & Hlen & Hshape & Hseg).
    pose proof (safe_segments r Hshape Hseg Hne) as Hall.
    unfold hasUnsafeRefShape in Hshape. rewrite !orb_false_iff in Hshape.
    destruct Hshape as (((((((Hdash & _) & _) & _) & _) & Hdd) & Hat) & Hctl).
    split; [done|]. split; [|done]. apply string_exists_none in Hctl. revert Hctl. clear.
    induction r as [|c r IH]; simpl; [done|]. intros [Hc Hr]. apply orb_false_iff in Hc. split; [lia|auto].
  - intros H. pose proof (scheduled_ref_is_session_ref r H) as Hses. split; [done|]. intros Hlen.
    unfold isValidScheduledBranchRef in H. rewrite !andb_true_iff, !negb_true_iff, !orb_false_iff in H.
    destruct H as (((Hne & _) & (((((Hat & Hhead) & Hrefs) & Hshape) & Hforb) & _)) & Hseg).
    unfold canonicalizeGitHubIngressDefaultRef. rewrite Hrefs.
    assert (Hnot : isValidGitHubIngressDefaultRef (JString r) = false).
    { unfold isValidGitHubIngressDefaultRef. destruct (String.prefix HEADS_PREFIX r) eqn:Hp; [|done].
      change HEADS_PREFIX with ("refs/" ++ "heads/") in Hp. apply prefix_app_l in Hp. congruence. }
    rewrite Hnot. unfold isValidGitHubIngressDefaultRef. rewrite prefix_app, drop_chars_app.
    unfold MAX_SCHEDULED_BRANCH_REF_BYTES. destruct (_ <=? 255) eqn:E; [|lia].
    by rewrite Hne, Hat, Hhead, Hshape, Hforb, Hseg.
  - intros v. unfold canonicalizeGitHubIngressDefaultRef at 1. destruct v as [| | |s| |]; try done.
    destruct (isValidGitHubIngressDefaultRef (JString s)) eqn:E.
    { intros [= <-]. unfold canonicalizeGitHubIngressDefaultRef. by rewrite E. }
    destruct (String.prefix "refs/" s); [done|].
    destruct (isValidGitHubIngressDefaultRef (JString (HEADS_PREFIX ++ s))) eqn:E'; [|done].
    intros [= <-]. unfold canonicalizeGitHubIngressDefaultRef. by rewrite E'.
Qed.
