(* ===== verification/SessionCreate.v ===== *)
(** * Creating sessions

    services/api/src: control-plane-session-create.ts, the create path of
    control-plane-sessions.ts, control-plane-session-target-display-name.ts,
    control-plane-session-resume.ts, control-plane-session-clone.ts and the child
    sessions of control-plane-session-children.ts, without a storage.  A session
    enters the queue on one of four paths: created from a request, resumed from a
    finished one, cloned, or spawned by a running one. *)

From Stdlib Require Import ZArith Lia Ascii String.
From stdpp Require Import base strings list.
From S2P Require Import Prelude DateTime Cron Types Ordering TransitionPlanner CommandResume SessionTarget.
From S2P Require Import AccountLeases Placement SessionOutcome Worktrees Assignment CheckoutAssignment Validation.

Local Open Scope string_scope.
Local Open Scope Z_scope.

(** How a request ends: a value, an error with its code, or an exception. *)
Inductive Outcome (A : Type) := succeeded (a : A) | refused (error : string) (errorCode : option string) | threw.
Arguments succeeded {A} a.
Arguments refused {A} error errorCode.
Arguments threw {A}.

(** ** Hash of an id *)

(** [x | 0]. *)
Definition to_int32 (x : Z) : Z := (x + 2147483648) mod 4294967296 - 2147483648.

Fixpoint hash_from (h : Z) (s : string) : Z :=
  match s with "" => h | String c s' => hash_from (to_int32 (h * 31 + code c)) s' end.

Definition hashString (s : string) : Z := hash_from 0 s.

(** [Math.abs(hashString(id)) % state.shardCount], the shard count being positive. *)
Definition shard_of (state : ControlPlaneState) (id : string) : Z :=
  Z.rem (Z.abs (hashString id)) (Plane.shardCount state).

(** ** Display names *)

(** The dash between the two names is U+2014; it stands as its three UTF-8 bytes. *)
Definition resolveSessionTargetDisplayName (state : ControlPlaneState) (target : TargetRef)
    : ValidationResult string :=
  match target with
  | target_provider p =>
      match JsMap.get p (Plane.providers state) with
      | Some provider => valid (Prov.name provider)
      | None => invalid ("providerId " ++ p ++ " not found")
      end
  | target_command c =>
      match JsMap.get c (Plane.commands state) with
      | None => invalid ("commandId " ++ c ++ " not found")
      | Some command =>
          match Cmd.providerId command with
          | None => valid (Cmd.name command)
          | Some p =>
              match JsMap.get p (Plane.providers state) with
              | Some provider => valid (Prov.name provider ++ " — " ++ Cmd.name command)
              | None => invalid ("provider " ++ p ++ " not found")
              end
          end
      end
  end.

Fixpoint display_names (state : ControlPlaneState) (items : list TargetRef) : ValidationResult (list string) :=
  match items with
  | [] => valid []
  | item :: rest =>
      match resolveSessionTargetDisplayName state item with
      | invalid e => invalid e
      | valid name => match display_names state rest with valid names => valid (name :: names) | invalid e => invalid e end
      end
  end.

Definition resolveTargetDisplayNames (state : ControlPlaneState) (target : TargetRef) (fallbacks : list TargetRef)
    : ValidationResult (list string) := display_names state (target :: fallbacks).

(** ** The admission frame of a workspace session *)
Record WorkspaceAdmissionRoute := mkAdmissionRoute {
  ar_commandId : string;
  ar_providerAccountId : option string;
}.

Record WorkspaceAssignmentFields := mkWorkspaceAssignmentFields {
  wf_workspacePoolId : string;
  wf_setupProfileId : option string;
  wf_workspaceSetupScript : option string;
  wf_destroyWorkspaceAfter : option bool;
  wf_prompt : string;
  wf_target : TargetRef;
  wf_fallbacks : list TargetRef;
  wf_timeout : Z;
  wf_metadata : option Metadata;
}.

(** ["x".repeat(512)], in place of an id not known yet. *)
Definition reserved_id : string := repeat_char "x" 512.

(** The [providerId] of a route never reaches the frame and is left out. *)
Definition workspaceAdmissionRoutes (state : ControlPlaneState) (workspacePoolId : string) (target : TargetRef)
    : list WorkspaceAdmissionRoute :=
  match target with
  | target_command c =>
      match JsMap.get c (Plane.commands state) with
      | None => []
      | Some command =>
          match truthy_opt (Cmd.providerId command) with
          | None => [mkAdmissionRoute (Cmd.id command) None]
          | Some providerId =>
              let accounts := map Account.id
                (List.filter (fun a => str_eqb (Account.providerId a) providerId)
                   (JsMap.values (Plane.providerAccounts state))) in
              map (fun a => mkAdmissionRoute (Cmd.id command) (Some a))
                match accounts with [] => [reserved_id] | _ => accounts end
          end
      end
  | target_provider p =>
      let provider := JsMap.get p (Plane.providers state) in
      let defaultCommandId := pr ← provider; truthy_opt (Prov.defaultCommandId pr) in
      let preset :=
        match defaultCommandId with
        | Some d => if JsMap.has d (Plane.commands state) then [mkAdmissionRoute d (Some reserved_id)] else []
        | None => []
        end in
      let host_routes (inventory : HostInventory) :=
        if existsb (fun pool => str_eqb (Attachment.workspacePoolId pool) workspacePoolId)
             (opt_or (Inventory.workspacePools inventory) [])
        then
          flat_map (fun hostAccount =>
            match JsMap.get (HAccount.providerAccountId hostAccount) (Plane.providerAccounts state) with
            | Some account =>
                if str_eqb (Account.providerId account) p then
                  match truthy_opt (opt_else (HAccount.commandId hostAccount)
                                             (pr ← provider; Prov.defaultCommandId pr)) with
                  | Some commandId =>
                      if JsMap.has commandId (Plane.commands state)
                      then [mkAdmissionRoute commandId (Some (Account.id account))] else []
                  | None => []
                  end
                else []
            | None => []
            end) (Inventory.providerAccounts inventory)
        else [] in
      let routes := (preset ++ flat_map host_routes (JsMap.values (Plane.hostInventories state)))%list in
      JsMap.values
        (fold_left (fun m r => JsMap.set (ar_commandId r ++ ":" ++ opt_or (ar_providerAccountId r) "undefined") r m)
           routes JsMap.empty)
  end.

Definition workspaceAssignmentMessage (fields : WorkspaceAssignmentFields) (setupScript : option string)
    (route : WorkspaceAdmissionRoute) (targetIndex : Z) (resolvedArgv : list string) : json :=
  JObject ([("type", JString "session:assign"); ("sessionId", JString reserved_id);
            ("sessionType", JString "workspace"); ("repositoryId", JNull); ("worktreeId", JNull);
            ("workspacePoolId", JString (wf_workspacePoolId fields)); ("workspaceSlotId", JString reserved_id)] ++
    member "setupProfileId" JString (truthy_opt (wf_setupProfileId fields)) ++
    member "setupScript" JString (truthy_opt setupScript) ++
    member "destroyWorkspaceAfter" JBool (wf_destroyWorkspaceAfter fields) ++
    [("prompt", JString ""); ("resolvedArgv", JArray (map JString resolvedArgv));
     ("timeout", JNumber (wf_timeout fields)); ("assignedAt", JString "2026-09-12T00:00:00.000Z");
     ("attemptId", JString reserved_id)] ++
    member "metadata" JObject (wf_metadata fields) ++
    member "providerAccountId" JString (truthy_opt (ar_providerAccountId route)) ++
    [("commandId", JString (ar_commandId route)); ("targetIndex", JNumber targetIndex)])%list.

(** The script of the profile the pool lists under the id. *)
Definition profile_script (pool : option WorkspacePoolRecord) (setupProfileId : option string) : option string :=
  p ← pool; i ← truthy_opt setupProfileId;
  Profile.script <$> List.find (fun profile => str_eqb (Profile.id profile) i) (Pool.setupProfiles p).

Definition admission_argv (command : CommandRecord) (prompt : string) : list string :=
  if Cmd.appendPrompt command
  then (Cmd.argv command ++ (if is_true_opt (Cmd.appendPromptSeparator command) then ["--"] else []) ++ [prompt])%list
  else Cmd.argv command.

Definition oversized_error : string :=
  "workspace session assignment exceeds " ++ number_string MAX_WORKSPACE_ASSIGN_BYTES ++ " byte WebSocket limit".

(** The routes of one target; the flag is [measuredRoute]. *)
Fixpoint measure_routes (state : ControlPlaneState) (fields : WorkspaceAssignmentFields)
    (setupScript : option string) (targetIndex : Z) (measured : bool) (routes : list WorkspaceAdmissionRoute)
    : option string :=
  match routes with
  | [] => if measured then None else Some "workspace session has no currently routable assignment"
  | route :: rest =>
      match JsMap.get (ar_commandId route) (Plane.commands state) with
      | None => measure_routes state fields setupScript targetIndex measured rest
      | Some command =>
          let message := workspaceAssignmentMessage fields setupScript route targetIndex
                           (admission_argv command (wf_prompt fields)) in
          if MAX_WORKSPACE_ASSIGN_BYTES <? utf8_length (stringify message) then Some oversized_error
          else measure_routes state fields setupScript targetIndex true rest
      end
  end.

(** [for (const [targetIndex, target] of targets.entries())]. *)
Fixpoint measure_targets (state : ControlPlaneState) (fields : WorkspaceAssignmentFields)
    (setupScript : option string) (targetIndex : Z) (targets : list TargetRef) : option string :=
  match targets with
  | [] => None
  | target :: rest =>
      let routes := workspaceAdmissionRoutes state (wf_workspacePoolId fields) target in
      match routes with
      | [] => Some "workspace session has no currently routable assignment"
      | _ =>
          opt_else (measure_routes state fields setupScript targetIndex false routes)
            (measure_targets state fields setupScript (targetIndex + 1) rest)
      end
  end.

Definition workspaceAssignmentPayloadError (state : ControlPlaneState) (fields : WorkspaceAssignmentFields)
    : option string :=
  let pool := JsMap.get (wf_workspacePoolId fields) (Plane.workspacePools state) in
  let setupProfileId := opt_else (wf_setupProfileId fields) (p ← pool; Pool.defaultSetupProfileId p) in
  let setupScript := opt_else (wf_workspaceSetupScript fields) (profile_script pool setupProfileId) in
  let frozenFields :=
    mkWorkspaceAssignmentFields (wf_workspacePoolId fields)
      (opt_else (truthy_opt setupProfileId) (wf_setupProfileId fields)) (wf_workspaceSetupScript fields)
      (Some (opt_or (opt_else (wf_destroyWorkspaceAfter fields) (Pool.destroyWorkspaceAfter <$> pool)) false))
      (wf_prompt fields) (wf_target fields) (wf_fallbacks fields) (wf_timeout fields) (wf_metadata fields) in
  measure_targets state frozenFields setupScript 0 (wf_target fields :: wf_fallbacks fields).

Definition workspaceCreatePayloadError (state : ControlPlaneState) (v : ValidatedFields) : option string :=
  match truthy_opt (v_workspacePoolId v) with
  | Some pool =>
      workspaceAssignmentPayloadError state
        (mkWorkspaceAssignmentFields pool (v_setupProfileId v) None (v_destroyWorkspaceAfter v) (v_prompt v)
           (v_target v) (v_fallbacks v) (v_timeout v) (v_metadata v))
  | None => None
  end.

(** ** A create request *)
Definition body_record (body : json) : option (list (string * json)) :=
  match body with JObject entries => Some entries | JArray _ => Some [] | _ => None end.

Definition create_input (record : list (string * json)) (reserved : bool) : CreateInput :=
  mkCreateInput (JsMap.get "repositoryId" record) (JsMap.get "prompt" record) (JsMap.get "target" record)
    (JsMap.get "fallbacks" record) (JsMap.get "queueTtlSeconds" record) (JsMap.get "timeout" record)
    (JsMap.get "priority" record) (JsMap.get "requiredLabels" record) (JsMap.get "ref" record)
    (JsMap.get "concurrencyId" record) (JsMap.get "metadata" record) (JsMap.get "type" record)
    (JsMap.get "source" record) (JsMap.get "workspacePoolId" record) (JsMap.get "setupProfileId" record)
    (JsMap.get "destroyWorkspaceAfter" record) (JsMap.get "setupScript" record) reserved.

(** The repository is open, or the pool and the profile exist. *)
Definition admission_error (state : ControlPlaneState) (v : ValidatedFields) : option (string * string) :=
  match truthy_opt (v_repositoryId v) with
  | Some r => repositoryAdmissionFailure state r
  | None =>
      match p ← v_workspacePoolId v; JsMap.get p (Plane.workspacePools state) with
      | None => Some ("workspace pool not found", "NOT_FOUND")
      | Some pool =>
          match truthy_opt (v_setupProfileId v) with
          | Some i => if existsb (fun profile => str_eqb (Profile.id profile) i) (Pool.setupProfiles pool) then None
                      else Some ("workspace setup profile not found", "NOT_FOUND")
          | None => None
          end
      end
  end.

Record PreparedSession := mkPreparedSession {
  preparedFields : ValidatedFields;
  preparedNames : list string;
  preparedScheduleId : option string;
}.

Definition schedule_of (record : list (string * json)) (allowScheduleId : bool) : option string :=
  match JsMap.get "scheduleId" record with Some (JString s) => if allowScheduleId then Some s else None | _ => None end.

Definition validateSessionCreate (state : ControlPlaneState) (body : json) (allowScheduleId reserved : bool)
    (options : CreateOptions) : Outcome PreparedSession :=
  match body_record body with
  | None => refused "body must be an object" None
  | Some record =>
      match validateCreateSessionInput (create_input record reserved) options with
      | invalid e => refused e None
      | valid v =>
          match admission_error state v with
          | Some (e, c) => refused e (Some c)
          | None =>
              match resolveTargetDisplayNames state (v_target v) (v_fallbacks v) with
              | invalid e => refused e (Some "VALIDATION_ERROR")
              | valid names =>
                  match workspaceCreatePayloadError state v with
                  | Some e => refused e (Some "VALIDATION_ERROR")
                  | None => succeeded (mkPreparedSession v names (schedule_of record allowScheduleId))
                  end
              end
          end
      end
  end.

Section clock.
Context {DP : DateParse}.

(** [new Date(Date.parse(from) + seconds * 1000).toISOString()]. *)
Definition iso_after (from : string) (seconds : Z) : option string :=
  date_iso (t ← date_parse from; Some (t + seconds * 1000)).

(** [None] when a date does not print; the id has been drawn by then. *)
Definition buildSessionRecord (state : ControlPlaneState) (prepared : PreparedSession) (principalId : option string)
    : option SessionRecord * ControlPlaneState :=
  let v := preparedFields prepared in
  let '(id, state) := draw_id state in
  let createdAt := Plane.now state in
  let workspacePool := p ← truthy_opt (v_workspacePoolId v); JsMap.get p (Plane.workspacePools state) in
  let setupProfileId :=
    if is_some (truthy_opt (v_workspacePoolId v))
    then opt_else (v_setupProfileId v) (p ← workspacePool; Pool.defaultSetupProfileId p) else None in
  let workspaceSetupScript := profile_script workspacePool setupProfileId in
  match iso_after createdAt (v_queueTtlSeconds v) with
  | None => (None, state)
  | Some queueExpiresAt =>
      (Some ((session_literal id (opt_or (v_repositoryId v) "") (v_prompt v) (v_target v) (v_fallbacks v)
           (preparedNames prepared) (v_queueTtlSeconds v) queueExpiresAt (v_timeout v) (v_priority v)
           (v_requiredLabels v) queued (shard_of state id) createdAt)
         <| Session.workspacePoolId := truthy_opt (v_workspacePoolId v) |>
         <| Session.setupProfileId := truthy_opt setupProfileId |>
         <| Session.workspaceSetupScript := truthy_opt workspaceSetupScript |>
         <| Session.destroyWorkspaceAfter :=
              p ← truthy_opt (v_workspacePoolId v);
              Some (opt_or (opt_else (v_destroyWorkspaceAfter v)
                             (Pool.destroyWorkspaceAfter <$> JsMap.get p (Plane.workspacePools state))) false) |>
         <| Session.ref := v_ref v |> <| Session.concurrencyId := v_concurrencyId v |>
         <| Session.scheduleId := preparedScheduleId prepared |> <| Session.metadata := v_metadata v |>
         <| Session.principalId := truthy_opt principalId |>
         <| Session.type := Some (v_type v) |> <| Session.source := Some (v_source v) |>), state)
  end.

(** ** [createSession] *)
Definition isActiveSessionStatus (s : SessionStatus) : bool :=
  match s with queued | running => true | _ => false end.

Definition activeSessionForConcurrency (state : ControlPlaneState) (concurrencyId : string)
    : option SessionRecord :=
  List.find (fun s => bool_decide (Session.concurrencyId s = Some concurrencyId) &&
                      isActiveSessionStatus (Session.status s)) (JsMap.values (Plane.sessions state)).

Record CreateReply := mkCreateReply { replySession : PublicSession; replyCreated : bool }.

(** The record of [createSession], written out there a second time. *)
Definition create_record (state : ControlPlaneState) (v : ValidatedFields) (names : list string)
    (record : list (string * json)) (allowScheduleId : bool) (id createdAt queueExpiresAt : string)
    : SessionRecord :=
  let queueShard := shard_of state id in
  let workspacePool := p ← truthy_opt (v_workspacePoolId v); JsMap.get p (Plane.workspacePools state) in
  let setupProfileId :=
    match truthy_opt (v_workspacePoolId v) with
    | Some _ => opt_else (v_setupProfileId v) (p ← workspacePool; Pool.defaultSetupProfileId p)
    | None => None
    end in
  let workspaceSetupScript := profile_script workspacePool setupProfileId in
  (session_literal id (opt_or (v_repositoryId v) "") (v_prompt v) (v_target v) (v_fallbacks v)
       names (v_queueTtlSeconds v) queueExpiresAt (v_timeout v) (v_priority v)
       (v_requiredLabels v) queued queueShard createdAt)
     <| Session.workspacePoolId := truthy_opt (v_workspacePoolId v) |>
     <| Session.setupProfileId := truthy_opt setupProfileId |>
     <| Session.workspaceSetupScript := truthy_opt workspaceSetupScript |>
     <| Session.destroyWorkspaceAfter :=
          match truthy_opt (v_workspacePoolId v) with
          | Some p => Some (opt_or (opt_else (v_destroyWorkspaceAfter v)
                        (Pool.destroyWorkspaceAfter <$> JsMap.get p (Plane.workspacePools state))) false)
          | None => None
          end |>
     <| Session.ref := v_ref v |> <| Session.concurrencyId := v_concurrencyId v |>
     <| Session.scheduleId := match JsMap.get "scheduleId" record with
          | Some (JString s) => if allowScheduleId then Some s else None | _ => None end |>
     <| Session.metadata := v_metadata v |>
     <| Session.type := Some (v_type v) |> <| Session.source := Some (v_source v) |>.

Definition createSession (state : ControlPlaneState) (body : json) (allowScheduleId : bool) (options : CreateOptions)
    : Outcome CreateReply * ControlPlaneState :=
  match body_record body with
  | None => (refused "body must be an object" None, state)
  | Some record =>
      match validateCreateSessionInput (create_input record false) options with
      | invalid e => (refused e None, state)
      | valid v =>
          let active := c ← truthy_opt (v_concurrencyId v); activeSessionForConcurrency state c in
          match (if allowGitHubCommentConcurrencyId options then active else None) with
          | Some a => (succeeded (mkCreateReply (toPublic state a true) false), state)
          | None =>
              match admission_error state v with
              | Some (e, c) => (refused e (Some c), state)
              | None =>
                  match resolveTargetDisplayNames state (v_target v) (v_fallbacks v) with
                  | invalid e => (refused e (Some "VALIDATION_ERROR"), state)
                  | valid names =>
                      match workspaceCreatePayloadError state v with
                      | Some e => (refused e (Some "VALIDATION_ERROR"), state)
                      | None =>
                          match active with
                          | Some a => (succeeded (mkCreateReply (toPublic state a true) false), state)
                          | None =>
                              let '(id, state) := draw_id state in
                              let createdAt := Plane.now state in
                              match iso_after createdAt (v_queueTtlSeconds v) with
                              | None => (threw, state)
                              | Some queueExpiresAt =>
                                  let session :=
                                    create_record state v names record allowScheduleId id createdAt queueExpiresAt in
                                  let state := persistSession state session in
                                  (succeeded (mkCreateReply (toPublic state session true) true), state)
                              end
                          end
                      end
                  end
              end
          end
      end
  end.

Definition createGitHubIngressSession (state : ControlPlaneState) (body : json)
    : Outcome CreateReply * ControlPlaneState :=
  createSession state body false (mkCreateOptions false true).

Definition getSession (state : ControlPlaneState) (id : string) : option PublicSession :=
  (fun s => toPublic state s true) <$> JsMap.get id (Plane.sessions state).

(** ** Resuming a finished session *)
Definition DEFAULT_CONTINUATION_PROMPT : string := "Continue from the previous session.".

Record ResumeOptions := mkResumeOptions {
  ro_principalId : option json;
  ro_pinExpiresAt : option json;
  ro_prompt : option json;
  ro_timeout : option json;
  ro_priority : option json;
  ro_target : option json;
  ro_fallbacks : option json;
}.

(** [typeof prompt !== "string" || prompt.trim().length === 0], then the size. *)
Definition prompt_override_error (prompt : option json) : option string :=
  match prompt with
  | None => None
  | Some (JString p) =>
      if truthy (trim p) then promptByteLengthError p else Some "prompt must be a non-empty string"
  | Some _ => Some "prompt must be a non-empty string"
  end.

Definition validateTimeoutOverride (timeout : option json) : option string :=
  match timeout with None => None | t => sessionTimeoutError t end.

Definition validatePriorityOverride (priority : option json) : option string :=
  match priority with None => None | p => sessionPriorityError p end.

Definition json_string (v : option json) : option string :=
  match v with Some (JString s) => Some s | _ => None end.

Definition json_number (v : option json) : option Z :=
  match v with Some (JNumber z) => Some z | _ => None end.

(** The routing of a repoint, if there is one. *)
Definition validateResumeOverrides (opts : ResumeOptions) : ValidationResult (option TargetRouting) :=
  if is_some (ro_principalId opts) && negb (is_some (json_string (ro_principalId opts)))
  then invalid "principalId must be a string"
  else
    match opt_else (prompt_override_error (ro_prompt opts))
            (opt_else (validateTimeoutOverride (ro_timeout opts)) (validatePriorityOverride (ro_priority opts))) with
    | Some e => invalid e
    | None =>
        match ro_target opts with
        | None => if is_some (ro_fallbacks opts) then invalid "fallbacks requires target" else valid None
        | Some _ =>
            match validateTargetRouting (ro_target opts) (ro_fallbacks opts) None MAX_FALLBACKS with
            | valid routing => valid (Some routing)
            | invalid e => invalid e
            end
        end
    end.

(** The session that continues [source]: a repoint replaces the route policy and drops the
    native pin, a plain resume carries both. *)
Definition resumed_session (state : ControlPlaneState) (source : SessionRecord) (sessionId pin : string)
    (opts : ResumeOptions) (routing : option (TargetRouting * list string))
    (id createdAt pinExpiresAt queueExpiresAt : string) : SessionRecord :=
  let promptOverride := opt_or (json_string (ro_prompt opts)) DEFAULT_CONTINUATION_PROMPT in
  let base target fallbacks names prompt :=
    session_literal id (Session.repositoryId source) prompt target fallbacks names
      (Session.queueTtlSeconds source) queueExpiresAt (opt_or (json_number (ro_timeout opts)) (Session.timeout source))
      (opt_or (json_number (ro_priority opts)) (Session.priority source)) (Session.requiredLabels source)
      queued (shard_of state id) createdAt in
  let routed :=
    match routing with
    | Some (r, names) =>
        (base (routingTarget r) (routingFallbacks r) names (appendPriorContextPointer promptOverride))
          <| Session.resumeFallback := Some true |>
    | None =>
        let route := Session.resolvedRoute source in
        (base (Session.target source) (Session.fallbacks source) (Session.targetDisplayNames source) promptOverride)
          <| Session.pinnedHostId := Val pin |>
          <| Session.pinnedProviderAccountId :=
               match r ← route; truthy_opt (Route.providerAccountId r) with Some a => Val a | None => Undef end |>
          <| Session.pinnedTargetIndex := Route.targetIndex <$> route |>
          <| Session.pinnedCommandId := Route.commandId <$> route |>
          <| Session.pinExpiresAt := Some pinExpiresAt |>
          <| Session.resumeFallback :=
               if is_some (Session.cliResumeRef source) || is_some (Session.resumedFromSessionId source)
               then None else Some true |>
          <| Session.cliResumeRef := Session.cliResumeRef source |>
          <| Session.resumeSpec := Session.resumeSpec source |>
    end in
  let creator := m ← Session.metadata source; json_string (JsMap.get "createdBy" m) in
  routed <| Session.resumedFromSessionId := Some sessionId |> <| Session.ref := Session.ref source |>
    <| Session.concurrencyId := Session.concurrencyId source |>
    <| Session.metadata :=
         match json_string (ro_principalId opts) with
         | Some p => Some (JsMap.set "createdBy" (JString p) (opt_or (Session.metadata source) []))
         | None => Session.metadata source
         end |>
    <| Session.principalId :=
         match json_string (ro_principalId opts) with
         | Some p => Some p
         | None => opt_else (Session.principalId source) creator
         end |>
    <| Session.type := Some "prompt" |> <| Session.source := Some "api" |>.

(** The host a native continuation is pinned to. *)
Definition resume_pin (source : SessionRecord) : option string :=
  opt_else (r ← Session.resolvedRoute source; truthy_opt (Some (Route.hostId r)))
    (opt_else (truthy_nul (Session.hostId source)) (truthy_nul (Session.pinnedHostId source))).

(** The checks of [prepareResumedSession] that need the source only: its kind, the admission
    of its repository, its status, the inherited limits, the pin and the captured reference. *)
Definition resume_checks (state : ControlPlaneState) (source : SessionRecord) (opts : ResumeOptions)
    : Outcome (string * option TargetRouting) :=
  if bool_decide (Session.type source = Some "workspace") || is_some (truthy_opt (Session.workspacePoolId source))
  then refused "workspace sessions do not support native resume" None
  else
    match repositoryAdmissionFailure state (Session.repositoryId source) with
    | Some (e, c) => refused e (Some c)
    | None =>
        if negb (isTerminalSessionStatus (Session.status source))
        then refused "source session must be terminal before resume" None
        else if bool_decide (Session.type source = Some "scheduled")
        then refused "scheduled sessions do not support worktree resume" None
        else
          match validateResumeOverrides opts with
          | invalid e => refused e None
          | valid routing =>
              match opt_else
                (validateTimeoutOverride
                   (Some (JNumber (opt_or (json_number (ro_timeout opts)) (Session.timeout source)))))
                (validatePriorityOverride
                   (Some (JNumber (opt_or (json_number (ro_priority opts)) (Session.priority source))))) with
              | Some e => refused e None
              | None =>
                  match resume_pin source with
                  | None => refused "source session has no agent to pin" None
                  | Some pin =>
                      if negb (is_some routing) &&
                         is_some (r ← Session.resumeSpec source; Resume.resumeArgvTemplate r) &&
                         negb (is_some (truthy_opt (Session.cliResumeRef source)))
                      then refused "source session has no captured CLI resume reference" None
                      else if is_some (ro_pinExpiresAt opts) &&
                              negb (is_some (s ← json_string (ro_pinExpiresAt opts); date_parse s))
                      then refused "pinExpiresAt must be a valid timestamp" None
                      else succeeded (pin, routing)
                  end
              end
          end
    end.

(** The route policy of a repoint with its display names. *)
Definition repoint_names (state : ControlPlaneState) (routing : option TargetRouting)
    : ValidationResult (option (TargetRouting * list string)) :=
  match routing with
  | None => valid None
  | Some r =>
      match resolveTargetDisplayNames state (routingTarget r) (routingFallbacks r) with
      | valid names => valid (Some (r, names))
      | invalid e => invalid e
      end
  end.

Definition prepareResumedSession (state : ControlPlaneState) (sessionId : string) (opts : ResumeOptions)
    : Outcome (SessionRecord * bool) * ControlPlaneState :=
  match JsMap.get sessionId (Plane.sessions state) with
  | None => (refused "session not found" None, state)
  | Some source =>
      match resume_checks state source opts with
      | refused e c => (refused e c, state)
      | threw => (threw, state)
      | succeeded (pin, routing) =>
          match repoint_names state routing with
          | invalid e => (refused e None, state)
          | valid routing =>
              match c ← truthy_opt (Session.concurrencyId source); activeSessionForConcurrency state c with
              | Some active => (succeeded (active, false), state)
              | None =>
                  let '(id, state) := draw_id state in
                  let createdAt := Plane.now state in
                  match (match ro_pinExpiresAt opts with
                         | None => iso_after createdAt 3600 | p => json_string p end),
                        iso_after createdAt (Session.queueTtlSeconds source) with
                  | Some pinExpiresAt, Some queueExpiresAt =>
                      (succeeded (resumed_session state source sessionId pin opts routing id createdAt
                                    pinExpiresAt queueExpiresAt, true), state)
                  | _, _ => (threw, state)
                  end
              end
          end
      end
  end.

Definition resumeSession (state : ControlPlaneState) (sessionId : string) (opts : ResumeOptions)
    : Outcome CreateReply * ControlPlaneState :=
  match prepareResumedSession state sessionId opts with
  | (succeeded (session, created), state) =>
      let state := if created : bool then persistSession state session else state in
      (succeeded (mkCreateReply (toPublic state session true) created), state)
  | (refused e c, state) => (refused e c, state)
  | (threw, state) => (threw, state)
  end.

(** ** Cloning *)

(** [x ?? ..] on a JSON value. *)
Definition nullish (v : option json) : option json := match v with Some JNull => None | _ => v end.

Definition validateCloneOverrides (opts : list (string * json)) : option string :=
  if existsb (fun key => negb (existsb (str_eqb key)
       ["prompt"; "timeout"; "priority"; "destroyWorkspaceAfter"; "createdBy"])) (JsMap.keys opts)
  then Some "invalid clone overrides"
  else
    opt_else (prompt_override_error (JsMap.get "prompt" opts))
      (opt_else (validateTimeoutOverride (JsMap.get "timeout" opts))
        (opt_else (validatePriorityOverride (JsMap.get "priority" opts))
          (if is_some (JsMap.get "createdBy" opts) && negb (is_some (json_string (JsMap.get "createdBy" opts)))
           then Some "createdBy must be a string"
           else match JsMap.get "destroyWorkspaceAfter" opts with
                | Some (JBool _) | None => None
                | Some _ => Some "destroyWorkspaceAfter must be a boolean"
                end))).

(** The setup script a clone runs: the one frozen on the source, else the profile's. *)
Definition cloned_script (source : SessionRecord) (workspacePool : option WorkspacePoolRecord)
    : ValidationResult (option string) :=
  match truthy_opt (Session.workspacePoolId source), truthy_opt (Session.setupProfileId source) with
  | Some _, Some profile =>
      match Session.workspaceSetupScript source with
      | Some script => valid (Some script)
      | None =>
          match profile_script workspacePool (Some profile) with
          | Some script => valid (Some script)
          | None => invalid "workspace setup profile not found"
          end
      end
  | _, _ => valid None
  end.

Definition cloned_session (state : ControlPlaneState) (source : SessionRecord) (opts : list (string * json))
    (script : option string) (names : list string) (id createdAt queueExpiresAt : string) : SessionRecord :=
  let pool := truthy_opt (Session.workspacePoolId source) in
  let createdBy := json_string (JsMap.get "createdBy" opts) in
  (session_literal id (Session.repositoryId source)
     (opt_or (json_string (JsMap.get "prompt" opts)) (Session.prompt source))
     (Session.target source) (Session.fallbacks source) names (Session.queueTtlSeconds source) queueExpiresAt
     (opt_or (json_number (JsMap.get "timeout" opts)) (Session.timeout source))
     (opt_or (json_number (JsMap.get "priority" opts)) (Session.priority source))
     (if is_some pool then [] else Session.requiredLabels source) queued (shard_of state id) createdAt)
    <| Session.workspacePoolId := pool |> <| Session.setupProfileId := truthy_opt (Session.setupProfileId source) |>
    <| Session.workspaceSetupScript := script |>
    <| Session.destroyWorkspaceAfter :=
         if is_some pool
         then Some (match JsMap.get "destroyWorkspaceAfter" opts with
                    | Some (JBool b) => b
                    | _ => opt_or (Session.destroyWorkspaceAfter source) false
                    end)
         else None |>
    <| Session.ref := if truthy (Session.repositoryId source) then Session.ref source else None |>
    <| Session.metadata := (fun c => [("createdBy", JString c)]) <$> createdBy |>
    <| Session.principalId := createdBy |>
    <| Session.type := Some (if is_some pool then "workspace" else "prompt") |> <| Session.source := Some "api" |>.

(** The repository of the source is open, or its pool exists. *)
Definition clone_admission (state : ControlPlaneState) (source : SessionRecord) : option (string * string) :=
  match truthy_opt (Some (Session.repositoryId source)) with
  | Some r => repositoryAdmissionFailure state r
  | None =>
      match p ← truthy_opt (Session.workspacePoolId source); JsMap.get p (Plane.workspacePools state) with
      | Some _ => None
      | None => Some ("workspace pool not found", "VALIDATION_ERROR")
      end
  end.

Definition clone_payload_error (state : ControlPlaneState) (session : SessionRecord) : option string :=
  match truthy_opt (Session.workspacePoolId session) with
  | Some pool =>
      workspaceAssignmentPayloadError state
        (mkWorkspaceAssignmentFields pool (Session.setupProfileId session) (Session.workspaceSetupScript session)
           (Session.destroyWorkspaceAfter session) (Session.prompt session) (Session.target session)
           (Session.fallbacks session) (Session.timeout session) (Session.metadata session))
  | None => None
  end.

Definition prepareClonedSession (state : ControlPlaneState) (sessionId : string) (opts : list (string * json))
    : Outcome SessionRecord * ControlPlaneState :=
  match JsMap.get sessionId (Plane.sessions state) with
  | None => (refused "session not found" (Some "NOT_FOUND"), state)
  | Some source =>
      match clone_admission state source with
      | Some (e, c) => (refused e (Some c), state)
      | None =>
          let workspacePool :=
            p ← truthy_opt (Session.workspacePoolId source); JsMap.get p (Plane.workspacePools state) in
          match cloned_script source workspacePool with
          | invalid e => (refused e (Some "NOT_FOUND"), state)
          | valid script =>
              let merged :=
                JsMap.set "priority" (opt_or (nullish (JsMap.get "priority" opts)) (JNumber (Session.priority source)))
                  (JsMap.set "timeout" (opt_or (nullish (JsMap.get "timeout" opts)) (JNumber (Session.timeout source)))
                    (JsMap.set "prompt" (opt_or (nullish (JsMap.get "prompt" opts)) (JString (Session.prompt source)))
                       opts)) in
              match validateCloneOverrides merged with
              | Some e => (refused e (Some "VALIDATION_ERROR"), state)
              | None =>
                  match resolveTargetDisplayNames state (Session.target source) (Session.fallbacks source) with
                  | invalid e => (refused e (Some "VALIDATION_ERROR"), state)
                  | valid names =>
                      let '(id, state) := draw_id state in
                      let createdAt := Plane.now state in
                      match iso_after createdAt (Session.queueTtlSeconds source) with
                      | None => (threw, state)
                      | Some queueExpiresAt =>
                          let session := cloned_session state source opts script names id createdAt queueExpiresAt in
                          match clone_payload_error state session with
                          | Some e => (refused e (Some "VALIDATION_ERROR"), state)
                          | None => (succeeded session, state)
                          end
                      end
                  end
              end
          end
      end
  end.

Definition cloneSession (state : ControlPlaneState) (sessionId : string) (opts : list (string * json))
    : Outcome CreateReply * ControlPlaneState :=
  match prepareClonedSession state sessionId opts with
  | (succeeded session, state) =>
      let state := persistSession state session in
      (succeeded (mkCreateReply (toPublic state session true) true), state)
  | (refused e c, state) => (refused e c, state)
  | (threw, state) => (threw, state)
  end.

(** ** Child sessions *)
Definition SPAWN_KEY_MAX_BYTES : Z := 256.
Definition MAX_CHILD_FALLBACKS : Z := MAX_FALLBACKS - 1.
Definition MAX_SESSION_DESCENDANTS : Z := 64.

Definition printable_spawn_key (key : string) : bool :=
  truthy key && (utf8_length key <=? SPAWN_KEY_MAX_BYTES) &&
  negb (string_exists (fun c => (code c <? 32) || (code c =? 127)) key).

(** [createHash("sha256").update(key).digest("hex")] of the platform. *)
Context (sha256_hex : string -> string).

Definition spawn_lock (parentId spawnKey : string) : string :=
  "session-spawn:" ++ parentId ++ ":" ++ sha256_hex spawnKey.

Definition child_ttl_error (ttl : option json) : bool :=
  match ttl with
  | None => false
  | Some (JNumber t) => (t <=? 0) || (30 * 24 * 60 * 60 <? t)
  | Some _ => true
  end.

Definition childInput (parent : SessionRecord) (body : json) : ValidationResult (list (string * json)) :=
  match body with
  | JObject record =>
      if existsb (fun key => negb (existsb (str_eqb key) ["prompt"; "spawnKey"; "priority"; "queueTtlSeconds"]))
           (JsMap.keys record)
      then invalid "child sessions only accept prompt, spawnKey, priority, and queueTtlSeconds"
      else
        match isNonEmptyString (JsMap.get "prompt" record), json_string (JsMap.get "spawnKey" record) with
        | None, _ => invalid "prompt is required"
        | Some prompt, spawnKey =>
            match (k ← spawnKey; if printable_spawn_key k then Some k else None) with
            | None => invalid "spawnKey must be a non-empty printable string of at most 256 bytes"
            | Some key =>
                match validatePriorityOverride (JsMap.get "priority" record) with
                | Some e => invalid e
                | None =>
                    if child_ttl_error (JsMap.get "queueTtlSeconds" record)
                    then invalid "queueTtlSeconds must be a positive integer at most 2592000"
                    else
                      valid ([("repositoryId", JString (Session.repositoryId parent)); ("prompt", JString prompt);
                              ("target", target_json (Session.target parent));
                              ("fallbacks", JArray (map target_json (Session.fallbacks parent)));
                              ("timeout", JNumber (Session.timeout parent));
                              ("priority", opt_or (JsMap.get "priority" record) (JNumber (Session.priority parent)));
                              ("queueTtlSeconds", opt_or (JsMap.get "queueTtlSeconds" record)
                                                    (JNumber (Session.queueTtlSeconds parent)));
                              ("requiredLabels", JArray (map JString (Session.requiredLabels parent)))] ++
                             member "ref" JString (Session.ref parent) ++
                             [("type", JString "prompt"); ("source", JString "api");
                              ("concurrencyId", JString (spawn_lock (Session.id parent) key))])%list
                end
            end
        end
  | _ => invalid "body must be an object"
  end.

Definition prepareChild (state : ControlPlaneState) (parent : SessionRecord) (body : json)
    : Outcome SessionRecord * ControlPlaneState :=
  if negb (bool_decide (Session.status parent = running)) && negb (isTerminalSessionStatus (Session.status parent))
  then (refused "parent session must be running or terminal" (Some "CONFLICT"), state)
  else
    match childInput parent body with
    | invalid e => (refused e None, state)
    | valid input =>
        if MAX_CHILD_FALLBACKS <? Z.of_nat (length (Session.fallbacks parent))
        then (refused ("child sessions support at most " ++ number_string MAX_CHILD_FALLBACKS ++
                       " inherited fallbacks") None, state)
        else
          match validateSessionCreate state (JObject input) false true (mkCreateOptions false false) with
          | refused e c => (refused e c, state)
          | threw => (threw, state)
          | succeeded prepared =>
              match buildSessionRecord state prepared (Session.principalId parent) with
              | (None, state) => (threw, state)
              | (Some child, state) =>
                  (succeeded (child <| Session.parentSessionId := Some (Session.id parent) |>
                     <| Session.rootSessionId := Some (opt_or (Session.rootSessionId parent) (Session.id parent)) |>),
                   state)
              end
          end
    end.

(** The credential names the running attempt of the parent. *)
Definition credential_current (state : ControlPlaneState) (parentId hash : string) : bool :=
  match JsMap.get parentId (Plane.sessions state) with
  | Some current => bool_decide (Session.status current = running) &&
                    bool_decide (Session.sessionApiKeyHash current = Some hash)
  | None => false
  end.

Definition createSessionChild (state : ControlPlaneState) (parentId : string) (body : json)
    (principalId sessionCredentialHash : option string) : Outcome CreateReply * ControlPlaneState :=
  match JsMap.get parentId (Plane.sessions state) with
  | None => (refused "parent session not found" (Some "NOT_FOUND"), state)
  | Some parent =>
      match prepareChild state parent body with
      | (refused e c, state) => (refused e c, state)
      | (threw, state) => (threw, state)
      | (succeeded prepared, state) =>
          let rootId := opt_or (Session.rootSessionId prepared) "" in
          let owner := opt_else principalId (opt_else (Session.principalId parent)
                         (m ← Session.metadata parent; json_string (nullish (JsMap.get "createdBy" m)))) in
          let child :=
            match truthy_opt owner with
            | Some o => prepared <| Session.principalId := Some o |>
                                 <| Session.metadata := Some [("createdBy", JString o)] |>
            | None => prepared
            end in
          if match truthy_opt sessionCredentialHash with
             | Some hash => negb (credential_current state parentId hash) | None => false end
          then (refused "parent session attempt is no longer running" (Some "CONFLICT"), state)
          else
            match c ← Session.concurrencyId child; activeSessionForConcurrency state c with
            | Some duplicate => (succeeded (mkCreateReply (toPublic state duplicate true) false), state)
            | None =>
                match JsMap.get rootId (Plane.sessions state) with
                | None => (refused "root session descendant budget is exhausted" (Some "CONFLICT"), state)
                | Some root =>
                    let descendantCount := opt_or (Session.descendantCount root) 0 in
                    if MAX_SESSION_DESCENDANTS <=? descendantCount
                    then (refused "root session descendant budget is exhausted" (Some "CONFLICT"), state)
                    else
                      let state := update_session state (Session.id child) child in
                      let state :=
                        if str_eqb (Session.id child) rootId then state
                        else update_session state rootId
                               (root <| Session.descendantCount := Some (descendantCount + 1) |>) in
                      (succeeded (mkCreateReply (toPublic state child true) true), state)
                end
            end
      end
  end.
End clock.
