(* ===== verification/Ownership.v ===== *)
(** * Exclusive ownership of worktrees

    The invariant behind "a worktree runs at most one session": whenever a
    session names a worktree, that worktree is busy and records exactly that
    session.  The passes, sweeps, cancellations and session frames keep it, also when
    they throw half way; [PlaneInvariant] adds the other operations and closes over
    every sequence of them. *)

From Stdlib Require Import ZArith Lia Ascii String.
From stdpp Require Import base strings list relations.
From S2P Require Import Prelude DateTime Types Ordering TransitionPlanner SessionTarget.
From S2P Require Import AccountLeases Placement SessionOutcome LogSettings Worktrees Assignment.
From S2P Require Import HostMessages.

Local Open Scope string_scope.
Local Open Scope Z_scope.

(** ** The invariant *)

(** Worktree [w] is busy with session [k]. *)
Definition owns (st : ControlPlaneState) (w k : string) : Prop :=
  exists wt, JsMap.get w (Plane.worktrees st) = Some wt /\ Worktree.status wt = busy /\
    Worktree.currentSessionId wt = Val k.

(** The invariant for every session but [skip], the one an operation is rewriting. *)
Record own_except (skip : option string) (st : ControlPlaneState) : Prop := {
  oe_wf : JsMap.wf (Plane.sessions st);
  oe_ids : forall k s, JsMap.get k (Plane.sessions st) = Some s -> Session.id s = k;
  oe_wids : forall k w, JsMap.get k (Plane.worktrees st) = Some w -> Worktree.id w = k;
  oe_owner : forall k s w, Some k <> skip -> JsMap.get k (Plane.sessions st) = Some s ->
    Session.worktreeId s = Val w -> w <> "" -> owns st w k;
  oe_wwf : JsMap.wf (Plane.worktrees st);
}.

Definition own_inv : ControlPlaneState -> Prop := own_except None.

Lemma own_weaken k st : own_inv st -> own_except k st.
Proof. intros [H1 H2 H3 H4 H5]. split; try done. intros j s w _. by apply H4. Qed.

(** Two sessions that hold worktrees hold different ones. *)
Definition worktrees_exclusive (st : ControlPlaneState) : Prop :=
  forall k1 k2 s1 s2 w,
    JsMap.get k1 (Plane.sessions st) = Some s1 -> JsMap.get k2 (Plane.sessions st) = Some s2 ->
    Session.worktreeId s1 = Val w -> Session.worktreeId s2 = Val w -> w <> "" -> k1 = k2.

Lemma own_exclusive st : own_inv st -> worktrees_exclusive st.
Proof.
  intros H k1 k2 s1 s2 w G1 G2 W1 W2 Hw.
  destruct (oe_owner _ _ H k1 s1 w) as (wt1 & E1 & _ & C1); try done.
  destruct (oe_owner _ _ H k2 s2 w) as (wt2 & E2 & _ & C2); try done.
  congruence.
Qed.

(** ** Framing: operations that touch neither sessions nor worktrees *)
Definition own_frame (st st' : ControlPlaneState) : Prop :=
  Plane.sessions st' = Plane.sessions st /\ Plane.worktrees st' = Plane.worktrees st.

Lemma own_frame_refl st : own_frame st st.
Proof. done. Qed.

Lemma own_frame_trans st1 st2 st3 : own_frame st1 st2 -> own_frame st2 st3 -> own_frame st1 st3.
Proof. unfold own_frame. intuition congruence. Qed.

Lemma owns_frame st st' w k : own_frame st st' -> owns st w k -> owns st' w k.
Proof. intros [_ E] (wt & H). exists wt. by rewrite E. Qed.

Lemma own_except_frame skip st st' : own_frame st st' -> own_except skip st -> own_except skip st'.
Proof.
  intros F [H1 H2 H3 H4 H5]. destruct (F) as [E1 E2]. split; rewrite ?E1, ?E2; try done.
  intros k s w. rewrite ?E1. intros. eapply owns_frame; [done|]. by eapply H4.
Qed.

(** A state update of other fields, whatever branches compute it. *)
Ltac frame := repeat (case_match; simplify_eq/=); done.

Create HintDb own.
#[export] Hint Resolve own_frame_refl : own.

Lemma emit_frame st h m : own_frame st (emit st h m).
Proof. done. Qed.
Lemma forget_ack_frame st k : own_frame st (forget_ack st k).
Proof. done. Qed.
Lemma archive_frame st k : own_frame st (queueSessionArchive st k).
Proof. done. Qed.
Lemma request_assign_frame st k : own_frame st (request_assign st k).
Proof. done. Qed.
Lemma touchAccount_frame st id at_ : own_frame st (touchAccount st id at_).
Proof. unfold touchAccount. frame. Qed.
Lemma cooldown_frame st c : own_frame st (apply_cooldown st c).
Proof. unfold apply_cooldown. frame. Qed.
Lemma acquire_frame st s a t h o c : own_frame st (tryAcquireProviderAccountLeaseLocal st s a t h o c).2.
Proof. unfold tryAcquireProviderAccountLeaseLocal. frame. Qed.
Lemma release_account_frame st s : own_frame st (releaseProviderAccountLease st s).1.
Proof. unfold releaseProviderAccountLease, releaseProviderAccountLeaseLocal. frame. Qed.
Lemma release_checkout_lease_frame st s : own_frame st (releaseScheduledLeaseLocal st s).2.
Proof. unfold releaseScheduledLeaseLocal. frame. Qed.
Lemma release_slot_local_frame st s e : own_frame st (releaseWorkspaceSlotLocal st s e).1.
Proof. unfold releaseWorkspaceSlotLocal, removeReleasedRetiredWorkspaceSlot. frame. Qed.
Lemma release_slot_frame st s : own_frame st (releaseWorkspaceSlot st s).1.
Proof. unfold releaseWorkspaceSlot. frame. Qed.

#[export] Hint Resolve emit_frame forget_ack_frame archive_frame request_assign_frame
  touchAccount_frame cooldown_frame acquire_frame release_account_frame
  release_checkout_lease_frame release_slot_local_frame release_slot_frame : own.

(** The session a release returns keeps its id and its worktree. *)
Definition same_claim (s s' : SessionRecord) : Prop :=
  Session.id s' = Session.id s /\ Session.worktreeId s' = Session.worktreeId s.

Lemma release_account_claim st s : same_claim s (releaseProviderAccountLease st s).2.
Proof. unfold releaseProviderAccountLease. frame. Qed.
Lemma release_slot_local_claim st s e : same_claim s (releaseWorkspaceSlotLocal st s e).2.
Proof. unfold releaseWorkspaceSlotLocal. frame. Qed.
Lemma release_slot_claim st s : same_claim s (releaseWorkspaceSlot st s).2.
Proof. unfold releaseWorkspaceSlot. frame. Qed.
Lemma persistence_claim s : same_claim s (sessionForPersistence s).
Proof. unfold sessionForPersistence. destruct (retainsActiveHostClaim s); case_bool_decide; done. Qed.
Lemma keep_result_claim s r : same_claim s (keep_result s r).
Proof. unfold keep_result. frame. Qed.

(** ** Sessions and worktrees *)

(** [s] holds no worktree, as far as the code's truthiness tests see. *)
Definition detached (s : SessionRecord) : Prop :=
  forall w, Session.worktreeId s = Val w -> w = "".

Lemma detached_null s : Session.worktreeId s = Null -> detached s.
Proof. intros E w. by rewrite E. Qed.
#[export] Hint Resolve detached_null : own.

Lemma not_truthy_detached s : truthy_nul (Session.worktreeId s) = None -> detached s.
Proof.
  intros H w E. destruct (decide (w = "")) as [|Hw]; [done|].
  assert (truthy_nul (Session.worktreeId s) = Some w) by (by apply truthy_nul_Some). congruence.
Qed.

(** Writing a session back closes the invariant when the worktree it names is its own. *)
Lemma own_update st k s :
  own_except (Some k) st -> Session.id s = k ->
  (forall w, Session.worktreeId s = Val w -> w <> "" -> owns st w k) ->
  own_inv (update_session st k s).
Proof.
  intros [H1 H2 H3 H4 H5] Hid Hown. split; simpl; [by apply JsMap.wf_set| |done| |done].
  - intros j s'. rewrite JsMap.get_set. case_decide; [naive_solver|by apply H2].
  - intros j s' w _. rewrite JsMap.get_set. case_decide as Hj.
    + intros [= <-] Hw Hne. subst j. by destruct (Hown w) as (wt & ?); [..|exists wt].
    + intros Hg Hw Hne. destruct (H4 j s' w) as (wt & ?); [congruence|done..|]. by exists wt.
Qed.

Lemma own_update_detached st k s :
  own_except (Some k) st -> Session.id s = k -> detached s -> own_inv (update_session st k s).
Proof. intros H Hid Hd. apply own_update; [done|done|]. intros w E Hne. by apply Hd in E. Qed.

Lemma own_persist_detached st k s :
  own_except (Some k) st -> Session.id s = k -> detached s -> own_inv (persistSession st s).
Proof.
  intros H Hid Hd. unfold persistSession. rewrite Hid.
  destruct (persistence_claim s) as [Ei Ew]. apply own_update_detached; [done|congruence|].
  intros w. rewrite Ew. apply Hd.
Qed.

(** A session that keeps its worktree may be rewritten freely. *)
Lemma own_update_same st k s s' :
  own_inv st -> JsMap.get k (Plane.sessions st) = Some s -> same_claim s s' ->
  own_inv (update_session st k s').
Proof.
  intros H Hg [Ei Ew]. apply own_update.
  - by apply own_weaken.
  - rewrite Ei. by apply (oe_ids _ _ H).
  - intros w Hw Hne. rewrite Ew in Hw. by apply (oe_owner _ _ H k s w).
Qed.

Lemma own_persist_same st k s s' :
  own_inv st -> JsMap.get k (Plane.sessions st) = Some s -> same_claim s s' ->
  own_inv (persistSession st s').
Proof.
  intros H Hg [Ei Ew]. destruct (persistence_claim s') as [Ei' Ew'].
  unfold persistSession. rewrite Ei, (oe_ids _ _ H k s Hg).
  apply (own_update_same st k s); [done|done|]. split; congruence.
Qed.

(** Releasing a worktree nobody but [k] can own. *)
Lemma own_release st k w :
  own_except (Some k) st ->
  (forall wt, JsMap.get w (Plane.worktrees st) = Some wt ->
     Worktree.status wt = busy -> Worktree.currentSessionId wt = Val k) ->
  own_except (Some k) (releaseWorktree st w).
Proof.
  intros [H1 H2 H3 H4 H5] Hw. unfold releaseWorktree.
  destruct (JsMap.get w (Plane.worktrees st)) as [wt|] eqn:E; [|done].
  match goal with |- own_except _ (persistWorktree _ ?x) => set (wt' := x) end.
  assert (Worktree.id wt' = w) as Hid by (unfold wt'; case_match; simpl; by apply H3).
  unfold persistWorktree. rewrite Hid.
  split; simpl; [done|done| | |by auto with jsmap].
  - intros j v. rewrite !JsMap.get_set. case_decide; [naive_solver|]. apply H3.
  - intros j s v Hj Hg Hv Hne. destruct (H4 j s v) as (wv & Gv & Bv & Cv); try done.
    exists wv. simpl. rewrite !JsMap.get_set.
    case_decide as Hd; [|done]. subst v. exfalso.
    assert (wv = wt) as -> by congruence.
    specialize (Hw wt eq_refl Bv). congruence.
Qed.

(** The worktree a session names is its own to release. *)
Lemma own_release_named st k s w :
  own_inv st -> JsMap.get k (Plane.sessions st) = Some s -> Session.worktreeId s = Val w -> w <> "" ->
  own_except (Some k) (releaseWorktree st w).
Proof.
  intros H Hg Hw Hne. apply own_release; [by apply own_weaken|].
  intros wt E _. destruct (oe_owner _ _ H k s w) as (wt' & E' & _ & C); try done. congruence.
Qed.

Lemma own_release_if_owner st k w :
  own_except (Some k) st -> own_except (Some k) (release_if_owner st w k).
Proof.
  intros H. unfold release_if_owner.
  destruct (JsMap.get w (Plane.worktrees st)) as [wt|] eqn:E; [|done].
  case_bool_decide as C; [|done]. apply own_release; [done|]. intros wt' E'. congruence.
Qed.

(** A claim succeeds only on an idle worktree, which nobody owns, and changes only that worktree. *)
Lemma claim_inv st w k now st' :
  own_inv st -> tryClaimWorktree st w k now = (true, st') ->
  (exists wt, JsMap.get w (Plane.worktrees st) = Some wt /\ Worktree.status wt = idle /\
     Worktree.online wt = true) /\
  owns st' w k /\ Plane.sessions st' = Plane.sessions st /\
  (forall j, JsMap.get j (Plane.worktrees st') =
     if decide (w = j)
     then (fun wt => wt <| Worktree.status := busy |> <| Worktree.currentSessionId := Val k |>
                        <| Worktree.lastAssignedAt := Val now |>) <$> JsMap.get w (Plane.worktrees st)
     else JsMap.get j (Plane.worktrees st)).
Proof.
  intros [H1 H2 H3 H4 H5]. unfold tryClaimWorktree.
  destruct (JsMap.get w (Plane.worktrees st)) as [wt|] eqn:E; [|done].
  destruct (negb _ || negb _) eqn:Hc; [done|]. intros [= <-].
  apply orb_false_iff in Hc as [Hidle Hon]. apply negb_false_iff, bool_decide_eq_true in Hidle.
  apply negb_false_iff in Hon.
  assert (Worktree.id wt = w) as Hid by (by apply H3).
  unfold persistWorktree. simpl. rewrite Hid. split; [by exists wt|]. split; [|split; [done|]].
  - eexists. simpl. rewrite !JsMap.get_set, !decide_True by done. done.
  - intros j. rewrite !JsMap.get_set. by case_decide.
Qed.

Lemma wf_claim st w k now b st' :
  JsMap.wf (Plane.worktrees st) -> tryClaimWorktree st w k now = (b, st') -> JsMap.wf (Plane.worktrees st').
Proof.
  intros Hwf. unfold tryClaimWorktree. repeat case_match; intros [= <- <-]; [done| |done].
  unfold persistWorktree. simpl. auto with jsmap.
Qed.

Lemma own_claim st w k now st' :
  own_inv st -> tryClaimWorktree st w k now = (true, st') -> own_inv st' /\ owns st' w k.
Proof.
  intros H Hc. destruct (claim_inv _ _ _ _ _ H Hc) as ((wt & E & Hidle & _) & Ho & Es & Ew).
  split; [|done]. destruct H as [H1 H2 H3 H4 H5]. split; rewrite ?Es; try done; try (by eapply wf_claim).
  - intros j v. rewrite Ew, E. case_decide; [|by apply H3]. subst. intros [= <-]. simpl. by apply H3.
  - intros j s v Hj Hg Hv Hne. destruct (H4 j s v) as (wv & Gv & Bv & Cv); try done.
    exists wv. rewrite Ew. case_decide; [|done]. subst v. exfalso. assert (wv = wt) by congruence. congruence.
Qed.

(** Claiming and giving back leaves every other worktree as it was. *)
Lemma own_claim_release st w k now st' st'' :
  own_inv st -> tryClaimWorktree st w k now = (true, st') -> own_frame st' st'' ->
  own_inv (releaseWorktree st'' w).
Proof.
  intros H Hc [F1 F2]. destruct (claim_inv _ _ _ _ _ H Hc) as ((wt & E & Hidle & _) & _ & Es & Ew).
  destruct H as [H1 H2 H3 H4 H5]. unfold releaseWorktree. rewrite F2, Ew, decide_True, E by done. simpl.
  match goal with |- own_inv (persistWorktree _ ?x) => set (wt' := x) end.
  assert (Worktree.id wt' = w) as Hid by (unfold wt'; case_match; simpl; by apply H3).
  unfold persistWorktree. rewrite Hid.
  assert (JsMap.wf (Plane.worktrees st'')) as Hwf by (rewrite F2; by eapply wf_claim).
  split; simpl; rewrite ?F1, ?Es; try done; try (by auto with jsmap).
  - intros j v. rewrite !JsMap.get_set, F2, Ew. case_decide; [naive_solver|]. apply H3.
  - intros j s v _ Hg Hv Hne. destruct (H4 j s v) as (wv & Gv & Bv & Cv); try done.
    exists wv. simpl. rewrite !JsMap.get_set, F2, Ew. case_decide as Hd; [|done].
    subst v. exfalso. assert (wv = wt) by congruence. congruence.
Qed.

Lemma tryClaim_false st w k now st' : tryClaimWorktree st w k now = (false, st') -> st' = st.
Proof. unfold tryClaimWorktree. intros H. repeat case_match; by simplify_eq. Qed.

(** ** Every operation keeps the invariant *)

(** Peels the frame steps off the state the goal is about. *)
Ltac own_peel :=
  repeat match goal with
  | |- own_inv (emit ?st _ _) => apply (own_except_frame None st); [apply emit_frame|]
  | |- own_inv (forget_ack ?st _) => apply (own_except_frame None st); [apply forget_ack_frame|]
  | |- own_inv (queueSessionArchive ?st _) => apply (own_except_frame None st); [apply archive_frame|]
  | |- own_inv (request_assign ?st _) => apply (own_except_frame None st); [apply request_assign_frame|]
  | |- own_except ?k (emit ?st _ _) => apply (own_except_frame k st); [apply emit_frame|]
  | |- own_except ?k (forget_ack ?st _) => apply (own_except_frame k st); [apply forget_ack_frame|]
  | |- own_except ?k (apply_cooldown ?st _) => apply (own_except_frame k st); [apply cooldown_frame|]
  end.

(** Names the state and the session that a release of the account lease leaves. *)
Ltac release_account st s st' s' F Ci Cw :=
  pose proof (release_account_frame st s) as F; pose proof (release_account_claim st s) as [Ci Cw];
  destruct (releaseProviderAccountLease st s) as [st' s']; simpl in F, Ci, Cw.

Section preservation.
Context {LC : LocaleCompare} {DP : DateParse} {UP : UrlParse}.
Implicit Types (st : ControlPlaneState) (s : SessionRecord).

Lemma own_ack st id w a : own_inv st -> own_inv (handleSessionAck st id w a).2.
Proof.
  intros H. unfold handleSessionAck.
  destruct (JsMap.get id (Plane.sessions st)) as [s|] eqn:G; [|done].
  destruct (planSessionTransition _ _ _) as [plan|]; [|done].
  destruct (negb _); [done|]. simpl.
  destruct (truthy_nul _); own_peel; by apply (own_update_same st id s).
Qed.

Lemma own_command_start st id w a : own_inv st -> own_inv (handleCommandStart st id w a).2.
Proof.
  intros H. unfold handleCommandStart.
  destruct (JsMap.get id (Plane.sessions st)) as [s|] eqn:G; [|done].
  destruct (planSessionTransition _ _ _) as [plan|]; [|done].
  destruct (negb _ && negb _ && has_effect pick_authorize plan); simpl;
    repeat case_match; own_peel; try done; by apply (own_update_same st id s).
Qed.

(** Releasing the worktree an operation's plan names, if any. *)
Lemma own_release_opt st k s (cond : bool) :
  own_inv st -> JsMap.get k (Plane.sessions st) = Some s ->
  own_except (Some k)
    (match (if cond then truthy_nul (Session.worktreeId s) else None) with
     | Some w => releaseWorktree st w
     | None => st
     end).
Proof.
  intros H G. destruct cond; [|by apply own_weaken].
  destruct (truthy_nul (Session.worktreeId s)) as [w|] eqn:E; [|by apply own_weaken].
  apply truthy_nul_Some in E as [E Hne]. by eapply own_release_named.
Qed.

Lemma own_cancel st id : own_inv st -> own_inv (cancelSession st id).2.
Proof.
  intros H. unfold cancelSession.
  destruct (JsMap.get id (Plane.sessions st)) as [s|] eqn:G; [|done].
  destruct (planSessionTransition _ _ _) as [plan|]; [|done].
  destruct (find_effect pick_reject plan); [done|].
  destruct (find_effect pick_cancel plan) as [hold|]; [|done].
  set (st0 := forget_ack st id). set (s0 := s <| _ := _ |> <| _ := _ |> <| _ := _ |>).
  assert (own_inv st0) as H0 by (by unfold st0; own_peel).
  destruct (if hold then truthy_nul (Session.hostId s0) else None) as [host|]; simpl.
  - apply (own_persist_same _ id s); [by own_peel|done|done].
  - pose proof (own_release_opt st0 id s (has_effect pick_release_worktree plan) H0 G) as H1.
    change (Session.worktreeId s0) with (Session.worktreeId s).
    set (st1 := match _ with Some w => releaseWorktree st0 w | None => st0 end) in *.
    release_account st1 s0 st2 s1 F Ci Cw. simpl.
    apply (own_persist_detached _ id); [by eapply own_except_frame| |by apply detached_null].
    simpl. rewrite Ci. exact (oe_ids _ _ H id s G).
Qed.

(** ** Sweeps *)
Lemma for_each_inv {A V} (P : ControlPlaneState -> Prop) (look : ControlPlaneState -> JsMap.t V)
    (body : ControlPlaneState -> string -> V -> option (list A) * ControlPlaneState) keys st :
  (forall st k v, P st -> JsMap.get k (look st) = Some v -> P (body st k v).2) ->
  P st -> P (for_each look body keys st).2.
Proof.
  intros Hbody. revert st. induction keys as [|k keys IH]; intros st H; simpl; [done|].
  destruct (JsMap.get k (look st)) as [v|] eqn:G; [|by apply IH].
  specialize (Hbody st k v H G). destruct (body st k v) as [[out|] st1]; simpl in *; [|done].
  specialize (IH st1 Hbody). by destruct (for_each look body keys st1).
Qed.

Lemma own_requeue_unacked st k s p :
  own_inv st -> JsMap.get k (Plane.sessions st) = Some s ->
  Session.worktreeId s = wire_worktree (Ack.worktreeId p) ->
  own_inv (requeue_unacked st k s p).
Proof.
  intros H G E. unfold requeue_unacked.
  destruct (truthy_opt (Ack.worktreeId p)) as [w|] eqn:T.
  - apply truthy_opt_Some in T as [Ew Hne]. rewrite Ew in E. simpl in E.
    pose proof (own_release_named st k s w H G E Hne) as H1.
    release_account (releaseWorktree st w) s st2 s1 F Ci Cw.
    apply own_update_detached; [by eapply own_except_frame| |by apply detached_null].
    simpl. rewrite Ci. exact (oe_ids _ _ H k s G).
  - pose proof (release_checkout_lease_frame st s) as F1.
    release_account (releaseScheduledLeaseLocal st s).2 s st2 s1 F Ci Cw.
    apply own_update_detached; [|simpl; rewrite Ci; exact (oe_ids _ _ H k s G)|by apply detached_null].
    apply (own_except_frame _ st); [by eapply own_frame_trans|]. by apply own_weaken.
Qed.

Lemma own_ack_deadlines_body st nowMs k p : own_inv st -> own_inv (enforce_ack nowMs st k p).2.
Proof.
  intros H. unfold enforce_ack. destruct (ack_not_due st nowMs p); [done|].
  destruct (JsMap.get k (Plane.sessions st)) as [s|] eqn:G; simpl; [|by own_peel].
  destruct (awaits_ack s p) eqn:Hw; simpl; own_peel; [|done].
  apply andb_true_iff in Hw as [Hw _]. apply andb_true_iff in Hw as [_ Hw].
  apply bool_decide_eq_true in Hw. by apply own_requeue_unacked.
Qed.

Lemma own_ack_deadlines st nowMs : own_inv st -> own_inv (enforceAckDeadlines st nowMs).2.
Proof.
  intros H. apply (for_each_inv own_inv); [|done]. intros. by apply own_ack_deadlines_body.
Qed.

(** Releasing what a timed-out session holds. *)
Lemma own_release_timed_out st k s :
  own_except (Some k) st -> Session.id s = k ->
  own_except (Some k) (release_timed_out st s).1 /\ Session.id (release_timed_out st s).2 = k.
Proof.
  intros H Hid. unfold release_timed_out. destruct (is_true_opt _); simpl.
  - split; [|done]. eapply own_except_frame; [apply release_checkout_lease_frame|done].
  - destruct (truthy_nul (Session.worktreeId s)) as [w|]; simpl.
    + split; [|done]. rewrite Hid. by apply own_release_if_owner.
    + split; [eapply own_except_frame; [apply release_slot_frame|done]|].
      destruct (release_slot_claim st s). congruence.
Qed.

Lemma own_time_out st k s :
  own_inv st -> JsMap.get k (Plane.sessions st) = Some s -> own_inv (timeOutAcknowledgedSession st s).
Proof.
  intros H G. unfold timeOutAcknowledgedSession.
  set (s0 := s <| _ := _ |> <| _ := _ |> <| _ := _ |>).
  assert (Session.id s0 = k) as Hid by exact (oe_ids _ _ H k s G).
  match goal with |- context [release_timed_out ?x s0] => set (st0 := x) end.
  assert (own_except (Some k) st0) as H0.
  { unfold st0. destruct (truthy_nul (Session.hostId s0)); own_peel; by apply own_weaken. }
  destruct (own_release_timed_out st0 k s0 H0 Hid) as [H1 Hid1].
  destruct (release_timed_out st0 s0) as [st1 s1]. simpl in H1, Hid1.
  own_peel. apply (own_persist_detached _ k); [done|done|by apply detached_null].
Qed.

Lemma own_running_timeouts st nowMs : own_inv st -> own_inv (enforceRunningTimeouts st nowMs).2.
Proof.
  intros H. unfold enforceRunningTimeouts. apply for_each_inv; [|done]. clear st H.
  intros st k s H G. destruct (isAcknowledgedRunningDue s nowMs); [|done]. by eapply own_time_out.
Qed.

(** Rewriting a worktree without touching who owns it. *)
Lemma own_set_worktree skip st k w w' :
  own_except skip st -> JsMap.get k (Plane.worktrees st) = Some w ->
  Worktree.id w' = Worktree.id w -> Worktree.status w' = Worktree.status w ->
  Worktree.currentSessionId w' = Worktree.currentSessionId w ->
  own_except skip (set_worktree st k w').
Proof.
  intros [H1 H2 H3 H4 H5] G Ei Es Ec. split; simpl; try done; try (by auto with jsmap).
  - intros j v. rewrite JsMap.get_set. case_decide; [|by apply H3].
    intros [= <-]. rewrite Ei. subst. by apply H3.
  - intros j s v Hj Hg Hv Hne. destruct (H4 j s v) as (wv & Gv & Bv & Cv); try done.
    unfold owns. simpl. rewrite JsMap.get_set. case_decide as Hd; [|by exists wv].
    subst v. assert (wv = w) as -> by congruence. exists w'. split; [done|]. split; congruence.
Qed.

Lemma own_offline_worktree st reason k wt :
  own_inv st -> JsMap.get k (Plane.worktrees st) = Some wt ->
  own_inv (offline_worktree st reason k wt).2.
Proof.
  intros H G. unfold offline_worktree. set (wt0 := wt <| Worktree.online := false |>).
  pose proof (own_set_worktree None st k wt wt0 H G eq_refl eq_refl eq_refl) as H0.
  set (st0 := set_worktree st k wt0) in *.
  assert (Worktree.id wt0 = k) as Hk by exact (oe_wids _ _ H k wt G).
  assert (JsMap.get k (Plane.worktrees st0) = Some wt0) as G0 by (apply JsMap.get_set_eq).
  destruct (negb _); [done|].
  destruct (truthy_nul (Worktree.currentSessionId wt0)) as [sid|] eqn:T; cbn [snd];
    [|unfold persistWorktree; rewrite Hk; by apply (own_set_worktree None st0 k wt0)].
  apply truthy_nul_Some in T as [T _].
  change (Plane.sessions st0) with (Plane.sessions st).
  destruct (JsMap.get sid (Plane.sessions st)) as [s|] eqn:Gs; [|done].
  destruct (negb _); [done|].
  destruct (is_some _).
  - destruct (now_plus st0 _) as [deadline|]; [|done]. cbn [snd]. unfold persistWorktree. rewrite Hk.
    apply (own_set_worktree None _ k wt0); [|done..]. by apply (own_update_same st0 sid s).
  - rewrite Hk.
    assert (own_except (Some sid) (releaseWorktree st0 k)) as H1.
    { apply own_release; [by apply own_weaken|]. intros v Gv _. congruence. }
    release_account (releaseWorktree st0 k) s st2 s1 F Ci Cw. simpl. own_peel.
    apply own_update_detached; [by eapply own_except_frame| |by apply detached_null].
    simpl. rewrite Ci. exact (oe_ids _ _ H sid s Gs).
Qed.

Lemma own_offline_scheduled st hostId reason k s :
  own_inv st -> JsMap.get k (Plane.sessions st) = Some s ->
  own_inv (offline_scheduled st hostId reason k s).2.
Proof.
  intros H G. unfold offline_scheduled. destruct (_ || _); [done|].
  destruct (is_some _).
  - destruct (now_plus st _) as [deadline|]; [|done]. simpl. by apply (own_update_same st k s).
  - pose proof (release_checkout_lease_frame st s) as F1.
    release_account (releaseScheduledLeaseLocal st s).2 s st2 s1 F Ci Cw. simpl. own_peel.
    assert (Session.id s1 = k) as Hid by (rewrite Ci; exact (oe_ids _ _ H k s G)).
    rewrite Hid. apply own_update_detached; [|done|by apply detached_null].
    apply (own_except_frame _ st); [by eapply own_frame_trans|]. by apply own_weaken.
Qed.

Lemma own_offline_host st hostId reason : own_inv st -> own_inv (offlineHostAndRequeue st hostId reason).2.
Proof.
  intros H. unfold offlineHostAndRequeue.
  match goal with |- context [for_each Plane.worktrees ?f ?ks st] =>
    pose proof (for_each_inv own_inv Plane.worktrees f ks st) as H1;
    destruct (for_each Plane.worktrees f ks st) as [first st1] eqn:E1 end.
  assert (own_inv st1) as Hst1.
  { apply H1; [|done]. intros st' k wt H' G. destruct (negb _); [done|]. by apply own_offline_worktree. }
  destruct first as [first|]; [|done].
  match goal with |- context [for_each Plane.sessions ?f ?ks st1] =>
    pose proof (for_each_inv own_inv Plane.sessions f ks st1) as H2;
    destruct (for_each Plane.sessions f ks st1) as [more st2] eqn:E2 end.
  simpl in *. apply H2; [|done]. intros. by apply own_offline_scheduled.
Qed.

(** ** Assignment *)

(** Only session [k] may differ. *)
Definition only_session (k : string) st st' : Prop :=
  forall j, j <> k -> JsMap.get j (Plane.sessions st') = JsMap.get j (Plane.sessions st).

Lemma only_session_refl k st : only_session k st st.
Proof. done. Qed.

Lemma only_session_eq k st st' : Plane.sessions st' = Plane.sessions st -> only_session k st st'.
Proof. intros E j _. by rewrite E. Qed.

Lemma only_session_trans k st1 st2 st3 :
  only_session k st1 st2 -> only_session k st2 st3 -> only_session k st1 st3.
Proof. intros H1 H2 j Hj. by rewrite H2, H1. Qed.

Lemma only_session_update st k s : only_session k st (update_session st k s).
Proof. intros j Hj. simpl. by apply JsMap.get_set_ne. Qed.

Lemma only_session_release k st w : only_session k st (releaseWorktree st w).
Proof. apply only_session_eq. unfold releaseWorktree. by case_match. Qed.

(** What an operation on session [k] guarantees. *)
Definition keeps_own (k : string) st st' : Prop := own_inv st' /\ only_session k st st'.

Lemma own_assign_claimed st st' s w r nowIso nowMs :
  own_inv st -> tryClaimWorktree st (Worktree.id w) (Session.id s) nowIso = (true, st') ->
  keeps_own (Session.id s) st (assign_claimed st' s w r nowIso nowMs).2.
Proof.
  intros H Hc. destruct (own_claim _ _ _ _ _ H Hc) as [H' Ho].
  destruct (claim_inv _ _ _ _ _ H Hc) as (_ & _ & Es & _).
  unfold assign_claimed. simpl.
  set (st1 := st' <| Plane.attemptsDrawn := _ |>).
  assert (own_frame st' st1) as F1 by done.
  set (kst := if hostAdvertisesSessionSpawn _ _ then _ else _).
  assert (own_frame st' kst.2) as F2 by (unfold kst; by case_match).
  destruct kst as [key st2]. simpl in F2.
  match goal with |- context [tryAcquireProviderAccountLeaseLocal st2 s ?a ?t ?h ?o ?c] =>
    pose proof (acquire_frame st2 s a t h o c) as F3;
    destruct (tryAcquireProviderAccountLeaseLocal st2 s a t h o c) as [lease st3] end.
  simpl in F3. pose proof (own_frame_trans _ _ _ F2 F3) as F.
  destruct (is_some _ && negb _).
  - simpl. split; [exact (own_claim_release _ _ _ _ _ _ H Hc F)|].
    eapply only_session_trans; [|apply only_session_release].
    apply only_session_eq. destruct F as [-> _]. done.
  - match goal with |- context [update_session st3 _ ?x] => set (s1 := x) end.
    change (Session.id s1) with (Session.id s).
    set (st4 := touchAccount (update_session st3 (Session.id s) s1) (Target.providerAccountId r) nowIso).
    assert (own_frame (update_session st3 (Session.id s) s1) st4) as F4 by apply touchAccount_frame.
    assert (own_inv st4) as H4.
    { apply (own_except_frame None (update_session st3 (Session.id s) s1)); [done|].
      apply own_update; [apply own_weaken, (own_except_frame None st'); done|done|].
      simpl. intros v [= <-] _. by eapply owns_frame. }
    assert (only_session (Session.id s) st st4) as O4.
    { eapply only_session_trans; [|apply only_session_eq; apply F4].
      eapply only_session_trans; [|apply only_session_update].
      apply only_session_eq. destruct F as [-> _]. done. }
    destruct (assignLogSettings _); simpl; split; try done; by apply (own_except_frame None st4).
Qed.

Lemma own_try_candidates s nowIso nowMs candidates : forall st,
  own_inv st -> keeps_own (Session.id s) st (try_candidates st s nowIso nowMs candidates).2.
Proof.
  induction candidates as [|[w r] rest IH]; intros st H; simpl; [done|].
  destruct (negb _ || negb _); [by apply IH|].
  destruct (tryClaimWorktree st (Worktree.id w) (Session.id s) nowIso) as [[] st1] eqn:Hc.
  - pose proof (own_assign_claimed st st1 s w r nowIso nowMs H Hc) as [H2 O2].
    destruct (assign_claimed st1 s w r nowIso nowMs) as [[] st2]; simpl in *; [|done..].
    destruct (IH st2 H2) as [H3 O3]. split; [done|]. by eapply only_session_trans.
  - apply tryClaim_false in Hc as ->. by apply IH.
Qed.

Lemma own_assign_session st catalog s nowIso nowMs :
  own_inv st -> JsMap.get (Session.id s) (Plane.sessions st) = Some s ->
  keeps_own (Session.id s) st (assign_session st catalog s nowIso nowMs).2.
Proof.
  intros H G. unfold assign_session.
  assert (forall st' s' plan, keeps_own (Session.id s) st st' -> Session.id s' = Session.id s ->
    same_claim s s' -> JsMap.get (Session.id s) (Plane.sessions st') = Some s' ->
    keeps_own (Session.id s) st
      (match plan with
       | prompt_expire => (attempt_none, expireQueuedLocal st' s' nowIso)
       | prompt_assign candidates => try_candidates st' s' nowIso nowMs candidates
       | _ => (attempt_none, st')
       end).2) as Hgo.
  { intros st' s' plan [H' O'] Hid C G'. destruct plan; simpl; [|done|done|].
    - split; [by apply (own_persist_same st' (Session.id s) s')|].
      eapply only_session_trans; [done|]. unfold expireQueuedLocal, persistSession. simpl. rewrite Hid.
      apply only_session_update.
    - pose proof (own_try_candidates s' nowIso nowMs candidates st' H') as [H2 O2]. rewrite Hid in O2.
      split; [done|]. by eapply only_session_trans. }
  assert (keeps_own (Session.id s) st st) as K by done.
  destruct (planPromptPlacement st catalog s nowMs) as [|reason| |candidates].
  - exact (Hgo st s prompt_expire K eq_refl (conj eq_refl eq_refl) G).
  - exact (Hgo st s (prompt_skip reason) K eq_refl (conj eq_refl eq_refl) G).
  - cbv zeta. change (Session.id (clearResumePin s)) with (Session.id s).
    apply (Hgo _ (clearResumePin s)); [|done|done|apply JsMap.get_set_eq].
    split; [by apply (own_update_same st (Session.id s) s)|apply only_session_update].
  - exact (Hgo st s (prompt_assign candidates) K eq_refl (conj eq_refl eq_refl) G).
Qed.

(** The sessions still to be visited are the map's own objects. *)
Definition queue_ok st (queue : list SessionRecord) : Prop :=
  List.NoDup (map Session.id queue) /\
  forall s, In s queue -> JsMap.get (Session.id s) (Plane.sessions st) = Some s.

Lemma queue_ok_step st st' s queue :
  queue_ok st (s :: queue) -> only_session (Session.id s) st st' -> queue_ok st' queue.
Proof.
  intros [Hnd Hin] Ho. inversion Hnd as [|? ? Hs Hnd']; subst. split; [done|].
  intros s' Hs'. rewrite Ho; [by apply Hin; right|].
  intros E. apply Hs. rewrite <- E. by apply in_map.
Qed.

Lemma own_assign_loop catalog sessionId nowIso nowMs queue : forall st,
  own_inv st -> queue_ok st queue ->
  own_inv (assign_loop st catalog sessionId nowIso nowMs queue).2.
Proof.
  induction queue as [|s queue IH]; intros st H Hq; simpl; [done|].
  destruct (match sessionId with Some id => _ | None => false end).
  - apply IH; [done|]. eapply queue_ok_step; [done|apply only_session_refl].
  - destruct (own_assign_session st catalog s nowIso nowMs H) as [H1 O1]; [apply Hq; by left|].
    pose proof (queue_ok_step _ _ _ _ Hq O1) as Hq1.
    destruct (assign_session st catalog s nowIso nowMs) as [[] st1]; simpl in *; [by apply IH| |done].
    specialize (IH st1 H1 Hq1). by destruct (assign_loop st1 catalog sessionId nowIso nowMs queue).
Qed.

Lemma entries_ids st : own_inv st ->
  map Session.id (JsMap.values (Plane.sessions st)) = JsMap.keys (Plane.sessions st).
Proof.
  intros H. unfold JsMap.values, JsMap.keys. rewrite map_map. apply map_ext_in. intros [k s] Hin. simpl.
  apply (oe_ids _ _ H). apply JsMap.In_get; [apply (oe_wf _ _ H)|done].
Qed.

Lemma NoDup_map_filter {A B} (f : A -> B) p l : List.NoDup (map f l) -> List.NoDup (map f (List.filter p l)).
Proof.
  induction l as [|x l IH]; simpl; [done|]. intros Hnd. inversion Hnd as [|? ? Hx Hnd']; subst.
  destruct (p x); simpl; [|by apply IH]. constructor; [|by apply IH].
  intros Hin. apply Hx. apply in_map_iff in Hin as (y & E & Hy). apply filter_In in Hy as [Hy _].
  rewrite <- E. by apply in_map.
Qed.

Context {LL : LocaleCompareLaws LC}.

Lemma queue_ok_ordered st n kind : own_inv st ->
  queue_ok st (opt_or (orderedQueuedSessions (JsMap.values (Plane.sessions st)) n kind) []).
Proof.
  intros H. unfold orderedQueuedSessions.
  replace (queuedSessionsByShard (JsMap.values (Plane.sessions st)) n kind)
    with (queuedSessionsByShard (JsMap.values (Plane.sessions st)) (Z.max 0 n) kind)
    by (unfold queuedSessionsByShard; do 3 f_equal; lia).
  destruct (merge_spec _ (queuedSessionsByShard_sorted (JsMap.values (Plane.sessions st)) (Z.max 0 n) kind))
    as (out & -> & Hp & _). simpl.
  rewrite queuedSessionsByShard_perm in Hp by lia. split.
  - eapply Permutation_NoDup; [apply Permutation_map; symmetry; exact Hp|].
    apply NoDup_map_filter. rewrite (entries_ids st H). apply NoDup_ListNoDup, (oe_wf _ _ H).
  - intros s Hin. apply (Permutation_in s Hp), filter_In in Hin as [Hin _].
    apply (JsMap.In_values_get _ _ (oe_wf _ _ H)) in Hin as [k G].
    by rewrite (oe_ids _ _ H k s G).
Qed.

Lemma queue_members st n kind s :
  In s (opt_or (orderedQueuedSessions (JsMap.values (Plane.sessions st)) n kind) []) ->
  Session.status s = queued /\ scheduleKind s = kind.
Proof.
  unfold orderedQueuedSessions.
  replace (queuedSessionsByShard (JsMap.values (Plane.sessions st)) n kind)
    with (queuedSessionsByShard (JsMap.values (Plane.sessions st)) (Z.max 0 n) kind)
    by (unfold queuedSessionsByShard; do 3 f_equal; lia).
  destruct (merge_spec _ (queuedSessionsByShard_sorted (JsMap.values (Plane.sessions st)) (Z.max 0 n) kind))
    as (out & -> & Hp & _). simpl.
  rewrite queuedSessionsByShard_perm in Hp by lia.
  intros Hin. apply (Permutation_in s Hp), filter_In in Hin as [_ Hq]. unfold in_queue in Hq.
  rewrite !andb_true_iff in Hq. destruct Hq as [[[H1 H2] _] _].
  by rewrite !bool_decide_eq_true in H1, H2.
Qed.

Lemma own_assign st sessionId : own_inv st -> own_inv (assignQueued st sessionId).2.
Proof. intros H. apply own_assign_loop; [done|by apply queue_ok_ordered]. Qed.

(** ** Status reports *)

(** [s], the rewritten session [k], may be stored: it names only a worktree it owns. *)
Record claim_ok (k : string) st s : Prop := {
  co_own : own_except (Some k) st;
  co_id : Session.id s = k;
  co_claim : forall w, Session.worktreeId s = Val w -> w <> "" -> owns st w k;
}.

Lemma claim_ok_start k st s :
  own_inv st -> JsMap.get k (Plane.sessions st) = Some s -> claim_ok k st s.
Proof.
  intros H G. split; [by apply own_weaken|by apply (oe_ids _ _ H)|].
  intros w. by apply (oe_owner _ _ H).
Qed.

Lemma claim_ok_frame k st st' s s' :
  own_frame st st' -> same_claim s s' -> claim_ok k st s -> claim_ok k st' s'.
Proof.
  intros F [Ei Ew] [H1 H2 H3]. split; [by eapply own_except_frame|congruence|].
  intros w. rewrite Ew. intros. eapply owns_frame; [done|]. by apply H3.
Qed.

Lemma claim_ok_detached k st s :
  own_except (Some k) st -> Session.id s = k -> detached s -> claim_ok k st s.
Proof. intros H Hid Hd. split; [done|done|]. intros w E Hne. by apply Hd in E. Qed.

Lemma claim_ok_persist k st s : claim_ok k st s -> own_inv (persistSession st s).
Proof.
  intros [H1 H2 H3]. unfold persistSession. rewrite H2. destruct (persistence_claim s) as [Ei Ew].
  apply own_update; [done|congruence|]. intros w. rewrite Ew. apply H3.
Qed.

(** [releaseProviderAccountLease] under a condition. *)
Lemma claim_ok_account k st s (cond : bool) :
  claim_ok k st s ->
  claim_ok k (if cond then releaseProviderAccountLease st s else (st, s)).1
             (if cond then releaseProviderAccountLease st s else (st, s)).2.
Proof.
  intros H. destruct cond; [|done].
  eapply claim_ok_frame; [apply release_account_frame|apply release_account_claim|done].
Qed.

(** The release of the main checkout, which also forgets the worktree. *)
Definition drop_checkout_step (cond : bool) st s : ControlPlaneState * SessionRecord :=
  if cond then ((releaseScheduledLeaseLocal st s).2, (drop_checkout_fields s) <| Session.worktreeId := Null |>)
  else (st, s).

Lemma claim_ok_checkout k st s cond :
  claim_ok k st s -> claim_ok k (drop_checkout_step cond st s).1 (drop_checkout_step cond st s).2.
Proof.
  intros [H1 H2 H3]. destruct cond; [|done]. simpl.
  apply claim_ok_detached; [|done|by apply detached_null].
  eapply own_except_frame; [apply release_checkout_lease_frame|done].
Qed.

(** The guarded release of the named worktree. *)
Definition drop_worktree_step (cond : bool) st s : ControlPlaneState * SessionRecord :=
  match (if cond then truthy_nul (Session.worktreeId s) else None) with
  | Some w => (release_if_owner st w (Session.id s), s <| Session.worktreeId := Null |>)
  | None => (st, s)
  end.

Lemma claim_ok_worktree k st s cond :
  claim_ok k st s -> claim_ok k (drop_worktree_step cond st s).1 (drop_worktree_step cond st s).2.
Proof.
  intros [H1 H2 H3]. unfold drop_worktree_step. destruct cond; [|done].
  destruct (truthy_nul (Session.worktreeId s)) as [w|]; [|done]. simpl.
  apply claim_ok_detached; [|done|by apply detached_null]. rewrite H2. by apply own_release_if_owner.
Qed.

Lemma claim_ok_slot k st s (cond : bool) e :
  claim_ok k st s ->
  claim_ok k (if cond then releaseWorkspaceSlotLocal st s e else (st, s)).1
             (if cond then releaseWorkspaceSlotLocal st s e else (st, s)).2.
Proof.
  intros H. destruct cond; [|done].
  eapply claim_ok_frame; [apply release_slot_local_frame|apply release_slot_local_claim|done].
Qed.

Lemma claim_ok_late_assignment k st s e :
  claim_ok k st s ->
  claim_ok k (releaseLocalLateTerminalAssignment st s e).1 (releaseLocalLateTerminalAssignment st s e).2.
Proof.
  intros H. unfold releaseLocalLateTerminalAssignment.
  pose proof (claim_ok_account k st s
    (is_true_opt (Session.mainCheckoutLease s) || is_some (truthy_nul (Session.workspaceSlotId s)) ||
     is_some (truthy_nul (Session.worktreeId s))) H) as H1.
  destruct (if is_true_opt (Session.mainCheckoutLease s) || _ || _ then _ else _) as [st1 s1].
  pose proof (claim_ok_checkout k st1 s1 (is_true_opt (Session.mainCheckoutLease s)) H1) as H2.
  change (if is_true_opt (Session.mainCheckoutLease s) then _ else (st1, s1))
    with (drop_checkout_step (is_true_opt (Session.mainCheckoutLease s)) st1 s1).
  destruct (drop_checkout_step _ st1 s1) as [st2 s2].
  pose proof (claim_ok_worktree k st2 s2 (is_some (truthy_nul (Session.worktreeId s))) H2) as H3.
  change (match (if is_some (truthy_nul (Session.worktreeId s)) then _ else None) with
          | Some w => _ | None => (st2, s2) end)
    with (drop_worktree_step (is_some (truthy_nul (Session.worktreeId s))) st2 s2).
  destruct (drop_worktree_step _ st2 s2) as [st3 s3].
  by apply claim_ok_slot.
Qed.

Lemma handoff_frame st s msg fb : own_frame st (deferredTerminalHookHandoff st s msg fb).2.
Proof. unfold deferredTerminalHookHandoff. by case_match. Qed.

Lemma own_settle_deferred st k s msg owner out st' :
  own_inv st -> JsMap.get k (Plane.sessions st) = Some s ->
  settle_deferred st s msg owner = Some (out, st') -> own_inv st'.
Proof.
  intros H G. unfold settle_deferred. destruct (_ && _); [|done].
  case_bool_decide as Hset; [intros [= _ <-]; done|]. destruct (_ || _); [done|].
  pose proof (handoff_frame st s msg owner) as F.
  destruct (deferredTerminalHookHandoff st s msg owner) as [[[handoff|]|] st1]; simpl in F; [|done|].
  - set (s0 := s <| Session.terminalHookHandoff := Some handoff |>).
    assert (claim_ok k st1 s0) as H1 by (apply (claim_ok_frame k st st1 s); [done|done|by apply claim_ok_start]).
    case_bool_decide as Hto.
    + release_account st1 s0 st2 s1 F2 Ci Cw. intros [= _ <-].
      apply (claim_ok_persist k). by apply (claim_ok_frame k st1 st2 s0).
    + pose proof (claim_ok_late_assignment k st1 s0 (Status.workspaceSlotError msg) H1) as H2.
      destruct (releaseLocalLateTerminalAssignment _ _ _) as [st2 s1]. intros [= _ <-].
      by apply (claim_ok_persist k).
  - intros [= _ <-]. by apply (own_except_frame None st).
Qed.

Lemma own_settle_timeout st k s r :
  own_inv st -> JsMap.get k (Plane.sessions st) = Some s -> own_inv (settle_timeout st s r).
Proof.
  intros H G. unfold settle_timeout. release_account st s st1 s1 F Ci Cw.
  apply (claim_ok_persist k). apply (claim_ok_frame k st st1 s); [done| |by apply claim_ok_start].
  destruct (keep_result_claim s1 r) as [E1 E2].
  split; simpl; congruence.
Qed.

Lemma own_late_report st k s msg plan :
  own_inv st -> JsMap.get k (Plane.sessions st) = Some s -> own_inv (apply_late_report st s msg plan).
Proof.
  intros H G. unfold apply_late_report.
  pose proof (claim_ok_account k st s
    (has_effect pick_release_lease plan || has_effect pick_release_worktree plan ||
     has_effect pick_release_workspace plan) (claim_ok_start k st s H G)) as H1.
  destruct (if has_effect pick_release_lease plan || _ || _ then _ else _) as [st1 s1].
  set (c2 := has_effect pick_release_lease plan && is_true_opt (Session.mainCheckoutLease s1)).
  pose proof (claim_ok_checkout k st1 s1 c2 H1) as H2.
  change (if c2 then _ else (st1, s1)) with (drop_checkout_step c2 st1 s1).
  destruct (drop_checkout_step c2 st1 s1) as [st2 s2].
  pose proof (claim_ok_worktree k st2 s2 (has_effect pick_release_worktree plan) H2) as H3.
  change (match (if has_effect pick_release_worktree plan then _ else None) with
          | Some w => _ | None => (st2, s2) end)
    with (drop_worktree_step (has_effect pick_release_worktree plan) st2 s2).
  destruct (drop_worktree_step _ st2 s2) as [st3 s3].
  pose proof (claim_ok_slot k st3 s3 (has_effect pick_release_workspace plan)
    (Status.workspaceSlotError msg) H3) as H4.
  destruct (if has_effect pick_release_workspace plan then _ else _) as [st4 s4].
  apply (claim_ok_persist k). apply (claim_ok_frame k st4 st4 s4); [done| |done].
  set (s5 := match _ with Some ref => _ | None => s4 end).
  assert (same_claim s4 s5) as [E1 E2] by (unfold s5; by case_match).
  destruct (keep_result_claim s5 (p ← find_effect pick_patch plan; Report.result p.2)) as [E3 E4].
  split; congruence.
Qed.

Lemma own_retry_pass st plan : own_inv st -> own_inv (retry_pass st plan).2.
Proof.
  intros H. unfold retry_pass. pose proof (own_assign st None H) as Ha.
  destruct (assignQueued st None). destruct (find_effect pick_reschedule plan) as [[]|]; simpl; try done.
  by own_peel.
Qed.

Lemma own_requeue_pass st plan : own_inv st -> own_inv (requeue_pass st plan).2.
Proof.
  intros H. unfold requeue_pass. pose proof (own_assign st None H) as Ha.
  destruct (assignQueued st None). destruct (find_effect pick_reschedule plan) as [[]|]; simpl; try done;
    by own_peel.
Qed.

Lemma own_infrastructure_retry st k s msg plan fields :
  own_inv st -> JsMap.get k (Plane.sessions st) = Some s ->
  own_inv (apply_infrastructure_retry st s msg plan fields).2.
Proof.
  intros H G. unfold apply_infrastructure_retry.
  set (rel := if is_true_opt (Session.mainCheckoutLease s) then _ else _).
  assert ((rel.1 = false -> own_inv rel.2) /\ own_except (Some k) rel.2) as [Hf He].
  { unfold rel. destruct (is_true_opt _).
    - split; [intros _; eapply own_except_frame|eapply (own_except_frame (Some k))];
        [apply release_checkout_lease_frame|done|apply release_checkout_lease_frame|by apply own_weaken].
    - destruct (truthy_nul (Session.worktreeId s)) as [w|] eqn:T; simpl.
      + split; [done|]. apply truthy_nul_Some in T as [T Hne]. by eapply own_release_named.
      + split; [done|by apply own_weaken]. }
  destruct rel as [released st1]. simpl in Hf, He.
  destruct released; simpl; [|by apply Hf].
  release_account st1 s st2 s1 F Ci Cw.
  assert (Session.id s1 = k) as Hid by (rewrite Ci; exact (oe_ids _ _ H k s G)).
  match goal with |- context [update_session st2 (Session.id s1) ?x] => set (next := x) end.
  rewrite Hid. set (st3 := forget_ack (update_session st2 k next) k).
  assert (own_inv st3) as H3.
  { unfold st3. own_peel. apply own_update_detached; [by eapply own_except_frame|done|by apply detached_null]. }
  pose proof (own_retry_pass st3 plan H3) as H4.
  destruct (retry_pass st3 plan) as [returned st4]. exact H4.
Qed.

Lemma report_fields_claim s msg status r : same_claim s (report_fields s msg status r).
Proof.
  unfold report_fields.
  match goal with |- same_claim s (keep_result ?x r) => destruct (keep_result_claim x r) as [E1 E2] end.
  split; [exact E1|exact E2].
Qed.

(** After the terminal release only session [k] itself may be left inconsistent. *)
Lemma own_release_terminal st k s msg plan handoff :
  own_inv st -> claim_ok k st s -> (exists s0, JsMap.get k (Plane.sessions st) = Some s0 /\ same_claim s0 s) ->
  own_except (Some k) (release_terminal st s msg plan handoff).1 /\
  Session.id (release_terminal st s msg plan handoff).2 = k.
Proof.
  intros H [H1 H2 H3] (s0 & G & Ei & Ew). unfold release_terminal.
  destruct (is_true_opt _); simpl; [by case_match|].
  assert (forall e, own_except (Some k) (if has_effect pick_release_workspace plan
            then releaseWorkspaceSlotLocal st s e else (st, s)).1 /\
          Session.id (if has_effect pick_release_workspace plan
            then releaseWorkspaceSlotLocal st s e else (st, s)).2 = k) as Hslot.
  { intros e. destruct (has_effect _ _); [|done].
    destruct (release_slot_local_claim st s e) as [E _]. split; [|congruence].
    eapply own_except_frame; [apply release_slot_local_frame|done]. }
  destruct (if has_effect pick_release_worktree plan then _ else None) as [w|] eqn:T; [|apply Hslot].
  case_bool_decide; [apply Hslot|]. simpl. split; [|done].
  destruct (has_effect pick_release_worktree plan); [|done].
  apply truthy_nul_Some in T as [T Hne]. apply (own_release_named st k s0); [done|done|congruence|done].
Qed.

Lemma own_requeue st k s plan first :
  own_except (Some k) st -> Session.id s = k -> own_inv (apply_requeue st s plan first).2.
Proof.
  intros H Hid. unfold apply_requeue. rewrite Hid.
  pose proof (own_update_detached st k (requeued_session s) H Hid (detached_null (requeued_session s) eq_refl)) as H1.
  set (st1 := update_session st k (requeued_session s)) in *.
  pose proof (own_requeue_pass st1 plan H1) as H2.
  destruct (requeue_pass st1 plan) as [returned st2]. simpl in H2.
  destruct returned; simpl; [|done].
  destruct (JsMap.get k (Plane.sessions st2)) as [s2|] eqn:G; simpl.
  - by apply (own_persist_same st2 k s2).
  - apply (own_persist_detached st2 k); [by apply own_weaken|done|by apply detached_null].
Qed.

Lemma own_finish st k s clear fields handoff first :
  own_except (Some k) st -> Session.id s = k -> own_inv (apply_finish st s clear fields handoff first).2.
Proof.
  intros H Hid. unfold apply_finish. simpl.
  apply (own_persist_detached _ k); [|done|by apply detached_null].
  case_match; [done|]. eapply own_except_frame; [apply archive_frame|done].
Qed.

Lemma find_effect_app {A} (pick : SessionTransitionEffect -> option A) p q :
  find_effect pick (p ++ q)%list =
  match find_effect pick p with Some a => Some a | None => find_effect pick q end.
Proof. induction p as [|e p IH]; simpl; [done|]. by destruct (pick e). Qed.

Lemma releaseEffects_no {A} (pick : SessionTransitionEffect -> option A) s :
  pick fx_release_lease = None -> pick fx_release_workspace = None -> pick fx_release_worktree = None ->
  find_effect pick (releaseEffects s) = None.
Proof. intros E1 E2 E3. unfold releaseEffects. repeat case_match; simpl; by rewrite ?E1, ?E2, ?E3. Qed.

(** A terminal report of a running session is ignored, requeues it or finishes it. *)
Lemma terminal_report_decides s w a status fields ctx plan :
  planStatus s w a status fields ctx = Some plan ->
  isTerminalSessionStatus status = true -> Session.status s = running -> Ctx.source ctx = local ->
  has_effect pick_ignore plan = true \/ has_effect pick_requeue plan = true \/
  has_effect pick_finish plan = true.
Proof.
  unfold planStatus. intros Hp Ht Hr Hl. rewrite Ht, Hr, Hl in Hp. simpl in Hp.
  destruct (attemptMatches s w a); simpl in Hp; [|injection Hp as <-; by left].
  unfold has_effect.
  destruct (_ && _) in Hp.
  - unfold planUsageLimit in Hp. rewrite Hl in Hp. repeat case_match; simplify_eq/=;
      rewrite ?find_effect_app; try (right; left; repeat case_match; done).
    all: destruct (date_iso _); simplify_eq/=; rewrite ?find_effect_app; right; left;
      repeat case_match; done.
  - destruct (_ && _) in Hp; [|injection Hp as <-; right; right; rewrite find_effect_app; by case_match].
    unfold planInfrastructureFailure in Hp. rewrite Hr in Hp. simpl in Hp.
    destruct (_ && _) in Hp; injection Hp as <-; right; rewrite !find_effect_app;
      [left|right]; repeat case_match; done.
Qed.

Lemma own_running_report st k s msg plan handoff first r :
  own_inv st -> JsMap.get k (Plane.sessions st) = Some s ->
  (isTerminalSessionStatus (Status.status msg) = true ->
   has_effect pick_requeue plan = true \/ has_effect pick_finish plan = true) ->
  own_inv (apply_running_report st s msg plan handoff first r).2.
Proof.
  intros H G Hdec. unfold apply_running_report.
  set (s0 := report_fields s msg _ r).
  assert (same_claim s s0) as C0 by apply report_fields_claim.
  destruct (isTerminalSessionStatus (Status.status msg)); cbn [negb];
    [|by apply (own_persist_same st k s)].
  set (s1 := s0 <| Session.completedAt := _ |>).
  set (st1 := forget_ack st (Status.sessionId msg)).
  release_account st1 s1 st2 s2 F Ci Cw.
  assert (own_frame st st2) as F2 by (eapply own_frame_trans; [apply forget_ack_frame|done]).
  assert (same_claim s s2) as C2 by (destruct C0; split; congruence).
  destruct (own_release_terminal st2 k s2 msg plan handoff) as [H3 Hid].
  { by apply (own_except_frame None st). }
  { apply (claim_ok_frame k st st2 s); [done|done|by apply claim_ok_start]. }
  { exists s. destruct F2 as [-> _]. done. }
  destruct (release_terminal st2 s2 msg plan handoff) as [st3 s3]. simpl in H3, Hid.
  set (st4 := apply_cooldown st3 _). set (s4 := match find_effect pick_suppress plan with Some i => _ | None => s3 end).
  assert (own_except (Some k) st4) as H4 by (eapply own_except_frame; [apply cooldown_frame|done]).
  assert (Session.id s4 = k) as Hid4 by (unfold s4; by case_match).
  specialize (Hdec eq_refl). unfold has_effect in Hdec.
  destruct (find_effect pick_requeue plan) as [rq|]; [by apply (own_requeue st4 k)|].
  destruct (find_effect pick_finish plan) as [[clear fields]|]; [|naive_solver].
  pose proof (own_finish st4 k s4 clear fields handoff first H4 Hid4) as Hf.
  destruct (apply_finish st4 s4 clear fields handoff first). exact Hf.
Qed.

Lemma own_apply_plan st k s msg plan owner r :
  own_inv st -> JsMap.get k (Plane.sessions st) = Some s ->
  (isTerminalSessionStatus (Status.status msg) = true -> Session.status s = running ->
   has_effect pick_ignore plan = true \/ has_effect pick_requeue plan = true \/
   has_effect pick_finish plan = true) ->
  own_inv (apply_plan st s msg plan owner r).2.
Proof.
  intros H G Hdec. unfold apply_plan.
  destruct (has_effect pick_ignore plan) eqn:Hi; [done|].
  assert (own_inv (
    if negb (bool_decide (Session.status s = running))
    then (Some status_ok, apply_late_report st s msg plan)
    else
      let '(minted, state) :=
        if has_effect pick_finish plan && Status.deferTerminalHookResult msg
        then deferredTerminalHookHandoff st s msg owner else (Some None, st) in
      match minted with
      | None => (None, state)
      | Some handoff =>
          match release_checkout state s plan handoff with
          | None => (Some status_ok, state)
          | Some state => apply_running_report state s msg plan handoff (isFirstCheckoutFetchFailure msg s) r
          end
      end).2) as Hrest.
  { case_bool_decide as Hr; simpl; [|by eapply own_late_report].
    set (mint := if _ && _ then _ else _).
    assert (own_frame st mint.2) as F by (unfold mint; case_match; [apply handoff_frame|done]).
    destruct mint as [[handoff|] st1]; simpl in F; [|by apply (own_except_frame None st)].
    assert (own_inv st1) as H1 by (by apply (own_except_frame None st)).
    destruct (release_checkout st1 s plan handoff) as [st2|] eqn:E; [|done].
    assert (own_frame st1 st2) as F2.
    { unfold release_checkout in E. destruct (has_effect pick_release_lease plan); [|by simplify_eq].
      destruct (handoff_holds_checkout handoff); [by case_match; simplify_eq|].
      pose proof (release_checkout_lease_frame st1 s) as F2.
      destruct (releaseScheduledLeaseLocal st1 s). case_match; by simplify_eq. }
    apply (own_running_report st2 k).
    - by apply (own_except_frame None st1).
    - destruct F as [F _], F2 as [F2 _]. by rewrite F2, F.
    - intros Ht. destruct (Hdec Ht Hr) as [|[]]; [congruence|by left|by right]. }
  destruct (find_effect pick_requeue plan) as [[[] fields]|]; try done.
  by apply (own_infrastructure_retry st k).
Qed.

Lemma own_status st msg src : own_inv st -> own_inv (applySessionStatus st msg src).2.
Proof.
  intros H. unfold applySessionStatus.
  destruct (JsMap.get (Status.sessionId msg) (Plane.sessions st)) as [s|] eqn:G; [|done].
  destruct (localDeferredHandoffAck _ _ _); [done|].
  destruct (settle_deferred st s msg _) as [[out st1]|] eqn:E; [by eapply own_settle_deferred|].
  destruct (settles_timeout s msg); [by eapply own_settle_timeout|].
  destruct (planSessionTransition _ _ _) as [plan|] eqn:P; [|done].
  apply (own_apply_plan st (Status.sessionId msg)); [done|done|].
  intros Ht Hr. eapply terminal_report_decides; [exact P|done|done|done].
Qed.

Lemma own_handle_status st msg src : own_inv st -> own_inv (handleSessionStatus st msg src).2.
Proof.
  intros H. unfold handleSessionStatus. pose proof (own_status st msg src H) as H1.
  destruct (applySessionStatus st msg src) as [[r|] st1]; simpl in *; [|done].
  case_match; [by own_peel|done].
Qed.
End preservation.

(** ** Registration of a worktree *)
Lemma own_seed st w :
  own_inv st -> JsMap.get (Worktree.id w) (Plane.worktrees st) = None -> own_inv (seedWorktree st w).
Proof.
  intros [H1 H2 H3 H4 H5] G. split; simpl; try done; try (by auto with jsmap).
  - intros k v. rewrite JsMap.get_set. case_decide; [naive_solver|apply H3].
  - intros k s v _ Hg Hv Hne. destruct (H4 k s v) as (wv & Gv & B); try done.
    exists wv. simpl. rewrite JsMap.get_set. case_decide; [congruence|done].
Qed.

(** ** An example *)
#[local] Existing Instance code_order.
#[local] Existing Instance iso_date_parse.
#[local] Existing Instance scheme_url.

Lemma example_own : own_inv example_state.
Proof.
  split.
  - apply NoDup_ListNoDup. repeat constructor. simpl. tauto.
  - intros k s. simpl. unfold str_eqb. case_bool_decide; [|done]. intros [= <-]. by subst.
  - intros k w. simpl. unfold str_eqb. case_bool_decide; [|done]. intros [= <-]. by subst.
  - intros k s w _. simpl. unfold str_eqb. case_bool_decide; [|done]. by intros [= <-].
  - apply NoDup_ListNoDup. repeat constructor. simpl. tauto.
Qed.
