(* ===== verification/PlaneSpec.v ===== *)
(** * Functional behaviour of the in-memory plane

    What a pass of [assignQueued], the two sweeps and the host frames do to
    sessions, worktrees and the frames sent to hosts. *)

From Stdlib Require Import ZArith Lia Ascii String.
From stdpp Require Import base strings list.
From S2P Require Import Prelude DateTime Types Ordering TransitionPlanner ProviderCascade.
From S2P Require Import SessionTarget AccountLeases Placement SessionOutcome LogSettings Worktrees.
From S2P Require Import Assignment HostMessages Ownership.

Local Open Scope string_scope.
Local Open Scope Z_scope.

(** ** Assignment passes *)

(** The host and the repository of a worktree. *)
Definition home (wt : WorktreeRecord) : string * string := (Worktree.hostId wt, Worktree.repositoryId wt).

Definition home_of (st : ControlPlaneState) (w : string) : option (string * string) :=
  home <$> JsMap.get w (Plane.worktrees st).

(** Worktree [w], on that host and of that repository, can be claimed. *)
Definition claimable (st : ControlPlaneState) (w : string) (h : string * string) : Prop :=
  exists wt, JsMap.get w (Plane.worktrees st) = Some wt /\ Worktree.status wt = idle /\
    Worktree.online wt = true /\ home wt = h.

(** No worktree becomes claimable. *)
Definition claims_shrink (st st' : ControlPlaneState) : Prop :=
  forall w h, claimable st' w h -> claimable st w h.

(** No worktree moves. *)
Definition homes_kept (st st' : ControlPlaneState) : Prop := forall w, home_of st' w = home_of st w.

Lemma claims_shrink_frame st st' : Plane.worktrees st' = Plane.worktrees st -> claims_shrink st st'.
Proof. intros E w h. unfold claimable. by rewrite E. Qed.

Lemma homes_kept_frame st st' : Plane.worktrees st' = Plane.worktrees st -> homes_kept st st'.
Proof. intros E w. unfold home_of. by rewrite E. Qed.

Lemma homes_kept_trans st st1 st2 : homes_kept st st1 -> homes_kept st1 st2 -> homes_kept st st2.
Proof. intros H1 H2 w. by rewrite H2. Qed.

Lemma release_homes st w : own_inv st -> homes_kept st (releaseWorktree st w).
Proof.
  intros H j. unfold releaseWorktree, home_of.
  destruct (JsMap.get w (Plane.worktrees st)) as [wt|] eqn:E; [|done].
  match goal with |- context [persistWorktree _ ?x] => set (wt' := x) end.
  assert (Worktree.id wt' = w) as Hid by (unfold wt'; case_match; simpl; by apply (oe_wids _ _ H)).
  assert (home wt' = home wt) as Hh by (unfold wt'; by case_match).
  unfold persistWorktree. rewrite Hid. simpl. destruct (decide (j = w)) as [->|Hj].
  - rewrite JsMap.get_set_eq, E. simpl. by rewrite Hh.
  - by rewrite !JsMap.get_set_ne by done.
Qed.

(** In [st'] session [k] runs in the worktree of assignment [a], and frame [f] told the host of
    that worktree. *)
Definition placed (k : string) (st' : ControlPlaneState) (a : Assignment) (f : string * HostWireMessage) : Prop :=
  exists s' m,
    Session.id (publicRecord (assignedSession a)) = k /\
    JsMap.get k (Plane.sessions st') = Some s' /\
    Session.status s' = running /\ Session.worktreeId s' = Val (Worktree.id (assignedWorktree a)) /\
    Worktree.hostId (assignedWorktree a) = f.1 /\ Session.hostId s' = Val f.1 /\ Session.attemptId s' = Some (Assign.attemptId m) /\
    f.2 = msg_assign m /\ Assign.sessionId m = k /\
    Assign.worktreeId m = Some (Worktree.id (assignedWorktree a)).

(** How an attempt to place session [k] of repository [repo] may end. *)
Definition attempt_ok (k repo : string) (st : ControlPlaneState) (out : Attempt * ControlPlaneState) : Prop :=
  match out with
  | (attempt_none, st') => Plane.outbox st' = Plane.outbox st /\ claims_shrink st st' /\ homes_kept st st'
  | (attempt_assigned a, st') =>
      claims_shrink st st' /\
      exists f, Plane.outbox st' = (Plane.outbox st ++ [f])%list /\
        claimable st (Worktree.id (assignedWorktree a)) (f.1, repo) /\ placed k st' a f
  | (attempt_threw, _) => True
  end.

Lemma release_shrinks st st' w h : claimable st w h -> homes_kept st st' ->
  (forall j, j <> w -> JsMap.get j (Plane.worktrees st') = JsMap.get j (Plane.worktrees st)) ->
  own_inv st' -> claims_shrink st (releaseWorktree st' w).
Proof.
  intros Hc Hh He H j h' Hj'. pose proof (release_homes st' w H j) as Hr.
  destruct (decide (j = w)) as [->|Hj].
  { destruct Hj' as (v & Gv & _ & _ & <-), Hc as (wt & G & Hi & Ho & _). exists wt. split; [done|]. split; [done|].
    split; [done|]. rewrite (Hh w) in Hr. unfold home_of in Hr. rewrite Gv, G in Hr. symmetry. by apply (inj Some). }
  revert Hj'. clear Hr. unfold releaseWorktree, claimable.
  destruct (JsMap.get w (Plane.worktrees st')) as [wt|] eqn:E; [|by rewrite He].
  match goal with |- context [persistWorktree _ ?x] => set (wt' := x) end.
  assert (Worktree.id wt' = w) as Hid by (unfold wt'; case_match; simpl; by apply (oe_wids _ _ H)).
  unfold persistWorktree. rewrite Hid. simpl. rewrite !JsMap.get_set_ne by done. by rewrite He.
Qed.

Section assignment.
Context {LC : LocaleCompare} {DP : DateParse}.
Implicit Types (st : ControlPlaneState) (s : SessionRecord).

Lemma claim_spec st w k now st' :
  own_inv st -> tryClaimWorktree st w k now = (true, st') ->
  (exists h, home_of st w = Some h /\ claimable st w h) /\ claims_shrink st st' /\ homes_kept st st' /\ own_inv st' /\
  Plane.outbox st' = Plane.outbox st /\
  (forall j, j <> w -> JsMap.get j (Plane.worktrees st') = JsMap.get j (Plane.worktrees st)) /\
  exists wt, JsMap.get w (Plane.worktrees st') = Some wt.
Proof.
  intros H Hc. destruct (own_claim _ _ _ _ _ H Hc) as [H' (wt' & G' & B' & _)].
  destruct (claim_inv _ _ _ _ _ H Hc) as ((wt0 & G0 & Hi0 & Ho0) & _ & _ & Ew).
  split; [exists (home wt0); unfold home_of; rewrite G0; split; [done|by exists wt0]|].
  split; [|split; [|split; [done|split; [|split; [|by exists wt']]]]].
  - intros j h (wt & G & Hi & Ho & Hh). rewrite Ew in G. destruct (decide (w = j)) as [->|Hj].
    + rewrite G0 in G. simpl in G. simplify_eq.
    + by exists wt.
  - intros j. unfold home_of. rewrite Ew. destruct (decide (w = j)) as [->|Hj]; [|done]. by rewrite G0.
  - unfold tryClaimWorktree in Hc. repeat case_match; by simplify_eq.
  - intros j Hj. rewrite Ew. by rewrite decide_False by congruence.
Qed.

Lemma acquire_outbox st s a t h o c :
  Plane.outbox (tryAcquireProviderAccountLeaseLocal st s a t h o c).2 = Plane.outbox st.
Proof. unfold tryAcquireProviderAccountLeaseLocal. by repeat case_match. Qed.

Lemma touch_outbox st id at_ : Plane.outbox (touchAccount st id at_) = Plane.outbox st.
Proof. unfold touchAccount. by repeat case_match. Qed.

Lemma assign_message_fields st s w r nowIso attemptId argv outputs key logs :
  let m := assign_message st s w r nowIso attemptId argv outputs key logs in
  Assign.sessionId m = Session.id s /\ Assign.worktreeId m = Some (Worktree.id w) /\
  Assign.attemptId m = attemptId.
Proof. unfold assign_message, resumeWireFields. by repeat case_match. Qed.

Lemma assign_claimed_ok st st' s w r nowIso nowMs :
  own_inv st -> home_of st (Worktree.id w) = Some (home w) -> Worktree.repositoryId w = Session.repositoryId s ->
  tryClaimWorktree st (Worktree.id w) (Session.id s) nowIso = (true, st') ->
  attempt_ok (Session.id s) (Session.repositoryId s) st (assign_claimed st' s w r nowIso nowMs).
Proof.
  intros H Hw Hr Hc.
  destruct (claim_spec _ _ _ _ _ H Hc) as ((h & Eh & Hcl) & Hsh & Hho & H' & Eo & Hothers & wt' & G').
  rewrite Hw in Eh. injection Eh as <-.
  unfold assign_claimed, draw_attempt.
  set (st1 := st' <| Plane.attemptsDrawn := _ |>).
  match goal with |- context [if hostAdvertisesSessionSpawn ?a ?b then ?x else ?y] =>
    set (kst := if hostAdvertisesSessionSpawn a b then x else y) end.
  assert (own_frame st' kst.2 /\ Plane.outbox kst.2 = Plane.outbox st) as [F2 O2]
    by (unfold kst; by case_match).
  destruct kst as [key st2]. simpl in F2, O2.
  match goal with |- context [tryAcquireProviderAccountLeaseLocal st2 s ?a ?t ?h ?o ?c] =>
    pose proof (acquire_frame st2 s a t h o c) as F3;
    pose proof (acquire_outbox st2 s a t h o c) as O3;
    destruct (tryAcquireProviderAccountLeaseLocal st2 s a t h o c) as [lease st3] end.
  simpl in F3, O3. pose proof (own_frame_trans _ _ _ F2 F3) as [Fs Fw].
  destruct (is_some _ && negb _).
  - assert (own_inv st3) as H3 by by apply (own_except_frame None st').
    assert (homes_kept st st3) as Hh3 by (eapply homes_kept_trans; [exact Hho|by apply homes_kept_frame]).
    simpl. split; [unfold releaseWorktree; case_match; simpl; congruence|].
    split; [|eapply homes_kept_trans; [exact Hh3|by apply release_homes]].
    eapply release_shrinks; [exact Hcl|done| |done]. intros j Hj. rewrite Fw. by apply Hothers.
  - cbv zeta. match goal with |- context [update_session st3 _ ?x] => set (s1 := x) end.
    set (st4 := touchAccount (update_session st3 (Session.id s1) s1) (Target.providerAccountId r) nowIso).
    assert (own_frame (update_session st3 (Session.id s1) s1) st4) as [F4s F4w] by apply touchAccount_frame.
    assert (Plane.outbox st4 = Plane.outbox st) as O4 by (unfold st4; rewrite touch_outbox; simpl; congruence).
    set (st5 := st4 <| Plane.pendingAcks := _ |>).
    destruct (assignLogSettings st5) as [logs|]; [|done].
    assert (JsMap.get (Worktree.id w) (Plane.worktrees st5) = Some wt') as G5.
    { change (Plane.worktrees st5) with (Plane.worktrees st4). rewrite F4w. simpl. by rewrite Fw. }
    match goal with |- context [assign_message ?a ?b ?c ?d ?e ?f ?g ?h ?i ?j] =>
      pose proof (assign_message_fields a b c d e f g h i j) as (E1 & E2 & E3);
      set (m := assign_message a b c d e f g h i j) in * end.
    set (st6 := emit st5 (Worktree.hostId w) (msg_assign m)).
    change (Plane.worktrees st6) with (Plane.worktrees st5). rewrite G5. cbn [opt_or].
    assert (Worktree.id wt' = Worktree.id w) as Hid by (by apply (oe_wids _ _ H')).
    assert (home wt' = home w) as Hhome.
    { pose proof (Hho (Worktree.id w)) as E. rewrite Hw in E. unfold home_of in E. rewrite G' in E. by apply (inj Some). }
    split.
    + intros j h Hj. apply Hsh. destruct Hj as (v & Gv & Hv). exists v.
      change (Plane.worktrees st6) with (Plane.worktrees st4) in Gv. rewrite F4w in Gv. simpl in Gv.
      by rewrite <- Fw.
    + exists (Worktree.hostId w, msg_assign m). split.
      { change (Plane.outbox st6) with (Plane.outbox st4 ++ [(Worktree.hostId w, msg_assign m)])%list.
        by rewrite O4. }
      split; [cbn [assignedWorktree fst]; by rewrite Hid, <- Hr|].
      exists s1, m. split; [reflexivity|]. split.
      { change (Plane.sessions st6) with (Plane.sessions st4). rewrite F4s. simpl. apply JsMap.get_set_eq. }
      cbn [assignedWorktree]. rewrite Hid, E2, E3. injection Hhome as -> _. repeat split; [reflexivity..|exact E1].
Qed.

Lemma attempt_none_ok k repo st st' :
  Plane.outbox st' = Plane.outbox st -> Plane.worktrees st' = Plane.worktrees st ->
  attempt_ok k repo st (attempt_none, st').
Proof. intros Eo Ew. split; [done|]. split; [by apply claims_shrink_frame|by apply homes_kept_frame]. Qed.

(** An attempt that starts after a step which sent nothing. *)
Lemma attempt_ok_after k repo st st1 out :
  Plane.outbox st1 = Plane.outbox st -> claims_shrink st st1 -> homes_kept st st1 ->
  attempt_ok k repo st1 out -> attempt_ok k repo st out.
Proof.
  intros Eo Hs Hh. destruct out as [[|a|] st2]; simpl; [| |done].
  - intros (E2 & H2 & H3). split; [congruence|]. split; [intros w h Hw; by apply Hs, H2|]. by eapply homes_kept_trans.
  - intros (H2 & f & E2 & Hc & Hp). split; [intros w h Hw; by apply Hs, H2|].
    exists f. rewrite E2, Eo. split; [done|]. split; [by apply Hs|done].
Qed.

(** The candidates of a plan are stored worktrees of the session's repository. *)
Definition candidates_home st s (candidates : list (WorktreeRecord * ResolvedSessionRoute)) : Prop :=
  forall w r, In (w, r) candidates ->
    home_of st (Worktree.id w) = Some (home w) /\ Worktree.repositoryId w = Session.repositoryId s.

Lemma planned_home st catalog s nowMs candidates :
  own_inv st -> planPromptPlacement st catalog s nowMs = prompt_assign candidates -> candidates_home st s candidates.
Proof.
  intros H E w r Hin. pose proof (prompt_placement_exact st catalog s nowMs) as Hx. rewrite E in Hx.
  destruct Hx as [_ Hx]. apply Hx in Hin as (Hv & Hs & _).
  apply JsMap.In_values_get in Hv as (k & G); [|apply (oe_wwf _ _ H)].
  split; [unfold home_of; by rewrite (oe_wids _ _ H _ _ G), G|].
  unfold isSchedulableWorktree in Hs. rewrite !andb_true_iff in Hs. destruct Hs as [[[[Hs _] _] _] _]. by apply str_eqb_true.
Qed.

Lemma try_candidates_ok s nowIso nowMs candidates : forall st,
  own_inv st -> candidates_home st s candidates ->
  attempt_ok (Session.id s) (Session.repositoryId s) st (try_candidates st s nowIso nowMs candidates).
Proof.
  induction candidates as [|[w r] rest IH]; intros st H Hh; cbn [try_candidates];
    [by apply attempt_none_ok|].
  assert (candidates_home st s rest) as Hrest by (intros v q Hq; apply (Hh v q); by right).
  destruct (Hh w r (or_introl eq_refl)) as [Hw Hrepo].
  destruct (negb _ || negb _); [by apply IH|].
  destruct (tryClaimWorktree st (Worktree.id w) (Session.id s) nowIso) as [[] st1] eqn:Hc.
  - pose proof (assign_claimed_ok st st1 s w r nowIso nowMs H Hw Hrepo Hc) as Ha.
    pose proof (own_assign_claimed st st1 s w r nowIso nowMs H Hc) as [H2 _].
    destruct (assign_claimed st1 s w r nowIso nowMs) as [[|a|] st2]; simpl in Ha, H2; [|done|done].
    destruct Ha as (Eo & Hs & Hk). apply (attempt_ok_after _ _ st st2); [done|done|done|]. apply IH; [done|].
    intros v q Hq. destruct (Hrest v q Hq). split; [by rewrite Hk|done].
  - apply tryClaim_false in Hc as ->. by apply IH.
Qed.

Lemma assign_session_ok st catalog s nowIso nowMs :
  own_inv st -> JsMap.get (Session.id s) (Plane.sessions st) = Some s ->
  attempt_ok (Session.id s) (Session.repositoryId s) st (assign_session st catalog s nowIso nowMs).
Proof.
  intros H G. unfold assign_session.
  assert (forall st' s', own_inv st' -> Session.id s' = Session.id s -> Session.repositoryId s' = Session.repositoryId s ->
    Plane.outbox st' = Plane.outbox st -> Plane.worktrees st' = Plane.worktrees st ->
    attempt_ok (Session.id s) (Session.repositoryId s) st
      (match planPromptPlacement st' catalog s' nowMs with
       | prompt_expire => (attempt_none, expireQueuedLocal st' s' nowIso)
       | prompt_assign candidates => try_candidates st' s' nowIso nowMs candidates
       | _ => (attempt_none, st')
       end)) as Hgo.
  { intros st' s' H' Hid Hrepo Eo Ew. apply (attempt_ok_after _ _ st st'); [done|by apply claims_shrink_frame|by apply homes_kept_frame|].
    destruct (planPromptPlacement st' catalog s' nowMs) eqn:Ep; [by apply attempt_none_ok..|]. rewrite <- Hid, <- Hrepo.
    apply try_candidates_ok; [done|by eapply planned_home]. }
  pose proof (Hgo st s H eq_refl eq_refl eq_refl eq_refl) as Hsame.
  destruct (planPromptPlacement st catalog s nowMs) as [|reason| |candidates]; [exact Hsame|exact Hsame| |exact Hsame].
  cbv zeta. apply (Hgo _ (clearResumePin s)); [|done..]. by apply (own_update_same st (Session.id s) s).
Qed.

(** A whole pass: one frame per assignment, in order. *)
Definition pass_ok (st st' : ControlPlaneState) (queue : list SessionRecord) (assigned : list Assignment) : Prop :=
  exists frames,
    Plane.outbox st' = (Plane.outbox st ++ frames)%list /\
    Forall2 (fun a f => exists s, In s queue /\ claimable st (Worktree.id (assignedWorktree a)) (f.1, Session.repositoryId s) /\
                          placed (Session.id s) st' a f) assigned frames.

Lemma assign_loop_ok catalog sessionId nowIso nowMs queue : forall st assigned st',
  own_inv st -> queue_ok st queue ->
  assign_loop st catalog sessionId nowIso nowMs queue = (Some assigned, st') ->
  pass_ok st st' queue assigned /\
  (forall j, ~ In j (map Session.id queue) ->
     JsMap.get j (Plane.sessions st') = JsMap.get j (Plane.sessions st)) /\
  List.NoDup (map (fun a => Session.id (publicRecord (assignedSession a))) assigned) /\
  forall a, In a assigned -> In (Session.id (publicRecord (assignedSession a))) (map Session.id queue).
Proof.
  induction queue as [|s queue IH]; intros st assigned st' H Hq; cbn [assign_loop].
  { intros [= <- <-]. split; [|split; [done|split; [constructor|done]]].
    exists []. split; [by rewrite app_nil_r|constructor]. }
  assert (queue_ok st queue) as Hq0 by (eapply queue_ok_step; [done|apply only_session_refl]).
  assert (~ In (Session.id s) (map Session.id queue)) as Hs by (destruct Hq as [Hnd _]; by inversion Hnd).
  assert (forall st1 assigned1, own_inv st1 -> queue_ok st1 queue -> claims_shrink st st1 ->
    only_session (Session.id s) st st1 ->
    assign_loop st1 catalog sessionId nowIso nowMs queue = (Some assigned1, st') ->
    exists frames, Plane.outbox st' = (Plane.outbox st1 ++ frames)%list /\
      Forall2 (fun a f => exists s0, In s0 (s :: queue) /\
                            claimable st (Worktree.id (assignedWorktree a)) (f.1, Session.repositoryId s0) /\
                            placed (Session.id s0) st' a f) assigned1 frames /\
      (forall j, ~ In j (map Session.id queue) ->
         JsMap.get j (Plane.sessions st') = JsMap.get j (Plane.sessions st1)) /\
      List.NoDup (map (fun a => Session.id (publicRecord (assignedSession a))) assigned1) /\
      forall a, In a assigned1 -> In (Session.id (publicRecord (assignedSession a))) (map Session.id queue)) as Hrest.
  { intros st1 assigned1 H1 Hq1 Hs1 Ho1 E.
    destruct (IH st1 assigned1 st' H1 Hq1 E) as ((frames & Eo & Hf) & Hot & Hnd & Hin).
    exists frames. split; [done|]. split; [|done].
    eapply Forall2_impl; [exact Hf|]. intros a f (s0 & Hs0 & Hc & Hp).
    exists s0. split; [by right|]. split; [by apply Hs1|done]. }
  destruct (match sessionId with Some id => _ | None => false end).
  { intros E. destruct (Hrest st assigned H Hq0) as (frames & Eo & Hf & Hot & Hnd & Hin);
      [by apply claims_shrink_frame|apply only_session_refl|done|].
    split; [by exists frames|]. split; [|split; [done|]].
    - intros j Hj. apply Hot. simpl in Hj. tauto.
    - intros a Ha. right. by apply Hin. }
  pose proof (assign_session_ok st catalog s nowIso nowMs H) as Ha.
  destruct (own_assign_session st catalog s nowIso nowMs H) as [H1 O1]; [apply Hq; by left|].
  specialize (Ha (proj2 Hq s (or_introl eq_refl))). pose proof (queue_ok_step _ _ _ _ Hq O1) as Hq1.
  destruct (assign_session st catalog s nowIso nowMs) as [[|a|] st1]; simpl in Ha, H1, O1, Hq1; [| |done].
  - destruct Ha as (Eo & Hs1 & _). intros E.
    destruct (Hrest st1 assigned H1 Hq1 Hs1 O1 E) as (frames & Eo' & Hf & Hot & Hnd & Hin).
    split; [exists frames; by rewrite Eo', Eo|]. split; [|split; [done|]].
    + intros j Hj. simpl in Hj. rewrite Hot by tauto. apply O1. naive_solver.
    + intros a Ha. right. by apply Hin.
  - destruct Ha as (Hs1 & f & Eo & Hc & Hp).
    destruct (assign_loop st1 catalog sessionId nowIso nowMs queue) as [[more|] st2] eqn:E; [|done].
    intros [= <- <-].
    destruct (Hrest st1 more H1 Hq1 Hs1 O1 E) as (frames & Eo' & Hf & Hot & Hnd & Hin).
    assert (Session.id (publicRecord (assignedSession a)) = Session.id s) as Hida by (by destruct Hp as (? & ? & -> & _)).
    split; [|split; [|split]].
    + exists (f :: frames). split; [rewrite Eo', Eo, <- (assoc_L (++)%list); done|].
      constructor; [|done]. exists s. split; [by left|]. split; [done|].
      destruct Hp as (s' & m & E1 & E2 & Hp). exists s', m. split; [done|]. by rewrite Hot.
    + intros j Hj. simpl in Hj. rewrite Hot by tauto. apply O1. naive_solver.
    + simpl. constructor; [|done]. rewrite Hida. intros Hx. apply in_map_iff in Hx as (b & Eb & Hb).
      apply Hs. rewrite <- Eb. by apply Hin.
    + intros b [<-|Hb]; [left; by rewrite Hida|right; by apply Hin].
Qed.

Context {LL : LocaleCompareLaws LC}.

(** [C3] An assignment pass is sound.  From a state whose sessions and worktrees are filed under
    their ids and agree on who holds what, every assignment the pass reports took a queued prompt
    session and a stored worktree of the session's repository that was idle and online when the
    pass began; the session now runs there, and the pass sent exactly one [session:assign] frame
    for it, to the host of that worktree and in order, naming that session, worktree and attempt;
    no session is assigned twice. *)
Theorem assignment_pass_sound st sessionId assigned st' :
  own_inv st -> assignQueued st sessionId = (Some assigned, st') ->
  exists frames,
    Plane.outbox st' = (Plane.outbox st ++ frames)%list /\
    List.NoDup (map (fun a => Session.id (publicRecord (assignedSession a))) assigned) /\
    Forall2 (fun a f => exists s,
      JsMap.get (Session.id s) (Plane.sessions st) = Some s /\
      Session.status s = queued /\ scheduleKind s = prompt_kind /\
      claimable st (Worktree.id (assignedWorktree a)) (f.1, Session.repositoryId s) /\
      placed (Session.id s) st' a f) assigned frames.
Proof.
  intros H E. pose proof (queue_ok_ordered st (Plane.shardCount st) prompt_kind H) as Hq.
  destruct (assign_loop_ok _ _ _ _ _ st assigned st' H Hq E) as ((frames & Eo & Hf) & _ & Hnd & _).
  exists frames. split; [done|]. split; [done|]. eapply Forall2_impl; [exact Hf|].
  intros a f (s & Hs & Hc & Hp). exists s. split; [by apply Hq|].
  destruct (queue_members _ _ _ _ Hs). done.
Qed.
End assignment.

(** ** The acknowledgement sweep *)

(** The assignment of session [k] is overdue and still the session's current one. *)
Definition overdue (st : ControlPlaneState) (nowMs : Z) (k : string) (p : PendingAck) (s : SessionRecord) : Prop :=
  JsMap.get k (Plane.pendingAcks st) = Some p /\ ack_not_due st nowMs p = false /\
  JsMap.get k (Plane.sessions st) = Some s /\ awaits_ack s p = true.

(** The session is back in the queue and holds nothing. *)
Definition back_in_queue (s : SessionRecord) : Prop :=
  Session.status s = queued /\ Session.worktreeId s = Null /\ Session.hostId s = Null /\
  Session.providerAccountLease s = None /\ Session.startedAt s = None /\ Session.sessionApiKeyHash s = None.

Lemma release_account_fields st s :
  Session.providerAccountLease (releaseProviderAccountLease st s).2 = None.
Proof. unfold releaseProviderAccountLease. by destruct (Session.providerAccountLease s) eqn:E; simpl. Qed.

Lemma release_account_other st s :
  let st' := (releaseProviderAccountLease st s).1 in
  Plane.sessions st' = Plane.sessions st /\ Plane.pendingAcks st' = Plane.pendingAcks st /\
  Plane.ackDeadlineMs st' = Plane.ackDeadlineMs st /\ Plane.workspaceSlots st' = Plane.workspaceSlots st /\
  Plane.worktrees st' = Plane.worktrees st.
Proof. unfold releaseProviderAccountLease, releaseProviderAccountLeaseLocal. by repeat case_match. Qed.

Lemma release_worktree_other st w :
  let st' := releaseWorktree st w in
  Plane.sessions st' = Plane.sessions st /\ Plane.pendingAcks st' = Plane.pendingAcks st /\
  Plane.ackDeadlineMs st' = Plane.ackDeadlineMs st /\ Plane.workspaceSlots st' = Plane.workspaceSlots st.
Proof. unfold releaseWorktree. by case_match. Qed.

Lemma release_checkout_other st s :
  let st' := (releaseScheduledLeaseLocal st s).2 in
  Plane.sessions st' = Plane.sessions st /\ Plane.pendingAcks st' = Plane.pendingAcks st /\
  Plane.ackDeadlineMs st' = Plane.ackDeadlineMs st /\ Plane.workspaceSlots st' = Plane.workspaceSlots st.
Proof. unfold releaseScheduledLeaseLocal. by repeat case_match. Qed.

(** What requeueing an unacknowledged session leaves behind. *)
Lemma requeue_unacked_spec st k s p :
  let st' := requeue_unacked st k s p in
  (exists s', Plane.sessions st' = JsMap.set k s' (Plane.sessions st) /\ back_in_queue s' /\
     (truthy_opt (Ack.worktreeId p) = None -> Session.workspaceSlotId s' = Null)) /\
  Plane.pendingAcks st' = Plane.pendingAcks st /\ Plane.ackDeadlineMs st' = Plane.ackDeadlineMs st /\
  Plane.workspaceSlots st' = Plane.workspaceSlots st.
Proof.
  unfold requeue_unacked. destruct (truthy_opt (Ack.worktreeId p)) as [w|].
  - pose proof (release_account_fields (releaseWorktree st w) s) as E.
    destruct (release_account_other (releaseWorktree st w) s) as (E1 & E2 & E3 & E4 & _).
    destruct (release_worktree_other st w) as (F1 & F2 & F3 & F4).
    destruct (releaseProviderAccountLease (releaseWorktree st w) s) as [st1 s1]. simpl in *.
    split; [|split; [congruence|split; congruence]].
    eexists. split; [by rewrite E1, F1|]. split; [|done]. by repeat split.
  - pose proof (release_account_fields (releaseScheduledLeaseLocal st s).2 s) as E.
    destruct (release_account_other (releaseScheduledLeaseLocal st s).2 s) as (E1 & E2 & E3 & E4 & _).
    destruct (release_checkout_other st s) as (F1 & F2 & F3 & F4).
    destruct (releaseProviderAccountLease (releaseScheduledLeaseLocal st s).2 s) as [st1 s1]. simpl in *.
    split; [|split; [congruence|split; congruence]].
    eexists. split; [by rewrite E1, F1|]. split; [|done]. by repeat split.
Qed.

(** One step of the sweep, at its own key. *)
Lemma enforce_ack_spec st nowMs k p :
  JsMap.get k (Plane.pendingAcks st) = Some p ->
  exists out st', enforce_ack nowMs st k p = (Some out, st') /\
    Plane.ackDeadlineMs st' = Plane.ackDeadlineMs st /\
    Plane.workspaceSlots st' = Plane.workspaceSlots st /\
    (forall j, j <> k -> JsMap.get j (Plane.pendingAcks st') = JsMap.get j (Plane.pendingAcks st) /\
                        JsMap.get j (Plane.sessions st') = JsMap.get j (Plane.sessions st)) /\
    JsMap.get k (Plane.pendingAcks st') = (if ack_not_due st nowMs p then Some p else None) /\
    ((exists s s', overdue st nowMs k p s /\ out = [k] /\ JsMap.get k (Plane.sessions st') = Some s' /\
        back_in_queue s' /\ (truthy_opt (Ack.worktreeId p) = None -> Session.workspaceSlotId s' = Null)) \/
     ((forall s, ~ overdue st nowMs k p s) /\ out = [] /\
        JsMap.get k (Plane.sessions st') = JsMap.get k (Plane.sessions st))).
Proof.
  intros Gp. unfold enforce_ack. destruct (ack_not_due st nowMs p) eqn:Hd.
  { exists [], st. repeat split; try done. right. repeat split; try done.
    intros s (_ & Hd' & _). congruence. }
  assert (forall st1, Plane.ackDeadlineMs st1 = Plane.ackDeadlineMs st ->
    Plane.workspaceSlots st1 = Plane.workspaceSlots st ->
    Plane.pendingAcks st1 = Plane.pendingAcks st ->
    (forall j, j <> k -> JsMap.get j (Plane.pendingAcks (forget_ack st1 k)) = JsMap.get j (Plane.pendingAcks st)) /\
    JsMap.get k (Plane.pendingAcks (forget_ack st1 k)) = None) as Hforget.
  { intros st1 _ _ E. simpl. rewrite E. split; [|apply JsMap.get_delete_eq].
    intros j Hj. by apply JsMap.get_delete_ne. }
  destruct (JsMap.get k (Plane.sessions st)) as [s|] eqn:Gs.
  - destruct (awaits_ack s p) eqn:Hw.
    + destruct (requeue_unacked_spec st k s p) as ((s' & Es & Hb & Hsl) & Ep & Ea & Ew).
      destruct (Hforget (requeue_unacked st k s p)) as [Hf1 Hf2]; [done..|].
      eexists _, _. split; [done|]. split; [done|]. split; [done|]. split; [|split; [done|]].
      * intros j Hj. split; [by apply Hf1|]. simpl. rewrite Es. by apply JsMap.get_set_ne.
      * left. exists s, s'. split; [done|]. split; [done|]. split; [|done].
        simpl. rewrite Es. apply JsMap.get_set_eq.
    + destruct (Hforget st) as [Hf1 Hf2]; [done..|].
      eexists _, _. split; [done|]. repeat split; try done; [by apply Hf1|].
      right. repeat split; try done. intros s0 (_ & _ & Gs' & Hw'). congruence.
  - destruct (Hforget st) as [Hf1 Hf2]; [done..|].
    eexists _, _. split; [done|]. repeat split; try done; [by apply Hf1|].
    right. repeat split; try done. intros s0 (_ & _ & Gs' & _). congruence.
Qed.

(** The outcome of the sweep for session [j]. *)
Record swept (nowMs : Z) (st st' : ControlPlaneState) (out : list string) (j : string) : Prop := {
  sw_pending : JsMap.get j (Plane.pendingAcks st') =
    match JsMap.get j (Plane.pendingAcks st) with
    | Some p => if ack_not_due st nowMs p then Some p else None
    | None => None
    end;
  sw_session :
    (exists p s s', overdue st nowMs j p s /\ In j out /\ JsMap.get j (Plane.sessions st') = Some s' /\
       back_in_queue s' /\ (truthy_opt (Ack.worktreeId p) = None -> Session.workspaceSlotId s' = Null)) \/
    ((forall p s, ~ overdue st nowMs j p s) /\ ~ In j out /\
       JsMap.get j (Plane.sessions st') = JsMap.get j (Plane.sessions st));
}.

(** The states agree on what the sweep reads for session [j]. *)
Definition same_ack (st st1 : ControlPlaneState) (j : string) : Prop :=
  Plane.ackDeadlineMs st1 = Plane.ackDeadlineMs st /\
  JsMap.get j (Plane.pendingAcks st1) = JsMap.get j (Plane.pendingAcks st) /\
  JsMap.get j (Plane.sessions st1) = JsMap.get j (Plane.sessions st).

Lemma ack_not_due_same st st1 nowMs p :
  Plane.ackDeadlineMs st1 = Plane.ackDeadlineMs st -> ack_not_due st1 nowMs p = ack_not_due st nowMs p.
Proof. intros E. unfold ack_not_due. by rewrite E. Qed.

Lemma overdue_same st st1 nowMs j p s :
  same_ack st st1 j -> overdue st1 nowMs j p s <-> overdue st nowMs j p s.
Proof.
  intros (E1 & E2 & E3). unfold overdue. by rewrite E2, E3, (ack_not_due_same st st1) by done.
Qed.

Lemma swept_before nowMs st st1 st' out out' j :
  same_ack st st1 j -> (In j out' <-> In j out) -> swept nowMs st1 st' out j -> swept nowMs st st' out' j.
Proof.
  intros Hsame Hout [Hp Hs]. destruct (Hsame) as (E1 & E2 & E3). split.
  - rewrite Hp, E2. destruct (JsMap.get j (Plane.pendingAcks st)) as [p|]; [|done].
    by rewrite (ack_not_due_same st st1) by done.
  - destruct Hs as [(p & s & s' & Ho & Hin & H)|(Ho & Hin & H)].
    + left. exists p, s, s'. rewrite <- (overdue_same st st1) by done. by rewrite Hout.
    + right. split; [|split; [by rewrite Hout|congruence]].
      intros p s. rewrite <- (overdue_same st st1) by done. apply Ho.
Qed.

(** A later step leaves what was swept before it. *)
Lemma swept_after nowMs st st1 st' out out' j :
  same_ack st1 st' j -> (In j out' <-> In j out) -> swept nowMs st st1 out j -> swept nowMs st st' out' j.
Proof.
  intros (E1 & E2 & E3) Hout [Hp Hs]. split; [congruence|].
  destruct Hs as [(p & s & s' & Ho & Hin & Hg & H)|(Ho & Hin & H)].
  - left. exists p, s, s'. rewrite Hout, E3. done.
  - right. rewrite Hout, E3. done.
Qed.

Lemma ack_sweep_loop nowMs keys : List.NoDup keys -> forall st,
  exists out st', for_each Plane.pendingAcks (enforce_ack nowMs) keys st = (Some out, st') /\
    Plane.ackDeadlineMs st' = Plane.ackDeadlineMs st /\
    Plane.workspaceSlots st' = Plane.workspaceSlots st /\
    (forall j, ~ In j keys -> same_ack st st' j) /\
    (forall j, In j out -> In j keys) /\
    (forall j, In j keys -> swept nowMs st st' out j).
Proof.
  induction keys as [|k keys IH]; intros Hnd st; cbn [for_each].
  { exists [], st. repeat split; done. }
  inversion Hnd as [|? ? Hk Hnd']; subst.
  destruct (JsMap.get k (Plane.pendingAcks st)) as [p|] eqn:Gp.
  - destruct (enforce_ack_spec st nowMs k p Gp)
      as (out1 & st1 & -> & Ea & Ew & Hother & Hpk & Hsk).
    destruct (IH Hnd' st1) as (out2 & st2 & -> & Ea2 & Ew2 & Hother2 & Hin2 & Hsw2).
    assert (forall j, j <> k -> same_ack st st1 j) as Hsame1.
    { intros j Hj. destruct (Hother j Hj). done. }
    assert (forall j, In j out1 -> j = k) as Hout1.
    { intros j Hj. destruct Hsk as [(? & ? & _ & -> & _)|(_ & -> & _)]; simpl in Hj; naive_solver. }
    exists (out1 ++ out2)%list, st2. split; [done|]. split; [congruence|]. split; [congruence|].
    split; [|split].
    + intros j Hj. simpl in Hj. destruct (Hother2 j) as (F1 & F2 & F3); [tauto|].
      destruct (Hsame1 j) as (G1 & G2 & G3); [naive_solver|]. repeat split; congruence.
    + intros j Hj. apply in_app_iff in Hj as [Hj|Hj]; [left; by symmetry; apply Hout1|right; by apply Hin2].
    + intros j [<-|Hj].
      * apply (swept_after nowMs st st1 st2 out1); [by apply Hother2| |].
        { rewrite in_app_iff. split; [|by left]. intros [|Hx]; [done|]. by apply Hin2 in Hx. }
        split; [by rewrite Gp|]. destruct Hsk as [(s & s' & Ho & -> & H)|(Ho & -> & H)].
        { left. exists p, s, s'. split; [done|]. split; [by left|done]. }
        right. split; [|split; [simpl; tauto|done]]. intros p' s' Ho'.
        assert (p' = p) as -> by (destruct Ho' as [Gp' _]; congruence). by apply (Ho s').
      * assert (j <> k) as Hjk by (intros ->; done).
        apply (swept_before nowMs st st1 st2 out2); [by apply Hsame1| |by apply Hsw2].
        rewrite in_app_iff. split; [|by right]. intros [Hx|]; [|done]. by apply Hout1 in Hx.
  - destruct (IH Hnd' st) as (out2 & st2 & -> & Ea2 & Ew2 & Hother2 & Hin2 & Hsw2).
    exists out2, st2. split; [done|]. split; [done|]. split; [done|]. split; [|split].
    + intros j Hj. apply Hother2. simpl in Hj. tauto.
    + intros j Hj. right. by apply Hin2.
    + intros j [<-|Hj]; [|by apply Hsw2].
      destruct (Hother2 k Hk) as (F1 & F2 & F3). split; [by rewrite F2, Gp|].
      right. split; [intros p s (Gp' & _); congruence|]. split; [|done]. intros Hx. by apply Hin2 in Hx.
Qed.

Lemma ack_sweep st nowMs : JsMap.wf (Plane.pendingAcks st) ->
  exists out st', enforceAckDeadlines st nowMs = (Some out, st') /\
    Plane.workspaceSlots st' = Plane.workspaceSlots st /\ forall j, swept nowMs st st' out j.
Proof.
  intros Hwf. destruct (ack_sweep_loop nowMs (JsMap.keys (Plane.pendingAcks st))) with (st := st)
    as (out & st' & E & _ & Ew & Hother & Hin & Hsw); [by apply NoDup_ListNoDup|].
  exists out, st'. split; [done|]. split; [done|]. intros j.
  destruct (in_dec String.string_dec j (JsMap.keys (Plane.pendingAcks st))) as [Hj|Hj]; [by apply Hsw|].
  destruct (Hother j Hj) as (F1 & F2 & F3).
  assert (JsMap.get j (Plane.pendingAcks st) = None) as Gp.
  { destruct (JsMap.get j (Plane.pendingAcks st)) as [p|] eqn:G; [|done].
    destruct Hj. apply JsMap.get_In, JsMap.In_keys in G. done. }
  split; [by rewrite F2, Gp|]. right.
  split; [intros p s (Gp' & _); congruence|]. split; [|done]. intros Hx. by apply Hj, Hin.
Qed.

(** [C6] The acknowledgement sweep: it always completes; it requeues exactly the
    sessions whose assignment is overdue and still current, and leaves them
    queued without worktree, host, account lease or credential; every other
    session is untouched, and only assignments that are not yet due stay
    pending. *)
Theorem ack_sweep_exact st nowMs :
  JsMap.wf (Plane.pendingAcks st) ->
  exists requeued st', enforceAckDeadlines st nowMs = (Some requeued, st') /\
    (forall k, In k requeued <-> exists p s, overdue st nowMs k p s) /\
    (forall k s, In k requeued -> JsMap.get k (Plane.sessions st') = Some s -> back_in_queue s) /\
    (forall k, ~ In k requeued -> JsMap.get k (Plane.sessions st') = JsMap.get k (Plane.sessions st)) /\
    (forall k p, JsMap.get k (Plane.pendingAcks st') = Some p <->
       JsMap.get k (Plane.pendingAcks st) = Some p /\ ack_not_due st nowMs p = true).
Proof.
  intros Hwf. destruct (ack_sweep st nowMs Hwf) as (out & st' & E & _ & Hsw).
  exists out, st'. split; [done|]. split; [|split; [|split]].
  - intros k. destruct (Hsw k) as [_ [(p & s & s' & Ho & Hin & _)|(Ho & Hin & _)]]; naive_solver.
  - intros k s Hin G. destruct (Hsw k) as [_ [(p & s0 & s' & _ & _ & G' & Hb & _)|(_ & Hn & _)]]; [|done].
    congruence.
  - intros k Hn. by destruct (Hsw k) as [_ [(p & s & s' & _ & Hin & _)|(_ & _ & ?)]].
  - intros k p. destruct (Hsw k) as [-> _].
    destruct (JsMap.get k (Plane.pendingAcks st)) as [p'|]; [|naive_solver].
    destruct (ack_not_due st nowMs p') eqn:Hd; naive_solver congruence.
Qed.

(** An overdue workspace assignment leaks its slot: the sweep requeues the
    session and clears its slot, but the slot record stays as it was, busy with
    a session that no longer names it. *)
Theorem ack_sweep_leaks_slot st nowMs k p s :
  JsMap.wf (Plane.pendingAcks st) -> overdue st nowMs k p s -> Ack.worktreeId p = None ->
  let st' := (enforceAckDeadlines st nowMs).2 in
  Plane.workspaceSlots st' = Plane.workspaceSlots st /\
  exists s', JsMap.get k (Plane.sessions st') = Some s' /\ Session.status s' = queued /\
    Session.workspaceSlotId s' = Null.
Proof.
  intros Hwf Ho Hn. destruct (ack_sweep st nowMs Hwf) as (out & st' & -> & Ew & Hsw). simpl.
  split; [done|]. destruct (Hsw k) as [_ [(p' & s0 & s' & Ho' & _ & G & Hb & Hslot)|(Hno & _)]];
    [|by destruct (Hno p s)].
  assert (p' = p) as -> by (destruct Ho as [G1 _], Ho' as [G2 _]; congruence).
  exists s'. rewrite Hn in Hslot. destruct Hb as [Hq _]. split; [done|]. split; [done|]. by apply Hslot.
Qed.

(** ** The running-timeout sweep *)

(** Session [s], found under its own id, after its timeout. *)
Definition timed_out_record (s' : SessionRecord) : Prop :=
  Session.status s' = timed_out /\ Session.worktreeId s' = Null /\ Session.hostId s' = Null.

(** Nobody owns worktree [w], and it can be claimed again when online. *)
Definition vacated (st : ControlPlaneState) (w : string) : Prop :=
  exists wt, JsMap.get w (Plane.worktrees st) = Some wt /\ Worktree.status wt = idle /\
    Worktree.currentSessionId wt = Null.

Lemma release_worktree_idle st w wt :
  JsMap.get w (Plane.worktrees st) = Some wt -> Worktree.id wt = w -> vacated (releaseWorktree st w) w.
Proof.
  intros G Hid. unfold releaseWorktree. rewrite G.
  match goal with |- context [persistWorktree _ ?x] => set (wt1 := x) end.
  exists wt1. assert (Worktree.id wt1 = w) as Hw by (unfold wt1; by case_match).
  unfold persistWorktree. rewrite Hw. simpl. rewrite JsMap.get_set_eq. split; [done|].
  unfold wt1. by case_match.
Qed.

Lemma release_worktree_frame st w j :
  (forall wt, JsMap.get w (Plane.worktrees st) = Some wt -> Worktree.id wt = w) -> j <> w ->
  JsMap.get j (Plane.worktrees (releaseWorktree st w)) = JsMap.get j (Plane.worktrees st).
Proof.
  intros Hid Hj. unfold releaseWorktree. destruct (JsMap.get w (Plane.worktrees st)) as [wt|]; [|done].
  match goal with |- context [persistWorktree _ ?x] => set (wt1 := x) end.
  assert (Worktree.id wt1 = w) as Hw by (specialize (Hid wt eq_refl); unfold wt1; by case_match).
  unfold persistWorktree. rewrite Hw. simpl. by rewrite !JsMap.get_set_ne by done.
Qed.

(** A release on behalf of [k] spares every worktree [k] does not own. *)
Lemma release_if_owner_spares st w k j wt :
  (forall j wt, JsMap.get j (Plane.worktrees st) = Some wt -> Worktree.id wt = j) ->
  JsMap.get j (Plane.worktrees st) = Some wt -> Worktree.currentSessionId wt <> Val k ->
  JsMap.get j (Plane.worktrees (release_if_owner st w k)) = Some wt.
Proof.
  intros Hid G Hc. unfold release_if_owner. destruct (JsMap.get w (Plane.worktrees st)) as [v|] eqn:Gw; [|done].
  case_bool_decide as Hv; [|done]. assert (j <> w) by congruence.
  rewrite release_worktree_frame; [done| |done]. intros x Gx. by apply (Hid w).
Qed.

Lemma release_slot_other st s :
  let '(st', s') := releaseWorkspaceSlot st s in
  Plane.sessions st' = Plane.sessions st /\ Plane.worktrees st' = Plane.worktrees st /\
  Session.id s' = Session.id s /\ Session.status s' = Session.status s.
Proof.
  unfold releaseWorkspaceSlot. destruct (truthy_nul (Session.workspaceSlotId s)) as [id|]; [|done].
  destruct (JsMap.get id (Plane.workspaceSlots st)) as [slot|]; [case_bool_decide|]; done.
Qed.

(** What the three-way release changes. *)
Lemma release_timed_out_spec st s :
  (forall j wt, JsMap.get j (Plane.worktrees st) = Some wt -> Worktree.id wt = j) ->
  let '(st', s') := release_timed_out st s in
  Plane.sessions st' = Plane.sessions st /\ Session.id s' = Session.id s /\
  Session.status s' = Session.status s /\
  (forall j wt, JsMap.get j (Plane.worktrees st) = Some wt ->
     Worktree.currentSessionId wt <> Val (Session.id s) -> JsMap.get j (Plane.worktrees st') = Some wt) /\
  (forall w wt, is_true_opt (Session.mainCheckoutLease s) = false -> Session.worktreeId s = Val w -> w <> "" ->
     JsMap.get w (Plane.worktrees st) = Some wt ->
     Worktree.currentSessionId wt = Val (Session.id s) -> vacated st' w).
Proof.
  intros Hid. unfold release_timed_out. destruct (is_true_opt (Session.mainCheckoutLease s)) eqn:Hm.
  - unfold releaseScheduledLeaseLocal. repeat case_match; (repeat split; [done..|discriminate]).
  - destruct (truthy_nul (Session.worktreeId s)) as [v|] eqn:Tv.
    + apply truthy_nul_Some in Tv as [Ev _]. split; [|split; [done|split; [done|split]]].
      * unfold release_if_owner, releaseWorktree. by repeat case_match.
      * intros j wt G Hc. by apply release_if_owner_spares.
      * intros w wt _ Ew _ G Hc. assert (v = w) as -> by congruence.
        unfold release_if_owner. rewrite G, bool_decide_true by done.
        by apply (release_worktree_idle st w wt); [|apply Hid].
    + pose proof (release_slot_other st s) as Hs. destruct (releaseWorkspaceSlot st s) as [st' s'].
      destruct Hs as (E1 & E2 & E3 & E4). rewrite E2. repeat split; [done..|].
      intros w wt _ Ew Hne. assert (truthy_nul (Session.worktreeId s) = Some w) by (by apply truthy_nul_Some).
      congruence.
Qed.

Lemma persistence_timed_out s : timed_out_record s -> timed_out_record (sessionForPersistence s).
Proof.
  unfold sessionForPersistence. by destruct (retainsActiveHostClaim s); case_bool_decide.
Qed.

(** The effect of timing out one session on every session and worktree. *)
Lemma time_out_spec st k s :
  (forall j wt, JsMap.get j (Plane.worktrees st) = Some wt -> Worktree.id wt = j) -> Session.id s = k ->
  let st' := timeOutAcknowledgedSession st s in
  (exists s', JsMap.get k (Plane.sessions st') = Some s' /\ timed_out_record s') /\
  (forall j, j <> k -> JsMap.get j (Plane.sessions st') = JsMap.get j (Plane.sessions st)) /\
  (forall j wt, JsMap.get j (Plane.worktrees st) = Some wt -> Worktree.currentSessionId wt <> Val k ->
     JsMap.get j (Plane.worktrees st') = Some wt) /\
  (forall w wt, is_true_opt (Session.mainCheckoutLease s) = false -> Session.worktreeId s = Val w -> w <> "" ->
     JsMap.get w (Plane.worktrees st) = Some wt -> Worktree.currentSessionId wt = Val k -> vacated st' w).
Proof.
  intros Hid Hk. unfold timeOutAcknowledgedSession. cbv zeta.
  match goal with |- context [release_timed_out ?x ?y] =>
    pose proof (release_timed_out_spec x y) as Hr;
    assert (Plane.worktrees x = Plane.worktrees st /\ Plane.sessions x = Plane.sessions st /\
            Session.status y = timed_out) as (Ew & Es & Ey) by (by case_match);
    destruct (release_timed_out x y) as [st1 s1] end.
  rewrite Ew, Es in Hr. specialize (Hr Hid). destruct Hr as (E1 & E2 & E3 & H4 & H5).
  rewrite Ey in E3. change (Session.id s1 = Session.id s) in E2.
  unfold queueSessionArchive, persistSession, update_session.
  match goal with |- context [sessionForPersistence ?x] => set (s2 := x) end.
  assert (Session.id s2 = k) as -> by (unfold s2; simpl; congruence).
  assert (timed_out_record (sessionForPersistence s2)) as H2.
  { apply persistence_timed_out. split; [exact E3|]. split; reflexivity. }
  rewrite <- Hk in *. cbn [Plane.sessions Plane.worktrees]. split; [|split; [|split]].
  - eexists. split; [apply JsMap.get_set_eq|exact H2].
  - intros j Hj. simpl. rewrite E1. by apply JsMap.get_set_ne.
  - exact H4.
  - intros w wt A1 A2 A3 A4 A5. exact (H5 w wt A1 A2 A3 A4 A5).
Qed.

Section timeouts.
Context {DP : DateParse}.

(** The session under [k] has outrun its timeout. *)
Definition overran (st : ControlPlaneState) (nowMs : Z) (k : string) (s : SessionRecord) : Prop :=
  JsMap.get k (Plane.sessions st) = Some s /\ isAcknowledgedRunningDue s nowMs = true.

(** The outcome of the sweep for session [j]. *)
Record timed (nowMs : Z) (st st' : ControlPlaneState) (out : list string) (j : string) : Prop := {
  td_in : In j out <-> exists s, overran st nowMs j s;
  td_session : forall s, overran st nowMs j s ->
    exists s', JsMap.get j (Plane.sessions st') = Some s' /\ timed_out_record s';
  td_worktree : forall s w, overran st nowMs j s -> is_true_opt (Session.mainCheckoutLease s) = false ->
    Session.worktreeId s = Val w -> w <> "" -> vacated st' w;
}.

(** Timing out the sessions [out] leaves the other ones, and their worktrees, alone. *)
Definition sweep_spares (st st' : ControlPlaneState) (out : list string) : Prop :=
  (forall j, ~ In j out -> JsMap.get j (Plane.sessions st') = JsMap.get j (Plane.sessions st)) /\
  (forall w wt, JsMap.get w (Plane.worktrees st) = Some wt ->
     (forall k, In k out -> Worktree.currentSessionId wt <> Val k) ->
     JsMap.get w (Plane.worktrees st') = Some wt).

Definition time_out_one (nowMs : Z) (st : ControlPlaneState) (_ : string) (s : SessionRecord)
    : option (list string) * ControlPlaneState :=
  if isAcknowledgedRunningDue s nowMs
  then (Some [Session.id s], timeOutAcknowledgedSession st s) else (Some [], st).

Lemma timed_none nowMs st st' out j :
  (forall s, ~ overran st nowMs j s) -> ~ In j out -> timed nowMs st st' out j.
Proof.
  intros Hno Hj. split; [split; [done|intros [s Hs]; by destruct (Hno s)]| |].
  - intros s Hs. by destruct (Hno s).
  - intros s w Hs. by destruct (Hno s).
Qed.

(** One session of the sweep. *)
Lemma time_out_one_spec nowMs st k s :
  own_inv st -> JsMap.get k (Plane.sessions st) = Some s ->
  exists out st', time_out_one nowMs st k s = (Some out, st') /\ own_inv st' /\
    (forall j, In j out -> j = k) /\ sweep_spares st st' out /\ timed nowMs st st' out k.
Proof.
  intros H G. assert (Session.id s = k) as Hk by (by apply (oe_ids _ _ H)). unfold time_out_one.
  destruct (isAcknowledgedRunningDue s nowMs) eqn:Hd.
  - destruct (time_out_spec st k s (oe_wids _ _ H) Hk) as (H1 & H2 & H3 & H4).
    exists [Session.id s], (timeOutAcknowledgedSession st s). rewrite Hk. split; [done|].
    split; [by apply (own_time_out st k)|]. split; [intros j [->|[]]; done|]. split.
    + split; [intros j Hj; apply H2; intros ->; apply Hj; by left|].
      intros w wt Gw Hc. apply H3; [done|]. apply Hc. by left.
    + split; [split; [intros _; by exists s|by left]|intros _ _; exact H1|].
      intros s0 w [G0 _] Hm Ew Hne. assert (s0 = s) as -> by congruence.
      destruct (oe_owner _ _ H k s w) as (wt & Gw & _ & Cw); [done..|]. by apply (H4 w wt).
  - exists [], st. split; [done|]. split; [done|]. split; [done|]. split; [done|].
    apply timed_none; [|by intros []].
    intros s0 [G0 Hd0]. assert (s0 = s) as -> by congruence. congruence.
Qed.

(** An outcome established after, or before, the steps for other sessions. *)
Lemma timed_later nowMs st st1 st' out out' j more :
  timed nowMs st st1 out j -> sweep_spares st1 st' more -> ~ In j more -> (In j out' <-> In j out) ->
  timed nowMs st st' out' j.
Proof.
  intros [H1 H2 H4] [S1 S2] Hj Hout. split.
  - by rewrite Hout.
  - intros s Hs. destruct (H2 s Hs) as (s' & G' & Ht). exists s'. by rewrite S1.
  - intros s w Hs Hm Ew Hne. destruct (H4 s w Hs Hm Ew Hne) as (wt & G & Hi & Hc).
    exists wt. split; [|done]. apply S2; [done|]. intros k _. by rewrite Hc.
Qed.

Lemma timed_earlier nowMs st st1 st' out out' j before :
  sweep_spares st st1 before -> ~ In j before -> (In j out' <-> In j out) ->
  timed nowMs st1 st' out j -> timed nowMs st st' out' j.
Proof.
  intros [S1 S2] Hj Hout [H1 H2 H4].
  assert (forall s, overran st nowMs j s <-> overran st1 nowMs j s) as Ho
    by (intros s; unfold overran; by rewrite S1).
  split.
  - rewrite Hout, H1. by setoid_rewrite Ho.
  - intros s Hs. apply (H2 s). by apply Ho.
  - intros s w Hs. apply (H4 s w). by apply Ho.
Qed.

Lemma sweep_spares_trans st st1 st2 out1 out2 :
  sweep_spares st st1 out1 -> sweep_spares st1 st2 out2 -> sweep_spares st st2 (out1 ++ out2)%list.
Proof.
  intros [S1 S2] [U1 U2]. split.
  - intros j Hj. rewrite in_app_iff in Hj. rewrite U1, S1 by tauto. done.
  - intros w wt G Hc. apply U2; [apply S2; [done|]|]; intros k Hk; apply Hc, in_app_iff; tauto.
Qed.

Lemma timeout_loop nowMs keys : List.NoDup keys -> forall st, own_inv st ->
  exists out st', for_each Plane.sessions (time_out_one nowMs) keys st = (Some out, st') /\
    (forall j, In j out -> In j keys) /\ sweep_spares st st' out /\
    forall j, In j keys -> timed nowMs st st' out j.
Proof.
  induction keys as [|k keys IH]; intros Hnd st H; cbn [for_each]; [by exists [], st|].
  inversion Hnd as [|? ? Hk Hnd']; subst.
  destruct (JsMap.get k (Plane.sessions st)) as [s|] eqn:G.
  - destruct (time_out_one_spec nowMs st k s H G) as (out1 & st1 & -> & H1 & Hin1 & S & Ht1).
    destruct (IH Hnd' st1 H1) as (out2 & st2 & -> & Hin2 & U & Ht2).
    exists (out1 ++ out2)%list, st2. split; [done|]. split; [|split; [by apply (sweep_spares_trans st st1)|]].
    + intros j Hj. apply in_app_iff in Hj as [Hj|Hj]; [left; by symmetry; apply Hin1|right; by apply Hin2].
    + intros j [<-|Hj].
      * assert (~ In k out2) as Hk2 by (intros Hx; by apply Hk, Hin2).
        apply (timed_later nowMs st st1 st2 out1 _ k out2); [done|done|done|].
        rewrite in_app_iff. tauto.
      * assert (~ In j out1) as Hj1 by (intros Hx; apply Hin1 in Hx as ->; done).
        apply (timed_earlier nowMs st st1 st2 out2 _ j out1); [done|done| |by apply Ht2].
        rewrite in_app_iff. tauto.
  - destruct (IH Hnd' st H) as (out & st' & -> & Hin & U & Ht).
    exists out, st'. split; [done|]. split; [intros; right; by apply Hin|]. split; [done|].
    intros j [<-|Hj]; [|by apply Ht].
    apply timed_none; [intros s [? _]; congruence|]. intros Hx. by apply Hk, Hin.
Qed.

(** [C7] The running-timeout sweep: from a consistent state it always completes;
    it times out exactly the acknowledged running sessions that outran their
    timeout, which end without worktree or host, and the worktree each of them
    occupied is idle and unowned; every other session, and every worktree that
    none of them owned, is untouched. *)
Theorem running_timeout_sweep_exact st nowMs :
  own_inv st ->
  exists out st', enforceRunningTimeouts st nowMs = (Some out, st') /\
    (forall k, In k out <-> exists s, overran st nowMs k s) /\
    (forall k s, overran st nowMs k s ->
       (exists s', JsMap.get k (Plane.sessions st') = Some s' /\ timed_out_record s') /\
       forall w, is_true_opt (Session.mainCheckoutLease s) = false -> Session.worktreeId s = Val w ->
         w <> "" -> vacated st' w) /\
    sweep_spares st st' out.
Proof.
  intros H. destruct (timeout_loop nowMs (JsMap.keys (Plane.sessions st))) with (st := st)
    as (out & st' & E & Hin & S & Ht); [by apply NoDup_ListNoDup, (oe_wf _ _ H)|done|].
  assert (forall k s, overran st nowMs k s -> In k (JsMap.keys (Plane.sessions st))) as Hkey.
  { intros k s [G _]. apply JsMap.get_In, JsMap.In_keys in G. done. }
  exists out, st'. split; [exact E|]. split; [|split; [|done]].
  - intros k. split; [intros Hk; by apply (td_in _ _ _ _ _ (Ht k (Hin k Hk)))|].
    intros [s Hs]. apply (td_in _ _ _ _ _ (Ht k (Hkey k s Hs))). by exists s.
  - intros k s Hs. destruct (Ht k (Hkey k s Hs)) as [_ H2 H4]. split; [by apply (H2 s)|].
    intros w. by apply H4.
Qed.
End timeouts.

(** ** Host frames *)
Section frames.
Context {LC : LocaleCompare} {DP : DateParse} {UP : UrlParse}.
Implicit Types (st : ControlPlaneState) (s : SessionRecord).

(** The acknowledgement that answers a frame which changed nothing. *)
Definition only_answered st (msg : StatusMessage) st' : Prop :=
  st' = st \/ exists host,
    st' = emit st host (msg_status_acknowledged (Status.sessionId msg) (Status.attemptId msg) None None None).

Lemma stale_apply st msg src s :
  JsMap.get (Status.sessionId msg) (Plane.sessions st) = Some s ->
  Session.attemptId s <> Some (Status.attemptId msg) ->
  (forall l, Session.providerAccountLease s = Some l -> AccountLease.attemptId l <> Status.attemptId msg) ->
  (forall h, Session.terminalHookHandoff s = Some h -> Handoff.attemptId h <> Some (Status.attemptId msg)) ->
  applySessionStatus st msg src = (Some status_ok, st).
Proof.
  intros G Ha Hl Hh. unfold applySessionStatus. rewrite G.
  assert (localDeferredHandoffAck msg s (hostMessageOwner st (Some s) src) = None) as ->.
  { unfold localDeferredHandoffAck. destruct (Session.terminalHookHandoff s) as [h|]; [|done].
    rewrite (bool_decide_false _ (Hh h eq_refl)). by rewrite andb_false_r. }
  assert (settle_deferred st s msg (hostMessageOwner st (Some s) src) = None) as ->.
  { unfold settle_deferred. rewrite (bool_decide_false _ Ha). by rewrite andb_false_r. }
  assert (settles_timeout s msg = false) as ->.
  { unfold settles_timeout. rewrite (bool_decide_false _ Ha), andb_false_r.
    destruct (Session.providerAccountLease s) as [l|]; [|by rewrite andb_false_r].
    unfold str_eqb. rewrite (bool_decide_false _ (Hl l eq_refl)). by rewrite andb_false_r. }
  unfold planSessionTransition, hostStatusEvent, planStatus, attemptMatches.
  rewrite (bool_decide_false _ Ha), andb_false_r. reflexivity.
Qed.

(** [C9] A stale report changes nothing: a status frame whose attempt is neither
    the session's, nor that of its account lease or deferred hook, is answered
    and leaves the whole state as it was, whatever it reports. *)
Theorem stale_report_inert st msg src s :
  JsMap.get (Status.sessionId msg) (Plane.sessions st) = Some s ->
  Session.attemptId s <> Some (Status.attemptId msg) ->
  (forall l, Session.providerAccountLease s = Some l -> AccountLease.attemptId l <> Status.attemptId msg) ->
  (forall h, Session.terminalHookHandoff s = Some h -> Handoff.attemptId h <> Some (Status.attemptId msg)) ->
  exists st', handleSessionStatus st msg src = (Some status_ok, st') /\ only_answered st msg st'.
Proof.
  intros G Ha Hl Hh. unfold handleSessionStatus. rewrite (stale_apply st msg src s) by done. simpl.
  destruct (truthy_opt _) as [host|]; eexists; (split; [done|]); [right; by exists host|by left].
Qed.

(** *** Cancellation of a running session *)

(** A prompt session in [status] that occupies worktree [w] of [host] for attempt [a]. *)
Record occupies (s : SessionRecord) (status : SessionStatus) (host w a : string) : Prop := {
  oc_status : Session.status s = status;
  oc_host : Session.hostId s = Val host;
  oc_host_ne : host <> "";
  oc_worktree : Session.worktreeId s = Val w;
  oc_worktree_ne : w <> "";
  oc_attempt : Session.attemptId s = Some a;
  oc_checkout : is_true_opt (Session.mainCheckoutLease s) = false;
  oc_slot : truthy_nul (Session.workspaceSlotId s) = None;
  oc_handoff : Session.terminalHookHandoff s = None;
}.

(** The record [cancelSession] leaves while the host still runs the command. *)
Definition cancelled_session (now : string) (s : SessionRecord) : SessionRecord :=
  sessionForPersistence
    (s <| Session.status := cancelled |> <| Session.errorMessage := Some "cancelled by operator" |>
       <| Session.completedAt := Some now |>).

Lemma cancelled_occupies now s host w a :
  occupies s running host w a -> occupies (cancelled_session now s) cancelled host w a.
Proof.
  intros [H1 H2 H3 H4 H5 H6 H7 H8 H9]. unfold cancelled_session, sessionForPersistence.
  destruct (retainsActiveHostClaim _); case_bool_decide as E; by constructor.
Qed.

Lemma cancel_running st id s host w a :
  JsMap.get id (Plane.sessions st) = Some s -> Session.id s = id -> occupies s running host w a ->
  (cancelSession st id).2 =
  update_session (emit (forget_ack st id) host (msg_cancel id (Some a))) id (cancelled_session (Plane.now st) s).
Proof.
  intros G Hid [H1 H2 H3 H4 H5 H6 H7 H8 H9]. unfold cancelSession. rewrite G.
  assert (truthy_nul (Session.hostId s) = Some host) as Th by (by apply truthy_nul_Some).
  assert (planSessionTransition (Some s) ev_cancel
            (Ctx.mkContext (Plane.now st) local None None None None)
          = Some [fx_cancel true; fx_notify_cancel]) as ->.
  { unfold planSessionTransition, planCancel. by rewrite H1, Th. }
  cbn [find_effect pick_reject pick_cancel]. cbv zeta.
  change (Session.hostId (s <| Session.status := cancelled |>
    <| Session.errorMessage := Some "cancelled by operator" |>
    <| Session.completedAt := Some (Plane.now (forget_ack st id)) |>)) with (Session.hostId s).
  rewrite Th. cbn [snd]. unfold persistSession, cancelled_session.
  rewrite <- H6, <- Hid. reflexivity.
Qed.

(** The final, non-deferred report of attempt [a] from worktree [w]. *)
Record final_report (msg : StatusMessage) (id w a : string) : Prop := {
  fr_session : Status.sessionId msg = id;
  fr_attempt : Status.attemptId msg = a;
  fr_worktree : Status.worktreeId msg = Some w;
  fr_terminal : isTerminalSessionStatus (Status.status msg) = true;
  fr_deferred : Status.deferTerminalHookResult msg = false;
}.

(** What the planner answers to the final report of a cancelled session. *)
Lemma late_plan st s host w a msg account version :
  occupies s cancelled host w a -> final_report msg (Session.id s) w a ->
  exists plan,
    planSessionTransition (Some s) (hostStatusEvent msg)
      (plannerContext st local account version (Status.deferTerminalHookResult msg)) = Some plan /\
    has_effect pick_ignore plan = false /\ find_effect pick_requeue plan = None /\
    has_effect pick_release_lease plan = false /\ has_effect pick_release_workspace plan = false /\
    has_effect pick_release_worktree plan = true.
Proof.
  intros [H1 H2 H3 H4 H5 H6 H7 H8 H9] [F1 F2 F3 F4 F5].
  assert (truthy_nul (Session.worktreeId s) = Some w) as Tw by (by apply truthy_nul_Some).
  eexists. split.
  { unfold planSessionTransition, hostStatusEvent, planStatus, attemptMatches.
    rewrite F4, F2, F3, H6, H4, H1. cbn [negb]. rewrite !bool_decide_true by done. reflexivity. }
  unfold planLateTerminal, releaseEffects. rewrite H1, H7, Tw, H8. simpl.
  by repeat case_match.
Qed.

(** The account lease of the session is the entry [k] of the lease table. *)
Definition holds_lease (st : ControlPlaneState) (s : SessionRecord) (k : string) : Prop :=
  exists lease held, Session.providerAccountLease s = Some lease /\ AccountLease.concurrencyId lease = k /\
    JsMap.get k (Plane.providerAccountLeases st) = Some held /\ HeldLease.sessionId held = Session.id s /\
    HeldLease.attemptId held = AccountLease.attemptId lease.

(** Of the lease table, exactly what session [s] held is gone. *)
Definition lease_returned (st : ControlPlaneState) (s : SessionRecord) (st' : ControlPlaneState) : Prop :=
  forall k, (holds_lease st s k -> JsMap.get k (Plane.providerAccountLeases st') = None) /\
    (~ holds_lease st s k -> JsMap.get k (Plane.providerAccountLeases st') = JsMap.get k (Plane.providerAccountLeases st)).

Lemma release_account_returned st s : lease_returned st s (releaseProviderAccountLease st s).1.
Proof.
  intros k. unfold releaseProviderAccountLease, releaseProviderAccountLeaseLocal, holds_lease.
  destruct (Session.providerAccountLease s) as [lease|] eqn:El; [|naive_solver].
  destruct (JsMap.get (AccountLease.concurrencyId lease) (Plane.providerAccountLeases st)) as [held|] eqn:Eh; [|naive_solver].
  destruct (negb _ || negb _) eqn:En.
  - split; [|done]. intros (lease' & held' & [= <-] & <- & Eh' & E1 & E2). simplify_eq.
    by rewrite E1, E2, !str_eqb_refl in En.
  - apply orb_false_iff in En as [E1 E2]. apply negb_false_iff, str_eqb_true in E1, E2. cbn. rewrite JsMap.get_delete.
    case_decide as Ek; [subst k; split; [done|]|split; [naive_solver|done]].
    intros Hn. exfalso. apply Hn. by exists lease, held.
Qed.

Lemma release_if_owner_leases st w k :
  Plane.providerAccountLeases (release_if_owner st w k) = Plane.providerAccountLeases st.
Proof. unfold release_if_owner, releaseWorktree. by repeat case_match. Qed.

(** The record a late report leaves: its account lease and worktree are gone. *)
Lemma late_report_session st s plan host w a msg :
  occupies s cancelled host w a ->
  has_effect pick_release_lease plan = false -> has_effect pick_release_workspace plan = false ->
  has_effect pick_release_worktree plan = true ->
  exists st1 s', apply_late_report st s msg plan = persistSession (release_if_owner st1 w (Session.id s)) s' /\
    Plane.worktrees st1 = Plane.worktrees st /\ lease_returned st s st1 /\ Session.id s' = Session.id s /\
    Session.status s' = cancelled /\ Session.worktreeId s' = Null /\ Session.providerAccountLease s' = None.
Proof.
  intros [H1 H2 H3 H4 H5 H6 H7 H8 H9] E1 E2 E3. unfold apply_late_report. rewrite E1, E2, E3. cbn [orb andb].
  destruct (release_account_other st s) as (_ & _ & _ & _ & Ew).
  pose proof (release_account_fields st s) as El. pose proof (release_account_returned st s) as Er.
  assert (Session.worktreeId (releaseProviderAccountLease st s).2 = Val w /\
    Session.id (releaseProviderAccountLease st s).2 = Session.id s /\
    Session.status (releaseProviderAccountLease st s).2 = cancelled) as (Wl & Il & Sl)
    by (unfold releaseProviderAccountLease; by destruct (Session.providerAccountLease s)).
  destruct (releaseProviderAccountLease st s) as [st1 s1]. cbn [fst snd] in *.
  assert (truthy_nul (Session.worktreeId s1) = Some w) as -> by (by apply truthy_nul_Some).
  rewrite Il. eexists st1, _. split; [reflexivity|].
  split; [done|]. split; [done|]. unfold keep_result. by repeat case_match.
Qed.

(** A cancelled session's final report, delivered to [applySessionStatus]. *)
Lemma late_release st id s host w a msg src :
  own_inv st -> JsMap.get id (Plane.sessions st) = Some s -> occupies s cancelled host w a ->
  final_report msg id w a ->
  exists st', applySessionStatus st msg src = (Some status_ok, st') /\
    (exists s', JsMap.get id (Plane.sessions st') = Some s' /\ Session.status s' = cancelled /\
       Session.worktreeId s' = Null /\ Session.providerAccountLease s' = None) /\
    lease_returned st s st' /\
    (exists wt, JsMap.get w (Plane.worktrees st') = Some wt /\ Worktree.status wt = idle /\
       Worktree.currentSessionId wt = Null).
Proof.
  intros Hown G Hs Hm. assert (Session.id s = id) as Hid by (by apply (oe_ids _ _ Hown)).
  rewrite <- Hid in Hm. pose proof Hs as [H1 H2 H3 H4 H5 H6 H7 H8 H9].
  pose proof Hm as [F1 F2 F3 F4 F5].
  destruct (late_plan st s host w a msg (cachedProviderAccount st s)
              (hostMessageProtocolVersion st s src)) as (plan & Ep & P1 & P2 & P3 & P4 & P5); [done..|].
  destruct (late_report_session st s plan host w a msg) as (st1 & s' & El & Ew & Hr & Id' & S' & W' & L'); [done..|].
  exists (apply_late_report st s msg plan). split.
  { unfold applySessionStatus. rewrite F1, Hid, G. unfold localDeferredHandoffAck, settle_deferred, settles_timeout.
    rewrite H9, F5. cbn [andb]. rewrite H1. rewrite F5 in Ep. rewrite Ep. unfold apply_plan. by rewrite P1, P2, H1. }
  destruct (oe_owner _ _ Hown id s w) as (wt & Gw & _ & Cw); [done..|].
  rewrite El. unfold persistSession. rewrite Id', Hid. split; [|split].
  - exists (sessionForPersistence s'). simpl. rewrite JsMap.get_set_eq. split; [done|].
    unfold sessionForPersistence. by destruct (retainsActiveHostClaim s'); case_bool_decide.
  - intros k. cbn -[release_if_owner]. rewrite release_if_owner_leases. apply Hr.
  - simpl. unfold release_if_owner. rewrite Ew, Gw, bool_decide_true by done.
    apply (release_worktree_idle st1 w wt); [by rewrite Ew|]. by apply (oe_wids _ _ Hown).
Qed.

(** Cancelling keeps the session's claim on its lease. *)
Lemma lease_returned_cancelled st st1 now s st2 :
  Plane.providerAccountLeases st1 = Plane.providerAccountLeases st ->
  lease_returned st1 (cancelled_session now s) st2 -> lease_returned st s st2.
Proof.
  intros E H k. specialize (H k). unfold holds_lease in *. rewrite E in H.
  assert (Session.providerAccountLease (cancelled_session now s) = Session.providerAccountLease s /\
    Session.id (cancelled_session now s) = Session.id s) as [El Ei]
    by (unfold cancelled_session, sessionForPersistence; by destruct (retainsActiveHostClaim _); case_bool_decide).
  by rewrite El, Ei in H.
Qed.

(** [C8] Cancelling a running session that occupies a worktree (not the main checkout, no
    workspace slot, no terminal hook handed off): the session is cancelled at once and its host is
    told, but the worktree and the entry of the account-lease table stay taken while the command
    may still run.  The final report of that attempt that does not defer its terminal hook,
    arriving next, makes the worktree idle, deletes from the lease table exactly the entry the
    session held, and leaves the session cancelled, without worktree and lease. *)
Theorem cancel_holds_until_report st id s host w a msg src :
  own_inv st -> JsMap.get id (Plane.sessions st) = Some s -> occupies s running host w a ->
  final_report msg id w a ->
  let st1 := (cancelSession st id).2 in
  (exists s1, JsMap.get id (Plane.sessions st1) = Some s1 /\ Session.status s1 = cancelled) /\
  owns st1 w id /\ Plane.providerAccountLeases st1 = Plane.providerAccountLeases st /\
  In (host, msg_cancel id (Some a)) (Plane.outbox st1) /\
  exists st2, applySessionStatus st1 msg src = (Some status_ok, st2) /\
    (exists s2, JsMap.get id (Plane.sessions st2) = Some s2 /\ Session.status s2 = cancelled /\
       Session.worktreeId s2 = Null /\ Session.providerAccountLease s2 = None) /\
    lease_returned st s st2 /\
    (exists wt, JsMap.get w (Plane.worktrees st2) = Some wt /\ Worktree.status wt = idle /\
       Worktree.currentSessionId wt = Null).
Proof.
  intros Hown G Hs Hm. assert (Session.id s = id) as Hid by (by apply (oe_ids _ _ Hown)).
  pose proof (own_cancel st id Hown) as Hown1.
  pose proof (cancelled_occupies (Plane.now st) s host w a Hs) as Hc. cbv zeta.
  rewrite (cancel_running st id s host w a) in Hown1 |- * by done.
  match type of Hown1 with own_inv ?x => set (st1 := x) in * end.
  assert (JsMap.get id (Plane.sessions st1) = Some (cancelled_session (Plane.now st) s)) as G1
    by apply JsMap.get_set_eq.
  split; [by eexists; split; [exact G1|apply Hc]|].
  split; [by apply (oe_owner _ _ Hown1 id (cancelled_session (Plane.now st) s) w); [|exact G1|apply Hc|apply Hc]|].
  split; [done|]. split; [simpl; apply in_or_app; right; by left|].
  destruct (late_release st1 id (cancelled_session (Plane.now st) s) host w a msg src) as (st2 & E & Hsess & Hl & Hw); [done..|].
  exists st2. split; [done|]. split; [done|]. split; [|done]. by apply (lease_returned_cancelled st st1 (Plane.now st)).
Qed.
End frames.

(** ** Host loss *)
Section host_loss.
Context {DP : DateParse}.

(** The two host-loss policies agree: the sweep's [canRetryHostLoss] and the
    transition planner decide alike whether a running session of a lost host is
    replayed, and a session replayed once is not replayed again, even when its
    next assignment is also waiting to start its command. *)
Theorem host_loss_policies_agree s ctx p :
  Session.status s = running -> 0 <= opt_or (Session.infrastructureRetryCount s) 0 ->
  planSessionTransition (Some s) (ev_infrastructure_failure host_lost) ctx = Some p ->
  (canRetryHostLoss s = true <-> exists fields, In (fx_requeue requeue_infrastructure fields) p) /\
  canRetryHostLoss
    ((queueHostLossRetry s) <| Session.primaryCommandStartState := Some start_pending |>) = false.
Proof.
  intros Hrun Hc [= <-]. split.
  - unfold planInfrastructureFailure, canRetryHostLoss, MAX_INFRASTRUCTURE_RETRIES. rewrite Hrun. simpl.
    assert (forall e, In e (releaseEffects s) -> forall fields, e <> fx_requeue requeue_infrastructure fields) as Hr
      by (unfold releaseEffects; repeat case_match; simpl; naive_solver).
    case_bool_decide as Hs; simpl; [destruct (_ <? 1) eqn:Hb|]; simpl.
    + split; [|done]. intros _. eexists. apply in_or_app. right. by left.
    + split; [done|]. intros [f Hf]. apply in_app_or in Hf as [Hf|Hf]; [by destruct (Hr _ Hf f)|].
      simpl in Hf. naive_solver.
    + split; [done|]. intros [f Hf]. apply in_app_or in Hf as [Hf|Hf]; [by destruct (Hr _ Hf f)|].
      simpl in Hf. naive_solver.
  - unfold canRetryHostLoss, queueHostLossRetry. rewrite andb_false_iff. right. apply Z.ltb_ge.
    assert (1 <= opt_or (Session.infrastructureRetryCount s) 0 + 1) as Hle by lia.
    destruct (truthy_opt (Session.attemptId s)); exact Hle.
Qed.
End host_loss.

(** ** Witnesses *)
#[local] Existing Instance code_order.
#[local] Existing Instance iso_date_parse.
#[local] Existing Instance scheme_url.

(** The example plane after one assignment pass. *)
Definition assigned_state : ControlPlaneState := (assignQueued example_state None).2.

Lemma assigned_own : own_inv assigned_state.
Proof. unfold assigned_state. exact (own_assign example_state None example_own). Qed.

(** The session as the pass left it. *)
Definition assigned_session : SessionRecord :=
  opt_or (JsMap.get "s1" (Plane.sessions assigned_state)) example_queued.

Lemma assignment_pass_sound_witness :
  exists assigned frames,
    (assignQueued example_state None).1 = Some assigned /\ length assigned = 1%nat /\
    Plane.outbox assigned_state = frames /\ length frames = 1%nat.
Proof.
  destruct (assignQueued example_state None) as [[assigned|] st'] eqn:E.
  - destruct (assignment_pass_sound example_state None assigned st' example_own E) as (frames & Eo & _ & Hf).
    pose proof (f_equal fst E) as E1. pose proof (f_equal snd E) as E2. cbn [fst snd] in E1, E2.
    assert (length frames = length assigned) as El by (symmetry; exact (Forall2_length _ _ _ Hf)).
    assert (length assigned = 1%nat) as E3
      by (transitivity (length (opt_or (assignQueued example_state None).1 [])); [by rewrite E1|vm_compute; reflexivity]).
    exists assigned, frames. split; [reflexivity|]. split; [exact E3|].
    split; [unfold assigned_state; rewrite E2; exact Eo|congruence].
  - exfalso. pose proof (f_equal (fun x => is_some x.1) E) as E1. vm_compute in E1. discriminate E1.
Defined.

Lemma ack_sweep_exact_witness :
  JsMap.wf (Plane.pendingAcks assigned_state) /\
  exists requeued st', enforceAckDeadlines assigned_state 1767225915000 = (Some requeued, st') /\ In "s1" requeued.
Proof.
  assert (JsMap.wf (Plane.pendingAcks assigned_state)) as Hwf
    by (apply NoDup_ListNoDup; vm_compute; repeat constructor; simpl; tauto).
  split; [exact Hwf|].
  destruct (ack_sweep_exact assigned_state 1767225915000 Hwf) as (out & st' & E & Hin & _).
  exists out, st'. split; [exact E|]. apply Hin.
  exists (Ack.mkPendingAck "s1" (Some "w1") "attempt-0" (Some 1767225900000)), assigned_session.
  refine (conj _ (conj _ (conj _ _))); vm_compute; reflexivity.
Defined.

(** A workspace session that runs in slot [slot1] and never acknowledged. *)
Definition slot_session : SessionRecord :=
  example_queued <| Session.status := running |> <| Session.workspacePoolId := Some "pool" |>
    <| Session.workspaceSlotId := Val "slot1" |> <| Session.worktreeId := Null |>
    <| Session.hostId := Val "h1" |> <| Session.attemptId := Some "attempt-0" |>.

Definition slot_state : ControlPlaneState :=
  example_state
    <| Plane.sessions := [("s1", slot_session)] |>
    <| Plane.workspaceSlots := [("slot1", Slot.mkWorkspaceSlot "slot1" "one" "h1" "pool" "/pool/one" busy true
         (Val "s1") None (Some "c1") (Val "2026-01-01T00:05:00.000Z") None)] |>
    <| Plane.pendingAcks := [("s1", Ack.mkPendingAck "s1" None "attempt-0" (Some 1767225900000))] |>.

Lemma ack_sweep_leaks_slot_witness :
  let st' := (enforceAckDeadlines slot_state 1767225915000).2 in
  (exists slot, JsMap.get "slot1" (Plane.workspaceSlots st') = Some slot /\
     Slot.status slot = busy /\ Slot.currentSessionId slot = Val "s1") /\
  exists s', JsMap.get "s1" (Plane.sessions st') = Some s' /\ Session.status s' = queued /\
    Session.workspaceSlotId s' = Null.
Proof.
  destruct (ack_sweep_leaks_slot slot_state 1767225915000 "s1"
    (Ack.mkPendingAck "s1" None "attempt-0" (Some 1767225900000)) slot_session) as [E H];
    [apply NoDup_ListNoDup; repeat constructor; simpl; tauto|refine (conj _ (conj _ (conj _ _))); vm_compute; reflexivity|reflexivity|].
  split; [|exact H]. rewrite E. eexists. split; [vm_compute; reflexivity|]. split; reflexivity.
Defined.

(** A report of an earlier attempt, and the final one of the current attempt. *)
Definition stale_message : StatusMessage :=
  Status.mkStatus "s1" (Some "w1") None "attempt-9" completed (Val 0) None None None None false.

Definition final_message : StatusMessage :=
  Status.mkStatus "s1" (Some "w1") None "attempt-0" failed (Val 143) None None None None false.

Lemma stale_report_inert_witness :
  exists st', handleSessionStatus assigned_state stale_message (Some "c1") = (Some status_ok, st') /\
    only_answered assigned_state stale_message st'.
Proof.
  apply (stale_report_inert assigned_state stale_message (Some "c1") assigned_session);
    [vm_compute; reflexivity|vm_compute; discriminate| |].
  - intros l Hl. vm_compute in Hl. injection Hl as <-. discriminate.
  - intros h Hh. vm_compute in Hh. discriminate Hh.
Defined.

Lemma cancel_holds_until_report_witness :
  let st1 := (cancelSession assigned_state "s1").2 in
  owns st1 "w1" "s1" /\ In ("h1", msg_cancel "s1" (Some "attempt-0")) (Plane.outbox st1) /\
  exists k, is_some (JsMap.get k (Plane.providerAccountLeases st1)) = true /\
    exists st2, applySessionStatus st1 final_message (Some "c1") = (Some status_ok, st2) /\
      JsMap.get k (Plane.providerAccountLeases st2) = None.
Proof.
  destruct (cancel_holds_until_report assigned_state "s1" assigned_session "h1" "w1" "attempt-0"
    final_message (Some "c1")) as (_ & Ho & El & Hf & st2 & E & _ & Hl & _);
    [exact assigned_own|vm_compute; reflexivity| | |].
  - constructor; vm_compute; first [reflexivity|discriminate].
  - constructor; vm_compute; reflexivity.
  - split; [exact Ho|]. split; [exact Hf|].
    exists (providerAccountLeaseConcurrencyId "acct" 0). split; [rewrite El; vm_compute; reflexivity|].
    exists st2. split; [exact E|]. apply Hl.
    do 2 eexists. split; [vm_compute; reflexivity|]. split; [vm_compute; reflexivity|].
    split; [vm_compute; reflexivity|]. split; vm_compute; reflexivity.
Defined.

(** The example session acknowledged, and still running ten minutes later. *)
Definition acked_state : ControlPlaneState := (handleSessionAck assigned_state "s1" (Some "w1") "attempt-0").2.

Definition acked_session : SessionRecord :=
  opt_or (JsMap.get "s1" (Plane.sessions acked_state)) example_queued.

Lemma acked_own : own_inv acked_state.
Proof. unfold acked_state. exact (own_ack assigned_state "s1" (Some "w1") "attempt-0" assigned_own). Qed.

Lemma running_timeout_sweep_exact_witness :
  exists out st', enforceRunningTimeouts acked_state 1767226600000 = (Some out, st') /\ In "s1" out /\
    vacated st' "w1".
Proof.
  assert (overran acked_state 1767226600000 "s1" acked_session) as Ho
    by (refine (conj _ _); vm_compute; reflexivity).
  destruct (running_timeout_sweep_exact acked_state 1767226600000 acked_own) as (out & st' & E & Hin & Ht & _).
  exists out, st'. split; [exact E|]. split; [apply Hin; exists acked_session; exact Ho|].
  destruct (Ht "s1" acked_session Ho) as [_ Hv]. apply Hv; [vm_compute; reflexivity..|discriminate].
Defined.

Lemma host_loss_policies_agree_witness :
  canRetryHostLoss assigned_session = true /\
  canRetryHostLoss ((queueHostLossRetry assigned_session)
    <| Session.primaryCommandStartState := Some start_pending |>) = false.
Proof.
  split; [vm_compute; reflexivity|].
  refine (proj2 (host_loss_policies_agree assigned_session example_ctx _ _ _ eq_refl));
    vm_compute; first [reflexivity|discriminate].
Defined.
