(* ===== verification/Evolution.v ===== *)
(** * How sessions evolve

    Whatever the in-memory plane does to a session, it does only what
    [evolves] allows: the session keeps its identity, its concurrency id and
    its place in the queue, a terminal status is never left, and a session
    that waits for a terminal hook is over and holds no worktree by name.
    [evolves] is a preorder, so an operation is followed through its steps. *)

From Stdlib Require Import ZArith Lia Ascii String.
From stdpp Require Import base strings list.
From S2P Require Import Prelude DateTime Types Ordering TransitionPlanner SessionTarget.
From S2P Require Import AccountLeases Placement SessionOutcome LogSettings Worktrees Assignment.
From S2P Require Import HostMessages Ownership.

Local Open Scope string_scope.
Local Open Scope Z_scope.

(** ** One session

    [p] tells whether the assignment of the session still waits for an
    acknowledgement, that is, has an entry in [pendingAcks]. *)

(** The statuses that are only ever entered after the entry is dropped. *)
Definition settled (s : SessionStatus) : bool :=
  match s with completed | cancelled | timed_out => true | _ => false end.

(** Each kind of session holds its own kind of target. *)
Definition holds_ok (s : SessionRecord) : Prop :=
  (is_true_opt (Session.mainCheckoutLease s) = true -> scheduleKind s = scheduled_kind) /\
  (is_true_opt (Session.workspaceSlotLease s) = true -> scheduleKind s = workspace_kind) /\
  (scheduleKind s <> prompt_kind -> detached s).

(** A session with a pending terminal hook is over, names no worktree and waits for
    no acknowledgement; a timed-out session names no worktree. *)
Record sess_ok (s : SessionRecord) (p : bool) : Prop := {
  so_handoff : Session.terminalHookHandoff s <> None ->
    isTerminalSessionStatus (Session.status s) = true /\ detached s /\ p = false;
  so_timed_out : Session.status s = timed_out -> detached s;
  so_settled : settled (Session.status s) = true -> p = false;
  so_holds : holds_ok s;
}.

(** What never changes. *)
Definition identity (s s' : SessionRecord) : Prop :=
  Session.id s' = Session.id s /\ Session.concurrencyId s' = Session.concurrencyId s /\
  Session.createdAt s' = Session.createdAt s /\ Session.priority s' = Session.priority s /\
  Session.type s' = Session.type s.

(** .. and targets are only given back. *)
Definition lineage (s s' : SessionRecord) : Prop :=
  identity s s' /\
  (is_true_opt (Session.mainCheckoutLease s') = true -> is_true_opt (Session.mainCheckoutLease s) = true) /\
  (is_true_opt (Session.workspaceSlotLease s') = true -> is_true_opt (Session.workspaceSlotLease s) = true) /\
  (detached s -> detached s').

Lemma identity_trans s1 s2 s3 : identity s1 s2 -> identity s2 s3 -> identity s1 s3.
Proof. unfold identity. intuition congruence. Qed.

Lemma identity_sym s s' : identity s s' -> identity s' s.
Proof. unfold identity. intuition congruence. Qed.

Lemma lineage_trans s1 s2 s3 : lineage s1 s2 -> lineage s2 s3 -> lineage s1 s3.
Proof. intros [I1 L1] [I2 L2]. split; [by eapply identity_trans|tauto]. Qed.

Lemma lineage_id s s' : lineage s s' -> Session.id s' = Session.id s.
Proof. by intros [[E _] _]. Qed.

Lemma lineage_holds s s' : lineage s s' -> holds_ok s -> holds_ok s'.
Proof.
  intros ((_ & _ & _ & _ & Et) & Hm & Hs & Hd) (H1 & H2 & H3).
  assert (scheduleKind s' = scheduleKind s) as Ek by (unfold scheduleKind; by rewrite Et).
  unfold holds_ok. rewrite Ek. auto.
Qed.

(** Record updates that keep or drop a target. *)
Lemma lineage_update s s' :
  identity s s' -> (Session.mainCheckoutLease s' = Session.mainCheckoutLease s \/ Session.mainCheckoutLease s' = None) ->
  (Session.workspaceSlotLease s' = Session.workspaceSlotLease s \/ Session.workspaceSlotLease s' = None) ->
  (Session.worktreeId s' = Session.worktreeId s \/ Session.worktreeId s' = Null) -> lineage s s'.
Proof.
  intros I Hm Hs Hw. split; [done|]. split; [|split].
  - by destruct Hm as [-> | ->].
  - by destruct Hs as [-> | ->].
  - unfold detached. by destruct Hw as [-> | ->].
Qed.

Ltac lin_update :=
  apply lineage_update; [done|first [by left|by right]|first [by left|by right]|first [by left|by right]].
Ltac lin :=
  first [eassumption | lin_update
        | match goal with I : lineage _ _ |- _ =>
            first [exact I | refine (lineage_trans _ _ _ I _); lin_update
                  | refine (lineage_trans _ _ _ (lineage_trans _ _ _ _ I) _); [lin_update|lin_update]] end].

Record evolves (s : SessionRecord) (p : bool) (s' : SessionRecord) (p' : bool) : Prop := {
  ev_identity : identity s s';
  ev_terminal : isTerminalSessionStatus (Session.status s) = true -> p = false ->
    Session.status s' = Session.status s /\ p' = false;
  ev_ok : sess_ok s p -> sess_ok s' p';
}.

Lemma evolves_trans s1 p1 s2 p2 s3 p3 :
  evolves s1 p1 s2 p2 -> evolves s2 p2 s3 p3 -> evolves s1 p1 s3 p3.
Proof.
  intros [I1 T1 O1] [I2 T2 O2]. split; [|intros Ht Hp|by auto].
  - by eapply identity_trans.
  - destruct (T1 Ht Hp) as [E1 ->]. destruct T2 as [E2 ->]; [by rewrite E1|done|]. split; congruence.
Qed.

(** The fields the relation looks at are as before. *)
Definition core_eq (s s' : SessionRecord) : Prop :=
  lineage s s' /\ Session.status s' = Session.status s /\
  Session.terminalHookHandoff s' = Session.terminalHookHandoff s /\
  Session.worktreeId s' = Session.worktreeId s.

Lemma core_id s s' : core_eq s s' -> Session.id s' = Session.id s.
Proof. intros [I _]. by apply lineage_id. Qed.

Lemma core_eq_refl s : core_eq s s.
Proof. done. Qed.

Lemma core_eq_trans s1 s2 s3 : core_eq s1 s2 -> core_eq s2 s3 -> core_eq s1 s3.
Proof.
  intros (I1 & S1 & H1 & W1) (I2 & S2 & H2 & W2).
  split; [by eapply lineage_trans|]. intuition congruence.
Qed.

Lemma detached_eq s s' : Session.worktreeId s' = Session.worktreeId s -> detached s -> detached s'.
Proof. intros E H w. rewrite E. apply H. Qed.

(** A session that is over keeps its status and gains no worktree. *)
Lemma over_evolves s p s' p' :
  lineage s s' -> Session.status s' = Session.status s -> (detached s -> detached s') ->
  (p' = true -> p = true) ->
  Session.terminalHookHandoff s' = Session.terminalHookHandoff s \/
    Session.terminalHookHandoff s' = None \/
    (settled (Session.status s) = true /\ (sess_ok s p -> detached s')) ->
  evolves s p s' p'.
Proof.
  intros I Es Hd Hp Hh.
  assert (p = false -> p' = false) as Hp' by (destruct p, p'; intuition congruence).
  split; [apply I|auto|]. intros Hok. destruct (Hok) as [O1 O2 O3 O4].
  split; rewrite ?Es; [|auto|auto|by eapply lineage_holds].
  intros H. destruct Hh as [Hh|[Hh|(Hs & Hdet)]]; [|congruence|].
  - rewrite Hh in H. destruct (O1 H) as (? & ? & ?). auto.
  - split; [by destruct (Session.status s)|auto].
Qed.

Lemma core_evolves s p s' p' : core_eq s s' -> (p' = true -> p = true) -> evolves s p s' p'.
Proof.
  intros (I & Es & Eh & Ew) Hp. apply over_evolves; [done|done|by apply detached_eq|done|by left].
Qed.

Lemma evolves_refl s p : evolves s p s p.
Proof. by apply core_evolves. Qed.

(** A session that is not over may take any status, as long as it does not keep a
    worktree when it times out or waits for a hook, and drops its entry when it settles. *)
Lemma live_evolves s p s' p' :
  isTerminalSessionStatus (Session.status s) = false -> lineage s s' ->
  Session.terminalHookHandoff s' = Session.terminalHookHandoff s \/
    (isTerminalSessionStatus (Session.status s') = true /\ detached s' /\ p' = false) ->
  (Session.status s' = timed_out -> detached s') ->
  (settled (Session.status s') = true -> p' = false) ->
  evolves s p s' p'.
Proof.
  intros Ht I Hh Hto Hs. split; [apply I|congruence|]. intros [O1 O2 O3 O4].
  split; [|done|done|by eapply lineage_holds].
  intros H. destruct Hh as [Hh|Hh]; [|done].
  rewrite Hh in H. destruct (O1 H) as [Ht' _]. congruence.
Qed.

Lemma running_live s : Session.status s = running -> isTerminalSessionStatus (Session.status s) = false.
Proof. by intros ->. Qed.

Lemma queued_live s : Session.status s = queued -> isTerminalSessionStatus (Session.status s) = false.
Proof. by intros ->. Qed.

(** A session that is not over, or whose assignment was never acknowledged, goes back
    to the queue or on running with its handoff untouched. *)
Lemma requeue_evolves s p s' p' :
  isTerminalSessionStatus (Session.status s) = false \/ p = true -> lineage s s' ->
  Session.terminalHookHandoff s' = Session.terminalHookHandoff s ->
  Session.status s' = queued \/ Session.status s' = running ->
  evolves s p s' p'.
Proof.
  intros Ht I Hh Hs. split; [apply I|intuition congruence|]. intros [O1 O2 O3 O4].
  split; [|destruct Hs as [-> | ->]; done..|by eapply lineage_holds].
  intros H. rewrite Hh in H. destruct (O1 H) as (? & _ & ?). intuition congruence.
Qed.

(** A queued prompt session is given a worktree. *)
Lemma assign_evolves s p s' p' :
  Session.status s = queued -> scheduleKind s = prompt_kind -> identity s s' ->
  Session.status s' = running ->
  Session.mainCheckoutLease s' = Session.mainCheckoutLease s ->
  Session.workspaceSlotLease s' = Session.workspaceSlotLease s ->
  Session.terminalHookHandoff s' = Session.terminalHookHandoff s -> evolves s p s' p'.
Proof.
  intros Hq Hk I Hr Em Es Eh.
  assert (scheduleKind s' = scheduleKind s) as Ek by (destruct I as (_ & _ & _ & _ & Et); unfold scheduleKind; by rewrite Et).
  split; [done|by rewrite Hq|]. intros [O1 O2 O3 (O4 & O5 & O6)]. split; [|by rewrite Hr|by rewrite Hr|].
  - rewrite Eh. intros Hn. destruct (O1 Hn) as [Ht _]. by rewrite Hq in Ht.
  - rewrite Hk in O4, O5. split; [rewrite Em, Ek, Hk; exact O4|]. split; [rewrite Es, Ek, Hk; exact O5|].
    rewrite Ek, Hk. done.
Qed.

(** ** The session a release returns *)
Lemma release_account_core st s : core_eq s (releaseProviderAccountLease st s).2.
Proof. unfold releaseProviderAccountLease. frame. Qed.
Lemma release_slot_local_core st s e : core_eq s (releaseWorkspaceSlotLocal st s e).2.
Proof. unfold releaseWorkspaceSlotLocal. frame. Qed.
Lemma release_slot_core st s : core_eq s (releaseWorkspaceSlot st s).2.
Proof. unfold releaseWorkspaceSlot. frame. Qed.
Lemma keep_result_core s r : core_eq s (keep_result s r).
Proof. unfold keep_result. frame. Qed.
Lemma persistence_core s : core_eq s (sessionForPersistence s).
Proof. unfold sessionForPersistence. destruct (retainsActiveHostClaim s); case_bool_decide; done. Qed.

(** ** The whole map *)
Definition pending (st : ControlPlaneState) (k : string) : bool := JsMap.has k (Plane.pendingAcks st).

(** Every session evolves, none disappears and none appears. *)
Record sessions_evolve (st st' : ControlPlaneState) : Prop := {
  se_some : forall k s, JsMap.get k (Plane.sessions st) = Some s ->
    exists s', JsMap.get k (Plane.sessions st') = Some s' /\ evolves s (pending st k) s' (pending st' k);
  se_none : forall k, JsMap.get k (Plane.sessions st) = None -> JsMap.get k (Plane.sessions st') = None;
}.
Infix "⪯" := sessions_evolve (at level 70).

(** The sessions are the same and no entry is added. *)
Definition quiet (st st' : ControlPlaneState) : Prop :=
  Plane.sessions st' = Plane.sessions st /\ forall k, pending st' k = true -> pending st k = true.

Lemma quiet_refl st : quiet st st.
Proof. done. Qed.

Lemma quiet_trans st1 st2 st3 : quiet st1 st2 -> quiet st2 st3 -> quiet st1 st3.
Proof. intros [E1 P1] [E2 P2]. split; [congruence|auto]. Qed.

(** Neither map changes. *)
Lemma quiet_same st st' :
  Plane.sessions st' = Plane.sessions st -> Plane.pendingAcks st' = Plane.pendingAcks st -> quiet st st'.
Proof. intros E P. split; [done|]. unfold pending. by rewrite P. Qed.

Lemma pending_forget st k j :
  pending (forget_ack st k) j = if decide (k = j) then false else pending st j.
Proof. unfold pending, JsMap.has. simpl. rewrite JsMap.get_delete. by case_decide. Qed.

Lemma quiet_forget st k : quiet st (forget_ack st k).
Proof. split; [done|]. intros j. rewrite pending_forget. by case_decide. Qed.

Lemma se_quiet st st' : quiet st st' -> st ⪯ st'.
Proof.
  intros [E P]. split; rewrite E; [|done]. intros k s G. exists s. split; [done|].
  by apply core_evolves; [apply core_eq_refl|apply P].
Qed.

Lemma se_refl st : st ⪯ st.
Proof. by apply se_quiet, quiet_refl. Qed.

Lemma se_trans st1 st2 st3 : st1 ⪯ st2 -> st2 ⪯ st3 -> st1 ⪯ st3.
Proof.
  intros [S1 N1] [S2 N2]. split; [|auto]. intros k s G.
  destruct (S1 k s G) as (s2 & G2 & E2). destruct (S2 k s2 G2) as (s3 & G3 & E3).
  exists s3. split; [done|by eapply evolves_trans].
Qed.

Lemma se_after st st1 st2 : st ⪯ st1 -> quiet st1 st2 -> st ⪯ st2.
Proof. intros H Q. eapply se_trans; [done|by apply se_quiet]. Qed.

Lemma se_before st st1 st2 : quiet st st1 -> st1 ⪯ st2 -> st ⪯ st2.
Proof. intros Q H. eapply se_trans; [by apply se_quiet|done]. Qed.

(** One session is rewritten and its entry may change; no other entry is added. *)
Lemma se_write st st' k s s' :
  JsMap.get k (Plane.sessions st) = Some s ->
  Plane.sessions st' = JsMap.set k s' (Plane.sessions st) ->
  (forall j, j <> k -> pending st' j = true -> pending st j = true) ->
  evolves s (pending st k) s' (pending st' k) -> st ⪯ st'.
Proof.
  intros G E P Hev. split; intros j; rewrite E, JsMap.get_set.
  - intros v Gv. case_decide as Hj; [subst j; exists s'; by assert (v = s) as -> by congruence|].
    exists v. split; [done|]. apply core_evolves; [apply core_eq_refl|]. by apply P.
  - case_decide as Hj; [|done]. subst j. congruence.
Qed.

(** One session is written back. *)
Lemma se_update st st1 k s s' :
  quiet st st1 -> JsMap.get k (Plane.sessions st) = Some s ->
  evolves s (pending st k) s' (pending st1 k) -> st ⪯ update_session st1 k s'.
Proof. intros [E P] G Hev. apply (se_write st _ k s s'); [done|simpl; by rewrite E|by intros j _; apply P|done]. Qed.

(** .. and its entry is dropped next. *)
Lemma se_update_forget st st1 k s s' :
  quiet st st1 -> JsMap.get k (Plane.sessions st) = Some s -> evolves s (pending st k) s' false ->
  st ⪯ forget_ack (update_session st1 k s') k.
Proof.
  intros [E P] G Hev. apply (se_write st _ k s s'); [done|simpl; by rewrite E| |].
  - intros j Hj. rewrite pending_forget, decide_False by done. apply P.
  - by rewrite pending_forget, decide_True by done.
Qed.

Lemma se_persist st st1 k s s' :
  quiet st st1 -> JsMap.get k (Plane.sessions st) = Some s -> Session.id s' = k ->
  evolves s (pending st k) s' (pending st1 k) -> st ⪯ persistSession st1 s'.
Proof.
  intros Q G Hid Hev. unfold persistSession. rewrite Hid. apply (se_update _ _ _ s); [done|done|].
  eapply evolves_trans; [done|]. apply core_evolves; [apply persistence_core|done].
Qed.

(** A session whose core is unchanged is written back. *)
Lemma se_update_core st st1 k s s' :
  quiet st st1 -> JsMap.get k (Plane.sessions st) = Some s -> core_eq s s' -> st ⪯ update_session st1 k s'.
Proof. intros Q G C. apply (se_update _ _ _ s); [done|done|]. by apply core_evolves; [|apply Q]. Qed.

Lemma quiet_release st w : quiet st (releaseWorktree st w).
Proof. unfold releaseWorktree. case_match; by apply quiet_same. Qed.
Lemma quiet_release_if_owner st w k : quiet st (release_if_owner st w k).
Proof. unfold release_if_owner. repeat case_match; [apply quiet_release|done|done]. Qed.
Lemma quiet_account st s : quiet st (releaseProviderAccountLease st s).1.
Proof. unfold releaseProviderAccountLease, releaseProviderAccountLeaseLocal. repeat case_match; by apply quiet_same. Qed.
Lemma quiet_checkout st s : quiet st (releaseScheduledLeaseLocal st s).2.
Proof. unfold releaseScheduledLeaseLocal. repeat case_match; by apply quiet_same. Qed.
Lemma quiet_slot_local st s e : quiet st (releaseWorkspaceSlotLocal st s e).1.
Proof.
  unfold releaseWorkspaceSlotLocal, removeReleasedRetiredWorkspaceSlot.
  repeat case_match; simplify_eq/=; by apply quiet_same.
Qed.
Lemma quiet_slot st s : quiet st (releaseWorkspaceSlot st s).1.
Proof. unfold releaseWorkspaceSlot. repeat case_match; simplify_eq/=; by apply quiet_same. Qed.
Lemma quiet_claim st w k now : quiet st (tryClaimWorktree st w k now).2.
Proof. unfold tryClaimWorktree. repeat case_match; by apply quiet_same. Qed.
Lemma quiet_touch st id at_ : quiet st (touchAccount st id at_).
Proof. unfold touchAccount. repeat case_match; by apply quiet_same. Qed.
Lemma quiet_cooldown st c : quiet st (apply_cooldown st c).
Proof. unfold apply_cooldown. repeat case_match; by apply quiet_same. Qed.
Lemma quiet_acquire st s a t h o c : quiet st (tryAcquireProviderAccountLeaseLocal st s a t h o c).2.
Proof. unfold tryAcquireProviderAccountLeaseLocal. repeat case_match; simplify_eq/=; by apply quiet_same. Qed.
Lemma quiet_emit st h m : quiet st (emit st h m).
Proof. by apply quiet_same. Qed.
Lemma quiet_archive st k : quiet st (queueSessionArchive st k).
Proof. by apply quiet_same. Qed.
Lemma quiet_request st k : quiet st (request_assign st k).
Proof. by apply quiet_same. Qed.

Create HintDb sess.
#[export] Hint Resolve se_refl quiet_refl evolves_refl core_eq_refl running_live queued_live quiet_release
  quiet_release_if_owner quiet_account quiet_checkout quiet_slot_local quiet_slot quiet_claim quiet_touch
  quiet_cooldown quiet_acquire quiet_emit quiet_archive quiet_request quiet_forget : sess.

(** Names what a release of the account lease leaves. *)
Ltac account_core st s st' s' Q C :=
  pose proof (quiet_account st s) as Q; pose proof (release_account_core st s) as C;
  destruct (releaseProviderAccountLease st s) as [st' s']; cbn [fst snd] in Q, C.

(** The invariant of the sessions is kept by whatever evolves. *)
Definition sessions_ok (st : ControlPlaneState) : Prop :=
  forall k s, JsMap.get k (Plane.sessions st) = Some s -> sess_ok s (pending st k).

Lemma sessions_ok_evolve st st' : st ⪯ st' -> sessions_ok st -> sessions_ok st'.
Proof.
  intros [S N] H k s' G'. destruct (JsMap.get k (Plane.sessions st)) as [s|] eqn:G.
  - destruct (S k s G) as (s2 & G2 & Ev). assert (s2 = s') as -> by congruence. by apply Ev, (H k).
  - apply N in G. congruence.
Qed.

(** ** The operations on a running plane *)

(** Sessions evolve and every worktree stays with its owner. *)
Definition advances (st st' : ControlPlaneState) : Prop := own_inv st' /\ st ⪯ st'.

Lemma advances_trans st1 st2 st3 : advances st1 st2 -> advances st2 st3 -> advances st1 st3.
Proof. intros [_ E1] [O2 E2]. split; [done|by eapply se_trans]. Qed.

(** A loop advances when its body does. *)
Lemma for_each_advances {A V} (look : ControlPlaneState -> JsMap.t V)
    (body : ControlPlaneState -> string -> V -> option (list A) * ControlPlaneState) keys st :
  (forall st k v, own_inv st -> JsMap.get k (look st) = Some v -> advances st (body st k v).2) ->
  own_inv st -> advances st (for_each look body keys st).2.
Proof.
  intros Hbody H. apply (for_each_inv (advances st)); [|split; [done|apply se_refl]].
  intros st' k v H' G. eapply advances_trans; [done|]. by apply Hbody; [apply H'|].
Qed.

Section evolution.
Context {LC : LocaleCompare} {DP : DateParse} {UP : UrlParse}.
Implicit Types (st : ControlPlaneState) (s : SessionRecord).

Lemma se_ack st id w a : st ⪯ (handleSessionAck st id w a).2.
Proof.
  unfold handleSessionAck.
  destruct (JsMap.get id (Plane.sessions st)) as [s|] eqn:G; [|apply se_refl].
  destruct (planSessionTransition _ _ _) as [plan|]; [|apply se_refl].
  destruct (negb _); [apply se_refl|]. cbn [snd].
  set (s' := s <| Session.ackReceivedAt := _ |>).
  assert (st ⪯ forget_ack (update_session st id s') id) as H
    by (apply (se_update_forget _ _ _ s); [apply quiet_refl|done|by apply core_evolves]).
  destruct (truthy_nul _); [|done]. eapply se_after; [exact H|apply quiet_emit].
Qed.

Lemma se_command_start st id w a : st ⪯ (handleCommandStart st id w a).2.
Proof.
  unfold handleCommandStart.
  destruct (JsMap.get id (Plane.sessions st)) as [s|] eqn:G; [|apply se_refl].
  destruct (planSessionTransition _ _ _) as [plan|]; [|apply se_refl].
  set (acc := negb _ && negb _).
  assert (forall s' st', st ⪯ st' -> st ⪯ match truthy_nul (Session.hostId s') with
    | Some host => if acc && bool_decide (Session.primaryCommandStartState s' = Some start_authorized)
                   then emit st' host (msg_command_start_acknowledged (Session.id s') a) else st'
    | None => st' end) as Hemit.
  { intros s' st' H. repeat case_match; try done. eapply se_after; [exact H|apply quiet_emit]. }
  destruct (acc && has_effect pick_authorize plan); cbn [snd]; apply Hemit; [|apply se_refl].
  apply (se_update_core _ _ _ s); [apply quiet_refl|done|done].
Qed.

Lemma cancel_live s ctx plan :
  planSessionTransition (Some s) ev_cancel ctx = Some plan -> has_effect pick_cancel plan = true ->
  isTerminalSessionStatus (Session.status s) = false.
Proof.
  cbn [planSessionTransition]. intros [= <-]. unfold planCancel, has_effect.
  by destruct (isTerminalSessionStatus (Session.status s)).
Qed.

Lemma se_cancel st id : own_inv st -> st ⪯ (cancelSession st id).2.
Proof.
  intros Hown. unfold cancelSession.
  destruct (JsMap.get id (Plane.sessions st)) as [s|] eqn:G; [|apply se_refl].
  destruct (planSessionTransition _ _ _) as [plan|] eqn:P; [|apply se_refl].
  destruct (find_effect pick_reject plan); [apply se_refl|].
  destruct (find_effect pick_cancel plan) as [hold|] eqn:C; [|apply se_refl].
  assert (isTerminalSessionStatus (Session.status s) = false) as Hlive
    by (eapply cancel_live; [exact P|]; unfold has_effect; by rewrite C).
  set (s0 := s <| _ := _ |> <| _ := _ |> <| _ := _ |>).
  assert (Session.id s = id) as Hid by (by apply (oe_ids _ _ Hown)).
  assert (pending (forget_ack st id) id = false) as Hp by (by rewrite pending_forget, decide_True).
  destruct (if hold then truthy_nul (Session.hostId s0) else None) as [host|]; cbn [snd].
  - apply (se_persist _ _ id s); [exact (quiet_forget st id)|done|exact Hid|].
    apply live_evolves; [done|done|by left|done|by intros _; exact Hp].
  - set (st1 := match _ with Some w => releaseWorktree _ w | None => _ end).
    assert (quiet (forget_ack st id) st1) as Q1 by (unfold st1; case_match; auto with sess).
    account_core st1 s0 st2 s1 Q C1. cbn [snd].
    destruct C1 as (I1 & Es & Eh & Ew).
    assert (quiet (forget_ack st id) st2) as Q2 by (by eapply quiet_trans).
    assert (pending st2 id = false) as Hp2
      by (destruct (pending st2 id) eqn:E; [apply Q2 in E; congruence|done]).
    apply (se_persist _ _ id s); [eapply quiet_trans; [apply quiet_forget|exact Q2]|done| |].
    + simpl. rewrite (lineage_id _ _ I1). exact Hid.
    + apply live_evolves; [done|lin|by left|by intros _; apply detached_null|by intros _].
Qed.

Lemma se_ack_deadlines st nowMs : own_inv st -> st ⪯ (enforceAckDeadlines st nowMs).2.
Proof.
  intros H. apply (for_each_advances Plane.pendingAcks (enforce_ack nowMs)); [|done]. clear st H.
  intros st k p H Gp. split.
  { pose proof (own_ack_deadlines_body st nowMs k p H) as Hb. exact Hb. }
  assert (pending st k = true) as Hp by (unfold pending, JsMap.has; by rewrite Gp).
  unfold enforce_ack.
  destruct (ack_not_due st nowMs p); [apply se_refl|].
  destruct (JsMap.get k (Plane.sessions st)) as [s|] eqn:G; cbn [snd]; [|by apply se_quiet, quiet_forget].
  destruct (awaits_ack s p) eqn:Hw; cbn [snd]; [|by apply se_quiet, quiet_forget].
  unfold requeue_unacked. destruct (truthy_opt (Ack.worktreeId p)) as [w|].
  - account_core (releaseWorktree st w) s st2 s1 Q C.
    apply (se_update_forget _ _ _ s); [eapply quiet_trans; [apply quiet_release|exact Q]|done|].
    destruct C as (I & Es & Eh & Ew). apply requeue_evolves; [by right|lin|exact Eh|by left].
  - account_core (releaseScheduledLeaseLocal st s).2 s st2 s1 Q C.
    apply (se_update_forget _ _ _ s); [eapply quiet_trans; [apply quiet_checkout|exact Q]|done|].
    destruct C as (I & Es & Eh & Ew). apply requeue_evolves; [by right|lin|exact Eh|by left].
Qed.

Lemma release_timed_out_core st s :
  quiet st (release_timed_out st s).1 /\ core_eq s (release_timed_out st s).2.
Proof.
  unfold release_timed_out. destruct (is_true_opt _); [split; [apply quiet_checkout|done]|].
  destruct (truthy_nul (Session.worktreeId s)); [split; [apply quiet_release_if_owner|done]|].
  split; [apply quiet_slot|apply release_slot_core].
Qed.

Lemma quiet_pending st st' k : quiet st st' -> pending st k = false -> pending st' k = false.
Proof. intros [_ P] H. destruct (pending st' k) eqn:E; [apply P in E; congruence|done]. Qed.

Lemma se_time_out st k s :
  own_inv st -> JsMap.get k (Plane.sessions st) = Some s -> Session.status s = running ->
  st ⪯ timeOutAcknowledgedSession st s.
Proof.
  intros H G Hrun. unfold timeOutAcknowledgedSession.
  assert (Session.id s = k) as Hid by (by apply (oe_ids _ _ H)).
  set (s0 := s <| _ := _ |> <| _ := _ |> <| _ := _ |>).
  match goal with |- context [release_timed_out ?x s0] => set (st0 := x) end.
  assert (quiet (forget_ack st k) st0) as Q0.
  { unfold st0. change (Session.id s0) with (Session.id s). rewrite Hid. case_match; auto with sess. }
  destruct (release_timed_out_core st0 s0) as [Q1 C1].
  destruct (release_timed_out st0 s0) as [st1 s1]. cbn [fst snd] in Q1, C1.
  destruct C1 as (I1 & Es & Eh & Ew).
  eapply se_after; [|apply quiet_archive].
  assert (quiet (forget_ack st k) st1) as Q by (by eapply quiet_trans).
  apply (se_persist _ _ k s); [eapply quiet_trans; [apply quiet_forget|exact Q]|done| |].
  - simpl. rewrite (lineage_id _ _ I1). exact Hid.
  - apply live_evolves; [by apply running_live|lin|by left; exact Eh|by intros _; apply detached_null|].
    intros _. eapply quiet_pending; [exact Q|]. by rewrite pending_forget, decide_True.
Qed.

Lemma se_running_timeouts st nowMs : own_inv st -> st ⪯ (enforceRunningTimeouts st nowMs).2.
Proof.
  intros H. apply (for_each_advances Plane.sessions); [|done]. clear st H. intros st k s H G.
  destruct (isAcknowledgedRunningDue s nowMs) eqn:D; [|split; [done|apply se_refl]].
  unfold isAcknowledgedRunningDue in D. apply andb_true_iff in D as [D _]. apply bool_decide_eq_true in D.
  split; [by eapply own_time_out|by eapply se_time_out].
Qed.

Lemma quiet_set_worktree st k w : quiet st (set_worktree st k w).
Proof. by apply quiet_same. Qed.
Lemma quiet_persist_worktree st w : quiet st (persistWorktree st w).
Proof. by apply quiet_same. Qed.

Lemma se_offline_worktree st reason k wt :
  st ⪯ (offline_worktree st reason k wt).2.
Proof.
  unfold offline_worktree. set (wt0 := wt <| Worktree.online := false |>).
  pose proof (quiet_set_worktree st k wt0) as Q0. set (st0 := set_worktree st k wt0) in *.
  destruct (negb _); [by apply se_quiet|].
  destruct (truthy_nul (Worktree.currentSessionId wt0)) as [sid|]; cbn [snd];
    [|by apply se_quiet; eapply quiet_trans; [exact Q0|apply quiet_persist_worktree]].
  change (Plane.sessions st0) with (Plane.sessions st).
  destruct (JsMap.get sid (Plane.sessions st)) as [s|] eqn:G; [|by apply se_quiet].
  destruct (negb _) eqn:Hr; [by apply se_quiet|]. apply negb_false_iff, bool_decide_eq_true in Hr.
  destruct (is_some _).
  - destruct (now_plus st0 _) as [deadline|]; [|by apply se_quiet]. cbn [snd].
    eapply se_after; [|apply quiet_persist_worktree]. by apply (se_update_core _ _ _ s).
  - account_core (releaseWorktree st0 (Worktree.id wt0)) s st2 s1 Q C. cbn [snd].
    apply (se_update_forget _ _ _ s); [|done|].
    + eapply quiet_trans; [exact Q0|]. eapply quiet_trans; [apply quiet_release|exact Q].
    + destruct C as (I & Es & Eh & Ew).
      apply requeue_evolves; [by left; apply running_live|lin|exact Eh|by left].
Qed.

Lemma se_offline_scheduled st hostId reason k s :
  own_inv st -> JsMap.get k (Plane.sessions st) = Some s -> st ⪯ (offline_scheduled st hostId reason k s).2.
Proof.
  intros H G. unfold offline_scheduled. destruct (_ || _) eqn:E; [apply se_refl|].
  apply orb_false_iff in E as [_ Hr]. apply negb_false_iff, bool_decide_eq_true in Hr.
  destruct (is_some _).
  - destruct (now_plus st _) as [deadline|]; [|apply se_refl]. cbn [snd].
    apply (se_update_core _ _ _ s); [apply quiet_refl|done|done].
  - account_core (releaseScheduledLeaseLocal st s).2 s st2 s1 Q C. cbn [snd].
    destruct C as (I & Es & Eh & Ew).
    assert (Session.id s1 = k) as Hid by (rewrite (lineage_id _ _ I); exact (oe_ids _ _ H k s G)). rewrite Hid.
    apply (se_update_forget _ _ _ s); [eapply quiet_trans; [apply quiet_checkout|exact Q]|done|].
    apply requeue_evolves; [by left; apply running_live|lin|exact Eh|by left].
Qed.

Lemma se_offline_host st hostId reason : own_inv st -> st ⪯ (offlineHostAndRequeue st hostId reason).2.
Proof.
  intros H. unfold offlineHostAndRequeue.
  match goal with |- context [for_each Plane.worktrees ?f ?ks st] =>
    pose proof (for_each_advances Plane.worktrees f ks st) as H1;
    destruct (for_each Plane.worktrees f ks st) as [first st1] eqn:E1 end.
  destruct H1 as [O1 E]; [|done|].
  { intros st' k wt H' G. destruct (negb _); [split; [done|apply se_refl]|].
    split; [by apply own_offline_worktree|apply se_offline_worktree]. }
  destruct first as [first|]; [|done]. cbn [snd] in *.
  match goal with |- context [for_each Plane.sessions ?f ?ks st1] =>
    pose proof (for_each_advances Plane.sessions f ks st1) as H2;
    destruct (for_each Plane.sessions f ks st1) as [more st2] eqn:E2 end.
  cbn [snd] in *. eapply se_trans; [exact E|]. apply H2; [|done].
  intros st' k s H' G. split; [by apply own_offline_scheduled|by apply se_offline_scheduled].
Qed.

(** ** Assignment *)

(** A queued session is assigned, expires, or is left as it was. *)
Lemma se_assign_claimed st s w r nowIso nowMs :
  JsMap.get (Session.id s) (Plane.sessions st) = Some s -> Session.status s = queued ->
  scheduleKind s = prompt_kind ->
  st ⪯ (assign_claimed st s w r nowIso nowMs).2.
Proof.
  intros G Hq Hk. unfold assign_claimed. cbn [draw_attempt].
  set (st1 := st <| Plane.attemptsDrawn := _ |>).
  set (kst := if hostAdvertisesSessionSpawn _ _ then _ else _).
  assert (quiet st kst.2) as Q2 by (unfold kst; case_match; by apply quiet_same).
  destruct kst as [key st2]. cbn [snd] in Q2.
  match goal with |- context [tryAcquireProviderAccountLeaseLocal st2 s ?a ?t ?h ?o ?c] =>
    pose proof (quiet_acquire st2 s a t h o c) as Q3;
    destruct (tryAcquireProviderAccountLeaseLocal st2 s a t h o c) as [lease st3] end.
  cbn [snd] in Q3. assert (quiet st st3) as Q by (by eapply quiet_trans).
  destruct (is_some _ && negb _); cbn [snd].
  - apply se_quiet. eapply quiet_trans; [exact Q|apply quiet_release].
  - match goal with |- context [update_session st3 _ ?x] => set (s1 := x) end.
    change (Session.id s1) with (Session.id s).
    set (st4 := touchAccount (update_session st3 (Session.id s) s1) (Target.providerAccountId r) nowIso).
    destruct (quiet_touch (update_session st3 (Session.id s) s1) (Target.providerAccountId r) nowIso) as [E4 P4].
    fold st4 in E4, P4.
    match goal with |- context [JsMap.set (Session.id s) ?a (Plane.pendingAcks st4)] =>
      set (st5 := st4 <| Plane.pendingAcks := JsMap.set (Session.id s) a (Plane.pendingAcks st4) |>) end.
    assert (st ⪯ st5) as H5.
    { apply (se_write st _ (Session.id s) s s1); [done| | |].
      - change (Plane.sessions st5) with (Plane.sessions st4). rewrite E4. simpl. by destruct Q as [-> _].
      - intros j Hj Hp. apply Q, P4. revert Hp. unfold pending, JsMap.has. simpl.
        by rewrite JsMap.get_set_ne.
      - by apply assign_evolves. }
    destruct (assignLogSettings st5); cbn [snd]; [|done].
    eapply se_after; [exact H5|apply quiet_emit].
Qed.

(** A candidate that is not taken leaves the sessions alone. *)
Lemma assign_claimed_none st s w r nowIso nowMs st' :
  assign_claimed st s w r nowIso nowMs = (attempt_none, st') -> quiet st st'.
Proof.
  unfold assign_claimed. cbn [draw_attempt].
  set (kst := if hostAdvertisesSessionSpawn _ _ then _ else _).
  assert (quiet st kst.2) as Q2 by (unfold kst; case_match; by apply quiet_same).
  destruct kst as [key st2]. cbn [snd] in Q2.
  match goal with |- context [tryAcquireProviderAccountLeaseLocal st2 s ?a ?t ?h ?o ?c] =>
    pose proof (quiet_acquire st2 s a t h o c) as Q3;
    destruct (tryAcquireProviderAccountLeaseLocal st2 s a t h o c) as [lease st3] end.
  cbn [snd] in Q3. destruct (is_some _ && negb _); [|by destruct (assignLogSettings _)].
  intros [= <-]. eapply quiet_trans; [exact Q2|]. eapply quiet_trans; [exact Q3|apply quiet_release].
Qed.

Lemma se_try_candidates s nowIso nowMs candidates :
  Session.status s = queued -> scheduleKind s = prompt_kind -> forall st,
  JsMap.get (Session.id s) (Plane.sessions st) = Some s ->
  st ⪯ (try_candidates st s nowIso nowMs candidates).2.
Proof.
  intros Hq Hk. induction candidates as [|[w r] rest IH]; intros st G; [apply se_refl|].
  cbn [try_candidates]. destruct (negb _ || negb _); [by apply IH|].
  pose proof (quiet_claim st (Worktree.id w) (Session.id s) nowIso) as Qc.
  destruct (tryClaimWorktree st (Worktree.id w) (Session.id s) nowIso) as [[] st1]; cbn [snd] in Qc.
  - assert (JsMap.get (Session.id s) (Plane.sessions st1) = Some s) as G1 by (by destruct Qc as [-> _]).
    pose proof (se_assign_claimed st1 s w r nowIso nowMs G1 Hq Hk) as H1.
    pose proof (assign_claimed_none st1 s w r nowIso nowMs) as Hn.
    destruct (assign_claimed st1 s w r nowIso nowMs) as [[] st2]; cbn [snd] in *.
    + specialize (Hn _ eq_refl). eapply se_before; [exact Qc|]. eapply se_before; [exact Hn|].
      apply IH. by destruct Hn as [-> _].
    + by eapply se_before.
    + by eapply se_before.
  - eapply se_before; [exact Qc|]. apply IH. by destruct Qc as [-> _].
Qed.

Lemma se_assign_session st catalog s nowIso nowMs :
  JsMap.get (Session.id s) (Plane.sessions st) = Some s -> Session.status s = queued ->
  scheduleKind s = prompt_kind ->
  st ⪯ (assign_session st catalog s nowIso nowMs).2.
Proof.
  intros G Hq Hk. unfold assign_session.
  assert (forall st' s' plan, st ⪯ st' -> Session.status s' = queued -> scheduleKind s' = prompt_kind ->
    JsMap.get (Session.id s') (Plane.sessions st') = Some s' ->
    st ⪯ (match plan with
       | prompt_expire => (attempt_none, expireQueuedLocal st' s' nowIso)
       | prompt_assign candidates => try_candidates st' s' nowIso nowMs candidates
       | _ => (attempt_none, st')
       end).2) as Hgo.
  { intros st' s' plan H' Hq' Hk' G'. destruct plan; cbn [snd]; [|done|done|].
    - eapply se_trans; [exact H'|]. apply (se_persist _ _ (Session.id s') s'); [apply quiet_refl|done|done|].
      apply live_evolves; [by apply queued_live|done|by left|done|done].
    - eapply se_trans; [exact H'|]. by apply se_try_candidates. }
  destruct (planPromptPlacement st catalog s nowMs) as [|reason| |candidates].
  - exact (Hgo st s prompt_expire (se_refl st) Hq Hk G).
  - exact (Hgo st s (prompt_skip reason) (se_refl st) Hq Hk G).
  - cbv zeta. apply (Hgo _ (clearResumePin s)); [|done|done|apply JsMap.get_set_eq].
    apply (se_update_core _ _ _ s); [apply quiet_refl|done|done].
  - exact (Hgo st s (prompt_assign candidates) (se_refl st) Hq Hk G).
Qed.

Lemma se_assign_loop catalog sessionId nowIso nowMs queue : forall st,
  own_inv st -> queue_ok st queue -> Forall (fun s => Session.status s = queued /\ scheduleKind s = prompt_kind) queue ->
  st ⪯ (assign_loop st catalog sessionId nowIso nowMs queue).2.
Proof.
  induction queue as [|s queue IH]; intros st H Hq Hf; [apply se_refl|]. cbn [assign_loop].
  inversion Hf as [|? ? [Hs Hk] Hf']; subst.
  destruct (match sessionId with Some id => _ | None => false end).
  - apply IH; [done| |done]. eapply queue_ok_step; [done|apply only_session_refl].
  - assert (JsMap.get (Session.id s) (Plane.sessions st) = Some s) as G by (apply Hq; by left).
    destruct (own_assign_session st catalog s nowIso nowMs H G) as [H1 O1].
    pose proof (se_assign_session st catalog s nowIso nowMs G Hs Hk) as E1.
    pose proof (queue_ok_step _ _ _ _ Hq O1) as Hq1.
    destruct (assign_session st catalog s nowIso nowMs) as [[] st1]; cbn [snd] in *; [|
      specialize (IH st1 H1 Hq1 Hf'); destruct (assign_loop st1 catalog sessionId nowIso nowMs queue)|done].
    + eapply se_trans; [exact E1|]. by apply IH.
    + by eapply se_trans.
Qed.

Context {LL : LocaleCompareLaws LC}.

Lemma se_assign st sessionId : own_inv st -> st ⪯ (assignQueued st sessionId).2.
Proof.
  intros H. apply se_assign_loop; [done|by apply queue_ok_ordered|].
  apply Forall_forall. intros s Hin. by apply list_elem_of_In, queue_members in Hin.
Qed.

Lemma se_retry_pass st plan : own_inv st -> st ⪯ (retry_pass st plan).2.
Proof.
  intros H. unfold retry_pass. pose proof (se_assign st None H) as Ha.
  destruct (assignQueued st None). destruct (find_effect pick_reschedule plan) as [[]|]; cbn [snd] in *;
    auto using se_quiet, quiet_request, se_refl.
Qed.

Lemma se_requeue_pass st plan : own_inv st -> st ⪯ (requeue_pass st plan).2.
Proof.
  intros H. unfold requeue_pass. pose proof (se_assign st None H) as Ha.
  destruct (assignQueued st None). destruct (find_effect pick_reschedule plan) as [[]|]; cbn [snd] in *;
    auto using se_quiet, quiet_request, se_refl.
Qed.

(** ** Status reports *)

(** What the releases of a late report do to its session. *)
Definition released_core (s s' : SessionRecord) : Prop :=
  lineage s s' /\ Session.status s' = Session.status s /\
  Session.terminalHookHandoff s' = Session.terminalHookHandoff s /\
  (Session.worktreeId s' = Session.worktreeId s \/ Session.worktreeId s' = Null).

Lemma released_core_of s s' : core_eq s s' -> released_core s s'.
Proof. unfold core_eq, released_core. tauto. Qed.

Lemma released_core_trans s1 s2 s3 : released_core s1 s2 -> released_core s2 s3 -> released_core s1 s3.
Proof.
  intros (I1 & S1 & H1 & W1) (I2 & S2 & H2 & W2).
  split; [by eapply lineage_trans|]. intuition congruence.
Qed.

Lemma released_detached s s' : released_core s s' -> detached s -> detached s'.
Proof. intros (_ & _ & _ & [E|E]) H; [by eapply detached_eq|by apply detached_null]. Qed.

Lemma released_evolves s s' p : released_core s s' -> evolves s p s' p.
Proof.
  intros C. pose proof (released_detached _ _ C) as Hd. destruct C as (I & Es & Eh & _).
  apply over_evolves; [done|done|done|done|by left].
Qed.

Lemma account_step st s (cond : bool) :
  quiet st (if cond then releaseProviderAccountLease st s else (st, s)).1 /\
  released_core s (if cond then releaseProviderAccountLease st s else (st, s)).2.
Proof.
  destruct cond; [|split; [apply quiet_refl|by apply released_core_of]].
  split; [apply quiet_account|apply released_core_of, release_account_core].
Qed.

Lemma checkout_step st s cond :
  quiet st (drop_checkout_step cond st s).1 /\ released_core s (drop_checkout_step cond st s).2.
Proof.
  destruct cond; [|split; [apply quiet_refl|by apply released_core_of]].
  split; [apply quiet_checkout|]. split; [done|]. split; [done|]. split; [done|by right].
Qed.

Lemma worktree_step st s cond :
  quiet st (drop_worktree_step cond st s).1 /\ released_core s (drop_worktree_step cond st s).2.
Proof.
  unfold drop_worktree_step.
  destruct (if cond then _ else None); [|split; [apply quiet_refl|by apply released_core_of]].
  split; [apply quiet_release_if_owner|]. split; [done|]. split; [done|]. split; [done|by right].
Qed.

Lemma slot_step st s (cond : bool) e :
  quiet st (if cond then releaseWorkspaceSlotLocal st s e else (st, s)).1 /\
  released_core s (if cond then releaseWorkspaceSlotLocal st s e else (st, s)).2.
Proof.
  destruct cond; [|split; [apply quiet_refl|by apply released_core_of]].
  split; [apply quiet_slot_local|apply released_core_of, release_slot_local_core].
Qed.

Lemma worktree_step_detaches st s : detached (drop_worktree_step true st s).2.
Proof.
  unfold drop_worktree_step. destruct (truthy_nul (Session.worktreeId s)) eqn:E; [by apply detached_null|].
  by apply not_truthy_detached.
Qed.

(** [releaseLocalLateTerminalAssignment] leaves the session without a worktree. *)
Lemma late_assignment_core st s e :
  quiet st (releaseLocalLateTerminalAssignment st s e).1 /\
  released_core s (releaseLocalLateTerminalAssignment st s e).2 /\
  detached (releaseLocalLateTerminalAssignment st s e).2.
Proof.
  unfold releaseLocalLateTerminalAssignment.
  destruct (account_step st s (is_true_opt (Session.mainCheckoutLease s) ||
     is_some (truthy_nul (Session.workspaceSlotId s)) || is_some (truthy_nul (Session.worktreeId s)))) as [Q1 C1].
  destruct (if is_true_opt (Session.mainCheckoutLease s) || _ || _ then _ else _) as [st1 s1].
  cbn [fst snd] in Q1, C1.
  destruct (checkout_step st1 s1 (is_true_opt (Session.mainCheckoutLease s))) as [Q2 C2].
  change (if is_true_opt (Session.mainCheckoutLease s) then _ else (st1, s1))
    with (drop_checkout_step (is_true_opt (Session.mainCheckoutLease s)) st1 s1).
  destruct (drop_checkout_step _ st1 s1) as [st2 s2]. cbn [fst snd] in Q2, C2.
  assert (released_core s s2) as C2' by (by eapply released_core_trans).
  set (c3 := is_some (truthy_nul (Session.worktreeId s))).
  destruct (worktree_step st2 s2 c3) as [Q3 C3].
  assert (detached (drop_worktree_step c3 st2 s2).2) as D3.
  { unfold c3. destruct (truthy_nul (Session.worktreeId s)) eqn:T; [apply worktree_step_detaches|].
    apply (released_detached s); [done|by apply not_truthy_detached]. }
  change (match (if c3 then _ else None) with Some w => _ | None => (st2, s2) end)
    with (drop_worktree_step c3 st2 s2).
  destruct (drop_worktree_step c3 st2 s2) as [st3 s3]. cbn [fst snd] in Q3, C3, D3.
  destruct (slot_step st3 s3 (is_some (truthy_nul (Session.workspaceSlotId s))) e) as [Q4 C4].
  split; [|split].
  - eapply quiet_trans; [exact Q1|]. eapply quiet_trans; [exact Q2|]. by eapply quiet_trans.
  - eapply released_core_trans; [exact C2'|]. by eapply released_core_trans.
  - by eapply released_detached.
Qed.

Lemma quiet_handoff st s msg fb : quiet st (deferredTerminalHookHandoff st s msg fb).2.
Proof. unfold deferredTerminalHookHandoff. case_match; by apply quiet_same. Qed.

Lemma se_settle_deferred st k s msg owner out st' :
  own_inv st -> JsMap.get k (Plane.sessions st) = Some s ->
  settle_deferred st s msg owner = Some (out, st') -> st ⪯ st'.
Proof.
  intros H G. unfold settle_deferred. destruct (_ && _) eqn:Hc; [|done].
  assert (settled (Session.status s) = true) as Hs.
  { apply andb_true_iff in Hc as [Hc _]. apply andb_true_iff in Hc as [Hc _].
    apply andb_true_iff in Hc as [_ Hc]. apply orb_true_iff in Hc as [Hc|Hc];
      apply bool_decide_eq_true in Hc; by rewrite Hc. }
  clear Hc. case_bool_decide as Hset; [intros [= _ <-]; apply se_refl|]. destruct (_ || _); [done|].
  pose proof (quiet_handoff st s msg owner) as Q0.
  assert (Session.id s = k) as Hid by (by apply (oe_ids _ _ H)).
  destruct (deferredTerminalHookHandoff st s msg owner) as [[[handoff|]|] st1]; cbn [snd] in Q0; [|done|].
  - set (s0 := s <| Session.terminalHookHandoff := Some handoff |>).
    case_bool_decide as Hto.
    + account_core st1 s0 st2 s1 Q C. intros [= _ <-]. destruct C as (I & Es & Eh & Ew).
      assert (quiet st st2) as Q2 by (by eapply quiet_trans).
      apply (se_persist _ _ k s); [exact Q2|done|simpl; by rewrite (lineage_id _ _ I)|].
      apply over_evolves; [lin|exact Es|by apply detached_eq|apply Q2|].
      right; right. split; [done|]. intros [_ O _]. eapply detached_eq; [exact Ew|]. by apply O.
    + destruct (late_assignment_core st1 s0 (Status.workspaceSlotError msg)) as (Q & C & D).
      destruct (releaseLocalLateTerminalAssignment _ _ _) as [st2 s1]. cbn [fst snd] in Q, C, D.
      intros [= _ <-]. pose proof (released_detached _ _ C) as Hd. destruct C as (I & Es & Eh & _).
      assert (quiet st st2) as Q2 by (by eapply quiet_trans).
      apply (se_persist _ _ k s); [exact Q2|done|by rewrite (lineage_id _ _ I)|].
      apply over_evolves; [lin|exact Es|by intros _|apply Q2|].
      right; right. by split.
  - intros [= _ <-]. by apply se_quiet.
Qed.

Lemma se_settle_timeout st k s r :
  own_inv st -> JsMap.get k (Plane.sessions st) = Some s -> st ⪯ settle_timeout st s r.
Proof.
  intros H G. unfold settle_timeout. account_core st s st1 s1 Q C.
  assert (core_eq s (drop_timeout_fields (keep_result s1 r))) as C2
    by (eapply core_eq_trans; [exact C|]; apply (keep_result_core s1 r)).
  apply (se_persist _ _ k s); [done|done| |by apply core_evolves; [|apply Q]].
  rewrite (core_id _ _ C2). by apply (oe_ids _ _ H).
Qed.

Lemma se_late_report st k s msg plan :
  own_inv st -> JsMap.get k (Plane.sessions st) = Some s -> st ⪯ apply_late_report st s msg plan.
Proof.
  intros H G. unfold apply_late_report.
  destruct (account_step st s (has_effect pick_release_lease plan || has_effect pick_release_worktree plan ||
     has_effect pick_release_workspace plan)) as [Q1 C1].
  destruct (if has_effect pick_release_lease plan || _ || _ then _ else _) as [st1 s1]. cbn [fst snd] in Q1, C1.
  set (c2 := has_effect pick_release_lease plan && is_true_opt (Session.mainCheckoutLease s1)).
  destruct (checkout_step st1 s1 c2) as [Q2 C2].
  change (if c2 then _ else (st1, s1)) with (drop_checkout_step c2 st1 s1).
  destruct (drop_checkout_step c2 st1 s1) as [st2 s2]. cbn [fst snd] in Q2, C2.
  destruct (worktree_step st2 s2 (has_effect pick_release_worktree plan)) as [Q3 C3].
  change (match (if has_effect pick_release_worktree plan then _ else None) with
          | Some w => _ | None => (st2, s2) end)
    with (drop_worktree_step (has_effect pick_release_worktree plan) st2 s2).
  destruct (drop_worktree_step _ st2 s2) as [st3 s3]. cbn [fst snd] in Q3, C3.
  destruct (slot_step st3 s3 (has_effect pick_release_workspace plan) (Status.workspaceSlotError msg)) as [Q4 C4].
  destruct (if has_effect pick_release_workspace plan then _ else _) as [st4 s4]. cbn [fst snd] in Q4, C4.
  set (s5 := match _ with Some ref => _ | None => s4 end).
  assert (core_eq s4 s5) as C5 by (unfold s5; by case_match).
  pose proof (keep_result_core s5 (p ← find_effect pick_patch plan; Report.result p.2)) as C6.
  assert (released_core s (keep_result s5 (p ← find_effect pick_patch plan; Report.result p.2))) as C.
  { do 4 (eapply released_core_trans; [eassumption|]). apply released_core_of. by eapply core_eq_trans. }
  assert (quiet st st4) as Q by (do 3 (eapply quiet_trans; [eassumption|]); done).
  apply (se_persist _ _ k s); [done|done|rewrite (lineage_id _ _ (proj1 C)); by apply (oe_ids _ _ H)|].
  pose proof (released_detached _ _ C) as Hd. destruct C as (I & Es & Eh & _).
  apply over_evolves; [done|done|done|apply Q|by left].
Qed.

Lemma releaseEffects_find {A} (pick : SessionTransitionEffect -> option A) s rest :
  pick fx_release_lease = None -> pick fx_release_workspace = None -> pick fx_release_worktree = None ->
  find_effect pick (releaseEffects s ++ rest)%list = find_effect pick rest.
Proof. intros. by rewrite find_effect_app, releaseEffects_no. Qed.

(** Only a report on a running session requeues it. *)
Lemma requeue_is_running s w a status fields ctx plan :
  planStatus s w a status fields ctx = Some plan -> has_effect pick_requeue plan = true ->
  Session.status s = running.
Proof.
  unfold planStatus, has_effect.
  set (prefix := if bool_decide (Ctx.source ctx = durable) && _ && _ then [fx_retry_archive] else []).
  assert (forall l, find_effect pick_requeue (prefix ++ l)%list = find_effect pick_requeue l) as Hpre.
  { intros l. unfold prefix. by destruct (_ && _). }
  clearbody prefix.
  destruct (negb (attemptMatches s w a)); [intros [= <-]; by rewrite Hpre|].
  destruct (negb (isTerminalSessionStatus status)).
  { destruct (bool_decide (Ctx.source ctx = local)); [|by intros [= <-]].
    intros [= <-]. by destruct (bool_decide (Session.status s = running)). }
  destruct (bool_decide (Session.status s = running)) eqn:Hr; [by apply bool_decide_eq_true in Hr|].
  cbn [negb]. intros [= <-]. unfold planLateTerminal.
  destruct (_ && _); [by rewrite Hpre|]. destruct (_ && _); [by rewrite Hpre|].
  rewrite Hpre, releaseEffects_find by done. by destruct (_ || _).
Qed.

(** A report that is applied to a running session gives it the status it reports. *)
Lemma running_patch s w a status fields ctx plan :
  planStatus s w a status fields ctx = Some plan -> Session.status s = running -> Ctx.source ctx = local ->
  has_effect pick_ignore plan = false ->
  opt_or (p ← find_effect pick_patch plan; p.1) status = status.
Proof.
  unfold planStatus. intros Hp Hr Hl Hi. rewrite Hr, Hl in Hp.
  change (isTerminalSessionStatus running) with false in Hp.
  rewrite andb_false_r in Hp. cbn [app] in Hp.
  destruct (attemptMatches s w a); cbn [negb] in Hp; [|by injection Hp as <-].
  destruct (isTerminalSessionStatus status); cbn [negb] in Hp;
    [|rewrite !bool_decide_true in Hp by done; by injection Hp as <-].
  rewrite bool_decide_true in Hp by done. cbn [negb] in Hp.
  destruct (_ && _) in Hp.
  - unfold planUsageLimit in Hp. rewrite Hl in Hp.
    repeat case_match; simplify_eq/=; try destruct (date_iso _); simplify_eq/=;
      rewrite ?find_effect_app, ?releaseEffects_no by done; by repeat case_match.
  - destruct (_ && _) in Hp; injection Hp as <-; [|by rewrite releaseEffects_find].
    unfold planInfrastructureFailure. rewrite Hr. cbn [negb].
    destruct (negb (bool_decide (running = running))); [done|].
    destruct (_ && _); by rewrite releaseEffects_find.
Qed.

Lemma se_infrastructure_retry st k s msg plan fields :
  own_inv st -> JsMap.get k (Plane.sessions st) = Some s -> Session.status s = running ->
  st ⪯ (apply_infrastructure_retry st s msg plan fields).2.
Proof.
  intros H G Hr. pose proof (own_infrastructure_retry st k s msg plan fields H G) as Hown.
  revert Hown. unfold apply_infrastructure_retry.
  set (rel := if is_true_opt (Session.mainCheckoutLease s) then _ else _).
  assert (quiet st rel.2) as Q0.
  { unfold rel. destruct (is_true_opt _); [apply quiet_checkout|].
    destruct (truthy_nul (Session.worktreeId s)); [apply quiet_release|apply quiet_refl]. }
  assert ((rel.1 = true -> own_except (Some k) rel.2)) as He.
  { unfold rel. destruct (is_true_opt _).
    - intros _. eapply own_except_frame; [apply release_checkout_lease_frame|by apply own_weaken].
    - destruct (truthy_nul (Session.worktreeId s)) as [w|] eqn:T; [|done]. intros _.
      apply truthy_nul_Some in T as [T Hne]. by eapply own_release_named. }
  destruct rel as [[] st1]; cbn [negb snd] in *; [|intros _; by apply se_quiet].
  specialize (He eq_refl).
  pose proof (release_account_frame st1 s) as F. account_core st1 s st2 s1 Q C. cbn [fst] in F.
  match goal with |- context [update_session st2 (Session.id s1) ?x] => set (next := x) end.
  destruct C as (I & Es & Eh & Ew).
  assert (Session.id s1 = k) as Hid by (rewrite (lineage_id _ _ I); exact (oe_ids _ _ H k s G)).
  rewrite Hid. set (st3 := forget_ack (update_session st2 k next) k).
  assert (own_inv st3) as O3.
  { unfold st3. own_peel. apply own_update_detached; [by eapply own_except_frame|exact Hid|by apply detached_null]. }
  assert (st ⪯ st3) as E3.
  { apply (se_update_forget _ _ _ s); [by eapply quiet_trans|done|].
    apply requeue_evolves; [by left; apply running_live|lin|exact Eh|by left]. }
  pose proof (se_retry_pass st3 plan O3) as E4.
  destruct (retry_pass st3 plan) as [returned st4]. cbn [snd] in *. intros _. by eapply se_trans.
Qed.

Lemma release_terminal_core st s msg plan handoff :
  quiet st (release_terminal st s msg plan handoff).1 /\ core_eq s (release_terminal st s msg plan handoff).2.
Proof.
  unfold release_terminal. destruct (is_true_opt _); [split; [apply quiet_refl|by case_match]|].
  assert (forall e, quiet st (if has_effect pick_release_workspace plan
            then releaseWorkspaceSlotLocal st s e else (st, s)).1 /\
          core_eq s (if has_effect pick_release_workspace plan
            then releaseWorkspaceSlotLocal st s e else (st, s)).2) as Hslot.
  { intros e. destruct (has_effect _ _); [|split; [apply quiet_refl|done]].
    split; [apply quiet_slot_local|apply release_slot_local_core]. }
  destruct (if has_effect pick_release_worktree plan then _ else None); [|apply Hslot].
  case_bool_decide; [apply Hslot|]. split; [apply quiet_release|done].
Qed.

Lemma report_fields_lineage s msg status r :
  lineage s (report_fields s msg status r) /\ Session.status (report_fields s msg status r) = status /\
  Session.terminalHookHandoff (report_fields s msg status r) = Session.terminalHookHandoff s /\
  Session.worktreeId (report_fields s msg status r) = Session.worktreeId s.
Proof.
  unfold report_fields.
  match goal with |- context [keep_result ?x r] => destruct (keep_result_core x r) as (I & Es & Eh & Ew) end.
  split; [exact I|]. split; [exact Es|]. split; [exact Eh|exact Ew].
Qed.

(** The requeue after a usage limit: the session is back in the queue, then a pass runs. *)
Lemma se_apply_requeue st st1 k s s0 plan first :
  own_except (Some k) st1 -> quiet st st1 -> JsMap.get k (Plane.sessions st) = Some s0 ->
  Session.status s0 = running -> lineage s0 s ->
  Session.terminalHookHandoff s = Session.terminalHookHandoff s0 -> Session.id s = k ->
  st ⪯ (apply_requeue st1 s plan first).2.
Proof.
  intros He Q G Hr I Eh Hid. unfold apply_requeue. rewrite Hid.
  set (st2 := update_session st1 k (requeued_session s)).
  assert (own_inv st2) as O2 by (by apply own_update_detached; [| |apply detached_null]).
  assert (st ⪯ st2) as E2.
  { apply (se_update _ _ _ s0); [done|done|].
    apply requeue_evolves; [by left; apply running_live|lin|exact Eh|by left]. }
  pose proof (own_requeue_pass st2 plan O2) as O3.
  pose proof (se_requeue_pass st2 plan O2) as E3.
  destruct (requeue_pass st2 plan) as [returned st3]. cbn [snd] in *.
  destruct returned; cbn [negb snd]; [|by eapply se_trans].
  destruct E3 as [S3 N3].
  destruct (S3 k (requeued_session s)) as (s3 & G3 & _); [apply JsMap.get_set_eq|].
  rewrite G3. simpl opt_or. eapply se_trans; [exact E2|]. eapply se_trans; [split; [exact S3|exact N3]|].
  apply (se_persist _ _ k s3); [apply quiet_refl|done|by apply (oe_ids _ _ O3)|apply evolves_refl].
Qed.

Lemma se_finish st st1 k s s0 clear fields handoff first :
  quiet st st1 -> JsMap.get k (Plane.sessions st) = Some s0 -> Session.status s0 = running -> lineage s0 s ->
  Session.terminalHookHandoff s = Session.terminalHookHandoff s0 -> Session.id s = k ->
  isTerminalSessionStatus (Session.status s) = true -> pending st1 k = false ->
  st ⪯ (apply_finish st1 s clear fields handoff first).2.
Proof.
  intros Q G Hr I Eh Hid Ht Hp. unfold apply_finish. cbn [snd].
  set (st2 := if is_some handoff then st1 else queueSessionArchive st1 _).
  assert (quiet st st2) as Q2 by (unfold st2; by case_match).
  assert (pending st2 k = false) as Hp2 by (unfold st2; by case_match).
  apply (se_persist _ _ k s0); [done|done|exact Hid|].
  apply live_evolves; [by apply running_live|lin| |by intros _; apply detached_null|done].
  destruct handoff as [h|]; [right|by left].
  split; [exact Ht|]. split; [by apply detached_null|done].
Qed.

Lemma se_running_report st k s msg plan handoff first r :
  own_inv st -> JsMap.get k (Plane.sessions st) = Some s -> Session.status s = running ->
  Status.sessionId msg = k ->
  opt_or (p ← find_effect pick_patch plan; p.1) (Status.status msg) = Status.status msg ->
  (isTerminalSessionStatus (Status.status msg) = true ->
   has_effect pick_requeue plan = true \/ has_effect pick_finish plan = true) ->
  st ⪯ (apply_running_report st s msg plan handoff first r).2.
Proof.
  intros H G Hr Hk Hpatch Hdec. unfold apply_running_report. rewrite Hpatch.
  destruct (report_fields_lineage s msg (Status.status msg) r) as (I0 & Es0 & Eh0 & Ew0).
  set (s0 := report_fields s msg (Status.status msg) r) in *.
  assert (Session.id s = k) as Hid by (by apply (oe_ids _ _ H)).
  destruct (isTerminalSessionStatus (Status.status msg)) eqn:Ht; cbn [negb snd].
  2: { apply (se_persist _ _ k s); [apply quiet_refl|done|rewrite (lineage_id _ _ I0); done|].
    apply live_evolves; [by apply running_live|done|by left| |]; rewrite Es0; by destruct (Status.status msg). }
  set (s1 := s0 <| Session.completedAt := _ |>). rewrite Hk.
  pose proof (release_account_frame (forget_ack st k) s1) as F.
  account_core (forget_ack st k) s1 st2 s2 Q C. cbn [fst] in F. destruct C as (I1 & Es1 & Eh1 & Ew1).
  assert (own_frame st st2) as F2 by (eapply own_frame_trans; [apply forget_ack_frame|done]).
  assert (same_claim s s2) as C2 by (destruct I0 as [[] _], I1 as [[] _]; split; simpl in *; congruence).
  destruct (own_release_terminal st2 k s2 msg plan handoff) as [H3 Hid3].
  { by apply (own_except_frame None st). }
  { apply (claim_ok_frame k st st2 s); [done|done|by apply claim_ok_start]. }
  { exists s. destruct F2 as [-> _]. done. }
  destruct (release_terminal_core st2 s2 msg plan handoff) as [Q3 (I3 & Es3 & Eh3 & Ew3)].
  destruct (release_terminal st2 s2 msg plan handoff) as [st3 s3]. cbn [fst snd] in *.
  set (st4 := apply_cooldown st3 _). set (s4 := match find_effect pick_suppress plan with Some i => _ | None => s3 end).
  assert (own_except (Some k) st4) as H4 by (eapply own_except_frame; [apply cooldown_frame|done]).
  assert (core_eq s3 s4) as (I4 & Es4 & Eh4 & Ew4) by (unfold s4; by case_match).
  assert (quiet (forget_ack st k) st4) as Q4.
  { eapply quiet_trans; [exact Q|]. eapply quiet_trans; [exact Q3|apply quiet_cooldown]. }
  assert (quiet st st4) as Q5 by (eapply quiet_trans; [apply quiet_forget|exact Q4]).
  assert (pending st4 k = false) as Hp4
    by (eapply quiet_pending; [exact Q4|]; by rewrite pending_forget, decide_True).
  assert (lineage s s4) as I by (unfold lineage, identity in *; simpl in *; intuition congruence).
  assert (Session.terminalHookHandoff s4 = Session.terminalHookHandoff s) as Eh by (simpl in *; congruence).
  assert (Session.id s4 = k) as Hid4 by (rewrite (lineage_id _ _ I); done).
  assert (isTerminalSessionStatus (Session.status s4) = true) as Ht4
    by (rewrite Es4, Es3, Es1; simpl; by rewrite Es0).
  specialize (Hdec eq_refl). unfold has_effect in Hdec.
  destruct (find_effect pick_requeue plan) as [rq|]; [by apply (se_apply_requeue st st4 k s4 s)|].
  destruct (find_effect pick_finish plan) as [[clear fields]|]; [|naive_solver].
  pose proof (se_finish st st4 k s4 s clear fields handoff first Q5 G Hr I Eh Hid4 Ht4 Hp4) as Hf.
  destruct (apply_finish st4 s4 clear fields handoff first). exact Hf.
Qed.

(** What the planner's answer to a report guarantees. *)
Record report_plan (s : SessionRecord) (msg : StatusMessage) (plan : SessionTransitionPlan) : Prop := {
  rp_requeue : has_effect pick_requeue plan = true -> Session.status s = running;
  rp_patch : Session.status s = running -> has_effect pick_ignore plan = false ->
    opt_or (p ← find_effect pick_patch plan; p.1) (Status.status msg) = Status.status msg;
  rp_decides : isTerminalSessionStatus (Status.status msg) = true -> Session.status s = running ->
    has_effect pick_ignore plan = true \/ has_effect pick_requeue plan = true \/
    has_effect pick_finish plan = true;
}.

Lemma report_plan_holds s msg ctx plan :
  planSessionTransition (Some s) (hostStatusEvent msg) ctx = Some plan -> Ctx.source ctx = local ->
  report_plan s msg plan.
Proof.
  intros P Hl. split.
  - intros Hq. eapply requeue_is_running; [exact P|exact Hq].
  - intros Hr Hi. eapply running_patch; [exact P|exact Hr|exact Hl|exact Hi].
  - intros Ht Hr. eapply terminal_report_decides; [exact P|exact Ht|exact Hr|exact Hl].
Qed.

Lemma se_apply_plan st k s msg plan owner r :
  own_inv st -> JsMap.get k (Plane.sessions st) = Some s -> Status.sessionId msg = k ->
  report_plan s msg plan -> st ⪯ (apply_plan st s msg plan owner r).2.
Proof.
  intros H G Hk [Hrq Hpatch Hdec]. unfold apply_plan.
  destruct (has_effect pick_ignore plan) eqn:Hi; [apply se_refl|].
  assert (st ⪯ (
    if negb (bool_decide (Session.status s = running))
    then (Some status_ok, apply_late_report st s msg plan)
    else
      let '(minted, state) :=
        if has_effect pick_finish plan && Status.deferTerminalHookResult msg
        then deferredTerminalHookHandoff st s msg owner else (Some None, st) in
      match minted with
      | None => (None, state)
      | Some handoff =>
          match release_checkout state s plan handoff with
          | None => (Some status_ok, state)
          | Some state => apply_running_report state s msg plan handoff (isFirstCheckoutFetchFailure msg s) r
          end
      end).2) as Hrest.
  { case_bool_decide as Hr; cbn [negb snd]; [|by eapply se_late_report].
    set (mint := if _ && _ then _ else _).
    assert (own_frame st mint.2) as F by (unfold mint; case_match; [apply handoff_frame|done]).
    assert (quiet st mint.2) as Q by (unfold mint; case_match; [apply quiet_handoff|apply quiet_refl]).
    destruct mint as [[handoff|] st1]; cbn [snd] in *; [|by apply se_quiet].
    destruct (release_checkout st1 s plan handoff) as [st2|] eqn:E; [|by apply se_quiet].
    assert (own_frame st1 st2 /\ quiet st1 st2) as [F2 Q2].
    { unfold release_checkout in E. destruct (has_effect pick_release_lease plan);
        [|simplify_eq; split; [done|apply quiet_refl]].
      destruct (handoff_holds_checkout handoff); [case_match; simplify_eq; split; [done|apply quiet_refl]|].
      pose proof (release_checkout_lease_frame st1 s) as F2. pose proof (quiet_checkout st1 s) as Q2.
      destruct (releaseScheduledLeaseLocal st1 s). case_match; by simplify_eq. }
    assert (own_frame st st2) as F3 by (by eapply own_frame_trans).
    eapply se_before; [by eapply quiet_trans|]. apply (se_running_report st2 k).
    - by apply (own_except_frame None st).
    - destruct F3 as [-> _]. done.
    - done.
    - done.
    - by apply Hpatch.
    - intros Ht. destruct (Hdec Ht Hr) as [|[]]; [congruence|by left|by right]. }
  destruct (find_effect pick_requeue plan) as [[[] fields]|] eqn:Eq; try done.
  apply (se_infrastructure_retry st k); [done|done|]. apply Hrq. unfold has_effect. by rewrite Eq.
Qed.

Lemma se_handle_status st msg src : own_inv st -> st ⪯ (handleSessionStatus st msg src).2.
Proof.
  intros H. unfold handleSessionStatus.
  assert (st ⪯ (applySessionStatus st msg src).2) as Ha.
  { unfold applySessionStatus.
    destruct (JsMap.get (Status.sessionId msg) (Plane.sessions st)) as [s|] eqn:G; [|apply se_refl].
    destruct (localDeferredHandoffAck _ _ _); [apply se_refl|].
    destruct (settle_deferred st s msg _) as [[out st1]|] eqn:E; [by eapply se_settle_deferred|].
    destruct (settles_timeout s msg); [by eapply se_settle_timeout|].
    destruct (planSessionTransition _ _ _) as [plan|] eqn:P; [|apply se_refl].
    apply (se_apply_plan st (Status.sessionId msg)); [done|done|done|]. by eapply report_plan_holds. }
  destruct (applySessionStatus st msg src) as [[r|] st1]; cbn [snd] in *; [|done].
  case_match; [|done]. eapply se_after; [exact Ha|apply quiet_emit].
Qed.
End evolution.
