(* ===== verification/CheckoutPass.v ===== *)
(** * Scheduled and workspace passes

    What [assignScheduledQueuedDurable] and [assignWorkspaceQueuedDurable] do to the
    sessions, the checkouts, the slots and the frames sent to hosts.  Both passes are
    one loop over the ordered queue, so the loop is proved once, against what one
    turn of it promises. *)

From Stdlib Require Import ZArith Lia Ascii String.
From stdpp Require Import base strings list sets.
From S2P Require Import Prelude DateTime Types Ordering TransitionPlanner ProviderCascade SessionTarget.
From S2P Require Import AccountLeases Placement SessionOutcome LogSettings Worktrees Assignment CheckoutAssignment.
From S2P Require Import CommandResume HostMessages Ownership Evolution.

Local Open Scope string_scope.
Local Open Scope Z_scope.

(** ** Steps that leave the resources alone *)

(** Neither sessions nor targets change and nothing is sent. *)
Record still (st st' : ControlPlaneState) : Prop := {
  still_sessions : Plane.sessions st' = Plane.sessions st;
  still_worktrees : Plane.worktrees st' = Plane.worktrees st;
  still_acks : Plane.pendingAcks st' = Plane.pendingAcks st;
  still_checkouts : Plane.mainCheckoutLeases st' = Plane.mainCheckoutLeases st;
  still_slots : Plane.workspaceSlots st' = Plane.workspaceSlots st;
  still_hosts : Plane.hostConnection st' = Plane.hostConnection st;
  still_outbox : Plane.outbox st' = Plane.outbox st;
}.

#[global] Instance still_preorder : PreOrder still.
Proof. split; [by intros st; split|]. intros a b c [] []. split; congruence. Qed.

Lemma still_own st st' : still st st' -> own_frame st st'.
Proof. by intros []. Qed.

Lemma still_quiet st st' : still st st' -> quiet st st'.
Proof. intros []. by apply quiet_same. Qed.

Lemma still_draw st : still st (draw_attempt st).2.
Proof. by split. Qed.

Lemma still_key st : still st (createSessionApiKey st).2.
Proof. by split. Qed.

Lemma still_touch st id at_ : still st (touchAccount st id at_).
Proof. unfold touchAccount. repeat case_match; by split. Qed.

Lemma still_acquire st s account attemptId hostId free :
  still st (acquire_for st s account attemptId hostId free).2.
Proof.
  unfold acquire_for.
  assert (still st (tryAcquireProviderAccountLeaseLocal st s account attemptId hostId [] true).2) as H
    by (unfold tryAcquireProviderAccountLeaseLocal; repeat case_match; by split).
  destruct (tryAcquireProviderAccountLeaseLocal _ _ _ _ _ _ _) as [lease st1]. simpl in H.
  repeat case_match; simpl; try done; by transitivity st1.
Qed.

(** A lease is granted only on a free target. *)
Lemma acquire_free st s account attemptId hostId free lease :
  (acquire_for st s account attemptId hostId free).1 = Some lease -> free = true.
Proof. unfold acquire_for. by repeat case_match. Qed.

Lemma Forall2_in_l {A B} (P : A -> B -> Prop) l k x : Forall2 P l k -> In x l -> exists y, P x y.
Proof. induction 1 as [|a b l k Hp _ IH]; intros Hin; [done|]. destruct Hin as [<-|Hin]; eauto. Qed.

(** ** The loop *)

(** What an operation on session [k] of the queue keeps. *)
Definition keeps (k : string) (st st' : ControlPlaneState) : Prop :=
  own_inv st' /\ only_session k st st' /\ st ⪯ st'.

Lemma keeps_refl k st : own_inv st -> keeps k st st.
Proof. intros H. split; [done|]. split; [apply only_session_refl|apply se_refl]. Qed.

Lemma keeps_after k st st1 st2 : still st st1 -> keeps k st1 st2 -> keeps k st st2.
Proof.
  intros S (O & J & E). split; [done|]. split; [eapply only_session_trans; [apply only_session_eq, S|done]|].
  eapply se_before; [by apply still_quiet|done].
Qed.

(** The sessions of the queue. *)
Definition waiting (kind : ScheduleKind) (queue : list SessionRecord) : Prop :=
  Forall (fun s => Session.status s = queued /\ scheduleKind s = kind) queue.

Lemma pass_advances {A} kind (place : ControlPlaneState -> SessionRecord -> Placed A * ControlPlaneState) chosen :
  (forall st s, own_inv st -> JsMap.get (Session.id s) (Plane.sessions st) = Some s -> Session.status s = queued ->
     scheduleKind s = kind -> keeps (Session.id s) st (place st s).2) ->
  forall queue st, own_inv st -> queue_ok st queue -> waiting kind queue ->
  advances st (pass_loop place chosen queue st).2.
Proof.
  intros Hplace. induction queue as [|s queue IH]; intros st H Hq Hw; cbn [pass_loop]; [split; [done|apply se_refl]|].
  apply Forall_cons in Hw as [[Hs Hk] Hw'].
  destruct (negb (chosen s)).
  { apply IH; [done| |done]. eapply queue_ok_step; [done|apply only_session_refl]. }
  destruct (Hplace st s H (proj2 Hq s (or_introl eq_refl)) Hs Hk) as (O & S & E).
  pose proof (queue_ok_step _ _ _ _ Hq S) as Hq1.
  destruct (place st s) as [[|a|] st1]; cbn [snd] in *; [| |done].
  - by eapply advances_trans; [|apply IH].
  - pose proof (IH st1 O Hq1 Hw') as Hr. destruct (pass_loop place chosen queue st1) as [more st2]. cbn [snd] in *.
    by eapply advances_trans.
Qed.

Section pass.
Context {A : Type}.
(** The session and the target of a placement. *)
Variables (sessionOf targetOf : A -> string).
(** Target [t] can be taken; target [t] is taken by session [k]. *)
Variable (free : ControlPlaneState -> string -> Prop).
Variable (held : ControlPlaneState -> string -> string -> Prop).
Hypothesis held_not_free : forall st t k, held st t k -> free st t -> False.
(** What the record of a placed session and the frame say. *)
Variable (told : SessionRecord -> A -> string * HostWireMessage -> Prop).

(** In [st'] session [k] runs on the target of [a], and frame [f] told its host. *)
Definition granted (k : string) (st' : ControlPlaneState) (a : A) (f : string * HostWireMessage) : Prop :=
  sessionOf a = k /\ held st' (targetOf a) k /\
  exists s', JsMap.get k (Plane.sessions st') = Some s' /\ told s' a f.

(** Targets are only taken. *)
Definition taken_only (st st' : ControlPlaneState) : Prop :=
  (forall t, free st' t -> free st t) /\ (forall t k, held st t k -> held st' t k).

(** What one turn of the loop promises for session [k]. *)
Definition turn_ok (k : string) (st : ControlPlaneState) (out : Placed A * ControlPlaneState) : Prop :=
  keeps k st out.2 /\ taken_only st out.2 /\
  match out with
  | (placed_none, st') => Plane.outbox st' = Plane.outbox st
  | (placed_in a, st') =>
      free st (targetOf a) /\ exists f, Plane.outbox st' = (Plane.outbox st ++ [f])%list /\ granted k st' a f
  | (placed_threw, _) => True
  end.

Lemma taken_only_trans st1 st2 st3 : taken_only st1 st2 -> taken_only st2 st3 -> taken_only st1 st3.
Proof. intros [F1 H1] [F2 H2]. split; eauto. Qed.

(** A turn that begins after a step which changed nothing it depends on. *)
Lemma turn_ok_after k st st1 out :
  still st st1 -> taken_only st st1 -> turn_ok k st1 out -> turn_ok k st out.
Proof.
  intros Hs Ht (K & T & R). split; [by eapply keeps_after|]. split; [by eapply taken_only_trans|].
  destruct out as [[|a|] st2]; [by rewrite R, (still_outbox _ _ Hs)| |done].
  destruct R as (Hf & f & Eo & Hg). split; [by apply Ht|]. exists f. by rewrite Eo, (still_outbox _ _ Hs).
Qed.

Variables (kind : ScheduleKind) (inv : ControlPlaneState -> Prop).
Variable (place : ControlPlaneState -> SessionRecord -> Placed A * ControlPlaneState).
Hypothesis place_ok : forall st s,
  own_inv st -> inv st -> JsMap.get (Session.id s) (Plane.sessions st) = Some s ->
  Session.status s = queued -> scheduleKind s = kind ->
  turn_ok (Session.id s) st (place st s) /\ inv (place st s).2.

(** A whole pass: one frame per placement, in order; no session and no target twice. *)
Definition pass_sound (st st' : ControlPlaneState) (queue : list SessionRecord) (placed : list A) : Prop :=
  taken_only st st' /\ (forall j, ~ In j (map Session.id queue) ->
    JsMap.get j (Plane.sessions st') = JsMap.get j (Plane.sessions st)) /\
  List.NoDup (map sessionOf placed) /\ List.NoDup (map targetOf placed) /\
  (forall a, In a placed -> In (sessionOf a) (map Session.id queue)) /\
  exists frames, Plane.outbox st' = (Plane.outbox st ++ frames)%list /\
    Forall2 (fun a f => free st (targetOf a) /\ granted (sessionOf a) st' a f) placed frames.

(** The rest of the queue after a turn that placed nothing. *)
Lemma pass_sound_skip st st1 st2 s queue placed :
  ~ In (Session.id s) (map Session.id queue) -> only_session (Session.id s) st st1 -> taken_only st st1 ->
  Plane.outbox st1 = Plane.outbox st ->
  pass_sound st1 st2 queue placed -> pass_sound st st2 (s :: queue) placed.
Proof.
  intros Hs S T Eo (T2 & J & N1 & N2 & I & frames & Ef & Hf).
  split; [by eapply taken_only_trans|]. split.
  { intros j Hj. simpl in Hj. rewrite J by tauto. apply S. naive_solver. }
  split; [done|]. split; [done|]. split; [intros a Ha; right; by apply I|].
  exists frames. rewrite Ef, Eo. split; [done|]. eapply Forall2_impl; [exact Hf|].
  intros a f [Hfree Hg]. split; [by apply T|done].
Qed.

(** .. and after one that placed [a]. *)
Lemma pass_sound_cons st st1 st2 s queue a f placed :
  ~ In (Session.id s) (map Session.id queue) -> only_session (Session.id s) st st1 -> taken_only st st1 ->
  free st (targetOf a) -> Plane.outbox st1 = (Plane.outbox st ++ [f])%list -> granted (Session.id s) st1 a f ->
  pass_sound st1 st2 queue placed -> pass_sound st st2 (s :: queue) (a :: placed).
Proof.
  intros Hs S T Hfree Eo (Ea & Hh & s' & Gs & Ht) (T2 & J & N1 & N2 & I & frames & Ef & Hf).
  split; [by eapply taken_only_trans|]. split.
  { intros j Hj. simpl in Hj. rewrite J by tauto. apply S. naive_solver. }
  split.
  { constructor; [|done]. rewrite Ea. intros Hin. apply in_map_iff in Hin as (b & Eb & Hb).
    apply Hs. rewrite <- Eb. by apply I. }
  split.
  { constructor; [|done]. intros Hin. apply in_map_iff in Hin as (b & Eb & Hb).
    destruct (Forall2_in_l _ _ _ _ Hf Hb) as (g & Hb1 & _). apply (held_not_free st1 (targetOf a) (Session.id s));
      [done|]. by rewrite <- Eb. }
  split; [intros b [<-|Hb]; [left; by rewrite Ea|right; by apply I]|].
  exists (f :: frames). split; [by rewrite Ef, Eo, <- (assoc_L (++)%list)|].
  constructor.
  - split; [done|]. rewrite Ea. split; [done|]. split; [by apply T2|]. exists s'. by rewrite J.
  - eapply Forall2_impl; [exact Hf|]. intros b g [Hb Hg]. split; [by apply T|done].
Qed.

Lemma pass_loop_sound chosen queue : forall st placed st',
  own_inv st -> inv st -> queue_ok st queue -> waiting kind queue ->
  pass_loop place chosen queue st = (Some placed, st') -> pass_sound st st' queue placed.
Proof.
  induction queue as [|s queue IH]; intros st placed st' H Hi Hq Hw; cbn [pass_loop].
  { intros [= <- <-]. split; [by split|]. split; [done|]. do 2 (split; [constructor|]). split; [done|].
    exists []. split; [by rewrite app_nil_r|constructor]. }
  apply Forall_cons in Hw as [[Hs Hk] Hw'].
  assert (~ In (Session.id s) (map Session.id queue)) as Hn by (destruct Hq as [Hnd _]; by inversion Hnd).
  destruct (negb (chosen s)).
  { intros E. apply (pass_sound_skip st st); [done|apply only_session_refl|by split|done|].
    apply IH; [done|done| |done|done]. eapply queue_ok_step; [done|apply only_session_refl]. }
  destruct (place_ok st s H Hi (proj2 Hq s (or_introl eq_refl)) Hs Hk) as [((O & S & E) & T & R) Hi1].
  pose proof (queue_ok_step _ _ _ _ Hq S) as Hq1.
  destruct (place st s) as [[|a|] st1]; cbn [snd] in *; [| |done].
  - intros Ep. apply (pass_sound_skip st st1); [done|done|done|done|]. by apply IH.
  - destruct R as (Hfree & f & Eo & Hg).
    destruct (pass_loop place chosen queue st1) as [[more|] st2] eqn:Ep; [|done]. intros [= <- <-].
    apply (pass_sound_cons st st1 st2 s queue a f); [done|done|done|done|done|done|]. by apply IH.
Qed.
End pass.

(** ** What a turn writes *)

(** A queued session is given a target other than a worktree. *)
Lemma grant_evolves s p s' p' :
  Session.status s = queued -> identity s s' -> Session.status s' = running ->
  Session.terminalHookHandoff s' = Session.terminalHookHandoff s -> (holds_ok s -> holds_ok s') ->
  evolves s p s' p'.
Proof.
  intros Hq I Hr Eh Hh. split; [done|by rewrite Hq|]. intros [O1 O2 O3 O4].
  split; [|by rewrite Hr|by rewrite Hr|by apply Hh].
  rewrite Eh. intros Hn. destruct (O1 Hn) as [Ht _]. by rewrite Hq in Ht.
Qed.

(** The session is stored with a pending acknowledgement and a frame is sent. *)
Lemma grant_writes st st' s s1 :
  own_inv st -> JsMap.get (Session.id s) (Plane.sessions st) = Some s -> Session.status s = queued ->
  identity s s1 -> Session.status s1 = running -> Session.worktreeId s1 = Null ->
  Session.terminalHookHandoff s1 = Session.terminalHookHandoff s -> (holds_ok s -> holds_ok s1) ->
  Plane.sessions st' = JsMap.set (Session.id s) s1 (Plane.sessions st) ->
  Plane.worktrees st' = Plane.worktrees st ->
  (forall j, j <> Session.id s -> pending st' j = true -> pending st j = true) ->
  keeps (Session.id s) st st'.
Proof.
  intros H G Hq I Hr Hw Eh Hh Es Ew Hp. split; [|split].
  - apply (own_except_frame None (update_session st (Session.id s) s1)); [by split|].
    apply own_update_detached; [by apply own_weaken|apply I|by apply detached_null].
  - intros j Hj. rewrite Es. by apply JsMap.get_set_ne.
  - apply (se_write st st' (Session.id s) s s1); [done|done|done|]. by apply grant_evolves.
Qed.

(** A queued session fails. *)
Lemma expire_writes st s s1 :
  own_inv st -> JsMap.get (Session.id s) (Plane.sessions st) = Some s -> Session.status s = queued ->
  lineage s s1 -> same_claim s s1 -> Session.status s1 = failed ->
  Session.terminalHookHandoff s1 = Session.terminalHookHandoff s ->
  keeps (Session.id s) st (update_session st (Session.id s) s1).
Proof.
  intros H G Hq L C Hf Eh. split; [by apply (own_update_same st (Session.id s) s)|].
  split; [apply only_session_update|]. apply (se_update _ _ _ s); [apply quiet_refl|done|].
  apply live_evolves; [by apply queued_live|done|by left|by rewrite Hf|by rewrite Hf].
Qed.

(** Cancelling a queued session sends nothing and gives no target back. *)
Lemma cancel_queued {DP : DateParse} st s :
  own_inv st -> JsMap.get (Session.id s) (Plane.sessions st) = Some s -> Session.status s = queued ->
  let st' := (cancelSession st (Session.id s)).2 in
  only_session (Session.id s) st st' /\ Plane.outbox st' = Plane.outbox st /\
  Plane.mainCheckoutLeases st' = Plane.mainCheckoutLeases st.
Proof.
  intros H G Hq. unfold cancelSession. rewrite G. cbn [planSessionTransition].
  assert (planCancel s = (fx_cancel false :: releaseEffects s)%list) as -> by (unfold planCancel; by rewrite Hq).
  set (plan := (fx_cancel false :: releaseEffects s)%list).
  assert (find_effect pick_reject plan = None) as -> by (by unfold plan, releaseEffects; repeat case_match).
  change (find_effect pick_cancel plan) with (Some false). cbv beta iota zeta.
  set (s0 := s <| _ := _ |> <| _ := _ |> <| _ := _ |>).
  set (st1 := match _ with Some w => releaseWorktree _ w | None => _ end).
  assert (Plane.sessions st1 = Plane.sessions st /\ Plane.outbox st1 = Plane.outbox st /\
    Plane.mainCheckoutLeases st1 = Plane.mainCheckoutLeases st) as (E1 & E2 & E3)
    by (unfold st1, releaseWorktree; by repeat case_match).
  pose proof (release_account_claim st1 s0) as [Ci _].
  assert (let st2 := (releaseProviderAccountLease st1 s0).1 in
    Plane.sessions st2 = Plane.sessions st1 /\ Plane.outbox st2 = Plane.outbox st1 /\
    Plane.mainCheckoutLeases st2 = Plane.mainCheckoutLeases st1) as (F1 & F2 & F3)
    by (unfold releaseProviderAccountLease, releaseProviderAccountLeaseLocal; by repeat case_match).
  destruct (releaseProviderAccountLease st1 s0) as [st2 s2]. simpl in Ci, F1, F2, F3 |- *.
  split; [|split; [exact (eq_trans F2 E2)|exact (eq_trans F3 E3)]].
  intros j Hj. unfold persistSession. simpl. rewrite Ci, JsMap.get_set_ne by done. by rewrite F1, E1.
Qed.

(** ** Scheduled sessions *)
Definition checkout_free (st : ControlPlaneState) (t : string) : Prop :=
  JsMap.get t (Plane.mainCheckoutLeases st) = None.

Definition checkout_held (st : ControlPlaneState) (t k : string) : Prop :=
  exists c, JsMap.get t (Plane.mainCheckoutLeases st) = Some (Checkout.mkMainCheckoutLease k c).

Lemma checkout_held_not_free st t k : checkout_held st t k -> checkout_free st t -> False.
Proof. unfold checkout_free. intros [c ->]. done. Qed.

Definition scheduled_id (a : ScheduledAssignment) : string := Session.id (publicRecord (scheduledSession a)).
Definition scheduled_checkout (a : ScheduledAssignment) : string :=
  main_checkout_key (scheduledHostId a) (Session.repositoryId (publicRecord (scheduledSession a))).

(** The session runs in the main checkout of its repository on the host the frame goes to. *)
Definition scheduled_told (s' : SessionRecord) (a : ScheduledAssignment) (f : string * HostWireMessage) : Prop :=
  Session.status s' = running /\ Session.worktreeId s' = Null /\ Session.mainCheckoutLease s' = Some true /\
  Session.hostId s' = Val (scheduledHostId a) /\ f.1 = scheduledHostId a /\
  main_checkout_key (scheduledHostId a) (Session.repositoryId s') = scheduled_checkout a /\
  exists m, f.2 = msg_assign m /\ Assign.sessionId m = Session.id s' /\
    Assign.sessionType m = scheduled_kind /\ Assign.repositoryId m = Some (Session.repositoryId s') /\
    Session.attemptId s' = Some (Assign.attemptId m).

Notation scheduled_turn := (turn_ok scheduled_id scheduled_checkout checkout_free checkout_held scheduled_told).
Notation checkouts_taken := (taken_only checkout_free checkout_held).

Lemma checkouts_same st st' :
  Plane.mainCheckoutLeases st' = Plane.mainCheckoutLeases st -> checkouts_taken st st'.
Proof. intros E. unfold taken_only, checkout_free, checkout_held. by rewrite E. Qed.

Section scheduled_pass.
Context {LC : LocaleCompare} {DP : DateParse}.
Implicit Types (st : ControlPlaneState) (s : SessionRecord).

Lemma place_scheduled_ok st s hostId connectionId r now attemptId argv outputs key lease :
  own_inv st -> JsMap.get (Session.id s) (Plane.sessions st) = Some s -> Session.status s = queued ->
  scheduleKind s = scheduled_kind -> checkout_free st (main_checkout_key hostId (Session.repositoryId s)) ->
  scheduled_turn (Session.id s) st
    (place_scheduled st s hostId connectionId r now attemptId argv outputs key lease).
Proof.
  intros H G Hq Hk Hfree. unfold place_scheduled.
  set (s1 := scheduled_session s hostId connectionId r now attemptId argv outputs key lease).
  set (st1 := touchAccount (update_session st (Session.id s) s1) (Target.providerAccountId r) now).
  pose proof (still_touch (update_session st (Session.id s) s1) (Target.providerAccountId r) now) as T.
  fold st1 in T. destruct T as [T1 T2 T3 T4 T5 T6 T7].
  set (t := main_checkout_key hostId (Session.repositoryId s)).
  set (st2 := st1 <| Plane.mainCheckoutLeases := _ |> <| Plane.pendingAcks := _ |>).
  assert (forall st3, Plane.sessions st3 = Plane.sessions st2 -> Plane.worktrees st3 = Plane.worktrees st2 ->
    Plane.pendingAcks st3 = Plane.pendingAcks st2 ->
    keeps (Session.id s) st st3) as Hw.
  { intros st3 E1 E2 E3. apply (grant_writes st st3 s s1); try done.
    - intros (_ & H5 & _). split; [done|]. split; [exact H5|]. intros _. by apply detached_null.
    - rewrite E1. exact T1.
    - rewrite E2. exact T2.
    - intros j Hj. unfold pending, JsMap.has. rewrite E3. simpl. rewrite JsMap.get_set_ne by done. by rewrite T3. }
  assert (forall st3, Plane.mainCheckoutLeases st3 = Plane.mainCheckoutLeases st2 ->
    checkouts_taken st st3 /\ checkout_held st3 t (Session.id s)) as Hl.
  { intros st3 E. unfold taken_only, checkout_free, checkout_held. rewrite E. simpl. rewrite T4. simpl.
    split; [split|].
    - intros j. rewrite JsMap.get_set. by case_decide.
    - intros j k [c Hc]. rewrite JsMap.get_set. case_decide as Hd; [|by exists c]. subst j.
      change (JsMap.get t (Plane.mainCheckoutLeases st) = None) in Hfree. congruence.
    - exists connectionId. apply JsMap.get_set_eq. }
  destruct (assignLogSettings st2) as [logs|].
  - set (m := wire s1 now (apiKey <$> key) logs).
    pose proof (Hw (emit st2 hostId (msg_assign m)) eq_refl eq_refl eq_refl) as W.
    destruct (Hl (emit st2 hostId (msg_assign m)) eq_refl) as [L1 L2].
    split; [exact W|]. split; [exact L1|].
    split; [exact Hfree|]. exists (hostId, msg_assign m). split.
    { change (Plane.outbox st1 ++ [(hostId, msg_assign m)] = Plane.outbox st ++ [(hostId, msg_assign m)])%list.
      f_equal. exact T7. }
    split; [reflexivity|]. split; [exact L2|]. exists s1. split.
    { change (JsMap.get (Session.id s) (Plane.sessions st1) = Some s1). rewrite T1. apply JsMap.get_set_eq. }
    do 6 (split; [reflexivity|]). exists m. repeat split; reflexivity.
  - split; [exact (Hw st2 eq_refl eq_refl eq_refl)|]. by split; [apply Hl|].
Qed.

Lemma try_hosts_ok s now candidates : Session.status s = queued -> scheduleKind s = scheduled_kind -> forall st,
  own_inv st -> JsMap.get (Session.id s) (Plane.sessions st) = Some s ->
  scheduled_turn (Session.id s) st (try_hosts st s now candidates).
Proof.
  intros Hq Hk. induction candidates as [|[[hostId connectionId] r] rest IH]; intros st H G; cbn [try_hosts].
  { split; [by apply keeps_refl|]. split; [by apply checkouts_same|done]. }
  destruct (JsMap.get connectionId (Plane.connections st)) as [connection|]; [|by apply IH].
  destruct (_ || _); [by apply IH|].
  pose proof (still_draw st) as S1. destruct (draw_attempt st) as [attemptId st1]. cbn [snd] in S1.
  cbv zeta. set (kst := if hasHostCapability _ "session-spawn" then _ else _).
  assert (still st1 kst.2) as S2 by (unfold kst; case_match; [apply still_key|done]).
  destruct kst as [key st2]. cbn [snd] in S2.
  match goal with |- context [acquire_for st2 s ?a attemptId hostId ?b] =>
    pose proof (still_acquire st2 s a attemptId hostId b) as S3;
    pose proof (acquire_free st2 s a attemptId hostId b) as Hf;
    destruct (acquire_for st2 s a attemptId hostId b) as [lease st3] end.
  cbn [fst snd] in S3, Hf.
  assert (still st st3) as S by (transitivity st1; [done|]; by transitivity st2).
  assert (own_inv st3) as H3 by (by apply (own_except_frame None st); [apply still_own|]).
  assert (JsMap.get (Session.id s) (Plane.sessions st3) = Some s) as G3 by (by rewrite (still_sessions _ _ S)).
  apply (turn_ok_after _ _ _ _ _ _ st st3); [done|by apply checkouts_same, S|].
  destruct lease as [lease|]; [|by apply IH].
  apply place_scheduled_ok; try done. specialize (Hf lease eq_refl). unfold checkout_free.
  rewrite (still_checkouts _ _ S3). revert Hf. unfold JsMap.has.
  by destruct (JsMap.get _ (Plane.mainCheckoutLeases st2)).
Qed.

Lemma scheduled_turn_ok catalog now st s :
  own_inv st -> JsMap.get (Session.id s) (Plane.sessions st) = Some s ->
  Session.status s = queued -> scheduleKind s = scheduled_kind ->
  scheduled_turn (Session.id s) st (assign_scheduled_session st catalog s now).
Proof.
  intros H G Hq Hk. unfold assign_scheduled_session.
  destruct (planScheduledPlacement _ _ _ _) as [| |reason|candidates].
  - unfold expireScheduledQueued. match goal with |- context [update_session st (Session.id s) ?x] => set (s1 := x) end.
    pose proof (expire_writes st s s1 H G Hq) as W. ospecialize (W _ _ _ _); [done..|].
    split; [exact W|]. split; [by apply checkouts_same|done].
  - destruct (cancel_queued st s H G Hq) as (C1 & C2 & C3).
    split; [by split; [apply own_cancel|split; [|apply se_cancel]]|].
    split; [by apply checkouts_same|exact C2].
  - split; [by apply keeps_refl|]. split; [by apply checkouts_same|done].
  - by apply try_hosts_ok.
Qed.
End scheduled_pass.

(** ** Workspace sessions *)
Definition slot_free (st : ControlPlaneState) (t : string) : Prop :=
  exists slot, JsMap.get t (Plane.workspaceSlots st) = Some slot /\ Slot.status slot = idle /\ Slot.online slot = true.

Definition slot_held (st : ControlPlaneState) (t k : string) : Prop :=
  exists slot, JsMap.get t (Plane.workspaceSlots st) = Some slot /\ Slot.status slot = busy /\
    Slot.currentSessionId slot = Val k.

Lemma slot_held_not_free st t k : slot_held st t k -> slot_free st t -> False.
Proof. intros (slot & G & B & _) (slot' & G' & I & _). congruence. Qed.

(** Slots are kept under their ids. *)
Definition slots_ok (st : ControlPlaneState) : Prop :=
  JsMap.wf (Plane.workspaceSlots st) /\
  forall k slot, JsMap.get k (Plane.workspaceSlots st) = Some slot -> Slot.id slot = k.

Definition workspace_id (a : WorkspaceAssignment) : string := Session.id (publicRecord (workspaceSession a)).
Definition workspace_slot (a : WorkspaceAssignment) : string := Slot.id (workspaceSlot a).

(** The session runs in the slot on the host the frame goes to, and the frame fits. *)
Definition workspace_told (s' : SessionRecord) (a : WorkspaceAssignment) (f : string * HostWireMessage) : Prop :=
  Session.status s' = running /\ Session.worktreeId s' = Null /\ Session.workspaceSlotLease s' = Some true /\
  Session.workspaceSlotId s' = Val (workspace_slot a) /\ Session.hostId s' = Val (Slot.hostId (workspaceSlot a)) /\
  f.1 = Slot.hostId (workspaceSlot a) /\
  exists m, f.2 = msg_assign m /\ Assign.sessionId m = Session.id s' /\
    Assign.sessionType m = workspace_kind /\ Assign.workspaceSlotId m = Some (workspace_slot a) /\
    Session.attemptId s' = Some (Assign.attemptId m) /\
    utf8_length (stringify (workspace_frame m)) <= 120 * 1024.

Notation workspace_turn := (turn_ok workspace_id workspace_slot slot_free slot_held workspace_told).
Notation slots_taken := (taken_only slot_free slot_held).

Lemma slots_same st st' : Plane.workspaceSlots st' = Plane.workspaceSlots st -> slots_taken st st'.
Proof. intros E. unfold taken_only, slot_free, slot_held. by rewrite E. Qed.

Lemma slots_ok_same st st' : Plane.workspaceSlots st' = Plane.workspaceSlots st -> slots_ok st -> slots_ok st'.
Proof. intros E. unfold slots_ok. by rewrite E. Qed.

Section workspace_pass.
Context {LC : LocaleCompare} {DP : DateParse}.
Implicit Types (st : ControlPlaneState) (s : SessionRecord).

Lemma place_workspace_keeps st s slot r connectionId now attemptId nowMs argv outputs m lease :
  own_inv st -> JsMap.get (Session.id s) (Plane.sessions st) = Some s -> Session.status s = queued ->
  scheduleKind s = workspace_kind ->
  keeps (Session.id s) st (place_workspace st s slot r connectionId now attemptId nowMs argv outputs m lease).2.
Proof.
  intros H G Hq Hk. unfold place_workspace. cbv zeta. cbn [snd].
  set (st1 := set_slot _ _ _). pose proof (still_touch st1 (Target.providerAccountId r) now) as [T1 T2 T3 _ _ _ _].
  set (st2 := touchAccount st1 (Target.providerAccountId r) now) in *.
  apply (grant_writes st _ s (nextSession s slot r argv attemptId now lease outputs)); try done.
  - intros (H4 & _ & _). split; [exact H4|]. split; [by intros _|]. intros _. by apply detached_null.
  - intros j Hj. unfold pending, JsMap.has. simpl. rewrite JsMap.get_set_ne by done. by rewrite T3.
Qed.

Lemma place_workspace_ok st s slot r connectionId now attemptId nowMs argv outputs setup logs lease :
  let m := assignMessage s slot r argv attemptId now setup logs outputs in
  let out := place_workspace st s slot r connectionId now attemptId nowMs argv outputs m lease in
  own_inv st -> slots_ok st -> JsMap.get (Session.id s) (Plane.sessions st) = Some s -> Session.status s = queued ->
  scheduleKind s = workspace_kind -> JsMap.get (Slot.id slot) (Plane.workspaceSlots st) = Some slot ->
  Slot.status slot = idle -> Slot.online slot = true -> fitsWorkspaceAssignFrame m = true ->
  workspace_turn (Session.id s) st (placed_in out.1, out.2) /\ slots_ok out.2.
Proof.
  cbv zeta. intros H [Wf Ids] G Hq Hk Gs Hi Ho Hfit.
  set (m := assignMessage _ _ _ _ _ _ _ _ _) in *.
  pose proof (place_workspace_keeps st s slot r connectionId now attemptId nowMs argv outputs m lease H G Hq Hk) as W.
  revert W. unfold place_workspace. cbv zeta.
  set (s1 := nextSession s slot r argv attemptId now lease outputs).
  set (slot1 := slot <| Slot.status := busy |> <| Slot.currentSessionId := _ |> <| Slot.connectionId := _ |>
                     <| Slot.lastAssignedAt := _ |>).
  set (st1 := set_slot (update_session st (Session.id s) s1) (Slot.id slot) slot1).
  pose proof (still_touch st1 (Target.providerAccountId r) now) as [T1 T2 T3 T4 T5 T6 T7].
  set (st2 := touchAccount st1 (Target.providerAccountId r) now) in *.
  set (st3 := emit (st2 <| Plane.pendingAcks := _ |>) (Slot.hostId slot) (msg_assign m)).
  cbn [fst snd]. intros W.
  assert (Plane.workspaceSlots st3 = JsMap.set (Slot.id slot) slot1 (Plane.workspaceSlots st)) as E5 by exact T5.
  split; [|split; rewrite E5; [by auto with jsmap|]].
  - split; [exact W|]. split; [|split].
    + change (slots_taken st st3). split; [intros t|intros t k]; unfold slot_free, slot_held; rewrite E5, JsMap.get_set;
        case_decide as Hd; try done.
      * intros (v & [= <-] & Hv & _). done.
      * intros (v & Gv & Bv & _). subst t. congruence.
    + by exists slot.
    + exists (Slot.hostId slot, msg_assign m). split.
      { change (Plane.outbox st2 ++ [(Slot.hostId slot, msg_assign m)] =
                Plane.outbox st ++ [(Slot.hostId slot, msg_assign m)])%list. f_equal. exact T7. }
      split; [reflexivity|]. split.
      { exists slot1. rewrite E5. split; [apply JsMap.get_set_eq|done]. }
      exists s1. split.
      { change (JsMap.get (Session.id s) (Plane.sessions st2) = Some s1). rewrite T1. apply JsMap.get_set_eq. }
      do 6 (split; [reflexivity|]). exists m. do 5 (split; [reflexivity|]). by apply Z.leb_le.
  - intros k v. rewrite JsMap.get_set. case_decide as Hd; [|apply Ids]. intros [= <-]. exact Hd.
Qed.

Lemma try_slots_ok s now nowMs candidates : Session.status s = queued -> scheduleKind s = workspace_kind ->
  forall st, own_inv st -> slots_ok st -> JsMap.get (Session.id s) (Plane.sessions st) = Some s ->
  Forall (fun c => JsMap.get (Slot.id c.1) (Plane.workspaceSlots st) = Some c.1) candidates ->
  workspace_turn (Session.id s) st (try_slots st s now nowMs candidates) /\
  slots_ok (try_slots st s now nowMs candidates).2.
Proof.
  intros Hq Hk. induction candidates as [|[slot r] rest IH]; intros st H Hok G Hc; cbn [try_slots].
  { split; [|done]. split; [by apply keeps_refl|]. split; [by apply slots_same|done]. }
  inversion Hc as [|? ? Hs Hrest]; subst. cbn [fst] in Hs.
  destruct (truthy_opt _) as [connectionId|]; [|by apply IH].
  destruct (negb _ || negb _); [by apply IH|].
  pose proof (still_draw st) as S1. destruct (draw_attempt st) as [attemptId st1]. cbn [snd] in S1. cbv zeta.
  assert (forall st2, still st st2 -> own_inv st2 /\ slots_ok st2 /\
    JsMap.get (Session.id s) (Plane.sessions st2) = Some s /\
    JsMap.get (Slot.id slot) (Plane.workspaceSlots st2) = Some slot /\
    Forall (fun c => JsMap.get (Slot.id c.1) (Plane.workspaceSlots st2) = Some c.1) rest) as Hst.
  { intros st2 S. rewrite (still_sessions _ _ S), (still_slots _ _ S).
    split; [by apply (own_except_frame None st); [apply still_own|]|].
    split; [by apply (slots_ok_same st); [apply S|]|done]. }
  assert (forall st2 out, still st st2 -> workspace_turn (Session.id s) st2 out ->
    workspace_turn (Session.id s) st out) as Hafter.
  { intros st2 out S. apply (turn_ok_after _ _ _ _ _ _ st st2); [done|by apply slots_same, S]. }
  destruct (assignLogSettings st1) as [logs|].
  2: { destruct (Hst st1 S1) as (O1 & K1 & _). split; [|done]. apply (Hafter st1); [done|].
       split; [by apply keeps_refl|]. split; [by apply slots_same|done]. }
  match goal with |- context [fitsWorkspaceAssignFrame ?x] => destruct (fitsWorkspaceAssignFrame x) eqn:Hfit end;
    cbn [negb].
  2: { destruct (Hst st1 S1) as (O1 & K1 & G1 & _ & C1). destruct (IH st1 O1 K1 G1 C1) as [R1 R2].
       split; [by apply (Hafter st1)|done]. }
  match goal with |- context [acquire_for st1 s ?a attemptId ?h ?b] =>
    pose proof (still_acquire st1 s a attemptId h b) as S2;
    pose proof (acquire_free st1 s a attemptId h b) as Hf;
    destruct (acquire_for st1 s a attemptId h b) as [lease st2] end.
  cbn [fst snd] in S2, Hf. assert (still st st2) as S by (by transitivity st1).
  destruct (Hst st2 S) as (O2 & K2 & G2 & Gs2 & C2).
  destruct lease as [lease|].
  2: { destruct (IH st2 O2 K2 G2 C2) as [R1 R2]. split; [by apply (Hafter st2)|done]. }
  specialize (Hf lease eq_refl). apply andb_true_iff in Hf as [Hi Ho]. apply bool_decide_eq_true in Hi.
  match goal with |- context [place_workspace st2 s slot r connectionId now attemptId nowMs ?a ?o ?m lease] =>
    pose proof (place_workspace_ok st2 s slot r connectionId now attemptId nowMs a o _ logs lease
      O2 K2 G2 Hq Hk Gs2 Hi Ho Hfit) as [R1 R2];
    destruct (place_workspace st2 s slot r connectionId now attemptId nowMs a o m lease) as [p st3] end.
  split; [by apply (Hafter st2)|done].
Qed.

(** Without asking which slots there are. *)
Lemma try_slots_keeps s now nowMs candidates : Session.status s = queued -> scheduleKind s = workspace_kind ->
  forall st, own_inv st -> JsMap.get (Session.id s) (Plane.sessions st) = Some s ->
  keeps (Session.id s) st (try_slots st s now nowMs candidates).2.
Proof.
  intros Hq Hk. induction candidates as [|[slot r] rest IH]; intros st H G; cbn [try_slots]; [by apply keeps_refl|].
  destruct (truthy_opt _) as [connectionId|]; [|by apply IH].
  destruct (negb _ || negb _); [by apply IH|].
  pose proof (still_draw st) as S1. destruct (draw_attempt st) as [attemptId st1]. cbn [snd] in S1. cbv zeta.
  assert (forall st2, still st st2 -> own_inv st2 /\ JsMap.get (Session.id s) (Plane.sessions st2) = Some s) as Hst.
  { intros st2 S. rewrite (still_sessions _ _ S). by split; [apply (own_except_frame None st); [apply still_own|]|]. }
  destruct (Hst st1 S1) as [O1 G1].
  destruct (assignLogSettings st1) as [logs|]; [|by apply (keeps_after _ _ st1), keeps_refl].
  destruct (negb _); [by apply (keeps_after _ _ st1), IH|].
  match goal with |- context [acquire_for st1 s ?a attemptId ?h ?b] =>
    pose proof (still_acquire st1 s a attemptId h b) as S2; destruct (acquire_for st1 s a attemptId h b) as [lease st2] end.
  cbn [snd] in S2. assert (still st st2) as S by (by transitivity st1). destruct (Hst st2 S) as [O2 G2].
  apply (keeps_after _ _ st2); [done|]. destruct lease as [lease|]; [|by apply IH].
  match goal with |- context [place_workspace st2 s slot r connectionId now attemptId nowMs ?a ?o ?m lease] =>
    pose proof (place_workspace_keeps st2 s slot r connectionId now attemptId nowMs a o m lease O2 G2 Hq Hk) as W;
    by destruct (place_workspace st2 s slot r connectionId now attemptId nowMs a o m lease) end.
Qed.

Lemma workspace_candidates st catalog s nowMs candidates :
  slots_ok st -> planWorkspacePlacement st catalog s nowMs = workspace_assign candidates ->
  Forall (fun c => JsMap.get (Slot.id c.1) (Plane.workspaceSlots st) = Some c.1) candidates.
Proof.
  intros [Wf Ids]. unfold planWorkspacePlacement. destruct (queueExpired s nowMs); [done|].
  destruct (truthy_opt _); [|done].
  match goal with |- context [match ?l with [] => _ | _ :: _ => _ end] => set (all := l) end.
  assert (Forall (fun c => JsMap.get (Slot.id c.1) (Plane.workspaceSlots st) = Some c.1) all) as Hall.
  { apply Forall_forall. intros c Hc. apply list_elem_of_In in Hc. unfold all in Hc.
    apply in_flat_map in Hc as (i & _ & Hc). apply in_flat_map in Hc as (slot & Hslot & Hc).
    apply in_map_iff in Hc as (r & <- & _). cbn [fst].
    apply (Permutation_in _ (toSorted_perm _ _)), filter_In in Hslot as [Hslot _].
    apply (JsMap.In_values_get _ _ Wf) in Hslot as [k Gk]. by rewrite (Ids k slot Gk). }
  destruct all; [done|]. by intros [= <-].
Qed.

Lemma workspace_turn_ok catalog now nowMs st s :
  own_inv st -> slots_ok st -> JsMap.get (Session.id s) (Plane.sessions st) = Some s ->
  Session.status s = queued -> scheduleKind s = workspace_kind ->
  workspace_turn (Session.id s) st (assign_workspace_session st catalog s now nowMs) /\
  slots_ok (assign_workspace_session st catalog s now nowMs).2.
Proof.
  intros H Hok G Hq Hk. unfold assign_workspace_session.
  destruct (planWorkspacePlacement _ _ _ _) as [|reason|candidates] eqn:P.
  - unfold expireWorkspaceSession. match goal with |- context [update_session st (Session.id s) ?x] => set (s1 := x) end.
    pose proof (expire_writes st s s1 H G Hq) as W. ospecialize (W _ _ _ _); [done..|].
    split; [|done]. split; [exact W|]. split; [by apply slots_same|done].
  - split; [|done]. split; [by apply keeps_refl|]. split; [by apply slots_same|done].
  - apply try_slots_ok; try done. by eapply workspace_candidates.
Qed.
End workspace_pass.

(** ** The passes *)
Section passes.
Context {LC : LocaleCompare} {DP : DateParse} {LL : LocaleCompareLaws LC}.
Implicit Types (st : ControlPlaneState) (s : SessionRecord).

Lemma waiting_queue st kind : waiting kind (queue_of st kind).
Proof. apply Forall_forall. intros s Hin. by apply list_elem_of_In, queue_members in Hin. Qed.

Lemma adv_assign_scheduled st sessionId :
  own_inv st -> advances st (assignScheduledQueuedDurable st sessionId).2.
Proof.
  intros H. unfold assignScheduledQueuedDurable. destruct (assignLogSettings st); [|split; [done|apply se_refl]].
  apply (pass_advances scheduled_kind); [|done|by apply queue_ok_ordered|apply waiting_queue].
  intros st1 s1 H1 G Hq Hk. by apply scheduled_turn_ok.
Qed.

Lemma adv_assign_workspace st sessionId :
  own_inv st -> advances st (assignWorkspaceQueuedDurable st sessionId).2.
Proof.
  intros H. unfold assignWorkspaceQueuedDurable. destruct (assignLogSettings st); [|split; [done|apply se_refl]].
  apply (pass_advances workspace_kind); [|done|by apply queue_ok_ordered|apply waiting_queue].
  intros st1 s1 H1 G Hq Hk. unfold assign_workspace_session.
  destruct (planWorkspacePlacement _ _ _ _); [|by apply keeps_refl|by apply try_slots_keeps].
  by apply expire_writes.
Qed.

(** The session of a placement was waiting when the pass began. *)
Definition was_waiting (st : ControlPlaneState) (kind : ScheduleKind) (k : string) : Prop :=
  exists s, JsMap.get k (Plane.sessions st) = Some s /\ Session.status s = queued /\ scheduleKind s = kind.

Lemma queue_waiting st kind k : own_inv st -> In k (map Session.id (queue_of st kind)) -> was_waiting st kind k.
Proof.
  intros H Hin. apply in_map_iff in Hin as (s & <- & Hs). exists s.
  split; [by apply (queue_ok_ordered st (Plane.shardCount st) kind H)|]. by apply queue_members in Hs.
Qed.

(** [C4] A scheduled pass is sound: every session it reports was queued and scheduled,
    and now runs in the main checkout of its repository, which was free when the pass
    began and is leased to that session; the pass sent exactly one [session:assign]
    frame for it, in order, to the host of the checkout; no session is placed twice, no
    checkout is given to two sessions, and every lease taken before is untouched. *)
Theorem scheduled_pass_sound st sessionId placed st' :
  own_inv st -> assignScheduledQueuedDurable st sessionId = (Some placed, st') ->
  List.NoDup (map scheduled_id placed) /\ List.NoDup (map scheduled_checkout placed) /\
  (forall t k, checkout_held st t k -> checkout_held st' t k) /\
  exists frames, Plane.outbox st' = (Plane.outbox st ++ frames)%list /\
    Forall2 (fun a f =>
      was_waiting st scheduled_kind (scheduled_id a) /\ checkout_free st (scheduled_checkout a) /\
      checkout_held st' (scheduled_checkout a) (scheduled_id a) /\
      exists s', JsMap.get (scheduled_id a) (Plane.sessions st') = Some s' /\ scheduled_told s' a f) placed frames.
Proof.
  intros H. unfold assignScheduledQueuedDurable. destruct (assignLogSettings st); [|done]. intros E.
  destruct (pass_loop_sound scheduled_id scheduled_checkout checkout_free checkout_held checkout_held_not_free
    scheduled_told scheduled_kind (fun _ => True) _ (fun st s H _ G Hq Hk =>
      conj (scheduled_turn_ok _ _ st s H G Hq Hk) I) _ _ st placed st' H I
    (queue_ok_ordered st _ _ H) (waiting_queue st _) E) as ([_ T] & _ & N1 & N2 & J & frames & Ef & Hf).
  do 3 (split; [done|]). exists frames. split; [done|].
  apply Forall2_same_length_lookup_2; [by eapply Forall2_length|].
  intros i a f Ha Hfi. destruct (Forall2_lookup_lr _ _ _ _ _ _ Hf Ha Hfi) as (F & _ & Hh & Hs).
  split; [|done]. apply queue_waiting; [done|]. apply J. by eapply list_elem_of_In, list_elem_of_lookup_2.
Qed.

(** [C5] A workspace pass is sound: every session it reports was queued, and now runs
    in a slot that was idle and online when the pass began and is now busy with that
    session; the pass sent exactly one [session:assign] frame for it, in order, to the
    slot's host, and the frame is no longer than 120 KiB; no session is placed twice, no
    slot is given to two sessions, and no busy slot changes hands. *)
Theorem workspace_pass_sound st sessionId placed st' :
  own_inv st -> slots_ok st -> assignWorkspaceQueuedDurable st sessionId = (Some placed, st') ->
  List.NoDup (map workspace_id placed) /\ List.NoDup (map workspace_slot placed) /\
  (forall t k, slot_held st t k -> slot_held st' t k) /\
  exists frames, Plane.outbox st' = (Plane.outbox st ++ frames)%list /\
    Forall2 (fun a f =>
      was_waiting st workspace_kind (workspace_id a) /\ slot_free st (workspace_slot a) /\
      slot_held st' (workspace_slot a) (workspace_id a) /\
      exists s', JsMap.get (workspace_id a) (Plane.sessions st') = Some s' /\ workspace_told s' a f) placed frames.
Proof.
  intros H Hok. unfold assignWorkspaceQueuedDurable. destruct (assignLogSettings st); [|done]. intros E.
  destruct (pass_loop_sound workspace_id workspace_slot slot_free slot_held slot_held_not_free
    workspace_told workspace_kind slots_ok _ (workspace_turn_ok _ _ _) _ _ st placed st' H Hok
    (queue_ok_ordered st _ _ H) (waiting_queue st _) E) as ([_ T] & _ & N1 & N2 & J & frames & Ef & Hf).
  do 3 (split; [done|]). exists frames. split; [done|].
  apply Forall2_same_length_lookup_2; [by eapply Forall2_length|].
  intros i a f Ha Hfi. destruct (Forall2_lookup_lr _ _ _ _ _ _ Hf Ha Hfi) as (F & _ & Hh & Hs).
  split; [|done]. apply queue_waiting; [done|]. apply J. by eapply list_elem_of_In, list_elem_of_lookup_2.
Qed.
End passes.

(** ** Witnesses *)
#[local] Existing Instance code_order.
#[local] Existing Instance iso_date_parse.

(** Two scheduled sessions of one repository and a host that serves it. *)
Definition scheduled_state : ControlPlaneState :=
  example_state
    <| Plane.sessions :=
         [("s1", example_queued <| Session.type := Some "scheduled" |>);
          ("s2", (example_session "s2" 0 1 "2026-01-01T00:00:01.000Z") <| Session.type := Some "scheduled" |>)] |>
    <| Plane.connections :=
         [("c1", example_connection <| Connection.repositoryIds := Some ["repo"] |>
                   <| Connection.capabilities := Some ["scheduled-main-checkout"; "session-spawn"] |>)] |>
    <| Plane.hostInventories :=
         [("h1", setScopeProviderEnabled example_inventory (mkScope "repo" None) "acct" (Some true))] |>
    <| Plane.providers :=
         [("claude", Prov.mkProvider "claude" "claude" (Some "cmd-wt") "2026-01-01T00:00:00.000Z"
                       "2026-01-01T00:00:00.000Z" None)] |>.

Lemma scheduled_own : own_inv scheduled_state.
Proof.
  split; try (by cbn; repeat constructor; set_solver); intros k v; cbn; unfold str_eqb; repeat case_bool_decide;
    intros; by simplify_eq.
Qed.

(** The first session takes the checkout and the second one waits. *)
Lemma scheduled_pass_sound_witness :
  exists placed st', assignScheduledQueuedDurable scheduled_state None = (Some placed, st') /\
    map scheduled_id placed = ["s1"] /\ checkout_held st' (main_checkout_key "h1" "repo") "s1".
Proof.
  destruct (assignScheduledQueuedDurable scheduled_state None) as [[placed|] st'] eqn:E.
  - assert (map (fun a => (scheduled_id a, scheduled_checkout a)) placed =
            [("s1", main_checkout_key "h1" "repo")]) as Ep.
    { transitivity (map (fun a => (scheduled_id a, scheduled_checkout a))
        (opt_or (assignScheduledQueuedDurable scheduled_state None).1 [])); [by rewrite E|vm_compute; reflexivity]. }
    exists placed, st'. split; [reflexivity|].
    destruct (scheduled_pass_sound scheduled_state None placed st' scheduled_own E) as (_ & _ & _ & frames & _ & Hf).
    destruct placed as [|a [|b placed]]; [discriminate Ep| |discriminate Ep].
    cbn [map] in Ep. injection Ep as Ei Et. split; [cbn [map]; by rewrite Ei|].
    inversion Hf as [|? ? ? ? (_ & _ & Hh & _)]; subst. by rewrite Ei, Et in Hh.
  - exfalso. pose proof (f_equal (fun x => is_some x.1) E) as E1. vm_compute in E1. discriminate E1.
Defined.

(** Two workspace sessions of one pool and a host with one slot of it. *)
Definition workspace_state : ControlPlaneState :=
  scheduled_state
    <| Plane.sessions :=
         [("s1", example_queued <| Session.type := Some "workspace" |> <| Session.workspacePoolId := Some "pool" |>);
          ("s2", (example_session "s2" 0 1 "2026-01-01T00:00:01.000Z") <| Session.type := Some "workspace" |>
                   <| Session.workspacePoolId := Some "pool" |>)] |>
    <| Plane.connections :=
         [("c1", example_connection <| Connection.capabilities := Some ["workspace-sessions"] |>)] |>
    <| Plane.workspaceSlots :=
         [("slot1", Slot.mkWorkspaceSlot "slot1" "one" "h1" "pool" "/pool/one" idle true Null None None Undef None)] |>.

Lemma workspace_own : own_inv workspace_state.
Proof.
  split; try (by cbn; repeat constructor; set_solver); intros k v; cbn; unfold str_eqb; repeat case_bool_decide;
    intros; by simplify_eq.
Qed.

Lemma workspace_slots_ok : slots_ok workspace_state.
Proof.
  split; [by cbn; repeat constructor; set_solver|]. intros k v. cbn. unfold str_eqb. case_bool_decide; [|done].
  intros [= <-]. done.
Qed.

(** The first session takes the slot and the second one waits. *)
Lemma workspace_pass_sound_witness :
  exists placed st', assignWorkspaceQueuedDurable workspace_state None = (Some placed, st') /\
    map workspace_id placed = ["s1"] /\ slot_held st' "slot1" "s1".
Proof.
  destruct (assignWorkspaceQueuedDurable workspace_state None) as [[placed|] st'] eqn:E.
  - assert (map (fun a => (workspace_id a, workspace_slot a)) placed = [("s1", "slot1")]) as Ep.
    { transitivity (map (fun a => (workspace_id a, workspace_slot a))
        (opt_or (assignWorkspaceQueuedDurable workspace_state None).1 [])); [by rewrite E|vm_compute; reflexivity]. }
    exists placed, st'. split; [reflexivity|].
    destruct (workspace_pass_sound workspace_state None placed st' workspace_own workspace_slots_ok E)
      as (_ & _ & _ & frames & _ & Hf).
    destruct placed as [|a [|b placed]]; [discriminate Ep| |discriminate Ep].
    cbn [map] in Ep. injection Ep as Ei Et. split; [cbn [map]; by rewrite Ei|].
    inversion Hf as [|? ? ? ? (_ & _ & Hh & _)]; subst. by rewrite Ei, Et in Hh.
  - exfalso. pose proof (f_equal (fun x => is_some x.1) E) as E1. vm_compute in E1. discriminate E1.
Defined.
