(* ===== verification/HostOwnership.v ===== *)
(** * Ownership and evolution across hosts

    The operations of [Reconnect] and [HostLifecycle] keep what [Ownership] and
    [Evolution] state of the others: every worktree stays with its owner and
    every session only evolves ([advances]). *)

From Stdlib Require Import ZArith Lia Ascii String.
From stdpp Require Import base strings list relations.
From S2P Require Import Prelude DateTime Types Ordering TransitionPlanner SessionTarget.
From S2P Require Import AccountLeases Placement SessionOutcome LogSettings Worktrees Assignment HostMessages.
From S2P Require Import Registration Inventory Reconnect HostLifecycle Ownership Evolution.

Local Open Scope string_scope.
Local Open Scope Z_scope.

(** ** Steps that touch neither sessions, worktrees nor new acknowledgements *)
Definition calm (st st' : ControlPlaneState) : Prop := own_frame st st' /\ quiet st st'.

Lemma calm_refl st : calm st st.
Proof. split; [done|apply quiet_refl]. Qed.

Lemma calm_trans st1 st2 st3 : calm st1 st2 -> calm st2 st3 -> calm st1 st3.
Proof. intros [F1 Q1] [F2 Q2]. split; [by eapply own_frame_trans|by eapply quiet_trans]. Qed.

Lemma calm_same st st' :
  Plane.sessions st' = Plane.sessions st -> Plane.worktrees st' = Plane.worktrees st ->
  Plane.pendingAcks st' = Plane.pendingAcks st -> calm st st'.
Proof. intros E1 E2 E3. split; [done|by apply quiet_same]. Qed.

Lemma calm_own skip st st' : calm st st' -> own_except skip st -> own_except skip st'.
Proof. intros [F _]. by apply own_except_frame. Qed.

Lemma calm_advances st st' : own_inv st -> calm st st' -> advances st st'.
Proof. intros H C. split; [by apply (calm_own None st)|]. by apply se_quiet; destruct C. Qed.

Lemma advances_refl st : own_inv st -> advances st st.
Proof. intros H. split; [done|apply se_refl]. Qed.

Lemma advances_after st st1 st2 : advances st st1 -> calm st1 st2 -> advances st st2.
Proof. intros [O1 E1] C. eapply advances_trans; [by split|]. by apply calm_advances. Qed.

Lemma advances_before st st1 st2 : calm st st1 -> advances st1 st2 -> advances st st2.
Proof. intros [_ Q] [O E]. split; [done|by eapply se_before]. Qed.

Lemma calm_account st s : calm st (releaseProviderAccountLease st s).1.
Proof. split; [apply release_account_frame|apply quiet_account]. Qed.
Lemma calm_checkout st s : calm st (releaseScheduledLeaseLocal st s).2.
Proof. split; [apply release_checkout_lease_frame|apply quiet_checkout]. Qed.
Lemma calm_forget st k : calm st (forget_ack st k).
Proof. split; [done|apply quiet_forget]. Qed.
Lemma calm_emit st h m : calm st (emit st h m).
Proof. by apply calm_same. Qed.
Lemma calm_archive st k : calm st (queueSessionArchive st k).
Proof. by apply calm_same. Qed.
Lemma calm_set_slot st k v : calm st (set_slot st k v).
Proof. by apply calm_same. Qed.
Lemma calm_set_checkout st k v : calm st (set_checkout st k v).
Proof. by apply calm_same. Qed.
Lemma calm_free_slot st slot : calm st (free_slot st slot).
Proof. unfold free_slot, removeReleasedRetiredWorkspaceSlot. repeat case_match; by apply calm_same. Qed.
Lemma calm_delete_slot st k : calm st (delete_slot st k).
Proof. by apply calm_same. Qed.

#[export] Hint Resolve calm_refl calm_account calm_checkout calm_forget calm_emit calm_archive
  calm_set_slot calm_set_checkout calm_free_slot calm_delete_slot : sess.

(** ** Worktrees *)

(** A row is written whose owner, if any, is kept. *)
Lemma own_put skip st k w :
  own_except skip st -> Worktree.id w = k ->
  (forall v x, JsMap.get k (Plane.worktrees st) = Some v -> Worktree.status v = busy ->
     Worktree.currentSessionId v = Val x -> Worktree.status w = busy /\ Worktree.currentSessionId w = Val x) ->
  own_except skip (set_worktree st k w).
Proof.
  intros [H1 H2 H3 H4 H5] Hid Hkeep. split; simpl; try done; try (by auto with jsmap).
  - intros j v. rewrite JsMap.get_set. case_decide; [naive_solver|apply H3].
  - intros j s v Hj Hg Hv Hne. destruct (H4 j s v) as (wv & Gv & Bv & Cv); try done.
    unfold owns. simpl. rewrite JsMap.get_set. case_decide as Hd; [|by exists wv].
    subst v. destruct (Hkeep wv j Gv Bv Cv) as [B C]. exists w. split; [done|]. split; congruence.
Qed.

Lemma own_put_idle st w :
  own_inv st ->
  (forall v, JsMap.get (Worktree.id w) (Plane.worktrees st) = Some v -> Worktree.status v <> busy) ->
  own_inv (persistWorktree st w).
Proof. intros H Hidle. apply own_put; [done|done|]. intros v x G B. by apply Hidle in G. Qed.

(** A row that is not busy is removed. *)
Lemma own_delete st k :
  own_inv st -> (forall v, JsMap.get k (Plane.worktrees st) = Some v -> Worktree.status v <> busy) ->
  own_inv (delete_worktree st k).
Proof.
  intros [H1 H2 H3 H4 H5] Hidle. split; simpl; try done; try (by auto with jsmap).
  - intros j v. rewrite JsMap.get_delete. case_decide; [done|apply H3].
  - intros j s v Hj Hg Hv Hne. destruct (H4 j s v) as (wv & Gv & Bv & Cv); try done.
    exists wv. simpl. rewrite JsMap.get_delete. case_decide as Hd; [|done]. subst v. by apply Hidle in Gv.
Qed.

(** The invariant is closed once the session left out names no worktree. *)
Lemma own_close st k :
  own_except (Some k) st -> (forall s, JsMap.get k (Plane.sessions st) = Some s -> detached s) -> own_inv st.
Proof.
  intros [H1 H2 H3 H4 H5] Hd. split; try done. intros j s w _ Hg Hw Hne.
  destruct (decide (j = k)) as [->|Hj]; [by destruct Hne; eapply Hd|].
  apply (H4 j s w); [congruence|done..].
Qed.

(** A worktree that no session names is released. *)
Lemma own_release_free st w :
  own_inv st ->
  (forall j s, JsMap.get j (Plane.sessions st) = Some s -> Session.worktreeId s = Val w -> w = "") ->
  own_inv (releaseWorktree st w).
Proof.
  intros H Hfree. unfold releaseWorktree.
  destruct (JsMap.get w (Plane.worktrees st)) as [wt|] eqn:E; [|done].
  match goal with |- own_inv (persistWorktree _ ?x) => set (wt' := x) end.
  assert (Worktree.id wt' = w) as Hid by (unfold wt'; case_match; simpl; by apply (oe_wids _ _ H)).
  destruct H as [H1 H2 H3 H4 H5]. unfold persistWorktree. rewrite Hid. split; simpl; [done|done| | |by auto with jsmap].
  - intros j v. rewrite !JsMap.get_set. case_decide; [naive_solver|]. apply H3.
  - intros j s v _ Hg Hv Hne. destruct (H4 j s v) as (wv & Gv & B); try done.
    exists wv. simpl. rewrite !JsMap.get_set. case_decide as Hd; [|done]. subst v. by destruct Hne; eapply Hfree.
Qed.

(** [visit] keeps what its body keeps. *)
Lemma visit_inv {V} (P : ControlPlaneState -> Prop) (look : ControlPlaneState -> JsMap.t V) body st :
  (forall st k v, P st -> JsMap.get k (look st) = Some v -> P (body st k v)) -> P st -> P (visit look body st).
Proof.
  intros Hbody H. unfold visit. generalize (JsMap.keys (look st)). intros keys. revert st H.
  induction keys as [|k keys IH]; intros st H; simpl; [done|]. apply IH.
  destruct (JsMap.get k (look st)) as [v|] eqn:G; [by apply Hbody|done].
Qed.

(** ** One session *)
Lemma adv_update_core st st1 k s s' :
  own_inv st -> calm st st1 -> JsMap.get k (Plane.sessions st) = Some s -> core_eq s s' ->
  advances st (update_session st1 k s').
Proof.
  intros H [F Q] G C. split; [|by eapply se_update_core].
  apply (own_update_same st1 k s); [by apply (own_except_frame None st)|by destruct F as [-> _]|].
  split; [by apply core_id|apply C].
Qed.

Lemma adv_persist_core st st1 k s s' :
  own_inv st -> calm st st1 -> JsMap.get k (Plane.sessions st) = Some s -> core_eq s s' ->
  advances st (persistSession st1 s').
Proof.
  intros H C G Cs. unfold persistSession.
  replace (Session.id s') with k by (rewrite (core_id _ _ Cs); symmetry; exact (oe_ids _ _ H k s G)).
  apply (adv_update_core st st1 k s); [done|done|done|].
  eapply core_eq_trans; [exact Cs|apply persistence_core].
Qed.

(** A session that gives its worktree up is written back. *)
Lemma adv_persist_detached st st1 k s s' :
  own_inv st -> own_except (Some k) st1 -> quiet st st1 -> JsMap.get k (Plane.sessions st) = Some s ->
  Session.id s' = k -> detached s' -> evolves s (pending st k) s' (pending st1 k) ->
  advances st (persistSession st1 s').
Proof.
  intros H He Q G Hid Hd Hev. split; [by apply (own_persist_detached st1 k)|by apply (se_persist _ _ k s)].
Qed.

Section hosts.
Context {LC : LocaleCompare} {DP : DateParse} {UP : UrlParse}.
Implicit Types (st : ControlPlaneState) (s : SessionRecord).

(** ** Sessions a host no longer reports *)

(** The status a lost session ends in. *)
Definition lost_status s : SessionStatus := if terminal_loss s then failed else queued.

(** A mutation that changes neither what the relation looks at nor how the loss ends. *)
Definition same_loss s s' : Prop :=
  core_eq s s' /\ acknowledged s' = acknowledged s /\ canRetryHostLoss s' = canRetryHostLoss s.

Lemma same_loss_refl s : same_loss s s.
Proof. done. Qed.

Lemma release_account_loss st s : same_loss s (releaseProviderAccountLease st s).2.
Proof. unfold releaseProviderAccountLease, same_loss. by case_match. Qed.

Lemma same_loss_status s s' : same_loss s s' -> lost_status s' = lost_status s.
Proof. intros (_ & E1 & E2). unfold lost_status, terminal_loss. by rewrite E1, E2. Qed.

(** The map's record of a session of the snapshot: the object itself, or what an
    earlier pass replaced it with. *)
Definition tracks st s : Prop :=
  holds_ok s /\
  exists m, JsMap.get (Session.id s) (Plane.sessions st) = Some m /\
    (core_eq m s \/
     identity m s /\ Session.status s = running /\ Session.status m = lost_status s /\
     (Session.terminalHookHandoff m = Session.terminalHookHandoff s \/ Session.status m = failed)).

Lemma tracks_loss st s s' : same_loss s s' -> tracks st s -> tracks st s'.
Proof.
  intros L (Hl & m & G & D). pose proof (same_loss_status _ _ L) as El. destruct L as (C & _).
  split; [eapply lineage_holds; [apply C|done]|]. exists m. split; [by rewrite (core_id _ _ C)|].
  destruct D as [Cm|(I' & Hr & Em & Hh)]; [left; by eapply core_eq_trans|right].
  destruct C as ((I & _) & Es & Eh & Ew).
  split; [by eapply identity_trans|]. split; [congruence|]. split; [congruence|].
  destruct Hh as [Hh|Hh]; [left; congruence|by right].
Qed.

Lemma tracks_other st st' s : JsMap.get (Session.id s) (Plane.sessions st') =
  JsMap.get (Session.id s) (Plane.sessions st) -> tracks st s -> tracks st' s.
Proof. intros E (Hl & m & G & D). split; [done|]. exists m. by rewrite E. Qed.

(** The record a lost session is given. *)
Record lost_record s (next : SessionRecord) : Prop := {
  lr_lineage : lineage s next;
  lr_status : Session.status next = lost_status s;
  lr_detached : detached next;
  lr_handoff : Session.terminalHookHandoff next = Session.terminalHookHandoff s \/ Session.status next = failed;
}.

Lemma lost_retry s : terminal_loss s = false -> lost_record s (queueHostLossRetry s).
Proof.
  intros Ht. unfold queueHostLossRetry.
  destruct (truthy_opt (Session.attemptId s)); split; try done; try (by left); try (by apply detached_null);
    unfold lost_status; by rewrite Ht.
Qed.

Lemma lost_requeue s reason : terminal_loss s = false -> lost_record s (queueReconnectSession s reason).
Proof.
  intros Ht. split; [done|unfold lost_status; by rewrite Ht|by apply detached_null|by left].
Qed.

Lemma lost_finish st s handoff : terminal_loss s = true -> lost_record s (finishHostLostSession st s handoff).1.
Proof.
  intros Ht. unfold finishHostLostSession. cbn [fst].
  destruct (handoff_holds_checkout handoff), handoff; split; try done; try (by right);
    try (by apply detached_null); unfold lost_status; by rewrite Ht.
Qed.

(** A session ends in [failed] and names no worktree. *)
Lemma finish_fields st s handoff :
  lineage s (finishHostLostSession st s handoff).1 /\
  Session.status (finishHostLostSession st s handoff).1 = failed /\
  detached (finishHostLostSession st s handoff).1.
Proof.
  unfold finishHostLostSession. cbn [fst].
  destruct (handoff_holds_checkout handoff), handoff; (split; [lin|split; [done|by apply detached_null]]).
Qed.

Lemma retryable_not_terminal s : retryable_loss s = true -> terminal_loss s = false.
Proof. unfold retryable_loss, terminal_loss. intros H. apply andb_true_iff in H as [-> ->]. done. Qed.

Lemma lost_session_record st s reason handoff : lost_record s (lost_session st s reason handoff).1.
Proof.
  unfold lost_session. destruct (retryable_loss s) eqn:R; [by apply lost_retry, retryable_not_terminal|].
  destruct (terminal_loss s) eqn:T; [by apply lost_finish|by apply lost_requeue].
Qed.

Lemma calm_host_lost_handoff st s : calm st (hostLostTerminalHookHandoff st s).2.
Proof. unfold hostLostTerminalHookHandoff. case_match; by apply calm_same. Qed.

Lemma calm_loss_handoff st s : calm st (loss_handoff st s).2.
Proof. unfold loss_handoff. case_match; [apply calm_host_lost_handoff|apply calm_refl]. Qed.

Lemma calm_finish st s handoff : calm st (finishHostLostSession st s handoff).2.
Proof. unfold finishHostLostSession. cbn [snd]. case_match; by apply calm_same. Qed.

Lemma calm_lost_session st s reason handoff : calm st (lost_session st s reason handoff).2.
Proof.
  unfold lost_session. destruct (retryable_loss s); [apply calm_refl|].
  destruct (terminal_loss s); [apply calm_finish|apply calm_refl].
Qed.

Lemma lost_workspace_record st s reason :
  calm st (lost_workspace_session st s reason).2 /\
  forall next, (lost_workspace_session st s reason).1 = Some next -> lost_record s next.
Proof.
  unfold lost_workspace_session. destruct (retryable_loss s) eqn:R.
  { split; [apply calm_refl|]. intros next [= <-]. by apply lost_retry, retryable_not_terminal. }
  destruct (terminal_loss s) eqn:T; [|split; [apply calm_refl|intros next [= <-]; by apply lost_requeue]].
  unfold finishHostLostWorkspaceSession.
  pose proof (calm_host_lost_handoff st s) as C1.
  destruct (hostLostTerminalHookHandoff st s) as [[handoff|] st1]; cbn [snd] in C1; [|by split].
  pose proof (lost_finish st1 s handoff T) as [I Es D Hh]. pose proof (calm_finish st1 s handoff) as C2.
  destruct (finishHostLostSession st1 s handoff) as [next st2]. cbn [fst snd] in *.
  split; [by eapply calm_trans|]. intros n [= <-]. split; [lin|exact Es|exact D|exact Hh].
Qed.

Lemma lost_record_loss s s' next : same_loss s s' -> lost_record s' next -> lost_record s next.
Proof.
  intros L [I Es D Hh]. pose proof (same_loss_status _ _ L) as El. destruct L as ((I' & _ & Eh & _) & _).
  split; [by eapply lineage_trans|congruence|done|].
  destruct Hh as [Hh|Hh]; [left; congruence|by right].
Qed.

(** Whoever tracks a running session evolves into its lost record. *)
Lemma lost_evolves m s next p :
  holds_ok s ->
  core_eq m s \/
    (identity m s /\ Session.status s = running /\ Session.status m = lost_status s /\
     (Session.terminalHookHandoff m = Session.terminalHookHandoff s \/ Session.status m = failed)) ->
  Session.status s = running -> lost_record s next -> evolves m p next false.
Proof.
  intros Hl D Hr [I Es Hd Hh]. split.
  - eapply identity_trans; [|apply I]. destruct D as [((I' & _) & _)|(I' & _)]; exact I'.
  - intros Ht _. destruct D as [(_ & E & _)|(_ & _ & E & _)]; [|by rewrite Es, E].
    exfalso. rewrite <- E, Hr in Ht. done.
  - intros [O1 O2 O3 O4].
    split; [|by intros _|by rewrite Es; unfold lost_status; case_match|by eapply lineage_holds].
    intros Hn. split; [|by split].
    destruct Hh as [Hh|Hh]; [|by rewrite Hh]. rewrite Hh in Hn.
    destruct D as [(_ & E & Ehm & _)|(_ & _ & Em & [Ehm|Ef])].
    + exfalso. rewrite Ehm in Hn. destruct (O1 Hn) as [Ht _]. rewrite <- E, Hr in Ht. done.
    + rewrite <- Ehm in Hn. destruct (O1 Hn) as [Ht _]. by rewrite Es, <- Em.
    + by rewrite Es, <- Em, Ef.
Qed.

(** Sessions in [run] keep their record and their worktree row. *)
Definition spares (run : list string) st st' : Prop :=
  forall j, In j run ->
    JsMap.get j (Plane.sessions st') = JsMap.get j (Plane.sessions st) /\
    forall w v, JsMap.get w (Plane.worktrees st) = Some v -> Worktree.currentSessionId v = Val j ->
      JsMap.get w (Plane.worktrees st') = Some v.

Lemma spares_refl run st : spares run st st.
Proof. done. Qed.

Lemma spares_trans run st1 st2 st3 : spares run st1 st2 -> spares run st2 st3 -> spares run st1 st3.
Proof.
  intros H1 H2 j Hj. destruct (H1 j Hj) as [E1 W1], (H2 j Hj) as [E2 W2]. split; [congruence|].
  intros w v G C. apply W2; [|done]. by apply W1.
Qed.

Lemma spares_calm run st st' : calm st st' -> spares run st st'.
Proof. intros [[E1 E2] _] j _. split; [by rewrite E1|]. intros w v G _. by rewrite E2. Qed.

(** What one step over a session of the snapshot guarantees. *)
Record pass_step (run : list string) st s st' s' : Prop := {
  ps_advances : advances st st';
  ps_only : only_session (Session.id s) st st';
  ps_spares : spares run st st';
  ps_same : same_loss s s';
  ps_tracks : tracks st' s';
}.

Lemma pass_skip run st s : own_inv st -> tracks st s -> pass_step run st s st s.
Proof.
  intros H T. split; [by apply advances_refl|apply only_session_refl|apply spares_refl|apply same_loss_refl|done].
Qed.

Lemma pass_calm run st st' s : own_inv st -> tracks st s -> calm st st' -> pass_step run st s st' s.
Proof.
  intros H T C. assert (Plane.sessions st' = Plane.sessions st) as E by apply C.
  split; [by apply calm_advances|by apply only_session_eq|by apply spares_calm|apply same_loss_refl|].
  apply (tracks_other st); [by rewrite E|done].
Qed.

(** The session is lost: its record is replaced and its entry dropped, and whatever
    follows leaves the sessions alone. *)
Lemma pass_lost run st st1 s s1 next :
  own_inv st -> tracks st s -> calm st st1 -> same_loss s s1 -> Session.status s = running ->
  set_has (Session.id s) run = false -> lost_record s next ->
  pass_step run st s (forget_ack (update_session st1 (Session.id s) next) (Session.id s)) s1.
Proof.
  intros H T C L Hr Hrun Hn. destruct (T) as (Hl & m & G & D). destruct C as [F Q].
  assert (Session.id next = Session.id s) as Hidn by apply (lineage_id _ _ (lr_lineage _ _ Hn)).
  assert (Plane.sessions st1 = Plane.sessions st) as E1 by apply F.
  split.
  - split; [|by apply (se_update_forget _ _ _ m); [| |eapply lost_evolves]].
    own_peel. apply own_update_detached; [by apply (own_except_frame _ st); [|apply own_weaken]|done|apply (lr_detached _ _ Hn)].
  - intros j Hj. simpl. rewrite JsMap.get_set_ne by done. by rewrite E1.
  - intros j Hj. assert (j <> Session.id s) as Hne by (intros ->; by apply set_has_not_In in Hrun).
    simpl. rewrite JsMap.get_set_ne by done. rewrite E1. split; [done|].
    intros w v Gw _. destruct F as [_ ->]. done.
  - done.
  - apply (tracks_loss _ s); [done|]. split; [done|]. exists next. simpl. rewrite JsMap.get_set_eq. split; [done|].
    right. destruct Hn as [[I _] Es Hd Hh]. split; [by apply identity_sym|]. by split.
Qed.

Lemma pass_after run st s st1 s1 st2 :
  pass_step run st s st1 s1 -> calm st1 st2 -> pass_step run st s st2 s1.
Proof.
  intros [A O S L T] C. assert (Plane.sessions st2 = Plane.sessions st1) as E by apply C.
  split; [by eapply advances_after|eapply only_session_trans; [done|by apply only_session_eq]| |done|].
  - eapply spares_trans; [done|by apply spares_calm].
  - apply (tracks_other st1); [by rewrite E|done].
Qed.

(** An error after the mutation of the session object. *)
Lemma pass_threw run st st1 s s1 :
  own_inv st -> tracks st s -> calm st st1 -> same_loss s s1 -> Session.status s = running ->
  set_has (Session.id s) run = false -> pass_step run st s (keep_mutation st1 s1) s1.
Proof.
  intros H T C L Hr Hrun. pose proof (L) as ((I & Es & Eh & Ew) & _).
  assert (Session.id s1 = Session.id s) as Hid by (by apply lineage_id).
  assert (Plane.sessions st1 = Plane.sessions st) as E1 by apply C.
  destruct (T) as (Hl & m & G & D). unfold keep_mutation. rewrite Hid, E1, G.
  case_bool_decide as Hs.
  - assert (core_eq m s) as Cm.
    { destruct D as [Cm|(_ & _ & Em & _)]; [done|]. exfalso. rewrite Em, Es, Hr in Hs.
      unfold lost_status in Hs. by case_match. }
    assert (core_eq m s1) as Cm1 by (eapply core_eq_trans; [exact Cm|by apply L]).
    split.
    + by apply (adv_update_core st st1 (Session.id s) m).
    + intros j Hj. simpl. rewrite JsMap.get_set_ne by done. by rewrite E1.
    + intros j Hj. assert (j <> Session.id s) as Hne by (intros ->; by apply set_has_not_In in Hrun).
      simpl. rewrite JsMap.get_set_ne by done. rewrite E1. split; [done|].
      intros w v Gw _. destruct C as [[_ ->] _]. done.
    + done.
    + split; [by eapply lineage_holds|]. exists s1. rewrite Hid. simpl. rewrite JsMap.get_set_eq. by split; [|left].
  - eapply pass_after; [|exact C]. split; [by apply advances_refl|apply only_session_refl|apply spares_refl|done|].
    by apply (tracks_loss _ s).
Qed.

(** The worktree of a lost session goes back once the session no longer names it. *)
Lemma pass_release run st s st1 s1 w wt :
  pass_step run st s st1 s1 ->
  (forall m, JsMap.get (Session.id s) (Plane.sessions st1) = Some m -> detached m) ->
  JsMap.get w (Plane.worktrees st1) = Some wt -> Worktree.currentSessionId wt = Val (Session.id s) ->
  set_has (Session.id s) run = false ->
  pass_step run st s (releaseWorktree st1 w) s1.
Proof.
  intros [A O S L T] Hd Gw Cw Hrun.
  assert (Plane.sessions (releaseWorktree st1 w) = Plane.sessions st1) as Es by apply quiet_release.
  assert (only_session (Session.id s) st (releaseWorktree st1 w)) as Honly
    by (eapply only_session_trans; [done|by apply only_session_eq]).
  split; [|done| |done|apply (tracks_other st1); [by rewrite Es|done]].
  - destruct A as [Oi Ev]. split; [|eapply se_after; [exact Ev|apply quiet_release]].
    apply (own_close _ (Session.id s)); [|by rewrite Es].
    apply own_release; [by apply own_weaken|]. intros v Gv _. by assert (v = wt) as -> by congruence.
  - intros j Hj. assert (j <> Session.id s) as Hne by (intros ->; by apply set_has_not_In in Hrun).
    destruct (S j Hj) as [E1 W1]. split; [by rewrite Es|]. intros v u Gu Cu.
    specialize (W1 v u Gu Cu). unfold releaseWorktree. rewrite Gw. unfold persistWorktree. simpl.
    assert (Worktree.id wt = w) as Hidw by (destruct A as [Oi _]; by apply (oe_wids _ _ Oi)).
    destruct (decide (v = w)) as [->|Hv]; [congruence|].
    match goal with |- JsMap.get v (JsMap.set (Worktree.id ?x) _ _) = _ =>
      assert (Worktree.id x = w) as -> by (by case_match) end.
    by rewrite !JsMap.get_set_ne.
Qed.

Lemma pass_before run st st1 s st2 s2 :
  calm st st1 -> pass_step run st1 s st2 s2 -> pass_step run st s st2 s2.
Proof.
  intros C [A O S L T]. split; [by eapply advances_before| | |done|done].
  - eapply only_session_trans; [apply only_session_eq, C|done].
  - eapply spares_trans; [by apply spares_calm|done].
Qed.

Lemma forget_release st k w : forget_ack (releaseWorktree st w) k = releaseWorktree (forget_ack st k) w.
Proof. unfold releaseWorktree. simpl. by destruct (JsMap.get w (Plane.worktrees st)). Qed.

Lemma forget_free_slot st k slot : forget_ack (free_slot st slot) k = free_slot (forget_ack st k) slot.
Proof. unfold free_slot, removeReleasedRetiredWorkspaceSlot. simpl. by repeat case_match. Qed.

(** The three bodies. *)
Lemma omitted_worktree_step hostId run reason st s :
  own_inv st -> tracks st s ->
  pass_step run st s (requeue_omitted_worktree hostId run reason st s).2
    (requeue_omitted_worktree hostId run reason st s).1.2.
Proof.
  intros H T. unfold requeue_omitted_worktree.
  destruct (negb _) eqn:Hr; [by apply pass_skip|]. apply negb_false_iff, bool_decide_eq_true in Hr.
  destruct (truthy_nul (Session.worktreeId s)) as [w|]; [|by apply pass_skip].
  destruct (set_has (Session.id s) run) eqn:Hrun; [by apply pass_skip|].
  destruct (JsMap.get w (Plane.worktrees st)) as [wt|] eqn:Gw; [|by apply pass_skip].
  destruct (_ || _) eqn:Hc; [by apply pass_skip|].
  apply orb_false_iff in Hc as [Hc _]. apply orb_false_iff in Hc as [_ Hc].
  apply negb_false_iff, bool_decide_eq_true in Hc.
  pose proof (calm_account st s) as C1. pose proof (release_account_loss st s) as L.
  destruct (releaseProviderAccountLease st s) as [st1 s1]. cbn [fst snd] in C1, L.
  assert (Session.id s1 = Session.id s) as Hid by (apply core_id, L).
  pose proof (calm_loss_handoff st1 s1) as C2.
  destruct (loss_handoff st1 s1) as [[handoff|] st2]; cbn [fst snd] in *;
    [|apply pass_threw; [done|done|by eapply calm_trans|done|done|done]].
  pose proof (lost_session_record st2 s1 reason handoff) as Hn.
  pose proof (calm_lost_session st2 s1 reason handoff) as C3.
  destruct (lost_session st2 s1 reason handoff) as [next st3]. cbn [fst snd] in *.
  apply (lost_record_loss s) in Hn; [|done]. rewrite Hid.
  assert (calm st st3) as C by (eapply calm_trans; [exact C1|]; by eapply calm_trans).
  pose proof (pass_lost run st st3 s s1 next H T C L Hr Hrun Hn) as P.
  destruct (is_some handoff); [exact P|]. rewrite forget_release.
  assert (Worktree.id wt = w) as -> by (by apply (oe_wids _ _ H)).
  eapply (pass_release _ _ _ _ _ _ wt); [exact P| | |exact Hc|done].
  - intros m. simpl. rewrite JsMap.get_set_eq. intros [= <-]. apply (lr_detached _ _ Hn).
  - simpl. by destruct C as [[_ ->] _].
Qed.

Lemma calm_lost_checkout st s handoff : calm st (release_lost_checkout st s handoff).2.
Proof. unfold release_lost_checkout. case_match; [apply calm_refl|apply calm_checkout]. Qed.

Lemma omitted_scheduled_step run reason st s :
  own_inv st -> tracks st s ->
  pass_step run st s (requeue_omitted_scheduled run reason st s).2
    (requeue_omitted_scheduled run reason st s).1.2.
Proof.
  intros H T. unfold requeue_omitted_scheduled.
  destruct (_ || _) eqn:Hc; [by apply pass_skip|].
  apply orb_false_iff in Hc as [Hc _]. apply orb_false_iff in Hc as [Hc Hrun].
  apply orb_false_iff in Hc as [_ Hr]. apply negb_false_iff, bool_decide_eq_true in Hr.
  pose proof (calm_loss_handoff st s) as C1.
  destruct (loss_handoff st s) as [[handoff|] st1]; cbn [fst snd] in *; [|by apply pass_calm].
  pose proof (calm_lost_checkout st1 s handoff) as C2.
  assert (calm st (release_lost_checkout st1 s handoff).2) as C12 by (by eapply calm_trans).
  destruct (release_lost_checkout st1 s handoff) as [[] st2]; cbn [fst snd] in *; [|by apply pass_calm].
  pose proof (calm_account st2 s) as C3. pose proof (release_account_loss st2 s) as L.
  destruct (releaseProviderAccountLease st2 s) as [st3 s1]. cbn [fst snd] in C3, L.
  pose proof (lost_session_record st3 s1 reason handoff) as Hn.
  pose proof (calm_lost_session st3 s1 reason handoff) as C4.
  destruct (lost_session st3 s1 reason handoff) as [next st4]. cbn [fst snd] in *.
  apply (lost_record_loss s) in Hn; [|done].
  assert (Session.id s1 = Session.id s) as -> by (apply core_id, L).
  apply pass_lost; try done. eapply calm_trans; [exact C12|]. by eapply calm_trans.
Qed.

Lemma omitted_workspace_step hostId run reason st s :
  own_inv st -> tracks st s ->
  pass_step run st s (requeue_omitted_workspace hostId run reason st s).2
    (requeue_omitted_workspace hostId run reason st s).1.2.
Proof.
  intros H T. unfold requeue_omitted_workspace.
  destruct (_ || _) eqn:Hc; [by apply pass_skip|].
  apply orb_false_iff in Hc as [Hr Hrun]. apply negb_false_iff, bool_decide_eq_true in Hr.
  destruct (truthy_nul (Session.workspaceSlotId s)) as [slotId|]; [|by apply pass_skip].
  destruct (JsMap.get slotId (Plane.workspaceSlots st)) as [slot|]; [|by apply pass_skip].
  destruct (_ || _); [by apply pass_skip|].
  pose proof (calm_account st s) as C1. pose proof (release_account_loss st s) as L.
  destruct (releaseProviderAccountLease st s) as [st1 s1]. cbn [fst snd] in C1, L.
  destruct (lost_workspace_record st1 s1 reason) as [C2 Hn].
  destruct (lost_workspace_session st1 s1 reason) as [[next|] st2]; cbn [fst snd] in *;
    [|apply pass_threw; [done|done|by eapply calm_trans|done|done|done]].
  specialize (Hn next eq_refl). apply (lost_record_loss s) in Hn; [|done].
  assert (Session.id s1 = Session.id s) as -> by (apply core_id, L).
  rewrite forget_free_slot. eapply pass_after; [|apply calm_free_slot].
  apply pass_lost; try done. by eapply calm_trans.
Qed.

(** ** A pass over the snapshot *)
Record snapshot_ok (run : list string) st (l : list SessionRecord) st' (l' : list SessionRecord) : Prop := {
  po_advances : advances st st';
  po_spares : spares run st st';
  po_ids : map Session.id l' = map Session.id l;
  po_tracks : Forall (tracks st') l';
  po_only : forall j, ~ In j (map Session.id l) ->
    JsMap.get j (Plane.sessions st') = JsMap.get j (Plane.sessions st);
}.

Lemma snapshot_pass_ok run body l :
  (forall st s, own_inv st -> tracks st s -> pass_step run st s (body st s).2 (body st s).1.2) ->
  List.NoDup (map Session.id l) -> forall st, own_inv st -> Forall (tracks st) l ->
  snapshot_ok run st l (snapshot_pass body l st).2 (snapshot_pass body l st).1.2.
Proof.
  intros Hbody. induction l as [|s l IH]; intros Hnd st H HT; cbn [snapshot_pass].
  { split; [by apply advances_refl|apply spares_refl|done|done|done]. }
  inversion Hnd as [|? ? Hs Hnd']; subst. inversion HT as [|? ? Ts Tl]; subst.
  specialize (Hbody st s H Ts). destruct (body st s) as [[out s1] st1] eqn:Eb. cbn [fst snd] in Hbody.
  destruct Hbody as [A O S L T1].
  assert (Session.id s1 = Session.id s) as Hid by (apply core_id, L).
  assert (Forall (tracks st1) l) as Tl1.
  { apply Forall_forall. intros x Hx. rewrite Forall_forall in Tl.
    apply (tracks_other st); [|by apply Tl]. apply O. intros E. apply Hs. rewrite <- E.
    apply list_elem_of_In in Hx. by apply in_map. }
  destruct out as [out|]; cbn [fst snd].
  - specialize (IH Hnd' st1 (proj1 A) Tl1).
    destruct (snapshot_pass body l st1) as [[more l2] st2]. cbn [fst snd] in *. destruct IH as [A2 S2 I2 T2 O2].
    split; [by eapply advances_trans|by eapply spares_trans|simpl; congruence| |].
    + constructor; [|done]. apply (tracks_other st1); [|done]. apply O2. by rewrite Hid.
    + intros j Hj. simpl in Hj. rewrite O2 by tauto. apply O. intros ->. by apply Hj; left.
  - split; [done|done|simpl; congruence|by constructor|].
    intros j Hj. simpl in Hj. apply O. intros ->. by apply Hj; left.
Qed.

Lemma values_tracks st : own_inv st -> sessions_ok st -> Forall (tracks st) (JsMap.values (Plane.sessions st)).
Proof.
  intros H Hok. apply Forall_forall. intros s Hin. apply list_elem_of_In in Hin.
  apply (JsMap.In_values_get _ _ (oe_wf _ _ H)) in Hin as [k G].
  split; [apply (Hok k s G)|]. exists s. rewrite (oe_ids _ _ H k s G). split; [done|]. by left.
Qed.

(** Reconciling the sessions a host owns advances the plane and touches no reported session. *)
Lemma adv_reconcile_owned st hostId run reason :
  own_inv st -> sessions_ok st ->
  advances st (reconcileHostOwnedSessions st hostId run reason).2 /\
  spares run st (reconcileHostOwnedSessions st hostId run reason).2.
Proof.
  intros H Hok. unfold reconcileHostOwnedSessions.
  set (active := List.filter _ _).
  assert (List.NoDup (map Session.id active)) as Hnd.
  { apply NoDup_map_filter. rewrite (entries_ids st H). apply NoDup_ListNoDup, (oe_wf _ _ H). }
  assert (Forall (tracks st) active) as HT.
  { apply Forall_forall. intros s Hin. apply list_elem_of_In, filter_In in Hin as [Hin _].
    pose proof (values_tracks st H Hok) as Hv. rewrite Forall_forall in Hv. apply Hv. by apply list_elem_of_In. }
  destruct (snapshot_pass_ok run _ active (omitted_worktree_step hostId run reason) Hnd st H HT)
    as [A1 S1 I1 T1 _].
  destruct (snapshot_pass (requeue_omitted_worktree hostId run reason) active st) as [[[out1|] l1] st1];
    cbn [fst snd] in *; [|done].
  rewrite <- I1 in Hnd.
  destruct (snapshot_pass_ok run _ l1 (omitted_scheduled_step run reason) Hnd st1 (proj1 A1) T1)
    as [A2 S2 I2 T2 _].
  destruct (snapshot_pass (requeue_omitted_scheduled run reason) l1 st1) as [[[out2|] l2] st2];
    cbn [fst snd] in *; [|split; [by eapply advances_trans|by eapply spares_trans]].
  rewrite <- I2 in Hnd.
  destruct (snapshot_pass_ok run _ l2 (omitted_workspace_step hostId run reason) Hnd st2 (proj1 A2) T2)
    as [A3 S3 I3 T3 _].
  assert (advances st (snapshot_pass (requeue_omitted_workspace hostId run reason) l2 st2).2) as A
    by (eapply advances_trans; [exact A1|]; by eapply advances_trans).
  assert (spares run st (snapshot_pass (requeue_omitted_workspace hostId run reason) l2 st2).2) as S
    by (eapply spares_trans; [exact S1|]; by eapply spares_trans).
  by destruct (snapshot_pass (requeue_omitted_workspace hostId run reason) l2 st2) as [[[out3|] l3] st3].
Qed.

(** ** Confirming and rolling back a report *)
Definition same_owner (v v' : WorktreeRecord) : Prop :=
  Worktree.id v' = Worktree.id v /\ Worktree.status v' = Worktree.status v /\
  Worktree.currentSessionId v' = Worktree.currentSessionId v.

(** Two records with the same core. *)
Definition core_same s s' : Prop := core_eq s s' /\ core_eq s' s.

Lemma core_same_refl s : core_same s s.
Proof. done. Qed.

Lemma core_same_sym s s' : core_same s s' -> core_same s' s.
Proof. intros [H1 H2]. by split. Qed.

Lemma core_same_trans s1 s2 s3 : core_same s1 s2 -> core_same s2 s3 -> core_same s1 s3.
Proof. intros [A1 B1] [A2 B2]. split; by eapply core_eq_trans. Qed.

(** Sessions keep their core and worktrees their owner. *)
Record gentle st st' : Prop := {
  ge_sessions : forall k m, JsMap.get k (Plane.sessions st) = Some m ->
    exists m', JsMap.get k (Plane.sessions st') = Some m' /\ core_same m m';
  ge_worktrees : forall k v, JsMap.get k (Plane.worktrees st) = Some v ->
    exists v', JsMap.get k (Plane.worktrees st') = Some v' /\ same_owner v v';
}.

Lemma gentle_refl st : gentle st st.
Proof. split; [intros k m G; by exists m|intros k v G; by exists v]. Qed.

Lemma gentle_calm st st' : calm st st' -> gentle st st'.
Proof.
  intros [[E1 E2] _].
  split; [intros k m G; exists m; by rewrite E1|intros k v G; exists v; by rewrite E2].
Qed.

Lemma gentle_trans st1 st2 st3 : gentle st1 st2 -> gentle st2 st3 -> gentle st1 st3.
Proof.
  intros [S1 W1] [S2 W2]. split.
  - intros k m G. destruct (S1 k m G) as (m2 & G2 & C2). destruct (S2 k m2 G2) as (m3 & G3 & C3).
    exists m3. split; [done|by eapply core_same_trans].
  - intros k v G. destruct (W1 k v G) as (v2 & G2 & C2). destruct (W2 k v2 G2) as (v3 & G3 & C3).
    exists v3. split; [done|]. unfold same_owner in *. intuition congruence.
Qed.

Lemma gentle_update st k m s : JsMap.get k (Plane.sessions st) = Some m -> core_same m s ->
  gentle st (update_session st k s).
Proof.
  intros G C. split; [|intros j v Gv; by exists v].
  intros j x Gx. simpl. rewrite JsMap.get_set. case_decide; [|by exists x].
  subst j. exists s. split; [done|]. by assert (x = m) as -> by congruence.
Qed.

Lemma gentle_worktree st k v w : JsMap.get k (Plane.worktrees st) = Some v -> same_owner v w ->
  gentle st (set_worktree st k w).
Proof.
  intros G C. split; [intros j m Gm; by exists m|].
  intros j x Gx. simpl. rewrite JsMap.get_set. case_decide; [|by exists x].
  subst j. exists w. split; [done|]. by assert (x = v) as -> by congruence.
Qed.

(** A step that keeps cores and owners. *)
Definition confirms st st' : Prop := advances st st' /\ gentle st st'.

Lemma confirms_trans st1 st2 st3 : confirms st1 st2 -> confirms st2 st3 -> confirms st1 st3.
Proof. intros [A1 G1] [A2 G2]. split; [by eapply advances_trans|by eapply gentle_trans]. Qed.

Lemma confirms_calm st st' : own_inv st -> calm st st' -> confirms st st'.
Proof. intros H C. split; [by apply calm_advances|by apply gentle_calm]. Qed.

Lemma confirms_session st st1 k m s :
  own_inv st -> calm st st1 -> JsMap.get k (Plane.sessions st) = Some m -> core_same m s ->
  confirms st (update_session st1 k s).
Proof.
  intros H C G Cs. split; [apply (adv_update_core st st1 k m); [done|done|done|apply Cs]|].
  eapply gentle_trans; [by apply gentle_calm|]. apply (gentle_update _ _ m); [|done]. by destruct C as [[-> _] _].
Qed.

Lemma confirms_worktree st k v w :
  own_inv st -> JsMap.get k (Plane.worktrees st) = Some v -> same_owner v w ->
  confirms st (set_worktree st k w).
Proof.
  intros H G C. split; [|by apply (gentle_worktree _ _ v)]. destruct C as (Ei & Es & Ec).
  split; [by apply (own_set_worktree None st k v w)|apply se_quiet, quiet_set_worktree].
Qed.

(** What a confirmation lets its rollback rely on. *)
Definition session_known st s : Prop :=
  exists m, JsMap.get (Session.id s) (Plane.sessions st) = Some m /\ core_same m s.

Definition worktree_known st s w : Prop :=
  Worktree.currentSessionId w = Val (Session.id s) /\
  exists v, JsMap.get (Worktree.id w) (Plane.worktrees st) = Some v /\ same_owner v w.

Definition confirmed_session (item : ReconnectConfirmation) : SessionRecord :=
  match item with confirmed_worktree s _ | confirmed_slot s _ => s end.

Definition confirmed_known st (item : ReconnectConfirmation) : Prop :=
  session_known st (confirmed_session item) /\
  match item with confirmed_worktree s w => worktree_known st s w | confirmed_slot _ _ => True end.

Lemma session_known_gentle st st' s : gentle st st' -> session_known st s -> session_known st' s.
Proof.
  intros [S _] (m & G & C). destruct (S _ m G) as (m' & G' & C'). exists m'. split; [done|].
  eapply core_same_trans; [by apply core_same_sym|done].
Qed.

Lemma confirmed_known_gentle st st' item : gentle st st' -> confirmed_known st item -> confirmed_known st' item.
Proof.
  intros Hg [Hs Hw]. split; [by eapply session_known_gentle|].
  destruct item as [s w|s slot]; [|done]. destruct Hw as [Hc (v & Gv & Cv)]. split; [done|].
  destruct Hg as [_ W]. destruct (W _ v Gv) as (v' & Gv' & Cv'). exists v'. split; [done|].
  unfold same_owner in *. intuition congruence.
Qed.

Lemma confirmed_known_spares run st st' item :
  spares run st st' -> In (Session.id (confirmed_session item)) run -> confirmed_known st item ->
  confirmed_known st' item.
Proof.
  intros S Hin [(m & G & C) Hw]. destruct (S _ Hin) as [E W]. split; [exists m; by rewrite E|].
  destruct item as [s w|s slot]; [|done]. destruct Hw as [Hc (v & Gv & Cv)]. split; [done|].
  exists v. split; [|done]. apply W; [done|]. destruct Cv as (_ & _ & <-). exact Hc.
Qed.

Lemma session_known_spares run st st' s :
  spares run st st' -> In (Session.id s) run -> session_known st s -> session_known st' s.
Proof. intros S Hin (m & G & C). destruct (S _ Hin) as [E _]. exists m. by rewrite E. Qed.

Lemma restore_confirmed_ok st item : own_inv st -> confirmed_known st item -> confirms st (restore_confirmed st item).
Proof.
  intros H [(m & G & C) Hw]. destruct item as [s w|s slot]; simpl in G, C; cbn [restore_confirmed].
  - destruct Hw as [_ (v & Gv & Cv)].
    assert (confirms st (update_session st (Session.id s) s)) as K1
      by (by apply (confirms_session st st (Session.id s) m); [|apply calm_refl| |]).
    eapply confirms_trans; [exact K1|]. by apply (confirms_worktree _ _ v); [apply K1| |].
  - assert (confirms st (update_session st (Session.id s) s)) as K1
      by (by apply (confirms_session st st (Session.id s) m); [|apply calm_refl| |]).
    eapply confirms_trans; [exact K1|]. apply confirms_calm; [apply K1|apply calm_set_slot].
Qed.

Lemma restore_scheduled_ok st hostId c prior :
  own_inv st -> session_known st prior -> confirms st (restore_scheduled st hostId c prior).2.
Proof.
  intros H (m & G & C). unfold restore_scheduled.
  destruct (truthy_opt c); [|by apply confirms_calm, calm_refl].
  destruct (truthy_opt (Session.assignmentConnectionId prior)) as [old|]; [|by apply confirms_calm, calm_refl].
  destruct (opt_else _ _) as [deadline|]; [|by apply confirms_calm, calm_refl]. cbn [snd].
  set (s1 := prior <| Session.reconnectDeadlineAt := Some deadline |>).
  assert (confirms st (update_session st (Session.id prior) s1)) as K1.
  { apply (confirms_session st st (Session.id prior) m); [done|apply calm_refl|done|]. done. }
  eapply confirms_trans; [exact K1|]. apply confirms_calm; [apply K1|apply calm_set_checkout].
Qed.

(** Both rollbacks keep cores and owners. *)
Lemma roll_back_ok st hostId c confirmed scheduled :
  own_inv st -> Forall (confirmed_known st) confirmed -> Forall (session_known st) scheduled ->
  confirms st (roll_back st hostId c confirmed scheduled).2.
Proof.
  intros H Hc Hs. unfold roll_back, restoreConfirmedSessions, restoreScheduledReconnects.
  assert (Forall (confirmed_known st) (rev confirmed)) as Hc'.
  { apply Forall_forall. intros x Hx. rewrite Forall_forall in Hc. apply Hc.
    apply list_elem_of_In. apply list_elem_of_In, in_rev in Hx. done. }
  assert (Forall (session_known st) (rev scheduled)) as Hs'.
  { apply Forall_forall. intros x Hx. rewrite Forall_forall in Hs. apply Hs.
    apply list_elem_of_In. apply list_elem_of_In, in_rev in Hx. done. }
  revert Hc' Hs'. generalize (rev confirmed) (rev scheduled). clear Hc Hs confirmed scheduled.
  intros items priors. revert st H. induction items as [|item items IH]; intros st H Hc Hs; simpl.
  - clear Hc. revert st H Hs. induction priors as [|s priors IH]; intros st H Hs; cbn [restore_scheduled_all].
    + by apply confirms_calm, calm_refl.
    + inversion Hs as [|? ? Ks Kl]; subst. pose proof (restore_scheduled_ok st hostId c s H Ks) as K.
      destruct (restore_scheduled st hostId c s) as [[u|] st1]; cbn [snd] in *; [|done].
      eapply confirms_trans; [exact K|]. apply IH; [apply K|].
      apply Forall_forall. intros x Hx. rewrite Forall_forall in Kl.
      eapply session_known_gentle; [apply K|by apply Kl].
  - inversion Hc as [|? ? Ki Kl]; subst. pose proof (restore_confirmed_ok st item H Ki) as K.
    eapply confirms_trans; [exact K|]. apply IH; [apply K| |].
    + apply Forall_forall. intros x Hx. rewrite Forall_forall in Kl.
      eapply confirmed_known_gentle; [apply K|by apply Kl].
    + apply Forall_forall. intros x Hx. rewrite Forall_forall in Hs.
      eapply session_known_gentle; [apply K|by apply Hs].
Qed.

(** The claims confirmed so far, with [rest] still to be looked at. *)
Record claims_ok st (rest : list string) (c : Claims) : Prop := {
  cl_rest : forall x, In x rest -> In x (stillRunning c);
  cl_confirmed : Forall (fun item => confirmed_known st item /\
    In (Session.id (confirmed_session item)) (stillRunning c) /\
    ~ In (Session.id (confirmed_session item)) rest) (confirmedClaims c);
  cl_scheduled : Forall (fun s => session_known st s /\ In (Session.id s) (stillRunning c) /\
    ~ In (Session.id s) rest) (scheduledClaims c);
}.

Lemma claims_ok_skip st x rest c : List.NoDup (x :: rest) -> claims_ok st (x :: rest) c ->
  claims_ok st rest (mkClaims (set_delete x (stillRunning c)) (confirmedClaims c) (scheduledClaims c)).
Proof.
  intros Hnd [H1 H2 H3]. inversion Hnd as [|? ? Hx Hnd']; subst.
  assert (forall y, In y (stillRunning c) -> ~ In y (x :: rest) -> In y (set_delete x (stillRunning c)) /\ ~ In y rest)
    as Hkeep.
  { simpl. intros y Hin Hout. split; [|tauto]. apply set_delete_In. split; [|done]. intros ->. tauto. }
  split; cbn [stillRunning confirmedClaims scheduledClaims].
  - intros y Hy. apply set_delete_In. split; [by intros ->|apply H1; by right].
  - eapply Forall_impl; [exact H2|]. intros item (K & Hin & Hout). split; [done|by apply Hkeep].
  - eapply Forall_impl; [exact H3|]. intros s (K & Hin & Hout). split; [done|by apply Hkeep].
Qed.

Lemma claims_ok_gentle st st' rest c : gentle st st' -> claims_ok st rest c -> claims_ok st' rest c.
Proof.
  intros Hg [H1 H2 H3]. split; [done| |].
  - eapply Forall_impl; [exact H2|]. intros item (K & ?). split; [by eapply confirmed_known_gentle|done].
  - eapply Forall_impl; [exact H3|]. intros s (K & ?). split; [by eapply session_known_gentle|done].
Qed.

Lemma claims_ok_weaken st x rest c : claims_ok st (x :: rest) c -> claims_ok st rest c.
Proof.
  intros [H1 H2 H3]. split; [intros y Hy; apply H1; by right| |].
  - eapply Forall_impl; [exact H2|]. simpl. intros item (K & ? & Hout). split; [done|]. tauto.
  - eapply Forall_impl; [exact H3|]. simpl. intros s (K & ? & Hout). split; [done|]. tauto.
Qed.

(** A confirmation is remembered. *)
Lemma claims_ok_add st st' x rest c item :
  ~ In x rest -> claims_ok st (x :: rest) c -> gentle st st' -> confirmed_known st' item ->
  Session.id (confirmed_session item) = x ->
  claims_ok st' rest (mkClaims (stillRunning c) (confirmedClaims c ++ [item])%list (scheduledClaims c)).
Proof.
  intros Hx Hc Hg K Hid. assert (In x (stillRunning c)) as Hin by (apply (cl_rest _ _ _ Hc); by left).
  destruct (claims_ok_weaken _ _ _ _ (claims_ok_gentle _ _ _ _ Hg Hc)) as [E1 E2 E3].
  split; cbn [stillRunning confirmedClaims scheduledClaims]; [done| |done].
  apply Forall_app. split; [done|]. constructor; [|done]. by rewrite Hid.
Qed.

Lemma claims_ok_add_scheduled st st' x rest c s :
  ~ In x rest -> claims_ok st (x :: rest) c -> gentle st st' -> session_known st' s -> Session.id s = x ->
  claims_ok st' rest (mkClaims (stillRunning c) (confirmedClaims c) (scheduledClaims c ++ [s])%list).
Proof.
  intros Hx Hc Hg K Hid. assert (In x (stillRunning c)) as Hin by (apply (cl_rest _ _ _ Hc); by left).
  destruct (claims_ok_weaken _ _ _ _ (claims_ok_gentle _ _ _ _ Hg Hc)) as [E1 E2 E3].
  split; cbn [stillRunning confirmedClaims scheduledClaims]; [done|done|].
  apply Forall_app. split; [done|]. constructor; [|done]. by rewrite Hid.
Qed.

(** The session object that was confirmed is known in the state it is confirmed in. *)
Lemma known_updated st k m s s' :
  JsMap.get k (Plane.sessions st) = Some m -> m = s' -> Session.id s = k -> core_same s s' -> session_known st s.
Proof. intros G -> Hid C. exists s'. rewrite Hid. split; [done|]. by apply core_same_sym. Qed.

Lemma confirms_scheduled st s x hostId conn :
  own_inv st -> JsMap.get x (Plane.sessions st) = Some s ->
  confirms st (confirmScheduledReconnect st s hostId conn).2.
Proof.
  intros H G. assert (confirms st st) as K0 by (by apply confirms_calm, calm_refl).
  assert (Session.id s = x) as Hid by (by apply (oe_ids _ _ H)). unfold confirmScheduledReconnect.
  destruct (truthy_opt (Session.assignmentConnectionId s)); [|done].
  destruct (truthy_opt conn); [|done]. destruct (_ || _); [done|]. cbn [snd].
  rewrite Hid. apply (confirms_session st _ x s); [done| |done|done]. repeat case_match; auto with sess.
Qed.

Lemma confirms_reported st s x w conn :
  own_inv st -> JsMap.get x (Plane.sessions st) = Some s ->
  JsMap.get (Worktree.id w) (Plane.worktrees st) = Some w ->
  Worktree.currentSessionId w = Val (Session.id s) ->
  confirms st (confirmReportedSession st s w conn) /\
  confirmed_known (confirmReportedSession st s w conn) (confirmed_worktree s w).
Proof.
  intros H G Gw Hcur. assert (Session.id s = x) as Hid by (by apply (oe_ids _ _ H)).
  assert (same_owner w (online_worktree w conn)) as So by (unfold online_worktree; by case_match).
  assert (confirms st (update_session st (Session.id s) (forget_deadline s))) as K1
    by (rewrite Hid; by apply (confirms_session st st x s); [|apply calm_refl| |]).
  unfold confirmReportedSession. split.
  - eapply confirms_trans; [exact K1|]. by apply (confirms_worktree _ _ w); [apply K1| |].
  - split; [|split; [done|]].
    + apply (known_updated _ x (forget_deadline s) s (forget_deadline s)); [|done|done|done].
      simpl. rewrite Hid. apply JsMap.get_set_eq.
    + exists (online_worktree w conn). simpl. rewrite JsMap.get_set_eq.
      split; [done|]. unfold same_owner in *. intuition congruence.
Qed.

Lemma confirms_slot st s x slot conn :
  own_inv st -> JsMap.get x (Plane.sessions st) = Some s ->
  confirms st (confirmReportedWorkspaceSession st s slot conn) /\
  confirmed_known (confirmReportedWorkspaceSession st s slot conn) (confirmed_slot s slot).
Proof.
  intros H G. assert (Session.id s = x) as Hid by (by apply (oe_ids _ _ H)).
  assert (confirms st (update_session st (Session.id s) (forget_deadline s))) as K1
    by (rewrite Hid; by apply (confirms_session st st x s); [|apply calm_refl| |]).
  unfold confirmReportedWorkspaceSession. split.
  - eapply confirms_trans; [exact K1|]. apply confirms_calm; [apply K1|apply calm_set_slot].
  - split; [|done].
    apply (known_updated _ x (forget_deadline s) s (forget_deadline s)); [|done|done|done].
    simpl. rewrite Hid. apply JsMap.get_set_eq.
Qed.

(** One claim: the state moves gently and the confirmation is remembered. *)
Lemma confirm_claim_ok hostId conn attempts st c x rest :
  own_inv st -> List.NoDup (x :: rest) -> claims_ok st (x :: rest) c ->
  confirms st (confirm_claim hostId conn attempts st c x).2 /\
  match (confirm_claim hostId conn attempts st c x).1 with
  | Some c' => claims_ok (confirm_claim hostId conn attempts st c x).2 rest c'
  | None => claims_ok (confirm_claim hostId conn attempts st c x).2 (x :: rest) c
  end.
Proof.
  intros H Hnd Hc. unfold confirm_claim. assert (~ In x rest) as Hx by (by inversion Hnd).
  assert (confirms st st) as K0 by (by apply confirms_calm, calm_refl).
  destruct (ignoreStaleReconnectClaim _ _ _); [split; [done|by apply claims_ok_skip]|].
  destruct (JsMap.get x (Plane.sessions st)) as [s|] eqn:G; [|by split].
  assert (Session.id s = x) as Hid by (by apply (oe_ids _ _ H)).
  destruct (is_true_opt (Session.mainCheckoutLease s)).
  { pose proof (confirms_scheduled st s x hostId conn H G) as K1.
    destruct (confirmScheduledReconnect st s hostId conn) as [[] st1]; cbn [fst snd] in *;
      [|split; [done|by eapply claims_ok_gentle; [apply K1|]]].
    destruct (ge_sessions _ _ (proj2 K1) x s G) as (m1 & Gm & Cm).
    set (s1 := (forget_deadline s) <| Session.assignmentConnectionId := conn |>). rewrite Hid.
    assert (confirms st (update_session st1 x s1)) as K.
    { eapply confirms_trans; [exact K1|]. apply (confirms_session st1 st1 x m1); [apply K1|apply calm_refl|done|].
      eapply core_same_trans; [by apply core_same_sym|]. done. }
    split; [done|]. apply (claims_ok_add_scheduled st _ x); [done|done|apply K| |done].
    apply (known_updated _ x s1 s s1); [apply JsMap.get_set_eq|done|done|done]. }
  destruct (truthy_nul (Session.workspaceSlotId s)) as [slotId|].
  { destruct (JsMap.get slotId (Plane.workspaceSlots st)) as [slot|]; [|by split].
    destruct (_ && _); [|by split]. cbn [fst snd].
    destruct (confirms_slot st s x slot conn H G) as [K Kn].
    split; [done|]. by apply (claims_ok_add st _ x); [| |apply K| |]. }
  destruct (truthy_nul (Session.worktreeId s)) as [w0|]; cbn [mbind option_bind]; [|by split].
  destruct (JsMap.get w0 (Plane.worktrees st)) as [w|] eqn:Gw; [|by split].
  destruct (_ && _) eqn:Hchk; [|by split]. cbn [fst snd].
  apply andb_true_iff in Hchk as [_ Hcur]. apply bool_decide_eq_true in Hcur.
  assert (Worktree.id w = w0) as Hidw by (by apply (oe_wids _ _ H)).
  destruct (confirms_reported st s x w conn H G) as [K Kn]; [by rewrite Hidw|done|].
  split; [done|]. by apply (claims_ok_add st _ x); [| |apply K| |].
Qed.

Lemma confirm_claims_ok hostId conn attempts reported : List.NoDup reported -> forall st c,
  own_inv st -> claims_ok st reported c ->
  confirms st (confirm_claims hostId conn attempts st c reported).2 /\
  claims_ok (confirm_claims hostId conn attempts st c reported).2 []
    (confirm_claims hostId conn attempts st c reported).1.2.
Proof.
  intros Hnd. induction reported as [|x rest IH]; intros st c H Hc; cbn [confirm_claims].
  { split; [by apply confirms_calm, calm_refl|done]. }
  destruct (confirm_claim_ok hostId conn attempts st c x rest H Hnd Hc) as [K Hc'].
  destruct (confirm_claim hostId conn attempts st c x) as [[c1|] st1]; cbn [fst snd] in *.
  - inversion Hnd; subst. destruct (IH ltac:(done) st1 c1) as [K2 Hc2]; [apply K|done|].
    split; [by eapply confirms_trans|done].
  - split; [done|]. revert Hc'. clear. generalize (x :: rest). intros l. induction l as [|y l IH]; [done|].
    intros Hc'. apply IH. by eapply claims_ok_weaken.
Qed.

(** The claims that are confirmed survive the passes over the others. *)
Lemma claims_known_spares st st' c :
  spares (stillRunning c) st st' -> claims_ok st [] c ->
  Forall (confirmed_known st') (confirmedClaims c) /\ Forall (session_known st') (scheduledClaims c).
Proof.
  intros S [_ H2 H3]. split.
  - eapply Forall_impl; [exact H2|]. intros item (K & Hin & _). by eapply confirmed_known_spares.
  - eapply Forall_impl; [exact H3|]. intros s (K & Hin & _). by eapply session_known_spares.
Qed.

(** Reconciling a registration advances the plane, whether it is confirmed, rejected or throws. *)
Lemma adv_reconcile_running st hostId reported attempts :
  own_inv st -> sessions_ok st -> List.NoDup reported ->
  advances st (reconcileHostRunningSessions st hostId reported attempts).2.
Proof.
  intros H Hok Hnd. unfold reconcileHostRunningSessions. set (conn := JsMap.get hostId _).
  set (c0 := mkClaims (dedup [] reported) [] []).
  assert (claims_ok st reported c0) as Hc0.
  { split; [|constructor|constructor]. intros x Hx. cbn [c0 stillRunning].
    apply dedup_In. by right. }
  destruct (confirm_claims_ok hostId conn attempts reported Hnd st c0 H Hc0) as [K Hc].
  destruct (confirm_claims hostId conn attempts st c0 reported) as [[[] c] st1]; cbn [fst snd] in *.
  - destruct (adv_reconcile_owned st1 hostId (stillRunning c)
      "daemon did not report session after reconnect; requeued" (proj1 (proj1 K))) as [A2 S2];
      [by eapply sessions_ok_evolve; [apply K|]|].
    destruct (reconcileHostOwnedSessions st1 _ _ _) as [[out|] st2]; cbn [fst snd] in *;
      [eapply advances_trans; [apply K|done]|].
    destruct (claims_known_spares st1 st2 c S2 Hc) as [K1 K2].
    unfold reconcile_catch. cbn [snd].
    eapply advances_trans; [apply K|]. eapply advances_trans; [exact A2|].
    apply roll_back_ok; [apply A2|done|done].
  - destruct (claims_known_spares st1 st1 c (spares_refl _ _) Hc) as [K1 K2].
    pose proof (roll_back_ok st1 hostId conn (confirmedClaims c) (scheduledClaims c) (proj1 (proj1 K)) K1 K2) as R.
    destruct (roll_back st1 hostId conn (confirmedClaims c) (scheduledClaims c)) as [[u|] st2]; cbn [fst snd] in *;
      [eapply advances_trans; [apply K|apply R]|].
    unfold reconcile_catch. cbn [snd].
    assert (Forall (confirmed_known st2) (confirmedClaims c)) as K1'.
    { eapply Forall_impl; [exact K1|]. intros item. apply confirmed_known_gentle, R. }
    assert (Forall (session_known st2) (scheduledClaims c)) as K2'.
    { eapply Forall_impl; [exact K2|]. intros s. apply session_known_gentle, R. }
    eapply advances_trans; [apply K|]. eapply advances_trans; [apply R|].
    apply roll_back_ok; [apply R|done|done].
Qed.

(** ** Terminal hooks *)

(** No worktree appears. *)
Definition no_new_worktree st st' : Prop :=
  forall k, JsMap.get k (Plane.worktrees st) = None -> JsMap.get k (Plane.worktrees st') = None.

Lemma no_new_frame st st' : Plane.worktrees st' = Plane.worktrees st -> no_new_worktree st st'.
Proof. intros E k. by rewrite E. Qed.

Lemma no_new_trans st1 st2 st3 : no_new_worktree st1 st2 -> no_new_worktree st2 st3 -> no_new_worktree st1 st3.
Proof. intros H1 H2 k G. by apply H2, H1. Qed.

Lemma no_new_release skip st w : own_except skip st -> no_new_worktree st (releaseWorktree st w).
Proof.
  intros H k Gk. unfold releaseWorktree. destruct (JsMap.get w (Plane.worktrees st)) as [wt|] eqn:G; [|done].
  unfold persistWorktree. simpl.
  match goal with |- context [JsMap.set (Worktree.id ?x)] =>
    assert (Worktree.id x = w) as -> by (case_match; simpl; by apply (oe_wids _ _ H)) end.
  rewrite !JsMap.get_set. case_decide; [congruence|done].
Qed.

(** An operation on session [k]: the others are as before and no worktree appears. *)
Definition adv_only (k : string) st st' : Prop :=
  advances st st' /\ only_session k st st' /\ no_new_worktree st st'.

Lemma adv_only_calm k st st' : own_inv st -> calm st st' -> adv_only k st st'.
Proof.
  intros H C. split; [by apply calm_advances|]. split; [apply only_session_eq, C|apply no_new_frame, C].
Qed.

Lemma adv_only_after k st st1 st2 : adv_only k st st1 -> calm st1 st2 -> adv_only k st st2.
Proof.
  intros (A & O & N) C. split; [by eapply advances_after|].
  split; [eapply only_session_trans; [done|]; apply only_session_eq, C|].
  eapply no_new_trans; [done|]. apply no_new_frame, C.
Qed.

Lemma calm_reserved_checkout st k handoff : calm st (releaseReservedMainCheckout st k handoff).
Proof. unfold releaseReservedMainCheckout. repeat case_match; by apply calm_same. Qed.

(** Disposing of a handoff releases what it reserved; the session holds nothing by name. *)
Lemma adv_dispose st k s next handoff :
  own_inv st -> sessions_ok st -> JsMap.get k (Plane.sessions st) = Some s ->
  Session.terminalHookHandoff s = Some handoff -> lineage s next ->
  Session.status next = Session.status s -> Session.worktreeId next = Session.worktreeId s ->
  Session.terminalHookHandoff next = None ->
  adv_only k st (dispose_handoff st s next handoff).
Proof.
  intros H Hok G Hh I Es Ew Hn. assert (Session.id s = k) as Hid by (by apply (oe_ids _ _ H)).
  assert (detached s) as Hd by (apply (so_handoff _ _ (Hok k s G)); congruence).
  unfold dispose_handoff. rewrite (lineage_id _ _ I), Hid.
  set (st1 := releaseReservedWorktree st k _). set (st2 := releaseReservedMainCheckout st1 k handoff).
  assert (own_except (Some k) st1 /\ quiet st st1 /\ no_new_worktree st st1) as (O1 & Q1 & N1).
  { unfold st1, releaseReservedWorktree. destruct (truthy_opt _) as [w|];
      [|split; [by apply own_weaken|split; [apply quiet_refl|by apply no_new_frame]]].
    split; [by apply own_release_if_owner, own_weaken|]. split; [apply quiet_release_if_owner|].
    unfold release_if_owner. repeat case_match; [by apply (no_new_release None)|by apply no_new_frame|by apply no_new_frame]. }
  assert (calm st1 st2) as C2 by apply calm_reserved_checkout.
  assert (quiet st st2) as Q2 by (by eapply quiet_trans; [|apply C2]).
  eapply adv_only_after; [|apply calm_archive]. split.
  - split; [apply own_update_detached; [by eapply calm_own|by rewrite (lineage_id _ _ I)|by eapply detached_eq]|].
    apply (se_update _ _ _ s); [done|done|].
    apply over_evolves; [done|done|by apply detached_eq|apply Q2|by right; left].
  - split; [eapply only_session_trans; [apply only_session_eq, Q2|apply only_session_update]|].
    eapply no_new_trans; [exact N1|]. by apply no_new_frame, C2.
Qed.

Lemma clear_handoff_fields s handoff :
  lineage s (clear_handoff s handoff) /\ Session.status (clear_handoff s handoff) = Session.status s /\
  Session.worktreeId (clear_handoff s handoff) = Session.worktreeId s /\
  Session.terminalHookHandoff (clear_handoff s handoff) = None.
Proof. unfold clear_handoff. by destruct (is_true_opt _). Qed.

Lemma adv_settle st sessionId handoffId hostId conn r :
  own_inv st -> sessions_ok st -> advances st (settleTerminalHookHandoff st sessionId handoffId hostId conn r).2.
Proof.
  intros H Hok. unfold settleTerminalHookHandoff.
  destruct (JsMap.get sessionId (Plane.sessions st)) as [s|] eqn:G; [|by apply advances_refl].
  destruct (Session.terminalHookHandoff s) as [handoff|] eqn:Hh; [|by apply advances_refl].
  destruct (_ || _); [by apply advances_refl|]. destruct (_ || _); [by apply advances_refl|]. cbn [snd].
  match goal with |- context [clear_handoff ?x handoff] =>
    destruct (clear_handoff_fields x handoff) as (I & Es & Ew & Hn) end.
  by apply (adv_dispose st sessionId s).
Qed.

Lemma adv_expire st k s nowMs :
  own_inv st -> sessions_ok st -> JsMap.get k (Plane.sessions st) = Some s ->
  adv_only k st (expireTerminalHookHandoffIfNeeded st s nowMs).2.
Proof.
  intros H Hok G. unfold expireTerminalHookHandoffIfNeeded.
  destruct (Session.terminalHookHandoff s) as [handoff|] eqn:Hh; [|by apply adv_only_calm, calm_refl].
  destruct (match date_parse _ with Some t => _ | None => false end); [by apply adv_only_calm, calm_refl|].
  cbn [snd].
  match goal with |- context [clear_handoff ?x handoff] =>
    destruct (clear_handoff_fields x handoff) as (I & Es & Ew & Hn) end.
  by apply (adv_dispose st k s).
Qed.

Lemma adv_hook_complete st sessionId handoffId r src :
  own_inv st -> sessions_ok st -> advances st (handleTerminalHookComplete st sessionId handoffId r src).2.
Proof.
  intros H Hok. unfold handleTerminalHookComplete.
  destruct (s ← JsMap.get sessionId (Plane.sessions st); Session.terminalHookHandoff s) as [handoff|].
  - destruct (_ && _); [by apply advances_refl|].
    match goal with |- context [settleTerminalHookHandoff st ?a ?b ?c ?d ?e] =>
      pose proof (adv_settle st a b c d e H Hok) as A; destruct (settleTerminalHookHandoff st a b c d e) as [[] st1] end;
      cbn [snd] in *; [|done].
    eapply advances_after; [exact A|apply calm_emit].
  - destruct (s ← JsMap.get sessionId (Plane.sessions st); Session.terminalHookHandoffSettled s) as [t|];
      [|by apply advances_refl].
    destruct (_ || _); [by apply advances_refl|]. cbn [snd]. apply calm_advances; [done|apply calm_emit].
Qed.

(** ** Reconnect deadlines *)

(** A detached record replaces session [k] and its entry is dropped. *)
Lemma adv_only_lost st st1 k s next :
  own_inv st -> calm st st1 -> JsMap.get k (Plane.sessions st) = Some s -> Session.id next = k ->
  detached next -> evolves s (pending st k) next false ->
  adv_only k st (forget_ack (update_session st1 k next) k).
Proof.
  intros H C G Hid Hd Hev. split.
  - split; [own_peel; apply own_update_detached; [by eapply calm_own; [|apply own_weaken]|done|done]|].
    apply (se_update_forget _ _ _ s); [apply C|done|done].
  - split; [|by apply no_new_frame, C].
    eapply only_session_trans; [apply only_session_eq, C|]. exact (only_session_update st1 k next).
Qed.

Lemma adv_only_core st st1 k s next :
  own_inv st -> calm st st1 -> JsMap.get k (Plane.sessions st) = Some s -> core_eq s next ->
  adv_only k st (update_session st1 k next).
Proof.
  intros H C G Cs. split; [by apply (adv_update_core st st1 k s)|]. split; [|by apply no_new_frame, C].
  eapply only_session_trans; [apply only_session_eq, C|apply only_session_update].
Qed.

Lemma running_lost_evolves s s1 next p :
  holds_ok s -> same_loss s s1 -> Session.status s = running -> lost_record s1 next -> evolves s p next false.
Proof.
  intros Hl L Hr Hn. apply (lost_evolves s s next); [done|by left|done|by eapply lost_record_loss].
Qed.

Lemma adv_keep_mutation st st1 k s s1 :
  own_inv st -> calm st st1 -> JsMap.get k (Plane.sessions st) = Some s -> core_eq s s1 ->
  adv_only k st (keep_mutation st1 s1).
Proof.
  intros H C G Cs. unfold keep_mutation.
  assert (Session.id s1 = k) as -> by (rewrite (core_id _ _ Cs); by apply (oe_ids _ _ H)).
  destruct (JsMap.get k (Plane.sessions st1)); [|by apply adv_only_calm].
  case_bool_decide; [by apply (adv_only_core st st1 k s)|by apply adv_only_calm].
Qed.

Definition waits_for_host s : Prop :=
  Session.status s = running \/
  (Session.status s = cancelled /\
   (is_true_opt (Session.mainCheckoutLease s) = true \/ is_true_opt (Session.workspaceSlotLease s) = true)) \/
  (Session.status s = timed_out /\ is_true_opt (Session.workspaceSlotLease s) = true).

Lemma deadline_due_waits s nowMs : deadline_due s nowMs = true -> waits_for_host s.
Proof.
  unfold deadline_due, waits_for_host. rewrite !andb_true_iff, !orb_true_iff, !andb_true_iff, !bool_decide_eq_true.
  intros [[[[H|[H Hl]]|[H1 H2]] _] _]; [tauto| |tauto]. apply orb_true_iff in Hl. tauto.
Qed.

Lemma adv_reclaim_scheduled st k s :
  own_inv st -> sessions_ok st -> JsMap.get k (Plane.sessions st) = Some s -> waits_for_host s ->
  adv_only k st (reclaimScheduledReconnect st s).2.
Proof.
  intros H Hok G Hw. unfold reclaimScheduledReconnect.
  assert (Session.id s = k) as Hid by (by apply (oe_ids _ _ H)).
  pose proof (so_holds _ _ (Hok k s G)) as Hl.
  destruct (_ || _) eqn:Hc; [by apply adv_only_calm, calm_refl|].
  assert (is_true_opt (Session.mainCheckoutLease s) = true) as Hm by (by destruct (is_true_opt (Session.mainCheckoutLease s))).
  clear Hc. set (mint := if bool_decide (Session.status s = cancelled) then _ else _).
  assert (calm st mint.2) as C1 by (unfold mint; case_bool_decide; [apply calm_refl|apply calm_loss_handoff]).
  destruct mint as [[handoff|] st1]; cbn [snd] in C1; [|by apply adv_only_calm].
  pose proof (calm_lost_checkout st1 s handoff) as C2.
  destruct (release_lost_checkout st1 s handoff) as [[] st2]; cbn [snd] in C2;
    [|by apply adv_only_calm; [|eapply calm_trans]].
  pose proof (calm_account st2 s) as C3. pose proof (release_account_loss st2 s) as L.
  destruct (releaseProviderAccountLease st2 s) as [st3 s1]. cbn [fst snd] in C3, L.
  assert (Session.id s1 = k) as Hid1 by (rewrite (core_id _ _ (proj1 L)); done).
  assert (calm st st3) as C by (eapply calm_trans; [exact C1|]; by eapply calm_trans).
  case_bool_decide as Hcan; cbn [snd].
  - rewrite Hid1. destruct L as ((I & Es & Eh & Ew) & _).
    eapply (adv_only_after _ _ (update_session st3 k _)); [|apply calm_forget].
    apply (adv_only_core st st3 k s); [done|done|done|].
    split; [lin|]. split; [exact Es|]. split; [exact Eh|exact Ew].
  - assert (Session.status s = running) as Hr.
    { destruct Hw as [|[[? _]|[_ Hslot]]]; [done|done|]. destruct Hl as (Hl1 & Hl2 & _).
      specialize (Hl1 Hm). specialize (Hl2 Hslot). congruence. }
    pose proof (lost_session_record st3 s1 deadline_reason handoff) as Hn.
    pose proof (calm_lost_session st3 s1 deadline_reason handoff) as C4.
    destruct (lost_session st3 s1 deadline_reason handoff) as [next st4]. cbn [fst snd] in *. rewrite Hid1.
    apply (adv_only_lost st st4 k s); [done|by eapply calm_trans|done| |apply (lr_detached _ _ Hn)|by eapply running_lost_evolves].
    by rewrite (lineage_id _ _ (lr_lineage _ _ Hn)).
Qed.

Lemma adv_reclaim_workspace st k s slotId :
  own_inv st -> sessions_ok st -> JsMap.get k (Plane.sessions st) = Some s -> waits_for_host s ->
  adv_only k st (reclaim_workspace st s slotId).2.
Proof.
  intros H Hok G Hw. unfold reclaim_workspace.
  assert (Session.id s = k) as Hid by (by apply (oe_ids _ _ H)).
  destruct (JsMap.get slotId (Plane.workspaceSlots st)) as [slot|]; [|by apply adv_only_calm, calm_refl].
  destruct (truthy_opt _); [|by apply adv_only_calm, calm_refl].
  destruct (negb _); [by apply adv_only_calm, calm_refl|].
  pose proof (calm_account st s) as C1. pose proof (release_account_loss st s) as L.
  destruct (releaseProviderAccountLease st s) as [st1 s1]. cbn [fst snd] in C1, L.
  assert (Session.id s1 = k) as Hid1 by (rewrite (core_id _ _ (proj1 L)); done).
  destruct (bool_decide (Session.status s = cancelled) || bool_decide (Session.status s = timed_out)) eqn:Over;
    cbn [orb].
  - cbn [snd]. rewrite Hid1, forget_free_slot. eapply adv_only_after; [|apply calm_free_slot].
    destruct L as ((I & Es & Eh & Ew) & _).
    eapply (adv_only_after _ _ (update_session st1 k _)); [|apply calm_forget].
    apply (adv_only_core st st1 k s); [done|done|done|].
    split; [lin|]. split; [exact Es|]. split; [exact Eh|exact Ew].
  - assert (Session.status s = running) as Hr.
    { apply orb_false_iff in Over as [O1 O2]. apply bool_decide_eq_false in O1, O2. destruct Hw; tauto. }
    destruct (lost_workspace_record st1 s1 deadline_reason) as [C2 Hn].
    destruct (lost_workspace_session st1 s1 deadline_reason) as [[next|] st2]; cbn [fst snd] in *;
      [|apply (adv_keep_mutation st st2 k s); [done|by eapply calm_trans|done|apply L]].
    specialize (Hn next eq_refl). rewrite Hid1, forget_free_slot. eapply adv_only_after; [|apply calm_free_slot].
    assert (lost_record s1 (drop_slot_fields next)) as Hn'.
    { destruct Hn as [I Es D Hh]. split; [lin|exact Es|exact D|exact Hh]. }
    apply (adv_only_lost st st2 k s); [done|by eapply calm_trans|done| |apply (lr_detached _ _ Hn')|].
    + simpl. by rewrite (lineage_id _ _ (lr_lineage _ _ Hn)).
    + eapply running_lost_evolves; [apply (Hok k s G)|exact L|done|exact Hn'].
Qed.

(** The worktree a lost session named goes back after the session is replaced. *)
Lemma adv_only_release st st1 k s w :
  own_inv st -> JsMap.get k (Plane.sessions st) = Some s -> Session.worktreeId s = Val w ->
  adv_only k st st1 -> (forall m, JsMap.get k (Plane.sessions st1) = Some m -> detached m) ->
  adv_only k st (releaseWorktree st1 w).
Proof.
  intros H G Hw ([O1 E1] & Ho & Hn) Hd. assert (quiet st1 (releaseWorktree st1 w)) as Q by apply quiet_release. split.
  - split; [|by eapply se_after]. apply own_release_free; [done|]. intros j m Gm Hm.
    destruct (decide (w = "")) as [|Hne]; [done|]. destruct (decide (j = k)) as [->|Hj]; [by apply (Hd m)|].
    exfalso. apply Hj. rewrite Ho in Gm by done. by apply (own_exclusive st H j k m s w).
  - split; [eapply only_session_trans; [exact Ho|apply only_session_eq, Q]|].
    eapply no_new_trans; [exact Hn|by apply (no_new_release None)].
Qed.

(** A session that is found by its worktree is a running prompt session. *)
Lemma named_is_running st k s w :
  sessions_ok st -> JsMap.get k (Plane.sessions st) = Some s -> waits_for_host s ->
  Session.worktreeId s = Val w -> w <> "" -> Session.status s = running.
Proof.
  intros Hok G Hw Hv Hne. destruct (Hok k s G) as [_ Ht _ (Hm & Hs & Hd)].
  assert (scheduleKind s = prompt_kind) as Hk.
  { destruct (decide (scheduleKind s = prompt_kind)) as [|Hn]; [done|]. by destruct Hne; apply (Hd Hn). }
  rewrite Hk in Hm, Hs.
  destruct Hw as [|[[_ [Hl|Hl]]|[Hto _]]]; [done| | |].
  - by apply Hm in Hl.
  - by apply Hs in Hl.
  - by destruct Hne; apply (Ht Hto).
Qed.

Lemma adv_reclaim_worktree st k s :
  own_inv st -> sessions_ok st -> JsMap.get "" (Plane.worktrees st) = None ->
  JsMap.get k (Plane.sessions st) = Some s -> waits_for_host s -> adv_only k st (reclaim_worktree st s).2.
Proof.
  intros H Hok Hno G Hw. unfold reclaim_worktree.
  destruct (JsMap.get (opt_or (nul_opt (Session.worktreeId s)) "") (Plane.worktrees st)) as [wt|] eqn:Gw;
    [|by apply adv_only_calm, calm_refl].
  assert (exists w, Session.worktreeId s = Val w /\ w <> "" /\ JsMap.get w (Plane.worktrees st) = Some wt)
    as (w & Hv & Hne & Gw').
  { destruct (Session.worktreeId s) as [| |w]; simpl in Gw; [congruence|congruence|].
    exists w. split; [done|]. split; [|done]. intros ->. congruence. }
  assert (Worktree.id wt = w) as Hidw by (by apply (oe_wids _ _ H)).
  assert (Session.status s = running) as Hr by (by eapply named_is_running).
  destruct (truthy_nul (Session.hostId s)); [|by apply adv_only_calm, calm_refl].
  assert (Session.id s = k) as Hid by (by apply (oe_ids _ _ H)).
  pose proof (calm_account st s) as C1. pose proof (release_account_loss st s) as L.
  destruct (releaseProviderAccountLease st s) as [st1 s1]. cbn [fst snd] in C1, L.
  assert (Session.id s1 = k) as Hid1 by (rewrite (core_id _ _ (proj1 L)); done). rewrite Hidw, Hid1.
  assert (forall next st2, calm st st2 -> identity s next -> detached next -> evolves s (pending st k) next false ->
    adv_only k st (forget_ack (releaseWorktree (update_session st2 k next) w) k)) as Hfin.
  { intros next st2 C I Hd Hev. rewrite forget_release. apply (adv_only_release st _ k s); [done|done|done| |].
    - apply (adv_only_lost st st2 k s); try done. destruct I as [-> _]. done.
    - intros m. simpl. rewrite JsMap.get_set_eq. by intros [= <-]. }
  destruct (canRetryHostLoss s1) eqn:Hretry; cbn [snd].
  - apply Hfin; [done| |unfold queueHostLossRetry; case_match; by apply detached_null|].
    + eapply identity_trans; [apply (proj1 (proj1 L))|]. unfold queueHostLossRetry. by case_match.
    + assert (terminal_loss s1 = false) as Ht by (unfold terminal_loss; rewrite Hretry; by rewrite andb_false_r).
      eapply running_lost_evolves; [apply (Hok k s G)|exact L|done|by apply lost_retry].
  - pose proof (calm_host_lost_handoff st1 s1) as C2.
    destruct (hostLostTerminalHookHandoff st1 s1) as [[handoff|] st2]; cbn [snd] in C2;
      [|apply (adv_keep_mutation st st2 k s); [done|by eapply calm_trans|done|apply L]].
    pose proof (calm_finish st2 s1 handoff) as C3. pose proof (finish_fields st2 s1 handoff) as (I & Es & D).
    destruct (finishHostLostSession st2 s1 handoff) as [next st3]. cbn [fst snd] in *.
    assert (lineage s next) as I2 by (eapply lineage_trans; [apply L|exact I]).
    apply Hfin; [eapply calm_trans; [exact C1|]; by eapply calm_trans|apply I2|done|].
    apply live_evolves; [by apply running_live|exact I2|right; by rewrite Es|by rewrite Es|by rewrite Es].
Qed.

Lemma adv_reclaim_session st k s nowMs :
  own_inv st -> sessions_ok st -> JsMap.get "" (Plane.worktrees st) = None ->
  JsMap.get k (Plane.sessions st) = Some s -> adv_only k st (reclaim_session nowMs st s).2.
Proof.
  intros H Hok Hno G. unfold reclaim_session.
  pose proof (adv_expire st k s nowMs H Hok G) as Ae.
  assert ((expireTerminalHookHandoffIfNeeded st s nowMs).1 = false ->
          (expireTerminalHookHandoffIfNeeded st s nowMs).2 = st) as Hsame.
  { unfold expireTerminalHookHandoffIfNeeded. by repeat case_match. }
  destruct (expireTerminalHookHandoffIfNeeded st s nowMs) as [[] st1]; cbn [fst snd] in *; [done|].
  rewrite (Hsame eq_refl) in *. clear Hsame st1.
  destruct (deadline_due s nowMs) eqn:Hdue; cbn [negb]; [|done].
  apply deadline_due_waits in Hdue.
  pose proof (adv_reclaim_scheduled st k s H Hok G Hdue) as As.
  assert ((reclaimScheduledReconnect st s).1 = Some None -> (reclaimScheduledReconnect st s).2 = st) as Hsame.
  { unfold reclaimScheduledReconnect. destruct (_ || _); [done|]. repeat case_match; simplify_eq/=; done. }
  destruct (reclaimScheduledReconnect st s) as [[[ids|]|] st1]; cbn [fst snd] in *; [done| |done].
  rewrite (Hsame eq_refl). destruct (truthy_nul (Session.workspaceSlotId s)) as [slotId|].
  - by apply adv_reclaim_workspace.
  - by apply adv_reclaim_worktree.
Qed.

(** The sweep over the reconnect deadlines. *)
Lemma adv_reclaim_deadlines st nowMs :
  own_inv st -> sessions_ok st -> JsMap.get "" (Plane.worktrees st) = None ->
  advances st (reclaimReconnectDeadlines st nowMs).2.
Proof.
  intros H Hok Hno. unfold reclaimReconnectDeadlines.
  assert (queue_ok st (JsMap.values (Plane.sessions st))) as Hq.
  { split; [rewrite (entries_ids st H); apply NoDup_ListNoDup, (oe_wf _ _ H)|].
    intros s Hin. apply (JsMap.In_values_get _ _ (oe_wf _ _ H)) in Hin as [k G]. by rewrite (oe_ids _ _ H k s G). }
  revert Hq. generalize (JsMap.values (Plane.sessions st)). intros l. revert st H Hok Hno.
  induction l as [|s l IH]; intros st H Hok Hno Hq; cbn [for_sessions]; [by apply advances_refl|].
  destruct (adv_reclaim_session st (Session.id s) s nowMs H Hok Hno) as (A & O & N); [apply Hq; by left|].
  pose proof (queue_ok_step _ _ _ _ Hq O) as Hq1.
  destruct (reclaim_session nowMs st s) as [[ids|] st1]; cbn [snd] in *; [|done].
  assert (sessions_ok st1) as Hok1 by (eapply sessions_ok_evolve; [apply A|done]).
  specialize (IH st1 (proj1 A) Hok1 (N _ Hno) Hq1).
  destruct (for_sessions (reclaim_session nowMs) l st1). cbn [snd] in *. by eapply advances_trans.
Qed.

(** ** Slots of a lost host *)

(** A session whose slot or worktree is taken away goes back to the queue when it runs
    and stays cancelled otherwise. *)
Lemma provisional_evolves s s' p p' :
  Session.status s = running \/ Session.status s = cancelled ->
  Session.status s' = (if bool_decide (Session.status s = running) then queued else Session.status s) ->
  lineage s s' -> Session.terminalHookHandoff s' = Session.terminalHookHandoff s ->
  (p' = true -> p = true) -> evolves s p s' p'.
Proof.
  intros Hs Es I Eh Hp. destruct Hs as [Hr|Hc].
  - rewrite Hr in Es. apply requeue_evolves; [left; by apply running_live|done|done|by left].
  - apply over_evolves; [done|by rewrite Es, Hc|apply I|done|by left].
Qed.

Lemma requeue_running_fields s reason :
  Session.status (requeue_running s reason) =
    (if bool_decide (Session.status s = running) then queued else Session.status s) /\
  lineage s (requeue_running s reason) /\
  Session.terminalHookHandoff (requeue_running s reason) = Session.terminalHookHandoff s /\
  Session.worktreeId (requeue_running s reason) = Session.worktreeId s.
Proof. unfold requeue_running. by case_bool_decide. Qed.

(** A session that keeps its worktree is written back. *)
Lemma adv_persist_same st st1 k s s' :
  own_inv st -> calm st st1 -> JsMap.get k (Plane.sessions st) = Some s -> same_claim s s' ->
  evolves s (pending st k) s' (pending st1 k) -> advances st (persistSession st1 s').
Proof.
  intros H C G Hc Hev. split.
  - apply (own_persist_same st1 k s); [by eapply calm_own|by rewrite (proj1 (proj1 C))|done].
  - apply (se_persist _ _ k s); [apply C|done|rewrite (proj1 Hc); by apply (oe_ids _ _ H)|done].
Qed.

Lemma adv_offline_slot st hostId reason k slot :
  own_inv st -> advances st (offline_slot hostId reason st k slot).2.
Proof.
  intros H. unfold offline_slot. destruct (negb _); [by apply advances_refl|].
  destruct (id ← truthy_nul (Slot.currentSessionId slot); JsMap.get id (Plane.sessions st)) as [s|] eqn:G;
    [|by apply calm_advances; [|apply calm_set_slot]].
  apply bind_Some in G as (sid & _ & G).
  destruct (bool_decide (Session.status s = running) || bool_decide (Session.status s = cancelled)) eqn:Hrc.
  - destruct (acknowledged s).
    + destruct (now_plus st _) as [deadline|]; [|by apply advances_refl].
      eapply advances_after; [|apply calm_set_slot].
      by apply (adv_persist_core st st sid s); [|apply calm_refl| |].
    + pose proof (calm_account st s) as C1. pose proof (release_account_core st s) as (I & Es & Eh & Ew).
      destruct (releaseProviderAccountLease st s) as [st1 s1]. cbn [fst snd] in *.
      destruct (requeue_running_fields s1 reason) as (Rs & RI & Rh & Rw).
      eapply advances_after; [|apply calm_set_slot].
      assert (lineage s (drop_slot_assignment ((requeue_running s1 reason) <| Session.workspaceSlotId := Null |>
                <| Session.hostId := Null |>))) as L.
      { eapply lineage_trans; [exact I|]. eapply lineage_trans; [exact RI|]. lin_update. }
      apply (adv_persist_same st st1 sid s); [done|done|done|split; [by apply lineage_id|simpl; congruence]|].
      apply provisional_evolves; [|simpl; by rewrite Rs, Es|exact L|simpl; congruence|apply C1].
      apply orb_true_iff in Hrc as [Hrc|Hrc]; apply bool_decide_eq_true in Hrc; auto.
  - clear Hrc. case_bool_decide; [|by apply calm_advances; [|apply calm_set_slot]].
    eapply advances_after; [|apply calm_set_slot].
    apply (adv_persist_core st st sid s); [done|apply calm_refl|done|]. split; [lin_update|done].
Qed.

Lemma adv_offline_slots st hostId reason :
  own_inv st -> advances st (offlineWorkspaceSlotsLocal st hostId reason).2.
Proof. intros H. apply for_each_advances; [|done]. intros. by apply adv_offline_slot. Qed.

(** ** Registration *)
Lemma fold_inv {A B} (P : A -> Prop) (f : A -> B -> A) l a :
  (forall a b, In b l -> P a -> P (f a b)) -> P a -> P (fold_left f l a).
Proof.
  revert a. induction l as [|b l IH]; intros a Hf H; simpl; [done|].
  apply IH; [intros; apply Hf; [by right|done]|apply Hf; [by left|done]].
Qed.

Lemma calm_publish_slots st hostId conn on adv : calm st (publishWorkspaceSlotsLocal st hostId conn on adv).
Proof.
  apply (visit_inv (calm st)); [|apply calm_refl]. intros st' k v C _.
  destruct (_ || _); [done|]. eapply calm_trans; [done|apply calm_set_slot].
Qed.

Lemma calm_sync_slots st host adv : calm st (syncHostWorkspaceSlots st host adv).
Proof.
  unfold syncHostWorkspaceSlots.
  apply (fold_inv (calm st)); [intros st' x _ C; eapply calm_trans; [done|apply calm_delete_slot]|].
  do 2 (apply (fold_inv (calm st)); [intros st' x _ C; eapply calm_trans; [done|apply calm_set_slot]|]).
  apply calm_refl.
Qed.

(** Only worktree rows change. *)
Lemma rows_advance st st' : own_inv st' -> quiet st st' -> advances st st'.
Proof. intros H Q. split; [done|by apply se_quiet]. Qed.

Lemma adv_register_worktree st opts conn inventory w :
  own_inv st -> advances st (register_worktree opts conn inventory st w).
Proof.
  intros H. unfold register_worktree.
  destruct (JsMap.get (RegWt.id w) (Plane.worktrees st)) as [p|] eqn:G.
  - case_bool_decide as Hb; [by apply advances_refl|].
    apply rows_advance; [|apply quiet_persist_worktree]. apply own_put_idle; [done|]. simpl. intros v. congruence.
  - apply rows_advance; [|apply quiet_persist_worktree]. apply own_put_idle; [done|]. simpl. congruence.
Qed.

Lemma adv_refresh_worktree st opts conn retained k w :
  own_inv st -> JsMap.get k (Plane.worktrees st) = Some w -> advances st (refresh_worktree opts conn retained st k w).
Proof.
  intros H G. unfold refresh_worktree. destruct (_ && _); [|by apply advances_refl].
  apply rows_advance; [|eapply quiet_trans; [apply quiet_set_worktree|apply quiet_persist_worktree]].
  pose proof (oe_wids _ _ H k w G) as Hk. unfold persistWorktree. simpl. rewrite Hk.
  match goal with |- own_inv (set_worktree (set_worktree st k ?w1) k _) =>
    apply (own_set_worktree None _ k w1); [by apply (own_set_worktree None st k w)|apply JsMap.get_set_eq|done..] end.
Qed.

Lemma calm_drop_existing st hostId : calm st (drop_existing st hostId).
Proof. unfold drop_existing. case_match; by apply calm_same. Qed.

Lemma adv_register st opts : own_inv st -> advances st (registerHost st opts).2.
Proof.
  intros H. unfold registerHost. destruct (register_checks st opts) as [e|version]; [by apply advances_refl|].
  set (st1 := drop_existing st _). assert (calm st st1) as C1 by apply calm_drop_existing.
  set (drawn := match Opts.connectionId opts with Some c => _ | None => _ end).
  assert (calm st drawn.2) as C2 by (unfold drawn; case_match; [done|eapply calm_trans; [done|by apply calm_same]]).
  destruct drawn as [conn st2]. cbn [fst snd] in *.
  match goal with |- context [publishWorkspaceSlotsLocal ?x _ _ _ _] => set (st3 := x) end.
  assert (calm st st3) as C3 by (eapply calm_trans; [done|by apply calm_same]).
  match goal with |- context [publishWorkspaceSlotsLocal ?x ?a ?b ?c ?d] =>
    pose proof (calm_publish_slots x a b c d) as C4; set (st4 := publishWorkspaceSlotsLocal x a b c d) in * end.
  match goal with |- context [syncHostWorkspaceSlots ?x ?a ?b] =>
    assert (calm st4 x) as C5 by (by apply calm_same);
    pose proof (calm_sync_slots x a b) as C6; set (st5 := syncHostWorkspaceSlots x a b) in * end.
  assert (calm st (bump_revision st5)) as C.
  { eapply calm_trans; [exact C3|]. eapply calm_trans; [exact C4|]. eapply calm_trans; [exact C5|].
    eapply calm_trans; [exact C6|by apply calm_same]. }
  apply (visit_inv (advances st)).
  - intros st' k w A G. eapply advances_trans; [done|]. apply adv_refresh_worktree; [apply A|done].
  - apply (fold_inv (advances st)); [|by apply calm_advances].
    intros st' w _ A. eapply advances_trans; [done|]. apply adv_register_worktree, A.
Qed.

(** An accepted registration reports no session twice. *)
Lemma validate_running_NoDup st hostId seen l :
  validate_running st hostId seen l = None -> List.NoDup l /\ forall x, In x l -> ~ In x seen.
Proof.
  revert seen. induction l as [|x l IH]; intros seen; cbn [validate_running]; [split; [constructor|done]|].
  destruct (set_has x seen) eqn:Hs; [done|]. destruct (owns_reported st hostId x); [|done]. intros E.
  destruct (IH _ E) as [N D]. apply set_has_not_In in Hs. split.
  - constructor; [|done]. intros Hin. apply (D x Hin). rewrite set_add_In. by left.
  - intros y [<-|Hy]; [done|]. intros Hin. apply (D y Hy). rewrite set_add_In. by right.
Qed.

Lemma register_reports_once st opts version :
  register_checks st opts = inr version -> List.NoDup (reportedRunningSessionIds opts).
Proof.
  unfold register_checks. destruct (match Opts.runtime opts with Some r => _ | None => _ end); [done|].
  destruct (validateRegisterWorktreeNames _ _ _); [done|].
  destruct (validateReportedAttempts opts) eqn:Ha; [done|].
  destruct (validateRunningSessions _ _ _) eqn:Hr; [done|]. intros _.
  unfold reportedRunningSessionIds, validateReportedAttempts, validateRunningSessions,
    ownedReportedRunningSessionIds, reportedRunningSessionIds in *.
  destruct (Opts.runningAttempts opts) as [attempts|]; simpl in Ha.
  - apply check_entries_None in Ha as (_ & N & _). by apply NoDup_ListNoDup.
  - by destruct (validate_running_NoDup _ _ _ _ Hr).
Qed.

Lemma adv_reconcile_reported st0 st opts version :
  own_inv st -> sessions_ok st -> register_checks st0 opts = inr version ->
  advances st (reconcileReportedRunningSessions st opts).2.
Proof. intros H Hok Hc. apply adv_reconcile_running; [done|done|by eapply register_reports_once]. Qed.

(** ** Rolling a registration back *)

(** Every row of a snapshot is stored under its own id. *)
Lemma snapshot_keys st hostId k w :
  In (k, w) (snapshotWorktrees (snapshotInMemoryRegistration st hostId)) -> Worktree.id w = k.
Proof.
  unfold snapshotInMemoryRegistration. cbn [snapshotWorktrees].
  apply (fold_inv (fun m => forall w, In (k, w) m -> Worktree.id w = k)); [|done].
  intros m v _ Hm w' Hin. by apply JsMap.set_entry in Hin as [[-> ->]|Hin]; [|apply Hm].
Qed.

Lemma adv_put_back st k w :
  own_inv st -> Worktree.id w = k -> advances st (put_back set_worktree Plane.worktrees st (k, w)).
Proof.
  intros H Hid. unfold put_back. cbn [fst snd]. destruct (JsMap.has _ _) eqn:Hh; [by apply advances_refl|].
  apply rows_advance; [|apply quiet_set_worktree]. apply own_put; [done|done|].
  intros v x G. unfold JsMap.has in Hh. by rewrite G in Hh.
Qed.

Lemma adv_restore_catalog st st0 hostId :
  own_inv st -> advances st (restore_catalog st hostId (snapshotInMemoryRegistration st0 hostId)).
Proof.
  intros H. unfold restore_catalog.
  set (st1 := match snapshotInventory _ with Some _ => _ | None => _ end).
  assert (calm st (bump_revision st1)) as C by (unfold st1; case_match; by apply calm_same).
  apply (fold_inv (advances st)).
  - intros st' e _ A. eapply advances_after; [done|]. unfold put_back.
    case_match; [apply calm_refl|apply calm_set_slot].
  - apply (fold_inv (advances st)); [|by apply calm_advances].
    intros st' [k w] Hin A. eapply advances_trans; [done|]. apply adv_put_back; [apply A|by eapply snapshot_keys].
Qed.

(** The record of an assignment that is taken back. *)
Definition unassigned (s next : SessionRecord) : Prop :=
  lineage s next /\ Session.terminalHookHandoff next = Session.terminalHookHandoff s /\
  Session.status next = (if bool_decide (Session.status s = running) then queued else Session.status s).

Lemma release_provisional st s reason target :
  exists st1 next, releaseUnackedProvisionalAssignment st s reason target =
    (if bool_decide (Session.status s = running) then Some (Session.id s) else None,
     persistSession (forget_ack st1 (Session.id next)) next) /\
  calm st st1 /\ unassigned s next /\
  Session.worktreeId next = match target with target_worktree => Null | target_slot => Session.worktreeId s end.
Proof.
  unfold releaseUnackedProvisionalAssignment.
  pose proof (calm_account st s) as C1. pose proof (release_account_core st s) as (I & Es & Eh & Ew).
  destruct (releaseProviderAccountLease st s) as [st1 s1]. cbn [fst snd] in *.
  destruct (requeue_running_fields s1 reason) as (Rs & RI & Rh & Rw).
  eexists st1, _. split; [reflexivity|]. split; [done|].
  assert (lineage s (requeue_running s1 reason)) as L by (by eapply lineage_trans).
  destruct target; (split; [|done || (simpl; congruence)]); (split; [lin|]); simpl; rewrite Rs, Es; (split; [congruence|done]).
Qed.

Lemma unassigned_evolves s next p p' :
  isUnackedProvisionalAssignment s = true -> unassigned s next -> (p' = true -> p = true) -> evolves s p next p'.
Proof.
  intros Hu (L & Eh & Es) Hp. apply provisional_evolves; [|done..].
  apply andb_true_iff in Hu as [Hu _]. apply orb_true_iff in Hu as [Hu|Hu]; apply bool_decide_eq_true in Hu; auto.
Qed.

Lemma adv_requeue_unacked_worktree st k w reason :
  own_inv st -> JsMap.get k (Plane.worktrees st) = Some w -> advances st (requeueUnackedWorktree st w reason).2.
Proof.
  intros H G. unfold requeueUnackedWorktree.
  destruct (id ← truthy_nul (Worktree.currentSessionId w); JsMap.get id (Plane.sessions st)) as [s|] eqn:Gs;
    [|by apply advances_refl].
  apply bind_Some in Gs as (sid & Hsid & Gs). apply truthy_nul_Some in Hsid as [Hsid _].
  destruct (isUnackedProvisionalAssignment s) eqn:Hu; [|by apply advances_refl].
  rewrite (oe_wids _ _ H k w G). pose proof (quiet_release st k) as Q0.
  assert (own_except (Some sid) (releaseWorktree st k)) as O0.
  { apply own_release; [by apply own_weaken|]. intros v Gv _. congruence. }
  destruct (release_provisional (releaseWorktree st k) s reason target_worktree) as (st1 & next & E & C1 & U & Ew).
  rewrite E. cbn [snd]. assert (Session.id next = sid) as Hid.
  { destruct U as (L & _). rewrite (lineage_id _ _ L). by apply (oe_ids _ _ H). }
  assert (calm (releaseWorktree st k) (forget_ack st1 (Session.id next))) as C by (eapply calm_trans; [done|apply calm_forget]).
  assert (quiet st (forget_ack st1 (Session.id next))) as Q by (by eapply quiet_trans; [|apply C]).
  apply (adv_persist_detached st _ sid s); [done|by eapply calm_own|done|done|done|by apply detached_null|].
  apply unassigned_evolves; [done|done|apply Q].
Qed.

Lemma adv_drop_worktree st hostId reason snapshot winner k w :
  own_inv st -> JsMap.get k (Plane.worktrees st) = Some w ->
  advances st (drop_worktree hostId reason snapshot winner st k w).2.
Proof.
  intros H G. unfold drop_worktree. destruct (_ || _); [by apply advances_refl|].
  pose proof (adv_requeue_unacked_worktree st k w reason H G) as A.
  destruct (requeueUnackedWorktree st w reason) as [ids st1]. cbn [snd] in A.
  destruct (JsMap.get k (Plane.worktrees st1)) as [w1|] eqn:G1; [|done].
  case_bool_decide as Hb; [done|]. cbn [orb]. destruct (is_some _); [done|]. cbn [snd].
  eapply advances_trans; [done|]. apply rows_advance; [|by apply quiet_same].
  apply own_delete; [apply A|]. intros v Gv. congruence.
Qed.

Lemma adv_drop_slot st hostId reason snapshot winner k slot :
  own_inv st -> advances st (drop_slot hostId reason snapshot winner st k slot).2.
Proof.
  intros H. unfold drop_slot. destruct (_ || _); [by apply advances_refl|].
  set (freed := match (id ← truthy_nul _; _) with Some _ => _ | None => _ end).
  assert (advances st freed.2) as A.
  { unfold freed. destruct (id ← truthy_nul (Slot.currentSessionId slot); JsMap.get id (Plane.sessions st)) as [s|] eqn:Gs;
      [|by apply advances_refl].
    apply bind_Some in Gs as (sid & _ & Gs).
    destruct (isUnackedProvisionalAssignment s) eqn:Hu; [|by apply advances_refl].
    destruct (release_provisional st s reason target_slot) as (st1 & next & E & C1 & U & Ew).
    rewrite E. cbn [snd]. eapply advances_after; [|apply calm_set_slot].
    assert (calm st (forget_ack st1 (Session.id next))) as C by (eapply calm_trans; [done|apply calm_forget]).
    apply (adv_persist_same st _ sid s); [done|done|done|split; [apply lineage_id, U|done]|].
    apply unassigned_evolves; [done|done|apply C]. }
  destruct freed as [ids st1]. cbn [fst snd] in A.
  destruct (JsMap.get k (Plane.workspaceSlots st1)); [destruct (_ || _); [done|]|];
    (eapply advances_after; [done|apply calm_delete_slot]).
Qed.

Lemma adv_drop_capacity st hostId snapshot owner reason :
  own_inv st -> advances st (dropReplacementOnlyCapacity st hostId snapshot owner reason).2.
Proof.
  intros H. unfold dropReplacementOnlyCapacity.
  match goal with |- context [for_each Plane.worktrees ?f ?ks st] =>
    assert (advances st (for_each Plane.worktrees f ks st).2) as A1 by
      (apply for_each_advances; [|done]; intros; by apply adv_drop_worktree);
    destruct (for_each Plane.worktrees f ks st) as [[first|] st1] end; cbn [snd] in *; [|done].
  match goal with |- context [for_each Plane.workspaceSlots ?f ?ks st1] =>
    assert (advances st1 (for_each Plane.workspaceSlots f ks st1).2) as A2 by
      (apply for_each_advances; [|apply A1]; intros; by apply adv_drop_slot);
    destruct (for_each Plane.workspaceSlots f ks st1) as [more st2] end; cbn [snd] in *.
  by eapply advances_trans.
Qed.

(** A host loses its worktrees and its slots. *)
Lemma adv_offline_host st hostId reason : own_inv st -> advances st (offlineHostAndRequeue st hostId reason).2.
Proof. intros H. split; [by apply own_offline_host|by apply se_offline_host]. Qed.

Lemma adv_restore st st0 hostId conn moved :
  own_inv st ->
  advances st (restoreInMemoryRegistration st hostId conn (snapshotInMemoryRegistration st0 hostId) moved).2.
Proof.
  intros H. unfold restoreInMemoryRegistration.
  set (owner := negb _). set (st1 := delete_connection st conn).
  set (first := if owner then _ else _).
  assert (advances st first.2) as A.
  { assert (advances st st1) as A1 by (apply calm_advances; [done|by apply calm_same]).
    unfold first. destruct owner; [exact A1|].
    set (st2 := delete_host_connection st1 hostId).
    set (st3 := if moved then st2 else _).
    assert (advances st st2) as A2 by (eapply advances_after; [exact A1|by apply calm_same]).
    assert (advances st st3) as A3.
    { unfold st3. destruct moved; [done|]. eapply advances_trans; [exact A2|]. apply adv_restore_catalog, A2. }
    assert (advances st (set_draining st3 hostId false)) as A4 by (eapply advances_after; [exact A3|by apply calm_same]).
    pose proof (adv_offline_host _ hostId ROLLBACK_REASON (proj1 A4)) as A5.
    destruct (offlineHostAndRequeue _ _ _) as [[l1|] st4]; cbn [snd] in *; [|by eapply advances_trans].
    pose proof (adv_offline_slots _ hostId ROLLBACK_REASON (proj1 A5)) as A6.
    destruct (offlineWorkspaceSlotsLocal _ _ _) as [[l2|] st5]; cbn [snd] in *;
      [apply (advances_after _ st5); [|by apply calm_same]|];
      (eapply advances_trans; [exact A4|]; by eapply advances_trans). }
  destruct first as [[l1|] st2]; cbn [fst snd] in *; [|done].
  match goal with |- context [dropReplacementOnlyCapacity st2 ?a ?b ?c ?d] =>
    pose proof (adv_drop_capacity st2 a b c d (proj1 A)) as A2;
    destruct (dropReplacementOnlyCapacity st2 a b c d) as [more st3] end; cbn [snd] in *.
  by eapply advances_trans.
Qed.

Lemma adv_register_durable st opts :
  own_inv st -> sessions_ok st -> advances st (registerHostDurable st opts).2.
Proof.
  intros H Hok. unfold registerHostDurable.
  destruct (negotiateHostProtocolVersion _); [|by apply advances_refl].
  destruct (match Opts.runtime opts with Some r => _ | None => _ end); [by apply advances_refl|].
  pose proof (adv_register st opts H) as A1.
  assert (forall c st1, registerHost st opts = (inr c, st1) -> exists v, register_checks st opts = inr v) as Hc.
  { intros c st1. unfold registerHost. destruct (register_checks st opts) as [|v]; [done|by exists v]. }
  destruct (registerHost st opts) as [[e|conn] st1]; cbn [fst snd] in *; [done|].
  destruct (Hc conn st1 eq_refl) as [v Hv].
  pose proof (adv_reconcile_reported st st1 opts v (proj1 A1)) as A2.
  assert (sessions_ok st1) as Hok1 by (eapply sessions_ok_evolve; [apply A1|done]).
  specialize (A2 Hok1 Hv).
  destruct (reconcileReportedRunningSessions st1 opts) as [[ids| |] st2]; cbn [fst snd] in *;
    try (by eapply advances_trans).
  all: pose proof (adv_restore st2 st (Opts.hostId opts) conn false (proj1 A2)) as A3.
  all: destruct (restoreInMemoryRegistration _ _ _ _ _) as [out st3]; cbn [snd] in *.
  all: eapply advances_trans; [exact A1|]; by eapply advances_trans.
Qed.

(** ** Heartbeats and losses *)
Lemma adv_timed_out_lease st hostId k s :
  own_inv st -> JsMap.get k (Plane.sessions st) = Some s -> advances st (release_timed_out_lease hostId st k s).
Proof.
  intros H G. unfold release_timed_out_lease. destruct (_ || _); [by apply advances_refl|].
  pose proof (calm_account st s) as C. pose proof (release_account_core st s) as Cs.
  destruct (releaseProviderAccountLease st s) as [st1 s1]. cbn [fst snd] in *.
  by apply (adv_persist_core st st1 k s).
Qed.

Lemma adv_disconnect st conn : own_inv st -> advances st (disconnectHost st conn).2.
Proof.
  intros H. unfold disconnectHost. destruct (JsMap.get conn (Plane.connections st)) as [c|]; [|by apply advances_refl].
  match goal with |- context [offlineHostAndRequeue ?x ?a ?b] =>
    assert (calm st x) as C by (case_bool_decide; by apply calm_same); set (st1 := x) in * end.
  pose proof (adv_offline_host st1 (Connection.hostId c) DISCONNECT_REASON (calm_own None _ _ C H)) as A1.
  destruct (offlineHostAndRequeue st1 _ _) as [[l1|] st2]; cbn [snd] in *; [|by eapply advances_before].
  pose proof (adv_offline_slots st2 (Connection.hostId c) DISCONNECT_REASON (proj1 A1)) as A2.
  assert (advances st st2) as A by (by eapply advances_before).
  destruct (offlineWorkspaceSlotsLocal st2 _ _) as [[l2|] st3]; cbn [snd] in *; [|by eapply advances_trans].
  apply (visit_inv (advances st)); [|by eapply advances_trans].
  intros st' k s A' G. eapply advances_trans; [exact A'|]. apply adv_timed_out_lease; [apply A'|done].
Qed.

Lemma calm_heartbeat st hostId at_ : calm st (heartbeat st hostId at_).2.
Proof. unfold heartbeat. repeat case_match; by apply calm_same. Qed.

Lemma adv_keepalive st hostId at_ run :
  own_inv st -> sessions_ok st -> advances st (handleKeepalive st hostId at_ run).2.
Proof.
  intros H Hok. unfold handleKeepalive. pose proof (calm_heartbeat st hostId at_) as C.
  destruct (heartbeat st hostId at_) as [[] st1]; cbn [snd] in *; [|by apply calm_advances].
  assert (sessions_ok st1) as Hok1 by (eapply sessions_ok_evolve; [apply se_quiet, C|done]).
  destruct (adv_reconcile_owned st1 hostId (dedup [] (opt_or run []))
    "daemon no longer reports session as running; requeued" (calm_own None _ _ C H) Hok1) as [A _].
  destruct (reconcileHostOwnedSessions st1 _ _ _) as [out st2]. cbn [snd] in *. by eapply advances_before.
Qed.

Lemma calm_stale_connected st candidates : calm st (stale_connected st candidates).1.
Proof.
  unfold stale_connected.
  apply (fold_inv (fun acc => calm st acc.1)); [|apply calm_refl].
  intros [st' cs] e _ C. cbn [fst] in *. case_match; [done|]. eapply calm_trans; [done|by apply calm_same].
Qed.

Lemma adv_stale_all nowMs candidates : forall st,
  own_inv st -> advances st (reclaim_stale_all nowMs candidates st).2.
Proof.
  induction candidates as [|[hostId meta] candidates IH]; intros st H; cbn [reclaim_stale_all]; [by apply advances_refl|].
  assert (advances st (reclaim_stale_host nowMs st (hostId, meta)).2) as A.
  { unfold reclaim_stale_host. destruct (heartbeat_fresh _ _ _); [by apply advances_refl|].
    pose proof (adv_offline_host st hostId STALE_REASON H) as A1.
    destruct (offlineHostAndRequeue st _ _) as [[ids|] st1]; cbn [snd] in *; [|done].
    apply (advances_after _ st1); [done|]. case_match; by apply calm_same. }
  destruct (reclaim_stale_host nowMs st (hostId, meta)) as [[ids|] st1]; cbn [snd] in *; [|done].
  specialize (IH st1 (proj1 A)). destruct (reclaim_stale_all nowMs candidates st1). cbn [snd] in *.
  by eapply advances_trans.
Qed.

Lemma adv_stale_hosts st nowMs : own_inv st -> advances st (reclaimStaleHosts st nowMs).2.
Proof.
  intros H. unfold reclaimStaleHosts. pose proof (calm_stale_connected st JsMap.empty) as C.
  destruct (stale_connected st JsMap.empty) as [st1 candidates]. cbn [fst] in C.
  pose proof (adv_stale_all nowMs (stale_disconnected st1 candidates) st1 (calm_own None _ _ C H)) as A.
  destruct (reclaim_stale_all _ _ st1). cbn [snd] in *. by eapply advances_before.
Qed.

(** ** Drain and resume *)
Lemma adv_set_idle_online st hostId on :
  own_inv st -> advances st (visit Plane.worktrees (set_idle_online hostId on) st).
Proof.
  intros H. apply (visit_inv (advances st)); [|by apply advances_refl].
  intros st' k w A G. unfold set_idle_online. destruct (_ && _); [|done]. eapply advances_trans; [done|].
  apply rows_advance; [|apply quiet_set_worktree]. apply (own_set_worktree None st' k w); [apply A|done..].
Qed.

Lemma adv_drain st hostId conn : own_inv st -> advances st (drainHost st hostId conn).2.
Proof.
  intros H. unfold drainHost. destruct (stale_connection _ _ _); [by apply advances_refl|]. cbn [snd].
  eapply (advances_before _ (emit (set_draining st hostId true) hostId msg_drain)); [by apply calm_same|].
  apply adv_set_idle_online. by apply (own_except_frame None st).
Qed.

Lemma adv_resume st hostId conn : own_inv st -> advances st (resumeHost st hostId conn).2.
Proof.
  intros H. unfold resumeHost. destruct (stale_connection _ _ _); [by apply advances_refl|].
  destruct (negb _); [by apply advances_refl|]. cbn [snd].
  eapply (advances_before _ (emit (set_draining st hostId false) hostId msg_resume)); [by apply calm_same|].
  apply adv_set_idle_online. by apply (own_except_frame None st).
Qed.

(** ** Configuration *)

Definition no_busy_worktree st hostId : Prop :=
  forall k w, JsMap.get k (Plane.worktrees st) = Some w -> Worktree.hostId w = hostId -> Worktree.status w <> busy.

(** The rows of a host are deleted when none is busy. *)
Lemma adv_delete_host st hostId version :
  own_inv st -> no_busy_worktree st hostId ->
  advances st (deleteHostInventory st hostId version).2.
Proof.
  intros H Hno. unfold deleteHostInventory.
  destruct (JsMap.get hostId (Plane.hostInventories st)); [|by apply advances_refl].
  destruct (negb _); [by apply advances_refl|]. destruct (existsb _ _); [by apply advances_refl|]. cbn [snd].
  apply rows_advance; [|by apply quiet_same]. destruct H as [H1 H2 H3 H4 H5]. split; simpl; [done|done| | |by auto with jsmap].
  - intros k w G. apply JsMap.get_filter in G as [G _]; [|done]. by apply H3.
  - intros k s w _ G Hw Hne. destruct (H4 k s w) as (wt & Gw & B & Cu); try done. exists wt. simpl. split; [|done].
    apply JsMap.get_filter; [done|]. split; [done|]. simpl. unfold str_eqb. case_bool_decide as E; [|done].
    by destruct (Hno w wt).
Qed.

(** The rows of [st'] are those of [st], rewritten: a busy row was busy with the same
    session, and the other way round. *)
Definition same_owners st st' : Prop :=
  (forall k v' x, JsMap.get k (Plane.worktrees st') = Some v' -> Worktree.status v' = busy ->
     exists v, JsMap.get k (Plane.worktrees st) = Some v /\ Worktree.status v = busy /\
       (Worktree.currentSessionId v' = Val x -> Worktree.currentSessionId v = Val x)).

Lemma adv_project_rows st host rows :
  own_inv st -> (forall w, In w rows -> exists r c, w = project_worktree st host r c) ->
  own_inv (fold_left persistWorktree rows st) /\ quiet st (fold_left persistWorktree rows st) /\
  same_owners st (fold_left persistWorktree rows st).
Proof.
  intros H Hrows.
  apply (fold_inv (fun st' => own_inv st' /\ quiet st st' /\ same_owners st st')).
  - intros st' w Hin (H' & Q & O). destruct (Hrows w Hin) as (r & c & ->).
    set (w := project_worktree st host r c).
    assert (forall v x, JsMap.get (Worktree.id w) (Plane.worktrees st) = Some v -> Worktree.status v = busy ->
      Worktree.currentSessionId v = Val x -> Worktree.status w = busy /\ Worktree.currentSessionId w = Val x) as Hkeep.
    { intros v x G B Cu. unfold w, project_worktree in *. simpl in *. rewrite G, B, Cu. done. }
    split; [|split; [eapply quiet_trans; [exact Q|apply quiet_persist_worktree]|]].
    + apply own_put; [done|done|]. intros v x G B Cu.
      destruct (O _ v x G B) as (v0 & G0 & B0 & C0). by apply (Hkeep v0); [| |apply C0].
    + intros k v' x. unfold persistWorktree. simpl. rewrite JsMap.get_set. case_decide as Hk; [|apply O].
      intros [= <-] B. unfold w, project_worktree in *. simpl in *. subst k.
      destruct (JsMap.get (HWorktree.id c) (Plane.worktrees st)) as [p|] eqn:G; [|done].
      exists p. split; [done|]. case_bool_decide as Hb; [|done]. split; [done|]. by destruct (Worktree.currentSessionId p).
  - split; [done|]. split; [apply quiet_refl|]. intros k v' x G B. by exists v'.
Qed.

Lemma adv_sync_worktrees st host : own_inv st -> advances st (syncWorktreesFromHost st host).
Proof.
  intros H. unfold syncWorktreesFromHost, projectHostWorktrees.
  match goal with |- context [fold_left delete_worktree ?r (fold_left persistWorktree ?l st)] =>
    set (removed := r); set (rows := l) end.
  destruct (adv_project_rows st host rows H) as (H1 & Q1 & O1).
  { intros w. unfold rows. rewrite in_map_iff. intros ([r c] & <- & _). by exists r, c. }
  assert (forall k, In k removed -> forall v, JsMap.get k (Plane.worktrees st) = Some v -> Worktree.status v <> busy) as Hrem.
  { intros k. unfold removed. rewrite in_map_iff. intros ([j w] & <- & Hin) v Gv. cbn [fst] in *.
    apply filter_In in Hin as [Hin Hp]. cbn [fst snd] in Hp. apply andb_true_iff in Hp as [_ Hp].
    apply (JsMap.In_get _ _ _ (oe_wwf _ _ H)) in Hin. assert (v = w) as -> by congruence.
    apply negb_true_iff, bool_decide_eq_false in Hp. done. }
  assert (own_inv (fold_left delete_worktree removed (fold_left persistWorktree rows st)) /\
          quiet st (fold_left delete_worktree removed (fold_left persistWorktree rows st)) /\
          same_owners st (fold_left delete_worktree removed (fold_left persistWorktree rows st))) as (H2 & Q2 & _);
    [|by apply rows_advance].
  apply (fold_inv (fun st' => own_inv st' /\ quiet st st' /\ same_owners st st')); [|done].
  intros st' k Hin (H' & Q & O). split; [|split].
  - apply own_delete; [done|]. intros v Gv B. destruct (O k v "" Gv B) as (v0 & G0 & B0 & _). by apply (Hrem k Hin v0).
  - eapply quiet_trans; [exact Q|by apply quiet_same].
  - intros j v' x. simpl. rewrite JsMap.get_delete. case_decide; [done|apply O].
Qed.
End hosts.
