(* ===== verification/SessionAdmission.v ===== *)
(** * What enters the queue

    The four ways a session enters the queue ([SessionCreate]): whichever is taken,
    either no stored session changes, or one new session is stored under a fresh id,
    queued and holding nothing.  At most one active session holds a concurrency key,
    the two writings of the create path agree, and a lineage stays within its budget. *)

From Stdlib Require Import ZArith Lia Ascii String.
From stdpp Require Import base strings list.
From S2P Require Import Prelude DateTime Cron Types Ordering TransitionPlanner CommandResume SessionTarget.
From S2P Require Import AccountLeases Placement SessionOutcome Worktrees Assignment CheckoutAssignment Validation.
From S2P Require Import SessionCreate Ownership Evolution.

Local Open Scope string_scope.
Local Open Scope Z_scope.

(** ** Shards *)
Lemma to_int32_range x : -2147483648 <= to_int32 x <= 2147483647.
Proof. unfold to_int32. pose proof (Z.mod_pos_bound (x + 2147483648) 4294967296). lia. Qed.

Lemma hash_from_range s h : -2147483648 <= h <= 2147483647 -> -2147483648 <= hash_from h s <= 2147483647.
Proof. revert h. induction s as [|c s IH]; intros h Hh; [done|]. apply IH, to_int32_range. Qed.

Lemma shard_range st id : 0 < Plane.shardCount st -> 0 <= shard_of st id < Plane.shardCount st.
Proof. intros H. unfold shard_of. pose proof (Z.rem_bound_pos (Z.abs (hashString id)) (Plane.shardCount st)). lia. Qed.

(** ** A new session *)

(** The id the next session takes. *)
Definition next_id (st : ControlPlaneState) : string := Plane.idFactory st (Plane.idsDrawn st).

Record fresh_session (st : ControlPlaneState) (s : SessionRecord) : Prop := {
  fs_id : Session.id s = next_id st;
  fs_queued : Session.status s = queued;
  fs_shard : Session.queueShard s = shard_of st (next_id st);
  fs_created : Session.createdAt s = Plane.now st;
  fs_worktree : Session.worktreeId s = Undef;
  fs_host : Session.hostId s = Undef;
  fs_slot : Session.workspaceSlotId s = Undef;
  fs_checkout : Session.mainCheckoutLease s = None;
  fs_slot_lease : Session.workspaceSlotLease s = None;
  fs_account : Session.providerAccountLease s = None;
  fs_assignment : Session.hostAssignmentLease s = None;
  fs_attempt : Session.attemptId s = None;
  fs_handoff : Session.terminalHookHandoff s = None;
  fs_key : Session.sessionApiKeyHash s = None;
  fs_claim : Session.activeHostId s = None /\ Session.activeHostOrder s = None;
  fs_count : Session.descendantCount s = None;
}.

(** No active session holds its concurrency key. *)
Definition lock_free (st : ControlPlaneState) (s : SessionRecord) : Prop :=
  forall c, Session.concurrencyId s = Some c -> c <> "" -> activeSessionForConcurrency st c = None.

(** Only ids may have been drawn. *)
Definition only_drawn (st st' : ControlPlaneState) : Prop := st' = st \/ st' = (draw_id st).2.

(** What a request answers when it stores nothing. *)
Definition answered (st : ControlPlaneState) (r : Outcome CreateReply) : Prop :=
  forall reply, r = succeeded reply ->
    replyCreated reply = false /\
    exists k a c st', JsMap.get k (Plane.sessions st) = Some a /\ Session.concurrencyId a = Some c /\
      isActiveSessionStatus (Session.status a) = true /\ replySession reply = toPublic st' a true.

Lemma active_some st c a :
  activeSessionForConcurrency st c = Some a ->
  In a (JsMap.values (Plane.sessions st)) /\ Session.concurrencyId a = Some c /\
  isActiveSessionStatus (Session.status a) = true.
Proof.
  unfold activeSessionForConcurrency. intros H. apply List.find_some in H as [Hin H].
  apply andb_true_iff in H as [Hc Ha]. by apply bool_decide_eq_true in Hc.
Qed.

Lemma active_none st c k s :
  activeSessionForConcurrency st c = None -> JsMap.get k (Plane.sessions st) = Some s ->
  Session.concurrencyId s = Some c -> isActiveSessionStatus (Session.status s) = false.
Proof.
  intros H G Hc. apply JsMap.get_In_values in G. apply (List.find_none _ _ H) in G.
  rewrite Hc in G. by rewrite bool_decide_eq_true_2 in G.
Qed.

Section paths.
Context {DP : DateParse}.

(** A path stores nothing, or one new session: [store] says how. *)
Definition enters (store : ControlPlaneState -> SessionRecord -> ControlPlaneState) (st : ControlPlaneState)
    (r : Outcome CreateReply) (st' : ControlPlaneState) : Prop :=
  (only_drawn st st' /\ (JsMap.wf (Plane.sessions st) -> answered st r)) \/
  (exists s, fresh_session st s /\ lock_free st s /\ Session.rootSessionId s = None /\ st' = store (draw_id st).2 s /\
     r = succeeded (mkCreateReply (toPublic st' s true) true)).

Lemma enters_refused store st e c : enters store st (refused e c) st.
Proof. left. split; [by left|]. by intros _ reply. Qed.

Lemma enters_refused_drawn store st e c : enters store st (refused e c) (draw_id st).2.
Proof. left. split; [by right|]. by intros _ reply. Qed.

Lemma enters_threw store st : enters store st threw (draw_id st).2.
Proof. left. split; [by right|]. by intros _ reply. Qed.

Lemma enters_active store st st' c a :
  only_drawn st st' -> activeSessionForConcurrency st c = Some a ->
  enters store st (succeeded (mkCreateReply (toPublic st' a true) false)) st'.
Proof.
  intros Hd H. left. split; [done|]. intros Hwf reply [= <-]. split; [done|].
  apply active_some in H as (Hin & Hc & Ha). destruct (JsMap.In_values_get _ _ Hwf Hin) as [k Hk].
  by exists k, a, c, st'.
Qed.

Lemma truthy_opt_Some' x (c : string) : x = Some c -> c <> "" -> truthy_opt x = Some c.
Proof. intros -> Hc. simpl. by rewrite (proj2 (truthy_true c) Hc). Qed.

Lemma lock_free_of st (s : SessionRecord) lock :
  Session.concurrencyId s = lock -> (c ← truthy_opt lock; activeSessionForConcurrency st c) = None -> lock_free st s.
Proof. intros E H c Hc Hne. rewrite E in Hc. by rewrite (truthy_opt_Some' _ _ Hc Hne) in H. Qed.

Lemma create_enters st body allowScheduleId o :
  enters persistSession st (createSession st body allowScheduleId o).1 (createSession st body allowScheduleId o).2.
Proof.
  unfold createSession. destruct (body_record body) as [record|]; [|apply enters_refused].
  destruct (validateCreateSessionInput _ _) as [v|e]; [|apply enters_refused].
  set (active := c ← truthy_opt (v_concurrencyId v); activeSessionForConcurrency st c).
  assert (Hact : forall a, active = Some a -> exists c, activeSessionForConcurrency st c = Some a).
  { unfold active. intros a. destruct (truthy_opt _) as [c|]; [eauto|done]. }
  destruct (if allowGitHubCommentConcurrencyId o then active else None) as [a|] eqn:Hg.
  { destruct (allowGitHubCommentConcurrencyId o); [|done]. destruct (Hact a Hg) as [c Hc].
    by apply (enters_active _ st st c a); [left|]. }
  destruct (admission_error st v) as [[e c]|]; [apply enters_refused|].
  destruct (resolveTargetDisplayNames _ _ _) as [names|e]; [|apply enters_refused].
  destruct (workspaceCreatePayloadError st v) as [e|]; [apply enters_refused|].
  destruct active as [a|] eqn:Ha.
  { destruct (Hact a eq_refl) as [c Hc]. by apply (enters_active _ st st c a); [left|]. }
  cbn [draw_id]. destruct (iso_after _ _) as [expires|]; [|apply enters_threw].
  right. eexists. split; [|split; [|split; [|split; [reflexivity|reflexivity]]]]; [by split| |done].
  by apply (lock_free_of _ _ (v_concurrencyId v)).
Qed.

Lemma resume_enters st id opts :
  enters persistSession st (resumeSession st id opts).1 (resumeSession st id opts).2.
Proof.
  unfold resumeSession, prepareResumedSession.
  destruct (JsMap.get id (Plane.sessions st)) as [source|]; [|apply enters_refused].
  destruct (resume_checks st source opts) as [[pin routing]|e c|] eqn:Hchk.
  2: apply enters_refused.
  2: { left. split; [by left|]. by intros _ reply. }
  destruct (repoint_names st routing) as [names|e]; [|apply enters_refused].
  destruct (c ← truthy_opt _; activeSessionForConcurrency st c) as [a|] eqn:Ha.
  { destruct (truthy_opt (Session.concurrencyId source)) as [c|]; [|done].
    by apply (enters_active _ st st c a); [left|]. }
  cbn [draw_id]. destruct (match ro_pinExpiresAt opts with None => _ | p => _ end) as [pinned|]; [|apply enters_threw].
  destruct (iso_after _ (Session.queueTtlSeconds source)) as [expires|]; [|apply enters_threw].
  right. eexists. split; [|split; [|split; [|split; [reflexivity|reflexivity]]]]; [| |by destruct names as [[? ?]|]].
  - unfold resumed_session. split; destruct names as [[? ?]|]; done.
  - apply (lock_free_of _ _ (Session.concurrencyId source)); [by destruct names as [[? ?]|]|done].
Qed.

Lemma clone_enters st id opts :
  enters persistSession st (cloneSession st id opts).1 (cloneSession st id opts).2.
Proof.
  unfold cloneSession, prepareClonedSession.
  destruct (JsMap.get id (Plane.sessions st)) as [source|]; [|apply enters_refused].
  destruct (clone_admission st source) as [[e c]|]; [apply enters_refused|].
  destruct (cloned_script _ _) as [script|e]; [|apply enters_refused].
  destruct (validateCloneOverrides _) as [e|]; [apply enters_refused|].
  destruct (resolveTargetDisplayNames _ _ _) as [names|e]; [|apply enters_refused].
  cbn [draw_id]. destruct (iso_after _ _) as [expires|]; [|apply enters_threw].
  destruct (clone_payload_error _ _) as [e|]; [apply enters_refused_drawn|].
  right. eexists. split; [|split; [|split; [|split; [reflexivity|reflexivity]]]]; [by split|by intros c|done].
Qed.

Lemma build_fresh st prepared principal s st' :
  buildSessionRecord st prepared principal = (Some s, st') ->
  st' = (draw_id st).2 /\ fresh_session st s /\
  Session.concurrencyId s = v_concurrencyId (preparedFields prepared).
Proof.
  unfold buildSessionRecord. cbn [draw_id]. destruct (iso_after _ _) as [expires|]; [|done].
  intros [= <- <-]. split; [done|]. split; [by split|]. done.
Qed.

(** [sha256] of the platform. *)
Context (sha256_hex : string -> string).

(** The child is stored and counted on the root of its lineage. *)
Definition store_child (st : ControlPlaneState) (s : SessionRecord) : ControlPlaneState :=
  let rootId := opt_or (Session.rootSessionId s) "" in
  match JsMap.get rootId (Plane.sessions st) with
  | Some root =>
      let st1 := update_session st (Session.id s) s in
      if str_eqb (Session.id s) rootId then st1
      else update_session st1 rootId
             (root <| Session.descendantCount := Some (opt_or (Session.descendantCount root) 0 + 1) |>)
  | None => st
  end.

Definition lineage_open (st : ControlPlaneState) (s : SessionRecord) : Prop :=
  exists root, JsMap.get (opt_or (Session.rootSessionId s) "") (Plane.sessions st) = Some root /\
    opt_or (Session.descendantCount root) 0 < MAX_SESSION_DESCENDANTS.

Lemma prepare_child_fresh st parent body s st' :
  prepareChild sha256_hex st parent body = (succeeded s, st') ->
  st' = (draw_id st).2 /\ fresh_session st s /\ Session.parentSessionId s = Some (Session.id parent) /\
  Session.rootSessionId s = Some (opt_or (Session.rootSessionId parent) (Session.id parent)).
Proof.
  unfold prepareChild. destruct (_ && _); [done|].
  destruct (childInput _ parent body) as [input|]; [|done]. destruct (_ <? _); [done|].
  destruct (validateSessionCreate _ _ _ _ _) as [prepared| |]; [|done|done].
  destruct (buildSessionRecord st prepared _) as [[child|] st1] eqn:E; [|done].
  apply build_fresh in E as (-> & Hf & _). intros [= <- <-]. split; [done|]. split; [|done].
  destruct Hf. by split.
Qed.

Lemma prepare_child_state st parent body :
  only_drawn st (prepareChild sha256_hex st parent body).2.
Proof.
  unfold prepareChild. destruct (_ && _); [by left|].
  destruct (childInput _ parent body) as [input|]; [|by left]. destruct (_ <? _); [by left|].
  destruct (validateSessionCreate _ _ _ _ _) as [prepared| |]; [|by left|by left].
  unfold buildSessionRecord. cbn [draw_id]. destruct (iso_after _ _); by right.
Qed.

Lemma only_drawn_sessions st st' : only_drawn st st' -> Plane.sessions st' = Plane.sessions st.
Proof. by intros [-> | ->]. Qed.

(** The child path: as the others, and a child is stored only within the budget of its root. *)
Lemma child_enters st parentId body principal credential :
  let out := createSessionChild sha256_hex st parentId body principal credential in
  (only_drawn st out.2 /\ (JsMap.wf (Plane.sessions st) -> answered st out.1)) \/
  (exists s, fresh_session st s /\ lock_free st s /\ lineage_open st s /\
     is_some (Session.rootSessionId s) = true /\ out.2 = store_child (draw_id st).2 s /\
     out.1 = succeeded (mkCreateReply (toPublic out.2 s true) true)).
Proof.
  assert (Hno : forall r st', only_drawn st st' -> (forall x, r <> succeeded x) ->
    only_drawn st st' /\ (JsMap.wf (Plane.sessions st) -> answered st r)).
  { intros r st' Hd Hr. split; [done|]. intros _ x Hx. by destruct (Hr x). }
  unfold createSessionChild. destruct (JsMap.get parentId _) as [parent|]; [|left; by apply Hno; [left|]].
  pose proof (prepare_child_state st parent body) as Hst.
  destruct (prepareChild sha256_hex st parent body) as [[prepared|e c|] st1] eqn:Hp; cbn [snd] in Hst;
    [|left; by apply Hno|left; by apply Hno].
  apply prepare_child_fresh in Hp as (-> & Hf & Hpar & Hroot).
  set (owner := opt_else principal _). set (rootId := opt_or (Session.rootSessionId prepared) "").
  set (child := match truthy_opt owner with Some o => _ | None => prepared end).
  assert (Hfc : fresh_session st child) by (destruct Hf; unfold child; destruct (truthy_opt owner); by split).
  assert (Hrc : Session.rootSessionId child = Session.rootSessionId prepared)
    by (unfold child; by destruct (truthy_opt owner)).
  clearbody child. cbv zeta. destruct (match truthy_opt credential with Some _ => _ | None => _ end);
    [left; by apply Hno|].
  destruct (c ← Session.concurrencyId child; _) as [dup|] eqn:Hdup.
  { destruct (Session.concurrencyId child) as [c|]; [|done]. cbn in Hdup.
    destruct (enters_active store_child st (draw_id st).2 c dup) as [?|(s & _ & _ & _ & _ & [=])]; [by right|done|].
    by left. }
  unfold rootId. rewrite <- Hrc. clear rootId.
  destruct (JsMap.get _ _) as [root|] eqn:Gr; [|left; by apply Hno].
  destruct (MAX_SESSION_DESCENDANTS <=? _) eqn:Eb; [left; by apply Hno|].
  right. exists child. split; [done|]. split; [|split; [|split; [by rewrite Hrc, Hroot|]]].
  - intros c Hc _. by rewrite Hc in Hdup.
  - exists root. split; [exact Gr|lia].
  - unfold store_child. rewrite Gr. cbn [fst snd]. split; [done|]. by destruct (str_eqb _ _).
Qed.

(** ** Every path *)
Inductive AdmissionRequest :=
| req_create (body : json) (allowScheduleId : bool) (o : CreateOptions)
| req_resume (sessionId : string) (opts : ResumeOptions)
| req_clone (sessionId : string) (opts : list (string * json))
| req_child (parentId : string) (body : json) (principalId credentialHash : option string).

Definition enter_request (st : ControlPlaneState) (req : AdmissionRequest) : Outcome CreateReply * ControlPlaneState :=
  match req with
  | req_create body allowScheduleId o => createSession st body allowScheduleId o
  | req_resume id opts => resumeSession st id opts
  | req_clone id opts => cloneSession st id opts
  | req_child parentId body principal credential => createSessionChild sha256_hex st parentId body principal credential
  end.

(** The same session, but for its count of descendants. *)
Definition same_but_count (s s' : SessionRecord) : Prop :=
  s' <| Session.descendantCount := None |> = s <| Session.descendantCount := None |>.

Lemma fresh_persists st s : fresh_session st s -> sessionForPersistence s = s.
Proof.
  intros [_ Hq _ _ _ _ _ _ _ _ _ _ _ Hk [Ha Ho] _]. unfold sessionForPersistence, retainsActiveHostClaim.
  rewrite Hq. cbn. destruct s. cbn in *. by subst.
Qed.

(** The state with its sessions and its id counter as before. *)
Definition other_state (st st' : ControlPlaneState) : Prop :=
  st' <| Plane.sessions := Plane.sessions st |> <| Plane.idsDrawn := Plane.idsDrawn st |> = st.

(** A new session [s] is stored, and a root may count it. *)
Record stored (st st' : ControlPlaneState) (s : SessionRecord) : Prop := {
  st_new : JsMap.get (next_id st) (Plane.sessions st') = Some s;
  st_old : forall k s0, k <> next_id st -> JsMap.get k (Plane.sessions st) = Some s0 ->
    exists s1, JsMap.get k (Plane.sessions st') = Some s1 /\ same_but_count s0 s1;
  st_none : forall k, k <> next_id st -> JsMap.get k (Plane.sessions st) = None ->
    JsMap.get k (Plane.sessions st') = None;
}.

Lemma persist_stored st s : fresh_session st s -> stored st (persistSession (draw_id st).2 s) s.
Proof.
  intros Hf. unfold persistSession. rewrite (fresh_persists st s Hf), (fs_id _ _ Hf). cbn [draw_id snd update_session].
  split; cbn.
  - apply JsMap.get_set_eq.
  - intros k s0 Hk G. exists s0. split; [by rewrite JsMap.get_set_ne|done].
  - intros k Hk G. by rewrite JsMap.get_set_ne.
Qed.

Lemma child_stored st s : fresh_session st s -> lineage_open st s -> JsMap.get (next_id st) (Plane.sessions st) = None ->
  stored st (store_child (draw_id st).2 s) s.
Proof.
  intros Hf (root & Gr & _) Hnew. unfold store_child. cbn [draw_id snd].
  change (Plane.sessions (st <| Plane.idsDrawn := _ |>)) with (Plane.sessions st). rewrite Gr.
  rewrite (fs_id _ _ Hf). set (rootId := opt_or (Session.rootSessionId s) "") in *.
  assert (Hne : next_id st <> rootId) by congruence.
  destruct (str_eqb (next_id st) rootId) eqn:E; [by apply str_eqb_true in E|].
  cbn [update_session]. split; cbn.
  - rewrite JsMap.get_set_ne by done. apply JsMap.get_set_eq.
  - intros k s0 Hk G. rewrite JsMap.get_set. case_decide as Hr.
    + subst k. eexists. split; [done|]. assert (root = s0) as -> by congruence. done.
    + rewrite JsMap.get_set_ne by done. by exists s0.
  - intros k Hk G. rewrite JsMap.get_set. case_decide; [congruence|]. by rewrite JsMap.get_set_ne.
Qed.

Lemma only_drawn_other st st' : only_drawn st st' -> other_state st st'.
Proof. intros [-> | ->]; unfold other_state; by destruct st. Qed.

(** The shape of every path. *)
Lemma admission_shape st req :
  JsMap.get (next_id st) (Plane.sessions st) = None ->
  let out := enter_request st req in
  other_state st out.2 /\
  ((Plane.sessions out.2 = Plane.sessions st /\ (JsMap.wf (Plane.sessions st) -> answered st out.1)) \/
   (exists s, fresh_session st s /\ lock_free st s /\ stored st out.2 s /\
      out.1 = succeeded (mkCreateReply (toPublic out.2 s true) true))).
Proof.
  intros Hnew. cbv zeta.
  assert (He : forall r st', enters persistSession st r st' ->
    other_state st st' /\
    ((Plane.sessions st' = Plane.sessions st /\ (JsMap.wf (Plane.sessions st) -> answered st r)) \/
     (exists s, fresh_session st s /\ lock_free st s /\ stored st st' s /\
        r = succeeded (mkCreateReply (toPublic st' s true) true)))).
  { intros r st' [[Hd Ha]|(s & Hf & Hl & _ & -> & ->)].
    - split; [by apply only_drawn_other|]. left. split; [by apply only_drawn_sessions|done].
    - split; [unfold other_state; by destruct st|]. right. exists s.
      split; [done|]. split; [done|]. split; [by apply persist_stored|done]. }
  destruct req as [body a o|id opts|id opts|parentId body principal credential]; cbn [enter_request].
  - apply He, create_enters.
  - apply He, resume_enters.
  - apply He, clone_enters.
  - destruct (child_enters st parentId body principal credential) as [[Hd Ha]|(s & Hf & Hl & Ho & _ & Est & Er)].
    + split; [by apply only_drawn_other|]. left. split; [by apply only_drawn_sessions|done].
    + split.
      { rewrite Est. unfold other_state, store_child. destruct Ho as (root & Gr & _). cbn [draw_id snd].
        change (Plane.sessions (st <| Plane.idsDrawn := _ |>)) with (Plane.sessions st). rewrite Gr.
        destruct (str_eqb _ _); by destruct st. }
      right. exists s. split; [done|]. split; [done|]. split; [|done]. rewrite Est. by apply child_stored.
Qed.

(** [C10] Whatever the request (a create body, a resume, a clone, a child) and whatever its
    outcome, nothing but the sessions and the id counter changes.  Either every stored session
    is as it was, and a reply that reports success then shows an active session already
    stored; or exactly one new session is stored, under the drawn id, queued, in a shard the
    scheduler scans, with no worktree, slot, checkout, lease, attempt, credential or pending
    hook, and the others differ at most in their count of descendants. *)
Theorem admission_paths_sound st req :
  0 < Plane.shardCount st -> JsMap.wf (Plane.sessions st) ->
  JsMap.get (next_id st) (Plane.sessions st) = None ->
  let out := enter_request st req in
  other_state st out.2 /\
  ((Plane.sessions out.2 = Plane.sessions st /\ answered st out.1) \/
   (exists s, fresh_session st s /\ 0 <= Session.queueShard s < Plane.shardCount st /\ stored st out.2 s /\
      out.1 = succeeded (mkCreateReply (toPublic out.2 s true) true))).
Proof.
  intros Hsh Hwf Hnew. destruct (admission_shape st req Hnew) as [Ho H]. cbv zeta. split; [done|].
  destruct H as [[Hs Ha]|(s & Hf & _ & Hst & Hr)]; [left; auto|]. right. exists s. split; [done|].
  split; [|done]. rewrite (fs_shard _ _ Hf). by apply shard_range.
Qed.

(** ** Concurrency keys *)
Definition keys_exclusive (st : ControlPlaneState) : Prop :=
  forall k1 k2 s1 s2 c,
    JsMap.get k1 (Plane.sessions st) = Some s1 -> JsMap.get k2 (Plane.sessions st) = Some s2 ->
    isActiveSessionStatus (Session.status s1) = true -> isActiveSessionStatus (Session.status s2) = true ->
    Session.concurrencyId s1 = Some c -> Session.concurrencyId s2 = Some c -> c <> "" -> k1 = k2.

Lemma same_but_count_key s s' : same_but_count s s' ->
  Session.concurrencyId s' = Session.concurrencyId s /\ Session.status s' = Session.status s.
Proof.
  intros H. split; [exact (f_equal Session.concurrencyId H)|exact (f_equal Session.status H)].
Qed.

(** Where a session of the new state comes from. *)
Lemma stored_origin st st' s k s1 :
  stored st st' s -> JsMap.get k (Plane.sessions st') = Some s1 ->
  (k = next_id st /\ s1 = s) \/
  (exists s0, JsMap.get k (Plane.sessions st) = Some s0 /\ same_but_count s0 s1).
Proof.
  intros [Hn Ho Hnone] G. destruct (decide (k = next_id st)) as [->|Hk]; [left; split; congruence|].
  right. destruct (JsMap.get k (Plane.sessions st)) as [s0|] eqn:G0.
  - destruct (Ho k s0 Hk G0) as (s2 & G2 & E). exists s0. split; [done|]. by assert (s2 = s1) as <- by congruence.
  - rewrite (Hnone k Hk G0) in G. done.
Qed.

(** [C11] At most one active session holds a concurrency key: if that is so before a request
    and the drawn id is new, it is so after it, on every path. *)
Theorem concurrency_key_exclusive st req :
  keys_exclusive st -> JsMap.get (next_id st) (Plane.sessions st) = None ->
  keys_exclusive (enter_request st req).2.
Proof.
  intros He Hnew. destruct (admission_shape st req Hnew) as [_ [[Hs _]|(s & Hf & Hl & Hst & _)]].
  { unfold keys_exclusive. by rewrite Hs. }
  assert (Hnone : forall k s0 s1 c, JsMap.get k (Plane.sessions st) = Some s0 -> same_but_count s0 s1 ->
    Session.concurrencyId s = Some c -> Session.concurrencyId s1 = Some c -> c <> "" ->
    isActiveSessionStatus (Session.status s1) = true -> False).
  { intros k s0 s1 c G E Hc Hc1 Hne Ha. destruct (same_but_count_key _ _ E) as [Ec Es].
    rewrite Es, (active_none st c k s0 (Hl c Hc Hne) G) in Ha; [done|congruence]. }
  intros k1 k2 s1 s2 c G1 G2 A1 A2 C1 C2 Hne.
  destruct (stored_origin _ _ _ _ _ Hst G1) as [[-> ->]|(t1 & H1 & E1)];
    destruct (stored_origin _ _ _ _ _ Hst G2) as [[-> ->]|(t2 & H2 & E2)].
  - done.
  - exfalso. by eapply (Hnone k2 t2 s2 c).
  - exfalso. by eapply (Hnone k1 t1 s1 c).
  - destruct (same_but_count_key _ _ E1), (same_but_count_key _ _ E2).
    apply (He k1 k2 t1 t2 c); congruence.
Qed.

(** ** The two writings of the create path *)

(** The active session a create body names by its key. *)
Definition active_for_body (st : ControlPlaneState) (body : json) (o : CreateOptions) : option SessionRecord :=
  record ← body_record body;
  match validateCreateSessionInput (create_input record false) o with
  | valid v => c ← truthy_opt (v_concurrencyId v); activeSessionForConcurrency st c
  | invalid _ => None
  end.

(** Creation through [validateSessionCreate] and [buildSessionRecord]. *)
Definition create_via_record (st : ControlPlaneState) (body : json) (allowScheduleId : bool) (o : CreateOptions)
    : Outcome CreateReply * ControlPlaneState :=
  match validateSessionCreate st body allowScheduleId false o with
  | refused e c => (refused e c, st)
  | threw => (threw, st)
  | succeeded prepared =>
      match active_for_body st body o with
      | Some a => (succeeded (mkCreateReply (toPublic st a true) false), st)
      | None =>
          match buildSessionRecord st prepared None with
          | (Some s, st) => let st := persistSession st s in (succeeded (mkCreateReply (toPublic st s true) true), st)
          | (None, st) => (threw, st)
          end
      end
  end.

Lemma no_principal s : Session.principalId s = None -> s <| Session.principalId := None |> = s.
Proof. destruct s. cbn. by intros ->. Qed.

(** [C12] The local create path and the record builder of the durable one are the same
    function of the request: same checks in the same order, same errors, same record.  The
    only difference is GitHub ingress, which first answers with the active session of the
    delivery, whatever the admission of the repository. *)
Theorem create_paths_agree st body allowScheduleId o :
  createSession st body allowScheduleId o =
  match (if allowGitHubCommentConcurrencyId o then active_for_body st body o else None) with
  | Some a => (succeeded (mkCreateReply (toPublic st a true) false), st)
  | None => create_via_record st body allowScheduleId o
  end.
Proof.
  unfold createSession, create_via_record, active_for_body, validateSessionCreate.
  destruct (body_record body) as [record|]; [|by destruct (allowGitHubCommentConcurrencyId o)].
  cbn [mbind option_bind].
  destruct (validateCreateSessionInput _ _) as [v|e]; [|by destruct (allowGitHubCommentConcurrencyId o)].
  destruct (if allowGitHubCommentConcurrencyId o then _ else None) as [a|]; [done|].
  destruct (admission_error st v) as [[e c]|]; [done|].
  destruct (resolveTargetDisplayNames _ _ _) as [names|e]; [|done].
  destruct (workspaceCreatePayloadError st v) as [e|]; [done|].
  destruct (c ← truthy_opt _; _) as [a|]; [done|].
  unfold buildSessionRecord. cbn [draw_id preparedFields preparedNames preparedScheduleId].
  destruct (iso_after _ _) as [expires|]; [|done].
  unfold create_record, schedule_of.
  destruct (truthy_opt (v_workspacePoolId v)) as [p|]; cbn [is_some mbind option_bind truthy_opt];
    (rewrite no_principal by reflexivity); reflexivity.
Qed.

(** ** The budget of a lineage *)
Definition of_root (rootId : string) (s : SessionRecord) : bool := bool_decide (Session.rootSessionId s = Some rootId).

Definition descendants (st : ControlPlaneState) (rootId : string) : nat :=
  length (List.filter (of_root rootId) (JsMap.values (Plane.sessions st))).

(** Every stored root counts its descendants, and no root is over its budget. *)
Record budget_ok (st : ControlPlaneState) : Prop := {
  bo_wf : JsMap.wf (Plane.sessions st);
  bo_stored : forall k s r, JsMap.get k (Plane.sessions st) = Some s -> Session.rootSessionId s = Some r ->
    is_some (JsMap.get r (Plane.sessions st)) = true;
  bo_count : forall k s, JsMap.get k (Plane.sessions st) = Some s ->
    Z.of_nat (descendants st k) <= opt_or (Session.descendantCount s) 0 <= MAX_SESSION_DESCENDANTS;
}.

Lemma values_set_new {V} k (v : V) m : JsMap.get k m = None -> JsMap.values (JsMap.set k v m) = (JsMap.values m ++ [v])%list.
Proof.
  induction m as [|[j w] m IH]; cbn; [done|]. destruct (str_eqb k j); [done|]. intros H. cbn. f_equal. by apply IH.
Qed.

Lemma count_set_same {V} (p : V -> bool) k v v0 m :
  JsMap.get k m = Some v0 -> p v = p v0 ->
  length (List.filter p (JsMap.values (JsMap.set k v m))) = length (List.filter p (JsMap.values m)).
Proof.
  unfold JsMap.values. intros G E.
  induction m as [|[j w] m IH]; cbn [JsMap.get JsMap.set map List.filter snd] in *; [done|].
  destruct (str_eqb k j); cbn [map List.filter snd].
  - injection G as ->. rewrite E. by destruct (p v0).
  - destruct (p w); cbn [length]; by rewrite IH.
Qed.

Lemma count_set_new {V} (p : V -> bool) k v m :
  JsMap.get k m = None ->
  length (List.filter p (JsMap.values (JsMap.set k v m))) =
  (length (List.filter p (JsMap.values m)) + if p v then 1 else 0)%nat.
Proof.
  intros G. rewrite values_set_new by done. rewrite List.filter_app, length_app. cbn. by destruct (p v).
Qed.

Lemma no_descendants st r : budget_ok st -> JsMap.get r (Plane.sessions st) = None -> descendants st r = 0%nat.
Proof.
  intros Hb G. unfold descendants. destruct (List.filter _ _) as [|s l] eqn:E; [done|].
  assert (Hin : In s (List.filter (of_root r) (JsMap.values (Plane.sessions st)))) by (rewrite E; by left).
  apply filter_In in Hin as [Hin Hr]. apply bool_decide_eq_true in Hr.
  destruct (JsMap.In_values_get _ _ (bo_wf _ Hb) Hin) as [k Gk].
  pose proof (bo_stored _ Hb k s r Gk Hr) as H. by rewrite G in H.
Qed.

Lemma sessions_update st k s : Plane.sessions (update_session st k s) = JsMap.set k s (Plane.sessions st).
Proof. done. Qed.

Lemma sessions_drawn st : Plane.sessions (st <| Plane.idsDrawn := Plane.idsDrawn st + 1 |>) = Plane.sessions st.
Proof. done. Qed.

(** A session without a lineage. *)
Lemma budget_root st s :
  budget_ok st -> fresh_session st s -> Session.rootSessionId s = None ->
  JsMap.get (next_id st) (Plane.sessions st) = None ->
  budget_ok (persistSession (draw_id st).2 s).
Proof.
  intros Hb Hf Hr Hnew. unfold persistSession. rewrite (fresh_persists st s Hf), (fs_id _ _ Hf). cbn [draw_id snd].
  set (m := Plane.sessions st) in *.
  assert (Hcount : forall r, descendants (update_session (st <| Plane.idsDrawn := Plane.idsDrawn st + 1 |>) (next_id st) s) r
    = descendants st r).
  { intros r. unfold descendants. rewrite sessions_update, sessions_drawn. rewrite count_set_new by done.
    unfold of_root at 2. rewrite Hr. rewrite bool_decide_eq_false_2 by done. by rewrite Nat.add_0_r. }
  split; rewrite ?sessions_update, ?sessions_drawn; fold m.
  - apply JsMap.wf_set, Hb.
  - intros k t r. rewrite !JsMap.get_set. case_decide as E1; case_decide as E2; try done.
    + intros [= <-]. congruence.
    + by apply (bo_stored _ Hb).
  - intros k t. rewrite JsMap.get_set. rewrite Hcount. case_decide as E; [|by apply (bo_count _ Hb)].
    intros [= <-]. subst k. rewrite (no_descendants st) by done. rewrite (fs_count _ _ Hf). done.
Qed.

Lemma budget_child st s :
  budget_ok st -> fresh_session st s -> lineage_open st s -> is_some (Session.rootSessionId s) = true ->
  JsMap.get (next_id st) (Plane.sessions st) = None ->
  budget_ok (store_child (draw_id st).2 s).
Proof.
  intros Hb Hf (root & Gr & Hlt) Hr Hnew.
  destruct (Session.rootSessionId s) as [rootId|] eqn:Er; [|done]. cbn [opt_or] in Gr.
  unfold store_child. rewrite Er. cbn [draw_id snd opt_or].
  change (Plane.sessions (st <| Plane.idsDrawn := _ |>)) with (Plane.sessions st). rewrite Gr.
  rewrite (fs_id _ _ Hf). assert (Hne : next_id st <> rootId) by congruence.
  destruct (str_eqb (next_id st) rootId) eqn:E; [by apply str_eqb_true in E|].
  set (m := Plane.sessions st) in *.
  set (root' := root <| Session.descendantCount := Some (opt_or (Session.descendantCount root) 0 + 1) |>).
  set (m1 := JsMap.set (next_id st) s m).
  assert (G1 : JsMap.get rootId m1 = Some root) by (unfold m1; by rewrite JsMap.get_set_ne).
  assert (Hcount : forall r, descendants (update_session (update_session (st <| Plane.idsDrawn := Plane.idsDrawn st + 1 |>)
    (next_id st) s) rootId root') r = (descendants st r + if decide (rootId = r) then 1 else 0)%nat).
  { intros r. unfold descendants. rewrite !sessions_update, sessions_drawn. fold m m1. rewrite (count_set_same _ _ _ root m1) by done.
    unfold m1. rewrite count_set_new by done. f_equal. unfold of_root. rewrite Er.
    destruct (decide (rootId = r)) as [->|]; [by rewrite bool_decide_eq_true_2|].
    by rewrite bool_decide_eq_false_2 by congruence. }
  split; rewrite ?sessions_update, ?sessions_drawn; fold m m1.
  - by do 2 apply JsMap.wf_set; apply Hb.
  - intros k t r Gk Hk. rewrite JsMap.get_set. case_decide; [done|]. unfold m1. rewrite JsMap.get_set. case_decide; [done|].
    rewrite JsMap.get_set in Gk. case_decide.
    + injection Gk as <-. apply (bo_stored _ Hb rootId root r); [done|exact Hk].
    + unfold m1 in Gk. rewrite JsMap.get_set in Gk. case_decide; [|by apply (bo_stored _ Hb k t)].
      injection Gk as <-. congruence.
  - intros k t Gk. rewrite Hcount. rewrite JsMap.get_set in Gk. case_decide as Ek.
    + injection Gk as <-. subst k. cbn. pose proof (bo_count _ Hb rootId root Gr). lia.
    + unfold m1 in Gk. rewrite JsMap.get_set in Gk. case_decide as En.
      * injection Gk as <-. subst k. rewrite (no_descendants st) by done. by rewrite (fs_count _ _ Hf).
      * pose proof (bo_count _ Hb k t Gk). lia.
Qed.

(** [C13] A lineage stays within its budget: while every root counts its descendants and none
    is over 64, no request (create, resume, clone or child) breaks that, so a root never has
    more than 64 stored descendants, however deep they are spawned. *)
Theorem lineage_budget st req :
  budget_ok st -> JsMap.get (next_id st) (Plane.sessions st) = None ->
  budget_ok (enter_request st req).2 /\
  forall root, (descendants (enter_request st req).2 root <= 64)%nat.
Proof.
  intros Hb Hnew.
  assert (Hb' : budget_ok (enter_request st req).2).
  { assert (Hd : forall st', only_drawn st st' -> budget_ok st').
    { intros st' [-> | ->]; [done|]. destruct Hb. by split. }
    assert (He : forall r st', enters persistSession st r st' -> budget_ok st').
    { intros r st' [[H _]|(s & Hf & _ & Hr & -> & _)]; [by apply Hd|by apply budget_root]. }
    destruct req as [body a o|id opts|id opts|parentId body principal credential]; cbn [enter_request].
    - eapply He, create_enters.
    - eapply He, resume_enters.
    - eapply He, clone_enters.
    - destruct (child_enters st parentId body principal credential) as [[H _]|(s & Hf & _ & Ho & Hr & -> & _)];
        [by apply Hd|by apply budget_child]. }
  split; [done|]. intros root.
  destruct (JsMap.get root (Plane.sessions (enter_request st req).2)) as [s|] eqn:G.
  - pose proof (bo_count _ Hb' root s G) as Hc. unfold MAX_SESSION_DESCENDANTS in Hc. lia.
  - rewrite (no_descendants _ _ Hb' G). lia.
Qed.
End paths.

(** ** Witnesses *)
#[local] Existing Instance iso_date_parse.

Definition example_body : json :=
  JObject [("repositoryId", JString "repo"); ("prompt", JString "deploy"); ("timeout", JNumber 600);
           ("target", JObject [("commandId", JString "cmd-wt")]); ("concurrencyId", JString "deploy")].

Definition example_create : AdmissionRequest := req_create example_body false (mkCreateOptions false false).

(** A child of the session of the plane. *)
Definition example_child : AdmissionRequest :=
  req_child "s1" (JObject [("prompt", JString "look"); ("spawnKey", JString "k1")]) (Some "alice") None.

Definition parent_state : ControlPlaneState :=
  example_state <| Plane.sessions := [("s1", example_queued <| Session.status := running |>)] |>.

(** Any digest will do. *)
Definition length_digest (s : string) : string := number_string (slen s).

Example example_created :
  (fun r => match r with succeeded reply => Some (replyCreated reply) | _ => None end)
    (enter_request length_digest example_state example_create).1 = Some true /\
  Session.queueExpiresAt <$> JsMap.get "id-0" (Plane.sessions (enter_request length_digest example_state example_create).2)
    = Some "2026-01-09T00:05:00.000Z".
Proof. vm_compute. split; reflexivity. Qed.

Example example_refused :
  let closed := example_state <| Plane.repositories :=
    [("repo", example_repository <| Repo.admissionState := Some "paused" |>)] |> in
  exists e, (enter_request length_digest closed example_create).1 = refused e (Some "REPOSITORY_ADMISSION_CLOSED").
Proof. eexists. vm_compute. reflexivity. Qed.

Lemma admission_paths_sound_witness :
  Session.status <$> JsMap.get "id-0" (Plane.sessions (enter_request length_digest example_state example_create).2)
    = Some queued /\
  other_state example_state (enter_request length_digest example_state example_create).2.
Proof.
  split; [vm_compute; reflexivity|].
  apply (admission_paths_sound length_digest example_state example_create).
  - vm_compute. reflexivity.
  - apply (bool_decide_unpack _). vm_compute. exact I.
  - vm_compute. reflexivity.
Defined.

Lemma example_keys_exclusive : keys_exclusive example_state.
Proof.
  intros k1 k2 s1 s2 c G1 G2 _ _ _ _ _. simpl in G1, G2.
  destruct (str_eqb k1 "s1") eqn:E1; [|done]. destruct (str_eqb k2 "s1") eqn:E2; [|done].
  apply str_eqb_true in E1, E2. congruence.
Qed.

Lemma concurrency_key_exclusive_witness :
  let st1 := (enter_request length_digest example_state example_create).2 in
  keys_exclusive st1 /\
  length (Plane.sessions st1) = 2%nat /\
  Plane.sessions (enter_request length_digest st1 example_create).2 = Plane.sessions st1.
Proof.
  split; [|split; vm_compute; reflexivity].
  apply (concurrency_key_exclusive length_digest example_state example_create example_keys_exclusive).
  vm_compute. reflexivity.
Defined.

Lemma parent_budget : budget_ok parent_state.
Proof.
  split.
  - apply (bool_decide_unpack _). vm_compute. exact I.
  - intros k s r. simpl. destruct (str_eqb k "s1"); [|done]. by intros [= <-].
  - intros k s G. assert (k = "s1" /\ Session.descendantCount s = None) as [-> ->].
    { revert G. simpl. destruct (str_eqb k "s1") eqn:E; [|done]. apply str_eqb_true in E.
      intros [= <-]. by split. }
    by vm_compute.
Qed.

Lemma lineage_budget_witness :
  budget_ok (enter_request length_digest parent_state example_child).2 /\
  descendants (enter_request length_digest parent_state example_child).2 "s1" = 1%nat.
Proof.
  split; [|vm_compute; reflexivity].
  apply (lineage_budget length_digest parent_state example_child parent_budget).
  vm_compute. reflexivity.
Defined.
