(* ===== verification/WorkspaceFrame.v ===== *)
(** * The admission frame of a workspace session

    A workspace session is admitted only if the frame that would assign it, built with
    512-byte ids, fits the control channel (control-plane-session-create.ts); the
    scheduler measures the frame it really sends (control-plane-workspace-assign.ts).
    The second carries members the first leaves out: the slack of the reserved ids
    covers them, so an admitted session is never passed over for the size of its frame. *)

From Stdlib Require Import ZArith Lia Ascii String.
From stdpp Require Import base strings list.
From S2P Require Import Prelude DateTime Cron Types Ordering TransitionPlanner ProviderCascade CommandResume SessionTarget.
From S2P Require Import AccountLeases Placement SessionOutcome LogSettings Worktrees Assignment CheckoutAssignment Validation.
From S2P Require Import SessionCreate SessionAdmission CheckoutPass.

Local Open Scope string_scope.
Local Open Scope Z_scope.

(** ** Sizes *)
Definition size (v : json) : Z := utf8_length (stringify v).
Definition quoted (s : string) : Z := utf8_length (json_quote s).

(** The members of an object, each with its separator. *)
Fixpoint members_size (entries : list (string * json)) : Z :=
  match entries with [] => 0 | e :: rest => quoted e.1 + size e.2 + 2 + members_size rest end.

Fixpoint items_size (items : list json) : Z :=
  match items with [] => 0 | v :: rest => size v + 1 + items_size rest end.

Lemma members_size_app a b : members_size (a ++ b)%list = members_size a + members_size b.
Proof. induction a as [|e a IH]; cbn [members_size app]; lia. Qed.

Lemma items_size_app a b : items_size (a ++ b)%list = items_size a + items_size b.
Proof. induction a as [|e a IH]; cbn [items_size app]; lia. Qed.

Lemma concat_cons sep x y l : String.concat sep (x :: y :: l) = x ++ sep ++ String.concat sep (y :: l).
Proof. done. Qed.

Lemma object_size e entries : size (JObject (e :: entries)) = 1 + members_size (e :: entries).
Proof.
  unfold size. cbn [stringify]. rewrite !utf8_length_app.
  change (utf8_length "{") with 1. change (utf8_length "}") with 1.
  cut (forall e, utf8_length (String.concat "," (map (fun e => json_quote e.1 ++ ":" ++ stringify e.2) (e :: entries)))
       = members_size (e :: entries) - 1); [intros H; rewrite H; lia|].
  clear e. induction entries as [|e' entries IH]; intros e.
  - cbn [map String.concat members_size]. rewrite !utf8_length_app. unfold quoted, size.
    change (utf8_length ":") with 1. lia.
  - cbn [map]. rewrite concat_cons. change (_ :: map _ entries) with (map (fun e => json_quote e.1 ++ ":" ++ stringify e.2) (e' :: entries)).
    rewrite !utf8_length_app, IH. cbn [members_size]. unfold quoted, size. change (utf8_length ":") with 1.
    change (utf8_length ",") with 1. lia.
Qed.

Lemma array_size v items : size (JArray (v :: items)) = 1 + items_size (v :: items).
Proof.
  unfold size. cbn [stringify]. rewrite !utf8_length_app.
  change (utf8_length "[") with 1. change (utf8_length "]") with 1.
  cut (forall v, utf8_length (String.concat "," (map stringify (v :: items))) = items_size (v :: items) - 1);
    [intros H; rewrite H; lia|].
  clear v. induction items as [|v' items IH]; intros v.
  - cbn [map String.concat items_size]. unfold size. lia.
  - cbn [map]. rewrite concat_cons. change (_ :: map _ items) with (map stringify (v' :: items)).
    rewrite !utf8_length_app, IH. cbn [items_size]. unfold size. change (utf8_length ",") with 1. lia.
Qed.

Lemma json_chars_app a b : json_chars (a ++ b) = json_chars a ++ json_chars b.
Proof.
  induction a as [|c a IH]; [done|].
  change (json_escape c ++ json_chars (a ++ b) = (json_escape c ++ json_chars a) ++ json_chars b).
  rewrite IH. generalize (json_escape c). intros e.
  induction e as [|d e IHe]; [done|]. by apply (f_equal (String d)).
Qed.

Lemma quoted_app a b : quoted (a ++ b) = quoted a + utf8_length (json_chars b).
Proof. unfold quoted, json_quote. rewrite json_chars_app, !utf8_length_app. lia. Qed.

(** A non-negative number below [10^k] takes at most [k] bytes. *)
Lemma decimal_bytes f : forall (k : nat) n, 0 <= n < 10 ^ Z.of_nat k -> (0 < k)%nat ->
  utf8_length (decimal_digits f n) <= Z.of_nat k.
Proof.
  induction f as [|f IH]; intros k n Hn Hk; [cbn; lia|]. cbn [decimal_digits].
  assert (Hd : forall d, 0 <= d < 10 -> utf8_length (String (ascii_of_N (Z.to_N (48 + d))) "") = 1).
  { intros d Hd. assert (d = 0 \/ d = 1 \/ d = 2 \/ d = 3 \/ d = 4 \/ d = 5 \/ d = 6 \/ d = 7 \/ d = 8 \/ d = 9)
      as H by lia. decompose [or] H; subst d; reflexivity. }
  pose proof (Z.mod_pos_bound n 10).
  destruct (n <? 10) eqn:E; [rewrite Hd by lia; lia|].
  rewrite utf8_length_app, Hd by lia. destruct k as [|[|k]]; [lia|change (10 ^ Z.of_nat 1) with 10 in Hn; lia|].
  assert (utf8_length (decimal_digits f (n / 10)) <= Z.of_nat (S k)); [|lia].
  apply IH; [|lia]. split; [apply Z.div_pos; lia|]. apply Z.div_lt_upper_bound; [lia|].
  replace (10 * 10 ^ Z.of_nat (S k)) with (10 ^ Z.of_nat (S (S k))); [lia|].
  rewrite (Nat2Z.inj_succ (S k)), Z.pow_succ_r; lia.
Qed.

Lemma number_size n k : 0 <= n < 10 ^ Z.of_nat k -> (0 < k)%nat -> size (JNumber n) <= Z.of_nat k.
Proof.
  intros Hn Hk. unfold size. cbn [stringify]. destruct (n <? 0) eqn:E; [lia|]. by apply decimal_bytes.
Qed.

(** ** The members the admission frame leaves out *)
Definition log_members (l : SessionLogSettings) : list (string * json) :=
  [("logSettings", JObject
     [("uploadMode", JString (LogSettings.uploadMode l)); ("batchMaxKb", JNumber (LogSettings.batchMaxKb l));
      ("batchMaxLines", JNumber (LogSettings.batchMaxLines l));
      ("batchMaxWaitMs", JNumber (LogSettings.batchMaxWaitMs l));
      ("controlPlanePollMs", JNumber (LogSettings.controlPlanePollMs l))])].

Lemma log_members_size st l : assignLogSettings st = Some l -> members_size (log_members l) <= 150.
Proof.
  unfold assignLogSettings, normalizeControlPlaneSessionLogSettings.
  destruct (isSessionRetentionDays _); [|done]. intros [= <-].
  unfold log_members. cbn [members_size fst snd]. rewrite object_size. cbn [members_size fst snd].
  unfold normalizeSessionLogSettings. cbn [LogSettings.uploadMode LogSettings.batchMaxKb LogSettings.batchMaxLines
    LogSettings.batchMaxWaitMs LogSettings.controlPlanePollMs].
  set (mode := if isSessionLogUploadMode _ then _ else _).
  assert (Hmode : size (JString mode) <= 12).
  { unfold mode. destruct (isSessionLogUploadMode _) eqn:E; [|by vm_compute].
    destruct (Plane.sessionLogSettings st ≫= StoredLogs.uploadMode) as [m|]; [|done]. cbn [opt_or].
    unfold isSessionLogUploadMode in E. apply existsb_exists in E as (x & Hin & Hx). apply str_eqb_true in Hx. subst x.
    destruct Hin as [<-|[<-|[<-|[]]]]; by vm_compute. }
  assert (H : forall v lo hi (k : nat), 0 <= lo <= hi -> hi < 10 ^ Z.of_nat k -> (0 < k)%nat ->
    size (JNumber (clampInt v lo hi)) <= Z.of_nat k).
  { intros v lo hi k Hlo Hhi Hk. apply number_size; [|done]. pose proof (clampInt_range v lo hi). lia. }
  pose proof (H (opt_or (o ← Plane.sessionLogSettings st; StoredLogs.batchMaxKb o)
    (LogSettings.batchMaxKb DEFAULT_SESSION_LOG_SETTINGS)) 1 (5 * 1024) 4%nat) as H1.
  pose proof (H (opt_or (o ← Plane.sessionLogSettings st; StoredLogs.batchMaxLines o)
    (LogSettings.batchMaxLines DEFAULT_SESSION_LOG_SETTINGS)) 1 50000 5%nat) as H2.
  pose proof (H (opt_or (o ← Plane.sessionLogSettings st; StoredLogs.batchMaxWaitMs o)
    (LogSettings.batchMaxWaitMs DEFAULT_SESSION_LOG_SETTINGS)) 1000 (5 * 60000) 6%nat) as H3.
  pose proof (H (opt_or (o ← Plane.sessionLogSettings st; StoredLogs.controlPlanePollMs o)
    (LogSettings.controlPlanePollMs DEFAULT_SESSION_LOG_SETTINGS)) 5000 (5 * 60000) 6%nat) as H4.
  change (quoted "logSettings") with 13. change (quoted "uploadMode") with 12. change (quoted "batchMaxKb") with 12.
  change (quoted "batchMaxLines") with 15. change (quoted "batchMaxWaitMs") with 16.
  change (quoted "controlPlanePollMs") with 20. lia.
Qed.

(** The prompt may grow by the pointer to the outputs. *)
Definition pointer_tail : string := newline ++ newline ++ OUTPUT_POINTER.

Lemma pointed_size p : quoted p <= quoted (appendSessionOutputPointer p) <= quoted p + 126.
Proof.
  unfold appendSessionOutputPointer. destruct (string_ends_with _ p); [lia|]. rewrite quoted_app.
  pose proof (utf8_length_nonneg (json_chars (newline ++ newline ++ OUTPUT_POINTER))).
  assert (utf8_length (json_chars (newline ++ newline ++ OUTPUT_POINTER)) <= 126) by by vm_compute. lia.
Qed.

Lemma argv_size_last l x y :
  size (JArray (map JString (l ++ [x])%list)) + quoted y = size (JArray (map JString (l ++ [y])%list)) + quoted x.
Proof.
  assert (forall z, size (JArray (map JString (l ++ [z])%list)) = 1 + items_size (map JString l) + quoted z + 1) as H.
  { intros z. rewrite map_app. destruct l as [|a l]; cbn [map app];
      rewrite array_size; cbn [items_size]; [unfold quoted, size; cbn [stringify]; lia|].
    rewrite items_size_app. cbn [items_size].
    unfold quoted, size. cbn [stringify]. lia. }
  rewrite !H. lia.
Qed.

Lemma output_argv_size st s commandId argv outputs spec :
  Session.cliResumeRef s = None ->
  size (JArray (map JString (assignmentOutputArgv st s commandId argv outputs spec)))
  <= size (JArray (map JString argv)) + 126.
Proof.
  intros Href. unfold assignmentOutputArgv. destruct (_ || _); [lia|]. rewrite Href. cbn [truthy_opt].
  assert (H : size (JArray (map JString (replace_prompt st s commandId (appendSessionOutputPointer (Session.prompt s)) argv)))
    <= size (JArray (map JString argv)) + 126).
  { unfold replace_prompt. destruct (_ && _) eqn:E; [|lia]. apply andb_true_iff in E as [_ E].
    apply bool_decide_eq_true in E. apply last_Some in E as [l ->]. rewrite removelast_last.
    pose proof (argv_size_last l (appendSessionOutputPointer (Session.prompt s)) (Session.prompt s)).
    pose proof (pointed_size (Session.prompt s)). lia. }
  destruct (is_true_opt _); done.
Qed.

(** ** The two frames compared *)
Definition account_members (account : option string) : list (string * json) :=
  member "providerAccountId" JString (truthy_opt account).

Lemma reserved_quoted : quoted reserved_id = 514.
Proof. by vm_compute. Qed.

Lemma frame_slack (s : SessionRecord) slot (r : ResolvedSessionRoute) argv attemptId now script logs outputs
    fields script0 route argv0 :
  Session.workspacePoolId s = Some (wf_workspacePoolId fields) ->
  truthy_opt (Session.setupProfileId s) = truthy_opt (wf_setupProfileId fields) ->
  truthy_opt script = truthy_opt script0 ->
  Session.destroyWorkspaceAfter s = wf_destroyWorkspaceAfter fields ->
  Session.timeout s = wf_timeout fields -> Session.metadata s = wf_metadata fields ->
  Target.commandId r = ar_commandId route -> Target.providerAccountId r = ar_providerAccountId route ->
  size (workspace_frame (assignMessage s slot r argv attemptId now script logs outputs))
  + 3 * 514 + 26 + size (JArray (map JString argv0))
  <= size (workspaceAssignmentMessage fields script0 route (targetIndex r) argv0)
     + quoted (Session.id s) + quoted (Slot.id slot) + quoted attemptId + quoted now
     + size (JArray (map JString argv)) + 15 + members_size (log_members logs).
Proof.
  intros Hpool Hprof Hscript Hdest Htime Hmeta Hcmd Hacc.
  unfold workspace_frame, workspaceAssignmentMessage, assignMessage, log_members.
  cbn [Assign.sessionId Assign.workspacePoolId Assign.workspaceSlotId Assign.setupProfileId Assign.setupScript
    Assign.destroyWorkspaceAfter Assign.prompt Assign.outputs Assign.resolvedArgv Assign.timeout Assign.assignedAt
    Assign.attemptId Assign.metadata Assign.providerAccountId Assign.commandId Assign.targetIndex Assign.logSettings].
  rewrite Hpool, Hprof, Hscript, Hdest, Htime, Hmeta, Hcmd, Hacc.
  cbn [member app]. rewrite !object_size.
  repeat (rewrite ?members_size_app; cbn [members_size fst snd]).
  pose proof reserved_quoted as Hr.
  assert (Hs : forall x, size (JString x) = quoted x) by done.
  rewrite !Hs, !Hr.
  assert (H26 : quoted "2026-09-12T00:00:00.000Z" = 26) by by vm_compute. rewrite H26.
  assert (Hout : members_size (if outputs then [("outputs", JBool true)] else []) <= 15) by (destruct outputs; by vm_compute).
  lia.
Qed.

(** ** What the admission pass measured *)
Lemma measure_routes_none st fields script i routes : forall measured,
  measure_routes st fields script i measured routes = None ->
  forall route command, In route routes -> JsMap.get (ar_commandId route) (Plane.commands st) = Some command ->
  size (workspaceAssignmentMessage fields script route i (admission_argv command (wf_prompt fields)))
  <= MAX_WORKSPACE_ASSIGN_BYTES.
Proof.
  induction routes as [|route routes IH]; intros measured H r command; [done|]. cbn [measure_routes] in H.
  intros [<-|Hin] G.
  - rewrite G in H. destruct (_ <? _) eqn:E; [done|]. unfold size. lia.
  - destruct (JsMap.get (ar_commandId route) _) as [c|]; [|by eapply IH].
    destruct (_ <? _); [done|]. by eapply IH.
Qed.

Lemma measure_targets_none st fields script targets : forall k,
  measure_targets st fields script k targets = None ->
  forall n target route command, targets !! n = Some target ->
  In route (workspaceAdmissionRoutes st (wf_workspacePoolId fields) target) ->
  JsMap.get (ar_commandId route) (Plane.commands st) = Some command ->
  size (workspaceAssignmentMessage fields script route (k + Z.of_nat n) (admission_argv command (wf_prompt fields)))
  <= MAX_WORKSPACE_ASSIGN_BYTES.
Proof.
  induction targets as [|t targets IH]; intros k H n target route command Hn Hin G; [done|].
  cbn [measure_targets] in H.
  destruct (workspaceAdmissionRoutes st (wf_workspacePoolId fields) t) as [|r0 rs] eqn:Er; [done|].
  destruct (measure_routes st fields script k false (r0 :: rs)) eqn:Hm; [done|]. cbn [opt_else] in H.
  destruct n as [|n]; cbn in Hn.
  - injection Hn as <-. rewrite Er in Hin. rewrite Z.add_0_r. by eapply measure_routes_none.
  - replace (k + Z.of_nat (S n)) with (k + 1 + Z.of_nat n) by lia. by eapply IH.
Qed.

(** The catalog of commands and accounts is keyed by id, and a provider id is never empty. *)
Definition catalog_keyed (st : ControlPlaneState) : Prop :=
  forall k c, JsMap.get k (Plane.commands st) = Some c -> Cmd.id c = k /\ Cmd.providerId c <> Some "".

(** Between admission and assignment commands, pools and accounts stay; an account may
    have been used. *)
Record same_catalog (st st' : ControlPlaneState) : Prop := {
  sc_commands : Plane.commands st' = Plane.commands st;
  sc_pools : Plane.workspacePools st' = Plane.workspacePools st;
  sc_accounts : map (fun a => (Account.id a, Account.providerId a)) (JsMap.values (Plane.providerAccounts st')) =
                map (fun a => (Account.id a, Account.providerId a)) (JsMap.values (Plane.providerAccounts st));
}.

Lemma admission_argv_built command prompt argv :
  buildArgv (Some command) prompt = Some argv -> argv = admission_argv command prompt.
Proof.
  cbn [buildArgv]. case_bool_decide; [done|]. intros [= <-]. unfold append_prompt, admission_argv.
  destruct (Cmd.appendPrompt command); cbn [negb]; [|done]. by destruct (is_true_opt _).
Qed.

Section frames.
Context {LC : LocaleCompare} {LL : LocaleCompareLaws LC} {DP : DateParse}.

(** A route of a command target was measured. *)
Lemma command_route_measured st st' catalog c pool prompt w nowMs (t : TargetRoute) :
  catalog_keyed st -> same_catalog st st' ->
  In t (resolveTargets st' catalog (target_command c) prompt w nowMs Undef) ->
  exists command, JsMap.get (Target.commandId t) (Plane.commands st) = Some command /\
    Target.resolvedArgv t = admission_argv command prompt /\
    In (mkAdmissionRoute (Target.commandId t) (Target.providerAccountId t))
       (workspaceAdmissionRoutes st pool (target_command c)).
Proof.
  intros Hk [Hc _ Ha]. cbn [resolveTargets workspaceAdmissionRoutes]. rewrite Hc.
  destruct (JsMap.get c (Plane.commands st)) as [command|] eqn:G; [|done].
  destruct (Hk c command G) as [Hid Hprov].
  destruct (buildArgv (Some command) prompt) as [argv|] eqn:B; [|done]. apply admission_argv_built in B.
  destruct (Cmd.providerId command) as [p|] eqn:Hp.
  - intros Hin. apply in_map_iff in Hin as (a & <- & Hin).
    apply resolveEligibleAccounts_In in Hin as [Hin Hel]. unfold account_eligible in Hel.
    apply andb_true_iff in Hel as [Hel _]. apply andb_true_iff in Hel as [Hel _].
    apply andb_true_iff in Hel as [Hel _]. apply str_eqb_true in Hel.
    exists command. cbn. rewrite Hid. split; [done|]. split; [done|].
    assert (truthy p = true) as -> by (apply truthy_true; congruence).
    assert (Hacc : In (Account.id a) (map Account.id (List.filter (fun a => str_eqb (Account.providerId a) p)
      (JsMap.values (Plane.providerAccounts st))))).
    { assert (Hin2 : In (Account.id a, p) (map (fun a => (Account.id a, Account.providerId a))
        (JsMap.values (Plane.providerAccounts st)))).
      { rewrite <- Ha. apply in_map_iff. exists a. split; [by rewrite Hel|done]. }
      apply in_map_iff in Hin2 as (a0 & [= E1 E2] & Hin2). rewrite <- E1. apply in_map, filter_In.
      split; [done|]. rewrite E2. apply str_eqb_refl. }
    destruct (map Account.id _) as [|a0 l]; [done|]. apply in_map_iff. by exists (Account.id a).
  - intros [<-|[]]. exists command. cbn. rewrite Hid. split; [done|]. split; [done|]. by left.
Qed.

Lemma target_at_lookup s i t : target_at s i = Some t -> (Session.target s :: Session.fallbacks s) !! Z.to_nat i = Some t /\ 0 <= i.
Proof. unfold target_at. destruct (i <? 0) eqn:E; [done|]. intros H. split; [done|lia]. Qed.

Lemma workspace_target_in st catalog s slot r :
  In r (resolveWorkspaceSessionTargets st catalog s slot) ->
  exists target, target_at s (targetIndex r) = Some target /\
    In (r : TargetRoute) (resolveTargets st catalog target (Session.prompt s) (slot_worktree slot)
          (date_parse (Plane.now st)) Undef).
Proof.
  unfold resolveWorkspaceSessionTargets. rewrite in_flat_map. intros (i & _ & Hin).
  destruct (target_suppressed s i); [done|]. destruct (target_at s i) as [target|] eqn:Et; [|done].
  apply in_map_iff in Hin as (t & <- & Hin). exists target. by split.
Qed.

(** What the record of an admitted workspace session froze. *)
Lemma built_workspace st v names sched principal s st1 pool :
  buildSessionRecord st (mkPreparedSession v names sched) principal = (Some s, st1) ->
  v_workspacePoolId v = Some pool -> pool <> "" ->
  let p := JsMap.get pool (Plane.workspacePools st) in
  let profile := opt_else (v_setupProfileId v) (q ← p; Pool.defaultSetupProfileId q) in
  Session.workspacePoolId s = Some pool /\ Session.setupProfileId s = truthy_opt profile /\
  Session.workspaceSetupScript s = truthy_opt (profile_script p profile) /\
  Session.destroyWorkspaceAfter s =
    Some (opt_or (opt_else (v_destroyWorkspaceAfter v) (Pool.destroyWorkspaceAfter <$> p)) false) /\
  Session.timeout s = v_timeout v /\ Session.metadata s = v_metadata v /\ Session.prompt s = v_prompt v /\
  Session.target s = v_target v /\ Session.fallbacks s = v_fallbacks v /\ Session.cliResumeRef s = None.
Proof.
  intros H Hp Hne. unfold buildSessionRecord in H. cbn [draw_id preparedFields preparedNames preparedScheduleId] in H.
  destruct (iso_after _ _) as [expires|]; [|done]. injection H as <- <-. cbn.
  rewrite (truthy_opt_Some' _ _ Hp Hne). done.
Qed.

Lemma truthy_opt_idem x : truthy_opt (truthy_opt x) = truthy_opt x.
Proof. destruct x as [y|]; [|done]. cbn. destruct (truthy y) eqn:E; [|done]. cbn. by rewrite E. Qed.

(** The scheduler sends the script admission measured. *)
Lemma script_frozen st st' s pool profile preset :
  Plane.workspacePools st' = Plane.workspacePools st -> Session.workspacePoolId s = Some pool -> pool <> "" ->
  let p := JsMap.get pool (Plane.workspacePools st) in
  preset <> Some "" -> profile = opt_else preset (q ← p; Pool.defaultSetupProfileId q) ->
  Session.setupProfileId s = truthy_opt profile ->
  Session.workspaceSetupScript s = truthy_opt (profile_script p profile) ->
  truthy_opt (opt_else (Session.workspaceSetupScript s) (setupScriptFor st' s)) = truthy_opt (profile_script p profile).
Proof.
  intros Hpools Hpool Hne p Hpre Hprof Hset Hscript. rewrite Hscript.
  destruct (truthy_opt (profile_script p profile)) as [script|] eqn:E.
  { cbn [opt_else]. rewrite <- E. apply truthy_opt_idem. }
  cbn [opt_else]. rewrite <- E. f_equal. unfold setupScriptFor.
  rewrite (truthy_opt_Some' _ _ Hpool Hne), Hset, Hpools. cbn [mbind option_bind]. fold p.
  unfold profile_script. destruct (truthy_opt profile) as [i|] eqn:Ei.
  - cbn [opt_else]. assert (truthy_opt (Some i) = Some i) as -> by (rewrite <- Ei; apply truthy_opt_idem).
    by destruct p.
  - cbn [opt_else]. destruct preset as [x|].
    + cbn in Hprof. subst profile. cbn in Ei. destruct (truthy x) eqn:Et; [done|]. apply truthy_false in Et. by subst x.
    + cbn [opt_else] in Hprof. rewrite <- Hprof, Ei. by destruct p.
Qed.

(** A route the admission pass measured gives a frame that fits. *)
Lemma measured_frame_fits st st' v names sched principal s st1 pool slot (r : ResolvedSessionRoute) target command
    outputs attemptId now logs :
  v_setupProfileId v <> Some "" ->
  v_workspacePoolId v = Some pool -> pool <> "" -> workspaceCreatePayloadError st v = None ->
  buildSessionRecord st (mkPreparedSession v names sched) principal = (Some s, st1) ->
  Plane.workspacePools st' = Plane.workspacePools st ->
  target_at s (targetIndex r) = Some target ->
  In (mkAdmissionRoute (Target.commandId r) (Target.providerAccountId r)) (workspaceAdmissionRoutes st pool target) ->
  JsMap.get (Target.commandId r) (Plane.commands st) = Some command ->
  Target.resolvedArgv r = admission_argv command (Session.prompt s) ->
  assignLogSettings st' = Some logs ->
  quoted (Session.id s) <= 400 -> quoted (Slot.id slot) <= 400 -> quoted attemptId <= 400 -> quoted now <= 26 ->
  fitsWorkspaceAssignFrame
    (assignMessage s slot r
       (assignmentOutputArgv st' s (Target.commandId r) (Target.resolvedArgv r) outputs (Some (Target.resumeSpec r)))
       attemptId now (opt_else (Session.workspaceSetupScript s) (setupScriptFor st' s)) logs outputs) = true.
Proof.
  intros Hv Hpool Hne Hadm Hbuild Hpools Htgt Hin Hcmd Hargv Hlogs Q1 Q2 Q3 Q4.
  destruct (built_workspace _ _ _ _ _ _ _ _ Hbuild Hpool Hne)
    as (Sp & Sprof & Sscript & Sdest & Stime & Smeta & Sprompt & Stgt & Sfb & Sref).
  set (p := JsMap.get pool (Plane.workspacePools st)) in *.
  set (profile := opt_else (v_setupProfileId v) (q ← p; Pool.defaultSetupProfileId q)) in *.
  unfold workspaceCreatePayloadError in Hadm. rewrite (truthy_opt_Some' _ _ Hpool Hne) in Hadm.
  unfold workspaceAssignmentPayloadError in Hadm.
  cbn [wf_workspacePoolId wf_setupProfileId wf_workspaceSetupScript wf_destroyWorkspaceAfter wf_prompt wf_target
       wf_fallbacks wf_timeout wf_metadata opt_else] in Hadm. fold p profile in Hadm.
  match type of Hadm with measure_targets _ ?f _ _ _ = None => set (fields := f) in Hadm end.
  apply target_at_lookup in Htgt as [Hlook Hpos]. rewrite Stgt, Sfb in Hlook.
  pose proof (measure_targets_none _ _ _ _ _ Hadm _ _ _ command Hlook Hin Hcmd) as Hsize.
  rewrite Z2Nat.id, Z.add_0_l in Hsize by done.
  assert (Hfrozen : truthy_opt (Session.setupProfileId s) = truthy_opt (wf_setupProfileId fields)).
  { rewrite Sprof, truthy_opt_idem. cbn [fields wf_setupProfileId].
    destruct (truthy_opt profile) as [i|] eqn:Ei; cbn [opt_else].
    - by rewrite <- Ei, truthy_opt_idem.
    - unfold profile in Ei. by destruct (v_setupProfileId v). }
  pose proof (frame_slack s slot r
    (assignmentOutputArgv st' s (Target.commandId r) (Target.resolvedArgv r) outputs (Some (Target.resumeSpec r)))
    attemptId now (opt_else (Session.workspaceSetupScript s) (setupScriptFor st' s)) logs outputs fields
    (profile_script p profile) (mkAdmissionRoute (Target.commandId r) (Target.providerAccountId r))
    (admission_argv command (Session.prompt s)) Sp Hfrozen
    (script_frozen st st' s pool profile (v_setupProfileId v) Hpools Sp Hne Hv eq_refl Sprof Sscript)
    Sdest Stime Smeta eq_refl eq_refl) as Hslack.
  pose proof (output_argv_size st' s (Target.commandId r) (Target.resolvedArgv r) outputs (Some (Target.resumeSpec r)) Sref)
    as Hout.
  rewrite Hargv in Hout, Hslack |- *. 
  pose proof (log_members_size st' logs Hlogs) as Hl.
  change (wf_prompt fields) with (v_prompt v) in Hsize.
  unfold fitsWorkspaceAssignFrame. apply Z.leb_le. unfold size in *. rewrite Sprompt in *. lia.
Qed.

Lemma validated_create st body a reserved o prepared :
  validateSessionCreate st body a reserved o = succeeded prepared ->
  fields_ok reserved o (preparedFields prepared) /\ workspaceCreatePayloadError st (preparedFields prepared) = None.
Proof.
  unfold validateSessionCreate. destruct (body_record body) as [record|]; [|done].
  destruct (validateCreateSessionInput _ _) as [v|] eqn:Hv; [|done].
  destruct (admission_error st v) as [[? ?]|]; [done|].
  destruct (resolveTargetDisplayNames _ _ _); [|done].
  destruct (workspaceCreatePayloadError st v) eqn:Hw; [done|]. intros [= <-]. split; [|done].
  by apply validate_sound in Hv.
Qed.

(** [C24] An admitted workspace session is never passed over for the size of its frame: while
    commands, pools and accounts are those it was admitted with, every frame the scheduler
    builds for one of its command targets fits the control channel, with its setup script, its
    metadata, the upload settings and the pointer to the outputs, provided the session, slot and
    attempt ids take at most 400 bytes each and the timestamp 26, quoted.  Commands are
    filed under their own ids and none names an empty provider. *)
Theorem workspace_admission_fits st st' catalog body a reserved o prepared principal s st1 pool slot r c
    outputs attemptId now logs :
  catalog_keyed st -> same_catalog st st' ->
  validateSessionCreate st body a reserved o = succeeded prepared ->
  buildSessionRecord st prepared principal = (Some s, st1) -> Session.workspacePoolId s = Some pool ->
  In r (resolveWorkspaceSessionTargets st' catalog s slot) ->
  target_at s (targetIndex r) = Some (target_command c) ->
  assignLogSettings st' = Some logs ->
  quoted (Session.id s) <= 400 -> quoted (Slot.id slot) <= 400 -> quoted attemptId <= 400 -> quoted now <= 26 ->
  fitsWorkspaceAssignFrame
    (assignMessage s slot r
       (assignmentOutputArgv st' s (Target.commandId r) (Target.resolvedArgv r) outputs (Some (Target.resumeSpec r)))
       attemptId now (opt_else (Session.workspaceSetupScript s) (setupScriptFor st' s)) logs outputs) = true.
Proof.
  intros Hk Hsame Hval Hbuild Hspool Hin Htgt Hlogs Q1 Q2 Q3 Q4.
  destruct (validated_create _ _ _ _ _ _ Hval) as [Hok Hadm].
  destruct prepared as [v names sched]. cbn [preparedFields] in *.
  assert (Hvp : truthy_opt (v_workspacePoolId v) = Some pool).
  { rewrite <- Hspool. unfold buildSessionRecord in Hbuild. cbn [draw_id preparedFields] in Hbuild.
    destruct (iso_after _ _); [|done]. by injection Hbuild as <- _. }
  assert (Hpool : v_workspacePoolId v = Some pool /\ pool <> "").
  { destruct (v_workspacePoolId v) as [x|]; [|done]. cbn in Hvp. destruct (truthy x) eqn:E; [|done].
    injection Hvp as ->. split; [done|]. by apply truthy_true. }
  destruct Hpool as [Hpool Hne].
  assert (Hset : v_setupProfileId v <> Some "").
  { pose proof (ok_kind _ _ _ Hok) as Hkind. unfold kind_ok in Hkind. destruct (v_repositoryId v).
    - destruct Hkind as (_ & _ & E & _). congruence.
    - apply Hkind. }
  destruct (workspace_target_in _ _ _ _ _ Hin) as (target & Ht & Hr).
  assert (target = target_command c) as -> by congruence.
  destruct (command_route_measured st st' catalog c pool _ _ _ _ Hk Hsame Hr) as (command & G & Hargv & Hroute).
  eapply measured_frame_fits; try eassumption. apply Hsame.
Qed.
End frames.

(** ** Witness *)
#[local] Existing Instance code_order.
#[local] Existing Instance iso_date_parse.

Definition frame_pool : WorkspacePoolRecord :=
  Pool.mkWorkspacePool "pool" "pool" [Profile.mkWorkspaceSetupProfile "setup" "setup" "npm ci"] (Some "setup") true
    "2026-01-01T00:00:00.000Z" "2026-01-01T00:00:00.000Z".

Definition frame_state : ControlPlaneState := workspace_state <| Plane.workspacePools := [("pool", frame_pool)] |>.

Definition frame_body : json :=
  JObject [("repositoryId", JNull); ("workspacePoolId", JString "pool"); ("prompt", JString "look");
           ("timeout", JNumber 600); ("target", JObject [("commandId", JString "cmd-wt")])].

Definition frame_prepared : PreparedSession :=
  mkPreparedSession
    (mkValidatedFields None "look" (target_command "cmd-wt") [] 691200 600 0 [] None None None "workspace" "api"
       (Some "pool") None None) ["claude — claude-print"] None.

Definition frame_session : SessionRecord :=
  opt_or (buildSessionRecord frame_state frame_prepared None).1 example_queued.

Definition frame_slot : WorkspaceSlotRecord :=
  Slot.mkWorkspaceSlot "slot1" "one" "h1" "pool" "/pool/one" idle true Null None None Undef None.

Definition frame_route : ResolvedSessionRoute :=
  mkResolved 0 (Target.mkTargetRoute (Some "claude") (Some "acct") "cmd-wt"
    ["claude"; "-p"; "--"; "look"] (commandResumeSpec example_command)).

Lemma frame_keyed : catalog_keyed frame_state.
Proof. intros k c. cbn. unfold str_eqb. case_bool_decide as E; [|done]. intros [= <-]. by subst k. Qed.

Lemma workspace_admission_fits_witness :
  fitsWorkspaceAssignFrame
    (assignMessage frame_session frame_slot frame_route
       (assignmentOutputArgv frame_state frame_session (Target.commandId frame_route)
          (Target.resolvedArgv frame_route) true (Some (Target.resumeSpec frame_route)))
       "attempt-0" "2026-01-01T00:05:00.000Z"
       (opt_else (Session.workspaceSetupScript frame_session) (setupScriptFor frame_state frame_session))
       DEFAULT_SESSION_LOG_SETTINGS true) = true.
Proof.
  apply (workspace_admission_fits frame_state frame_state (buildProviderCatalog frame_state) frame_body false false
    (mkCreateOptions false false) frame_prepared None frame_session (draw_id frame_state).2 "pool" frame_slot
    frame_route "cmd-wt" true "attempt-0" "2026-01-01T00:05:00.000Z" DEFAULT_SESSION_LOG_SETTINGS frame_keyed).
  - split; reflexivity.
  - vm_compute. reflexivity.
  - vm_compute. reflexivity.
  - vm_compute. reflexivity.
  - vm_compute. left. reflexivity.
  - vm_compute. reflexivity.
  - vm_compute. reflexivity.
  - apply Z.leb_le. vm_compute. reflexivity.
  - apply Z.leb_le. vm_compute. reflexivity.
  - apply Z.leb_le. vm_compute. reflexivity.
  - apply Z.leb_le. vm_compute. reflexivity.
Defined.
