(* ===== verification/ScheduleFire.v ===== *)
(** * Schedules and their firing

    services/api/src/control-plane-schedule-fire.ts and control-plane-schedule-prompt.ts
    without a storage: a due schedule is claimed by its cursor [nextRunAt], which moves to the
    next occurrence of its cron expression, and creates a session through
    [createSession].  A schedule is an object of [state.schedules] that the code
    mutates in place; here its entry is replaced. *)

From Stdlib Require Import ZArith Lia Ascii String.
From stdpp Require Import base strings list.
From S2P Require Import Prelude DateTime Cron Types Ordering CommandResume SessionTarget AccountLeases Placement Worktrees.
From S2P Require Import Assignment CheckoutAssignment Validation SessionCreate SessionAdmission.

Local Open Scope string_scope.
Local Open Scope Z_scope.

(** ** Prompts *)
Definition scheduledSessionPrompt (schedule : ScheduleRecord) : string :=
  opt_or (trim <$> Schedule.prompt schedule) "".

(** ** The cursor *)

(** [(?:Z|[+-]\d{2}:\d{2})$]. *)
Definition zone_suffix (s : string) : bool :=
  str_eqb s "Z" ||
  match s with
  | String c rest =>
      (Ascii.eqb c "+" || Ascii.eqb c "-") &&
      match ('(_, rest) ← JsDate.take_digits 2 rest 0;
             rest ← JsDate.take_char ":"%char rest;
             '(_, rest) ← JsDate.take_digits 2 rest 0; Some rest) with
      | Some rest => str_eqb rest ""
      | None => false
      end
  | "" => false
  end.

(** The regular expression of a persisted cursor. *)
Definition PERSISTED_ISO_TIMESTAMP (value : string) : bool :=
  match ('(_, s) ← JsDate.take_digits 4 value 0;
         s ← JsDate.take_char "-"%char s;
         '(_, s) ← JsDate.take_digits 2 s 0;
         s ← JsDate.take_char "-"%char s;
         '(_, s) ← JsDate.take_digits 2 s 0;
         s ← JsDate.take_char "T"%char s;
         '(_, s) ← JsDate.take_digits 2 s 0;
         s ← JsDate.take_char ":"%char s;
         '(_, s) ← JsDate.take_digits 2 s 0;
         s ← JsDate.take_char ":"%char s;
         '(_, s) ← JsDate.take_digits 2 s 0; Some s) with
  | None => false
  | Some s =>
      match JsDate.take_char "."%char s with
      | None => zone_suffix s
      | Some s' => match JsDate.take_digits 3 s' 0 with Some (_, s'') => zone_suffix s'' | None => false end
      end
  end.

Section clock.
Context {DP : DateParse}.

Definition isValidPersistedCursor (value : string) : bool :=
  PERSISTED_ISO_TIMESTAMP value && is_some (date_parse value).

Definition nextRunAt (schedule : ScheduleRecord) (nowIso : string) : option string :=
  if negb (isValidPersistedCursor (Schedule.nextRunAt schedule)) || negb (isValidUtcTimestamp nowIso) then None
  else nextCronOccurrence (Schedule.cron schedule) nowIso.

(** ** The session of a schedule *)
Definition resolveScheduledTarget (state : ControlPlaneState) (schedule : ScheduleRecord)
    : ValidationResult (list string) :=
  resolveTargetDisplayNames state (Schedule.target schedule) (Schedule.fallbacks schedule).

Definition schedule_lock (schedule : ScheduleRecord) : string :=
  opt_or (Schedule.concurrencyId schedule) ("schedule-" ++ Schedule.id schedule).

(** The create body.  A legacy schedule has no owner: its [createdBy] is [undefined], which
    the metadata check refuses with the message it has for an array. *)
Definition scheduledSessionInput (state : ControlPlaneState) (schedule : ScheduleRecord) : json :=
  let pool := truthy_opt (Schedule.workspacePoolId schedule) in
  JObject ([("repositoryId", match pool with Some _ => JNull | None => JString (Schedule.repositoryId schedule) end);
            ("prompt", JString (scheduledSessionPrompt schedule));
            ("target", target_json (Schedule.target schedule));
            ("fallbacks", JArray (map target_json (Schedule.fallbacks schedule)));
            ("timeout", JNumber (Schedule.timeout schedule));
            ("queueTtlSeconds", JNumber (Schedule.queueTtlSeconds schedule));
            ("type", JString (if is_some pool then "workspace" else "scheduled"));
            ("source", JString "schedule")] ++
    member "ref" JString (Schedule.ref schedule) ++
    [("concurrencyId", JString (schedule_lock schedule)); ("scheduleId", JString (Schedule.id schedule))] ++
    member "workspacePoolId" JString pool ++
    member "setupProfileId" JString (truthy_opt (Schedule.setupProfileId schedule)) ++
    member "destroyWorkspaceAfter" JBool
      (p ← pool; Some (opt_or (opt_else (Schedule.destroyWorkspaceAfter schedule)
                         (Pool.destroyWorkspaceAfter <$> JsMap.get p (Plane.workspacePools state))) false)) ++
    [("metadata", JObject [("createdBy",
        match Schedule.principalId schedule with Some p => JString p | None => JArray [] end)])])%list.

Definition set_schedule (state : ControlPlaneState) (k : string) (schedule : ScheduleRecord) : ControlPlaneState :=
  state <| Plane.schedules := JsMap.set k schedule (Plane.schedules state) |>.

(** [state.sessions.get(id)!.principalId = ..]; a missing session throws. *)
Definition own_session (state : ControlPlaneState) (id : string) (principalId : option string)
    : option ControlPlaneState :=
  s ← JsMap.get id (Plane.sessions state);
  Some (update_session state id (s <| Session.principalId := principalId |>)).

Definition reply_id (reply : CreateReply) : string := Session.id (publicRecord (replySession reply)).

(** ** A manual trigger *)
Definition triggerSchedule (state : ControlPlaneState) (id nowIso : string)
    : Outcome CreateReply * ControlPlaneState :=
  match JsMap.get id (Plane.schedules state) with
  | None => (refused "schedule not found" None, state)
  | Some schedule =>
      if negb (Schedule.enabled schedule) then (refused "schedule is disabled" None, state)
      else
        match nextRunAt schedule nowIso with
        | None => (refused "invalid schedule cron or timestamp" None, state)
        | Some newNextRunAt =>
            match resolveScheduledTarget state schedule with
            | invalid e => (refused e None, state)
            | valid _ =>
                match createSession state (scheduledSessionInput state schedule) true (mkCreateOptions false false) with
                | (refused e _, state) => (refused e None, state)
                | (threw, state) => (threw, state)
                | (succeeded reply, state) =>
                    if replyCreated reply then
                      match own_session state (reply_id reply) (Schedule.principalId schedule) with
                      | None => (threw, state)
                      | Some state =>
                          (succeeded reply,
                           set_schedule state id (schedule <| Schedule.nextRunAt := newNextRunAt |>
                                                           <| Schedule.lastRunAt := Some nowIso |>))
                      end
                    else (succeeded reply, state)
                end
            end
        end
  end.

(** ** Cron *)

(** The occurrence was due before the repository was last activated. *)
Definition before_activation (state : ControlPlaneState) (schedule : ScheduleRecord) (expectedNextRunAt : string) : bool :=
  let activationCutoffAt :=
    r ← truthy_opt (Some (Schedule.repositoryId schedule));
    repo ← JsMap.get r (Plane.repositories state); truthy_opt (Repo.activationCutoffAt repo) in
  match activationCutoffAt with
  | Some cutoff => date_lt (date_parse expectedNextRunAt) (date_parse cutoff)
  | None => false
  end.

(** [None] inside is [null]: nothing was created; [None] outside is an exception. *)
Definition tryClaimScheduleFire (state : ControlPlaneState) (scheduleId expectedNextRunAt nowIso : string)
    : option (option PublicSession) * ControlPlaneState :=
  match JsMap.get scheduleId (Plane.schedules state) with
  | None => (Some None, state)
  | Some schedule =>
      if negb (Schedule.enabled schedule) then (Some None, state)
      else
        match nextRunAt schedule nowIso with
        | None => (Some None, state)
        | Some newNextRunAt =>
            let advanced := schedule <| Schedule.nextRunAt := newNextRunAt |> in
            if negb (str_eqb (Schedule.nextRunAt schedule) expectedNextRunAt) then (Some None, state)
            else if date_gt (date_parse expectedNextRunAt) (date_parse nowIso) then (Some None, state)
            else if before_activation state schedule expectedNextRunAt
            then (Some None, set_schedule state scheduleId advanced)
            else
                match resolveScheduledTarget state schedule with
                | invalid _ => (Some None, state)
                | valid _ =>
                    match createSession state (scheduledSessionInput state schedule) true (mkCreateOptions false false) with
                    | (threw, state) => (None, state)
                    | (refused _ c, state) =>
                        (Some None, if bool_decide (c = Some "REPOSITORY_ADMISSION_CLOSED")
                                    then set_schedule state scheduleId advanced else state)
                    | (succeeded reply, state) =>
                        let state := set_schedule state scheduleId advanced in
                        if negb (replyCreated reply) then (Some None, state)
                        else
                          match own_session state (reply_id reply) (Schedule.principalId schedule) with
                          | None => (None, state)
                          | Some state =>
                              (Some (Some (replySession reply)),
                               set_schedule state scheduleId (advanced <| Schedule.lastRunAt := Some nowIso |>))
                          end
                    end
                end
        end
  end.

(** [for (const schedule of state.schedules.values())]: the entries of the map, each read when
    its turn comes. *)
Fixpoint fire_due (keys : list string) (state : ControlPlaneState) (nowIso : string) (nowMs : option Z)
    : option (list PublicSession) * ControlPlaneState :=
  match keys with
  | [] => (Some [], state)
  | k :: rest =>
      match JsMap.get k (Plane.schedules state) with
      | None => fire_due rest state nowIso nowMs
      | Some schedule =>
          if negb (Schedule.enabled schedule) || date_gt (date_parse (Schedule.nextRunAt schedule)) nowMs
          then fire_due rest state nowIso nowMs
          else
            match tryClaimScheduleFire state (Schedule.id schedule) (Schedule.nextRunAt schedule) nowIso with
            | (None, state) => (None, state)
            | (Some fired, state) =>
                match fire_due rest state nowIso nowMs with
                | (None, state) => (None, state)
                | (Some created, state) =>
                    (Some (match fired with Some s => s :: created | None => created end), state)
                end
            end
      end
  end.

Definition evaluateCron (state : ControlPlaneState) (nowIso : string)
    : option (list PublicSession) * ControlPlaneState :=
  if negb (isValidUtcTimestamp nowIso) then (Some [], state)
  else fire_due (JsMap.keys (Plane.schedules state)) state nowIso (date_parse nowIso).
End clock.

Section properties.
Context {DP : DateParse} {DL : DateParseLaws DP}.

(** ** The cursor moves on *)

(** An instant of the years [Date.parse] and the cron search agree on. *)
Definition common_year (n : Z) : Prop := 100 <= JsDate.getUTCFullYear n <= 9991.

Lemma next_within_years cron n t :
  cron_wf cron -> next_after cron n = Some t -> 100 <= JsDate.getUTCFullYear n ->
  n < t /\ JsDate.getUTCFullYear t <= JsDate.getUTCFullYear n + 8.
Proof.
  intros Hwf Ht Hy. pose proof (next_after_spec cron n Hwf Hy) as Hs. rewrite Ht in Hs.
  destruct Hs as (Hle & Hal & Hm & Hmin). assert (Hnt : n < t) by (by apply first_candidate_spec).
  split; [done|]. destruct (match_soon cron t (JsDate.getUTCFullYear n) Hwf Hm) as (t' & Hal' & Hy' & Hm').
  destruct (Z.le_gt_cases t t') as [H|H]; [apply year_mono in H; lia|].
  assert (n < t') by (destruct (Z.lt_ge_cases n t') as [|Hge]; [done|apply year_mono in Hge; lia]).
  rewrite Hmin in Hm'; [done|done|]. split; [by apply first_candidate_spec|lia].
Qed.

Lemma cursor_moves_on schedule n c :
  common_year n -> nextRunAt schedule (JsDate.toISOString n) = Some c ->
  exists t, c = JsDate.toISOString t /\ n < t /\ date_parse c = Some t.
Proof.
  intros Hy H. unfold nextRunAt in H. destruct (negb _ || negb _) eqn:E; [done|].
  apply orb_false_iff in E as [_ Hv]. apply negb_false_iff in Hv.
  destruct (parseCron (Schedule.cron schedule)) as [cron|] eqn:Hc;
    [|unfold nextCronOccurrence in H; by rewrite Hv, Hc in H].
  destruct (nextCronOccurrence_inv _ _ _ H Hv cron Hc) as (f & Hf & Hr & Hwf & Hyf).
  rewrite JsDate.match_toISOString in Hf by (unfold common_year in Hy; lia). injection Hf as <-.
  rewrite JsDate.date_of_instant_fields in Hr, Hyf.
  destruct (next_after cron n) as [t|] eqn:Ht; [|done]. injection Hr as ->. exists t.
  destruct (next_within_years cron n t Hwf Ht Hyf) as [Hlt Hyt]. split; [done|]. split; [done|].
  apply date_parse_iso. pose proof (year_mono n t). unfold common_year in Hy. lia.
Qed.

(** A moved cursor is not the one that was due. *)
Lemma cursor_changes schedule n expected c :
  common_year n -> nextRunAt schedule (JsDate.toISOString n) = Some c ->
  date_gt (date_parse expected) (date_parse (JsDate.toISOString n)) = false ->
  is_some (date_parse expected) = true -> c <> expected.
Proof.
  intros Hy H Hdue Hexp ->. destruct (cursor_moves_on schedule n expected Hy H) as (t & _ & Hlt & Hp).
  rewrite Hp, (date_parse_iso n) in Hdue by (unfold common_year in Hy; lia).
  unfold date_gt, date_lt in Hdue. lia.
Qed.

(** ** The session of a schedule *)
Definition cron_options : CreateOptions := mkCreateOptions false false.

(** What a session owes to the schedule that created it. *)
Record of_schedule (schedule : ScheduleRecord) (s : SessionRecord) : Prop := {
  os_schedule : Session.scheduleId s = Some (Schedule.id schedule);
  os_lock : Session.concurrencyId s = Some (schedule_lock schedule);
  os_type : Session.type s =
    Some (if is_some (truthy_opt (Schedule.workspacePoolId schedule)) then "workspace" else "scheduled");
  os_source : Session.source s = Some "schedule";
  os_prompt : Session.prompt s = scheduledSessionPrompt schedule;
  os_timeout : Session.timeout s = Schedule.timeout schedule;
}.

Definition input_entries (st : ControlPlaneState) (schedule : ScheduleRecord) : list (string * json) :=
  match scheduledSessionInput st schedule with JObject entries => entries | _ => [] end.

Lemma input_members st schedule (e := input_entries st schedule) :
  body_record (scheduledSessionInput st schedule) = Some e /\
  JsMap.get "prompt" e = Some (JString (scheduledSessionPrompt schedule)) /\
  JsMap.get "timeout" e = Some (JNumber (Schedule.timeout schedule)) /\
  JsMap.get "type" e = Some (JString (if is_some (truthy_opt (Schedule.workspacePoolId schedule))
                                      then "workspace" else "scheduled")) /\
  JsMap.get "source" e = Some (JString "schedule") /\
  JsMap.get "concurrencyId" e = Some (JString (schedule_lock schedule)) /\
  JsMap.get "scheduleId" e = Some (JString (Schedule.id schedule)).
Proof.
  subst e. unfold input_entries, scheduledSessionInput. split; [done|].
  destruct (Schedule.ref schedule); by repeat split.
Qed.

Lemma scheduled_create st schedule reply st1 :
  createSession st (scheduledSessionInput st schedule) true cron_options = (succeeded reply, st1) ->
  replyCreated reply = true ->
  exists s, fresh_session st s /\ lock_free st s /\ Session.rootSessionId s = None /\
    st1 = persistSession (draw_id st).2 s /\
    replySession reply = toPublic st1 s true /\ of_schedule schedule s.
Proof.
  destruct (input_members st schedule) as (Hb & Hp & Ht & Hty & Hsrc & Hlock & Hid).
  set (e := input_entries st schedule) in *. clearbody e.
  pose proof (create_enters st (scheduledSessionInput st schedule) true cron_options) as He.
  intros H Hc. rewrite H in He. cbn [fst snd] in He.
  unfold createSession in H. rewrite Hb in H.
  destruct (validateCreateSessionInput _ _) as [v|] eqn:Hv; [|done].
  apply validate_reads in Hv as (Rp & Rt & Rc & _ & Rty & Rsrc). cbn [create_input in_prompt in_timeout
    in_concurrencyId in_type in_source] in Rp, Rt, Rc, Rty, Rsrc.
  specialize (Rty _ Hty). specialize (Rsrc _ Hsrc). rewrite Hp in Rp. rewrite Ht in Rt. rewrite Hlock in Rc.
  cbn [allowGitHubCommentConcurrencyId cron_options] in H.
  destruct (admission_error st v) as [[? ?]|]; [done|].
  destruct (resolveTargetDisplayNames _ _ _) as [names|]; [|done].
  destruct (workspaceCreatePayloadError st v); [done|].
  destruct (c ← truthy_opt (v_concurrencyId v); activeSessionForConcurrency st c) as [a|] eqn:Ha;
    [injection H as <- _; discriminate Hc|].
  cbn [draw_id] in H. destruct (iso_after _ _) as [expires|]; [|done]. injection H as <- <-.
  match goal with |- context [persistSession _ (create_record ?a ?b ?c ?d ?f ?g ?h ?i)] =>
    exists (create_record a b c d f g h i) end.
  split; [by split|]. split; [by apply (lock_free_of _ _ (v_concurrencyId v))|].
  split; [done|]. split; [reflexivity|]. split; [reflexivity|].
  destruct (v_concurrencyId v) as [c|] eqn:Ec; [|done].
  injection Rc as Rc. injection Rp as Rp. injection Rt as Rt. injection Rty as Rty. injection Rsrc as Rsrc.
  split; cbn -[JsMap.get]; [by rewrite Hid| | | | |]; congruence.
Qed.

(** ** A claim *)

(** Only schedules and the id counter may differ. *)
Definition only_schedules (st st' : ControlPlaneState) : Prop :=
  st' <| Plane.schedules := Plane.schedules st |> <| Plane.idsDrawn := Plane.idsDrawn st |> = st /\
  Plane.idsDrawn st <= Plane.idsDrawn st'.

(** The created session is stored and given to the owner of the schedule. *)
Definition owned_state (st : ControlPlaneState) (s : SessionRecord) (principalId : option string) : ControlPlaneState :=
  update_session (persistSession (draw_id st).2 s) (next_id st) (s <| Session.principalId := principalId |>).

Lemma own_created st s st1 schedules principalId reply :
  fresh_session st s -> st1 = persistSession (draw_id st).2 s -> replySession reply = toPublic st1 s true ->
  own_session (st1 <| Plane.schedules := schedules |>) (reply_id reply) principalId =
  Some ((owned_state st s principalId) <| Plane.schedules := schedules |>).
Proof.
  intros Hf -> Hr. unfold own_session, reply_id, owned_state. rewrite Hr.
  change (Session.id (publicRecord (toPublic (persistSession (draw_id st).2 s) s true))) with (Session.id s).
  change (Plane.sessions (?x <| Plane.schedules := schedules |>)) with (Plane.sessions x).
  rewrite (fs_id _ _ Hf), (st_new _ _ _ (persist_stored st s Hf)). cbn [mbind option_bind]. by destruct st.
Qed.

(** How a claim that creates a session ends. *)
Record claimed (st : ControlPlaneState) (id expected nowIso : string) (pub : PublicSession) (st' : ControlPlaneState)
    (schedule : ScheduleRecord) (s : SessionRecord) (cursor : string) : Prop := {
  cl_schedule : JsMap.get id (Plane.schedules st) = Some schedule;
  cl_enabled : Schedule.enabled schedule = true;
  cl_cursor : Schedule.nextRunAt schedule = expected;
  cl_next : nextRunAt schedule nowIso = Some cursor;
  cl_due : date_gt (date_parse expected) (date_parse nowIso) = false;
  cl_fresh : fresh_session st s;
  cl_lock : lock_free st s;
  cl_root : Session.rootSessionId s = None;
  cl_of : of_schedule schedule s;
  cl_state : st' = (owned_state st s (Schedule.principalId schedule)) <| Plane.schedules :=
    JsMap.set id (schedule <| Schedule.nextRunAt := cursor |> <| Schedule.lastRunAt := Some nowIso |>)
      (JsMap.set id (schedule <| Schedule.nextRunAt := cursor |>) (Plane.schedules st)) |>;
  cl_public : publicRecord pub = publicRecord (toPublic st' s true);
}.

(** The cursor of the schedule, if it moved. *)
Definition cursor_moved (st : ControlPlaneState) (id nowIso : string) (st' : ControlPlaneState) : Prop :=
  Plane.schedules st' = Plane.schedules st \/
  exists schedule cursor, JsMap.get id (Plane.schedules st) = Some schedule /\
    nextRunAt schedule nowIso = Some cursor /\
    Plane.schedules st' = JsMap.set id (schedule <| Schedule.nextRunAt := cursor |>) (Plane.schedules st).

Lemma drawn_only_schedules st st1 m : only_drawn st st1 -> only_schedules st (st1 <| Plane.schedules := m |>).
Proof. intros [-> | ->]; unfold only_schedules; (split; [by destruct st|cbn; lia]). Qed.

Lemma drawn_schedules st st1 : only_drawn st st1 -> only_schedules st st1 /\ Plane.schedules st1 = Plane.schedules st.
Proof. intros [-> | ->]; unfold only_schedules; (split; [split; [by destruct st|cbn; lia]|done]). Qed.

Lemma claim_shape st id expected nowIso r st' :
  tryClaimScheduleFire st id expected nowIso = (r, st') ->
  (only_schedules st st' /\ cursor_moved st id nowIso st' /\ (r = None \/ r = Some None)) \/
  (exists pub schedule s cursor, r = Some (Some pub) /\ claimed st id expected nowIso pub st' schedule s cursor).
Proof.
  assert (Hsame : forall st', only_drawn st st' -> forall r, (r = None \/ r = Some None) ->
    only_schedules st st' /\ cursor_moved st id nowIso st' /\ (r = None \/ (r : option (option PublicSession)) = Some None)).
  { intros st2 Hd r2 Hr. destruct (drawn_schedules st st2 Hd). split; [done|]. split; [by left|done]. }
  unfold tryClaimScheduleFire.
  destruct (JsMap.get id (Plane.schedules st)) as [schedule|] eqn:G; [|intros [= <- <-]; left; apply Hsame; [by left|by right]].
  destruct (negb (Schedule.enabled schedule)) eqn:Hen; [intros [= <- <-]; left; apply Hsame; [by left|by right]|].
  destruct (nextRunAt schedule nowIso) as [cursor|] eqn:Hn; [|intros [= <- <-]; left; apply Hsame; [by left|by right]].
  destruct (negb (str_eqb _ _)) eqn:Hcur; [intros [= <- <-]; left; apply Hsame; [by left|by right]|].
  destruct (date_gt _ _) eqn:Hdue; [intros [= <- <-]; left; apply Hsame; [by left|by right]|].
  assert (Hmove : forall st1, only_drawn st st1 ->
    only_schedules st (set_schedule st1 id (schedule <| Schedule.nextRunAt := cursor |>)) /\
    cursor_moved st id nowIso (set_schedule st1 id (schedule <| Schedule.nextRunAt := cursor |>))).
  { intros st1 Hd. destruct (drawn_schedules st st1 Hd) as [_ Es]. unfold set_schedule. split; [by apply drawn_only_schedules|].
    right. exists schedule, cursor. split; [done|]. split; [done|].
    change (JsMap.set id (schedule <| Schedule.nextRunAt := cursor |>) (Plane.schedules st1) =
            JsMap.set id (schedule <| Schedule.nextRunAt := cursor |>) (Plane.schedules st)). by rewrite Es. }
  destruct (before_activation _ _ _).
  { intros [= <- <-]. left. destruct (Hmove st) as [? ?]; [by left|]. split; [done|]. split; [done|by right]. }
  destruct (resolveScheduledTarget st schedule) as [names|]; [|intros [= <- <-]; left; apply Hsame; [by left|by right]].
  fold cron_options. destruct (createSession _ _ _ _) as [out st1] eqn:Hc.
  pose proof (create_enters st (scheduledSessionInput st schedule) true cron_options) as He. rewrite Hc in He.
  cbn [fst snd] in He.
  destruct out as [reply|e c|].
  - destruct (replyCreated reply) eqn:Hcr; cbn [negb].
    + destruct (scheduled_create st schedule reply st1 Hc Hcr) as (s & Hf & Hl & Hroot & Hst & Hrep & Hof).
      assert (Hown : own_session (set_schedule st1 id (schedule <| Schedule.nextRunAt := cursor |>)) (reply_id reply)
        (Schedule.principalId schedule) = Some ((owned_state st s (Schedule.principalId schedule)) <| Plane.schedules :=
          JsMap.set id (schedule <| Schedule.nextRunAt := cursor |>) (Plane.schedules st1) |>)) by by apply own_created.
      rewrite Hown. intros [= <- <-]. right. exists (replySession reply), schedule, s, cursor. split; [done|].
      apply negb_false_iff in Hen, Hcur. apply str_eqb_true in Hcur.
      assert (Es : Plane.schedules st1 = Plane.schedules st) by by rewrite Hst.
      split; try done; [|by rewrite Hrep]. unfold set_schedule. rewrite Es. by destruct st.
    + intros [= <- <-]. left. destruct He as [[Hd _]|(s & _ & _ & _ & _ & [= ->])]; [|done].
      destruct (Hmove st1 Hd) as [? ?]. split; [done|]. split; [done|by right].
  - destruct He as [[Hd _]|(s & _ & _ & _ & _ & [=])].
    case_bool_decide; intros [= <- <-]; left; [|apply Hsame; [done|by right]].
    destruct (Hmove st1 Hd) as [? ?]. split; [done|]. split; [done|by right].
  - destruct He as [[Hd _]|(s & _ & _ & _ & _ & [=])]. intros [= <- <-]. left. apply Hsame; [done|by left].
Qed.

(** [C14] A due occurrence fires once.  A claim that creates a session stores exactly one new
    session, owned by the owner of the schedule and carrying its id, prompt, timeout and
    concurrency key, and moves the cursor strictly past the present; every later claim of the
    same occurrence, at whatever time, creates nothing and changes nothing while the record of
    the schedule is as the firing left it.  The present is in the years 100 to
    9991. *)
Theorem schedule_fires_once st id expected n pub st' :
  common_year n -> tryClaimScheduleFire st id expected (JsDate.toISOString n) = (Some (Some pub), st') ->
  (exists schedule s t,
     JsMap.get id (Plane.schedules st) = Some schedule /\ fresh_session st s /\ of_schedule schedule s /\
     JsMap.get (next_id st) (Plane.sessions st') =
       Some (s <| Session.principalId := Schedule.principalId schedule |>) /\
     (forall k, k <> next_id st -> JsMap.get k (Plane.sessions st') = JsMap.get k (Plane.sessions st)) /\
     JsMap.get id (Plane.schedules st') =
       Some (schedule <| Schedule.nextRunAt := JsDate.toISOString t |>
                      <| Schedule.lastRunAt := Some (JsDate.toISOString n) |>) /\
     n < t) /\
  (forall st2 nowIso, JsMap.get id (Plane.schedules st2) = JsMap.get id (Plane.schedules st') ->
     tryClaimScheduleFire st2 id expected nowIso = (Some None, st2)).
Proof.
  intros Hy H. apply claim_shape in H as [(_ & _ & [[=]|[=]])|(pub' & schedule & s & cursor & _ & Hc)].
  destruct Hc as [G Hen Hcur Hn Hdue Hf _ _ Hof Hst _].
  destruct (cursor_moves_on schedule n cursor Hy Hn) as (t & -> & Hlt & _).
  assert (Hentry : JsMap.get id (Plane.schedules st') = Some (schedule <| Schedule.nextRunAt := JsDate.toISOString t |>
    <| Schedule.lastRunAt := Some (JsDate.toISOString n) |>)) by (rewrite Hst; apply JsMap.get_set_eq).
  assert (Hsess : Plane.sessions st' = JsMap.set (next_id st) (s <| Session.principalId := Schedule.principalId schedule |>)
    (JsMap.set (next_id st) s (Plane.sessions st))).
  { rewrite Hst. unfold owned_state, persistSession. rewrite (fresh_persists st s Hf), (fs_id _ _ Hf). done. }
  split.
  - exists schedule, s, t. split; [done|]. split; [done|]. split; [done|]. rewrite Hsess.
    split; [apply JsMap.get_set_eq|]. split; [|done]. intros k Hk. by rewrite !JsMap.get_set_ne by done.
  - intros st2 nowIso E. unfold tryClaimScheduleFire. rewrite E, Hentry.
    change (Schedule.enabled (_ <| Schedule.lastRunAt := _ |>)) with (Schedule.enabled schedule). rewrite Hen. cbn [negb].
    destruct (nextRunAt _ nowIso) as [c|]; [|done].
    change (Schedule.nextRunAt (_ <| Schedule.lastRunAt := _ |>)) with (JsDate.toISOString t).
    destruct (str_eqb (JsDate.toISOString t) expected) eqn:Eq; [|done]. apply str_eqb_true in Eq. exfalso.
    apply (cursor_changes schedule n expected (JsDate.toISOString t)); [done|done|done| |done].
    rewrite <- Hcur. unfold nextRunAt in Hn. destruct (isValidPersistedCursor _) eqn:Ev; [|done].
    unfold isValidPersistedCursor in Ev. by apply andb_true_iff in Ev as [_ ?].
Qed.

(** ** A manual trigger and a pass *)
Lemma trigger_shape st id nowIso :
  only_schedules st (triggerSchedule st id nowIso).2 \/
  (exists s principalId m, fresh_session st s /\ lock_free st s /\ Session.rootSessionId s = None /\
     (triggerSchedule st id nowIso).2 = (owned_state st s principalId) <| Plane.schedules := m |>).
Proof.
  assert (Hself : only_schedules st st) by (apply drawn_schedules; by left).
  unfold triggerSchedule. destruct (JsMap.get id (Plane.schedules st)) as [schedule|]; [|by left].
  destruct (negb _); [by left|]. destruct (nextRunAt schedule nowIso) as [cursor|]; [|by left].
  destruct (resolveScheduledTarget st schedule); [|by left].
  fold cron_options. destruct (createSession _ _ _ _) as [out st1] eqn:Hc.
  pose proof (create_enters st (scheduledSessionInput st schedule) true cron_options) as He. rewrite Hc in He.
  cbn [fst snd] in He. destruct out as [reply|e c|].
  - destruct (replyCreated reply) eqn:Hcr.
    + destruct (scheduled_create st schedule reply st1 Hc Hcr) as (s & Hf & Hl & Hroot & Hst & Hrep & _).
      assert (Hown : own_session st1 (reply_id reply) (Schedule.principalId schedule) =
        Some ((owned_state st s (Schedule.principalId schedule)) <| Plane.schedules := Plane.schedules st1 |>)).
      { rewrite <- (own_created st s st1 (Plane.schedules st1) (Schedule.principalId schedule) reply Hf Hst Hrep). by destruct st1. }
      rewrite Hown. right. exists s, (Schedule.principalId schedule).
      exists (JsMap.set id (schedule <| Schedule.nextRunAt := cursor |> <| Schedule.lastRunAt := Some nowIso |>)
                (Plane.schedules st1)). split; [done|]. split; [done|]. split; [done|]. by destruct st.
    + left. destruct He as [[Hd _]|(s & _ & _ & _ & _ & [= ->])]; [|done]. by apply drawn_schedules.
  - left. destruct He as [[Hd _]|(s & _ & _ & _ & _ & [=])]. by apply drawn_schedules.
  - left. destruct He as [[Hd _]|(s & _ & _ & _ & _ & [=])]. by apply drawn_schedules.
Qed.

(** The ids still to be drawn are new and different. *)
Record id_supply (st : ControlPlaneState) : Prop := {
  ids_new : forall i, Plane.idsDrawn st <= i -> JsMap.get (Plane.idFactory st i) (Plane.sessions st) = None;
  ids_different : forall i j, Plane.idsDrawn st <= i -> Plane.idsDrawn st <= j ->
    Plane.idFactory st i = Plane.idFactory st j -> i = j;
}.

Lemma supply_next st : id_supply st -> JsMap.get (next_id st) (Plane.sessions st) = None.
Proof. intros H. apply (ids_new _ H). lia. Qed.

Lemma only_schedules_fields st st' : only_schedules st st' ->
  Plane.sessions st' = Plane.sessions st /\ Plane.idFactory st' = Plane.idFactory st /\
  Plane.worktrees st' = Plane.worktrees st /\ Plane.pendingAcks st' = Plane.pendingAcks st /\
  Plane.idsDrawn st <= Plane.idsDrawn st'.
Proof.
  intros [E Hle]. repeat split; [exact (f_equal Plane.sessions E)|exact (f_equal Plane.idFactory E)|
    exact (f_equal Plane.worktrees E)|exact (f_equal Plane.pendingAcks E)|done].
Qed.

Lemma owned_sessions st s p : fresh_session st s ->
  Plane.sessions (owned_state st s p) =
  JsMap.set (next_id st) (s <| Session.principalId := p |>) (JsMap.set (next_id st) s (Plane.sessions st)).
Proof. intros Hf. unfold owned_state, persistSession. by rewrite (fresh_persists st s Hf), (fs_id _ _ Hf). Qed.

Lemma supply_kept st id expected nowIso : id_supply st -> id_supply (tryClaimScheduleFire st id expected nowIso).2.
Proof.
  intros H. destruct (tryClaimScheduleFire st id expected nowIso) as [r st'] eqn:E. cbn [snd].
  destruct (claim_shape _ _ _ _ _ _ E) as [(Ho & _)|(pub & schedule & s & cursor & _ & Hc)].
  - destruct (only_schedules_fields _ _ Ho) as (Es & Ef & _ & _ & Hle).
    split; intros i; rewrite ?Es, ?Ef; [intros Hi; apply (ids_new _ H); lia|].
    intros j Hi Hj. apply (ids_different _ H); lia.
  - rewrite (cl_state _ _ _ _ _ _ _ _ _ Hc). pose proof (cl_fresh _ _ _ _ _ _ _ _ _ Hc) as Hf.
    split; cbn [Plane.idsDrawn].
    + intros i Hi. change (Plane.idsDrawn st + 1 <= i) in Hi.
      change (JsMap.get (Plane.idFactory st i) (Plane.sessions (owned_state st s (Schedule.principalId schedule))) = None).
      rewrite owned_sessions by done.
      assert (next_id st <> Plane.idFactory st i) by (intros Eq; apply (ids_different _ H) in Eq; lia).
      rewrite !JsMap.get_set_ne by done. apply (ids_new _ H). lia.
    + intros i j Hi Hj. change (Plane.idsDrawn st + 1 <= i) in Hi. change (Plane.idsDrawn st + 1 <= j) in Hj.
      apply (ids_different _ H); lia.
Qed.

(** A pass is a sequence of claims. *)
Lemma fire_due_rel (R : ControlPlaneState -> ControlPlaneState -> Prop) nowIso nowMs :
  (forall st, R st st) -> (forall st1 st2 st3, R st1 st2 -> R st2 st3 -> R st1 st3) ->
  (forall st id expected, id_supply st -> R st (tryClaimScheduleFire st id expected nowIso).2) ->
  forall keys st, id_supply st -> R st (fire_due keys st nowIso nowMs).2 /\ id_supply (fire_due keys st nowIso nowMs).2.
Proof.
  intros Hrefl Htrans Hclaim. induction keys as [|k keys IH]; intros st Hs; cbn [fire_due]; [by split|].
  destruct (JsMap.get k (Plane.schedules st)) as [schedule|]; [|by apply IH].
  destruct (_ || _); [by apply IH|].
  pose proof (Hclaim st (Schedule.id schedule) (Schedule.nextRunAt schedule) Hs) as H1.
  pose proof (supply_kept st (Schedule.id schedule) (Schedule.nextRunAt schedule) nowIso Hs) as Hs1.
  destruct (tryClaimScheduleFire _ _ _ _) as [[fired|] st1]; cbn [snd] in H1, Hs1; [|by split].
  destruct (IH st1 Hs1) as [H2 Hs2]. destruct (fire_due keys st1 nowIso nowMs) as [[created|] st2];
    cbn [snd] in H2, Hs2 |- *; (split; [by eapply Htrans|done]).
Qed.

Lemma cron_rel (R : ControlPlaneState -> ControlPlaneState -> Prop) nowIso st :
  (forall st, R st st) -> (forall st1 st2 st3, R st1 st2 -> R st2 st3 -> R st1 st3) ->
  (forall st id expected, id_supply st -> R st (tryClaimScheduleFire st id expected nowIso).2) ->
  id_supply st -> R st (evaluateCron st nowIso).2.
Proof.
  intros Hrefl Htrans Hclaim Hs. unfold evaluateCron. destruct (negb _); [apply Hrefl|].
  by apply fire_due_rel.
Qed.
End properties.

(** ** Witnesses *)
#[local] Existing Instance iso_date_parse.

(** Due every hour. *)
Definition example_schedule : ScheduleRecord :=
  Schedule.mkSchedule "nightly" "repo" None None None "Nightly" (target_command "cmd-wt") [] [] "0 * * * *" true 600 300
    "2026-01-01T00:00:00.000Z" None "2025-12-01T00:00:00.000Z" None None (Some "alice") (Some " sweep ").

Definition scheduled_state : ControlPlaneState :=
  example_state <| Plane.schedules := [("nightly", example_schedule)] |>.

(** Ten minutes past the hour. *)
Definition example_fire_time : Z := 1767226200000.

#[local] Notation example_claim :=
  (tryClaimScheduleFire scheduled_state "nightly" "2026-01-01T00:00:00.000Z" (JsDate.toISOString example_fire_time)).

Lemma example_claims : exists pub st', example_claim = (Some (Some pub), st').
Proof. do 2 eexists. vm_compute. reflexivity. Qed.

Lemma schedule_fires_once_witness :
  Session.prompt <$> JsMap.get "id-0" (Plane.sessions example_claim.2) = Some "sweep" /\
  tryClaimScheduleFire example_claim.2 "nightly" "2026-01-01T00:00:00.000Z" "2026-01-01T03:00:00.000Z" =
    (Some None, example_claim.2).
Proof.
  split; [vm_compute; reflexivity|].
  assert (common_year example_fire_time) as Hy by (vm_compute; split; discriminate).
  destruct example_claims as (pub & st' & E). rewrite E.
  exact (proj2 (schedule_fires_once scheduled_state "nightly" "2026-01-01T00:00:00.000Z"
    example_fire_time pub st' Hy E) st' "2026-01-01T03:00:00.000Z" eq_refl).
Defined.
