(* ===== verification/Schedules.v ===== *)
(** * Managing schedules

    services/api/src/control-plane-schedules.ts and the prompt helpers of
    control-plane-schedule-prompt.ts, without a storage: how a schedule is put, patched,
    listed and deleted, what every stored schedule satisfies, and that a well-formed schedule
    that is due fires ([ScheduleFire]).  Nobody writes [undefined] into an input or a patch:
    the routes leave the member out, so a missing member is [None] or [Undef]. *)

From Stdlib Require Import ZArith Lia Ascii String.
From stdpp Require Import base strings list.
From S2P Require Import Prelude DateTime Cron Types Ordering CommandResume SessionTarget AccountLeases Placement Worktrees.
From S2P Require Import Assignment CheckoutAssignment Validation SessionCreate SessionAdmission ScheduleFire.

Local Open Scope string_scope.
Local Open Scope Z_scope.
Local Open Scope validation_scope.

(** ** Prompts *)
Definition storedSchedulePrompt (value : option string) : option string := truthy_opt (trim <$> value).

Definition applyStoredPrompt (record : ScheduleRecord) (value : string) : ScheduleRecord :=
  record <| Schedule.prompt := storedSchedulePrompt (Some value) |>.

(** ** Inputs *)

(** [repositoryId] is [None] for [null]. *)
Record ScheduleInput := mkScheduleInput {
  si_repositoryId : option string;
  si_workspacePoolId : option string;
  si_setupProfileId : nullable string;
  si_destroyWorkspaceAfter : nullable bool;
  si_requiredLabels : option json;
  si_setupScript : option json;
  si_name : string;
  si_target : option json;
  si_fallbacks : option json;
  si_cron : string;
  si_timeout : Z;
  si_queueTtlSeconds : option Z;
  si_nextRunAt : option string;
  si_enabled : option bool;
  si_ref : option string;
  si_concurrencyId : option string;
  si_prompt : option string;
  si_id : option string;
  si_principalId : option string;
}.

(** [Partial<Omit<ScheduleInput, "id">>]. *)
Record SchedulePatch := mkSchedulePatch {
  sp_repositoryId : nullable string;
  sp_workspacePoolId : option string;
  sp_setupProfileId : nullable string;
  sp_destroyWorkspaceAfter : nullable bool;
  sp_requiredLabels : option json;
  sp_setupScript : option json;
  sp_name : option string;
  sp_target : option json;
  sp_fallbacks : option json;
  sp_cron : option string;
  sp_timeout : option Z;
  sp_queueTtlSeconds : option Z;
  sp_nextRunAt : option string;
  sp_enabled : option bool;
  sp_ref : option string;
  sp_concurrencyId : option string;
  sp_prompt : option string;
  sp_principalId : option string;
}.

(** ** The mode of a schedule *)
Inductive ScheduleMode :=
| repository_mode (repositoryId : string)
| workspace_mode (workspacePoolId : string) (setupProfileId : option string).

(** The guard on the type of [destroyWorkspaceAfter] holds of every boolean. *)
Definition validateScheduleMode (state : ControlPlaneState) (input : ScheduleInput) : ValidationResult ScheduleMode :=
  reject is_some (si_setupScript input) with "setupScript is not accepted by schedule inputs";
  reject match si_requiredLabels input with None | Some (JArray _) => false | Some _ => true end
    with "requiredLabels must be an array";
  reject match si_requiredLabels input with Some (JArray (_ :: _)) => true | _ => false end
    with "requiredLabels are not supported by schedule inputs";
  match truthy_opt (si_repositoryId input) with
  | Some repositoryId =>
      reject negb (truthy (trim repositoryId)) with "repositoryId is required";
      reject is_some (si_workspacePoolId input) ||
             match si_setupProfileId input with Undef => false | _ => true end ||
             match si_destroyWorkspaceAfter input with Undef => false | _ => true end
        with "workspace fields require repositoryId to be null";
      valid (repository_mode repositoryId)
  | None =>
      match si_workspacePoolId input with
      | None => invalid "workspacePoolId is required for workspace schedules"
      | Some poolId =>
          reject negb (truthy (trim poolId)) with "workspacePoolId is required for workspace schedules";
          reject is_some (si_ref input) with "ref is not supported for workspace schedules";
          reject match si_setupProfileId input with Val p => negb (truthy (trim p)) | _ => false end
            with "setupProfileId must not be empty";
          match JsMap.get poolId (Plane.workspacePools state) with
          | None => invalid "workspace pool not found"
          | Some pool =>
              let setupProfileId := truthy_nul (si_setupProfileId input) in
              reject match setupProfileId with
                     | Some p => negb (existsb (fun profile => str_eqb (Profile.id profile) p) (Pool.setupProfiles pool))
                     | None => false
                     end
                with "workspace setup profile not found";
              valid (workspace_mode poolId setupProfileId)
          end
      end
  end.

Definition mode_repository (mode : ScheduleMode) : string :=
  match mode with repository_mode r => r | workspace_mode _ _ => "" end.

Definition mode_pool (mode : ScheduleMode) : option string :=
  match mode with repository_mode _ => None | workspace_mode p _ => Some p end.

Definition mode_profile (mode : ScheduleMode) : option string :=
  match mode with repository_mode _ => None | workspace_mode _ profile => truthy_opt profile end.

(** ** Creating *)

(** [value?.trim() || `schedule-${id}`]. *)
Definition lock_or_default (value : option string) (id : string) : string :=
  opt_or (truthy_opt (trim <$> value)) ("schedule-" ++ id).

Definition lock_error (concurrencyId : string) : option string :=
  if isReservedConcurrencyId concurrencyId then Some "concurrencyId uses a reserved internal prefix"
  else concurrencyIdByteLengthError concurrencyId.

(** [drawn] is the id [state.scheduleIdFactory] draws when the input has none. *)
Definition preparePutSchedule (state : ControlPlaneState) (drawn : string) (input : ScheduleInput)
    : ValidationResult ScheduleRecord :=
  mode <-! validateScheduleMode state input;
  let now := Plane.now state in
  reject negb (isValidUtcTimestamp now) with "server clock must be an ISO-8601 UTC timestamp";
  reject match si_ref input with Some r => negb (isValidScheduledBranchRef r) | None => false end
    with "ref must be a valid scheduled branch name";
  reject match si_nextRunAt input with Some t => negb (isValidUtcTimestamp t) | None => false end
    with "nextRunAt must be an ISO-8601 UTC timestamp";
  match nextCronOccurrence (si_cron input) now with
  | None => invalid "cron must be a valid five-field UTC expression"
  | Some nextRunAt =>
      routing <-! validateTargetRouting (si_target input) (si_fallbacks input) (JNumber <$> si_queueTtlSeconds input)
                    MAX_SCHEDULE_FALLBACKS;
      displayNames <-! resolveTargetDisplayNames state (routingTarget routing) (routingFallbacks routing);
      let id := opt_or (si_id input) drawn in
      let concurrencyId := lock_or_default (si_concurrencyId input) id in
      fails lock_error concurrencyId;
      valid (Schedule.mkSchedule id (mode_repository mode) (mode_pool mode) (mode_profile mode)
        (match mode with workspace_mode _ _ => nul_opt (si_destroyWorkspaceAfter input) | repository_mode _ => None end)
        (si_name input) (routingTarget routing) (routingFallbacks routing) displayNames (si_cron input)
        (opt_or (si_enabled input) true) (si_timeout input) (routingTtl routing) nextRunAt None now (si_ref input)
        (Some concurrencyId) (Some (opt_or (si_principalId input) "system")) (storedSchedulePrompt (si_prompt input)))
  end.

Definition putSchedule (state : ControlPlaneState) (drawn : string) (input : ScheduleInput)
    : Outcome ScheduleRecord * ControlPlaneState :=
  match preparePutSchedule state drawn input with
  | invalid e => (refused e None, state)
  | valid schedule => (succeeded schedule, set_schedule state (Schedule.id schedule) schedule)
  end.

Definition putScheduleDurable (state : ControlPlaneState) (drawn : string) (input : ScheduleInput)
    : Outcome ScheduleRecord * ControlPlaneState :=
  match validateScheduleMode state input with
  | invalid e => (refused e None, state)
  | valid mode =>
      match truthy_opt (Some (mode_repository mode)) with
      | None => putSchedule state drawn input
      | Some r =>
          if negb (JsMap.has r (Plane.repositories state)) then (refused "repository not found" None, state)
          else
            match repositoryAdmissionFailure state r with
            | Some (e, c) => (refused e (Some c), state)
            | None => putSchedule state drawn input
            end
      end
  end.

(** ** Reading *)

(** The stored record with its lock and the session that holds it. *)
Definition withActiveSession (state : ControlPlaneState) (schedule : ScheduleRecord)
    : ScheduleRecord * option string :=
  let concurrencyId := lock_or_default (Schedule.concurrencyId schedule) (Schedule.id schedule) in
  (schedule <| Schedule.concurrencyId := Some concurrencyId |>,
   Session.id <$> activeSessionForConcurrency state concurrencyId).

Definition getSchedule (state : ControlPlaneState) (id : string) : option (ScheduleRecord * option string) :=
  withActiveSession state <$> JsMap.get id (Plane.schedules state).

Definition listSchedules (state : ControlPlaneState) : list (ScheduleRecord * option string) :=
  map (withActiveSession state) (JsMap.values (Plane.schedules state)).

(** ** Updating *)

(** [patch.x ?? existing.x] on an [unknown] member. *)
Definition patched (value : option json) (existing : json) : option json :=
  match value with None | Some JNull => Some existing | Some v => Some v end.

Definition opt_nullable {A} (x : option A) : nullable A := match x with Some a => Val a | None => Undef end.

(** [{ ...existing, ...patch }], before one mode's members are dropped. *)
Definition merged_repository (existing : ScheduleRecord) (patch : SchedulePatch) : option string :=
  match sp_repositoryId patch with
  | Undef => truthy_opt (Some (Schedule.repositoryId existing))
  | Null => None
  | Val r => Some r
  end.

Definition nul_else {A} (x y : nullable A) : nullable A := match x with Undef => y | _ => x end.

Definition mergedInput (existing : ScheduleRecord) (patch : SchedulePatch) : ScheduleInput :=
  let repositoryId := merged_repository existing patch in
  let repository := is_some (truthy_opt repositoryId) in
  mkScheduleInput repositoryId
    (if repository then None else opt_else (sp_workspacePoolId patch) (Schedule.workspacePoolId existing))
    (if repository then Undef else nul_else (sp_setupProfileId patch) (opt_nullable (Schedule.setupProfileId existing)))
    (if repository then Undef
     else nul_else (sp_destroyWorkspaceAfter patch) (opt_nullable (Schedule.destroyWorkspaceAfter existing)))
    (sp_requiredLabels patch) (sp_setupScript patch) (opt_or (sp_name patch) (Schedule.name existing))
    (opt_else (sp_target patch) (Some (target_json (Schedule.target existing))))
    (opt_else (sp_fallbacks patch) (Some (JArray (map target_json (Schedule.fallbacks existing)))))
    (opt_or (sp_cron patch) (Schedule.cron existing)) (opt_or (sp_timeout patch) (Schedule.timeout existing))
    (opt_else (sp_queueTtlSeconds patch) (Some (Schedule.queueTtlSeconds existing)))
    (opt_else (sp_nextRunAt patch) (Some (Schedule.nextRunAt existing)))
    (opt_else (sp_enabled patch) (Some (Schedule.enabled existing)))
    (if repository then opt_else (sp_ref patch) (Schedule.ref existing) else None)
    (opt_else (sp_concurrencyId patch) (Schedule.concurrencyId existing))
    (opt_else (sp_prompt patch) (Schedule.prompt existing)) (Some (Schedule.id existing))
    (opt_else (sp_principalId patch) (Schedule.principalId existing)).

Definition prepareUpdateSchedule (state : ControlPlaneState) (id : string) (patch : SchedulePatch)
    : ValidationResult ScheduleRecord :=
  match JsMap.get id (Plane.schedules state) with
  | None => invalid "schedule not found"
  | Some existing =>
      reject negb (is_some (truthy_opt (Schedule.principalId existing)))
        with "schedule must be claimed by an authenticated principal";
      reject match sp_principalId patch with Some p => negb (bool_decide (Some p = Schedule.principalId existing)) | None => false end
        with "schedule ownership cannot be transferred";
      let now := Plane.now state in
      let merged := mergedInput existing patch in
      mode <-! validateScheduleMode state merged;
      reject negb (isValidUtcTimestamp now) with "server clock must be an ISO-8601 UTC timestamp";
      reject match sp_nextRunAt patch with Some t => negb (isValidUtcTimestamp t) | None => false end
        with "nextRunAt must be an ISO-8601 UTC timestamp";
      match nextCronOccurrence (opt_or (sp_cron patch) (Schedule.cron existing)) now with
      | None => invalid "cron must be a valid five-field UTC expression"
      | Some nextRunAt =>
          reject match sp_ref patch with Some r => negb (isValidScheduledBranchRef r) | None => false end
            with "ref must be a valid scheduled branch name";
          let concurrencyId := lock_or_default (opt_else (sp_concurrencyId patch) (Schedule.concurrencyId existing)) id in
          fails lock_error concurrencyId;
          routing <-! validateTargetRouting (patched (sp_target patch) (target_json (Schedule.target existing)))
                        (patched (sp_fallbacks patch) (JArray (map target_json (Schedule.fallbacks existing))))
                        (Some (JNumber (opt_or (sp_queueTtlSeconds patch) (Schedule.queueTtlSeconds existing))))
                        MAX_SCHEDULE_FALLBACKS;
          displayNames <-! resolveTargetDisplayNames state (routingTarget routing) (routingFallbacks routing);
          let next := Schedule.mkSchedule (Schedule.id existing) (mode_repository mode) (mode_pool mode) (mode_profile mode)
            (match mode with workspace_mode _ _ => nul_opt (si_destroyWorkspaceAfter merged) | repository_mode _ => None end)
            (opt_or (sp_name patch) (Schedule.name existing)) (routingTarget routing) (routingFallbacks routing)
            displayNames (opt_or (sp_cron patch) (Schedule.cron existing))
            (opt_or (sp_enabled patch) (Schedule.enabled existing)) (opt_or (sp_timeout patch) (Schedule.timeout existing))
            (routingTtl routing) nextRunAt (Schedule.lastRunAt existing) (Schedule.createdAt existing)
            (match mode with
             | repository_mode _ => opt_else (sp_ref patch) (Schedule.ref existing)
             | workspace_mode _ _ => None
             end)
            (Some concurrencyId) (opt_else (sp_principalId patch) (Schedule.principalId existing))
            (Schedule.prompt existing) in
          valid match sp_prompt patch with Some p => applyStoredPrompt next p | None => next end
      end
  end.

Definition updateSchedule (state : ControlPlaneState) (id : string) (patch : SchedulePatch)
    : Outcome ScheduleRecord * ControlPlaneState :=
  match prepareUpdateSchedule state id patch with
  | invalid e => (refused e None, state)
  | valid schedule => (succeeded schedule, set_schedule state id schedule)
  end.

(** ** Deleting *)
Definition deleteSchedule (state : ControlPlaneState) (id : string) : Outcome unit * ControlPlaneState :=
  if negb (JsMap.has id (Plane.schedules state)) then (refused "schedule not found" None, state)
  else (succeeded (), state <| Plane.schedules := JsMap.delete id (Plane.schedules state) |>).

(** ** What a stored schedule satisfies *)

(** A repository schedule has nothing of a workspace, a workspace schedule no ref. *)
Definition schedule_kind (s : ScheduleRecord) : Prop :=
  match Schedule.workspacePoolId s with
  | None => Schedule.repositoryId s <> "" /\ Schedule.setupProfileId s = None /\ Schedule.destroyWorkspaceAfter s = None
  | Some p => p <> "" /\ Schedule.repositoryId s = "" /\ Schedule.setupProfileId s <> Some "" /\ Schedule.ref s = None
  end.

Record schedule_ok (s : ScheduleRecord) : Prop := {
  sk_kind : schedule_kind s;
  sk_ref : forall r, Schedule.ref s = Some r -> isValidScheduledBranchRef r = true;
  sk_named : Forall target_named (Schedule.target s :: Schedule.fallbacks s);
  sk_targets : NoDup (Schedule.target s :: Schedule.fallbacks s);
  sk_fallbacks : Z.of_nat (length (Schedule.fallbacks s)) <= 88;
  sk_ttl : 1 <= Schedule.queueTtlSeconds s <= 2592000;
  sk_lock : exists c, Schedule.concurrencyId s = Some c /\ c <> "" /\ isReservedConcurrencyId c = false /\ utf8_length c <= 2048;
  sk_owner : exists p, Schedule.principalId s = Some p;
  sk_cursor : exists at_, nextCronOccurrence (Schedule.cron s) at_ = Some (Schedule.nextRunAt s);
}.

(** The same, with what only the plane knows: the targets, the pool and the profile exist and the
    names are theirs. *)
Record schedule_resolves (st : ControlPlaneState) (s : ScheduleRecord) : Prop := {
  sr_names : resolveTargetDisplayNames st (Schedule.target s) (Schedule.fallbacks s) = valid (Schedule.targetDisplayNames s);
  sr_pool : forall p, Schedule.workspacePoolId s = Some p -> exists pool, JsMap.get p (Plane.workspacePools st) = Some pool /\
    forall i, Schedule.setupProfileId s = Some i ->
      existsb (fun profile => str_eqb (Profile.id profile) i) (Pool.setupProfiles pool) = true;
}.

Lemma trim_filled s : truthy (trim s) = true -> s <> "".
Proof. by intros H ->. Qed.

(** The members of a mode are those of its input. *)
Lemma mode_kind st input mode :
  validateScheduleMode st input = valid mode ->
  match mode with
  | repository_mode r => r <> ""
  | workspace_mode p profile => p <> "" /\ si_ref input = None /\ profile <> Some "" /\
      exists pool, JsMap.get p (Plane.workspacePools st) = Some pool /\
        forall i, profile = Some i -> existsb (fun q => str_eqb (Profile.id q) i) (Pool.setupProfiles pool) = true
  end.
Proof.
  unfold validateScheduleMode. intros H. peel H.
  destruct (truthy_opt (si_repositoryId input)) as [r|] eqn:Er.
  - apply truthy_opt_Some in Er as [_ Hr]. peel H. by injection H as <-.
  - destruct (si_workspacePoolId input) as [p|]; [|done]. peel H.
    destruct (JsMap.get p (Plane.workspacePools st)) as [pool|] eqn:Gp; [|done]. cbv zeta in H. peel H.
    injection H as <-. repeat match goal with E : negb _ = false |- _ => apply negb_false_iff in E end.
    split; [by apply trim_filled|]. split; [by destruct (si_ref input)|].
    split. { intros E. by apply truthy_nul_Some in E as [_ ?]. }
    exists pool. split; [done|]. intros i Ei. match goal with E : match truthy_nul _ with _ => _ end = false |- _ =>
      rewrite Ei in E; by apply negb_false_iff in E end.
Qed.

Lemma lock_error_none c : lock_error c = None -> isReservedConcurrencyId c = false /\ utf8_length c <= 2048.
Proof.
  unfold lock_error, concurrencyIdByteLengthError, MAX_CONCURRENCY_ID_BYTES.
  destruct (isReservedConcurrencyId c); [done|]. destruct (2048 <? _) eqn:E; [done|]. intros _. split; [done|lia].
Qed.

Lemma lock_or_default_filled v id : lock_or_default v id <> "".
Proof.
  unfold lock_or_default. destruct (truthy_opt _) as [c|] eqn:E; [|done]. by apply truthy_opt_Some in E as [_ ?].
Qed.

(** The parts of a schedule that its mode, cursor, lock and routing decide. *)
Lemma built_ok st input mode id pool_destroy name names cron enabled timeout last created ref lock owner prompt
    routing t fb ttl cursor at_ s :
  s = Schedule.mkSchedule id (mode_repository mode) (mode_pool mode) (mode_profile mode)
    (match mode with workspace_mode _ _ => pool_destroy | repository_mode _ => None end) name (routingTarget routing)
    (routingFallbacks routing) names cron enabled timeout (routingTtl routing) cursor last created
    (match mode with repository_mode _ => ref | workspace_mode _ _ => None end) (Some lock) owner prompt ->
  validateScheduleMode st input = valid mode ->
  validateTargetRouting t fb ttl MAX_SCHEDULE_FALLBACKS = valid routing ->
  resolveTargetDisplayNames st (routingTarget routing) (routingFallbacks routing) = valid names ->
  lock_error lock = None -> lock <> "" -> nextCronOccurrence cron at_ = Some cursor -> is_some owner = true ->
  ((forall r, ref = Some r -> isValidScheduledBranchRef r = true) -> schedule_ok s) /\ schedule_resolves st s.
Proof.
  intros Hs Hm Hr Hn Hlock Hfilled Hcur Hown. apply mode_kind in Hm.
  apply validateTargetRouting_ok in Hr as (Ht & Hlen & Hnamed & Hnd & Httl); [|done].
  destruct (lock_error_none _ Hlock) as [Hres Hbytes].
  split.
  - intros Href. split; subst s; cbn -[isValidScheduledBranchRef isReservedConcurrencyId utf8_length nextCronOccurrence].
    + destruct mode as [r|p profile]; cbn; [done|]. destruct Hm as (Hp & _ & Hprof & _). repeat split; [done|].
      destruct profile as [q|]; [|done]. simpl. by destruct (truthy q) eqn:E.
    + destruct mode; [done|by intros r].
    + by constructor.
    + done.
    + done.
    + done.
    + by exists lock.
    + destruct owner as [p|]; [by exists p|done].
    + by exists at_.
  - split; subst s; cbn [Schedule.target Schedule.fallbacks Schedule.targetDisplayNames
      Schedule.workspacePoolId Schedule.setupProfileId]; [done|].
    destruct mode as [r|p profile]; cbn [mode_pool mode_profile]; [done|]. intros q [= <-].
    destruct Hm as (_ & _ & _ & pool & Gp & Hprof). exists pool. split; [done|]. intros i Hi.
    apply truthy_opt_Some in Hi as [Hi _]. by apply Hprof.
Qed.

(** The guard on an optional ref. *)
Lemma ref_checked ref r :
  match ref with Some r => negb (isValidScheduledBranchRef r) | None => false end = false ->
  ref = Some r -> isValidScheduledBranchRef r = true.
Proof. intros H ->. by apply negb_false_iff in H. Qed.

Lemma prepare_put_ok st drawn input s :
  preparePutSchedule st drawn input = valid s ->
  schedule_ok s /\ schedule_resolves st s /\ nextCronOccurrence (Schedule.cron s) (Plane.now st) = Some (Schedule.nextRunAt s) /\
  Schedule.id s = opt_or (si_id input) drawn /\ Schedule.principalId s = Some (opt_or (si_principalId input) "system").
Proof.
  unfold preparePutSchedule. intros H. peel H. cbv zeta in H. peel H.
  destruct (nextCronOccurrence _ _) as [cursor|] eqn:Hc; [|done]. peel H. injection H as H.
  match goal with E : validateScheduleMode _ _ = valid ?m |- _ => rename E into Hm; rename m into mode end.
  match goal with E : match si_ref input with _ => _ end = false |- _ => rename E into Href end.
  assert (Eref : si_ref input = match mode with repository_mode _ => si_ref input | workspace_mode _ _ => None end).
  { pose proof (mode_kind _ _ _ Hm). destruct mode; [done|naive_solver]. }
  rewrite Eref in H. symmetry in H.
  edestruct built_ok as [Hok Hres]; [exact H|exact Hm|eassumption|eassumption|eassumption| |exact Hc|done|].
  { apply lock_or_default_filled. }
  split; [by apply Hok; intros r; apply ref_checked|]. split; [done|]. by rewrite H.
Qed.

(** What an update may change. *)
Lemma prepare_update_ok st id patch s :
  prepareUpdateSchedule st id patch = valid s ->
  exists old, JsMap.get id (Plane.schedules st) = Some old /\ (schedule_ok old -> schedule_ok s) /\ schedule_resolves st s /\
    nextCronOccurrence (Schedule.cron s) (Plane.now st) = Some (Schedule.nextRunAt s) /\
    Schedule.id s = Schedule.id old /\ Schedule.principalId s = Schedule.principalId old /\
    Schedule.createdAt s = Schedule.createdAt old /\ Schedule.lastRunAt s = Schedule.lastRunAt old.
Proof.
  unfold prepareUpdateSchedule. destruct (JsMap.get id (Plane.schedules st)) as [old|] eqn:G; [|done].
  intros H. peel H. cbv zeta in H. peel H. destruct (nextCronOccurrence _ _) as [cursor|] eqn:Hc; [|done]. peel H.
  injection H as H. symmetry in H. exists old. split; [done|].
  match goal with E : match sp_principalId patch with _ => _ end = false |- _ => rename E into Hsame end.
  match goal with E : match sp_ref patch with _ => _ end = false |- _ => rename E into Href end.
  assert (Ep : opt_else (sp_principalId patch) (Schedule.principalId old) = Schedule.principalId old).
  { destruct (sp_principalId patch) as [p|]; [|done]. apply negb_false_iff, bool_decide_eq_true in Hsame. done. }
  rewrite Ep in H.
  assert (Hs : exists prompt, s = ltac:(match type of H with
    _ = match _ with Some _ => _ | None => ?next end => exact (next <| Schedule.prompt := prompt |>) end)).
  { destruct (sp_prompt patch) as [p|]; [by exists (storedSchedulePrompt (Some p))|by exists (Schedule.prompt old)]. }
  destruct Hs as [prompt Hs]. clear H.
  edestruct built_ok as [Hok Hres]; [exact Hs|eassumption|eassumption|eassumption|eassumption| |exact Hc| |].
  { apply lock_or_default_filled. }
  { by destruct (Schedule.principalId old). }
  split; [|split; [done|by rewrite Hs]]. intros Ho. apply Hok. intros r.
  destruct (sp_ref patch) as [x|]; [by apply ref_checked|]. apply (sk_ref _ Ho).
Qed.

(** ** The invariant of the stored schedules *)
Definition schedules_ok (st : ControlPlaneState) : Prop :=
  forall id s, JsMap.get id (Plane.schedules st) = Some s -> Schedule.id s = id /\ schedule_ok s.

(** What every later version of a schedule shares with it. *)
Definition same_schedule (s s' : ScheduleRecord) : Prop :=
  Schedule.id s' = Schedule.id s /\ Schedule.principalId s' = Schedule.principalId s /\
  Schedule.createdAt s' = Schedule.createdAt s.

(** An operation on schedules, with the arguments it may be given. *)
Inductive ScheduleOp :=
| op_put (drawn : string) (input : ScheduleInput)
| op_update (id : string) (patch : SchedulePatch)
| op_delete (id : string)
| op_trigger (id nowIso : string)
| op_claim (id expected nowIso : string)
| op_cron (nowIso : string).

Section operations.
Context {DP : DateParse}.

Definition apply_op (st : ControlPlaneState) (op : ScheduleOp) : ControlPlaneState :=
  match op with
  | op_put drawn input => (putScheduleDurable st drawn input).2
  | op_update id patch => (updateSchedule st id patch).2
  | op_delete id => (deleteSchedule st id).2
  | op_trigger id nowIso => (triggerSchedule st id nowIso).2
  | op_claim id expected nowIso => (tryClaimScheduleFire st id expected nowIso).2
  | op_cron nowIso => (evaluateCron st nowIso).2
  end.

(** The operations that may replace or remove the schedule: its deletion, and a put that names
    its id. *)
Definition may_replace (op : ScheduleOp) (id : string) : Prop :=
  match op with
  | op_put drawn input => opt_or (si_id input) drawn = id
  | op_delete i => i = id
  | _ => False
  end.

(** The schedules are [m], one of them moved on: its cursor, and perhaps its last run. *)
Definition moved_on (m m' : JsMap.t ScheduleRecord) : Prop :=
  forall id s', JsMap.get id m' = Some s' -> exists s, JsMap.get id m = Some s /\
    (s' = s \/ exists cursor at_ last, nextCronOccurrence (Schedule.cron s) at_ = Some cursor /\
       s' = s <| Schedule.nextRunAt := cursor |> <| Schedule.lastRunAt := last |>).

Definition kept_on (m m' : JsMap.t ScheduleRecord) : Prop :=
  forall id s, JsMap.get id m = Some s -> exists s', JsMap.get id m' = Some s' /\ same_schedule s s'.

Lemma moved_ok st st' : moved_on (Plane.schedules st) (Plane.schedules st') -> schedules_ok st -> schedules_ok st'.
Proof.
  intros Hm Hok id s' G. destruct (Hm id s' G) as (s & Gs & [-> | (cursor & at_ & last & Hc & ->)]); [by apply Hok|].
  destruct (Hok id s Gs) as [Hid []]. split; [done|]. split; try done. by exists at_.
Qed.

Lemma set_moved m id s cursor at_ last :
  JsMap.get id m = Some s -> nextCronOccurrence (Schedule.cron s) at_ = Some cursor ->
  let m' := JsMap.set id (s <| Schedule.nextRunAt := cursor |> <| Schedule.lastRunAt := last |>) m in
  moved_on m m' /\ kept_on m m'.
Proof.
  intros G Hc m'. subst m'. split; intros k x; rewrite JsMap.get_set; case_decide as Ek; [subst k| |subst k|].
  - intros [= <-]. exists s. split; [done|]. right. by exists cursor, at_, last.
  - intros Gk. exists x. auto.
  - intros Gk. eexists. split; [done|]. by simplify_eq.
  - intros Gk. by exists x.
Qed.

Lemma moved_refl m : moved_on m m /\ kept_on m m.
Proof. split; intros k x G; exists x; auto. by split. Qed.

Lemma next_run_of s nowIso cursor :
  nextRunAt s nowIso = Some cursor -> nextCronOccurrence (Schedule.cron s) nowIso = Some cursor.
Proof. unfold nextRunAt. by destruct (_ || _). Qed.

(** Only the cursor moved. *)
Lemma cursor_moved_on st id nowIso st' :
  cursor_moved st id nowIso st' ->
  moved_on (Plane.schedules st) (Plane.schedules st') /\ kept_on (Plane.schedules st) (Plane.schedules st').
Proof.
  intros [-> | (s & cursor & G & Hn & ->)]; [apply moved_refl|]. apply next_run_of in Hn.
  replace (s <| Schedule.nextRunAt := cursor |>) with
    (s <| Schedule.nextRunAt := cursor |> <| Schedule.lastRunAt := Schedule.lastRunAt s |>) by by destruct s.
  by eapply set_moved.
Qed.

Lemma set_twice {V} id (a b : V) m k : JsMap.get k (JsMap.set id a (JsMap.set id b m)) = JsMap.get k (JsMap.set id a m).
Proof. rewrite !JsMap.get_set. by case_decide. Qed.

Lemma claim_moves st id expected nowIso (m := Plane.schedules st)
    (m' := Plane.schedules (tryClaimScheduleFire st id expected nowIso).2) : moved_on m m' /\ kept_on m m'.
Proof.
  subst m m'. destruct (tryClaimScheduleFire st id expected nowIso) as [r st'] eqn:E. cbn [snd].
  destruct (claim_shape _ _ _ _ _ _ E) as [(_ & Hm & _)|(pub & s & ses & cursor & _ & Hc)]; [by eapply cursor_moved_on|].
  rewrite (cl_state _ _ _ _ _ _ _ _ _ Hc). cbn [Plane.schedules].
  pose proof (cl_schedule _ _ _ _ _ _ _ _ _ Hc) as G.
  pose proof (next_run_of _ _ _ (cl_next _ _ _ _ _ _ _ _ _ Hc)) as Hn.
  match goal with |- context [Plane.schedules (?x <| Plane.schedules := ?y |>)] =>
    change (Plane.schedules (x <| Plane.schedules := y |>)) with y end.
  destruct (set_moved (Plane.schedules st) id s cursor nowIso (Some nowIso) G Hn) as [Hmv Hkp].
  split; intros k x; rewrite set_twice; [apply Hmv|apply Hkp].
Qed.

Lemma trigger_moves st id nowIso (m := Plane.schedules st)
    (m' := Plane.schedules (triggerSchedule st id nowIso).2) : moved_on m m' /\ kept_on m m'.
Proof.
  subst m m'. unfold triggerSchedule. destruct (JsMap.get id (Plane.schedules st)) as [s|] eqn:G; [|apply moved_refl].
  destruct (negb _); [apply moved_refl|]. destruct (nextRunAt s nowIso) as [cursor|] eqn:Hn; [|apply moved_refl].
  destruct (resolveScheduledTarget st s); [|apply moved_refl].
  destruct (createSession _ _ _ _) as [out st1] eqn:Hc.
  assert (Es : Plane.schedules st1 = Plane.schedules st).
  { pose proof (create_enters st (scheduledSessionInput st s) true (mkCreateOptions false false)) as He. rewrite Hc in He.
    cbn [fst snd] in He. destruct He as [[[-> | ->] _]|(ses & _ & _ & _ & -> & _)]; done. }
  destruct out as [reply|e c|]; cbn [snd]; [|rewrite Es; apply moved_refl..].
  destruct (replyCreated reply); cbn [snd]; [|rewrite Es; apply moved_refl].
  unfold own_session. destruct (JsMap.get (reply_id reply) (Plane.sessions st1)) as [ses|];
    cbn [mbind option_bind snd]; [|rewrite Es; apply moved_refl].
  unfold set_schedule. match goal with |- context [Plane.schedules (?x <| Plane.schedules := ?y |>)] =>
    change (Plane.schedules (x <| Plane.schedules := y |>)) with y;
    change (Plane.schedules x) with (Plane.schedules st1) end.
  rewrite Es. eapply set_moved; [done|by apply next_run_of].
Qed.

(** A pass keeps what every claim keeps. *)
Lemma cron_inv (P : ControlPlaneState -> Prop) nowIso st :
  (forall st id expected, P st -> P (tryClaimScheduleFire st id expected nowIso).2) -> P st -> P (evaluateCron st nowIso).2.
Proof.
  intros Hclaim H. unfold evaluateCron. destruct (negb _); [done|].
  generalize (JsMap.keys (Plane.schedules st)) as keys. intros keys. revert st H.
  induction keys as [|k keys IH]; intros st H; cbn [fire_due]; [done|].
  destruct (JsMap.get k (Plane.schedules st)) as [s|]; [|by apply IH].
  destruct (_ || _); [by apply IH|].
  pose proof (Hclaim st (Schedule.id s) (Schedule.nextRunAt s) H) as H1.
  destruct (tryClaimScheduleFire _ _ _ _) as [[fired|] st1]; cbn [snd] in H1; [|done].
  specialize (IH st1 H1). by destruct (fire_due keys st1 nowIso _) as [[created|] st2].
Qed.

Lemma same_schedule_trans s1 s2 s3 : same_schedule s1 s2 -> same_schedule s2 s3 -> same_schedule s1 s3.
Proof. unfold same_schedule. intros (-> & -> & ->) (? & ? & ?). by repeat split. Qed.

Lemma put_durable_shape st drawn input :
  (putScheduleDurable st drawn input).2 = st \/
  exists s, preparePutSchedule st drawn input = valid s /\
    (putScheduleDurable st drawn input).2 = set_schedule st (Schedule.id s) s.
Proof.
  unfold putScheduleDurable. destruct (validateScheduleMode st input) as [mode|]; [|by left].
  assert (H : (putSchedule st drawn input).2 = st \/ exists s, preparePutSchedule st drawn input = valid s /\
    (putSchedule st drawn input).2 = set_schedule st (Schedule.id s) s).
  { unfold putSchedule. destruct (preparePutSchedule _ _ _) as [s|]; [right; by exists s|by left]. }
  destruct (truthy_opt _); [|done]. destruct (negb _); [by left|].
  destruct (repositoryAdmissionFailure _ _) as [[? ?]|]; [by left|done].
Qed.

(** [C16] Schedules stay well formed.  Whatever is put, patched, deleted, triggered by hand or
    fired by a pass, every stored schedule belongs to a repository or to a workspace pool and
    carries only that mode's members, names distinct targets within the limits, holds a lock
    outside the reserved namespaces, has an owner, and its cursor is an occurrence of its own
    cron expression; and unless it is deleted or put again under its id, it keeps its id, owner
    and creation time. *)
Theorem schedule_invariant st op :
  schedules_ok st ->
  schedules_ok (apply_op st op) /\
  forall id s, JsMap.get id (Plane.schedules st) = Some s -> ~ may_replace op id ->
    exists s', JsMap.get id (Plane.schedules (apply_op st op)) = Some s' /\ same_schedule s s'.
Proof.
  intros Hok.
  assert (Hmoves : forall st', moved_on (Plane.schedules st) (Plane.schedules st') /\
    kept_on (Plane.schedules st) (Plane.schedules st') -> schedules_ok st' /\
    forall id s, JsMap.get id (Plane.schedules st) = Some s -> ~ may_replace op id ->
      exists s', JsMap.get id (Plane.schedules st') = Some s' /\ same_schedule s s').
  { intros st' [Hm Hk]. split; [by eapply moved_ok|]. intros id s G _. by apply Hk. }
  destruct op as [drawn input|id patch|id|id nowIso|id expected nowIso|nowIso]; cbn [apply_op may_replace].
  - destruct (put_durable_shape st drawn input) as [-> | (s & Hs & ->)]; [apply Hmoves, moved_refl|].
    apply prepare_put_ok in Hs as (Hs & _ & _ & Hid & _). unfold set_schedule. split.
    + intros k x. simpl. rewrite JsMap.get_set. case_decide; [|apply Hok]. by intros [= <-].
    + intros k x G Hk. simpl. rewrite JsMap.get_set. case_decide; [congruence|]. by exists x.
  - unfold updateSchedule. destruct (prepareUpdateSchedule st id patch) as [s|] eqn:Hs; [|apply Hmoves, moved_refl].
    apply prepare_update_ok in Hs as (old & G & Hs & _ & _ & Hid & Hp & Hc & _).
    destruct (Hok id old G) as [Ei Ho]. unfold set_schedule. cbn [snd]. split.
    + intros k x. simpl. rewrite JsMap.get_set. case_decide; [|apply Hok]. intros [= <-]. subst k. split; [congruence|auto].
    + intros k x Gk _. simpl. rewrite JsMap.get_set. case_decide; [subst k|by exists x].
      exists s. split; [done|]. by simplify_eq.
  - unfold deleteSchedule. destruct (negb _); [apply Hmoves, moved_refl|]. split.
    + intros k x. simpl. rewrite JsMap.get_delete. case_decide; [done|apply Hok].
    + intros k x G Hk. simpl. rewrite JsMap.get_delete. case_decide; [done|]. by exists x.
  - apply Hmoves, trigger_moves.
  - apply Hmoves, claim_moves.
  - apply (cron_inv (fun st' => schedules_ok st' /\ forall id s, JsMap.get id (Plane.schedules st) = Some s -> ~ False ->
      exists s', JsMap.get id (Plane.schedules st') = Some s' /\ same_schedule s s')); [|by apply Hmoves, moved_refl].
    intros st1 id expected [Hok1 Hk1]. destruct (claim_moves st1 id expected nowIso) as [Hm Hk].
    split; [by eapply moved_ok|]. intros k s G Hf. destruct (Hk1 k s G Hf) as (s1 & G1 & E1).
    destruct (Hk k s1 G1) as (s2 & G2 & E2). exists s2. split; [done|by eapply same_schedule_trans].
Qed.
End operations.

(** ** The session of a well-formed schedule *)

(** The fields its create body is accepted with. *)
Definition schedule_fields (st : ControlPlaneState) (s : ScheduleRecord) : ValidatedFields :=
  let pool := truthy_opt (Schedule.workspacePoolId s) in
  mkValidatedFields (match pool with Some _ => None | None => Some (Schedule.repositoryId s) end)
    (scheduledSessionPrompt s) (Schedule.target s) (Schedule.fallbacks s) (Schedule.queueTtlSeconds s)
    (Schedule.timeout s) 0 [] (Schedule.ref s) (Some (schedule_lock s))
    (Some [("createdBy", JString (opt_or (Schedule.principalId s) ""))])
    (if is_some pool then "workspace" else "scheduled") "schedule" pool (Schedule.setupProfileId s)
    (p ← pool; Some (opt_or (opt_else (Schedule.destroyWorkspaceAfter s)
                       (Pool.destroyWorkspaceAfter <$> JsMap.get p (Plane.workspacePools st))) false)).

(** What neither a put nor a patch checks. *)
Record fires_within_limits (s : ScheduleRecord) : Prop := {
  fl_timeout : 1 <= Schedule.timeout s <= 604800;
  fl_prompt : utf8_length (scheduledSessionPrompt s) <= 65536;
  fl_owner : slen (opt_or (Schedule.principalId s) "") <= 1024;
}.

(** Priority and labels left out are those of the default. *)
Definition with_defaults (i : CreateInput) : CreateInput :=
  mkCreateInput (in_repositoryId i) (in_prompt i) (in_target i) (in_fallbacks i) (in_queueTtlSeconds i) (in_timeout i)
    (Some (JNumber 0)) (Some (JArray [])) (in_ref i) (in_concurrencyId i) (in_metadata i) (in_type i) (in_source i)
    (in_workspacePoolId i) (in_setupProfileId i) (in_destroyWorkspaceAfter i) (in_setupScript i)
    (in_allowReservedConcurrencyId i).

Lemma defaults_left_out i o :
  in_priority i = None -> in_requiredLabels i = None ->
  validateCreateSessionInput i o = validateCreateSessionInput (with_defaults i) o.
Proof. destruct i. cbn -[validateCreateSessionInput]. intros -> ->. reflexivity. Qed.

Lemma schedule_body_request st s :
  schedule_ok s ->
  with_defaults (create_input (input_entries st s) false) = request_of false (schedule_fields st s) /\
  in_priority (create_input (input_entries st s) false) = None /\
  in_requiredLabels (create_input (input_entries st s) false) = None.
Proof.
  intros Hok. destruct (sk_owner _ Hok) as [p Hp]. pose proof (sk_kind _ Hok) as Hk. unfold schedule_kind in Hk.
  unfold input_entries, scheduledSessionInput, create_input, with_defaults, request_of, schedule_fields.
  rewrite Hp. destruct (Schedule.workspacePoolId s) as [q|] eqn:Eq.
  - destruct Hk as (Hq & _ & Hprof & Href). rewrite Href. cbn [truthy_opt]. rewrite (proj2 (truthy_true q) Hq).
    destruct (Schedule.setupProfileId s) as [i|]; [|done]. cbn [truthy_opt].
    by rewrite (proj2 (truthy_true i) ltac:(congruence)).
  - destruct Hk as (_ & Hprof & Hdes). rewrite Hprof. by destruct (Schedule.ref s).
Qed.

(** A branch name is a session ref. *)
Lemma branch_is_session_ref r : isValidScheduledBranchRef r = true -> isValidSessionRef r = true.
Proof.
  unfold isValidScheduledBranchRef, isValidSessionRef. rewrite !andb_true_iff, !negb_true_iff, !orb_false_iff. naive_solver.
Qed.

Lemma schedule_fields_ok st s :
  schedule_ok s -> fires_within_limits s -> fields_ok false cron_options (schedule_fields st s).
Proof.
  intros Hok [Htime Hprompt Howner]. pose proof (sk_kind _ Hok) as Hk. unfold schedule_kind in Hk.
  destruct (sk_lock _ Hok) as (c & Hc & Hfilled & Hres & Hbytes).
  assert (Hlock : schedule_lock s = c) by (unfold schedule_lock; by rewrite Hc).
  split; cbn [schedule_fields v_source v_prompt v_type v_target v_fallbacks v_queueTtlSeconds v_timeout v_priority
    v_requiredLabels v_ref v_concurrencyId v_metadata].
  - unfold kind_ok, schedule_fields. cbn [v_repositoryId v_type v_workspacePoolId v_setupProfileId v_requiredLabels v_ref
      v_destroyWorkspaceAfter]. destruct (Schedule.workspacePoolId s) as [q|]; cbn [truthy_opt].
    + destruct Hk as (Hq & _ & Hprof & Href). rewrite (proj2 (truthy_true q) Hq). repeat split; [|done|done].
      by exists q.
    + destruct Hk as (Hr & Hprof & Hdes). repeat split; [done|by right|done].
  - simpl. auto.
  - done.
  - intros _. by right.
  - apply (sk_targets _ Hok).
  - apply (sk_named _ Hok).
  - pose proof (sk_fallbacks _ Hok). lia.
  - apply (sk_ttl _ Hok).
  - done.
  - lia.
  - cbn. lia.
  - constructor.
  - intros r Hr. pose proof (sk_ref _ Hok r Hr) as Hv. split; [by apply branch_is_session_ref|done].
  - intros id [= <-]. rewrite Hlock. repeat split; [done|done|]. intros H. by rewrite Hres in H.
  - intros m [= <-]. split; [cbn; lia|]. constructor; [|constructor]. split; [by vm_compute|done].
Qed.

(** The body of a well-formed schedule is accepted exactly when its timeout is between one
    second and seven days, its prompt has at most 65536 bytes and its owner at most 1024
    characters, which putting and patching a schedule do not check; it is then accepted with the
    schedule's own fields. *)
Lemma schedule_body_accepts st s :
  schedule_ok s ->
  (forall v, validateCreateSessionInput (create_input (input_entries st s) false) cron_options = valid v <->
             fires_within_limits s /\ v = schedule_fields st s).
Proof.
  intros Hok v. destruct (schedule_body_request st s Hok) as (Er & E1 & E2). rewrite defaults_left_out by done. rewrite Er.
  split.
  - intros H. assert (Hl : fires_within_limits s).
    { pose proof (validate_sound _ _ _ H) as Hf. pose proof (validate_reads_metadata _ _ _ H) as Hm.
      apply validate_reads in H as (Hp & Ht & _).
      cbn [request_of in_prompt in_timeout in_metadata schedule_fields v_prompt v_timeout v_metadata] in Hp, Ht, Hm.
      injection Hp as Hp. injection Ht as Ht. destruct (v_metadata v) as [m|] eqn:Ev; [|done].
      injection Hm as <-. destruct (ok_metadata _ _ _ Hf _ Ev) as [_ He]. apply Forall_inv in He as [_ He].
      split; [rewrite Ht; apply (ok_timeout _ _ _ Hf)|rewrite Hp; apply (ok_prompt _ _ _ Hf)|exact He]. }
    split; [done|]. rewrite (validate_complete false cron_options) in H; [by injection H|by apply schedule_fields_ok].
  - intros [Hl ->]. apply validate_complete. by apply schedule_fields_ok.
Qed.

(** ** A due schedule fires *)
Section firing.
Context {DP : DateParse} {DL : DateParseLaws DP}.

(** A printed instant is a valid cursor. *)
Lemma iso_persisted t : 0 <= JsDate.getUTCFullYear t <= 9999 -> PERSISTED_ISO_TIMESTAMP (JsDate.toISOString t) = true.
Proof.
  intros Hy. destruct (JsDate.field_ranges t) as (Hm & Hd & Hh & Hmi & Hs & Hms).
  unfold PERSISTED_ISO_TIMESTAMP, JsDate.toISOString, JsDate.iso_year.
  rewrite (proj2 (Z.leb_le 0 _)), (proj2 (Z.leb_le _ 9999)) by lia. simpl andb. cbv iota.
  repeat first [rewrite JsDate.take_digits_fix by (simpl; lia)
               |rewrite JsDate.take_char_app
               |progress cbn [mbind option_bind]].
  done.
Qed.

Lemma iso_cursor t : common_year t -> isValidPersistedCursor (JsDate.toISOString t) = true.
Proof.
  unfold common_year. intros Hy. unfold isValidPersistedCursor. rewrite iso_persisted by lia. by rewrite date_parse_iso by lia.
Qed.

(** An expression that has an occurrence has one after every instant. *)
Lemma next_exists cron at_ c n :
  nextCronOccurrence cron at_ = Some c -> common_year n ->
  exists t, nextCronOccurrence cron (JsDate.toISOString n) = Some (JsDate.toISOString t) /\ n < t /\
    100 <= JsDate.getUTCFullYear t <= 9999.
Proof.
  unfold common_year. intros Hc Hy. pose proof Hc as Hc'. unfold nextCronOccurrence in Hc'.
  destruct (isValidUtcTimestamp at_) eqn:Hv; [|done]. destruct (parseCron cron) as [p|] eqn:Hp; [|done]. clear Hc'.
  destruct (nextCronOccurrence_inv _ _ _ Hc Hv p Hp) as (f & _ & Hr & Hwf & Hyf).
  destruct (next_after p (JsDate.date_of_fields f)) as [t0|] eqn:Ht0; [|done].
  pose proof (next_after_spec p _ Hwf Hyf) as Hspec. rewrite Ht0 in Hspec. destruct Hspec as (_ & _ & Hm0 & _).
  destruct (iso_timestamp_roundtrip n) as [Hvn _]; [lia|].
  destruct (nextCronOccurrence_inv cron (JsDate.toISOString n) _ eq_refl Hvn p Hp) as (fn & Hfn & Hrn & _ & _).
  rewrite JsDate.match_toISOString in Hfn by lia. injection Hfn as <-. rewrite JsDate.date_of_instant_fields in Hrn.
  destruct (next_after p n) as [t|] eqn:Ht.
  - exists t. split; [exact Hrn|]. destruct (next_within_years p n t Hwf Ht) as [Hlt Hyt]; [lia|].
    split; [done|]. pose proof (year_mono n t). lia.
  - exfalso. pose proof (next_after_spec p n Hwf ltac:(lia)) as Hs. rewrite Ht in Hs.
    destruct (match_soon p t0 (JsDate.getUTCFullYear n) Hwf Hm0) as (t & Hal & Hyt & Hm).
    assert (n < t) by (destruct (Z.lt_ge_cases n t) as [|Hge]; [done|apply year_mono in Hge; lia]).
    rewrite Hs in Hm; [done|done|done|]. pose proof (first_candidate_eq n) as Ec.
    assert (Hn : n <= first_candidate n) by (rewrite Ec; pose proof (Z.div_mod n 60000); pose proof (Z.mod_pos_bound n 60000); lia).
    apply year_mono in Hn. lia.
Qed.

Lemma date_prints t k :
  common_year t -> 0 <= k <= 2592000000 -> exists s, date_iso (Some (t + k)) = Some s.
Proof.
  unfold common_year. intros Hy Hk. unfold date_iso. cbn [mbind option_bind].
  assert (Hhi : t < Cal.day_from_year (9991 + 1) * JsDate.msPerDay) by (apply year_bound; lia).
  assert (Hlo : ~ t < Cal.day_from_year (99 + 1) * JsDate.msPerDay) by (intros H; apply year_bound in H; lia).
  change (Cal.day_from_year (9991 + 1) * JsDate.msPerDay) with 253149840000000 in Hhi.
  change (Cal.day_from_year (99 + 1) * JsDate.msPerDay) with (-59011459200000) in Hlo.
  destruct (Z.abs (t + k) <=? 8640000000000000) eqn:E; [by eexists|lia].
Qed.

Lemma expiry_prints st m ttl :
  common_year m -> Plane.now st = JsDate.toISOString m -> 1 <= ttl <= 2592000 -> exists e, iso_after (Plane.now st) ttl = Some e.
Proof.
  intros Hm -> Httl. unfold iso_after. rewrite date_parse_iso by (unfold common_year in Hm; lia).
  cbn [mbind option_bind]. apply date_prints; [done|lia].
Qed.

(** A well-formed enabled schedule is due at instant [n]. *)
Record due_at (st : ControlPlaneState) (id : string) (s : ScheduleRecord) (n : Z) : Prop := {
  da_stored : JsMap.get id (Plane.schedules st) = Some s;
  da_ok : schedule_ok s;
  da_enabled : Schedule.enabled s = true;
  da_now : common_year n;
  da_clock : exists m, common_year m /\ Plane.now st = JsDate.toISOString m;
  da_due : exists c, common_year c /\ Schedule.nextRunAt s = JsDate.toISOString c /\ c <= n;
}.

(** What keeps the session of a schedule from being made, other than a closed repository. *)
Inductive cannot_start (st : ControlPlaneState) (s : ScheduleRecord) : Prop :=
| cs_targets e : resolveTargetDisplayNames st (Schedule.target s) (Schedule.fallbacks s) = invalid e -> cannot_start st s
| cs_limits : ~ fires_within_limits s -> cannot_start st s
| cs_admission e code : admission_error st (schedule_fields st s) = Some (e, code) ->
    code <> "REPOSITORY_ADMISSION_CLOSED" -> cannot_start st s
| cs_frame e : admission_error st (schedule_fields st s) = None ->
    workspaceCreatePayloadError st (schedule_fields st s) = Some e -> cannot_start st s.

(** The schedule as it was, its cursor past instant [n] and its last run [last]. *)
Definition moved_past (id : string) (s : ScheduleRecord) (n : Z) (last : option string) (st' : ControlPlaneState) : Prop :=
  exists t, n < t /\ JsMap.get id (Plane.schedules st') =
    Some (s <| Schedule.nextRunAt := JsDate.toISOString t |> <| Schedule.lastRunAt := last |>).

Lemma due_next st id s n :
  due_at st id s n -> exists t, nextRunAt s (JsDate.toISOString n) = Some (JsDate.toISOString t) /\ n < t.
Proof.
  intros H. destruct (sk_cursor _ (da_ok _ _ _ _ H)) as [at_ Hc]. pose proof (da_now _ _ _ _ H) as Hn.
  destruct (next_exists _ _ _ n Hc Hn) as (t & Ht & Hlt & _). exists t. split; [|done].
  destruct (da_due _ _ _ _ H) as (c & Hyc & Ec & _). unfold nextRunAt. rewrite Ec, iso_cursor by done.
  destruct (iso_timestamp_roundtrip n) as [-> _]; [unfold common_year in Hn; lia|]. exact Ht.
Qed.

(** The create request of a schedule that cannot start is refused, and not because the repository
    is closed. *)
Lemma blocked_create st id s n :
  due_at st id s n -> cannot_start st s ->
  (exists e, resolveScheduledTarget st s = invalid e) \/
  exists e c, createSession st (scheduledSessionInput st s) true cron_options = (refused e c, st) /\
    c <> Some "REPOSITORY_ADMISSION_CLOSED".
Proof.
  intros H Hb. pose proof (da_ok _ _ _ _ H) as Hok. destruct (input_members st s) as (Hbody & _).
  unfold resolveScheduledTarget.
  destruct (resolveTargetDisplayNames st (Schedule.target s) (Schedule.fallbacks s)) as [names|e] eqn:Hn; [right|by left; exists e].
  unfold createSession. rewrite Hbody. pose proof (schedule_body_accepts st s Hok) as Hv.
  destruct (validateCreateSessionInput _ cron_options) as [v|e]; [|by do 2 eexists].
  destruct (proj1 (Hv v) eq_refl) as [Hl ->]. cbn [allowGitHubCommentConcurrencyId cron_options].
  change (v_target (schedule_fields st s)) with (Schedule.target s).
  change (v_fallbacks (schedule_fields st s)) with (Schedule.fallbacks s). rewrite Hn.
  destruct Hb as [e He|Hl'|e code Ha Hc|e Ha Hf]; [congruence|done| |].
  - rewrite Ha. exists e, (Some code). split; [done|congruence].
  - rewrite Ha, Hf. by do 2 eexists.
Qed.

(** A cursor that is due at an instant of the claim. *)
Lemma due_not_later st id s n :
  due_at st id s n -> date_gt (date_parse (Schedule.nextRunAt s)) (date_parse (JsDate.toISOString n)) = false.
Proof.
  intros H. destruct (da_due _ _ _ _ H) as (c & Hyc & Ec & Hle).
  rewrite Ec, !date_parse_iso by (pose proof (da_now _ _ _ _ H) as Hy; unfold common_year in *; lia).
  unfold date_gt, date_lt. lia.
Qed.

(** How the create request of a schedule that can start ends. *)
Lemma open_create st id s n (r := createSession st (scheduledSessionInput st s) true cron_options) :
  due_at st id s n -> ~ cannot_start st s ->
  match admission_error st (schedule_fields st s), activeSessionForConcurrency st (schedule_lock s) with
  | None, None => exists reply, r.1 = succeeded reply /\ replyCreated reply = true
  | None, Some _ => exists reply, r.1 = succeeded reply /\ replyCreated reply = false
  | Some _, _ => exists e, r.1 = refused e (Some "REPOSITORY_ADMISSION_CLOSED")
  end.
Proof.
  intros H Hb. subst r. pose proof (da_ok _ _ _ _ H) as Hok. destruct (input_members st s) as (Hbody & _).
  unfold createSession. rewrite Hbody. pose proof (schedule_body_accepts st s Hok) as Hv.
  destruct (validateCreateSessionInput _ cron_options) as [v|e].
  2: { exfalso. apply Hb, cs_limits. intros Hl. by discriminate (proj2 (Hv _) (conj Hl eq_refl)). }
  destruct (proj1 (Hv v) eq_refl) as [_ ->]. cbn [allowGitHubCommentConcurrencyId cron_options].
  destruct (admission_error st (schedule_fields st s)) as [[e code]|] eqn:Ha.
  { exists e. cbn [fst]. destruct (decide (code = "REPOSITORY_ADMISSION_CLOSED")) as [->|Hc]; [done|].
    exfalso. by eapply Hb, cs_admission. }
  change (v_target (schedule_fields st s)) with (Schedule.target s).
  change (v_fallbacks (schedule_fields st s)) with (Schedule.fallbacks s).
  destruct (resolveTargetDisplayNames _ _ _) as [names|e] eqn:Hn; [|exfalso; by eapply Hb, cs_targets].
  destruct (workspaceCreatePayloadError _ _) as [e|] eqn:Hf; [exfalso; by eapply Hb, cs_frame|].
  change (v_concurrencyId (schedule_fields st s)) with (Some (schedule_lock s)).
  assert (truthy_opt (Some (schedule_lock s)) = Some (schedule_lock s)) as ->.
  { destruct (sk_lock _ Hok) as (c & Ec & Hne & _). unfold schedule_lock. rewrite Ec. cbn [opt_or]. unfold truthy_opt.
    by rewrite (proj2 (truthy_true _)). }
  cbn [mbind option_bind]. destruct (activeSessionForConcurrency st (schedule_lock s)) as [a|]; [by eexists|].
  cbn [draw_id]. destruct (da_clock _ _ _ _ H) as (m & Hm & Enow).
  destruct (expiry_prints st m (Schedule.queueTtlSeconds s) Hm Enow (sk_ttl _ Hok)) as [e He].
  change (v_queueTtlSeconds (schedule_fields st s)) with (Schedule.queueTtlSeconds s).
  change (Plane.now (st <| Plane.idsDrawn := _ |>)) with (Plane.now st). rewrite He. by eexists.
Qed.

(** [C15] When a due schedule fires, waits or is passed over.  For a well-formed, enabled schedule that
    is due, with all instants in the years 100 to 9991, a claim never throws.  If the occurrence is
    older than the repository's last activation, it is passed over: the cursor moves strictly past
    the instant of the claim.  Otherwise, if the session cannot be made (a target does not resolve,
    the timeout, prompt or owner exceeds the limits, the repository, pool or setup profile does not
    exist, or the workspace frame is too large), the claim changes nothing and the schedule stays
    due.  Otherwise the cursor moves past the instant: without a session if the repository is closed
    or the lock is held, and else with one created and the run recorded. *)
Theorem due_schedule_fires st id s n (r := tryClaimScheduleFire st id (Schedule.nextRunAt s) (JsDate.toISOString n)) :
  due_at st id s n ->
  if before_activation st s (Schedule.nextRunAt s)
  then r.1 = Some None /\ moved_past id s n (Schedule.lastRunAt s) r.2
  else
    (cannot_start st s -> r = (Some None, st)) /\
    (~ cannot_start st s ->
     match admission_error st (schedule_fields st s), activeSessionForConcurrency st (schedule_lock s) with
     | None, None => (exists pub, r.1 = Some (Some pub)) /\ moved_past id s n (Some (JsDate.toISOString n)) r.2
     | _, _ => r.1 = Some None /\ moved_past id s n (Schedule.lastRunAt s) r.2
     end).
Proof.
  intros H. subst r. destruct (due_next _ _ _ _ H) as (t & Hnext & Hlt).
  assert (Hset : forall st1 last, moved_past id s n last (set_schedule st1 id
    (s <| Schedule.nextRunAt := JsDate.toISOString t |> <| Schedule.lastRunAt := last |>))).
  { intros st1 last. exists t. split; [done|]. apply JsMap.get_set_eq. }
  assert (Eadv : s <| Schedule.nextRunAt := JsDate.toISOString t |> =
    s <| Schedule.nextRunAt := JsDate.toISOString t |> <| Schedule.lastRunAt := Schedule.lastRunAt s |>) by by destruct s.
  unfold tryClaimScheduleFire.
  rewrite (da_stored _ _ _ _ H), (da_enabled _ _ _ _ H), Hnext, str_eqb_refl, (due_not_later _ _ _ _ H). cbn [negb].
  destruct (before_activation _ _ _); [cbn [fst snd]; split; [done|]; rewrite Eadv; apply Hset|]. fold cron_options. split.
  - intros Hb. destruct (blocked_create _ _ _ _ H Hb) as [[e ->]|(e & c & -> & Hc)]; [done|]. cbn [fst snd].
    destruct (resolveScheduledTarget st s); [|done]. by rewrite bool_decide_false.
  - intros Hb. pose proof (open_create _ _ _ _ H Hb) as Hc. cbv zeta in Hc. unfold resolveScheduledTarget.
    destruct (resolveTargetDisplayNames _ _ _) as [names|e] eqn:Hn; [|exfalso; by eapply Hb, cs_targets].
    destruct (createSession _ _ _ _) as [o st1] eqn:Hcreate. cbn [fst] in Hc.
    destruct (admission_error _ _); [|destruct (activeSessionForConcurrency _ _)].
    + destruct Hc as (e & ->). cbn [fst snd]. rewrite bool_decide_true, Eadv by done. split; [done|apply Hset].
    + destruct Hc as (reply & -> & Hcr). rewrite Hcr. cbn [negb fst snd]. rewrite Eadv. split; [done|apply Hset].
    + destruct Hc as (reply & -> & Hcr). rewrite Hcr. cbn [negb].
      destruct (scheduled_create st s reply st1 Hcreate Hcr) as (ses & Hf & _ & _ & Hst & Hrep & _). unfold set_schedule.
      rewrite !(own_created st ses st1 _ (Schedule.principalId s) reply Hf Hst Hrep). cbn [fst snd].
      split; [by eexists|exists t; split; [done|apply JsMap.get_set_eq]].
Qed.
End firing.

(** ** Witnesses *)
#[local] Existing Instance iso_date_parse.

(** A schedule of the small plane, due every hour. *)
Definition example_put : ScheduleInput :=
  mkScheduleInput (Some "repo") None Undef Undef None None "Nightly" (Some (JObject [("commandId", JString "cmd-wt")]))
    None "0 * * * *" 600 None None None (Some "main") None (Some " sweep ") (Some "nightly") (Some "alice").

Definition put_state : ControlPlaneState := apply_op example_state (op_put "drawn" example_put).

Definition put_cursor : Z := 1767229200000.
Definition fire_instant : Z := 1767229800000.

(** What is stored. *)
Definition put_schedule : ScheduleRecord :=
  Schedule.mkSchedule "nightly" "repo" None None None "Nightly" (target_command "cmd-wt") []
    (Schedule.targetDisplayNames (opt_or (JsMap.get "nightly" (Plane.schedules put_state)) example_schedule)) "0 * * * *" true 600
    691200 (JsDate.toISOString put_cursor) None "2026-01-01T00:05:00.000Z" (Some "main") (Some "schedule-nightly")
    (Some "alice") (Some "sweep").

Lemma put_prepared : preparePutSchedule example_state "drawn" example_put = valid put_schedule.
Proof. vm_compute. reflexivity. Qed.

Example put_stored :
  JsMap.get "nightly" (Plane.schedules put_state) = Some put_schedule /\
  JsDate.toISOString put_cursor = "2026-01-01T01:00:00.000Z" /\ JsDate.toISOString fire_instant = "2026-01-01T01:10:00.000Z".
Proof. vm_compute. repeat split. Qed.

Lemma example_schedules_ok : schedules_ok example_state.
Proof. done. Qed.

Lemma schedule_invariant_witness :
  schedules_ok put_state /\
  exists s', JsMap.get "nightly" (Plane.schedules (apply_op put_state (op_cron (JsDate.toISOString fire_instant)))) = Some s' /\
    same_schedule put_schedule s'.
Proof.
  pose proof (proj1 (schedule_invariant example_state (op_put "drawn" example_put) example_schedules_ok)) as Hok.
  split; [exact Hok|].
  apply (proj2 (schedule_invariant put_state (op_cron (JsDate.toISOString fire_instant)) Hok)); [apply put_stored|intros []].
Defined.

Lemma put_due : due_at put_state "nightly" put_schedule fire_instant.
Proof.
  split.
  - apply put_stored.
  - apply (prepare_put_ok _ _ _ _ put_prepared).
  - reflexivity.
  - by vm_compute.
  - exists 1767225900000. split; [by vm_compute|]. vm_compute. reflexivity.
  - exists put_cursor. split; [by vm_compute|]. split; [reflexivity|by vm_compute].
Qed.

Lemma put_can_start : ~ cannot_start put_state put_schedule.
Proof.
  intros [e H|H|e code H _|e _ H].
  - vm_compute in H. discriminate H.
  - apply H. split; by vm_compute.
  - vm_compute in H. discriminate H.
  - discriminate H.
Qed.

Lemma due_schedule_fires_witness :
  exists pub, (tryClaimScheduleFire put_state "nightly" (Schedule.nextRunAt put_schedule)
                 (JsDate.toISOString fire_instant)).1 = Some (Some pub).
Proof.
  pose proof (due_schedule_fires put_state "nightly" put_schedule fire_instant put_due) as H.
  replace (before_activation put_state put_schedule (Schedule.nextRunAt put_schedule)) with false in H by (vm_compute; reflexivity).
  destruct H as [_ H]. specialize (H put_can_start).
  replace (admission_error put_state (schedule_fields put_state put_schedule)) with (@None (string * string)) in H by (vm_compute; reflexivity).
  replace (activeSessionForConcurrency put_state (schedule_lock put_schedule)) with (@None SessionRecord) in H by (vm_compute; reflexivity).
  exact (proj1 H).
Defined.
