(* ===== verification/RepositoryDrain.v ===== *)
(** * Pausing, draining and reopening a repository

    services/api/src/control-plane-repository-admission.ts without a storage.  A repository is
    [active], [paused] or [draining]; only an active one takes new sessions.  A drain cancels
    the repository's sessions and settles to [paused] once nothing of it is leased; opening it
    again first moves every due schedule past the present, so that nothing is caught up.  The
    counter of repository revisions, which invalidates cached pages, is left out, and the
    [await] between the scan of the schedules and the transition returns at once. *)

From Stdlib Require Import ZArith Lia Ascii String.
From stdpp Require Import base strings list sets.
From S2P Require Import Prelude DateTime Cron Types Ordering TransitionPlanner SessionTarget AccountLeases Placement Worktrees.
From S2P Require Import Assignment HostMessages Ownership Evolution Validation SessionCreate SessionAdmission ScheduleFire Schedules.

Local Open Scope string_scope.
Local Open Scope Z_scope.

Definition cache (state : ControlPlaneState) (repository : RepositoryRecord) : ControlPlaneState :=
  state <| Plane.repositories := JsMap.set (Repo.id repository) repository (Plane.repositories state) |>.

(** The new record of a repository; the error of a malformed state is thrown. *)
Definition transitionInMemory (state : ControlPlaneState) (id : string) (admissionState : RepositoryAdmissionState)
    : Outcome RepositoryRecord * ControlPlaneState :=
  match JsMap.get id (Plane.repositories state) with
  | None => (refused "repository not found" (Some "NOT_FOUND"), state)
  | Some current =>
      let now := Plane.now state in
      let moved := current <| Repo.admissionState := Some (admission_name admissionState) |>
                           <| Repo.admissionStateChangedAt := Some now |> <| Repo.updatedAt := now |> in
      match admissionState with
      | adm_draining =>
          let repository := moved <| Repo.drainRequestedAt := Some now |> <| Repo.drainCompletedAt := None |> in
          (succeeded repository, cache state repository)
      | _ =>
          match repositoryAdmissionState (Repo.admissionState current) with
          | None => (threw, state)
          | Some adm_draining => (refused "repository drain is not complete" (Some "CONFLICT"), state)
          | Some was =>
              let repository :=
                match admissionState with
                | adm_active =>
                    (if bool_decide (was = adm_active) then moved
                     else moved <| Repo.activationCutoffAt := Some now |>)
                      <| Repo.drainRequestedAt := None |> <| Repo.drainCompletedAt := None |>
                | _ => moved
                end in
              (succeeded repository, cache state repository)
          end
      end
  end.

Section clock.
Context {DP : DateParse}.

(** One schedule of the scan. *)
Definition skip_one (state : ControlPlaneState) (repositoryId now : string) (schedule : ScheduleRecord) : ControlPlaneState :=
  if negb (str_eqb (Schedule.repositoryId schedule) repositoryId) || negb (Schedule.enabled schedule) ||
     date_gt (date_parse (Schedule.nextRunAt schedule)) (date_parse now)
  then state
  else
    match truthy_opt (nextCronOccurrence (Schedule.cron schedule) now) with
    | None => state
    | Some nextRunAt => set_schedule state (Schedule.id schedule) (schedule <| Schedule.nextRunAt := nextRunAt |>)
    end.

(** The schedules are those listed before the scan. *)
Definition skip_pass (state : ControlPlaneState) (repositoryId : string) : ControlPlaneState :=
  fold_left (fun state schedule => skip_one state repositoryId (Plane.now state) schedule)
    (JsMap.values (Plane.schedules state)) state.

(** Two passes. *)
Definition skipDueSchedulesBeforeActivation (state : ControlPlaneState) (repositoryId : string) : ControlPlaneState :=
  skip_pass (skip_pass state repositoryId) repositoryId.

(** [active] is [true] to open the repository and [false] to pause it. *)
Definition setRepositoryAdmissionDurable (state : ControlPlaneState) (id : string) (active : bool)
    : Outcome RepositoryRecord * ControlPlaneState :=
  let state := if active then skipDueSchedulesBeforeActivation state id else state in
  transitionInMemory state id (if active then adm_active else adm_paused).

(** ** Draining *)
Definition hasInMemoryRepositoryLease (state : ControlPlaneState) (repositoryId : string) : bool :=
  existsb (fun key => string_ends_with (String "000"%char repositoryId) key) (JsMap.keys (Plane.mainCheckoutLeases state)) ||
  existsb (fun w => str_eqb (Worktree.repositoryId w) repositoryId && is_some (truthy_nul (Worktree.currentSessionId w)))
    (JsMap.values (Plane.worktrees state)).

(** [for (const session of state.sessions.values())]: cancelling replaces entries and adds none.
    The flag is [false] when a cancellation throws. *)
Fixpoint cancel_sessions (keys : list string) (state : ControlPlaneState) (repositoryId : string)
    : bool * ControlPlaneState :=
  match keys with
  | [] => (true, state)
  | k :: rest =>
      match JsMap.get k (Plane.sessions state) with
      | Some session =>
          if str_eqb (Session.repositoryId session) repositoryId && isActiveSessionStatus (Session.status session)
          then
            match cancelSession state (Session.id session) with
            | (None, state) => (false, state)
            | (Some _, state) => cancel_sessions rest state repositoryId
            end
          else cancel_sessions rest state repositoryId
      | None => cancel_sessions rest state repositoryId
      end
  end.

Definition reconcileInMemory (state : ControlPlaneState) (repository : RepositoryRecord)
    : option RepositoryRecord * ControlPlaneState :=
  match cancel_sessions (JsMap.keys (Plane.sessions state)) state (Repo.id repository) with
  | (false, state) => (None, state)
  | (true, state) =>
      if hasInMemoryRepositoryLease state (Repo.id repository) then (Some repository, state)
      else
        let now := Plane.now state in
        let settled := repository <| Repo.admissionState := Some "paused" |> <| Repo.admissionStateChangedAt := Some now |>
                                  <| Repo.drainCompletedAt := Some now |> <| Repo.updatedAt := now |> in
        (Some settled, cache state settled)
  end.

Definition drainRepositoryDurable (state : ControlPlaneState) (id : string)
    : Outcome RepositoryRecord * ControlPlaneState :=
  match transitionInMemory state id adm_draining with
  | (succeeded draining, state) =>
      match reconcileInMemory state draining with
      | (None, state) => (threw, state)
      | (Some repository, state) => (succeeded repository, state)
      end
  | failure => failure
  end.

Definition is_draining (repository : RepositoryRecord) : bool :=
  bool_decide (repositoryAdmissionState (Repo.admissionState repository) = Some adm_draining).

(** [for (const repository of repositories)]. *)
Fixpoint reconcile_each (repositories : list RepositoryRecord) (state : ControlPlaneState)
    : option (list RepositoryRecord) * ControlPlaneState :=
  match repositories with
  | [] => (Some [], state)
  | repository :: rest =>
      match reconcileInMemory state repository with
      | (None, state) => (None, state)
      | (Some r, state) =>
          match reconcile_each rest state with
          | (None, state) => (None, state)
          | (Some reconciled, state) => (Some (r :: reconciled), state)
          end
      end
  end.

Definition reconcileRepositoryDrainsDurable (state : ControlPlaneState)
    : option (list RepositoryRecord) * ControlPlaneState :=
  reconcile_each (List.filter is_draining (JsMap.values (Plane.repositories state))) state.
End clock.

Section properties.
Context {DP : DateParse}.

(** ** Cancelling the sessions of a repository *)

(** The parts of the plane a cancellation leaves alone. *)
Record cancel_frame (st st' : ControlPlaneState) : Prop := {
  cf_repositories : Plane.repositories st' = Plane.repositories st;
  cf_schedules : Plane.schedules st' = Plane.schedules st;
  cf_checkouts : Plane.mainCheckoutLeases st' = Plane.mainCheckoutLeases st;
  cf_now : Plane.now st' = Plane.now st;
}.

Lemma cancel_frame_trans st1 st2 st3 : cancel_frame st1 st2 -> cancel_frame st2 st3 -> cancel_frame st1 st3.
Proof. intros [E1 E2 E3 E4] [F1 F2 F3 F4]. split; congruence. Qed.

Lemma cancel_frees_worktree st w : cancel_frame st (releaseWorktree st w).
Proof. unfold releaseWorktree. destruct (JsMap.get w (Plane.worktrees st)) as [wt|]; by split. Qed.

Lemma cancel_frees_account st s :
  cancel_frame st (releaseProviderAccountLease st s).1 /\
  Plane.sessions (releaseProviderAccountLease st s).1 = Plane.sessions st.
Proof.
  unfold releaseProviderAccountLease, releaseProviderAccountLeaseLocal.
  destruct (Session.providerAccountLease s) as [l|]; [|by repeat split].
  destruct (JsMap.get _ _) as [held|]; [|by repeat split]. destruct (_ || _); by repeat split.
Qed.

Lemma persisted_fields s :
  Session.id (sessionForPersistence s) = Session.id s /\ Session.status (sessionForPersistence s) = Session.status s /\
  Session.repositoryId (sessionForPersistence s) = Session.repositoryId s.
Proof. unfold sessionForPersistence. destruct (retainsActiveHostClaim s); case_bool_decide; done. Qed.

(** What a cancellation makes of a stored session. *)
Definition cancels (st : ControlPlaneState) (id : string) (s : SessionRecord) (st' : ControlPlaneState) : Prop :=
  cancel_frame st st' /\ JsMap.keys (Plane.sessions st') = JsMap.keys (Plane.sessions st) /\
  exists s', (forall k, JsMap.get k (Plane.sessions st') = if decide (id = k) then Some s' else JsMap.get k (Plane.sessions st)) /\
    Session.repositoryId s' = Session.repositoryId s /\ Session.id s' = id /\ isActiveSessionStatus (Session.status s') = false.

Lemma persist_cancels st st1 id s s1 :
  JsMap.get id (Plane.sessions st) = Some s -> cancel_frame st st1 -> Plane.sessions st1 = Plane.sessions st ->
  Session.id s1 = id -> Session.repositoryId s1 = Session.repositoryId s -> isActiveSessionStatus (Session.status s1) = false ->
  cancels st id s (persistSession st1 s1).
Proof.
  intros G Hf Es Hid Hr Ha. destruct (persisted_fields s1) as (Pi & Ps & Pr). unfold persistSession.
  assert (Hin : id ∈ JsMap.keys (Plane.sessions st)).
  { apply list_elem_of_In. eapply JsMap.In_keys. by apply JsMap.get_In. }
  split; [destruct Hf; by split|]. rewrite sessions_update, Es, Hid. split; [rewrite JsMap.keys_set; by rewrite decide_True|].
  exists (sessionForPersistence s1). split; [intros k; apply JsMap.get_set|]. rewrite Pi, Ps, Pr. by split.
Qed.

Lemma cancel_stored st id s :
  JsMap.get id (Plane.sessions st) = Some s -> Session.id s = id ->
  (cancelSession st id).1 <> None /\ cancels st id s (cancelSession st id).2.
Proof.
  intros G Hid.
  assert (Hself : isActiveSessionStatus (Session.status s) = false -> cancels st id s st).
  { intros Ha. split; [by split|]. split; [done|]. exists s. split; [|by split].
    intros k. case_decide; [by subst k|done]. }
  unfold cancelSession. rewrite G.
  change (planSessionTransition (Some s) ev_cancel _) with (Some (planCancel s)). unfold planCancel.
  destruct (isTerminalSessionStatus (Session.status s)) eqn:Ht.
  { cbn [find_effect pick_reject]. cbn [fst snd]. split; [done|]. apply Hself. by destruct (Session.status s). }
  destruct (bool_decide _ && _) eqn:Hh.
  - cbn [find_effect pick_reject pick_cancel]. cbv zeta.
    apply andb_true_iff in Hh as [_ Hh].
    change (Session.hostId (s <| Session.status := cancelled |> <| Session.errorMessage := _ |> <| Session.completedAt := _ |>))
      with (Session.hostId s).
    destruct (truthy_nul (Session.hostId s)) as [host|]; [|done]. cbn [fst snd]. split; [done|].
    apply persist_cancels; [done|by split|done|exact Hid|done|done].
  - assert (He : find_effect pick_reject (fx_cancel false :: releaseEffects s) = None /\
      find_effect pick_cancel (fx_cancel false :: releaseEffects s) = Some false).
    { unfold releaseEffects. destruct (is_true_opt _); [done|].
      destruct (is_some (truthy_nul (Session.workspaceSlotId s))); [done|]. by destruct (is_some (truthy_nul (Session.worktreeId s))). }
    destruct He as [-> ->]. cbv zeta. cbv iota.
    set (st1 := match _ with Some w => releaseWorktree _ w | None => forget_ack st id end).
    assert (H1 : cancel_frame st st1 /\ Plane.sessions st1 = Plane.sessions st).
    { subst st1. destruct (if has_effect _ _ then _ else _) as [w|]; [|by repeat split].
      split; [eapply cancel_frame_trans; [|apply cancel_frees_worktree]; by split|].
      unfold releaseWorktree. by destruct (JsMap.get w _). }
    clearbody st1. destruct H1 as [Hf1 Es1].
    set (s0 := s <| Session.status := cancelled |> <| Session.errorMessage := _ |> <| Session.completedAt := _ |>).
    destruct (cancel_frees_account st1 s0) as [Hf2 Es2].
    assert (Hs : Session.id (releaseProviderAccountLease st1 s0).2 = id /\
      Session.repositoryId (releaseProviderAccountLease st1 s0).2 = Session.repositoryId s /\
      Session.status (releaseProviderAccountLease st1 s0).2 = cancelled).
    { unfold releaseProviderAccountLease. by destruct (Session.providerAccountLease s0). }
    destruct (releaseProviderAccountLease st1 s0) as [st2 s2]. cbn [fst snd] in *. destruct Hs as (Hi & Hr & Hc).
    split; [done|]. apply persist_cancels; [done|exact (cancel_frame_trans _ _ _ Hf1 Hf2)|congruence|done|done|].
    change (isActiveSessionStatus (Session.status s2) = false). by rewrite Hc.
Qed.

(** No session of the repository under the keys is waiting or running. *)
Definition none_active (st : ControlPlaneState) (repositoryId : string) (keys : list string) : Prop :=
  forall k s, k ∈ keys -> JsMap.get k (Plane.sessions st) = Some s -> Session.repositoryId s = repositoryId ->
    isActiveSessionStatus (Session.status s) = false.

Definition ids_match (st : ControlPlaneState) : Prop :=
  forall k s, JsMap.get k (Plane.sessions st) = Some s -> Session.id s = k.

(** How a session may leave the loop. *)
Definition session_settles (repositoryId : string) (s s' : SessionRecord) : Prop :=
  s' = s \/ Session.repositoryId s = repositoryId /\ Session.repositoryId s' = repositoryId /\ Session.id s' = Session.id s /\
    isActiveSessionStatus (Session.status s') = false.

Lemma settles_trans r s1 s2 s3 : session_settles r s1 s2 -> session_settles r s2 s3 -> session_settles r s1 s3.
Proof.
  intros H1 [-> | (Hr2 & Hr3 & Hi & Ha)]; [done|]. right. destruct H1 as [-> | (Hr1 & _ & Hi1 & _)]; [done|].
  repeat split; [done|done|congruence|done].
Qed.

Lemma get_none_keys {V} k (m : JsMap.t V) : JsMap.get k m = None -> ~ In k (JsMap.keys m).
Proof.
  induction m as [|[j v] m IH]; simpl; [tauto|]. destruct (str_eqb k j) eqn:E; [done|].
  intros G [-> | Hin]; [by rewrite str_eqb_refl in E|by apply IH].
Qed.

Lemma cancel_sessions_spec keys st repositoryId (r := cancel_sessions keys st repositoryId) :
  ids_match st ->
  r.1 = true /\ cancel_frame st r.2 /\ JsMap.keys (Plane.sessions r.2) = JsMap.keys (Plane.sessions st) /\
  ids_match r.2 /\ none_active r.2 repositoryId keys /\
  (forall k s, JsMap.get k (Plane.sessions st) = Some s ->
     exists s', JsMap.get k (Plane.sessions r.2) = Some s' /\ session_settles repositoryId s s').
Proof.
  subst r. revert st. induction keys as [|k keys IH]; intros st Hids; cbn [cancel_sessions].
  { split; [done|]. split; [by split|]. split; [done|]. split; [done|]. split; [by intros ? ? ?%elem_of_nil|].
    intros k s G. exists s. split; [done|by left]. }
  assert (Hkeep : forall st1, cancel_frame st st1 -> JsMap.keys (Plane.sessions st1) = JsMap.keys (Plane.sessions st) ->
    ids_match st1 -> (forall j s, JsMap.get j (Plane.sessions st) = Some s ->
       exists s', JsMap.get j (Plane.sessions st1) = Some s' /\ session_settles repositoryId s s') ->
    none_active st1 repositoryId [k] ->
    let r := cancel_sessions keys st1 repositoryId in
    r.1 = true /\ cancel_frame st r.2 /\ JsMap.keys (Plane.sessions r.2) = JsMap.keys (Plane.sessions st) /\
    ids_match r.2 /\ none_active r.2 repositoryId (k :: keys) /\
    (forall j s, JsMap.get j (Plane.sessions st) = Some s ->
       exists s', JsMap.get j (Plane.sessions r.2) = Some s' /\ session_settles repositoryId s s')).
  { intros st1 Hf Hk Hi Hs Hn. destruct (IH st1 Hi) as (E & Hf2 & Hk2 & Hi2 & Hn2 & Hs2). cbv zeta.
    split; [done|]. split; [exact (cancel_frame_trans _ _ _ Hf Hf2)|]. split; [congruence|]. split; [done|]. split.
    - intros j s Hj G Hr. apply elem_of_cons in Hj as [-> | Hj]; [|by apply (Hn2 j)].
      destruct (JsMap.get k (Plane.sessions st1)) as [s1|] eqn:G1.
      + destruct (Hs2 k s1 G1) as (s2 & G2 & [-> | (_ & _ & _ & Ha)]); [|congruence].
        apply (Hn k); [set_solver|congruence|done].
      + exfalso. apply JsMap.get_In, JsMap.In_keys in G. rewrite Hk2 in G. by apply (get_none_keys _ _ G1).
    - intros j s G. destruct (Hs j s G) as (s1 & G1 & E1). destruct (Hs2 j s1 G1) as (s2 & G2 & E2).
      exists s2. split; [done|exact (settles_trans _ _ _ _ E1 E2)]. }
  assert (Hsame : (forall s, JsMap.get k (Plane.sessions st) = Some s -> Session.repositoryId s = repositoryId ->
      isActiveSessionStatus (Session.status s) = false) -> _) by
    (intros Hn; apply (Hkeep st); [by split|done|done|intros j s G; exists s; split; [done|by left]|
       intros j s ->%list_elem_of_singleton G; by apply Hn]).
  destruct (JsMap.get k (Plane.sessions st)) as [s|] eqn:G; [|by apply Hsame].
  destruct (str_eqb _ _ && _) eqn:Ha.
  - apply andb_true_iff in Ha as [Hr Ha]. apply str_eqb_true in Hr. rewrite (Hids k s G).
    destruct (cancel_stored st k s G (Hids k s G)) as (Hnt & Hf & Hk & s' & Hget & Hr' & Hi' & Ha').
    destruct (cancelSession st k) as [[x|] st1]; cbn [fst snd] in *; [|done].
    apply Hkeep; [done|done| | |].
    + intros j v. rewrite Hget. case_decide; [|apply Hids]. intros [= <-]. by subst j.
    + intros j v Gj. rewrite Hget. case_decide; [subst j; exists s'|exists v; split; [done|by left]].
      split; [done|]. right. replace v with s by congruence. rewrite (Hids k s G).
      repeat split; [done|congruence|done|done].
    + intros j v ->%list_elem_of_singleton. rewrite Hget, decide_True by done. by intros [= <-] _.
  - apply Hsame. intros v [= <-] Hr. apply andb_false_iff in Ha as [Ha|Ha]; [|done].
    apply str_eqb_true in Hr. congruence.
Qed.

(** ** The scan of the schedules *)
Lemma skip_one_frame st repositoryId now s : exists m, skip_one st repositoryId now s = st <| Plane.schedules := m |>.
Proof.
  assert (Hself : exists m, st = st <| Plane.schedules := m |>) by (exists (Plane.schedules st); by destruct st).
  unfold skip_one. destruct (_ || _ || _); [done|]. destruct (truthy_opt _); [by eexists|done].
Qed.

Lemma skip_fold_frame l st repositoryId :
  exists m, fold_left (fun state schedule => skip_one state repositoryId (Plane.now state) schedule) l st =
    st <| Plane.schedules := m |>.
Proof.
  revert st. induction l as [|s l IH]; intros st; cbn [fold_left]; [exists (Plane.schedules st); by destruct st|].
  destruct (skip_one_frame st repositoryId (Plane.now st) s) as [m ->].
  destruct (IH (st <| Plane.schedules := m |>)) as [m' ->]. by exists m'.
Qed.

Lemma skip_due_frame st repositoryId : exists m, skipDueSchedulesBeforeActivation st repositoryId = st <| Plane.schedules := m |>.
Proof.
  unfold skipDueSchedulesBeforeActivation, skip_pass at 2.
  destruct (skip_fold_frame (JsMap.values (Plane.schedules st)) st repositoryId) as [m ->]. unfold skip_pass.
  match goal with |- context [fold_left _ ?l ?x] => destruct (skip_fold_frame l x repositoryId) as [m' ->] end. by exists m'.
Qed.

(** What the scan makes of one schedule. *)
Definition skipped (repositoryId now : string) (s : ScheduleRecord) : ScheduleRecord :=
  if negb (str_eqb (Schedule.repositoryId s) repositoryId) || negb (Schedule.enabled s) ||
     date_gt (date_parse (Schedule.nextRunAt s)) (date_parse now)
  then s
  else match truthy_opt (nextCronOccurrence (Schedule.cron s) now) with
       | None => s
       | Some nextRunAt => s <| Schedule.nextRunAt := nextRunAt |>
       end.

Lemma skip_one_get st repositoryId now s k :
  JsMap.get (Schedule.id s) (Plane.schedules st) = Some s ->
  JsMap.get k (Plane.schedules (skip_one st repositoryId now s)) =
    if decide (Schedule.id s = k) then Some (skipped repositoryId now s) else JsMap.get k (Plane.schedules st).
Proof.
  intros G. unfold skip_one, skipped. destruct (_ || _ || _); [case_decide; [by subst k|done]|].
  destruct (truthy_opt _); [apply JsMap.get_set|]. case_decide; [by subst k|done].
Qed.

Lemma skipped_id repositoryId now s : Schedule.id (skipped repositoryId now s) = Schedule.id s.
Proof. unfold skipped. destruct (_ || _ || _); [done|]. by destruct (truthy_opt _). Qed.

(** The schedules of the map, each under its id. *)
Definition listed (m : JsMap.t ScheduleRecord) : Prop := JsMap.wf m /\ forall e, In e m -> Schedule.id e.2 = e.1.

Lemma skip_fold_get l st repositoryId now :
  Plane.now st = now -> NoDup (map Schedule.id l) ->
  (forall s, In s l -> JsMap.get (Schedule.id s) (Plane.schedules st) = Some s) ->
  forall k, JsMap.get k (Plane.schedules
      (fold_left (fun state schedule => skip_one state repositoryId (Plane.now state) schedule) l st)) =
    if existsb (fun s => str_eqb (Schedule.id s) k) l then skipped repositoryId now <$> JsMap.get k (Plane.schedules st)
    else JsMap.get k (Plane.schedules st).
Proof.
  intros Hnow. revert st Hnow. induction l as [|s l IH]; intros st Hnow Hnd Hl k; cbn [fold_left existsb map] in *; [done|].
  apply NoDup_cons in Hnd as [Hs Hnd]. rewrite list_elem_of_In in Hs.
  assert (Gs : JsMap.get (Schedule.id s) (Plane.schedules st) = Some s) by (apply Hl; by left).
  rewrite IH; [| |done|].
  - rewrite !skip_one_get by done. rewrite Hnow. destruct (str_eqb (Schedule.id s) k) eqn:Ek.
    + apply str_eqb_true in Ek. subst k. rewrite decide_True by done. cbn [orb]. rewrite Gs.
      destruct (existsb _ l) eqn:Ex; [|done]. exfalso. apply existsb_exists in Ex as (x & Hx & E).
      apply str_eqb_true in E. apply Hs. rewrite <- E. by apply in_map.
    + rewrite decide_False by (intros E; by rewrite E, str_eqb_refl in Ek). done.
  - destruct (skip_one_frame st repositoryId (Plane.now st) s) as [m ->]. done.
  - intros x Hx. rewrite skip_one_get by done. rewrite decide_False; [apply Hl; by right|].
    intros E. apply Hs. rewrite E. by apply in_map.
Qed.

Lemma skip_pass_get st repositoryId k :
  listed (Plane.schedules st) ->
  JsMap.get k (Plane.schedules (skip_pass st repositoryId)) =
    skipped repositoryId (Plane.now st) <$> JsMap.get k (Plane.schedules st).
Proof.
  intros [Hwf Hids]. unfold skip_pass.
  assert (Emap : map Schedule.id (JsMap.values (Plane.schedules st)) = JsMap.keys (Plane.schedules st)).
  { unfold JsMap.values, JsMap.keys. rewrite map_map. apply map_ext_in. intros e He. by apply Hids. }
  rewrite (skip_fold_get _ st repositoryId (Plane.now st)); [|done|by rewrite Emap|].
  - destruct (existsb _ _) eqn:Ex; [done|]. destruct (JsMap.get k (Plane.schedules st)) as [s|] eqn:G; [|done].
    exfalso. rewrite <- not_true_iff_false, existsb_exists in Ex. apply Ex. exists s.
    split; [by eapply JsMap.get_In_values|]. apply str_eqb_true. apply JsMap.get_In, Hids in G. done.
  - intros s Hs. apply in_map_iff in Hs as ([j v] & <- & Hin). rewrite (Hids _ Hin). by apply JsMap.In_get.
Qed.

(** ** A drain *)
Lemma ends_with_unfold suffix s :
  string_ends_with suffix s = str_eqb suffix s || match s with String _ s' => string_ends_with suffix s' | "" => false end.
Proof. by destruct s. Qed.

Lemma ends_with_app suffix a : string_ends_with suffix (a ++ suffix) = true.
Proof.
  induction a as [|c a IH]; rewrite ends_with_unfold; [by rewrite str_eqb_refl|].
  change (String c a ++ suffix) with (String c (a ++ suffix)). cbv iota. by rewrite IH, orb_true_r.
Qed.

(** Neither a main checkout nor a worktree of the repository is held. *)
Definition nothing_held (st : ControlPlaneState) (repositoryId : string) : Prop :=
  (forall host, JsMap.get (main_checkout_key host repositoryId) (Plane.mainCheckoutLeases st) = None) /\
  (forall k w, JsMap.get k (Plane.worktrees st) = Some w -> Worktree.repositoryId w = repositoryId ->
     truthy_nul (Worktree.currentSessionId w) = None).

Lemma no_lease_nothing_held st id : hasInMemoryRepositoryLease st id = false -> nothing_held st id.
Proof.
  unfold hasInMemoryRepositoryLease. intros H. apply orb_false_iff in H as [H1 H2].
  rewrite <- not_true_iff_false, existsb_exists in H1. rewrite <- not_true_iff_false, existsb_exists in H2. split.
  - intros host. destruct (JsMap.get _ _) as [v|] eqn:G; [|done]. destruct H1. exists (main_checkout_key host id).
    split; [eapply JsMap.In_keys; by apply JsMap.get_In|apply ends_with_app].
  - intros k w G Hr. destruct (truthy_nul _) as [x|] eqn:E; [|done]. destruct H2. exists w.
    split; [by eapply JsMap.get_In_values|]. rewrite Hr, str_eqb_refl, E. done.
Qed.

Definition closed (st : ControlPlaneState) (id : string) : Prop :=
  exists e, repositoryAdmissionFailure st id = Some (e, "REPOSITORY_ADMISSION_CLOSED").

Lemma own_ids_match st : own_inv st -> ids_match st.
Proof. intros H k s G. by apply (oe_ids _ _ H). Qed.

(** What a reconciliation leaves of a repository that is draining. *)
Lemma reconcile_spec st r :
  ids_match st -> is_draining r = true -> JsMap.get (Repo.id r) (Plane.repositories st) = Some r ->
  exists r' st', reconcileInMemory st r = (Some r', st') /\ Repo.id r' = Repo.id r /\
    Plane.repositories st' = (if hasInMemoryRepositoryLease st' (Repo.id r) then Plane.repositories st
                              else JsMap.set (Repo.id r) r' (Plane.repositories st)) /\
    JsMap.get (Repo.id r) (Plane.repositories st') = Some r' /\
    Repo.admissionState r' = Some (if hasInMemoryRepositoryLease st' (Repo.id r) then "draining" else "paused") /\
    Plane.schedules st' = Plane.schedules st /\
    (forall k s, JsMap.get k (Plane.sessions st') = Some s -> Session.repositoryId s = Repo.id r ->
       isActiveSessionStatus (Session.status s) = false) /\
    (forall k s, JsMap.get k (Plane.sessions st) = Some s ->
       exists s', JsMap.get k (Plane.sessions st') = Some s' /\ session_settles (Repo.id r) s s').
Proof.
  intros Hids Hd G. unfold reconcileInMemory.
  destruct (cancel_sessions_spec (JsMap.keys (Plane.sessions st)) st (Repo.id r) Hids) as (E & [Er Es Ec En] & Hk & _ & Hn & Hs).
  destruct (cancel_sessions _ st _) as [b st1]. cbn [fst snd] in *. subst b.
  assert (Hnone : forall k s, JsMap.get k (Plane.sessions st1) = Some s -> Session.repositoryId s = Repo.id r ->
    isActiveSessionStatus (Session.status s) = false).
  { intros k s Gk. apply (Hn k s); [|done]. rewrite <- Hk. apply list_elem_of_In. eapply JsMap.In_keys. by apply JsMap.get_In. }
  destruct (hasInMemoryRepositoryLease st1 (Repo.id r)) eqn:Hl.
  - exists r, st1. rewrite Hl. split; [done|]. split; [done|]. split; [done|]. split; [by rewrite Er|]. split.
    + unfold is_draining in Hd. apply bool_decide_eq_true in Hd. unfold repositoryAdmissionState in Hd.
      destruct (Repo.admissionState r) as [v|]; [|done]. destruct (str_eqb v "active"); [done|].
      destruct (str_eqb v "paused"); [done|]. destruct (str_eqb v "draining") eqn:Ev; [|done].
      apply str_eqb_true in Ev. by subst v.
    + done.
  - eexists _, _. split; [done|]. unfold cache.
    change (hasInMemoryRepositoryLease (st1 <| Plane.repositories := _ |>) (Repo.id r))
      with (hasInMemoryRepositoryLease st1 (Repo.id r)). rewrite Hl.
    split; [done|]. split; [cbn [Plane.repositories]; by rewrite <- Er|].
    split; [apply JsMap.get_set_eq|]. by split.
Qed.

(** [C17] A drain empties its repository.  It never throws: afterwards no session of the
    repository waits or runs, admission is closed, and the repository is paused if neither a
    worktree nor a main checkout of it is held and still draining otherwise; other
    repositories, their sessions and every schedule are untouched, and a repository that is
    still draining can be neither opened nor paused. *)
Theorem drain_settles st id r0 :
  own_inv st -> JsMap.get id (Plane.repositories st) = Some r0 -> Repo.id r0 = id ->
  exists r st', drainRepositoryDurable st id = (succeeded r, st') /\
    JsMap.get id (Plane.repositories st') = Some r /\ closed st' id /\
    (Repo.admissionState r = Some "paused" /\ nothing_held st' id \/
     Repo.admissionState r = Some "draining" /\ hasInMemoryRepositoryLease st' id = true /\
     forall active, exists e, (setRepositoryAdmissionDurable st' id active).1 = refused e (Some "CONFLICT")) /\
    (forall k s, JsMap.get k (Plane.sessions st') = Some s -> Session.repositoryId s = id ->
       isActiveSessionStatus (Session.status s) = false) /\
    (forall k s, JsMap.get k (Plane.sessions st) = Some s -> Session.repositoryId s <> id ->
       JsMap.get k (Plane.sessions st') = Some s) /\
    (forall k, k <> id -> JsMap.get k (Plane.repositories st') = JsMap.get k (Plane.repositories st)) /\
    Plane.schedules st' = Plane.schedules st.
Proof.
  intros Hown G Hid. unfold drainRepositoryDurable, transitionInMemory. rewrite G. cbv zeta iota.
  set (draining := r0 <| Repo.admissionState := _ |> <| _ := _ |> <| _ := _ |> <| _ := _ |> <| _ := _ |>).
  assert (Ed : Repo.id draining = id) by exact Hid.
  destruct (reconcile_spec (cache st draining) draining) as
    (r & st' & E & Ei & Erep & Gr & Ea & Es & Hnone & Hs); [exact (own_ids_match st Hown)|done|apply JsMap.get_set_eq|].
  rewrite E. exists r, st'. rewrite Ed in *. split; [done|]. split; [done|].
  assert (Hadm : forall a, repositoryAdmissionState (Repo.admissionState r) = Some a -> a <> adm_active -> closed st' id).
  { intros a Hr Hne. unfold closed, repositoryAdmissionFailure. rewrite Gr, Hr. cbn [opt_or]. destruct a; [done|by eexists..]. }
  split; [|split; [|split; [done|split; [|split; [|done]]]]].
  - rewrite Ea in Hadm. destruct (hasInMemoryRepositoryLease st' id);
      [by apply (Hadm adm_draining)|by apply (Hadm adm_paused)].
  - destruct (hasInMemoryRepositoryLease st' id) eqn:Hl; [right|left; split; [done|by apply no_lease_nothing_held]].
    split; [done|]. split; [done|]. intros active. unfold setRepositoryAdmissionDurable, transitionInMemory.
    assert (Gs : JsMap.get id (Plane.repositories (if active then skipDueSchedulesBeforeActivation st' id else st')) = Some r).
    { destruct active; [|done]. by destruct (skip_due_frame st' id) as [m ->]. }
    rewrite Gs, Ea. destruct active; by eexists.
  - intros k s Gk Hne. destruct (Hs k s Gk) as (s' & Gs & [-> | (Hr & _)]); [done|congruence].
  - intros k Hk. rewrite Erep.
    change (Plane.repositories (cache st draining)) with (JsMap.set (Repo.id draining) draining (Plane.repositories st)).
    rewrite Ed. destruct (hasInMemoryRepositoryLease st' id); by rewrite !JsMap.get_set_ne by congruence.
Qed.

(** ** Opening a repository *)
Lemma listed_set m k s : listed m -> Schedule.id s = k -> listed (JsMap.set k s m).
Proof.
  intros [Hwf Hids] Hk. split; [by apply JsMap.wf_set|]. intros [j v] Hin.
  assert (G : JsMap.get j (JsMap.set k s m) = Some v) by (apply JsMap.In_get; [by apply JsMap.wf_set|done]).
  rewrite JsMap.get_set in G. case_decide; [by simplify_eq|]. apply JsMap.get_In in G. apply (Hids _ G).
Qed.

Lemma skip_pass_listed st repositoryId : listed (Plane.schedules st) -> listed (Plane.schedules (skip_pass st repositoryId)).
Proof.
  unfold skip_pass. generalize (JsMap.values (Plane.schedules st)) as l. intros l. revert st.
  induction l as [|s l IH]; intros st H; cbn [fold_left]; [done|]. apply IH.
  unfold skip_one. destruct (_ || _ || _); [done|]. destruct (truthy_opt _); [|done]. by apply listed_set.
Qed.

Lemma skip_due_get st repositoryId k :
  listed (Plane.schedules st) ->
  JsMap.get k (Plane.schedules (skipDueSchedulesBeforeActivation st repositoryId)) =
    (fun s => skipped repositoryId (Plane.now st) (skipped repositoryId (Plane.now st) s)) <$> JsMap.get k (Plane.schedules st).
Proof.
  intros H. unfold skipDueSchedulesBeforeActivation. rewrite skip_pass_get by by apply skip_pass_listed.
  rewrite skip_pass_get by done. destruct (skip_fold_frame (JsMap.values (Plane.schedules st)) st repositoryId) as [m E].
  unfold skip_pass. rewrite E. change (Plane.now (st <| Plane.schedules := m |>)) with (Plane.now st).
  by destruct (JsMap.get k (Plane.schedules st)).
Qed.

(** The cursor of a schedule of the repository lies ahead. *)
Definition ahead (s : ScheduleRecord) (now : string) : Prop :=
  date_gt (date_parse (Schedule.nextRunAt s)) (date_parse now) = true.

Context {DL : DateParseLaws DP}.

Lemma skipped_ahead s n (now := JsDate.toISOString n) :
  common_year n -> schedule_ok s -> Schedule.enabled s = true ->
  ahead (skipped (Schedule.repositoryId s) now s) now.
Proof.
  intros Hy Hok Hen. subst now. unfold skipped. rewrite str_eqb_refl, Hen. cbn [negb orb].
  destruct (date_gt _ _) eqn:Hd; [done|]. destruct (sk_cursor _ Hok) as [at_ Hc].
  destruct (next_exists _ _ _ n Hc Hy) as (t & Ht & Hlt & Hyt). rewrite Ht.
  assert (Hf : truthy (JsDate.toISOString t) = true).
  { apply truthy_true. intros E. pose proof (iso_persisted t ltac:(lia)) as Hp. by rewrite E in Hp. }
  cbn [truthy_opt]. rewrite Hf. unfold ahead. cbn [Schedule.nextRunAt].
  change (Schedule.nextRunAt (s <| Schedule.nextRunAt := JsDate.toISOString t |>)) with (JsDate.toISOString t).
  unfold common_year in Hy. rewrite !date_parse_iso by lia. unfold date_gt, date_lt. lia.
Qed.

Lemma skipped_fields repositoryId now s (s' := skipped repositoryId now s) :
  Schedule.repositoryId s' = Schedule.repositoryId s /\ Schedule.enabled s' = Schedule.enabled s /\
  Schedule.cron s' = Schedule.cron s /\ same_schedule s s'.
Proof. subst s'. unfold skipped. destruct (_ || _ || _); [by repeat split|]. destruct (truthy_opt _); by repeat split. Qed.

Lemma skipped_ok repositoryId now s : schedule_ok s -> schedule_ok (skipped repositoryId now s).
Proof.
  intros Hok. unfold skipped. destruct (_ || _ || _); [done|]. destruct (truthy_opt _) as [c|] eqn:E; [|done].
  apply truthy_opt_Some in E as [E _]. destruct Hok. split; try done. by exists now.
Qed.

Lemma skipped_other repositoryId now s : Schedule.repositoryId s <> repositoryId -> skipped repositoryId now s = s.
Proof.
  intros H. unfold skipped. destruct (str_eqb _ _) eqn:E; [by apply str_eqb_true in E|done].
Qed.

(** [C18] Opening a repository catches nothing up.  If the repository is opened, it takes sessions
    again and every enabled schedule of it has its cursor ahead of the clock, so that no claim
    fires an occurrence of the time it was closed; a repository that was not open records the
    clock as its cutoff.  Schedules stay well formed and those of other repositories are
    untouched. *)
Theorem opening_catches_nothing_up st id n r st' :
  listed (Plane.schedules st) -> schedules_ok st -> common_year n -> Plane.now st = JsDate.toISOString n ->
  (forall r, JsMap.get id (Plane.repositories st) = Some r -> Repo.id r = id) ->
  setRepositoryAdmissionDurable st id true = (succeeded r, st') ->
  repositoryAdmissionFailure st' id = None /\ schedules_ok st' /\
  (forall k s, JsMap.get k (Plane.schedules st') = Some s -> Schedule.repositoryId s = id -> Schedule.enabled s = true ->
     ahead s (Plane.now st) /\
     forall expected, (tryClaimScheduleFire st' k expected (Plane.now st)).1 = Some None) /\
  (repositoryAdmissionFailure st id <> None -> Repo.activationCutoffAt r = Some (Plane.now st)) /\
  (forall k s, JsMap.get k (Plane.schedules st) = Some s -> Schedule.repositoryId s <> id ->
     JsMap.get k (Plane.schedules st') = Some s).
Proof.
  intros Hl Hok Hy Hnow Hid H. unfold setRepositoryAdmissionDurable, transitionInMemory in H.
  pose proof (fun k => skip_due_get st id k Hl) as Hget. destruct (skip_due_frame st id) as [m Em].
  rewrite Em in H, Hget. change (Plane.repositories (st <| Plane.schedules := m |>)) with (Plane.repositories st) in H.
  change (Plane.schedules (st <| Plane.schedules := m |>)) with m in Hget.
  destruct (JsMap.get id (Plane.repositories st)) as [r0|] eqn:G; [|done]. specialize (Hid r0 eq_refl).
  destruct (repositoryAdmissionState (Repo.admissionState r0)) as [was|] eqn:Ew; [|done].
  assert (Hr : st' = cache (st <| Plane.schedules := m |>) r /\ Repo.admissionState r = Some "active" /\ Repo.id r = id /\
    (was <> adm_active -> Repo.activationCutoffAt r = Some (Plane.now st))).
  { destruct was; cbv zeta iota in H; [|rewrite bool_decide_false in H by done|done];
      injection H as <- <-; (split; [done|]); (split; [done|]); (split; [exact Hid|done]). }
  destruct Hr as (-> & Ha & Hi & Hcut). clear H.
  split. { unfold repositoryAdmissionFailure, cache. rewrite Hi.
    change (Plane.repositories (_ <| Plane.repositories := ?x |>)) with x. by rewrite JsMap.get_set_eq, Ha. }
  change (Plane.schedules (cache (st <| Plane.schedules := m |>) r)) with m.
  assert (Hback : forall k s, JsMap.get k m = Some s -> exists s0, JsMap.get k (Plane.schedules st) = Some s0 /\
    schedule_ok s0 /\ Schedule.id s0 = k /\ s = skipped id (Plane.now st) (skipped id (Plane.now st) s0)).
  { intros k s Gk. rewrite Hget in Gk. destruct (JsMap.get k (Plane.schedules st)) as [s0|] eqn:G0; [|done].
    injection Gk as <-. destruct (Hok k s0 G0). by exists s0. }
  split. { intros k s Gk. destruct (Hback k s Gk) as (s0 & _ & Hs0 & Hk & ->). split; [by rewrite !skipped_id|].
    by apply skipped_ok, skipped_ok. }
  split; [|split].
  - intros k s Gk Hrep Hen. assert (Hah : ahead s (Plane.now st)).
    { destruct (Hback k s Gk) as (s0 & _ & Hs0 & Hk & ->). rewrite Hnow in *.
      set (s1 := skipped id (JsDate.toISOString n) s0) in *.
      destruct (skipped_fields id (JsDate.toISOString n) s1) as (E1 & E2 & _). rewrite E1 in Hrep. rewrite E2 in Hen.
      rewrite <- Hrep. apply skipped_ahead; [done|by apply skipped_ok|done]. }
    split; [done|]. intros expected. unfold tryClaimScheduleFire.
    change (Plane.schedules (cache (st <| Plane.schedules := m |>) r)) with m. rewrite Gk, Hen. cbn [negb].
    destruct (nextRunAt s (Plane.now st)) as [c|]; [|done]. destruct (negb (str_eqb _ _)) eqn:E; [done|].
    apply negb_false_iff, str_eqb_true in E. subst expected. unfold ahead in Hah. by rewrite Hah.
  - intros Hclosed. apply Hcut. intros ->. apply Hclosed. unfold repositoryAdmissionFailure. by rewrite G, Ew.
  - intros k s Gk Hne. rewrite Hget, Gk. cbn [fmap option_fmap option_map]. by rewrite !skipped_other by (try done; by rewrite skipped_other).
Qed.
End properties.

(** ** Witnesses *)
#[local] Existing Instance iso_date_parse.

Lemma drain_settles_witness :
  exists r st', drainRepositoryDurable example_state "repo" = (succeeded r, st') /\ Repo.admissionState r = Some "paused" /\
    closed st' "repo" /\ nothing_held st' "repo" /\
    forall s, JsMap.get "s1" (Plane.sessions st') = Some s -> isActiveSessionStatus (Session.status s) = false.
Proof.
  destruct (drain_settles example_state "repo" example_repository example_own) as
    (r & st' & E & _ & Hc & Hh & Hn & _); [vm_compute; reflexivity|vm_compute; reflexivity|].
  assert ((fun o => match o with succeeded x => Repo.admissionState x | _ => None end)
    (drainRepositoryDurable example_state "repo").1 = Some "paused") as Hp by (vm_compute; reflexivity).
  assert (forall s, JsMap.get "s1" (Plane.sessions (drainRepositoryDurable example_state "repo").2) = Some s ->
    Session.repositoryId s = "repo") as Hr by (vm_compute; intros s [= <-]; reflexivity).
  rewrite E in Hp, Hr. cbn [fst snd] in Hp, Hr. exists r, st'. split; [exact E|]. split; [exact Hp|]. split; [exact Hc|].
  split; [destruct Hh as [[_ H]|[H _]]; [exact H|congruence]|]. intros s G. exact (Hn "s1" s G (Hr s G)).
Defined.

(** The plane with its hourly schedule, its repository paused for seventy minutes. *)
Definition closed_state : ControlPlaneState :=
  put_state <| Plane.repositories := [("repo", example_repository <| Repo.admissionState := Some "paused" |>)] |>
            <| Plane.now := JsDate.toISOString fire_instant |>.

Lemma closed_schedules : listed (Plane.schedules closed_state) /\ schedules_ok closed_state.
Proof.
  assert (E : Plane.schedules closed_state = [("nightly", put_schedule)]) by (vm_compute; reflexivity).
  unfold schedules_ok, listed, JsMap.wf. rewrite E. split; [split|].
  - apply NoDup_singleton.
  - intros e [<-|[]]. reflexivity.
  - intros id s. cbn [JsMap.get]. destruct (str_eqb id "nightly") eqn:Ei; [|done]. apply str_eqb_true in Ei.
    intros [= <-]. split; [by rewrite Ei|]. apply (prepare_put_ok _ _ _ _ put_prepared).
Qed.

Lemma opening_catches_nothing_up_witness :
  exists r st', setRepositoryAdmissionDurable closed_state "repo" true = (succeeded r, st') /\
    repositoryAdmissionFailure st' "repo" = None /\ Repo.activationCutoffAt r = Some (JsDate.toISOString fire_instant) /\
    Schedule.nextRunAt <$> JsMap.get "nightly" (Plane.schedules st') = Some "2026-01-01T02:00:00.000Z".
Proof.
  assert (exists r, (setRepositoryAdmissionDurable closed_state "repo" true).1 = succeeded r) as [r Hr]
    by (eexists; vm_compute; reflexivity).
  exists r, (setRepositoryAdmissionDurable closed_state "repo" true).2.
  assert (setRepositoryAdmissionDurable closed_state "repo" true =
    (succeeded r, (setRepositoryAdmissionDurable closed_state "repo" true).2)) as E
    by (rewrite <- Hr; apply surjective_pairing).
  assert (common_year fire_instant) as Hy by (vm_compute; split; discriminate).
  assert (forall x, JsMap.get "repo" (Plane.repositories closed_state) = Some x -> Repo.id x = "repo") as Hid
    by (vm_compute; intros x [= <-]; reflexivity).
  destruct (opening_catches_nothing_up closed_state "repo" fire_instant r _ (proj1 closed_schedules) (proj2 closed_schedules)
    Hy eq_refl Hid E) as (Ho & _ & _ & Hc & _).
  split; [exact E|]. split; [exact Ho|]. split; [apply Hc; vm_compute; discriminate|]. vm_compute. reflexivity.
Defined.
