(* ===== verification/DeleteGuards.v ===== *)
(** * Delete guards of the catalog

    services/api/src/control-plane-delete-guards.ts, control-plane-command-delete-overrides.ts,
    the deletes of control-plane-provider-delete.ts, control-plane-command-delete.ts,
    control-plane-repository-delete.ts, control-plane-provider-accounts.ts and
    control-plane-workspace-pools.ts, without a storage: an entry of the catalog may go only
    when nothing refers to it, and a refusal says what does.  The integrations, which other
    parts of the plane keep, are an argument ([CatalogLinks]); the counter of repository
    revisions is left out. *)

From Stdlib Require Import ZArith Lia Ascii String.
From stdpp Require Import base strings list.
From S2P Require Import Prelude Types SessionCreate.

Local Open Scope string_scope.
Local Open Scope Z_scope.

(** ** Dependencies *)
Module Dep.

Record DeleteDependency := mkDeleteDependency {
  kind : string;
  id : string;
  status : option string;
  scope : option string;
  hostId : option string;
  repositoryId : option string;
  worktreeId : option string;
  providerAccountId : option string;
}.

End Dep.
Notation DeleteDependency := Dep.DeleteDependency.

(** [{ kind, id }]. *)
Definition dependency (kind id : string) : DeleteDependency :=
  Dep.mkDeleteDependency kind id None None None None None None.

(** [{ ok: true }], or the error with the dependencies of a conflict. *)
Inductive DeleteResult := deleted | undeletable (error : string) (dependencies : option (list DeleteDependency)).

(** The members of an inbound integration the guards read. *)
Record Integration := mkIntegration {
  integrationId : string;
  integrationRepositoryId : string;
  integrationTarget : TargetRef;
  integrationFallbacks : list TargetRef;
}.

(** A binding of the GitHub receiver; it has no id of its own. *)
Record IngressBinding := mkIngressBinding {
  bindingRepositoryId : string;
  bindingTarget : TargetRef;
  bindingFallbacks : list TargetRef;
}.

(** [customWebhookIntegrations], and the bindings of [githubIngressConfig] when there is one. *)
Record CatalogLinks := mkCatalogLinks {
  customWebhookIntegrations : list Integration;
  githubIngressBindings : option (list IngressBinding);
}.

Record DeleteReferences := mkDeleteReferences {
  schedules : list ScheduleRecord;
  sessions : list SessionRecord;
  worktrees : list WorktreeRecord;
  inventories : list HostInventory;
  providers : list Provider;
  accounts : list ProviderAccountRecord;
  commands : list CommandRecord;
  integrations : list Integration;
  githubIngress : option (list IngressBinding);
}.

(** [sessionDrains] is empty without a storage. *)
Definition referencesFromState (state : ControlPlaneState) (links : CatalogLinks) : DeleteReferences :=
  mkDeleteReferences (JsMap.values (Plane.schedules state)) (JsMap.values (Plane.sessions state))
    (JsMap.values (Plane.worktrees state)) (JsMap.values (Plane.hostInventories state))
    (JsMap.values (Plane.providers state)) (JsMap.values (Plane.providerAccounts state))
    (JsMap.values (Plane.commands state)) (customWebhookIntegrations links) (githubIngressBindings links).

Definition live (sessions : list SessionRecord) : list SessionRecord :=
  List.filter (fun session => isActiveSessionStatus (Session.status session)) sessions.

Definition sessionDependency (session : SessionRecord) : DeleteDependency :=
  Dep.mkDeleteDependency "session" (Session.id session) (Some (status_name (Session.status session)))
    None None None None None.

Definition is_provider (id : string) (route : TargetRef) : bool :=
  match route with target_provider p => str_eqb p id | target_command _ => false end.

Definition is_command (id : string) (route : TargetRef) : bool :=
  match route with target_command c => str_eqb c id | target_provider _ => false end.

Definition referencesProvider (target : TargetRef) (fallbacks : list TargetRef) (id : string) : bool :=
  existsb (is_provider id) (target :: fallbacks).

Definition referencesCommand (target : TargetRef) (fallbacks : list TargetRef) (id : string) : bool :=
  existsb (is_command id) (target :: fallbacks).

(** The key of [unique]. *)
Definition dependency_key (d : DeleteDependency) : string :=
  Dep.kind d ++ ":" ++ Dep.id d ++ ":" ++ opt_or (Dep.scope d) "" ++ ":" ++ opt_or (Dep.hostId d) "" ++ ":" ++
  opt_or (Dep.repositoryId d) "" ++ ":" ++ opt_or (Dep.worktreeId d) "" ++ ":" ++ opt_or (Dep.providerAccountId d) "".

(** [new Map(dependencies.map(..)).values()]: the last of each key, at the place of the first. *)
Definition unique (dependencies : list DeleteDependency) : list DeleteDependency :=
  JsMap.values (fold_left (fun m d => JsMap.set (dependency_key d) d m) dependencies JsMap.empty).

(** A loop that pushes what [f] makes of the items that pass [p]. *)
Definition push_where {A} (p : A -> bool) (f : A -> DeleteDependency) (items : list A) : list DeleteDependency :=
  map f (List.filter p items).

Definition ingress_where (p : IngressBinding -> bool) (bindings : option (list IngressBinding)) : list DeleteDependency :=
  if existsb p (opt_or bindings []) then [dependency "integration" "github-ingress"] else [].

Definition provider_references (refs : DeleteReferences) (id : string) : list DeleteDependency :=
  push_where (fun a => str_eqb (Account.providerId a) id) (fun a => dependency "provider-account" (Account.id a)) (accounts refs) ++
  push_where (fun c => opt_str_eqb (Cmd.providerId c) (Some id)) (fun c => dependency "command" (Cmd.id c)) (commands refs) ++
  push_where (fun s => referencesProvider (Schedule.target s) (Schedule.fallbacks s) id)
    (fun s => dependency "schedule" (Schedule.id s)) (schedules refs) ++
  push_where (fun s => referencesProvider (Session.target s) (Session.fallbacks s) id) sessionDependency (live (sessions refs)) ++
  push_where (fun i => referencesProvider (integrationTarget i) (integrationFallbacks i) id)
    (fun i => dependency "integration" (integrationId i)) (integrations refs) ++
  ingress_where (fun b => referencesProvider (bindingTarget b) (bindingFallbacks b) id) (githubIngress refs).

Definition dependenciesForProvider (refs : DeleteReferences) (id : string) : list DeleteDependency :=
  unique (provider_references refs id).

(** The members every object inherits from [Object.prototype]. *)
Definition object_prototype : list string :=
  ["constructor"; "__defineGetter__"; "__defineSetter__"; "hasOwnProperty"; "__lookupGetter__"; "__lookupSetter__";
   "isPrototypeOf"; "propertyIsEnumerable"; "toString"; "valueOf"; "__proto__"; "toLocaleString"].

(** [id in (overrides ?? {})]. *)
Definition in_overrides (id : string) (overrides : option (JsMap.t ProviderAccountOverride)) : bool :=
  JsMap.has id (opt_or overrides []) || set_has id object_prototype.

Definition account_attached (id : string) (inventory : HostInventory) : bool :=
  existsb (fun account => str_eqb (HAccount.providerAccountId account) id) (Inventory.providerAccounts inventory) ||
  existsb (fun repository =>
    in_overrides id (HRepository.providerAccountOverrides repository) ||
    existsb (fun worktree => in_overrides id (HWorktree.providerAccountOverrides worktree)) (HRepository.worktrees repository))
    (Inventory.repositories inventory).

Definition route_account (session : SessionRecord) : option string :=
  r ← Session.resolvedRoute session; Route.providerAccountId r.

Definition account_references (refs : DeleteReferences) (id : string) : list DeleteDependency :=
  push_where (account_attached id) (fun i => dependency "host-inventory" (Inventory.hostId i)) (inventories refs) ++
  push_where (fun s => opt_str_eqb (route_account s) (Some id) || opt_str_eqb (nul_opt (Session.pinnedProviderAccountId s)) (Some id))
    sessionDependency (live (sessions refs)).

Definition dependenciesForAccount (refs : DeleteReferences) (id : string) : list DeleteDependency :=
  unique (account_references refs id).

(** *** Command overrides *)

(** The accounts whose override names the command. *)
Definition matchingOverrides (overrides : option (JsMap.t ProviderAccountOverride)) (commandId : string) : list string :=
  map fst (List.filter (fun e => opt_str_eqb (Override.commandId e.2) (Some commandId)) (opt_or overrides [])).

Definition host_override (hostId providerAccountId : string) : DeleteDependency :=
  Dep.mkDeleteDependency "host-inventory" hostId None (Some "host") (Some hostId) None None (Some providerAccountId).

Definition repository_override (hostId repositoryId providerAccountId : string) : DeleteDependency :=
  Dep.mkDeleteDependency "host-inventory" hostId None (Some "repository") (Some hostId) (Some repositoryId) None
    (Some providerAccountId).

Definition worktree_override (hostId repositoryId worktreeId providerAccountId : string) : DeleteDependency :=
  Dep.mkDeleteDependency "host-inventory" hostId None (Some "worktree") (Some hostId) (Some repositoryId) (Some worktreeId)
    (Some providerAccountId).

Definition repository_overrides (commandId hostId : string) (repository : HostRepository) : list DeleteDependency :=
  map (repository_override hostId (HRepository.id repository))
    (matchingOverrides (HRepository.providerAccountOverrides repository) commandId) ++
  flat_map (fun worktree =>
    map (worktree_override hostId (HRepository.id repository) (HWorktree.id worktree))
      (matchingOverrides (HWorktree.providerAccountOverrides worktree) commandId)) (HRepository.worktrees repository).

Definition inventory_overrides (commandId : string) (inventory : HostInventory) : list DeleteDependency :=
  push_where (fun account => opt_str_eqb (HAccount.commandId account) (Some commandId))
    (fun account => host_override (Inventory.hostId inventory) (HAccount.providerAccountId account))
    (Inventory.providerAccounts inventory) ++
  flat_map (repository_overrides commandId (Inventory.hostId inventory)) (Inventory.repositories inventory).

Definition commandOverrideDependencies (inventories : list HostInventory) (commandId : string) : list DeleteDependency :=
  flat_map (inventory_overrides commandId) inventories.

Definition runs_command (id : string) (session : SessionRecord) : bool :=
  referencesCommand (Session.target session) (Session.fallbacks session) id ||
  opt_str_eqb (Route.commandId <$> Session.resolvedRoute session) (Some id) ||
  opt_str_eqb (Session.pinnedCommandId session) (Some id).

Definition command_references (refs : DeleteReferences) (id : string) : list DeleteDependency :=
  push_where (fun p => opt_str_eqb (Prov.defaultCommandId p) (Some id)) (fun p => dependency "provider" (Prov.id p))
    (providers refs) ++
  commandOverrideDependencies (inventories refs) id ++
  push_where (fun s => referencesCommand (Schedule.target s) (Schedule.fallbacks s) id)
    (fun s => dependency "schedule" (Schedule.id s)) (schedules refs) ++
  push_where (runs_command id) sessionDependency (live (sessions refs)) ++
  push_where (fun i => referencesCommand (integrationTarget i) (integrationFallbacks i) id)
    (fun i => dependency "integration" (integrationId i)) (integrations refs) ++
  ingress_where (fun b => referencesCommand (bindingTarget b) (bindingFallbacks b) id) (githubIngress refs).

Definition dependenciesForCommand (refs : DeleteReferences) (id : string) : list DeleteDependency :=
  unique (command_references refs id).

Definition repository_references (refs : DeleteReferences) (id : string) : list DeleteDependency :=
  push_where (fun s => str_eqb (Schedule.repositoryId s) id) (fun s => dependency "schedule" (Schedule.id s)) (schedules refs) ++
  push_where (fun s => str_eqb (Session.repositoryId s) id) sessionDependency (live (sessions refs)) ++
  push_where (fun w => str_eqb (Worktree.repositoryId w) id) (fun w => dependency "worktree" (Worktree.id w)) (worktrees refs) ++
  push_where (fun i => existsb (fun repository => str_eqb (HRepository.id repository) id) (Inventory.repositories i))
    (fun i => dependency "host-inventory" (Inventory.hostId i)) (inventories refs) ++
  push_where (fun i => str_eqb (integrationRepositoryId i) id) (fun i => dependency "integration" (integrationId i))
    (integrations refs) ++
  ingress_where (fun b => str_eqb (bindingRepositoryId b) id) (githubIngress refs).

Definition dependenciesForRepository (refs : DeleteReferences) (id : string) : list DeleteDependency :=
  unique (repository_references refs id).

(** The principal's schedules; there are no session drains without a storage. *)
Definition dependenciesForPrincipal (refs : DeleteReferences) (id : string) : list DeleteDependency :=
  unique (push_where (fun s => opt_str_eqb (Schedule.principalId s) (Some id)) (fun s => dependency "schedule" (Schedule.id s))
    (schedules refs)).

(** *** Labels *)
Definition deleteDependencyLabel (d : DeleteDependency) : string :=
  let account := match truthy_opt (Dep.providerAccountId d) with
                 | Some a => " (provider account " ++ a ++ ")"
                 | None => ""
                 end in
  let member (x : option string) := opt_or x "undefined" in
  if opt_str_eqb (Dep.scope d) (Some "host") then "host " ++ member (Dep.hostId d) ++ " command override" ++ account
  else if opt_str_eqb (Dep.scope d) (Some "repository") then
    "repository " ++ member (Dep.repositoryId d) ++ " command override on host " ++ member (Dep.hostId d) ++ account
  else if opt_str_eqb (Dep.scope d) (Some "worktree") then
    "worktree " ++ member (Dep.worktreeId d) ++ " command override on host " ++ member (Dep.hostId d) ++ account
  else Dep.kind d ++ " " ++ Dep.id d ++
       match truthy_opt (Dep.status d) with Some s => " (" ++ s ++ ")" | None => "" end.

Definition deleteConflict (subject : string) (dependencies : list DeleteDependency) : DeleteResult :=
  match dependencies with
  | [] => deleted
  | _ => undeletable ("cannot delete " ++ subject ++ "; referenced by " ++
                      String.concat ", " (map deleteDependencyLabel dependencies)) (Some dependencies)
  end.

(** ** Deletes *)
Section deletes.
Variable state : ControlPlaneState.
Variable links : CatalogLinks.

Definition canDeleteProvider (id : string) (refs : DeleteReferences) : DeleteResult :=
  if negb (JsMap.has id (Plane.providers state)) then undeletable "provider not found" None
  else deleteConflict "provider" (dependenciesForProvider refs id).

Definition canDeleteCommand (id : string) (refs : DeleteReferences) : DeleteResult :=
  if negb (JsMap.has id (Plane.commands state)) then undeletable "command not found" None
  else deleteConflict "command" (dependenciesForCommand refs id).

Definition canDeleteRepository (id : string) (refs : DeleteReferences) : DeleteResult :=
  if negb (JsMap.has id (Plane.repositories state)) then undeletable "repository not found" None
  else deleteConflict "repository" (dependenciesForRepository refs id).

(** The state after a result: changed only by a success. *)
Definition when_deleted (result : DeleteResult) (state' : ControlPlaneState) : DeleteResult * ControlPlaneState :=
  match result with deleted => (deleted, state') | undeletable _ _ => (result, state) end.

Definition deleteProvider (id : string) : DeleteResult * ControlPlaneState :=
  when_deleted (canDeleteProvider id (referencesFromState state links))
    (state <| Plane.providers := JsMap.delete id (Plane.providers state) |>).

Definition deleteCommand (id : string) : DeleteResult * ControlPlaneState :=
  when_deleted (canDeleteCommand id (referencesFromState state links))
    (state <| Plane.commands := JsMap.delete id (Plane.commands state) |>).

Definition deleteRepository (id : string) : DeleteResult * ControlPlaneState :=
  when_deleted (canDeleteRepository id (referencesFromState state links))
    (state <| Plane.repositories := JsMap.delete id (Plane.repositories state) |>).

Definition deleteProviderAccount (id : string) : DeleteResult * ControlPlaneState :=
  if negb (JsMap.has id (Plane.providerAccounts state)) then (undeletable "provider account not found" None, state)
  else
    when_deleted (deleteConflict "provider account" (dependenciesForAccount (referencesFromState state links) id))
      (state <| Plane.providerAccounts := JsMap.delete id (Plane.providerAccounts state) |>).

(** Without [refs], an attachment shows as a slot. *)
Definition poolDependency (id : string) : option string :=
  if existsb (fun slot => str_eqb (Slot.workspacePoolId slot) id) (JsMap.values (Plane.workspaceSlots state)) then
    Some "workspace pool is attached to a host"
  else if existsb (fun s => opt_str_eqb (Schedule.workspacePoolId s) (Some id)) (JsMap.values (Plane.schedules state)) then
    Some "workspace pool is referenced by a schedule"
  else if existsb (fun s => opt_str_eqb (Session.workspacePoolId s) (Some id) && isActiveSessionStatus (Session.status s))
            (JsMap.values (Plane.sessions state)) then
    Some "workspace pool has queued or running sessions"
  else None.

Definition deleteWorkspacePoolDurable (id : string) : DeleteResult * ControlPlaneState :=
  if negb (JsMap.has id (Plane.workspacePools state)) then (undeletable "workspace pool not found" None, state)
  else match poolDependency id with
       | Some e => (undeletable e None, state)
       | None => (deleted, state <| Plane.workspacePools := JsMap.delete id (Plane.workspacePools state) |>)
       end.

End deletes.

(** ** What refers to an entry *)
Inductive CatalogKind := kind_provider | kind_account | kind_command | kind_repository | kind_pool.

Definition delete_entry (kind : CatalogKind) (st : ControlPlaneState) (links : CatalogLinks) (id : string)
    : DeleteResult * ControlPlaneState :=
  match kind with
  | kind_provider => deleteProvider st links id
  | kind_account => deleteProviderAccount st links id
  | kind_command => deleteCommand st links id
  | kind_repository => deleteRepository st links id
  | kind_pool => deleteWorkspacePoolDurable st id
  end.

Definition stored (kind : CatalogKind) (st : ControlPlaneState) (id : string) : bool :=
  match kind with
  | kind_provider => JsMap.has id (Plane.providers st)
  | kind_account => JsMap.has id (Plane.providerAccounts st)
  | kind_command => JsMap.has id (Plane.commands st)
  | kind_repository => JsMap.has id (Plane.repositories st)
  | kind_pool => JsMap.has id (Plane.workspacePools st)
  end.

(** The state without one entry. *)
Definition without (kind : CatalogKind) (st : ControlPlaneState) (id : string) : ControlPlaneState :=
  match kind with
  | kind_provider => st <| Plane.providers := JsMap.delete id (Plane.providers st) |>
  | kind_account => st <| Plane.providerAccounts := JsMap.delete id (Plane.providerAccounts st) |>
  | kind_command => st <| Plane.commands := JsMap.delete id (Plane.commands st) |>
  | kind_repository => st <| Plane.repositories := JsMap.delete id (Plane.repositories st) |>
  | kind_pool => st <| Plane.workspacePools := JsMap.delete id (Plane.workspacePools st) |>
  end.

(** The target that names a provider or a command. *)
Definition target_of (kind : CatalogKind) (id : string) : option TargetRef :=
  match kind with
  | kind_provider => Some (target_provider id)
  | kind_command => Some (target_command id)
  | _ => None
  end.

Section references.
Variable st : ControlPlaneState.
Variable links : CatalogLinks.
Variable id : string.

Definition active (s : SessionRecord) : Prop :=
  In s (JsMap.values (Plane.sessions st)) /\ isActiveSessionStatus (Session.status s) = true.

Definition bound (b : IngressBinding) : Prop :=
  exists bindings, githubIngressBindings links = Some bindings /\ In b bindings.

Definition overrides_account (overrides : option (JsMap.t ProviderAccountOverride)) : Prop :=
  (exists m, overrides = Some m /\ JsMap.has id m = true) \/ In id object_prototype.

Definition override_runs (overrides : option (JsMap.t ProviderAccountOverride)) (account : string) : Prop :=
  exists m o, overrides = Some m /\ In (account, o) m /\ Override.commandId o = Some id.

(** Each way an entry can be referred to, and how a refusal reports it. *)
Inductive depends : CatalogKind -> DeleteDependency -> Prop :=
| on_schedule_target kind t s : target_of kind id = Some t -> In s (JsMap.values (Plane.schedules st)) ->
    In t (Schedule.target s :: Schedule.fallbacks s) -> depends kind (dependency "schedule" (Schedule.id s))
| on_session_target kind t s : target_of kind id = Some t -> active s ->
    In t (Session.target s :: Session.fallbacks s) -> depends kind (sessionDependency s)
| on_integration_target kind t i : target_of kind id = Some t -> In i (customWebhookIntegrations links) ->
    In t (integrationTarget i :: integrationFallbacks i) -> depends kind (dependency "integration" (integrationId i))
| on_binding_target kind t b : target_of kind id = Some t -> bound b ->
    In t (bindingTarget b :: bindingFallbacks b) -> depends kind (dependency "integration" "github-ingress")
| on_account a : In a (JsMap.values (Plane.providerAccounts st)) -> Account.providerId a = id ->
    depends kind_provider (dependency "provider-account" (Account.id a))
| on_command c : In c (JsMap.values (Plane.commands st)) -> Cmd.providerId c = Some id ->
    depends kind_provider (dependency "command" (Cmd.id c))
| on_attachment i h : In i (JsMap.values (Plane.hostInventories st)) -> In h (Inventory.providerAccounts i) ->
    HAccount.providerAccountId h = id -> depends kind_account (dependency "host-inventory" (Inventory.hostId i))
| on_repository_scope i r : In i (JsMap.values (Plane.hostInventories st)) -> In r (Inventory.repositories i) ->
    overrides_account (HRepository.providerAccountOverrides r) ->
    depends kind_account (dependency "host-inventory" (Inventory.hostId i))
| on_worktree_scope i r w : In i (JsMap.values (Plane.hostInventories st)) -> In r (Inventory.repositories i) ->
    In w (HRepository.worktrees r) -> overrides_account (HWorktree.providerAccountOverrides w) ->
    depends kind_account (dependency "host-inventory" (Inventory.hostId i))
| on_session_account s : active s ->
    route_account s = Some id \/ nul_opt (Session.pinnedProviderAccountId s) = Some id ->
    depends kind_account (sessionDependency s)
| on_default_command p : In p (JsMap.values (Plane.providers st)) -> Prov.defaultCommandId p = Some id ->
    depends kind_command (dependency "provider" (Prov.id p))
| on_host_override i h : In i (JsMap.values (Plane.hostInventories st)) -> In h (Inventory.providerAccounts i) ->
    HAccount.commandId h = Some id ->
    depends kind_command (host_override (Inventory.hostId i) (HAccount.providerAccountId h))
| on_repository_override i r a : In i (JsMap.values (Plane.hostInventories st)) -> In r (Inventory.repositories i) ->
    override_runs (HRepository.providerAccountOverrides r) a ->
    depends kind_command (repository_override (Inventory.hostId i) (HRepository.id r) a)
| on_worktree_override i r w a : In i (JsMap.values (Plane.hostInventories st)) -> In r (Inventory.repositories i) ->
    In w (HRepository.worktrees r) -> override_runs (HWorktree.providerAccountOverrides w) a ->
    depends kind_command (worktree_override (Inventory.hostId i) (HRepository.id r) (HWorktree.id w) a)
| on_session_command s : active s ->
    Route.commandId <$> Session.resolvedRoute s = Some id \/ Session.pinnedCommandId s = Some id ->
    depends kind_command (sessionDependency s)
| on_schedule s : In s (JsMap.values (Plane.schedules st)) -> Schedule.repositoryId s = id ->
    depends kind_repository (dependency "schedule" (Schedule.id s))
| on_session s : active s -> Session.repositoryId s = id -> depends kind_repository (sessionDependency s)
| on_worktree w : In w (JsMap.values (Plane.worktrees st)) -> Worktree.repositoryId w = id ->
    depends kind_repository (dependency "worktree" (Worktree.id w))
| on_inventory i r : In i (JsMap.values (Plane.hostInventories st)) -> In r (Inventory.repositories i) ->
    HRepository.id r = id -> depends kind_repository (dependency "host-inventory" (Inventory.hostId i))
| on_integration i : In i (customWebhookIntegrations links) -> integrationRepositoryId i = id ->
    depends kind_repository (dependency "integration" (integrationId i))
| on_binding b : bound b -> bindingRepositoryId b = id ->
    depends kind_repository (dependency "integration" "github-ingress").

(** A pool is in use by a slot, a schedule or an active session. *)
Definition pool_in_use : Prop :=
  (exists slot, In slot (JsMap.values (Plane.workspaceSlots st)) /\ Slot.workspacePoolId slot = id) \/
  (exists s, In s (JsMap.values (Plane.schedules st)) /\ Schedule.workspacePoolId s = Some id) \/
  (exists s, active s /\ Session.workspacePoolId s = Some id).

Definition in_use (kind : CatalogKind) : Prop :=
  match kind with kind_pool => pool_in_use | _ => exists d, depends kind d end.

(** *** The guards find what refers to the entry *)
Notation refs := (referencesFromState st links).

(** What the guard of a kind collects, before [unique]. *)
Definition collected (kind : CatalogKind) : list DeleteDependency :=
  match kind with
  | kind_provider => provider_references refs id
  | kind_account => account_references refs id
  | kind_command => command_references refs id
  | kind_repository => repository_references refs id
  | kind_pool => []
  end.

End references.

Lemma opt_str_eqb_true a b : opt_str_eqb a b = true <-> a = b.
Proof. apply bool_decide_eq_true. Qed.

Lemma push_where_In {A} (p : A -> bool) f (items : list A) d :
  In d (push_where p f items) <-> exists x, In x items /\ p x = true /\ d = f x.
Proof.
  unfold push_where. rewrite in_map_iff. setoid_rewrite filter_In. naive_solver.
Qed.

Lemma live_In s l : In s (live l) <-> In s l /\ isActiveSessionStatus (Session.status s) = true.
Proof. apply filter_In. Qed.

Lemma references_provider target fallbacks id :
  referencesProvider target fallbacks id = true <-> In (target_provider id) (target :: fallbacks).
Proof.
  unfold referencesProvider. rewrite existsb_exists. split; [|intros H; exists (target_provider id); split; [done|apply str_eqb_refl]].
  intros ([p|c] & Hin & E); [|done]. by apply str_eqb_true in E as ->.
Qed.

Lemma references_command target fallbacks id :
  referencesCommand target fallbacks id = true <-> In (target_command id) (target :: fallbacks).
Proof.
  unfold referencesCommand. rewrite existsb_exists. split; [|intros H; exists (target_command id); split; [done|apply str_eqb_refl]].
  intros ([p|c] & Hin & E); [done|]. by apply str_eqb_true in E as ->.
Qed.

Lemma ingress_In p links d :
  In d (ingress_where p (githubIngressBindings links)) <->
  d = dependency "integration" "github-ingress" /\ exists b, bound links b /\ p b = true.
Proof.
  unfold ingress_where, bound. destruct (existsb p _) eqn:E.
  - apply existsb_exists in E as (b & Hb & Hp). simpl.
    split; [intros [<-|[]]; split; [done|]; exists b; split; [|done]|by intros [-> _]; left].
    destruct (githubIngressBindings links) as [bs|]; [by exists bs|done].
  - split; [done|]. intros [_ (b & (bs & Ebs & Hb) & Hp)]. rewrite Ebs in E. simpl in E.
    rewrite (proj2 (existsb_exists _ _)) in E; [done|]. by exists b.
Qed.

Lemma in_overrides_true id overrides : in_overrides id overrides = true <-> overrides_account id overrides.
Proof.
  unfold in_overrides, overrides_account. rewrite orb_true_iff, set_has_In.
  split; (intros [H|H]; [left|by right]).
  - destruct overrides as [m|]; [by exists m|done].
  - by destruct H as (m & -> & H).
Qed.

Lemma matching_In a overrides id : In a (matchingOverrides overrides id) <-> override_runs id overrides a.
Proof.
  unfold matchingOverrides, override_runs. rewrite in_map_iff. setoid_rewrite filter_In. setoid_rewrite opt_str_eqb_true.
  destruct overrides as [m|]; simpl; [|naive_solver]. split.
  - intros ([a' o] & <- & Hin & E). by exists m, o.
  - intros (m' & o & [= <-] & Hin & E). by exists (a, o).
Qed.

Lemma inventory_overrides_In id i d :
  In d (inventory_overrides id i) <->
  (exists h, In h (Inventory.providerAccounts i) /\ HAccount.commandId h = Some id /\
     d = host_override (Inventory.hostId i) (HAccount.providerAccountId h)) \/
  (exists r, In r (Inventory.repositories i) /\
     ((exists a, override_runs id (HRepository.providerAccountOverrides r) a /\
         d = repository_override (Inventory.hostId i) (HRepository.id r) a) \/
      (exists w a, In w (HRepository.worktrees r) /\ override_runs id (HWorktree.providerAccountOverrides w) a /\
         d = worktree_override (Inventory.hostId i) (HRepository.id r) (HWorktree.id w) a))).
Proof.
  unfold inventory_overrides, repository_overrides. rewrite in_app_iff, push_where_In, in_flat_map.
  setoid_rewrite in_app_iff. setoid_rewrite in_flat_map. setoid_rewrite in_map_iff. setoid_rewrite matching_In.
  setoid_rewrite opt_str_eqb_true. naive_solver.
Qed.

Lemma attached_true id i :
  account_attached id i = true <->
  (exists h, In h (Inventory.providerAccounts i) /\ HAccount.providerAccountId h = id) \/
  (exists r, In r (Inventory.repositories i) /\
     (overrides_account id (HRepository.providerAccountOverrides r) \/
      exists w, In w (HRepository.worktrees r) /\ overrides_account id (HWorktree.providerAccountOverrides w))).
Proof.
  unfold account_attached. rewrite orb_true_iff, !existsb_exists. setoid_rewrite orb_true_iff.
  setoid_rewrite existsb_exists. setoid_rewrite in_overrides_true. setoid_rewrite str_eqb_true. done.
Qed.

Lemma runs_command_true id s :
  runs_command id s = true <->
  In (target_command id) (Session.target s :: Session.fallbacks s) \/
  Route.commandId <$> Session.resolvedRoute s = Some id \/ Session.pinnedCommandId s = Some id.
Proof. unfold runs_command. rewrite !orb_true_iff, references_command, !opt_str_eqb_true. tauto. Qed.

(** Reads a membership in a list of pushed dependencies as the reasons behind it. *)
Ltac read_references :=
  repeat (setoid_rewrite in_app_iff || setoid_rewrite push_where_In || setoid_rewrite live_In ||
          setoid_rewrite ingress_In || setoid_rewrite references_provider || setoid_rewrite references_command ||
          setoid_rewrite opt_str_eqb_true || setoid_rewrite str_eqb_true);
  cbn [referencesFromState schedules sessions worktrees inventories providers accounts commands integrations githubIngress].

Lemma provider_references_In st links id d :
  In d (provider_references (referencesFromState st links) id) <-> depends st links id kind_provider d.
Proof.
  unfold provider_references. read_references. split.
  - intros [(x & Hx & E & ->)|[(x & Hx & E & ->)|[(x & Hx & E & ->)|[(x & Hx & E & ->)|[(x & Hx & E & ->)|(-> & x & Hx & E)]]]]];
      by econstructor.
  - inversion 1; simplify_eq/=; unfold active in *; naive_solver.
Qed.

Lemma account_references_In st links id d :
  In d (account_references (referencesFromState st links) id) <-> depends st links id kind_account d.
Proof.
  unfold account_references. read_references. setoid_rewrite attached_true. setoid_rewrite orb_true_iff.
  setoid_rewrite opt_str_eqb_true. split.
  - intros [(i & Hi & [(h & Hh & E)|(r & Hr & [E|(w & Hw & E)])] & ->)|(s & Hs & E & ->)]; by econstructor.
  - inversion 1; simplify_eq/=; unfold active in *; naive_solver.
Qed.

Lemma command_references_In st links id d :
  In d (command_references (referencesFromState st links) id) <-> depends st links id kind_command d.
Proof.
  unfold command_references, commandOverrideDependencies. read_references. setoid_rewrite in_flat_map.
  setoid_rewrite inventory_overrides_In. setoid_rewrite runs_command_true. split.
  - intros [(x & Hx & E & ->)|[(i & Hi & [(h & Hh & E & ->)|(r & Hr & [(a & E & ->)|(w & a & Hw & E & ->)])])
      |[(x & Hx & E & ->)|[(x & Hx & [E|E] & ->)|[(x & Hx & E & ->)|(-> & x & Hx & E)]]]]]; by econstructor.
  - inversion 1; simplify_eq/=; unfold active in *; naive_solver.
Qed.

Lemma repository_references_In st links id d :
  In d (repository_references (referencesFromState st links) id) <-> depends st links id kind_repository d.
Proof.
  unfold repository_references. read_references. setoid_rewrite existsb_exists. setoid_rewrite str_eqb_true. split.
  - intros [(x & Hx & E & ->)|[(x & Hx & E & ->)|[(x & Hx & E & ->)|[(x & Hx & (r & Hr & E) & ->)|[(x & Hx & E & ->)|(-> & x & Hx & E)]]]]];
      by econstructor.
  - inversion 1; simplify_eq/=; unfold active in *; naive_solver.
Qed.

Lemma collected_In st links id kind d :
  kind <> kind_pool -> In d (collected st links id kind) <-> depends st links id kind d.
Proof.
  destruct kind; intros H; [apply provider_references_In|apply account_references_In|
    apply command_references_In|apply repository_references_In|done].
Qed.

(** *** Duplicates *)
Lemma unique_fold l m d :
  In d (JsMap.values (fold_left (fun m d => JsMap.set (dependency_key d) d m) l m)) -> In d l \/ In d (JsMap.values m).
Proof.
  revert m. induction l as [|x l IH]; intros m H; [by right|]. cbn [fold_left] in H.
  apply IH in H as [H|H]; [left; by right|].
  assert (Hset : forall k v (m : JsMap.t DeleteDependency), In d (JsMap.values (JsMap.set k v m)) -> d = v \/ In d (JsMap.values m)).
  { intros k v m0. induction m0 as [|[k' v'] m0 IHm]; cbn; [naive_solver|]. destruct (str_eqb k k'); cbn; naive_solver. }
  apply Hset in H as [->|H]; [left; by left|by right].
Qed.

Lemma unique_sub l d : In d (unique l) -> In d l.
Proof. intros H. apply unique_fold in H as [H|[]]. done. Qed.

Definition keyed_by_key (m : JsMap.t DeleteDependency) : Prop :=
  forall k d, JsMap.get k m = Some d -> k = dependency_key d.

Lemma unique_keys l m :
  keyed_by_key m ->
  let m' := fold_left (fun m d => JsMap.set (dependency_key d) d m) l m in
  keyed_by_key m' /\
  (forall d, In d l -> JsMap.has (dependency_key d) m' = true) /\
  (forall k, JsMap.has k m = true -> JsMap.has k m' = true).
Proof.
  revert m. induction l as [|x l IH]; intros m Hm m'; [by repeat split|].
  destruct (IH (JsMap.set (dependency_key x) x m)) as (Hk & Hl & Hh).
  { intros k d. rewrite JsMap.get_set. case_decide; [naive_solver|apply Hm]. }
  split; [done|]. split; [intros d [<-|Hd]; [apply Hh|by apply Hl]|intros k Hk'; apply Hh];
    unfold JsMap.has in *; rewrite JsMap.get_set; by case_decide.
Qed.

(** Each dependency is reported, itself or as one with the same key. *)
Lemma unique_covers l d : In d l -> exists d', In d' (unique l) /\ dependency_key d' = dependency_key d.
Proof.
  intros Hd. destruct (unique_keys l JsMap.empty) as (Hk & Hl & _); [done|]. specialize (Hl d Hd).
  unfold JsMap.has in Hl. destruct (JsMap.get _ _) as [d'|] eqn:G; [|done]. exists d'.
  split; [by eapply JsMap.get_In_values|]. symmetry. by apply Hk in G.
Qed.

(** ** A delete succeeds exactly on an entry nothing refers to *)

(** The list a conflict carries: the reasons, one per key. *)
Definition reported (st : ControlPlaneState) (links : CatalogLinks) (id : string) (kind : CatalogKind)
    (ds : list DeleteDependency) : Prop :=
  (forall d, In d ds -> depends st links id kind d) /\
  forall d, depends st links id kind d -> exists d', In d' ds /\ dependency_key d' = dependency_key d.

Lemma unique_reported st links id kind : kind <> kind_pool -> reported st links id kind (unique (collected st links id kind)).
Proof.
  intros Hk. split.
  - intros d Hd. apply unique_sub in Hd. by apply collected_In in Hd.
  - intros d Hd. apply collected_In in Hd; [|done]. by apply unique_covers.
Qed.

(** A guarded delete of a stored entry, of any kind but a pool. *)
Lemma guarded_delete st links id kind subject (r := when_deleted st (deleteConflict subject (unique (collected st links id kind))) (without kind st id)) :
  kind <> kind_pool ->
  (r = (deleted, without kind st id) /\ ~ in_use st links id kind) \/
  (exists e ds, r = (undeletable e (Some ds), st) /\ in_use st links id kind /\ reported st links id kind ds).
Proof.
  intros Hk. destruct (unique_reported st links id kind Hk) as [Hs Hc]. subst r.
  assert (Hu : in_use st links id kind <-> exists d, depends st links id kind d) by by destruct kind.
  destruct (unique (collected st links id kind)) as [|d ds] eqn:E.
  - left. split; [done|]. rewrite Hu. intros [d Hd]. by destruct (Hc d Hd) as (d' & [] & _).
  - right. do 2 eexists. split; [done|]. split; [|by split]. apply Hu. exists d. apply Hs. by left.
Qed.

Lemma pool_dependency_spec st links id :
  match poolDependency st id with Some _ => in_use st links id kind_pool | None => ~ in_use st links id kind_pool end.
Proof.
  unfold poolDependency. cbn [in_use]. unfold pool_in_use, active.
  destruct (existsb _ (JsMap.values (Plane.workspaceSlots st))) eqn:E1.
  { left. apply existsb_exists in E1. by setoid_rewrite str_eqb_true in E1. }
  destruct (existsb _ (JsMap.values (Plane.schedules st))) eqn:E2.
  { right. left. apply existsb_exists in E2. by setoid_rewrite opt_str_eqb_true in E2. }
  destruct (existsb _ (JsMap.values (Plane.sessions st))) eqn:E3.
  { right. right. apply existsb_exists in E3 as (s & Hs & E).
    apply andb_true_iff in E as [E Ea]. apply opt_str_eqb_true in E. by exists s. }
  apply not_true_iff_false in E1, E2, E3. rewrite existsb_exists in E1, E2, E3.
  intros [(x & Hx & E)|[(x & Hx & E)|(x & [Hx Ha] & E)]]; [apply E1|apply E2|apply E3]; exists x; (split; [done|]);
    rewrite ?Ha, ?andb_true_r; by first [apply str_eqb_true|apply opt_str_eqb_true].
Qed.

(** What a delete does, by whether the entry exists and what refers to it. *)
Definition delete_spec (kind : CatalogKind) (st : ControlPlaneState) (links : CatalogLinks) (id : string)
    (r : DeleteResult * ControlPlaneState) : Prop :=
  (r = (deleted, without kind st id) /\ stored kind st id = true /\ ~ in_use st links id kind) \/
  (exists e deps, r = (undeletable e deps, st) /\
     (stored kind st id = false \/
      stored kind st id = true /\ in_use st links id kind /\
      match kind with kind_pool => deps = None | _ => exists ds, deps = Some ds /\ reported st links id kind ds end)).

Lemma guarded_exact kind st links id missing subject :
  kind <> kind_pool ->
  delete_spec kind st links id
    (if negb (stored kind st id) then (undeletable missing None, st)
     else when_deleted st (deleteConflict subject (unique (collected st links id kind))) (without kind st id)).
Proof.
  intros Hk. unfold delete_spec. destruct (stored kind st id) eqn:Es; cbn [negb].
  - destruct (guarded_delete st links id kind subject Hk) as [[-> Hu]|(e & ds & -> & Hu & Hr)]; [by left|].
    right. do 2 eexists. split; [done|]. right. split; [done|]. split; [done|]. destruct kind; by eauto.
  - right. do 2 eexists. split; [done|]. by left.
Qed.

Lemma when_deleted_missing st (b : bool) e result st' :
  when_deleted st (if b then undeletable e None else result) st' =
  if b then (undeletable e None, st) else when_deleted st result st'.
Proof. by destruct b. Qed.

Lemma delete_entry_spec kind st links id : delete_spec kind st links id (delete_entry kind st links id).
Proof.
  destruct kind; cbn [delete_entry].
  - unfold deleteProvider, canDeleteProvider. rewrite when_deleted_missing. by apply (guarded_exact kind_provider).
  - by apply (guarded_exact kind_account).
  - unfold deleteCommand, canDeleteCommand. rewrite when_deleted_missing. by apply (guarded_exact kind_command).
  - unfold deleteRepository, canDeleteRepository. rewrite when_deleted_missing. by apply (guarded_exact kind_repository).
  - unfold deleteWorkspacePoolDurable, delete_spec. cbn [stored]. pose proof (pool_dependency_spec st links id) as Hp.
    destruct (JsMap.has id _); cbn [negb]; [destruct (poolDependency st id) as [e|]|].
    + right. exists e, None. by eauto.
    + by left.
    + right. do 2 eexists. split; [done|]. by left.
Qed.

(** [C19] Deleting from the catalog.  A provider, provider account, command, repository or
    workspace pool is deleted exactly when it exists and nothing refers to it: no account,
    command, default command, host configuration or override at any scope, schedule, active
    session, worktree, slot or inbound integration; and then nothing else changes.  A refused
    delete changes nothing, and a conflict lists what refers to the entry: nothing but that,
    and everything up to the key that tells reports apart. *)
Theorem catalog_delete_exact kind st links id (r := delete_entry kind st links id) :
  (r = (deleted, without kind st id) /\ stored kind st id = true /\ ~ in_use st links id kind) \/
  (exists e deps, r = (undeletable e deps, st) /\
     (stored kind st id = false \/
      stored kind st id = true /\ in_use st links id kind /\
      match kind with kind_pool => deps = None | _ => exists ds, deps = Some ds /\ reported st links id kind ds end)).
Proof. exact (delete_entry_spec kind st links id). Qed.
