(* ===== verification/Catalog.v ===== *)
(** * The catalog

    The operations of services/api/src/control-plane-repos.ts, control-plane-providers.ts,
    control-plane-provider-accounts.ts with control-plane-provider-accounts-prepare.ts,
    control-plane-commands.ts and control-plane-workspace-pools.ts without a storage,
    [validateUsageRates] of modules/shared/src/usage.ts and [repositoryUrlError] of
    modules/shared/src/validation.ts; the deletes are in [DeleteGuards].  The id a factory draws
    when an input has none is an argument.  A record is copied on the way in and out, so a
    caller holds no part of the state.  The counter of repository revisions and the projection
    of a pool's profiles to their ids and names, which only a storage reads, are left out.
    Together with the operations on schedules ([Schedules]) they keep the catalog well formed
    and its references resolved, and together with the leases ([AccountLeases]) they keep every
    lease below its account's cap. *)

From Stdlib Require Import ZArith Lia Ascii String.
From stdpp Require Import base strings list relations.
From S2P Require Import Prelude DateTime Cron Types Ordering CommandResume AccountLeases Placement SessionOutcome Worktrees Assignment.
From S2P Require Import Registration Validation SessionCreate SessionAdmission ScheduleFire Schedules DeleteGuards.

Local Open Scope string_scope.
Local Open Scope Z_scope.
Local Open Scope validation_scope.

(** An update of the state behind a result. *)
Definition when_valid {A} (st : ControlPlaneState) (result : ValidationResult A) (store : A -> ControlPlaneState)
    : ValidationResult A * ControlPlaneState :=
  match result with valid a => (valid a, store a) | invalid e => (invalid e, st) end.

(** [...(patch.x !== undefined ? { x: patch.x } : {})] on a member that is always there. *)
Definition patch_or {A} (patch : option A) (existing : A) : A := opt_or patch existing.

(** The same on an optional member. *)
Definition patch_opt {A} (patch existing : option A) : option A := opt_else patch existing.

(** The same on a member typed [T | null], stored as [None] when [null]. *)
Definition patch_nul {A} (patch : nullable A) (existing : option A) : option A :=
  match patch with Undef => existing | Null => None | Val a => Some a end.

(** ** Names *)

(** An entry of the name under another id; every catalog has its own copy of this search. *)
Definition find_by_name {V} (id name : V -> string) (m : JsMap.t V) (value : string) (excludeId : option string) : option V :=
  List.find (fun v => str_eqb (name v) value && negb (opt_str_eqb (Some (id v)) excludeId)) (JsMap.values m).

(** ** Repositories *)

(** [new URL(url)]: the protocol and the host name; [None] when the constructor throws. *)
Class UrlParts := url_parts : string -> option (string * string).

Definition INVALID_REPOSITORY_URL_ERROR : string := "url must be an HTTPS or SCP-style SSH Git remote".

(** [[\s\p{Cc}\\]] among the code units below 256. *)
Definition is_url_forbidden (c : ascii) : bool :=
  is_space c || (code c <=? 31) || in_range 127 159 c || (code c =? 92).

(** The longest prefix of the characters that pass, and the rest. *)
Fixpoint str_span (p : ascii -> bool) (s : string) : string * string :=
  match s with
  | "" => ("", "")
  | String c s' => if p c then let (a, b) := str_span p s' in (String c a, b) else ("", s)
  end.

(** What follows the first occurrence of the separator. *)
Fixpoint after_first (sep s : string) : option string :=
  if String.prefix sep s then Some (String.substring (String.length sep) (String.length s) s)
  else match s with "" => None | String _ s' => after_first sep s' end.

Definition lower (c : ascii) : ascii := if in_range 65 90 c then ascii_of_nat (nat_of_ascii c + 32) else c.

Fixpoint lower_string (s : string) : string :=
  match s with "" => "" | String c s' => String (lower c) (lower_string s') end.

(** [/^https:\/\/[^/\\]/iu]. *)
Definition https_start (url : string) : bool :=
  String.prefix "https://" (lower_string url) &&
  match String.substring 8 1 url with String c "" => negb (is_separator c) | _ => false end.

(** [:[^\s]+$]. *)
Definition scp_path (s : string) : bool :=
  match s with String ":" (String _ _ as path) => negb (string_exists is_space path) | _ => false end.

(** [/^git@(?:\[[^\]/@\\\s]+\]|[^:/@\\\s]+):[^\s]+$/u]; neither run contains the character that
    ends it, so there is nothing to backtrack over. *)
Definition is_host_char (c : ascii) : bool := negb ((code c =? 47) || (code c =? 64) || (code c =? 92) || is_space c).

Definition scp_form (url : string) : bool :=
  String.prefix "git@" url &&
  let rest := String.substring 4 (String.length url) url in
  (match rest with
   | String "[" s =>
       match str_span (fun c => is_host_char c && negb (code c =? 93)) s with
       | (String _ _, String "]" path) => scp_path path
       | _ => false
       end
   | _ => false
   end ||
   match str_span (fun c => is_host_char c && negb (code c =? 58)) rest with
   | (String _ _, path) => scp_path path
   | _ => false
   end).

(** [authority.includes("@")]: the authority ends at the first of [/?#]. *)
Definition has_userinfo (url : string) : bool :=
  match after_first "://" url with
  | Some remainder =>
      string_includes "@" (str_span (fun c => negb ((code c =? 47) || (code c =? 63) || (code c =? 35))) remainder).1
  | None => false
  end.

Section urls.
Context {UP : UrlParts}.

Definition repositoryUrlError (url : string) : option string :=
  if string_exists is_url_forbidden url then Some INVALID_REPOSITORY_URL_ERROR
  else if has_userinfo url then Some "url must not include credentials"
  else if string_includes "?" url || string_includes "#" url then
    Some "url must not include query parameters or fragments"
  else if https_start url &&
          match url_parts url with Some (protocol, hostname) => str_eqb protocol "https:" && truthy hostname | None => false end
  then None
  else if scp_form url then None
  else Some INVALID_REPOSITORY_URL_ERROR.

Record RepositoryInput := mkRepositoryInput {
  ri_id : option string;
  ri_name : string;
  ri_url : string;
  ri_defaultBranch : option string;
  ri_setupScript : option string;
  ri_terminalHookScript : option string;
}.

Record RepositoryPatch := mkRepositoryPatch {
  rp_name : option string;
  rp_url : option string;
  rp_defaultBranch : option string;
  rp_setupScript : option string;
  rp_terminalHookScript : option string;
}.

Definition findRepositoryByName (state : ControlPlaneState) (name : string) (excludeId : option string) : option RepositoryRecord :=
  find_by_name Repo.id Repo.name (Plane.repositories state) name excludeId.

Definition prepareCreateRepository (state : ControlPlaneState) (drawn : string) (input : RepositoryInput)
    : ValidationResult RepositoryRecord :=
  reject negb (truthy (ri_name input)) || negb (truthy (ri_url input)) with "name and url are required";
  fails repositoryUrlError (ri_url input);
  reject negb (isValidSlugName (ri_name input)) with "name must be " ++ SLUG_NAME_HINT;
  reject is_some (findRepositoryByName state (ri_name input) None)
    with "repository name already in use: " ++ ri_name input;
  let id := opt_or (ri_id input) drawn in
  reject JsMap.has id (Plane.repositories state) with "repository already exists: " ++ id;
  let at_ := Plane.now state in
  valid (Repo.mkRepository id (ri_name input) (ri_url input) (opt_or (ri_defaultBranch input) "main")
    (ri_setupScript input) (ri_terminalHookScript input) (Some "active") (Some at_) None None None at_ at_).

Definition set_repository (state : ControlPlaneState) (id : string) (r : RepositoryRecord) : ControlPlaneState :=
  state <| Plane.repositories := JsMap.set id r (Plane.repositories state) |>.

Definition createRepository (state : ControlPlaneState) (drawn : string) (input : RepositoryInput)
    : ValidationResult RepositoryRecord * ControlPlaneState :=
  when_valid state (prepareCreateRepository state drawn input) (fun r => set_repository state (Repo.id r) r).

Definition prepareUpdateRepository (state : ControlPlaneState) (id : string) (patch : RepositoryPatch)
    : ValidationResult RepositoryRecord :=
  match JsMap.get id (Plane.repositories state) with
  | None => invalid "repository not found"
  | Some existing =>
      fails match rp_name patch with
            | Some name =>
                if negb (isValidSlugName name) then Some ("name must be " ++ SLUG_NAME_HINT)
                else if is_some (findRepositoryByName state name (Some id)) then Some ("repository name already in use: " ++ name)
                else None
            | None => None
            end;
      fails match rp_url patch with Some url => repositoryUrlError url | None => None end;
      valid (existing <| Repo.updatedAt := Plane.now state |>
        <| Repo.name := patch_or (rp_name patch) (Repo.name existing) |>
        <| Repo.url := patch_or (rp_url patch) (Repo.url existing) |>
        <| Repo.defaultBranch := patch_or (rp_defaultBranch patch) (Repo.defaultBranch existing) |>
        <| Repo.setupScript := patch_opt (rp_setupScript patch) (Repo.setupScript existing) |>
        <| Repo.terminalHookScript := patch_opt (rp_terminalHookScript patch) (Repo.terminalHookScript existing) |>)
  end.

Definition updateRepository (state : ControlPlaneState) (id : string) (patch : RepositoryPatch)
    : ValidationResult RepositoryRecord * ControlPlaneState :=
  when_valid state (prepareUpdateRepository state id patch) (set_repository state id).

End urls.

(** [{ ...repository, admissionState: repositoryAdmissionState(..) }]; [None] when it throws. *)
Definition normalized_repository (repository : RepositoryRecord) : option RepositoryRecord :=
  a ← repositoryAdmissionState (Repo.admissionState repository);
  Some (repository <| Repo.admissionState := Some (admission_name a) |>).

(** A malformed row is left out. *)
Definition normalizeRepositoryRecords (records : list RepositoryRecord) : list RepositoryRecord :=
  flat_map (fun r => match normalized_repository r with Some n => [n] | None => [] end) records.

(** The outer [None] is the exception on a malformed row. *)
Definition getRepository (state : ControlPlaneState) (id : string) : option (option RepositoryRecord) :=
  match JsMap.get id (Plane.repositories state) with
  | Some r => Some <$> normalized_repository r
  | None => Some None
  end.

Definition compareRepositories (a b : RepositoryRecord) : Z :=
  let nameOrder := code_compare (Repo.name a) (Repo.name b) in
  if nameOrder =? 0 then code_compare (Repo.id a) (Repo.id b) else nameOrder.

Definition listRepositories (state : ControlPlaneState) : list RepositoryRecord :=
  toSorted compareRepositories (normalizeRepositoryRecords (JsMap.values (Plane.repositories state))).

(** ** Providers *)

(** [/^[A-Z]{3}$/]. *)
Definition is_currency (s : string) : bool :=
  (slen s =? 3) && negb (string_exists (fun c => negb (in_range 65 90 c)) s).

(** A decimal number without leading zeros, of at most 30 digits. *)
Definition is_micros (s : string) : bool :=
  match s with
  | String "0" "" => true
  | String c rest => in_range 49 57 c && negb (string_exists (fun d => negb (in_range 48 57 d)) rest)
  | "" => false
  end && (slen s <=? 30).

(** On a value typed [UsageRates]. *)
Definition validateUsageRates (rates : UsageRates) : bool :=
  is_currency (Rates.currency rates) &&
  forallb (fun value => match value with None => true | Some s => is_micros s end)
    [Rates.inputTokenMicros rates; Rates.outputTokenMicros rates; Rates.cachedInputTokenMicros rates;
     Rates.reasoningTokenMicros rates].

Record ProviderInput := mkProviderInput {
  pi_id : option string;
  pi_name : string;
  pi_defaultCommandId : nullable string;
  pi_usageRates : option UsageRates;
}.

Record ProviderPatch := mkProviderPatch {
  pp_name : option string;
  pp_defaultCommandId : nullable string;
  pp_usageRates : nullable UsageRates;
}.

Definition findProviderByName (state : ControlPlaneState) (name : string) (excludeId : option string) : option Provider :=
  find_by_name Prov.id Prov.name (Plane.providers state) name excludeId.

Definition set_provider (state : ControlPlaneState) (id : string) (p : Provider) : ControlPlaneState :=
  state <| Plane.providers := JsMap.set id p (Plane.providers state) |>.

Definition prepareCreateProvider (state : ControlPlaneState) (drawn : string) (input : ProviderInput)
    : ValidationResult Provider :=
  reject negb (truthy (pi_name input)) with "name is required";
  reject negb (isValidSlugName (pi_name input)) with "name must be " ++ SLUG_NAME_HINT;
  reject is_some (findProviderByName state (pi_name input) None) with "provider name already in use: " ++ pi_name input;
  let id := opt_or (pi_id input) drawn in
  reject JsMap.has id (Plane.providers state) with "provider already exists: " ++ id;
  let at_ := Plane.now state in
  valid (Prov.mkProvider id (pi_name input) (nul_opt (pi_defaultCommandId input)) at_ at_ (pi_usageRates input)).

Definition createProvider (state : ControlPlaneState) (drawn : string) (input : ProviderInput)
    : ValidationResult Provider * ControlPlaneState :=
  when_valid state (prepareCreateProvider state drawn input) (fun p => set_provider state (Prov.id p) p).

Definition prepareUpdateProvider (state : ControlPlaneState) (id : string) (patch : ProviderPatch)
    : ValidationResult Provider :=
  match JsMap.get id (Plane.providers state) with
  | None => invalid "provider not found"
  | Some existing =>
      reject match pp_usageRates patch with Val rates => negb (validateUsageRates rates) | _ => false end
        with "usageRates must contain uppercase ISO currency and non-negative micros";
      fails match pp_name patch with
            | Some name =>
                if negb (isValidSlugName name) then Some ("name must be " ++ SLUG_NAME_HINT)
                else if is_some (findProviderByName state name (Some id)) then Some ("provider name already in use: " ++ name)
                else None
            | None => None
            end;
      valid (existing <| Prov.updatedAt := Plane.now state |>
        <| Prov.name := patch_or (pp_name patch) (Prov.name existing) |>
        <| Prov.defaultCommandId := patch_nul (pp_defaultCommandId patch) (Prov.defaultCommandId existing) |>
        <| Prov.usageRates := patch_nul (pp_usageRates patch) (Prov.usageRates existing) |>)
  end.

Definition updateProvider (state : ControlPlaneState) (id : string) (patch : ProviderPatch)
    : ValidationResult Provider * ControlPlaneState :=
  when_valid state (prepareUpdateProvider state id patch) (set_provider state id).

Definition getProvider (state : ControlPlaneState) (id : string) : option Provider :=
  JsMap.get id (Plane.providers state).

(** ** Provider accounts *)
Definition DEFAULT_USAGE_LIMIT_COOLDOWN_SECONDS : Z := 18000.

Record ProviderAccountInput := mkProviderAccountInput {
  ai_id : option string;
  ai_providerId : string;
  ai_label : string;
  ai_usageLimitCooldownSeconds : option Z;
  ai_maxConcurrentSessions : option Z;
}.

Record ProviderAccountPatch := mkProviderAccountPatch {
  ap_providerId : option string;
  ap_label : option string;
  ap_usageLimitCooldownSeconds : option Z;
  ap_maxConcurrentSessions : option Z;
}.

Definition bad_cooldown (value : option Z) : bool := match value with Some n => n <=? 0 | None => false end.

Definition bad_cap (value : option Z) : bool :=
  match value with Some n => (n <? 1) || (MAX_CONCURRENT_SESSIONS_LIMIT <? n) | None => false end.

Definition cap_error : string :=
  "maxConcurrentSessions must be an integer between 1 and " ++ number_string MAX_CONCURRENT_SESSIONS_LIMIT.

Definition set_account (state : ControlPlaneState) (id : string) (a : ProviderAccountRecord) : ControlPlaneState :=
  state <| Plane.providerAccounts := JsMap.set id a (Plane.providerAccounts state) |>.

Definition prepareCreateProviderAccount (state : ControlPlaneState) (drawn : string) (input : ProviderAccountInput)
    : ValidationResult ProviderAccountRecord :=
  reject negb (truthy (ai_providerId input)) || negb (truthy (ai_label input)) with "providerId and label are required";
  reject negb (JsMap.has (ai_providerId input) (Plane.providers state)) with "unknown provider: " ++ ai_providerId input;
  reject bad_cooldown (ai_usageLimitCooldownSeconds input) with "usageLimitCooldownSeconds must be a positive integer";
  reject bad_cap (ai_maxConcurrentSessions input) with cap_error;
  let id := opt_or (ai_id input) drawn in
  reject JsMap.has id (Plane.providerAccounts state) with "provider account already exists: " ++ id;
  let at_ := Plane.now state in
  valid (Account.mkProviderAccount id (ai_providerId input) (ai_label input)
    (opt_or (ai_usageLimitCooldownSeconds input) DEFAULT_USAGE_LIMIT_COOLDOWN_SECONDS)
    (Some (opt_or (ai_maxConcurrentSessions input) DEFAULT_MAX_CONCURRENT_SESSIONS)) None None None at_ at_ (Some 1)).

Definition createProviderAccount (state : ControlPlaneState) (drawn : string) (input : ProviderAccountInput)
    : ValidationResult ProviderAccountRecord * ControlPlaneState :=
  when_valid state (prepareCreateProviderAccount state drawn input) (fun a => set_account state (Account.id a) a).

(** A lease of the account in a slot at or above the new cap. *)
Definition removed_slot_held (state : ControlPlaneState) (id : string) (cap : Z) : bool :=
  existsb (fun lease => str_eqb (HeldLease.providerAccountId lease) id && (cap <=? HeldLease.slot lease))
    (JsMap.values (Plane.providerAccountLeases state)).

Definition cap_reduced (existing : ProviderAccountRecord) (cap : Z) : bool :=
  cap <? opt_or (Account.maxConcurrentSessions existing) DEFAULT_MAX_CONCURRENT_SESSIONS.

Definition prepareUpdateProviderAccount (state : ControlPlaneState) (id : string) (patch : ProviderAccountPatch)
    : ValidationResult ProviderAccountRecord :=
  match JsMap.get id (Plane.providerAccounts state) with
  | None => invalid "provider account not found"
  | Some existing =>
      fails match ap_providerId patch with
            | Some p => if JsMap.has p (Plane.providers state) then None else Some ("unknown provider: " ++ p)
            | None => None
            end;
      reject bad_cooldown (ap_usageLimitCooldownSeconds patch) with "usageLimitCooldownSeconds must be a positive integer";
      reject bad_cap (ap_maxConcurrentSessions patch) with cap_error;
      reject match ap_maxConcurrentSessions patch with
             | Some cap => cap_reduced existing cap && removed_slot_held state id cap
             | None => false
             end
        with "cannot reduce maxConcurrentSessions while an active lease uses a removed slot";
      valid (existing <| Account.updatedAt := Plane.now state |>
        <| Account.version := Some (opt_or (Account.version existing) 0 + 1) |>
        <| Account.providerId := patch_or (ap_providerId patch) (Account.providerId existing) |>
        <| Account.label := patch_or (ap_label patch) (Account.label existing) |>
        <| Account.usageLimitCooldownSeconds :=
             patch_or (ap_usageLimitCooldownSeconds patch) (Account.usageLimitCooldownSeconds existing) |>
        <| Account.maxConcurrentSessions := patch_opt (ap_maxConcurrentSessions patch) (Account.maxConcurrentSessions existing) |>)
  end.

Definition updateProviderAccount (state : ControlPlaneState) (id : string) (patch : ProviderAccountPatch)
    : ValidationResult ProviderAccountRecord * ControlPlaneState :=
  when_valid state (prepareUpdateProviderAccount state id patch) (set_account state id).

Definition clearProviderAccountUsageLimit (state : ControlPlaneState) (id : string)
    : ValidationResult ProviderAccountRecord * ControlPlaneState :=
  match JsMap.get id (Plane.providerAccounts state) with
  | None => (invalid "provider account not found", state)
  | Some existing =>
      let account := existing <| Account.usageLimitedUntil := None |> <| Account.updatedAt := Plane.now state |> in
      (valid account, set_account state id account)
  end.

Definition getProviderAccount (state : ControlPlaneState) (id : string) : option ProviderAccountRecord :=
  JsMap.get id (Plane.providerAccounts state).

(** ** Commands *)

(** The members the validators of [CommandResume] check are taken as they come. *)
Record CommandInput := mkCommandInput {
  ci_id : option string;
  ci_name : string;
  ci_argv : json;
  ci_appendPrompt : option bool;
  ci_appendPromptSeparator : option bool;
  ci_resumeArgvTemplate : option json;
  ci_resumeRefCapture : option json;
  ci_providerId : nullable string;
}.

Record CommandPatch := mkCommandPatch {
  cp_name : option string;
  cp_argv : option json;
  cp_appendPrompt : option bool;
  cp_appendPromptSeparator : option bool;
  cp_providerId : nullable string;
  cp_resumeArgvTemplate : option json;
  cp_resumeRefCapture : option json;
}.

Definition findCommandByName (state : ControlPlaneState) (name : string) (excludeId : option string) : option CommandRecord :=
  find_by_name Cmd.id Cmd.name (Plane.commands state) name excludeId.

Definition set_command (state : ControlPlaneState) (id : string) (c : CommandRecord) : ControlPlaneState :=
  state <| Plane.commands := JsMap.set id c (Plane.commands state) |>.

(** A result of [CommandResume] as one of the catalog. *)
Definition checked {A} (result : A + string) : ValidationResult A :=
  match result with inl a => valid a | inr e => invalid e end.

(** [x !== false]. *)
Definition unless_false (x : option bool) : bool := opt_or x true.

Definition prepareCreateCommand (state : ControlPlaneState) (drawn : string) (input : CommandInput)
    : ValidationResult CommandRecord :=
  reject negb (truthy (ci_name input)) with "name is required";
  reject negb (isValidSlugName (ci_name input)) with "name must be " ++ SLUG_NAME_HINT;
  reject is_some (findCommandByName state (ci_name input) None) with "command name already in use: " ++ ci_name input;
  argv <-! checked (validateCommandArgv (ci_argv input));
  resume <-! checked (validateCommandResumeSpec (ci_resumeArgvTemplate input) (ci_resumeRefCapture input));
  let id := opt_or (ci_id input) drawn in
  reject JsMap.has id (Plane.commands state) with "command already exists: " ++ id;
  let at_ := Plane.now state in
  valid (Cmd.mkCommand id (ci_name input) argv (unless_false (ci_appendPrompt input))
    (Some match ci_appendPromptSeparator input with
          | Some b => b
          | None => unless_false (ci_appendPrompt input) && is_some (truthy_nul (ci_providerId input))
          end)
    resume.1 resume.2 (nul_opt (ci_providerId input)) at_ at_).

Definition createCommand (state : ControlPlaneState) (drawn : string) (input : CommandInput)
    : ValidationResult CommandRecord * ControlPlaneState :=
  when_valid state (prepareCreateCommand state drawn input) (fun c => set_command state (Cmd.id c) c).

(** [null] deletes the member, a value replaces it by its checked form. *)
Definition patch_checked {A} (patch : option json) (value existing : option A) : option A :=
  match patch with None => existing | Some JNull => None | Some _ => value end.

Definition prepareUpdateCommand (state : ControlPlaneState) (id : string) (patch : CommandPatch)
    : ValidationResult CommandRecord :=
  match JsMap.get id (Plane.commands state) with
  | None => invalid "command not found"
  | Some existing =>
      argv <-! match cp_argv patch with
               | Some argv => checked (validateCommandArgv argv)
               | None => valid (Cmd.argv existing)
               end;
      resume <-! checked (validateCommandResumeSpec (cp_resumeArgvTemplate patch) (cp_resumeRefCapture patch));
      fails match cp_name patch with
            | Some name =>
                if str_eqb name (Cmd.name existing) then None
                else if negb (isValidSlugName name) then Some ("name must be " ++ SLUG_NAME_HINT)
                else if is_some (findCommandByName state name (Some id)) then Some ("command name already in use: " ++ name)
                else None
            | None => None
            end;
      valid (existing <| Cmd.updatedAt := Plane.now state |>
        <| Cmd.name := patch_or (cp_name patch) (Cmd.name existing) |>
        <| Cmd.argv := argv |>
        <| Cmd.appendPrompt := patch_or (cp_appendPrompt patch) (Cmd.appendPrompt existing) |>
        <| Cmd.appendPromptSeparator := patch_opt (cp_appendPromptSeparator patch) (Cmd.appendPromptSeparator existing) |>
        <| Cmd.providerId := patch_nul (cp_providerId patch) (Cmd.providerId existing) |>
        <| Cmd.resumeArgvTemplate := patch_checked (cp_resumeArgvTemplate patch) resume.1 (Cmd.resumeArgvTemplate existing) |>
        <| Cmd.resumeRefCapture := patch_checked (cp_resumeRefCapture patch) resume.2 (Cmd.resumeRefCapture existing) |>)
  end.

Definition updateCommand (state : ControlPlaneState) (id : string) (patch : CommandPatch)
    : ValidationResult CommandRecord * ControlPlaneState :=
  when_valid state (prepareUpdateCommand state id patch) (set_command state id).

Definition getCommand (state : ControlPlaneState) (id : string) : option CommandRecord :=
  JsMap.get id (Plane.commands state).

(** ** Workspace pools *)
Definition MAX_SETUP_PROFILES : Z := 32.
Definition MAX_SETUP_SCRIPT_LENGTH : Z := 65536.
Definition MAX_SETUP_PROFILES_BYTES : Z := 320 * 1024.

(** [null] and an absent default differ: [null] removes the one the pool has. *)
Record WorkspacePoolInput := mkWorkspacePoolInput {
  wi_id : option string;
  wi_name : string;
  wi_setupProfiles : option (list WorkspaceSetupProfile);
  wi_defaultSetupProfileId : nullable string;
  wi_destroyWorkspaceAfter : option bool;
}.

Record WorkspacePoolPatch := mkWorkspacePoolPatch {
  wp_name : option string;
  wp_setupProfiles : option (list WorkspaceSetupProfile);
  wp_defaultSetupProfileId : nullable string;
  wp_destroyWorkspaceAfter : option bool;
}.

Definition profile_json (p : WorkspaceSetupProfile) : json :=
  JObject [("id", JString (Profile.id p)); ("name", JString (Profile.name p)); ("script", JString (Profile.script p))].

(** The loop over the profiles; it ends with the ids it has seen. *)
Fixpoint check_profiles (profiles : list WorkspaceSetupProfile) (ids : list string) : list string + string :=
  match profiles with
  | [] => inl ids
  | p :: rest =>
      if negb (isValidSlugName (Profile.id p)) then inr ("setup profile id must be " ++ SLUG_NAME_HINT)
      else if negb (truthy (trim (Profile.name p))) then inr ("setup profile name is required: " ++ Profile.id p)
      else if set_has (Profile.id p) ids then inr "setup profile ids must be unique"
      else if negb (truthy (trim (Profile.script p))) then inr ("setup profile script is required: " ++ Profile.id p)
      else if MAX_SETUP_SCRIPT_LENGTH <? utf8_length (Profile.script p) then
        inr ("setup profile script is too long: " ++ Profile.id p)
      else check_profiles rest (set_add (Profile.id p) ids)
  end.

Definition validateProfiles (profiles : list WorkspaceSetupProfile) (defaultId : option string) : option string :=
  if MAX_SETUP_PROFILES <? Z.of_nat (length profiles) then
    Some ("a workspace pool supports at most " ++ number_string MAX_SETUP_PROFILES ++ " setup profiles")
  else if MAX_SETUP_PROFILES_BYTES <? utf8_length (stringify (JArray (map profile_json profiles))) then
    Some "workspace pool setup profiles are too large"
  else match check_profiles profiles [] with
       | inr e => Some e
       | inl ids =>
           match truthy_opt defaultId with
           | Some d => if set_has d ids then None else Some ("default setup profile does not exist: " ++ d)
           | None => None
           end
       end.

Definition prepareWorkspacePool (state : ControlPlaneState) (drawn : string) (input : WorkspacePoolInput)
    (existing : option WorkspacePoolRecord) : ValidationResult WorkspacePoolRecord :=
  reject negb (isValidSlugName (wi_name input)) with "name must be " ++ SLUG_NAME_HINT;
  reject is_some (find_by_name Pool.id Pool.name (Plane.workspacePools state) (wi_name input) (Pool.id <$> existing))
    with "workspace pool name already in use: " ++ wi_name input;
  let profiles := opt_or (wi_setupProfiles input) (opt_or (Pool.setupProfiles <$> existing) []) in
  let defaultId := match wi_defaultSetupProfileId input with
                   | Null => None
                   | Val d => Some d
                   | Undef => pool ← existing; Pool.defaultSetupProfileId pool
                   end in
  fails validateProfiles profiles defaultId;
  let now := Plane.now state in
  valid (Pool.mkWorkspacePool (opt_or (Pool.id <$> existing) (opt_or (wi_id input) drawn)) (wi_name input) profiles
    (truthy_opt defaultId)
    (opt_or (wi_destroyWorkspaceAfter input) (opt_or (Pool.destroyWorkspaceAfter <$> existing) false))
    (opt_or (Pool.createdAt <$> existing) now) now).

Definition set_pool (state : ControlPlaneState) (id : string) (p : WorkspacePoolRecord) : ControlPlaneState :=
  state <| Plane.workspacePools := JsMap.set id p (Plane.workspacePools state) |>.

Definition createWorkspacePool (state : ControlPlaneState) (drawn : string) (input : WorkspacePoolInput)
    : ValidationResult WorkspacePoolRecord * ControlPlaneState :=
  match prepareWorkspacePool state drawn input None with
  | invalid e => (invalid e, state)
  | valid pool =>
      if JsMap.has (Pool.id pool) (Plane.workspacePools state)
      then (invalid ("workspace pool already exists: " ++ Pool.id pool), state)
      else (valid pool, set_pool state (Pool.id pool) pool)
  end.

(** [{ ...existing, ...patch }] as an input. *)
Definition merged_pool (existing : WorkspacePoolRecord) (patch : WorkspacePoolPatch) : WorkspacePoolInput :=
  mkWorkspacePoolInput (Some (Pool.id existing)) (patch_or (wp_name patch) (Pool.name existing))
    (Some (patch_or (wp_setupProfiles patch) (Pool.setupProfiles existing)))
    (match wp_defaultSetupProfileId patch with Undef => opt_nullable (Pool.defaultSetupProfileId existing) | d => d end)
    (Some (patch_or (wp_destroyWorkspaceAfter patch) (Pool.destroyWorkspaceAfter existing))).

(** The id the factory would draw is not used for a pool that exists. *)
Definition updateWorkspacePool (state : ControlPlaneState) (id : string) (patch : WorkspacePoolPatch)
    : ValidationResult WorkspacePoolRecord * ControlPlaneState :=
  match JsMap.get id (Plane.workspacePools state) with
  | None => (invalid "workspace pool not found", state)
  | Some existing => when_valid state (prepareWorkspacePool state "" (merged_pool existing patch) (Some existing)) (set_pool state id)
  end.

(** ** Lists *)
Section lists.
Context {LC : LocaleCompare}.

(** [a.x.localeCompare(b.x) || a.id.localeCompare(b.id)]. *)
Definition by_name_and_id {V} (name id : V -> string) (a b : V) : Z :=
  let order := localeCompare (name a) (name b) in
  if order =? 0 then localeCompare (id a) (id b) else order.

Definition listProviders (state : ControlPlaneState) : list Provider :=
  toSorted (by_name_and_id Prov.name Prov.id) (JsMap.values (Plane.providers state)).

Definition listProviderAccounts (state : ControlPlaneState) : list ProviderAccountRecord :=
  toSorted (by_name_and_id Account.label Account.id) (JsMap.values (Plane.providerAccounts state)).

Definition listCommands (state : ControlPlaneState) : list CommandRecord :=
  toSorted (by_name_and_id Cmd.name Cmd.id) (JsMap.values (Plane.commands state)).

Definition listWorkspacePools (state : ControlPlaneState) : list WorkspacePoolRecord :=
  toSorted (by_name_and_id Pool.name Pool.id) (JsMap.values (Plane.workspacePools state)).

End lists.

(** ** A well-formed catalog *)

(** Entries filed under their own ids, with slugs for names, no two of them equal. *)
Record named {V} (id name : V -> string) (m : JsMap.t V) : Prop := {
  named_wf : JsMap.wf m;
  named_id : forall k v, JsMap.get k m = Some v -> id v = k;
  named_slug : forall k v, JsMap.get k m = Some v -> isValidSlugName (name v) = true;
  named_unique : forall j k u v, JsMap.get j m = Some u -> JsMap.get k m = Some v -> name u = name v -> j = k;
}.

Section names.
Context {V : Type} (id name : V -> string).
Implicit Types (m : JsMap.t V) (v : V).

Lemma find_by_name_none m value ex k v :
  find_by_name id name m value ex = None -> JsMap.get k m = Some v -> name v = value -> ex = Some (id v).
Proof.
  intros Hf G Hn. apply JsMap.get_In_values in G. unfold find_by_name in Hf.
  pose proof (find_none _ _ Hf v G) as H. cbn beta in H.
  rewrite (proj2 (str_eqb_true (name v) value)) in H by done. cbn [andb] in H.
  apply negb_false_iff, opt_str_eqb_true in H. done.
Qed.

(** An entry under a new name, the search for which left out at most the entry itself. *)
Lemma named_set m k v ex :
  named id name m -> id v = k -> isValidSlugName (name v) = true ->
  find_by_name id name m (name v) ex = None -> ex = None \/ ex = Some k -> named id name (JsMap.set k v m).
Proof.
  intros [Hwf Hid Hs Hu] Ek Hv Hf Hex. split; [by apply JsMap.wf_set| | |].
  - intros j w. rewrite JsMap.get_set. case_decide; [naive_solver|apply Hid].
  - intros j w. rewrite JsMap.get_set. case_decide; [naive_solver|apply Hs].
  - assert (Hnew : forall j w, JsMap.get j m = Some w -> name w = name v -> j = k).
    { intros j w G E. pose proof (find_by_name_none _ _ _ _ _ Hf G E) as Hw. apply Hid in G. destruct Hex; congruence. }
    intros i j u w. rewrite !JsMap.get_set. repeat case_decide; simplify_eq; try done; intros G1 G2 E; simplify_eq.
    + symmetry. by eapply Hnew.
    + by eapply Hnew.
    + by eapply Hu.
Qed.

(** An entry that keeps its name. *)
Lemma named_keep m k v old :
  named id name m -> JsMap.get k m = Some old -> id v = k -> name v = name old -> named id name (JsMap.set k v m).
Proof.
  intros [Hwf Hid Hs Hu] G Ek En. split; [by apply JsMap.wf_set| | |].
  - intros j w. rewrite JsMap.get_set. case_decide; [naive_solver|apply Hid].
  - intros j w. rewrite JsMap.get_set. case_decide; [intros [= <-]; rewrite En; by eapply Hs|apply Hs].
  - intros i j u w. rewrite !JsMap.get_set.
    repeat case_decide; simplify_eq; try done; intros G1 G2 E; simplify_eq; rewrite ?En in E; by eapply Hu.
Qed.

Lemma named_delete m k : named id name m -> named id name (JsMap.delete k m).
Proof.
  intros [Hwf Hid Hs Hu].
  assert (Hd : forall j w, JsMap.get j (JsMap.delete k m) = Some w -> JsMap.get j m = Some w).
  { intros j w. rewrite JsMap.get_delete. by case_decide. }
  split; [by apply JsMap.wf_delete|intros j w G; by apply Hid, Hd|intros j w G; by eapply Hs, Hd|].
  intros i j u w G1 G2. apply Hu; by apply Hd.
Qed.

End names.

(** A checked argv vector, and checked resume members. *)
Definition argv_ok (argv : list string) : Prop := exists value, validateCommandArgv value = inl argv.

Definition resume_ok (c : CommandRecord) : Prop :=
  (forall t, Cmd.resumeArgvTemplate c = Some t -> exists value capture r,
     validateCommandResumeSpec value capture = inl (Some t, r)) /\
  (forall r, Cmd.resumeRefCapture c = Some r -> exists value capture t,
     validateCommandResumeSpec value capture = inl (t, Some r)).

Definition target_stored (st : ControlPlaneState) (t : TargetRef) : Prop :=
  match t with
  | target_provider p => JsMap.has p (Plane.providers st) = true
  | target_command c => JsMap.has c (Plane.commands st) = true
  end.

(** What a stored schedule refers to exists. *)
Definition schedule_refs (st : ControlPlaneState) (s : ScheduleRecord) : Prop :=
  Forall (target_stored st) (Schedule.target s :: Schedule.fallbacks s) /\
  forall p, Schedule.workspacePoolId s = Some p -> JsMap.has p (Plane.workspacePools st) = true.

Record account_ok (st : ControlPlaneState) (a : ProviderAccountRecord) : Prop := {
  acc_provider : JsMap.has (Account.providerId a) (Plane.providers st) = true;
  acc_cooldown : 0 < Account.usageLimitCooldownSeconds a;
  acc_cap : forall n, Account.maxConcurrentSessions a = Some n -> 1 <= n <= 64;
}.

(** A validated result, step by step. *)
Ltac unreject H := repeat match type of H with
  | (if ?b then invalid _ else _) = _ => destruct b eqn:?; [done|]
  | match ?r with Some e => invalid e | None => _ end = _ => destruct r eqn:?; [done|]
  | match ?r with valid x => _ | invalid e => invalid e end = _ => destruct r eqn:?; [|done]
  | match ?r with Some x => _ | None => invalid _ end = _ => destruct r eqn:?; [|done]
  end.

Section catalog.
Context {UP : UrlParts}.

Record catalog_ok (st : ControlPlaneState) : Prop := {
  ok_repositories : named Repo.id Repo.name (Plane.repositories st);
  ok_urls : forall id r, JsMap.get id (Plane.repositories st) = Some r -> repositoryUrlError (Repo.url r) = None;
  ok_providers : named Prov.id Prov.name (Plane.providers st);
  ok_commands : named Cmd.id Cmd.name (Plane.commands st);
  ok_argv : forall id c, JsMap.get id (Plane.commands st) = Some c -> argv_ok (Cmd.argv c) /\ resume_ok c;
  ok_accounts_wf : JsMap.wf (Plane.providerAccounts st);
  ok_accounts : forall id a, JsMap.get id (Plane.providerAccounts st) = Some a -> Account.id a = id /\ account_ok st a;
  ok_pools : named Pool.id Pool.name (Plane.workspacePools st);
  ok_profiles : forall id p, JsMap.get id (Plane.workspacePools st) = Some p ->
    validateProfiles (Pool.setupProfiles p) (Pool.defaultSetupProfileId p) = None;
  ok_schedules : forall id s, JsMap.get id (Plane.schedules st) = Some s -> schedule_refs st s;
}.

(** ** Creating and updating keep it *)

Lemma is_some_false {A} (x : option A) : is_some x = false -> x = None.
Proof. by destruct x. Qed.

(** A map that only gains entries still has what references name. *)
Lemma has_set {V} k j (v : V) m : JsMap.has j m = true -> JsMap.has j (JsMap.set k v m) = true.
Proof. unfold JsMap.has. rewrite JsMap.get_set. by case_decide. Qed.

Lemma has_get {V} k (v : V) m : JsMap.get k m = Some v -> JsMap.has k m = true.
Proof. unfold JsMap.has. by intros ->. Qed.

(** A map entry that is either the one just set or an old one. *)
Lemma set_cases {V} k j (v w : V) m (P : Prop) :
  JsMap.get j (JsMap.set k v m) = Some w -> (j = k -> w = v -> P) -> (JsMap.get j m = Some w -> P) -> P.
Proof. rewrite JsMap.get_set. case_decide; naive_solver. Qed.

Lemma delete_get {V} k j (w : V) m : JsMap.get j (JsMap.delete k m) = Some w -> j <> k /\ JsMap.get j m = Some w.
Proof. rewrite JsMap.get_delete. case_decide; naive_solver. Qed.

Lemma has_delete {V} k j (m : JsMap.t V) : JsMap.has j m = true -> j <> k -> JsMap.has j (JsMap.delete k m) = true.
Proof. unfold JsMap.has. intros H E. rewrite JsMap.get_delete. by case_decide. Qed.

(** References survive where nothing is removed. *)
Definition grows (st st' : ControlPlaneState) : Prop :=
  (forall k, JsMap.has k (Plane.providers st) = true -> JsMap.has k (Plane.providers st') = true) /\
  (forall k, JsMap.has k (Plane.commands st) = true -> JsMap.has k (Plane.commands st') = true) /\
  (forall k, JsMap.has k (Plane.workspacePools st) = true -> JsMap.has k (Plane.workspacePools st') = true).

Lemma grows_refs st st' s : grows st st' -> schedule_refs st s -> schedule_refs st' s.
Proof.
  intros (Hp & Hc & Hw) [Ht Hpool]. split; [|intros p E; by apply Hw, Hpool].
  eapply Forall_impl; [exact Ht|]. intros [p|c]; cbn; [apply Hp|apply Hc].
Qed.

Lemma grows_account st st' a : grows st st' -> account_ok st a -> account_ok st' a.
Proof. intros (Hp & _) []. split; auto. Qed.

(** The accounts and schedules of a catalog that only grew. *)
Ltac keep_refs Hg :=
  match goal with
  | H : forall id a, JsMap.get id (Plane.providerAccounts ?st) = Some a -> _ |-
      forall id a, JsMap.get id (Plane.providerAccounts _) = Some a -> _ =>
      let j := fresh in let a := fresh in let G := fresh in
      intros j a G; destruct (H j a G); split; [done|by eapply grows_account]
  | H : forall id s, JsMap.get id (Plane.schedules ?st) = Some s -> _ |- forall id s, JsMap.get id (Plane.schedules _) = Some s -> _ =>
      let j := fresh in let s := fresh in let G := fresh in
      intros j s G; eapply grows_refs; [exact Hg|by eapply H]
  end.

Lemma set_repository_ok st id r :
  catalog_ok st -> named Repo.id Repo.name (JsMap.set id r (Plane.repositories st)) -> repositoryUrlError (Repo.url r) = None ->
  catalog_ok (set_repository st id r).
Proof.
  intros [] Hn Hu. assert (Hg : grows st (set_repository st id r)) by done. split; try done; try keep_refs Hg.
  intros j w G. eapply set_cases; [exact G|by intros _ ->|by eauto].
Qed.

Lemma set_provider_ok st id p :
  catalog_ok st -> named Prov.id Prov.name (JsMap.set id p (Plane.providers st)) -> catalog_ok (set_provider st id p).
Proof.
  intros [] Hn. assert (Hg : grows st (set_provider st id p)) by (split; [intros k; apply has_set|done]).
  split; try done; keep_refs Hg.
Qed.

Lemma set_command_ok st id c :
  catalog_ok st -> named Cmd.id Cmd.name (JsMap.set id c (Plane.commands st)) -> argv_ok (Cmd.argv c) -> resume_ok c ->
  catalog_ok (set_command st id c).
Proof.
  intros [] Hn Ha Hr. assert (Hg : grows st (set_command st id c)) by (split; [done|split; [intros k; apply has_set|done]]).
  split; try done; try keep_refs Hg.
  intros j w G. eapply set_cases; [exact G|by intros _ ->|by eauto].
Qed.

Lemma set_pool_ok st id p :
  catalog_ok st -> named Pool.id Pool.name (JsMap.set id p (Plane.workspacePools st)) ->
  validateProfiles (Pool.setupProfiles p) (Pool.defaultSetupProfileId p) = None -> catalog_ok (set_pool st id p).
Proof.
  intros [] Hn Hv. assert (Hg : grows st (set_pool st id p)) by (split; [done|split; [done|intros k; apply has_set]]).
  split; try done; try keep_refs Hg.
  intros j w G. eapply set_cases; [exact G|by intros _ ->|by eauto].
Qed.

Lemma set_account_ok st id a : catalog_ok st -> Account.id a = id -> account_ok st a -> catalog_ok (set_account st id a).
Proof.
  intros [] Hi Ha. assert (Hg : grows st (set_account st id a)) by done.
  split; try done; [by apply JsMap.wf_set|].
  intros j w G. eapply set_cases; [exact G|intros -> ->; split; [done|by eapply grows_account]|].
  intros G0. destruct (ok_accounts0 j w G0). split; [done|by eapply grows_account].
Qed.

(** *** Each operation *)
Lemma create_repository_ok st drawn input : catalog_ok st -> catalog_ok (createRepository st drawn input).2.
Proof.
  intros H. unfold createRepository, when_valid. destruct (prepareCreateRepository st drawn input) as [r|] eqn:E; [|done].
  unfold prepareCreateRepository in E. unreject E. cbv zeta in E. unreject E. injection E as <-.
  apply set_repository_ok; [done| |done]. apply (named_set _ _ _ _ _ None); [apply H|done|by apply negb_false_iff| |by left].
  by apply is_some_false.
Qed.

Lemma update_repository_ok st id patch : catalog_ok st -> catalog_ok (updateRepository st id patch).2.
Proof.
  intros H. unfold updateRepository, when_valid. destruct (prepareUpdateRepository st id patch) as [r|] eqn:E; [|done].
  unfold prepareUpdateRepository in E. unreject E. injection E as <-.
  match goal with G : JsMap.get id _ = Some _ |- _ => rename G into G0 end.
  pose proof (named_id _ _ _ (ok_repositories _ H) _ _ G0) as Hid.
  apply set_repository_ok; [done| |].
  - destruct (rp_name patch) as [name|].
    + destruct (isValidSlugName name) eqn:Hs; [|done]. destruct (findRepositoryByName st name (Some id)) eqn:Hf; [done|].
      by eapply named_set; [apply H|done|done|exact Hf|right].
    + by eapply named_keep; [apply H|exact G0| |].
  - destruct (rp_url patch); [done|]. exact (ok_urls _ H _ _ G0).
Qed.

Lemma create_provider_ok st drawn input : catalog_ok st -> catalog_ok (createProvider st drawn input).2.
Proof.
  intros H. unfold createProvider, when_valid. destruct (prepareCreateProvider st drawn input) as [r|] eqn:E; [|done].
  unfold prepareCreateProvider in E. unreject E. cbv zeta in E. unreject E. injection E as <-.
  apply set_provider_ok; [done|]. apply (named_set _ _ _ _ _ None); [apply H|done|by apply negb_false_iff| |by left].
  by apply is_some_false.
Qed.

Lemma update_provider_ok st id patch : catalog_ok st -> catalog_ok (updateProvider st id patch).2.
Proof.
  intros H. unfold updateProvider, when_valid. destruct (prepareUpdateProvider st id patch) as [r|] eqn:E; [|done].
  unfold prepareUpdateProvider in E. unreject E. injection E as <-.
  match goal with G : JsMap.get id _ = Some _ |- _ => rename G into G0 end.
  pose proof (named_id _ _ _ (ok_providers _ H) _ _ G0) as Hid. apply set_provider_ok; [done|].
  destruct (pp_name patch) as [name|].
  - destruct (isValidSlugName name) eqn:Hs; [|done]. destruct (findProviderByName st name (Some id)) eqn:Hf; [done|].
    by eapply named_set; [apply H|done|done|exact Hf|right].
  - by eapply named_keep; [apply H|exact G0| |].
Qed.

Lemma checked_valid {A} (r : A + string) a : checked r = valid a -> r = inl a.
Proof. destruct r; cbn; congruence. Qed.

Lemma create_command_ok st drawn input : catalog_ok st -> catalog_ok (createCommand st drawn input).2.
Proof.
  intros H. unfold createCommand, when_valid. destruct (prepareCreateCommand st drawn input) as [r|] eqn:E; [|done].
  unfold prepareCreateCommand in E. unreject E. cbv zeta in E. unreject E. injection E as <-.
  repeat match goal with C : checked _ = valid _ |- _ => apply checked_valid in C end.
  apply set_command_ok; [done| |by eexists|].
  - apply (named_set _ _ _ _ _ None); [apply H|done|by apply negb_false_iff| |by left]. by apply is_some_false.
  - match goal with C : validateCommandResumeSpec _ _ = inl ?p |- _ => destruct p as [t cap]; rename C into Hr end.
    cbn. split; intros x [= ->]; by do 3 eexists.
Qed.

Lemma update_command_ok st id patch : catalog_ok st -> catalog_ok (updateCommand st id patch).2.
Proof.
  intros H. unfold updateCommand, when_valid. destruct (prepareUpdateCommand st id patch) as [r|] eqn:E; [|done].
  unfold prepareUpdateCommand in E. unreject E. injection E as <-.
  match goal with G : JsMap.get id _ = Some _ |- _ => rename G into G0 end.
  match goal with C : checked (validateCommandResumeSpec _ _) = valid _ |- _ => apply checked_valid in C end.
  match goal with C : validateCommandResumeSpec _ _ = inl ?p |- _ => destruct p as [t cap]; rename C into Hr end.
  pose proof (named_id _ _ _ (ok_commands _ H) _ _ G0) as Hid.
  destruct (ok_argv _ H _ _ G0) as [Ha [Ht Hc]]. apply set_command_ok; [done| | |].
  - destruct (cp_name patch) as [name|]; [|by eapply named_keep; [apply H|exact G0| |]].
    destruct (str_eqb name _) eqn:En; [apply str_eqb_true in En; by eapply named_keep; [apply H|exact G0| |]|].
    destruct (isValidSlugName name) eqn:Hs; [|done]. destruct (findCommandByName st name (Some id)) eqn:Hf; [done|].
    by eapply named_set; [apply H|done|done|exact Hf|right].
  - cbn. destruct (cp_argv patch) as [v|]; [|by simplify_eq].
    match goal with C : checked _ = valid _ |- _ => apply checked_valid in C end. by eexists.
  - unfold resume_ok. cbn. unfold patch_checked. split; intros x.
    + destruct (cp_resumeArgvTemplate patch) as [[]|]; try done; try (intros ->; by do 3 eexists); by apply Ht.
    + destruct (cp_resumeRefCapture patch) as [[]|]; try done; try (intros ->; by do 3 eexists); by apply Hc.
Qed.

Lemma bad_cap_range n : bad_cap (Some n) = false -> 1 <= n <= 64.
Proof. unfold bad_cap, MAX_CONCURRENT_SESSIONS_LIMIT. lia. Qed.

Lemma create_account_ok st drawn input : catalog_ok st -> catalog_ok (createProviderAccount st drawn input).2.
Proof.
  intros H. unfold createProviderAccount, when_valid. destruct (prepareCreateProviderAccount st drawn input) as [r|] eqn:E; [|done].
  unfold prepareCreateProviderAccount in E. unreject E. cbv zeta in E. unreject E. injection E as <-.
  apply set_account_ok; [done|done|]. split; cbn; [by apply negb_false_iff| |].
  - destruct (ai_usageLimitCooldownSeconds input); cbn in *; [lia|done].
  - intros n [= <-]. destruct (ai_maxConcurrentSessions input); cbn; [by apply bad_cap_range|unfold DEFAULT_MAX_CONCURRENT_SESSIONS; lia].
Qed.

Lemma update_account_ok st id patch : catalog_ok st -> catalog_ok (updateProviderAccount st id patch).2.
Proof.
  intros H. unfold updateProviderAccount, when_valid. destruct (prepareUpdateProviderAccount st id patch) as [r|] eqn:E; [|done].
  unfold prepareUpdateProviderAccount in E. unreject E. injection E as <-.
  match goal with G : JsMap.get id _ = Some _ |- _ => destruct (ok_accounts _ H _ _ G) as [Hid []] end.
  apply set_account_ok; [done|done|]. split; cbn.
  - destruct (ap_providerId patch); cbn; [|done]. by destruct (JsMap.has _ (Plane.providers st)).
  - destruct (ap_usageLimitCooldownSeconds patch); cbn in *; [lia|done].
  - destruct (ap_maxConcurrentSessions patch); cbn; [|done]. intros n [= <-]. by apply bad_cap_range.
Qed.

Lemma clear_account_ok st id : catalog_ok st -> catalog_ok (clearProviderAccountUsageLimit st id).2.
Proof.
  intros H. unfold clearProviderAccountUsageLimit. destruct (JsMap.get id _) as [a|] eqn:G; [|done].
  destruct (ok_accounts _ H _ _ G) as [Hid []]. by apply set_account_ok; [done|done|split].
Qed.

Lemma profiles_truthy profiles d : validateProfiles profiles (truthy_opt d) = validateProfiles profiles d.
Proof.
  unfold validateProfiles. destruct d as [d|]; [|done]. cbn [truthy_opt]. destruct (truthy d) eqn:E; cbn [truthy_opt]; by rewrite ?E.
Qed.

Lemma prepare_pool_ok st drawn input existing p :
  prepareWorkspacePool st drawn input existing = valid p ->
  Pool.id p = opt_or (Pool.id <$> existing) (opt_or (wi_id input) drawn) /\ isValidSlugName (Pool.name p) = true /\
  find_by_name Pool.id Pool.name (Plane.workspacePools st) (Pool.name p) (Pool.id <$> existing) = None /\
  validateProfiles (Pool.setupProfiles p) (Pool.defaultSetupProfileId p) = None.
Proof.
  unfold prepareWorkspacePool. intros E. unreject E. cbv zeta in E. unreject E. injection E as <-. cbn.
  rewrite profiles_truthy. repeat split; [by apply negb_false_iff|by apply is_some_false|done].
Qed.

Lemma create_pool_ok st drawn input : catalog_ok st -> catalog_ok (createWorkspacePool st drawn input).2.
Proof.
  intros H. unfold createWorkspacePool. destruct (prepareWorkspacePool st drawn input None) as [p|] eqn:E; [|done].
  destruct (JsMap.has _ _); [done|]. apply prepare_pool_ok in E as (Hid & Hs & Hf & Hv).
  apply set_pool_ok; [done| |done]. by eapply named_set; [apply H|done|done|exact Hf|left].
Qed.

Lemma update_pool_ok st id patch : catalog_ok st -> catalog_ok (updateWorkspacePool st id patch).2.
Proof.
  intros H. unfold updateWorkspacePool. destruct (JsMap.get id _) as [old|] eqn:G; [|done].
  pose proof (named_id _ _ _ (ok_pools _ H) _ _ G) as Hid. unfold when_valid.
  destruct (prepareWorkspacePool _ _ _ _) as [p|] eqn:E; [|done]. apply prepare_pool_ok in E as (Hp & Hs & Hf & Hv). cbn in Hp, Hf.
  apply set_pool_ok; [done| |done]. eapply named_set; [apply H|congruence|done|exact Hf|right; by rewrite Hid].
Qed.

(** ** Deleting keeps it *)
Lemma delete_ok kind st links id : catalog_ok st -> catalog_ok (delete_entry kind st links id).2.
Proof.
  intros H. destruct (delete_entry_spec kind st links id) as [(-> & _ & Hfree)|(e & deps & -> & _)]; [|done].
  cbn [snd]. destruct H, kind; cbn [without in_use] in *.
  - split; try done; [by apply named_delete| |].
    + intros j a G. destruct (ok_accounts0 j a G) as [Hi []]. split; [done|]. split; [|done|done].
      apply has_delete; [done|]. intros E. apply Hfree. eexists. eapply on_account; [by eapply JsMap.get_In_values|done].
    + intros j s G. destruct (ok_schedules0 j s G) as [Ht Hp]. split; [|done].
      apply Forall_forall. intros t Hin. rewrite Forall_forall in Ht. specialize (Ht t Hin).
      destruct t as [p|c]; [|done]. apply has_delete; [done|]. intros ->. apply Hfree. eexists.
      by eapply (on_schedule_target _ _ _ kind_provider); [done|by eapply JsMap.get_In_values|apply list_elem_of_In].
  - split; try done; [by apply JsMap.wf_delete|]. intros j a G. apply delete_get in G as [_ G].
    destruct (ok_accounts0 j a G) as [Hi []]. by split.
  - split; try done; [by apply named_delete| |intros j a G; destruct (ok_accounts0 j a G) as [Hi []]; by split|].
    + intros j c G. apply delete_get in G as [_ G]. by eauto.
    + intros j s G. destruct (ok_schedules0 j s G) as [Ht Hp]. split; [|done].
      apply Forall_forall. intros t Hin. rewrite Forall_forall in Ht. specialize (Ht t Hin).
      destruct t as [p|c]; [done|]. apply has_delete; [done|]. intros ->. apply Hfree. eexists.
      by eapply (on_schedule_target _ _ _ kind_command); [done|by eapply JsMap.get_In_values|apply list_elem_of_In].
  - split; try done; [by apply named_delete| |intros j a G; destruct (ok_accounts0 j a G) as [Hi []]; by split].
    intros j r G. apply delete_get in G as [_ G]. by eauto.
  - split; try done; [intros j a G; destruct (ok_accounts0 j a G) as [Hi []]; by split|by apply named_delete| |].
    + intros j p G. apply delete_get in G as [_ G]. by eauto.
    + intros j s G. destruct (ok_schedules0 j s G) as [Ht Hp]. split; [done|]. intros p E.
      apply has_delete; [by apply Hp|]. intros ->. apply Hfree. right. left. exists s. split; [by eapply JsMap.get_In_values|done].
Qed.

(** ** Schedules keep it *)

(** The parts of the state a schedule can refer to. *)
Definition same_catalog (st st' : ControlPlaneState) : Prop :=
  Plane.repositories st' = Plane.repositories st /\ Plane.providers st' = Plane.providers st /\
  Plane.providerAccounts st' = Plane.providerAccounts st /\ Plane.commands st' = Plane.commands st /\
  Plane.workspacePools st' = Plane.workspacePools st.

Lemma same_catalog_ok st st' :
  same_catalog st st' -> catalog_ok st ->
  (forall id s, JsMap.get id (Plane.schedules st') = Some s -> schedule_refs st s) -> catalog_ok st'.
Proof.
  intros (Er & Ep & Ea & Ec & Ew) [] Hs.
  assert (Hg : grows st st') by (repeat split; intros k; by rewrite ?Ep, ?Ec, ?Ew).
  split; rewrite ?Er, ?Ep, ?Ea, ?Ec, ?Ew; try done.
  - intros j a G. destruct (ok_accounts0 j a G). split; [done|by eapply grows_account].
  - intros j s G. eapply grows_refs; [done|by eapply Hs].
Qed.

(** A schedule that moved on refers to what it did. *)
Lemma moved_refs st m : catalog_ok st -> moved_on (Plane.schedules st) m ->
  forall id s, JsMap.get id m = Some s -> schedule_refs st s.
Proof.
  intros H Hm id s G. destruct (Hm id s G) as (s0 & G0 & [->|(cursor & at_ & last & _ & ->)]);
    [by eapply ok_schedules|]. exact (ok_schedules _ H _ _ G0).
Qed.

Lemma resolves_refs st s : schedule_resolves st s -> schedule_refs st s.
Proof.
  intros [Hn Hp]. split.
  - revert Hn. unfold resolveTargetDisplayNames. generalize (Schedule.targetDisplayNames s).
    induction (Schedule.target s :: Schedule.fallbacks s) as [|t l IH]; intros names; [by constructor|].
    cbn [display_names]. destruct (resolveSessionTargetDisplayName st t) as [n|] eqn:E; [|done].
    destruct (display_names st l) as [ns|] eqn:E'; [|done]. intros _. constructor; [|by eapply IH].
    unfold target_stored, resolveSessionTargetDisplayName, JsMap.has in *. destruct t; by destruct (JsMap.get _ _).
  - intros p E. destruct (Hp p E) as (pool & G & _). by eapply has_get.
Qed.

Context {DP : DateParse}.

Lemma only_schedules_catalog st st' : only_schedules st st' -> same_catalog st st'.
Proof. intros [E _]. rewrite <- E. by destruct st, st'. Qed.

Lemma claim_catalog st id expected nowIso : same_catalog st (tryClaimScheduleFire st id expected nowIso).2.
Proof.
  destruct (tryClaimScheduleFire st id expected nowIso) as [r st'] eqn:E.
  destruct (claim_shape _ _ _ _ _ _ E) as [(Ho & _)|(pub & s & ses & cursor & _ & Hc)]; [by apply only_schedules_catalog|].
  cbn [snd]. rewrite (cl_state _ _ _ _ _ _ _ _ _ Hc). by destruct st.
Qed.

Lemma trigger_catalog st id nowIso : same_catalog st (triggerSchedule st id nowIso).2.
Proof.
  destruct (trigger_shape st id nowIso) as [Ho|(s & p & m & _ & _ & _ & ->)]; [by apply only_schedules_catalog|].
  by destruct st.
Qed.

Lemma set_schedule_ok st id s : catalog_ok st -> schedule_refs st s -> catalog_ok (set_schedule st id s).
Proof.
  intros H Hs. eapply same_catalog_ok; [|exact H|]; [done|]. intros j w G.
  eapply set_cases; [exact G|by intros _ ->|]. by apply ok_schedules.
Qed.

Lemma schedule_op_ok st op : catalog_ok st -> catalog_ok (apply_op st op).
Proof.
  intros H. destruct op as [drawn input|id patch|id|id nowIso|id expected nowIso|nowIso]; cbn [apply_op].
  - destruct (put_durable_shape st drawn input) as [-> | (s & Hs & ->)]; [done|].
    apply prepare_put_ok in Hs as (_ & Hs & _). by apply set_schedule_ok, resolves_refs.
  - unfold updateSchedule. destruct (prepareUpdateSchedule st id patch) as [s|] eqn:Hs; [|done].
    apply prepare_update_ok in Hs as (old & _ & _ & Hs & _). by apply set_schedule_ok, resolves_refs.
  - unfold deleteSchedule. destruct (negb _); [done|]. eapply same_catalog_ok; [|exact H|]; [done|].
    intros j s G. apply delete_get in G as [_ G]. by eapply ok_schedules.
  - eapply same_catalog_ok; [apply trigger_catalog|done|]. by eapply moved_refs, trigger_moves.
  - eapply same_catalog_ok; [apply claim_catalog|done|]. by eapply moved_refs, claim_moves.
  - apply cron_inv; [|done]. intros st1 id expected H1. eapply same_catalog_ok; [apply claim_catalog|done|].
    by eapply moved_refs, claim_moves.
Qed.

End catalog.

(** ** Runs *)

(** An operation on the catalog or on the schedules, with the arguments it may be given. *)
Inductive CatalogOp :=
| cat_create_repository (drawn : string) (input : RepositoryInput)
| cat_update_repository (id : string) (patch : RepositoryPatch)
| cat_create_provider (drawn : string) (input : ProviderInput)
| cat_update_provider (id : string) (patch : ProviderPatch)
| cat_create_account (drawn : string) (input : ProviderAccountInput)
| cat_update_account (id : string) (patch : ProviderAccountPatch)
| cat_clear_account (id : string)
| cat_create_command (drawn : string) (input : CommandInput)
| cat_update_command (id : string) (patch : CommandPatch)
| cat_create_pool (drawn : string) (input : WorkspacePoolInput)
| cat_update_pool (id : string) (patch : WorkspacePoolPatch)
| cat_delete (kind : CatalogKind) (links : CatalogLinks) (id : string)
| cat_schedule (op : ScheduleOp).

Section runs.
Context {UP : UrlParts} {DP : DateParse}.

Definition apply_catalog (st : ControlPlaneState) (op : CatalogOp) : ControlPlaneState :=
  match op with
  | cat_create_repository drawn input => (createRepository st drawn input).2
  | cat_update_repository id patch => (updateRepository st id patch).2
  | cat_create_provider drawn input => (createProvider st drawn input).2
  | cat_update_provider id patch => (updateProvider st id patch).2
  | cat_create_account drawn input => (createProviderAccount st drawn input).2
  | cat_update_account id patch => (updateProviderAccount st id patch).2
  | cat_clear_account id => (clearProviderAccountUsageLimit st id).2
  | cat_create_command drawn input => (createCommand st drawn input).2
  | cat_update_command id patch => (updateCommand st id patch).2
  | cat_create_pool drawn input => (createWorkspacePool st drawn input).2
  | cat_update_pool id patch => (updateWorkspacePool st id patch).2
  | cat_delete kind links id => (delete_entry kind st links id).2
  | cat_schedule op => apply_op st op
  end.

Lemma catalog_op_ok st op : catalog_ok st -> catalog_ok (apply_catalog st op).
Proof.
  destruct op; cbn [apply_catalog]; [apply create_repository_ok|apply update_repository_ok|apply create_provider_ok|
    apply update_provider_ok|apply create_account_ok|apply update_account_ok|apply clear_account_ok|apply create_command_ok|
    apply update_command_ok|apply create_pool_ok|apply update_pool_ok|apply delete_ok|apply schedule_op_ok].
Qed.

(** [C20] The catalog stays well formed and its references resolve.  Along every sequence of
    creations, updates and deletions of repositories, providers, accounts, commands and pools,
    interleaved with everything that is done to schedules, each entry keeps its own id, names
    are slugs that no two entries of a catalog share, repository URLs and argv vectors are
    accepted ones, setup profiles are within their limits with a default among them, account
    caps and cooldowns are in range; and every account's provider, and every target and pool a
    stored schedule names, exists. *)
Theorem catalog_invariant st ops : catalog_ok st -> catalog_ok (fold_left apply_catalog ops st).
Proof.
  revert st. induction ops as [|op ops IH]; intros st H; [done|]. cbn [fold_left]. by apply IH, catalog_op_ok.
Qed.

(** An operation on the catalog itself. *)
Definition on_catalog (op : CatalogOp) : Prop := match op with cat_schedule _ => False | _ => True end.

(** Only the catalog may differ. *)
Definition only_catalog (st st' : ControlPlaneState) : Prop :=
  st' <| Plane.repositories := Plane.repositories st |> <| Plane.providers := Plane.providers st |>
      <| Plane.providerAccounts := Plane.providerAccounts st |> <| Plane.commands := Plane.commands st |>
      <| Plane.workspacePools := Plane.workspacePools st |> = st.

Lemma only_catalog_refl st : only_catalog st st.
Proof. by destruct st. Qed.

Lemma when_valid_catalog {A} st (r : ValidationResult A) store :
  (forall a, only_catalog st (store a)) -> only_catalog st (when_valid st r store).2.
Proof. intros H. destruct r; [apply H|apply only_catalog_refl]. Qed.

Lemma catalog_op_only st op : on_catalog op -> only_catalog st (apply_catalog st op).
Proof.
  destruct op as [| | | | | |id| | |drawn input|id patch|kind links id|]; intros Ho; cbn [apply_catalog]; try done;
    try (apply when_valid_catalog; intros a; by destruct st).
  - unfold clearProviderAccountUsageLimit. destruct (JsMap.get _ _); by destruct st.
  - unfold createWorkspacePool. destruct (prepareWorkspacePool _ _ _ _); [destruct (JsMap.has _ _)|]; by destruct st.
  - unfold updateWorkspacePool. destruct (JsMap.get _ _); [apply when_valid_catalog; intros a|]; by destruct st.
  - destruct (delete_entry_spec kind st links id) as [(-> & _)|(e & deps & -> & _)]; [destruct kind|]; by destruct st.
Qed.

End runs.

(** ** Leases and caps *)

(** What happens to the leases of an account: they are taken, given back and taken away by an
    operator, while the accounts are created, changed and deleted.  An account is deleted here
    only when it holds no lease. *)
Inductive lease_step (st : ControlPlaneState) : ControlPlaneState -> Prop :=
| lease_acquire s account attemptId hostId occ :
    lease_step st (tryAcquireProviderAccountLeaseLocal st s account attemptId hostId occ true).2
| lease_release s : lease_step st (releaseProviderAccountLease st s).1
| lease_force account slot mayAccess : lease_step st (forceReleaseLocalProviderAccountLease st account slot mayAccess).2
| lease_create drawn input : lease_step st (createProviderAccount st drawn input).2
| lease_update id patch : lease_step st (updateProviderAccount st id patch).2
| lease_clear id : lease_step st (clearProviderAccountUsageLimit st id).2
| lease_delete links id : account_leases st id = [] -> lease_step st (deleteProviderAccount st links id).2.

(** Leases may go while the caps stay. *)
Lemma lease_inv_fewer st st' :
  Plane.providerAccounts st' = Plane.providerAccounts st -> JsMap.wf (Plane.providerAccountLeases st') ->
  (forall k l, JsMap.get k (Plane.providerAccountLeases st') = Some l -> JsMap.get k (Plane.providerAccountLeases st) = Some l) ->
  lease_inv st -> lease_inv st'.
Proof.
  intros Ea Hwf Hsub [_ H]. split; [done|]. intros k l G. destruct (H k l (Hsub k l G)) as [Hk Hs]. split; [done|].
  unfold max_for in *. by rewrite Ea.
Qed.

(** Caps may change where every held slot stays below them. *)
Lemma lease_inv_caps st st' :
  Plane.providerAccountLeases st' = Plane.providerAccountLeases st ->
  (forall k l, JsMap.get k (Plane.providerAccountLeases st) = Some l ->
     HeldLease.slot l < max_for st (HeldLease.providerAccountId l) ->
     HeldLease.slot l < max_for st' (HeldLease.providerAccountId l)) ->
  lease_inv st -> lease_inv st'.
Proof.
  intros El Hcap [Hwf H]. split; rewrite El; [done|]. intros k l G. destruct (H k l G) as [Hk Hs].
  split; [done|]. split; [lia|]. apply (Hcap k l); [done|lia].
Qed.

Lemma max_for_set st id a j :
  max_for (set_account st id a) j = if decide (id = j) then maxConcurrentSessionsFor (Some a) else max_for st j.
Proof. unfold max_for, set_account. cbn -[JsMap.get]. rewrite JsMap.get_set. by case_decide. Qed.

Lemma acquire_lease_inv st s account attemptId hostId occ :
  lease_inv st -> lease_inv (tryAcquireProviderAccountLeaseLocal st s account attemptId hostId occ true).2.
Proof. intros H. by apply lease_cap_invariant. Qed.

Lemma release_lease_inv st s : lease_inv st -> lease_inv (releaseProviderAccountLease st s).1.
Proof.
  intros H. apply lease_inv_fewer with (st := st); [| | |done];
    unfold releaseProviderAccountLease, releaseProviderAccountLeaseLocal; repeat case_match; simplify_eq/=; try done; try apply H.
  - apply JsMap.wf_delete, H.
  - intros k l G. by apply delete_get in G as [_ G].
Qed.

Lemma force_lease_inv st account slot mayAccess :
  lease_inv st -> lease_inv (forceReleaseLocalProviderAccountLease st account slot mayAccess).2.
Proof.
  intros H. apply lease_inv_fewer with (st := st); [| | |done];
    unfold forceReleaseLocalProviderAccountLease; repeat case_match; simplify_eq/=; try done; try apply H;
    try apply JsMap.wf_delete, H; intros k l G; by apply delete_get in G as [_ G].
Qed.

Lemma create_lease_inv st drawn input : lease_inv st -> lease_inv (createProviderAccount st drawn input).2.
Proof.
  intros H. unfold createProviderAccount, when_valid. destruct (prepareCreateProviderAccount st drawn input) as [a|] eqn:E; [|done].
  unfold prepareCreateProviderAccount in E. unreject E. cbv zeta in E. unreject E. injection E as <-.
  cbn [snd]. apply lease_inv_caps with (st := st); [done| |done]. intros k l _. rewrite max_for_set. case_decide as Ej; [|done].
  match goal with N : JsMap.has _ (Plane.providerAccounts st) = false |- _ => rename N into Hnew end.
  unfold max_for. cbn in Ej. rewrite Ej in Hnew. unfold JsMap.has in Hnew. apply is_some_false in Hnew. rewrite Hnew. cbn.
  destruct (ai_maxConcurrentSessions input) as [n|]; cbn; [|done].
  match goal with B : bad_cap _ = false |- _ => apply bad_cap_range in B end. unfold DEFAULT_MAX_CONCURRENT_SESSIONS. lia.
Qed.

Lemma slot_not_removed st id cap k l :
  removed_slot_held st id cap = false -> JsMap.get k (Plane.providerAccountLeases st) = Some l ->
  HeldLease.providerAccountId l = id -> HeldLease.slot l < cap.
Proof.
  intros H G E. apply JsMap.get_In_values in G. apply not_true_iff_false in H.
  destruct (Z.ltb_spec (HeldLease.slot l) cap); [done|]. exfalso. apply H. apply existsb_exists. exists l. split; [done|].
  rewrite (proj2 (str_eqb_true _ _) E). cbn. by apply Z.leb_le.
Qed.

Lemma update_lease_inv st id patch : lease_inv st -> lease_inv (updateProviderAccount st id patch).2.
Proof.
  intros H. unfold updateProviderAccount, when_valid. destruct (prepareUpdateProviderAccount st id patch) as [a|] eqn:E; [|done].
  unfold prepareUpdateProviderAccount in E. unreject E. injection E as <-.
  match goal with G : JsMap.get id _ = Some _ |- _ => rename G into G0 end.
  cbn [snd]. apply lease_inv_caps with (st := st); [done| |done]. intros k l Gl. rewrite max_for_set. case_decide as Ej; [|done].
  unfold max_for. rewrite <- Ej, G0. unfold maxConcurrentSessionsFor. cbn.
  destruct (ap_maxConcurrentSessions patch) as [n|]; cbn; [|done].
  match goal with B : cap_reduced _ _ && _ = false |- _ => apply andb_false_iff in B as [B|B] end.
  - unfold cap_reduced in *. lia.
  - intros _. by eapply slot_not_removed.
Qed.

Lemma clear_lease_inv st id : lease_inv st -> lease_inv (clearProviderAccountUsageLimit st id).2.
Proof.
  intros H. unfold clearProviderAccountUsageLimit. destruct (JsMap.get id _) as [a|] eqn:G; [|done].
  cbn [snd]. apply lease_inv_caps with (st := st); [done| |done]. intros k l _. rewrite max_for_set. case_decide as Ej; [|done].
  unfold max_for. by rewrite <- Ej, G.
Qed.

Lemma delete_lease_inv st links id :
  account_leases st id = [] -> lease_inv st -> lease_inv (deleteProviderAccount st links id).2.
Proof.
  intros Hno H. destruct (delete_entry_spec kind_account st links id) as [(E & _)|(e & deps & E & _)];
    cbn [delete_entry] in E; rewrite E; [|done].
  cbn [snd]. apply lease_inv_caps with (st := st); [done| |done]. intros k l G. unfold max_for. cbn -[JsMap.get JsMap.delete].
  rewrite JsMap.get_delete. case_decide as Ej; [|done]. exfalso.
  assert (Hin : In l (account_leases st id)); [|by rewrite Hno in Hin].
  unfold account_leases. apply filter_In. split; [by eapply JsMap.get_In_values|]. by apply str_eqb_true.
Qed.

#[local] Hint Resolve acquire_lease_inv release_lease_inv force_lease_inv create_lease_inv update_lease_inv
  clear_lease_inv delete_lease_inv : core.

(** [C21] The concurrency cap of a provider account holds while it changes.  Along every sequence
    in which leases are acquired, released and forcibly released and accounts are created,
    patched (lowering their caps included), cleared of a usage limit and, once they hold no lease, deleted,
    every lease sits under its own identifier in a slot below its account's current cap, so an
    account never has more leases than that cap. *)
Theorem lease_cap_kept st st' :
  lease_inv st -> rtc lease_step st st' ->
  lease_inv st' /\ forall a, Z.of_nat (length (account_leases st' a)) <= Z.max 0 (max_for st' a).
Proof.
  intros H Hr. enough (Hi : lease_inv st') by (split; [done|intros a; by apply lease_inv_count]).
  induction Hr as [|st st1 st2 Hs _ IH]; [done|]. apply IH. destruct Hs; auto.
Qed.

(** ** Witnesses *)

(** A URL parser that knows the one remote of the examples. *)
#[local] Instance example_urls : UrlParts :=
  fun url => if String.prefix "https://git.test/" url then Some ("https:", "git.test") else None.

Definition empty_catalog : ControlPlaneState := (lease_state [] 1) <| Plane.providerAccounts := [] |>.

(** A provider with its command, an account, a repository and a schedule; the provider and its
    command are then in use, a second command is not. *)
Definition example_ops : list CatalogOp :=
  [cat_create_command "drawn" (mkCommandInput (Some "cmd") "claude-print" (JArray [JString "claude"; JString "-p"]) None None None None Undef);
   cat_create_command "spare" (mkCommandInput None "spare" (JArray [JString "true"]) None None None None Null);
   cat_create_provider "drawn" (mkProviderInput (Some "claude") "claude" (Val "cmd") None);
   cat_create_account "acct" (mkProviderAccountInput None "claude" "me" None (Some 2));
   cat_create_repository "repo" (mkRepositoryInput None "repo" "https://git.test/repo.git" None None None);
   cat_schedule (op_put "nightly" (mkScheduleInput (Some "repo") None Undef Undef None None "nightly"
     (Some (JObject [("providerId", JString "claude")])) None "0 2 * * *" 600 None None None None None None None None));
   cat_update_repository "repo" (mkRepositoryPatch (Some "renamed") None None None None);
   cat_delete kind_provider (mkCatalogLinks [] None) "claude";
   cat_delete kind_command (mkCatalogLinks [] None) "cmd";
   cat_delete kind_command (mkCatalogLinks [] None) "spare";
   cat_delete kind_repository (mkCatalogLinks [] None) "repo"].

Notation example_catalog_run := (fold_left (@apply_catalog example_urls iso_date_parse) example_ops empty_catalog).

Lemma catalog_invariant_witness :
  catalog_ok example_catalog_run /\
  JsMap.keys (Plane.providers example_catalog_run) = ["claude"] /\ JsMap.keys (Plane.commands example_catalog_run) = ["cmd"] /\
  map Repo.name (JsMap.values (Plane.repositories example_catalog_run)) = ["renamed"] /\
  JsMap.keys (Plane.schedules example_catalog_run) = ["nightly"].
Proof.
  split; [|vm_compute; auto].
  apply (@catalog_invariant example_urls iso_date_parse empty_catalog example_ops).
  split; try (split; [apply NoDup_nil_2|done..]); try done. apply NoDup_nil_2.
Defined.

(** A conflict names what is in the way. *)
Example delete_conflict_example :
  (delete_entry kind_provider example_catalog_run (mkCatalogLinks [] None) "claude").1 =
  undeletable "cannot delete provider; referenced by provider-account acct, schedule nightly"
    (Some [dependency "provider-account" "acct"; dependency "schedule" "nightly"]).
Proof. vm_compute. reflexivity. Qed.

(** A cap may be lowered to one above the slot in use, not below it. *)
Definition one_lease : ControlPlaneState :=
  (tryAcquireProviderAccountLeaseLocal (lease_state [] 2) lease_session (Some "acct") "a1" "h1" [] true).2.

Definition cap_patch (n : Z) : ProviderAccountPatch := mkProviderAccountPatch None None None (Some n).

Lemma lease_cap_kept_witness :
  let st' := (updateProviderAccount one_lease "acct" (cap_patch 1)).2 in
  length (account_leases st' "acct") = 1%nat /\ max_for st' "acct" = 1 /\
  Z.of_nat (length (account_leases st' "acct")) <= Z.max 0 (max_for st' "acct").
Proof.
  cbv zeta. split; [vm_compute; reflexivity|]. split; [vm_compute; reflexivity|].
  apply (lease_cap_kept (lease_state [] 2)).
  - split; [apply NoDup_nil_2|]. intros k l H. discriminate H.
  - eapply rtc_l; [apply (lease_acquire _ lease_session (Some "acct") "a1" "h1" [])|].
    eapply rtc_l; [apply (lease_update _ "acct" (cap_patch 1))|]. apply rtc_refl.
Defined.
