(* ===== verification/PlaneInvariant.v ===== *)
(** * The plane under any sequence of operations

    The step relation of the in-memory control plane, one rule per operation of
    [SessionCreate], [ScheduleFire], [RepositoryDrain], [DeleteGuards], [Catalog], [Worktrees], [Assignment], [CheckoutAssignment],
    [HostMessages], [Reconnect], [HostLifecycle] and [Inventory], and what holds along every sequence of steps: a worktree never
    has two owners, a session that is over stays over, its identity never
    changes. *)

From Stdlib Require Import ZArith Lia Ascii String.
From stdpp Require Import base strings list relations.
From S2P Require Import Prelude DateTime Types Ordering TransitionPlanner SessionTarget.
From S2P Require Import AccountLeases Placement SessionOutcome LogSettings Worktrees Assignment HostMessages.
From S2P Require Import Registration Inventory Reconnect HostLifecycle CheckoutAssignment SessionCreate Ownership Evolution CheckoutPass HostOwnership SessionAdmission ScheduleFire Schedules RepositoryDrain DeleteGuards Catalog.

Local Open Scope string_scope.
Local Open Scope Z_scope.

Section steps.
Context {LC : LocaleCompare} {DP : DateParse} {UP : UrlParse}.

(** One operation of the in-memory plane, on any arguments and whether or not it
    throws.  An [async] operation that other work can interrupt is one rule per
    uninterrupted part: a registration ([step_register]) is followed, possibly
    much later, by the reconciliation of the sessions it reported
    ([step_reconcile]) and by its rollback ([step_restore]). *)
Inductive plane_step : ControlPlaneState -> ControlPlaneState -> Prop :=
(** The clock moves. *)
| step_clock st now : plane_step st (st <| Plane.now := now |>)
(** A session is created, resumed, cloned or spawned; the drawn id is new. *)
| step_admission st sha256_hex req :
    JsMap.get (next_id st) (Plane.sessions st) = None -> plane_step st (enter_request sha256_hex st req).2
(** A schedule is triggered by hand. *)
| step_trigger st id nowIso :
    JsMap.get (next_id st) (Plane.sessions st) = None -> plane_step st (triggerSchedule st id nowIso).2
(** A pass over the due schedules; the ids it may draw are new and different. *)
| step_cron st nowIso : id_supply st -> plane_step st (evaluateCron st nowIso).2
(** Schedules are put, patched or deleted. *)
| step_schedules st schedules : plane_step st (st <| Plane.schedules := schedules |>)
(** A repository is paused, opened or drained, and drains are reconciled. *)
| step_admission_state st id active : plane_step st (setRepositoryAdmissionDurable st id active).2
| step_drain_repository st id : plane_step st (drainRepositoryDurable st id).2
| step_reconcile_drains st : plane_step st (reconcileRepositoryDrainsDurable st).2
(** The catalog is changed, whatever the platform's URL parser. *)
| step_catalog st (urls : UrlParts) op : on_catalog op -> plane_step st (apply_catalog st op)
| step_seed st w :
    JsMap.get (Worktree.id w) (Plane.worktrees st) = None -> plane_step st (seedWorktree st w)
| step_assign st id : plane_step st (assignQueued st id).2
| step_assign_scheduled st id : plane_step st (assignScheduledQueuedDurable st id).2
| step_assign_workspace st id : plane_step st (assignWorkspaceQueuedDurable st id).2
| step_ack_deadlines st nowMs : plane_step st (enforceAckDeadlines st nowMs).2
| step_running_timeouts st nowMs : plane_step st (enforceRunningTimeouts st nowMs).2
| step_cancel st id : plane_step st (cancelSession st id).2
| step_ack st id w a : plane_step st (handleSessionAck st id w a).2
| step_command_start st id w a : plane_step st (handleCommandStart st id w a).2
| step_status st msg src : plane_step st (handleSessionStatus st msg src).2
| step_hook_complete st id handoff r src : plane_step st (handleTerminalHookComplete st id handoff r src).2
| step_register st opts : plane_step st (registerHost st opts).2
(** The registration was accepted in some earlier state. *)
| step_reconcile st0 st opts version :
    register_checks st0 opts = inr version -> plane_step st (reconcileReportedRunningSessions st opts).2
(** The snapshot was taken in some earlier state. *)
| step_restore st0 st hostId conn moved :
    plane_step st
      (restoreInMemoryRegistration st hostId conn (snapshotInMemoryRegistration st0 hostId) moved).2
| step_register_durable st opts : plane_step st (registerHostDurable st opts).2
| step_disconnect st conn : plane_step st (disconnectHost st conn).2
| step_heartbeat st hostId at_ : plane_step st (heartbeat st hostId at_).2
| step_keepalive st hostId at_ run : plane_step st (handleKeepalive st hostId at_ run).2
| step_stale_hosts st nowMs : plane_step st (reclaimStaleHosts st nowMs).2
(** No worktree has the empty id. *)
| step_reconnect_deadlines st nowMs :
    JsMap.get "" (Plane.worktrees st) = None -> plane_step st (reclaimReconnectDeadlines st nowMs).2
| step_drain st hostId conn : plane_step st (drainHost st hostId conn).2
| step_resume st hostId conn : plane_step st (resumeHost st hostId conn).2
| step_sync_worktrees st host : plane_step st (syncWorktreesFromHost st host)
| step_sync_slots st host advertised : plane_step st (syncHostWorkspaceSlots st host advertised)
(** The host has no busy worktree, which the code does not check: see
    [deleted_host_shares_worktree]. *)
| step_delete_host st hostId version :
    no_busy_worktree st hostId -> plane_step st (deleteHostInventory st hostId version).2.

(** The invariant. *)
Definition plane_ok (st : ControlPlaneState) : Prop := own_inv st /\ sessions_ok st.

(** Every session is still there and has evolved; new ones may have come. *)
Definition sessions_kept (st st' : ControlPlaneState) : Prop :=
  forall k s, JsMap.get k (Plane.sessions st) = Some s ->
    exists s', JsMap.get k (Plane.sessions st') = Some s' /\ evolves s (pending st k) s' (pending st' k).

Lemma kept_trans st1 st2 st3 : sessions_kept st1 st2 -> sessions_kept st2 st3 -> sessions_kept st1 st3.
Proof.
  intros K1 K2 k s G. destruct (K1 k s G) as (s2 & G2 & E2). destruct (K2 k s2 G2) as (s3 & G3 & E3).
  exists s3. split; [done|by eapply evolves_trans].
Qed.

Lemma advances_keep st st' : plane_ok st -> advances st st' -> plane_ok st' /\ sessions_kept st st'.
Proof.
  intros [H Hok] [O E]. split; [split; [done|by eapply sessions_ok_evolve]|]. intros k s. apply (se_some _ _ E).
Qed.

(** A new session. *)
Lemma admit_keep st s :
  plane_ok st -> JsMap.get (Session.id s) (Plane.sessions st) = None -> Session.status s = queued ->
  Session.terminalHookHandoff s = None -> detached s -> holds_ok s ->
  plane_ok (persistSession st s) /\ sessions_kept st (persistSession st s).
Proof.
  intros [H Hok] G Hq Hh Hd Hl. destruct (persistence_core s) as (I & Es & Eh & Ew).
  split; [split|].
  - by apply (own_persist_detached st (Session.id s)); [apply own_weaken| |].
  - intros k v. unfold persistSession. simpl. rewrite JsMap.get_set. case_decide as Hk; [|apply Hok].
    intros [= <-]. subst k. split; [congruence|congruence|rewrite Es, Hq; done|by eapply lineage_holds].
  - intros k v Gv. exists v. unfold persistSession. simpl. rewrite JsMap.get_set.
    case_decide; [congruence|]. split; [done|apply evolves_refl].
Qed.

Lemma fresh_holds st s : fresh_session st s -> detached s /\ holds_ok s.
Proof.
  intros Hf. assert (Hd : detached s) by (intros w; by rewrite (fs_worktree _ _ Hf)).
  split; [done|]. unfold holds_ok. by rewrite (fs_checkout _ _ Hf), (fs_slot_lease _ _ Hf).
Qed.

Lemma drawn_keep st st' : plane_ok st -> only_drawn st st' -> plane_ok st' /\ sessions_kept st st'.
Proof.
  intros Hst Hd. apply advances_keep; [done|]. apply calm_advances; [apply Hst|].
  destruct Hd as [-> | ->]; [apply calm_refl|by apply calm_same].
Qed.

Lemma fresh_keep st s :
  plane_ok st -> fresh_session st s -> JsMap.get (next_id st) (Plane.sessions st) = None ->
  plane_ok (persistSession (draw_id st).2 s) /\ sessions_kept st (persistSession (draw_id st).2 s).
Proof.
  intros Hst Hf Hnew. destruct (drawn_keep st (draw_id st).2 Hst ltac:(by right)) as [Hst1 K1].
  destruct (fresh_holds st s Hf) as [Hdet Hhold].
  destruct (admit_keep (draw_id st).2 s Hst1) as [Hst2 K2];
    [rewrite (fs_id _ _ Hf); exact Hnew|apply (fs_queued _ _ Hf)|apply (fs_handoff _ _ Hf)|done|done|].
  split; [done|exact (kept_trans _ _ _ K1 K2)].
Qed.

(** Creation, resume, clone and spawn. *)
Lemma admission_keep sha256_hex st req :
  plane_ok st -> JsMap.get (next_id st) (Plane.sessions st) = None ->
  plane_ok (enter_request sha256_hex st req).2 /\ sessions_kept st (enter_request sha256_hex st req).2.
Proof.
  intros Hst Hnew.
  assert (He : forall r st', enters persistSession st r st' -> plane_ok st' /\ sessions_kept st st').
  { intros r st' [[Hd _]|(s & Hf & _ & _ & -> & _)]; [by apply drawn_keep|by apply fresh_keep]. }
  destruct req as [body a o|id opts|id opts|parentId body principal credential]; cbn [enter_request].
  - eapply He, create_enters.
  - eapply He, resume_enters.
  - eapply He, clone_enters.
  - destruct (child_enters sha256_hex st parentId body principal credential)
      as [[Hd _]|(s & Hf & _ & (root & Gr & _) & _ & -> & _)]; [by apply drawn_keep|].
    destruct (fresh_keep st s Hst Hf Hnew) as [Hst1 K1].
    unfold store_child. cbn [draw_id snd].
    change (Plane.sessions (st <| Plane.idsDrawn := _ |>)) with (Plane.sessions st). rewrite Gr.
    unfold persistSession in Hst1, K1. rewrite (fresh_persists st s Hf) in Hst1, K1. cbn [draw_id snd] in Hst1, K1.
    destruct (str_eqb _ _) eqn:E; [done|].
    destruct (advances_keep _ (update_session (update_session (st <| Plane.idsDrawn := Plane.idsDrawn st + 1 |>)
      (Session.id s) s) (opt_or (Session.rootSessionId s) "") (root <| Session.descendantCount :=
        Some (opt_or (Session.descendantCount root) 0 + 1) |>)) Hst1) as [Hst2 K2];
      [|split; [done|exact (kept_trans _ _ _ K1 K2)]].
    eapply adv_update_core; [apply Hst1|apply calm_refl| |].
    + rewrite sessions_update. rewrite JsMap.get_set_ne; [exact Gr|]. intros Eq. by rewrite Eq, str_eqb_refl in E.
    + split; [apply lineage_update; [done|by left|by left|by left]|done].
Qed.

(** Schedules. *)
Definition kept (st st' : ControlPlaneState) : Prop := plane_ok st -> plane_ok st' /\ sessions_kept st st'.

Lemma kept_refl st : kept st st.
Proof. intros H. split; [done|]. intros k s G. exists s. split; [done|apply evolves_refl]. Qed.

Lemma kept_then st1 st2 st3 : kept st1 st2 -> kept st2 st3 -> kept st1 st3.
Proof.
  intros K1 K2 H. destruct (K1 H) as [H2 S2]. destruct (K2 H2) as [H3 S3].
  split; [done|exact (kept_trans _ _ _ S2 S3)].
Qed.

Lemma schedules_keep st st' : only_schedules st st' -> kept st st'.
Proof.
  intros Ho Hst. apply advances_keep; [done|]. apply calm_advances; [apply Hst|].
  destruct (only_schedules_fields _ _ Ho) as (Es & Ef & Ew & Ea & _). by apply calm_same.
Qed.

Lemma set_schedules_keep st m : kept st (st <| Plane.schedules := m |>).
Proof. apply schedules_keep. split; [by destruct st|cbn; lia]. Qed.

Lemma owned_keep st s p :
  fresh_session st s -> JsMap.get (next_id st) (Plane.sessions st) = None -> kept st (owned_state st s p).
Proof.
  intros Hf Hnew Hst. destruct (fresh_keep st s Hst Hf Hnew) as [Hst1 K1].
  destruct (advances_keep _ (owned_state st s p) Hst1) as [Hst2 K2]; [|split; [done|exact (kept_trans _ _ _ K1 K2)]].
  eapply adv_update_core; [apply Hst1|apply calm_refl|apply (st_new _ _ _ (persist_stored st s Hf))|].
  split; [apply lineage_update; [done|by left|by left|by left]|done].
Qed.

Lemma claim_keep st id expected nowIso : id_supply st -> kept st (tryClaimScheduleFire st id expected nowIso).2.
Proof.
  intros Hs. destruct (tryClaimScheduleFire st id expected nowIso) as [r st'] eqn:E.
  destruct (claim_shape _ _ _ _ _ _ E) as [(Ho & _)|(pub & schedule & s & cursor & _ & Hc)]; [by apply schedules_keep|].
  cbn [snd]. rewrite (cl_state _ _ _ _ _ _ _ _ _ Hc).
  eapply kept_then; [apply owned_keep; [exact (cl_fresh _ _ _ _ _ _ _ _ _ Hc)|by apply supply_next]|].
  apply set_schedules_keep.
Qed.

Lemma trigger_keep st id nowIso :
  JsMap.get (next_id st) (Plane.sessions st) = None -> kept st (triggerSchedule st id nowIso).2.
Proof.
  intros Hnew. destruct (trigger_shape st id nowIso) as [Ho|(s & p & m & Hf & _ & _ & ->)]; [by apply schedules_keep|].
  eapply kept_then; [by apply owned_keep|apply set_schedules_keep].
Qed.

Lemma cron_keep st nowIso : id_supply st -> kept st (evaluateCron st nowIso).2.
Proof. apply cron_rel; [apply kept_refl|apply kept_then|intros; by apply claim_keep]. Qed.

(** Repositories. *)
Lemma cache_keep st r : kept st (cache st r).
Proof. intros Hst. apply advances_keep; [done|]. by apply calm_advances; [apply Hst|apply calm_same]. Qed.

Lemma transition_keep st id a : kept st (transitionInMemory st id a).2.
Proof.
  unfold transitionInMemory. destruct (JsMap.get id (Plane.repositories st)) as [r|]; [|apply kept_refl].
  destruct a, (repositoryAdmissionState (Repo.admissionState r)) as [[]|]; first [apply cache_keep|apply kept_refl].
Qed.

Lemma admission_state_keep st id active : kept st (setRepositoryAdmissionDurable st id active).2.
Proof.
  unfold setRepositoryAdmissionDurable. eapply kept_then; [|apply transition_keep].
  destruct active; [|apply kept_refl]. destruct (skip_due_frame st id) as [m ->]. apply set_schedules_keep.
Qed.

Lemma cancel_keep st id : kept st (cancelSession st id).2.
Proof. intros Hst. apply advances_keep; [done|]. by split; [apply own_cancel, Hst|apply se_cancel, Hst]. Qed.

Lemma cancel_sessions_keep keys st id : kept st (cancel_sessions keys st id).2.
Proof.
  revert st. induction keys as [|k keys IH]; intros st; cbn [cancel_sessions]; [apply kept_refl|].
  destruct (JsMap.get k (Plane.sessions st)) as [s|]; [|apply IH]. destruct (_ && _); [|apply IH].
  pose proof (cancel_keep st (Session.id s)) as Hc. destruct (cancelSession st (Session.id s)) as [[x|] st1]; [|done].
  eapply kept_then; [exact Hc|apply IH].
Qed.

Lemma reconcile_keep st r : kept st (reconcileInMemory st r).2.
Proof.
  unfold reconcileInMemory. pose proof (cancel_sessions_keep (JsMap.keys (Plane.sessions st)) st (Repo.id r)) as Hc.
  destruct (cancel_sessions _ st _) as [[] st1]; [|done]. destruct (hasInMemoryRepositoryLease _ _); [done|].
  eapply kept_then; [exact Hc|apply cache_keep].
Qed.

Lemma drain_keep st id : kept st (drainRepositoryDurable st id).2.
Proof.
  unfold drainRepositoryDurable. pose proof (transition_keep st id adm_draining) as Ht.
  destruct (transitionInMemory st id adm_draining) as [[r|e c|] st1]; [|done..].
  pose proof (reconcile_keep st1 r) as Hr. destruct (reconcileInMemory st1 r) as [[x|] st2]; exact (kept_then _ _ _ Ht Hr).
Qed.

Lemma reconcile_each_keep l st : kept st (reconcile_each l st).2.
Proof.
  revert st. induction l as [|r l IH]; intros st; cbn [reconcile_each]; [apply kept_refl|].
  pose proof (reconcile_keep st r) as Hr. destruct (reconcileInMemory st r) as [[x|] st1]; [|done].
  specialize (IH st1). destruct (reconcile_each l st1) as [[y|] st2]; exact (kept_then _ _ _ Hr IH).
Qed.

(** The catalog. *)
Lemma catalog_keep `{UrlParts} st op : on_catalog op -> kept st (apply_catalog st op).
Proof.
  intros Ho Hst. pose proof (catalog_op_only st op Ho) as E. apply advances_keep; [done|].
  apply calm_advances; [apply Hst|]. unfold only_catalog in E. revert E.
  generalize (apply_catalog st op) as st'. intros st' E. apply calm_same; rewrite <- E; by destruct st'.
Qed.

Context {LL : LocaleCompareLaws LC}.

Lemma step_keeps st st' : plane_step st st' -> plane_ok st -> plane_ok st' /\ sessions_kept st st'.
Proof.
  intros Hs Hst. destruct (Hst) as [H Hok].
  assert (forall st st', own_inv st -> own_inv st' -> st ⪯ st' -> advances st st') as A by done.
  destruct Hs; lazymatch goal with
    | |- plane_ok (triggerSchedule _ _ _).2 /\ _ => by apply trigger_keep
    | |- plane_ok (evaluateCron _ _).2 /\ _ => by apply cron_keep
    | |- plane_ok (setRepositoryAdmissionDurable _ _ _).2 /\ _ => by apply admission_state_keep
    | |- plane_ok (drainRepositoryDurable _ _).2 /\ _ => by apply drain_keep
    | |- plane_ok (reconcileRepositoryDrainsDurable _).2 /\ _ => by apply reconcile_each_keep
    | |- plane_ok (enter_request _ _ _).2 /\ _ => by apply admission_keep
    | |- plane_ok (apply_catalog _ _) /\ _ => by apply catalog_keep
    | _ => apply advances_keep; [done|]
    end.
  - by apply calm_advances; [|apply calm_same].
  - by apply calm_advances; [|apply calm_same].
  - by apply rows_advance; [apply own_seed|apply quiet_persist_worktree].
  - by apply A; [|apply own_assign|apply se_assign].
  - by apply adv_assign_scheduled.
  - by apply adv_assign_workspace.
  - by apply A; [|apply own_ack_deadlines|apply se_ack_deadlines].
  - by apply A; [|apply own_running_timeouts|apply se_running_timeouts].
  - by apply A; [|apply own_cancel|apply se_cancel].
  - by apply A; [|apply own_ack|apply se_ack].
  - by apply A; [|apply own_command_start|apply se_command_start].
  - by apply A; [|apply own_handle_status|apply se_handle_status].
  - by apply adv_hook_complete.
  - by apply adv_register.
  - by eapply adv_reconcile_reported.
  - by apply adv_restore.
  - by apply adv_register_durable.
  - by apply adv_disconnect.
  - by apply calm_advances; [|apply calm_heartbeat].
  - by apply adv_keepalive.
  - by apply adv_stale_hosts.
  - by apply adv_reclaim_deadlines.
  - by apply adv_drain.
  - by apply adv_resume.
  - by apply adv_sync_worktrees.
  - by apply calm_advances; [|apply calm_sync_slots].
  - by apply adv_delete_host.
Qed.

Lemma steps_keep st st' : rtc plane_step st st' -> plane_ok st -> plane_ok st' /\ sessions_kept st st'.
Proof.
  induction 1 as [st|st1 st2 st3 Hstep _ IH]; intros H.
  - split; [done|]. intros k s G. exists s. split; [done|apply evolves_refl].
  - destruct (step_keeps _ _ Hstep H) as [H2 K2]. destruct (IH H2) as [H3 K3].
    split; [done|by eapply kept_trans].
Qed.

(** [C1] Worktrees are exclusive: from a consistent state, along any sequence of
    creations, resumes, clones, spawned children and fired schedules, registrations and their
    rollbacks, assignments of every kind, acknowledgements,
    command starts, status reports (late, stale or malformed), cancellations,
    terminal hooks, sweeps, heartbeats, drains of hosts and repositories, disconnections and host losses,
    changes and deletions in the catalog, in
    any order and with any clock, every session that names a worktree owns it and
    no two sessions ever name the same one. *)
Theorem worktree_exclusivity st st' :
  plane_ok st -> rtc plane_step st st' -> plane_ok st' /\ worktrees_exclusive st'.
Proof. intros H Hs. destruct (steps_keep _ _ Hs H) as [H' _]. split; [done|]. apply own_exclusive, H'. Qed.

(** [C2] Terminal statuses absorb: along any sequence of operations no session
    disappears or changes its identity (id, concurrency key, creation time,
    priority, type); one that is completed, cancelled or timed out keeps that
    status for ever, and so does a failed one unless its last assignment is still
    waiting for an acknowledgement. *)
Theorem terminal_status_absorbs st st' k s :
  plane_ok st -> rtc plane_step st st' -> JsMap.get k (Plane.sessions st) = Some s ->
  exists s', JsMap.get k (Plane.sessions st') = Some s' /\ identity s s' /\
    (settled (Session.status s) = true \/ Session.status s = failed /\ pending st k = false ->
     Session.status s' = Session.status s).
Proof.
  intros H Hs G. destruct (steps_keep _ _ Hs H) as [_ K]. destruct (K k s G) as (s' & G' & [I T _]).
  exists s'. split; [done|]. split; [done|]. intros Hend. apply T.
  - destruct Hend as [Hend|[-> _]]; [by destruct (Session.status s)|done].
  - destruct Hend as [Hend|[_ Hp]]; [|done]. destruct H as [_ Hok]. by apply (so_settled _ _ (Hok k s G)).
Qed.
End steps.

(** ** Witnesses *)
#[local] Existing Instance code_order.
#[local] Existing Instance iso_date_parse.
#[local] Existing Instance scheme_url.

(** The queued session of the small plane is consistent. *)
Lemma example_ok : plane_ok example_state.
Proof.
  split; [exact example_own|]. intros k s. simpl. unfold str_eqb. case_bool_decide; [|done]. intros [= <-].
  split; [done|done|done|]. split; [done|]. split; [done|]. intros _. done.
Qed.

(** The session runs, is acknowledged and its host is drained and lost. *)
Definition run_assigned : ControlPlaneState := (assignQueued example_state None).2.
Definition run_acknowledged : ControlPlaneState := (handleSessionAck run_assigned "s1" (Some "w1") "attempt-0").2.
Definition run_cancelled : ControlPlaneState := (cancelSession run_acknowledged "s1").2.
Definition run_lost : ControlPlaneState := (disconnectHost run_cancelled "c1").2.

Lemma worktree_exclusivity_witness :
  worktrees_exclusive run_acknowledged /\ length (Plane.outbox run_acknowledged) = 2%nat /\
  Session.worktreeId <$> JsMap.get "s1" (Plane.sessions run_acknowledged) = Some (Val "w1").
Proof.
  split; [|split; vm_compute; reflexivity].
  refine (proj2 (worktree_exclusivity example_state run_acknowledged example_ok _)).
  apply (rtc_l _ _ run_assigned); [exact (step_assign example_state None)|].
  apply rtc_once. exact (step_ack run_assigned "s1" (Some "w1") "attempt-0").
Defined.

Lemma run_cancelled_reachable : rtc plane_step example_state run_cancelled.
Proof.
  apply (rtc_l _ _ run_assigned); [exact (step_assign example_state None)|].
  apply (rtc_l _ _ run_acknowledged); [exact (step_ack run_assigned "s1" (Some "w1") "attempt-0")|].
  apply rtc_once. exact (step_cancel run_acknowledged "s1").
Qed.

Lemma run_cancelled_ok : plane_ok run_cancelled.
Proof. exact (proj1 (steps_keep _ _ run_cancelled_reachable example_ok)). Qed.

Lemma terminal_status_absorbs_witness :
  exists s s', JsMap.get "s1" (Plane.sessions run_cancelled) = Some s /\ Session.status s = cancelled /\
    JsMap.get "s1" (Plane.sessions run_lost) = Some s' /\ Session.status s' = cancelled.
Proof.
  assert (Session.status <$> JsMap.get "s1" (Plane.sessions run_cancelled) = Some cancelled) as E
    by (vm_compute; reflexivity).
  destruct (JsMap.get "s1" (Plane.sessions run_cancelled)) as [s|] eqn:G; [|discriminate E].
  assert (Session.status s = cancelled) as Es by (injection E as E; exact E).
  destruct (terminal_status_absorbs run_cancelled run_lost "s1" s run_cancelled_ok
    (rtc_once _ _ (step_disconnect run_cancelled "c1")) G) as (s' & G' & _ & T).
  exists s, s'. split; [reflexivity|]. split; [exact Es|]. split; [exact G'|].
  rewrite T; [exact Es|]. left. rewrite Es. reflexivity.
Defined.
