(* ===== verification/Divergences.v ===== *)
(** * Where the code departs from its documents

    Concrete runs of the model, each replaying a sequence of operations of the
    source on the small plane of [SessionTarget] and ending in a state that a
    comment or a document excludes. *)

From Stdlib Require Import ZArith Lia Ascii String.
From stdpp Require Import base strings list.
From S2P Require Import Prelude DateTime Types Ordering TransitionPlanner ProviderCascade SessionTarget.
From S2P Require Import AccountLeases Placement SessionOutcome Worktrees Assignment HostMessages.
From S2P Require Import Registration Inventory Reconnect HostLifecycle Ownership.
From S2P Require Import Validation SessionCreate ScheduleFire Schedules RepositoryDrain.

Local Open Scope string_scope.
Local Open Scope Z_scope.

#[local] Existing Instance code_order.
#[local] Existing Instance iso_date_parse.
#[local] Existing Instance scheme_url.

(** What a plane says of a session and of a worktree. *)
Definition session_view (st : ControlPlaneState) (k : string) : option (SessionStatus * nullable string) :=
  (fun s => (Session.status s, Session.worktreeId s)) <$> JsMap.get k (Plane.sessions st).

Definition worktree_view (st : ControlPlaneState) (k : string) : option (WorktreeStatus * bool) :=
  (fun w => (Worktree.status w, Worktree.online w)) <$> JsMap.get k (Plane.worktrees st).

(** ** A registration of host [h1] *)
Definition example_opts : RegisterOpts :=
  Opts.mkRegisterOpts "h1" [RegWt.mkRegisteredWorktree "w1" "one" "repo" "/repo/.worktrees/one" ["gpu"]]
    (Some [RepoReg.mkHostRepositoryRegistration "repo" "/repo" None]) None None None None None None
    (Some 7) None (Some example_runtime) false true None.

(** The inventory of the small plane. *)
Definition example_host : HostInventory :=
  setScopeProviderEnabled example_inventory (mkScope "repo" (Some "w1")) "acct" (Some true).

(** *** The operator's update settings do not survive a registration *)
Definition update_state : ControlPlaneState :=
  set_inventory example_state "h1"
    (example_host <| Inventory.updateConfig := Some (UpdateConfig.mkHostUpdateConfig false None None None None None) |>
                  <| Inventory.setupScript := Some "./setup.sh" |>).

Theorem registration_drops_update_config :
  (registerHost update_state example_opts).1 = inr "conn-0" /\
  (h ← JsMap.get "h1" (Plane.hostInventories (registerHost update_state example_opts).2);
   Inventory.setupScript h) = Some "./setup.sh" /\
  (h ← JsMap.get "h1" (Plane.hostInventories (registerHost update_state example_opts).2);
   Inventory.updateConfig h) = None.
Proof. vm_compute. done. Qed.

(** *** A host deleted and configured again while a session runs *)
Definition shared_state : ControlPlaneState :=
  example_state <| Plane.sessions :=
    [("s1", example_session "s1" 0 0 "2026-01-01T00:00:00.000Z");
     ("s2", example_session "s2" 0 0 "2026-01-01T00:00:01.000Z")] |>.

Definition first_assigned : ControlPlaneState := (assignQueued shared_state None).2.

Definition configured_again : ControlPlaneState :=
  syncWorktreesFromHost (set_inventory (deleteHostInventory first_assigned "h1" None).2 "h1" example_host)
    example_host.

Lemma views_share st :
  session_view st "s1" = Some (running, Val "w1") -> session_view st "s2" = Some (running, Val "w1") ->
  ~ worktrees_exclusive st.
Proof.
  intros E1 E2 X. apply fmap_Some in E1 as (a & G1 & E1). apply fmap_Some in E2 as (b & G2 & E2).
  assert (("s1" : string) = "s2") as C; [|discriminate C].
  apply (X "s1" "s2" a b "w1"); [exact G1|exact G2|congruence|congruence|discriminate].
Qed.

(** The deletion succeeds although worktree [w1] is busy; when the same inventory is
    stored again the row comes back idle and the next pass gives it to [s2] while [s1]
    still runs in it. *)
Theorem deleted_host_shares_worktree :
  session_view first_assigned "s1" = Some (running, Val "w1") /\
  (deleteHostInventory first_assigned "h1" None).1 = delete_ok /\
  session_view (assignQueued configured_again None).2 "s1" = Some (running, Val "w1") /\
  session_view (assignQueued configured_again None).2 "s2" = Some (running, Val "w1") /\
  ~ worktrees_exclusive (assignQueued configured_again None).2.
Proof.
  assert (session_view (assignQueued configured_again None).2 "s1" = Some (running, Val "w1")) as E1
    by (vm_compute; reflexivity).
  assert (session_view (assignQueued configured_again None).2 "s2" = Some (running, Val "w1")) as E2
    by (vm_compute; reflexivity).
  split; [vm_compute; reflexivity|]. split; [vm_compute; reflexivity|].
  split; [exact E1|]. split; [exact E2|]. exact (views_share _ E1 E2).
Qed.

(** *** Resuming a host is not the inverse of draining it *)
Definition retained_worktree : WorktreeRecord :=
  Worktree.mkWorktree "w2" "two" "h1" "old" "/old/.worktrees/two" [] idle true Null None Undef.

(** The inventory keeps repository [old], which the daemon no longer serves. *)
Definition retained_state : ControlPlaneState :=
  (set_inventory example_state "h1"
    (example_host <| Inventory.repositories :=
       (Inventory.repositories example_host ++
        [HRepository.mkHostRepository "old" "/old" "main"
           [HWorktree.mkHostWorktree "w2" "two" "/old/.worktrees/two" [] None None None None]
           None None None None None])%list |>))
  <| Plane.worktrees := [("w1", example_worktree); ("w2", retained_worktree)] |>.

Definition registered_state : ControlPlaneState := (registerHost retained_state example_opts).2.

Theorem resume_is_not_inverse :
  worktree_view registered_state "w2" = Some (idle, false) /\
  worktree_view (drainHost registered_state "h1" None).2 "w2" = Some (idle, false) /\
  worktree_view (resumeHost (drainHost registered_state "h1" None).2 "h1" None).2 "w2" = Some (idle, true).
Proof. vm_compute. done. Qed.

(** *** A worktree is released before its handoff is disposed of *)
Definition lost_state : ControlPlaneState :=
  let st := (assignQueued example_state None).2 in
  let st := (handleSessionAck st "s1" (Some "w1") "attempt-0").2 in
  let st := (handleCommandStart st "s1" (Some "w1") "attempt-0").2 in
  let st := (disconnectHost st "c1").2 in
  (reclaimReconnectDeadlines st 1767312300000).2.

Theorem reclaimed_worktree_keeps_handoff :
  session_view lost_state "s1" = Some (failed, Null) /\
  (s ← JsMap.get "s1" (Plane.sessions lost_state); h ← Session.terminalHookHandoff s; Handoff.worktreeId h)
    = Some "w1" /\
  worktree_view lost_state "w1" = Some (idle, false) /\
  (w ← JsMap.get "w1" (Plane.worktrees lost_state); nul_opt (Worktree.currentSessionId w)) = None.
Proof. vm_compute. done. Qed.

(** *** A schedule whose timeout no session may have *)
Definition endless_put : ScheduleInput :=
  mkScheduleInput (Some "repo") None Undef Undef None None "Nightly" (Some (JObject [("commandId", JString "cmd-wt")]))
    None "0 * * * *" 0 None None None None None None (Some "nightly") (Some "alice").

Definition endless_state : ControlPlaneState := (putScheduleDurable example_state "drawn" endless_put).2.

(** It is stored, and no claim ever creates its session or moves its cursor. *)
Theorem unchecked_timeout_never_fires :
  Schedule.timeout <$> JsMap.get "nightly" (Plane.schedules endless_state) = Some 0 /\
  forall expected nowIso, tryClaimScheduleFire endless_state "nightly" expected nowIso = (Some None, endless_state).
Proof.
  split; [vm_compute; reflexivity|]. intros expected nowIso.
  assert (exists s, JsMap.get "nightly" (Plane.schedules endless_state) = Some s /\ Schedule.enabled s = true /\
    before_activation endless_state s expected = false /\ (exists names, resolveScheduledTarget endless_state s = valid names) /\
    createSession endless_state (scheduledSessionInput endless_state s) true (mkCreateOptions false false) =
      (refused "timeout must be a positive number of seconds" None, endless_state)) as (s & G & Hen & Hb & (names & Hn) & Hc)
    by (eexists; split; [vm_compute; reflexivity|]; repeat split; try (eexists; vm_compute; reflexivity); vm_compute; reflexivity).
  unfold tryClaimScheduleFire. rewrite G, Hen. cbn [negb].
  destruct (nextRunAt s nowIso) as [cursor|]; [|done]. destruct (negb _); [done|]. destruct (date_gt _ _); [done|].
  by rewrite Hb, Hn, Hc.
Qed.

(** *** A create request takes over a schedule of another owner *)
Definition other_put : ScheduleInput :=
  mkScheduleInput (Some "repo") None Undef Undef None None "Mine" (Some (JObject [("commandId", JString "cmd-wt")]))
    None "0 * * * *" 600 None None None None None (Some "other work") (Some "nightly") (Some "mallory").

(** The id of a create request may be that of a stored schedule, which is replaced with its owner;
    the same change as an update is refused. *)
Theorem create_takes_over_schedule :
  (fun s => (Schedule.principalId s, Schedule.prompt s)) <$> JsMap.get "nightly" (Plane.schedules put_state)
    = Some (Some "alice", Some "sweep") /\
  (fun s => (Schedule.principalId s, Schedule.prompt s)) <$>
    JsMap.get "nightly" (Plane.schedules (putScheduleDurable put_state "drawn" other_put).2)
    = Some (Some "mallory", Some "other work") /\
  (updateSchedule put_state "nightly" (mkSchedulePatch Undef None Undef Undef None None None None None None None None None
     None None None (Some "other work") (Some "mallory"))).1 = refused "schedule ownership cannot be transferred" None.
Proof. vm_compute. done. Qed.

(** *** A refused activation moves the schedules *)

(** The session runs in a worktree of the repository, so the drain stays open. *)
Definition draining_state : ControlPlaneState :=
  (drainRepositoryDurable (assignQueued put_state None).2 "repo").2 <| Plane.now := JsDate.toISOString fire_instant |>.

(** Opening the repository is refused while it drains, yet its due schedule has lost the
    occurrence. *)
Theorem refused_activation_skips_schedule :
  (setRepositoryAdmissionDurable draining_state "repo" true).1 =
    refused "repository drain is not complete" (Some "CONFLICT") /\
  Schedule.nextRunAt <$> JsMap.get "nightly" (Plane.schedules draining_state) = Some "2026-01-01T01:00:00.000Z" /\
  Schedule.nextRunAt <$> JsMap.get "nightly" (Plane.schedules (setRepositoryAdmissionDurable draining_state "repo" true).2)
    = Some "2026-01-01T02:00:00.000Z".
Proof. vm_compute. done. Qed.
