(* ===== verification/OutboundBuffer.v ===== *)
(** * The daemon's outbound buffer

    services/host-daemon/src/ws-outbound-buffer.ts and the parts of
    ws-transport.ts that drive it ([pump], [settleInflight], [send], [close]).
    The class is asynchronous: a call of [enqueueRetained] that finds no room is
    suspended and tries again after the capacity signal it awaits is resolved.
    The model keeps the suspended calls as part of the state and has one
    operation per uninterrupted run of code; [transport_step] interleaves them
    in every way the event loop can. *)

From Stdlib Require Import ZArith Lia Ascii String Sorting.Sorted.
From stdpp Require Import base strings list relations.
From S2P Require Import Prelude Types Ordering CommandResume SessionOutcome.

Local Open Scope string_scope.
Local Open Scope Z_scope.

(** ** Frames *)

(** [Buffer.byteLength(JSON.stringify(message))]. *)
Definition message_bytes (m : json) : Z := utf8_length (stringify m).

Lemma message_bytes_nonneg m : 0 <= message_bytes m.
Proof. apply utf8_length_nonneg. Qed.

Definition message_type (m : json) : string :=
  match m with
  | JObject entries => match JsMap.get "type" entries with Some (JString t) => t | _ => "" end
  | _ => ""
  end.

Definition is_log (m : json) : bool := str_eqb (message_type m) "session:log".
Definition is_keepalive (m : json) : bool := str_eqb (message_type m) "host:keepalive".

Definition MAX_ITEMS : Z := 1000.
Definition MAX_BYTES : Z := 4 * 1024 * 1024.

(** How a delivery promise was settled. *)
Inductive RejectReason :=
| transport_closed | frame_too_large | buffer_full | frame_cancelled | log_evicted | write_failed.

Inductive Outcome := resolved | rejected (reason : RejectReason).

(** ** State *)

(** A queued or in-flight frame.  [uid] is the object's identity and numbers the
    frames in the order of the calls of [enqueue]; the promise [delivery] is looked up by it. *)
Module Item.
Record WsBufferItem := mkItem {
  uid : nat;
  message : json;
  bytes : Z;
  nonDroppable : bool;
  signal : option nat;
  (** [bytes] as the [abort] listener captured it. *)
  captured : Z;
}.
End Item.
Notation WsBufferItem := Item.WsBufferItem.

(** A suspended call of [enqueueRetained]: its local variables and the capacity signal it awaits. *)
Module Waiter.
Record Waiter := mkWaiter {
  ticket : nat;
  uid : nat;
  message : json;
  bytes : Z;
  signal : option nat;
  awaits : nat;
}.
End Waiter.
Notation Waiter := Waiter.Waiter.

Module Buf.
Record WsOutboundBuffer := mkBuffer {
  items : list WsBufferItem;
  inflight : list WsBufferItem;
  nextAdmissionTicket : nat;
  admissionTurn : nat;
  cancelledTickets : list nat;
  (** [capacity]: the number of signals resolved so far. *)
  capacity : nat;
  closed : bool;
  bytes : Z;
  (** The suspended calls, oldest first. *)
  waiting : list Waiter;
  (** Frames so far: the calls of [enqueue] but for those that replaced a queued keepalive. *)
  calls : nat;
  (** Settled deliveries, in order. *)
  deliveries : list (nat * Outcome);
  (** Calls of [onDrop], in order. *)
  dropped : list json;
  (** The [AbortSignal]s that fired. *)
  aborted : list nat;
  (** What each call of [enqueue] so far was given, in order, with the number of the frame it
      stands for: a new one, or that of the keepalive it replaced. *)
  sent : list (nat * json);
}.

#[global] Instance eta_buffer : Eta WsOutboundBuffer := fun r => mkBuffer (items r) (inflight r)
  (nextAdmissionTicket r) (admissionTurn r) (cancelledTickets r) (capacity r) (closed r) (bytes r)
  (waiting r) (calls r) (deliveries r) (dropped r) (aborted r) (sent r).

#[global] Instance set_items : Setter items := ltac:(derive_setter).
#[global] Instance set_inflight : Setter inflight := ltac:(derive_setter).
#[global] Instance set_nextAdmissionTicket : Setter nextAdmissionTicket := ltac:(derive_setter).
#[global] Instance set_admissionTurn : Setter admissionTurn := ltac:(derive_setter).
#[global] Instance set_cancelledTickets : Setter cancelledTickets := ltac:(derive_setter).
#[global] Instance set_capacity : Setter capacity := ltac:(derive_setter).
#[global] Instance set_closed : Setter closed := ltac:(derive_setter).
#[global] Instance set_bytes : Setter bytes := ltac:(derive_setter).
#[global] Instance set_waiting : Setter waiting := ltac:(derive_setter).
#[global] Instance set_calls : Setter calls := ltac:(derive_setter).
#[global] Instance set_deliveries : Setter deliveries := ltac:(derive_setter).
#[global] Instance set_dropped : Setter dropped := ltac:(derive_setter).
#[global] Instance set_aborted : Setter aborted := ltac:(derive_setter).
#[global] Instance set_sent : Setter sent := ltac:(derive_setter).
End Buf.
Notation WsOutboundBuffer := Buf.WsOutboundBuffer.

Definition new_buffer : WsOutboundBuffer := Buf.mkBuffer [] [] 0 0 [] 0 false 0 [] 0 [] [] [] [].

(** ** Helpers *)
Definition is_aborted (b : WsOutboundBuffer) (signal : option nat) : bool :=
  match signal with Some g => existsb (Nat.eqb g) (Buf.aborted b) | None => false end.

Definition buffer_length (b : WsOutboundBuffer) : Z :=
  Z.of_nat (List.length (Buf.items b)) + Z.of_nat (List.length (Buf.inflight b)).

Definition fits (b : WsOutboundBuffer) (bytes : Z) : bool :=
  (buffer_length b <? MAX_ITEMS) && (Buf.bytes b + bytes <=? MAX_BYTES).

Definition notifyCapacity (b : WsOutboundBuffer) : WsOutboundBuffer :=
  b <| Buf.capacity := S (Buf.capacity b) |>.

Definition hasWaitingAdmission (b : WsOutboundBuffer) : bool :=
  negb (Nat.eqb (Buf.nextAdmissionTicket b) (Buf.admissionTurn b)).

Definition drop (b : WsOutboundBuffer) (m : json) : WsOutboundBuffer :=
  b <| Buf.dropped := (Buf.dropped b ++ [m])%list |>.

(** [finishResolve] and [finishReject]: a settled promise stays as it is. *)
Definition settle (b : WsOutboundBuffer) (uid : nat) (o : Outcome) : WsOutboundBuffer :=
  if existsb (fun d => Nat.eqb uid d.1) (Buf.deliveries b) then b
  else b <| Buf.deliveries := (Buf.deliveries b ++ [(uid, o)])%list |>.

(** A new frame. *)
Definition call (b : WsOutboundBuffer) (m : json) : nat * WsOutboundBuffer :=
  (Buf.calls b, b <| Buf.calls := S (Buf.calls b) |> <| Buf.sent := (Buf.sent b ++ [(Buf.calls b, m)])%list |>).

Definition remove_item (uid : nat) (l : list WsBufferItem) : list WsBufferItem :=
  List.filter (fun i => negb (Nat.eqb (Item.uid i) uid)) l.

Definition remove_waiter (ticket : nat) (l : list Waiter) : list Waiter :=
  List.filter (fun w => negb (Nat.eqb (Waiter.ticket w) ticket)) l.

(** The call awaits the current capacity signal again. *)
Definition wait_again (b : WsOutboundBuffer) (ticket : nat) : WsOutboundBuffer :=
  b <| Buf.waiting := map (fun w => if Nat.eqb (Waiter.ticket w) ticket
         then Waiter.mkWaiter (Waiter.ticket w) (Waiter.uid w) (Waiter.message w) (Waiter.bytes w)
                (Waiter.signal w) (Buf.capacity b)
         else w) (Buf.waiting b) |>.

(** [while (cancelledTickets.delete(admissionTurn)) admissionTurn++]. *)
Fixpoint skip_cancelled (fuel : nat) (b : WsOutboundBuffer) : WsOutboundBuffer :=
  match fuel with
  | O => b
  | S fuel =>
      if existsb (Nat.eqb (Buf.admissionTurn b)) (Buf.cancelledTickets b)
      then skip_cancelled fuel
             (b <| Buf.cancelledTickets := List.filter (fun t => negb (Nat.eqb t (Buf.admissionTurn b)))
                                             (Buf.cancelledTickets b) |>
                <| Buf.admissionTurn := S (Buf.admissionTurn b) |>)
      else b
  end.

Definition advanceAdmissionTurn (b : WsOutboundBuffer) : WsOutboundBuffer :=
  skip_cancelled (List.length (Buf.cancelledTickets b)) (b <| Buf.admissionTurn := S (Buf.admissionTurn b) |>).

Definition droppable (i : WsBufferItem) : bool := is_log (Item.message i) && negb (Item.nonDroppable i).

(** A call of [enqueue] that takes a ticket and is suspended at once: the part of
    [enqueueRetained] before its first [await] when the turn is not its own. *)
Definition suspend (b : WsOutboundBuffer) (m : json) (bytes : Z) (signal : option nat)
    : WsOutboundBuffer :=
  let '(uid, b) := call b m in
  let ticket := Buf.nextAdmissionTicket b in
  b <| Buf.nextAdmissionTicket := S ticket |>
    <| Buf.waiting := (Buf.waiting b ++ [Waiter.mkWaiter ticket uid m bytes signal (Buf.capacity b)])%list |>.

(** The notice, if any, that [onDrop] enqueues in answer to a frame dropped while the owner
    of the turn is evicting: it takes a later ticket and is suspended. *)
Definition answer (reply : json -> option json) (b : WsOutboundBuffer) (m : json) : WsOutboundBuffer :=
  match reply m with
  | Some notice =>
      if MAX_BYTES <? message_bytes notice
      then let '(uid, b) := call b notice in settle b uid (rejected frame_too_large)
      else suspend b notice (message_bytes notice) None
  | None => b
  end.

Fixpoint evict (fuel : nat) (reply : json -> option json) (b : WsOutboundBuffer) (bytes : Z)
    : WsOutboundBuffer :=
  match fuel with
  | O => b
  | S fuel =>
      if fits b bytes then b
      else
        match List.find droppable (Buf.items b) with
        | None => b
        | Some i =>
            let b := b <| Buf.items := remove_item (Item.uid i) (Buf.items b) |>
                       <| Buf.bytes := Buf.bytes b - Item.bytes i |> in
            let b := answer reply (drop b (Item.message i)) (Item.message i) in
            evict fuel reply (settle b (Item.uid i) (rejected log_evicted)) bytes
        end
  end.

(** Every turn of the loop removes an item. *)
Definition evictLogsUntilFits (reply : json -> option json) (b : WsOutboundBuffer) (bytes : Z)
    : WsOutboundBuffer := evict (S (List.length (Buf.items b))) reply b bytes.

Definition admit_item (b : WsOutboundBuffer) (i : WsBufferItem) : WsOutboundBuffer :=
  b <| Buf.items := (Buf.items b ++ [i])%list |> <| Buf.bytes := Buf.bytes b + Item.bytes i |>.

Definition enqueueAdmitted (b : WsOutboundBuffer) (uid : nat) (m : json) (bytes : Z) (nonDroppable : bool)
    (signal : option nat) : WsOutboundBuffer :=
  if is_aborted b signal then settle b uid (rejected frame_cancelled)
  else notifyCapacity (admit_item b (Item.mkItem uid m bytes nonDroppable signal bytes)).

(** The call is no longer suspended. *)
Definition without_waiter (b : WsOutboundBuffer) (w : Waiter) : WsOutboundBuffer :=
  b <| Buf.waiting := remove_waiter (Waiter.ticket w) (Buf.waiting b) |>.

(** One turn of the loop of [enqueueRetained], for the suspended call [w]. *)
Definition admission (reply : json -> option json) (b : WsOutboundBuffer) (w : Waiter) : WsOutboundBuffer :=
  if Buf.closed b then settle (without_waiter b w) (Waiter.uid w) (rejected transport_closed)
  else if is_aborted b (Waiter.signal w) then
    let b := (without_waiter b w)
               <| Buf.cancelledTickets := (Buf.cancelledTickets b ++ [Waiter.ticket w])%list |> in
    let b := if Nat.eqb (Waiter.ticket w) (Buf.admissionTurn b) then advanceAdmissionTurn b else b in
    settle (notifyCapacity b) (Waiter.uid w) (rejected frame_cancelled)
  else if negb (Nat.eqb (Waiter.ticket w) (Buf.admissionTurn b)) then wait_again b (Waiter.ticket w)
  else
    let b := evictLogsUntilFits reply b (Waiter.bytes w) in
    if negb (fits b (Waiter.bytes w)) then wait_again b (Waiter.ticket w)
    else
      notifyCapacity
        (enqueueAdmitted (advanceAdmissionTurn (without_waiter b w)) (Waiter.uid w) (Waiter.message w)
           (Waiter.bytes w) true (Waiter.signal w)).

(** ** The public operations *)

(** The queued keepalive that a newer one replaces. *)
Definition coalesceQueuedKeepalive (b : WsOutboundBuffer) (m : json) (bytes : Z)
    : option (nat * WsOutboundBuffer) :=
  if negb (is_keepalive m) then None
  else
    match List.find (fun i => is_keepalive (Item.message i)) (Buf.items b) with
    | None => None
    | Some e =>
        let total := Buf.bytes b - Item.bytes e + bytes in
        if MAX_BYTES <? total then None
        else
          let newer i := if Nat.eqb (Item.uid i) (Item.uid e)
            then Item.mkItem (Item.uid i) m bytes (Item.nonDroppable i) (Item.signal i) (Item.captured i) else i in
          Some (Item.uid e,
                notifyCapacity (b <| Buf.bytes := total |> <| Buf.items := map newer (Buf.items b) |>
                                  <| Buf.sent := (Buf.sent b ++ [(Item.uid e, m)])%list |>))
    end.

(** The identity of the promise that is returned, and the buffer.  A frame that is dropped
    here is reported to [onDrop] last, so that whatever notice the callback enqueues is the
    next operation. *)
Definition enqueue (reply : json -> option json) (b : WsOutboundBuffer) (m : json) (nonDroppable : bool)
    (signal : option nat) : nat * WsOutboundBuffer :=
  let refuse b reason := let '(uid, b) := call b m in (uid, settle b uid (rejected reason)) in
  if Buf.closed b then refuse b transport_closed
  else
    let bytes := message_bytes m in
    let retained := nonDroppable || negb (is_log m) in
    if MAX_BYTES <? bytes then refuse (if retained then b else drop b m) frame_too_large
    else
      match coalesceQueuedKeepalive b m bytes with
      | Some out => out
      | None =>
          if negb retained && (hasWaitingAdmission b || negb (fits b bytes))
          then refuse (drop b m) buffer_full
          else if retained then
            let uid := Buf.calls b in
            let ticket := Buf.nextAdmissionTicket b in
            (uid, admission reply (suspend b m bytes signal)
                    (Waiter.mkWaiter ticket uid m bytes signal (Buf.capacity b)))
          else let '(uid, b) := call b m in (uid, enqueueAdmitted b uid m bytes retained signal)
      end.

Definition take (b : WsOutboundBuffer) : option WsBufferItem * WsOutboundBuffer :=
  match Buf.items b with
  | [] => (None, b)
  | i :: rest => (Some i, b <| Buf.items := rest |> <| Buf.inflight := (Buf.inflight b ++ [i])%list |>)
  end.

Definition putBack (b : WsOutboundBuffer) (i : WsBufferItem) : WsOutboundBuffer :=
  b <| Buf.inflight := remove_item (Item.uid i) (Buf.inflight b) |> <| Buf.items := i :: Buf.items b |>.

Definition complete (b : WsOutboundBuffer) (i : WsBufferItem) : WsOutboundBuffer :=
  if existsb (fun j => Nat.eqb (Item.uid j) (Item.uid i)) (Buf.inflight b)
  then notifyCapacity (b <| Buf.inflight := remove_item (Item.uid i) (Buf.inflight b) |>
                         <| Buf.bytes := Buf.bytes b - Item.bytes i |>)
  else b.

Definition settle_all (b : WsOutboundBuffer) (l : list WsBufferItem) (o : Outcome) : WsOutboundBuffer :=
  fold_left (fun b i => settle b (Item.uid i) o) l b.

Definition rejectAll (b : WsOutboundBuffer) : WsOutboundBuffer :=
  let b := b <| Buf.closed := true |> in
  let b := settle_all b (Buf.items b) (rejected transport_closed) in
  let b := settle_all b (Buf.inflight b) (rejected transport_closed) in
  notifyCapacity (b <| Buf.items := [] |> <| Buf.inflight := [] |> <| Buf.bytes := 0 |>).

(** The [abort] listener of a frame that is still queued; the listeners of the others
    change nothing. *)
Definition cancel_item (b : WsOutboundBuffer) (i : WsBufferItem) : WsOutboundBuffer :=
  notifyCapacity
    (settle (b <| Buf.items := remove_item (Item.uid i) (Buf.items b) |>
               <| Buf.bytes := Buf.bytes b - Item.captured i |>)
       (Item.uid i) (rejected frame_cancelled)).

(** [signal] fires. *)
Definition abort (b : WsOutboundBuffer) (signal : nat) : WsOutboundBuffer :=
  fold_left cancel_item
    (List.filter (fun i => bool_decide (Item.signal i = Some signal)) (Buf.items b))
    (b <| Buf.aborted := signal :: Buf.aborted b |>).

(** ** The transport *)

(** [inflight] of the transport is the frame whose write is pending. *)
Module Link.
Record Transport := mkTransport {
  buffer : WsOutboundBuffer;
  writing : option WsBufferItem;
  shut : bool;
}.
End Link.
Notation Transport := Link.Transport.

Definition new_transport : Transport := Link.mkTransport new_buffer None false.

Definition settleInflight (t : Transport) (i : WsBufferItem) (failed : bool) : Transport :=
  let b := Link.buffer t in
  let done b o := Link.mkTransport (settle (complete b i) (Item.uid i) o) None (Link.shut t) in
  if is_aborted b (Item.signal i) then done b (rejected frame_cancelled)
  else if failed then
    if droppable i then done (drop b (Item.message i)) (rejected write_failed)
    else if Link.shut t then done b (rejected write_failed)
    else Link.mkTransport (putBack b i) None (Link.shut t)
  else done b resolved.

(** [open_] tells whether the socket is open and registered. *)
Definition pump (t : Transport) (open_ : bool) : Transport :=
  match Link.writing t with
  | Some _ => t
  | None =>
      if negb open_ then t
      else let '(i, b) := take (Link.buffer t) in Link.mkTransport b i (Link.shut t)
  end.

(** [send] up to the pump: the promise it returns, or [None] when it throws because the
    transport is closed and for a [host:register], which does not go through the buffer. *)
Definition send (reply : json -> option json) (t : Transport) (m : json) (nonDroppable : bool)
    (signal : option nat) : option nat * Transport :=
  if Link.shut t || str_eqb (message_type m) "host:register" then (None, t)
  else
    let '(uid, b) := enqueue reply (Link.buffer t) m nonDroppable signal in
    (Some uid, Link.mkTransport b (Link.writing t) (Link.shut t)).

(** [close]: the pending write is settled with the socket, then the rest is rejected. *)
Definition close (t : Transport) : Transport :=
  let t := Link.mkTransport (Link.buffer t) (Link.writing t) true in
  let t := match Link.writing t with Some i => settleInflight t i true | None => t end in
  Link.mkTransport (rejectAll (Link.buffer t)) (Link.writing t) (Link.shut t).

(** A suspended call may run again when the signal it awaits was resolved or its own
    abort signal fired. *)
Definition runnable (b : WsOutboundBuffer) (w : Waiter) : bool :=
  (Waiter.awaits w <? Buf.capacity b)%nat || is_aborted b (Waiter.signal w).

(** One uninterrupted run of code.  The daemon sends a keepalive without a signal
    (daemon-loop.ts, [keepalive]). *)
Inductive transport_step : Transport -> Transport -> Prop :=
| step_send reply t m nonDroppable signal :
    (is_keepalive m = true -> signal = None) -> transport_step t (send reply t m nonDroppable signal).2
| step_wake reply t w :
    In w (Buf.waiting (Link.buffer t)) -> runnable (Link.buffer t) w = true ->
    transport_step t
      (Link.mkTransport (admission reply (Link.buffer t) w) (Link.writing t) (Link.shut t))
| step_pump t open_ : transport_step t (pump t open_)
| step_settle t i failed : Link.writing t = Some i -> transport_step t (settleInflight t i failed)
| step_abort t signal :
    transport_step t (Link.mkTransport (abort (Link.buffer t) signal) (Link.writing t) (Link.shut t))
| step_close t : transport_step t (close t).

Definition reachable (t : Transport) : Prop := rtc transport_step new_transport t.

(** ** Order and accounting *)

(** The calls whose frame is in flight, queued or suspended, in the order they will be sent. *)
Definition queue_uids (b : WsOutboundBuffer) : list nat :=
  (map Item.uid (Buf.inflight b) ++ map Item.uid (Buf.items b) ++ map Waiter.uid (Buf.waiting b))%list.

Definition is_resolved (d : nat * Outcome) : bool := match d.2 with resolved => true | _ => false end.

(** The calls whose frame was written, in the order of the writes. *)
Definition resolved_uids (b : WsOutboundBuffer) : list nat :=
  map fst (List.filter is_resolved (Buf.deliveries b)).

(** Frames are written in the order of the calls, and every call is in exactly one place;
    those of [held] are between two places. *)
Record order_but (held : list nat) (b : WsOutboundBuffer) : Prop := {
  oo_sorted : StronglySorted lt (resolved_uids b ++ queue_uids b);
  oo_account : (map fst (Buf.deliveries b) ++ held ++ queue_uids b)%list ≡ₚ seq 0 (Buf.calls b);
}.

Definition order_ok : WsOutboundBuffer -> Prop := order_but [].

Definition without (u : nat) (l : list nat) : list nat := List.filter (fun v => negb (Nat.eqb v u)) l.

Lemma sorted_app l1 l2 : StronglySorted lt (l1 ++ l2) <->
  StronglySorted lt l1 /\ StronglySorted lt l2 /\ forall x y, In x l1 -> In y l2 -> (x < y)%nat.
Proof.
  induction l1 as [|x l1 IH]; simpl.
  - split; [intros H; split; [constructor|by split]|by intros (_ & H & _)].
  - split.
    + inversion_clear 1 as [|? ? H1 H2]. apply IH in H1 as (S1 & S2 & D). rewrite Forall_app in H2. destruct H2 as [F1 F2].
      split; [by constructor|]. split; [done|]. intros a c [<-|Ha] Hc; [|by apply D].
      rewrite Forall_forall in F2. apply F2. by apply list_elem_of_In.
    + intros (S1 & S2 & D). inversion_clear S1 as [|? ? H1 H2]. constructor.
      * apply IH. split; [done|]. split; [done|]. intros a c Ha Hc. apply D; [by right|done].
      * apply Forall_app. split; [done|]. apply Forall_forall. intros c Hc. apply D; [by left|by apply list_elem_of_In].
Qed.

Lemma sorted_without u l : StronglySorted lt l -> StronglySorted lt (without u l).
Proof.
  induction 1 as [|x l H IH F]; simpl; [constructor|]. destruct (negb _); [|done]. constructor; [done|].
  rewrite Forall_forall in F |- *. intros y Hy. apply F. apply list_elem_of_In in Hy. apply filter_In in Hy as [Hy _].
  by apply list_elem_of_In.
Qed.

Lemma without_In u v l : In v (without u l) <-> In v l /\ v <> u.
Proof. unfold without. rewrite filter_In, negb_true_iff, Nat.eqb_neq. done. Qed.

Lemma without_id u l : ~ In u l -> without u l = l.
Proof.
  induction l as [|x l IH]; simpl; [done|]. intros H. destruct (Nat.eqb_spec x u) as [->|]; [by destruct H; left|].
  simpl. rewrite IH; [done|]. intros Hin. apply H. by right.
Qed.

Lemma without_perm u l : List.NoDup l -> In u l -> l ≡ₚ u :: without u l.
Proof.
  induction 1 as [|x l Hx _ IH]; simpl; [done|]. destruct (Nat.eqb_spec x u) as [->|Hne]; simpl.
  - intros _. by rewrite without_id.
  - intros [->|Hin]; [done|]. rewrite (IH Hin) at 1. constructor.
Qed.

Lemma without_app u l1 l2 : without u (l1 ++ l2) = (without u l1 ++ without u l2)%list.
Proof. apply List.filter_app. Qed.

Lemma sorted_NoDup l : StronglySorted lt l -> List.NoDup l.
Proof.
  induction 1 as [|x l _ IH F]; constructor; [|done]. intros Hin. rewrite Forall_forall in F.
  apply list_elem_of_In in Hin. apply F in Hin. lia.
Qed.

Section order.
Implicit Types (b : WsOutboundBuffer) (held : list nat).

Lemma order_NoDup held b : order_but held b -> List.NoDup (map fst (Buf.deliveries b) ++ held ++ queue_uids b).
Proof. intros [_ P]. rewrite P. apply NoDup_ListNoDup, NoDup_seq. Qed.

Lemma order_live held b u : order_but held b -> In u (held ++ queue_uids b) -> ~ In u (map fst (Buf.deliveries b)).
Proof.
  intros H Hin Hd. apply order_NoDup in H. revert H. generalize (held ++ queue_uids b)%list Hin. clear Hin.
  induction (map fst (Buf.deliveries b)) as [|x l IH]; intros q Hq; [done|].
  simpl. inversion_clear 1 as [|? ? Hx Hl]. destruct Hd as [->|Hd]; [apply Hx, in_or_app; by right|].
  by apply (IH Hd q).
Qed.

Lemma order_bound held b u :
  order_but held b -> In u (map fst (Buf.deliveries b) ++ held ++ queue_uids b) -> (u < Buf.calls b)%nat.
Proof.
  intros [_ P] Hin. apply list_elem_of_In in Hin. rewrite P in Hin. apply elem_of_seq in Hin. lia.
Qed.

(** A promise that is settled for the first time. *)
Lemma settle_new b u o :
  ~ In u (map fst (Buf.deliveries b)) ->
  settle b u o = b <| Buf.deliveries := (Buf.deliveries b ++ [(u, o)])%list |>.
Proof.
  intros H. unfold settle. destruct (existsb _ _) eqn:E; [|done]. exfalso. apply H.
  apply existsb_exists in E as ((v & o') & Hin & E). apply Nat.eqb_eq in E. simpl in E. subst v.
  apply in_map_iff. by exists (u, o').
Qed.

Lemma resolved_app b d : resolved_uids (b <| Buf.deliveries := (Buf.deliveries b ++ [d])%list |>) =
  (resolved_uids b ++ if is_resolved d then [d.1] else [])%list.
Proof. unfold resolved_uids. simpl. rewrite List.filter_app, map_app. simpl. by destruct (is_resolved d). Qed.

(** A frame leaves the queue .. *)
Lemma order_take b b' u :
  order_ok b -> In u (queue_uids b) -> Buf.deliveries b' = Buf.deliveries b -> Buf.calls b' = Buf.calls b ->
  queue_uids b' = without u (queue_uids b) -> order_but [u] b'.
Proof.
  intros [S P] Hin Ed Ec Eq. apply sorted_app in S as (S1 & S2 & D). split.
  - unfold resolved_uids. rewrite Ed, Eq. fold (resolved_uids b). apply sorted_app. split; [done|].
    split; [by apply sorted_without|]. intros x y Hx Hy. apply without_In in Hy as [Hy _]. by apply D.
  - rewrite Eq, Ed, Ec, <- P. simpl. apply Permutation_app_head. symmetry.
    apply without_perm; [by apply sorted_NoDup|done].
Qed.

(** .. and its promise is settled; only one older than all that are left is ever resolved. *)
Lemma order_settle b u o :
  order_but [u] b ->
  (o = resolved -> (forall v, In v (resolved_uids b) -> (v < u)%nat) /\ forall v, In v (queue_uids b) -> (u < v)%nat) ->
  order_ok (settle b u o).
Proof.
  intros H Hhead. rewrite settle_new by (apply (order_live [u]); [done|by left]). destruct H as [S P].
  apply sorted_app in S as (S1 & S2 & D). split.
  - rewrite resolved_app. unfold queue_uids at 1. simpl. fold (queue_uids b).
    destruct o as [|r]; simpl; [|rewrite app_nil_r; by apply sorted_app].
    destruct Hhead as [H1 H2]; [done|]. rewrite <- app_assoc. simpl. apply sorted_app. split; [done|].
    split; [constructor; [done|]|]; [apply Forall_forall; intros v Hv; apply H2; by apply list_elem_of_In|].
    intros x y Hx [<-|Hy]; [by apply H1|by apply D].
  - transitivity ((map fst (Buf.deliveries b) ++ [u]) ++ queue_uids b)%list; [simpl; by rewrite map_app|].
    by rewrite <- app_assoc, P.
Qed.

(** The same frames in the same order. *)
Lemma order_same held b b' :
  order_but held b -> Buf.deliveries b' = Buf.deliveries b -> Buf.calls b' = Buf.calls b ->
  queue_uids b' = queue_uids b -> order_but held b'.
Proof.
  intros [S P] Ed Ec Eq. split; [|by rewrite Ed, Ec, Eq].
  unfold resolved_uids. rewrite Ed, Eq. exact S.
Qed.

Lemma resolved_settled b u : In u (resolved_uids b) -> In u (map fst (Buf.deliveries b)).
Proof. intros Hx. apply in_map_iff in Hx as (d & <- & Hd). apply filter_In in Hd as [Hd _]. by apply in_map. Qed.

(** A new call whose frame goes to the end of the queue. *)
Lemma order_append held b b' :
  order_but held b -> Buf.deliveries b' = Buf.deliveries b -> Buf.calls b' = S (Buf.calls b) ->
  queue_uids b' = (queue_uids b ++ [Buf.calls b])%list -> order_but held b'.
Proof.
  intros H Ed Ec Eq. destruct (H) as [S P]. split.
  - unfold resolved_uids. rewrite Ed, Eq, app_assoc. fold (resolved_uids b). apply sorted_app.
    split; [done|]. split; [constructor; constructor|]. intros x y Hx [<-|[]].
    apply (order_bound held b x H). apply in_app_or in Hx as [Hx|Hx]; apply in_or_app; [left; by apply resolved_settled|].
    right. apply in_or_app. by right.
  - rewrite Ed, Eq, Ec, seq_S, <- P, <- !app_assoc. done.
Qed.

(** A new call that is refused. *)
Lemma order_refuse held b m r : order_but held b -> order_but held (settle (call b m).2 (Buf.calls b) (rejected r)).
Proof.
  intros H. destruct (H) as [S P]. rewrite settle_new.
  - split; [rewrite resolved_app, app_nil_r; exact S|].
    transitivity ((map fst (Buf.deliveries b) ++ [Buf.calls b]) ++ held ++ queue_uids b)%list; [simpl; by rewrite map_app|].
    transitivity (seq 0 (Datatypes.S (Buf.calls b))); [|done].
    rewrite seq_S, <- P, <- !app_assoc. apply Permutation_app_head. simpl. rewrite app_assoc. apply Permutation_cons_append.
  - simpl. intros Hin. assert (Buf.calls b < Buf.calls b)%nat; [|lia].
    apply (order_bound held b); [done|]. apply in_or_app. by left.
Qed.
End order.

(** ** Room *)
Definition total (l : list WsBufferItem) : Z := fold_right (fun i a => Item.bytes i + a) 0 l.

Lemma total_snoc l i : total (l ++ [i]) = total l + Item.bytes i.
Proof. induction l as [|j l IH]; simpl; lia. Qed.

(** What the buffer is told of a frame. *)
Definition frame_ok (n : Z) (m : json) (g : option nat) : Prop :=
  0 <= n <= MAX_BYTES /\ (is_keepalive m = true -> g = None).

(** The listener of a frame that has one knows its size. *)
Definition item_ok (i : WsBufferItem) : Prop :=
  0 <= Item.bytes i /\ (is_keepalive (Item.message i) = true -> Item.signal i = None) /\
  (Item.signal i = None \/ Item.captured i = Item.bytes i).

(** The accounted size is that of the frames held, and within the limits. *)
Record room_ok (b : WsOutboundBuffer) : Prop := {
  ro_sum : Buf.bytes b = total (Buf.items b) + total (Buf.inflight b);
  ro_bytes : Buf.bytes b <= MAX_BYTES;
  ro_length : buffer_length b <= MAX_ITEMS;
  ro_items : Forall item_ok (Buf.items b);
  ro_inflight : Forall item_ok (Buf.inflight b);
}.

(** ** Turns *)

(** Every ticket from the turn on is suspended or cancelled, the turn itself is not cancelled. *)
Record turn_ok (b : WsOutboundBuffer) : Prop := {
  to_le : (Buf.admissionTurn b <= Buf.nextAdmissionTicket b)%nat;
  to_range : forall w, In w (Buf.waiting b) ->
    (Buf.admissionTurn b <= Waiter.ticket w < Buf.nextAdmissionTicket b)%nat /\
    ~ In (Waiter.ticket w) (Buf.cancelledTickets b) /\ frame_ok (Waiter.bytes w) (Waiter.message w) (Waiter.signal w) /\
    (Waiter.awaits w <= Buf.capacity b)%nat;
  to_full : forall t, (Buf.admissionTurn b <= t < Buf.nextAdmissionTicket b)%nat ->
    In t (map Waiter.ticket (Buf.waiting b)) \/ In t (Buf.cancelledTickets b);
  to_turn : ~ In (Buf.admissionTurn b) (Buf.cancelledTickets b);
  to_cancelled : forall t, In t (Buf.cancelledTickets b) -> (t < Buf.nextAdmissionTicket b)%nat;
}.

(** A suspended call that nothing will wake and whose turn it is has no room, and there is
    nothing left to evict. *)
Definition blocked_ok (b : WsOutboundBuffer) : Prop :=
  forall w, In w (Buf.waiting b) -> Waiter.ticket w = Buf.admissionTurn b -> runnable b w = false ->
    fits b (Waiter.bytes w) = false /\ Forall (fun i => droppable i = false) (Buf.items b).

(** The fields these three look at are as before. *)
Definition same_state (b b' : WsOutboundBuffer) : Prop :=
  Buf.items b' = Buf.items b /\ Buf.inflight b' = Buf.inflight b /\ Buf.bytes b' = Buf.bytes b /\
  Buf.nextAdmissionTicket b' = Buf.nextAdmissionTicket b /\ Buf.admissionTurn b' = Buf.admissionTurn b /\
  Buf.cancelledTickets b' = Buf.cancelledTickets b /\ Buf.capacity b' = Buf.capacity b /\
  Buf.closed b' = Buf.closed b /\ Buf.waiting b' = Buf.waiting b /\ Buf.aborted b' = Buf.aborted b.

Lemma same_settle b u o : same_state b (settle b u o).
Proof. unfold settle. by case_match. Qed.

Lemma same_drop b m : same_state b (drop b m).
Proof. done. Qed.

Lemma same_call b m : same_state b (call b m).2.
Proof. done. Qed.

Lemma same_trans b1 b2 b3 : same_state b1 b2 -> same_state b2 b3 -> same_state b1 b3.
Proof. unfold same_state. intuition congruence. Qed.

Ltac use_same H :=
  let A := fresh "Ei" in let B := fresh "Ef" in let C := fresh "Eb" in let D := fresh "En" in
  let E := fresh "Et" in let F := fresh "Ec" in let G := fresh "Eg" in let I := fresh "Ecl" in
  let J := fresh "Ew" in let K := fresh "Ea" in
  destruct H as (A & B & C & D & E & F & G & I & J & K).

Lemma room_same b b' : same_state b b' -> room_ok b -> room_ok b'.
Proof.
  intros H [R1 R2 R3 R4 R5]. use_same H. unfold buffer_length in *.
  by split; unfold buffer_length; rewrite ?Ei, ?Ef, ?Eb.
Qed.

Lemma turn_same b b' : same_state b b' -> turn_ok b -> turn_ok b'.
Proof.
  intros H [T1 T2 T3 T4 T5]. use_same H. by split; rewrite ?En, ?Et, ?Ec, ?Eg, ?Ew.
Qed.

Lemma blocked_same b b' : same_state b b' -> blocked_ok b -> blocked_ok b'.
Proof.
  intros H. use_same H. unfold blocked_ok, runnable, fits, buffer_length, is_aborted.
  by rewrite Ei, Ef, Eb, Et, Eg, Ew, Ea.
Qed.

(** After a notification every suspended call may run. *)
Lemma notify_blocked b : turn_ok b -> blocked_ok (notifyCapacity b).
Proof.
  intros T w Hw _ Hr. simpl in Hw. destruct (to_range _ T w Hw) as (_ & _ & _ & Ha).
  unfold runnable in Hr. simpl in Hr. apply orb_false_iff in Hr as [Hr _]. apply Nat.ltb_ge in Hr. lia.
Qed.

Lemma notify_turn b : turn_ok b -> turn_ok (notifyCapacity b).
Proof.
  intros [T1 T2 T3 T4 T5]. split; simpl; try done. intros w Hw. destruct (T2 w Hw) as (A & B & C & D).
  split; [done|]. split; [done|]. split; [done|lia].
Qed.

Lemma notify_room b : room_ok b -> room_ok (notifyCapacity b).
Proof. by intros [R1 R2 R3 R4 R5]. Qed.

Lemma notify_order b : order_ok b -> order_ok (notifyCapacity b).
Proof. intros H. by apply (order_same [] b). Qed.

(** ** Taking frames out of the queue *)
Lemma remove_unique {A} (f g : A -> nat) (w : A) l :
  (forall x, In x l -> f x = f w <-> g x = g w) ->
  map g (List.filter (fun x => negb (Nat.eqb (f x) (f w))) l) = without (g w) (map g l).
Proof.
  induction l as [|x l IH]; intros H; simpl; [done|].
  specialize (IH (fun y Hy => H y (or_intror Hy))). specialize (H x (or_introl eq_refl)).
  destruct (Nat.eqb_spec (f x) (f w)) as [E|E], (Nat.eqb_spec (g x) (g w)) as [E'|E']; simpl; try (by rewrite IH); tauto.
Qed.

Lemma NoDup_inj {A} (f : A -> nat) l x y :
  List.NoDup (map f l) -> In x l -> In y l -> f x = f y -> x = y.
Proof.
  induction l as [|a l IH]; simpl; [done|]. inversion_clear 1 as [|? ? Ha Hl]. intros [->|Hx] [->|Hy] E; [done| | |by apply IH].
  - destruct Ha. rewrite E. by apply in_map.
  - destruct Ha. rewrite <- E. by apply in_map.
Qed.

Lemma remove_item_uids u l : map Item.uid (remove_item u l) = without u (map Item.uid l).
Proof. unfold remove_item, without. induction l as [|i l IH]; simpl; [done|]. destruct (negb _); simpl; by rewrite IH. Qed.

Lemma remove_item_absent u l : ~ In u (map Item.uid l) -> remove_item u l = l.
Proof.
  induction l as [|i l IH]; simpl; [done|]. intros H. destruct (Nat.eqb_spec (Item.uid i) u) as [E|_]; [by destruct H; left|].
  simpl. rewrite IH; [done|]. intros Hin. apply H. by right.
Qed.

(** Removing one of the frames of a list. *)
Lemma remove_item_total l i :
  List.NoDup (map Item.uid l) -> In i l ->
  total (remove_item (Item.uid i) l) = total l - Item.bytes i /\
  S (List.length (remove_item (Item.uid i) l)) = List.length l.
Proof.
  induction l as [|j l IH]; simpl; [done|]. inversion_clear 1 as [|? ? Hj Hl]. intros [->|Hin].
  - rewrite Nat.eqb_refl. simpl. fold (remove_item (Item.uid i) l). rewrite remove_item_absent by done.
    split; [lia|done].
  - destruct (Nat.eqb_spec (Item.uid j) (Item.uid i)) as [E|_]; [destruct Hj; rewrite E; by apply in_map|].
    simpl. fold (remove_item (Item.uid i) l). destruct (IH Hl Hin) as [-> <-]. split; [lia|done].
Qed.

Lemma remove_item_Forall P u l : Forall P l -> Forall P (remove_item u l).
Proof.
  rewrite !Forall_forall. intros H i Hi. apply H. apply list_elem_of_In in Hi. apply filter_In in Hi as [Hi _].
  by apply list_elem_of_In.
Qed.

(** The queued frames have distinct identities, not shared with the others. *)
Lemma order_parts b : order_ok b ->
  List.NoDup (map Item.uid (Buf.inflight b)) /\ List.NoDup (map Item.uid (Buf.items b)) /\
  List.NoDup (map Waiter.uid (Buf.waiting b)) /\
  (forall u, In u (map Item.uid (Buf.inflight b)) -> ~ In u (map Item.uid (Buf.items b)) /\ ~ In u (map Waiter.uid (Buf.waiting b))) /\
  (forall u, In u (map Item.uid (Buf.items b)) -> ~ In u (map Waiter.uid (Buf.waiting b))).
Proof.
  intros [S _]. apply sorted_app in S as (_ & S & _). unfold queue_uids in S.
  apply sorted_app in S as (S1 & S & D1). apply sorted_app in S as (S2 & S3 & D2).
  split; [by apply sorted_NoDup|]. split; [by apply sorted_NoDup|]. split; [by apply sorted_NoDup|].
  split; [intros u Hu; split; intros Hu'|intros u Hu Hu'].
  - assert (u < u)%nat; [|lia]. apply D1; [done|]. apply in_or_app. by left.
  - assert (u < u)%nat; [|lia]. apply D1; [done|]. apply in_or_app. by right.
  - assert (u < u)%nat; [|lia]. by apply D2.
Qed.

(** A queued frame is taken out. *)
Definition without_item (b : WsOutboundBuffer) (i : WsBufferItem) : WsOutboundBuffer :=
  b <| Buf.items := remove_item (Item.uid i) (Buf.items b) |> <| Buf.bytes := Buf.bytes b - Item.bytes i |>.

Lemma without_item_queue b i :
  order_ok b -> In i (Buf.items b) -> queue_uids (without_item b i) = without (Item.uid i) (queue_uids b).
Proof.
  intros H Hin. destruct (order_parts b H) as (_ & _ & _ & D1 & D2).
  assert (In (Item.uid i) (map Item.uid (Buf.items b))) as Hu by (by apply in_map).
  unfold queue_uids. simpl. rewrite !without_app, remove_item_uids.
  rewrite (without_id _ (map Item.uid (Buf.inflight b))); [|intros Hf; by destruct (D1 _ Hf)].
  by rewrite (without_id _ (map Waiter.uid (Buf.waiting b))); [|apply D2].
Qed.

Lemma without_item_room b i : order_ok b -> room_ok b -> In i (Buf.items b) -> room_ok (without_item b i).
Proof.
  intros H [R1 R2 R3 R4 R5] Hin. destruct (order_parts b H) as (_ & N & _).
  destruct (remove_item_total _ i N Hin) as [Et El]. rewrite Forall_forall in R4.
  assert (0 <= Item.bytes i) by (apply R4; by apply list_elem_of_In).
  split; simpl; unfold buffer_length in *; simpl; [lia|lia|lia| |done].
  apply remove_item_Forall. by apply Forall_forall.
Qed.

Lemma without_item_turn b i : turn_ok b -> turn_ok (without_item b i).
Proof. by intros [T1 T2 T3 T4 T5]. Qed.

Lemma order_item b i : In i (Buf.items b) -> In (Item.uid i) (queue_uids b).
Proof. intros H. unfold queue_uids. apply in_or_app. right. apply in_or_app. left. by apply in_map. Qed.

(** ** Suspended calls *)

(** The suspended calls are in the order of their tickets. *)
Definition lined (b : WsOutboundBuffer) : Prop :=
  StronglySorted lt (map Waiter.ticket (Buf.waiting b)) /\
  forall w, In w (Buf.waiting b) -> (Waiter.ticket w < Buf.nextAdmissionTicket b)%nat.

Lemma lined_same b b' : same_state b b' -> lined b -> lined b'.
Proof. intros H. use_same H. unfold lined. by rewrite Ew, En. Qed.

(** What holds between any two instructions of an open buffer. *)
Definition core_but (held : list nat) (b : WsOutboundBuffer) : Prop :=
  room_ok b /\ order_but held b /\ lined b /\ turn_ok b.

Definition core_ok : WsOutboundBuffer -> Prop := core_but [].

Lemma suspend_order held b m n g : order_but held b -> order_but held (suspend b m n g).
Proof.
  intros H. apply (order_append held b); [done|done|done|].
  unfold queue_uids. simpl. by rewrite map_app, !app_assoc.
Qed.

Lemma suspend_core held b m n g : frame_ok n m g -> core_but held b -> core_but held (suspend b m n g).
Proof.
  intros Hn ([R1 R2 R3 R4 R5] & O & [L1 L2] & [T1 T2 T3 T4 T5]).
  split; [by split|]. split; [by apply suspend_order|]. split; [split|split]; simpl.
  - rewrite map_app. apply sorted_app. split; [done|]. split; [constructor; constructor|].
    intros x y Hx [<-|[]]. apply in_map_iff in Hx as (w & <- & Hw). by apply L2.
  - intros w Hw. apply in_app_or in Hw as [Hw|[<-|[]]]; simpl; [specialize (L2 w Hw)|]; lia.
  - lia.
  - intros w Hw. apply in_app_or in Hw as [Hw|[<-|[]]]; simpl.
    + destruct (T2 w Hw) as (A & B & C & D). split; [lia|]. by split.
    + split; [lia|]. split; [|by split]. intros Hc. apply T5 in Hc. lia.
  - intros t Ht. rewrite map_app, in_app_iff. simpl.
    destruct (decide (t = Buf.nextAdmissionTicket b)) as [->|Hne]; [left; right; by left|].
    destruct (T3 t) as [H|H]; [lia|left; by left|by right].
  - done.
  - intros t Ht. apply T5 in Ht. lia.
Qed.

Lemma refuse_core held b m r : core_but held b -> core_but held (settle (call b m).2 (Buf.calls b) (rejected r)).
Proof.
  intros (R & O & L & T).
  assert (same_state b (settle (call b m).2 (Buf.calls b) (rejected r))) as S
    by (eapply same_trans; [apply same_call|apply same_settle]).
  split; [by eapply room_same|]. split; [by apply order_refuse|]. split; [by eapply lined_same|by eapply turn_same].
Qed.

(** The callback only adds suspended calls behind the others. *)
Definition adds_waiters (b b' : WsOutboundBuffer) : Prop :=
  (exists extra, Buf.waiting b' = (Buf.waiting b ++ extra)%list) /\ Buf.inflight b' = Buf.inflight b /\
  Buf.admissionTurn b' = Buf.admissionTurn b /\ Buf.capacity b' = Buf.capacity b /\
  Buf.closed b' = Buf.closed b /\ Buf.aborted b' = Buf.aborted b /\
  (Buf.nextAdmissionTicket b <= Buf.nextAdmissionTicket b')%nat.

Lemma adds_same b b' : same_state b b' -> adds_waiters b b'.
Proof. intros H. use_same H. split; [exists []; by rewrite app_nil_r|]. rewrite En. by repeat split. Qed.

Lemma adds_trans b1 b2 b3 : adds_waiters b1 b2 -> adds_waiters b2 b3 -> adds_waiters b1 b3.
Proof.
  intros ((e1 & E1) & A1) ((e2 & E2) & A2). split; [exists (e1 ++ e2)%list; by rewrite E2, E1, app_assoc|].
  destruct A1 as (? & ? & ? & ? & ? & ?), A2 as (? & ? & ? & ? & ? & ?). repeat split; try congruence. lia.
Qed.

Lemma answer_ok held reply b m :
  core_but held b -> core_but held (answer reply b m) /\ adds_waiters b (answer reply b m) /\
  Buf.items (answer reply b m) = Buf.items b /\ Buf.bytes (answer reply b m) = Buf.bytes b /\
  (forall u, In u (queue_uids b) -> In u (queue_uids (answer reply b m))).
Proof.
  intros H. unfold answer. destruct (reply m) as [notice|]; [|split; [done|]; split; [by apply adds_same|done]].
  destruct (Z.ltb_spec MAX_BYTES (message_bytes notice)) as [|Hn].
  - assert (same_state b (settle (call b notice).2 (Buf.calls b) (rejected frame_too_large))) as S
      by (eapply same_trans; [apply same_call|apply same_settle]).
    change (let '(uid, b0) := call b notice in settle b0 uid (rejected frame_too_large))
      with (settle (call b notice).2 (Buf.calls b) (rejected frame_too_large)).
    split; [by apply refuse_core|]. split; [by apply adds_same|]. unfold queue_uids. use_same S. by rewrite Ei, Ef, Eb, Ew.
  - pose proof (message_bytes_nonneg notice). split; [by apply suspend_core; [split|]|]. split; [|split; [done|split; [done|]]].
    + split; [by eexists|]. repeat split; simpl; lia.
    + unfold queue_uids. simpl. intros u. rewrite map_app, !in_app_iff. tauto.
Qed.

(** ** Eviction *)
Definition evict_one (reply : json -> option json) (b : WsOutboundBuffer) (i : WsBufferItem) : WsOutboundBuffer :=
  settle (answer reply (drop (without_item b i) (Item.message i)) (Item.message i)) (Item.uid i) (rejected log_evicted).

Lemma settle_core b u r : core_but [u] b -> core_ok (settle b u (rejected r)).
Proof.
  intros (R & O & L & T). pose proof (same_settle b u (rejected r)) as S.
  split; [by eapply room_same|]. split; [by apply order_settle|]. split; [by eapply lined_same|by eapply turn_same].
Qed.

Lemma without_item_core b i : core_ok b -> In i (Buf.items b) -> core_but [Item.uid i] (without_item b i).
Proof.
  intros (R & O & L & T) Hi. split; [by apply without_item_room|]. split; [|split; [done|by apply without_item_turn]].
  apply (order_take b); [done|by apply order_item|done|done|by apply without_item_queue].
Qed.

Lemma evict_one_ok reply b i :
  core_ok b -> In i (Buf.items b) -> core_ok (evict_one reply b i) /\ adds_waiters b (evict_one reply b i) /\
  Buf.items (evict_one reply b i) = remove_item (Item.uid i) (Buf.items b).
Proof.
  intros H Hi. unfold evict_one.
  assert (core_but [Item.uid i] (drop (without_item b i) (Item.message i))) as H1.
  { destruct (without_item_core b i H Hi) as (R & O & L & T). split; [by apply (room_same (without_item b i))|].
    split; [by apply (order_same _ (without_item b i))|]. split; [by apply (lined_same (without_item b i))|by apply (turn_same (without_item b i))]. }
  destruct (answer_ok _ reply _ (Item.message i) H1) as (H2 & A & Ei & _).
  split; [by apply settle_core|]. split.
  - eapply adds_trans; [|apply adds_same, same_settle]. eapply adds_trans; [|exact A].
    split; [exists []; simpl; by rewrite app_nil_r|]. by repeat split.
  - pose proof (same_settle (answer reply (drop (without_item b i) (Item.message i)) (Item.message i))
      (Item.uid i) (rejected log_evicted)) as S. destruct S as (-> & _). by rewrite Ei.
Qed.

(** The loop ends with room or with nothing to evict. *)
Lemma evict_ok reply n fuel : forall b,
  core_ok b -> (List.length (Buf.items b) < fuel)%nat ->
  core_ok (evict fuel reply b n) /\ adds_waiters b (evict fuel reply b n) /\
  (fits (evict fuel reply b n) n = true \/ Forall (fun i => droppable i = false) (Buf.items (evict fuel reply b n))) /\
  (forall i, In i (Buf.items b) -> droppable i = false -> In i (Buf.items (evict fuel reply b n))).
Proof.
  induction fuel as [|fuel IH]; intros b H Hf; [lia|]. cbn [evict].
  destruct (fits b n) eqn:Hfit; [split; [done|]; split; [by apply adds_same|]; by split; [left|]|].
  destruct (List.find droppable (Buf.items b)) as [i|] eqn:Ef.
  - apply find_some in Ef as [Hi Hd]. fold (without_item b i). fold (evict_one reply b i).
    destruct (evict_one_ok reply b i H Hi) as (H1 & A1 & E1).
    destruct (IH (evict_one reply b i) H1) as (H2 & A2 & D & K).
    { rewrite E1. destruct H as (_ & O & _). destruct (order_parts b O) as (_ & N & _).
      destruct (remove_item_total _ i N Hi) as [_ El]. lia. }
    split; [done|]. split; [by eapply adds_trans|]. split; [done|]. intros j Hj Hdj. apply K; [|done].
    rewrite E1. apply filter_In. split; [done|]. apply negb_true_iff, Nat.eqb_neq. intros E.
    destruct H as (_ & O & _). destruct (order_parts b O) as (_ & N & _).
    rewrite (NoDup_inj Item.uid _ j i N Hj Hi E) in Hdj. congruence.
  - split; [done|]. split; [by apply adds_same|]. split; [right|done]. apply Forall_forall. intros i Hi.
    apply list_elem_of_In in Hi. by apply (find_none _ _ Ef).
Qed.

(** ** Advancing the turn *)

(** [turn_ok] but for the turn, which may be cancelled. *)
Record turn_open (b : WsOutboundBuffer) : Prop := {
  tp_le : (Buf.admissionTurn b <= Buf.nextAdmissionTicket b)%nat;
  tp_range : forall w, In w (Buf.waiting b) ->
    (Buf.admissionTurn b <= Waiter.ticket w < Buf.nextAdmissionTicket b)%nat /\
    ~ In (Waiter.ticket w) (Buf.cancelledTickets b) /\ frame_ok (Waiter.bytes w) (Waiter.message w) (Waiter.signal w) /\
    (Waiter.awaits w <= Buf.capacity b)%nat;
  tp_full : forall t, (Buf.admissionTurn b <= t < Buf.nextAdmissionTicket b)%nat ->
    In t (map Waiter.ticket (Buf.waiting b)) \/ In t (Buf.cancelledTickets b);
  tp_cancelled : forall t, In t (Buf.cancelledTickets b) -> (t < Buf.nextAdmissionTicket b)%nat;
}.

Lemma existsb_nat_In x l : existsb (Nat.eqb x) l = true <-> In x l.
Proof.
  rewrite existsb_exists. split; [intros (y & Hy & E); apply Nat.eqb_eq in E; by subst y|].
  intros H. exists x. split; [done|apply Nat.eqb_refl].
Qed.

Lemma filter_shorter {A} (p : A -> bool) l x : In x l -> p x = false -> (List.length (List.filter p l) < List.length l)%nat.
Proof.
  induction l as [|y l IH]; simpl; [done|]. intros [->|Hin] Hp.
  - rewrite Hp. pose proof (List.filter_length_le p l). lia.
  - specialize (IH Hin Hp). destruct (p y); simpl; lia.
Qed.

(** The fields the loop leaves alone. *)
Definition same_but_turn (b b' : WsOutboundBuffer) : Prop :=
  Buf.items b' = Buf.items b /\ Buf.inflight b' = Buf.inflight b /\ Buf.bytes b' = Buf.bytes b /\
  Buf.nextAdmissionTicket b' = Buf.nextAdmissionTicket b /\ Buf.capacity b' = Buf.capacity b /\
  Buf.closed b' = Buf.closed b /\ Buf.waiting b' = Buf.waiting b /\ Buf.aborted b' = Buf.aborted b /\
  Buf.deliveries b' = Buf.deliveries b /\ Buf.calls b' = Buf.calls b.

Lemma skip_ok fuel : forall b,
  turn_open b -> (List.length (Buf.cancelledTickets b) <= fuel)%nat ->
  turn_ok (skip_cancelled fuel b) /\ same_but_turn b (skip_cancelled fuel b).
Proof.
  induction fuel as [|fuel IH]; intros b [P1 P2 P3 P4] Hf; cbn [skip_cancelled].
  - split; [|done]. split; try done. destruct (Buf.cancelledTickets b); [by intros []|simpl in Hf; lia].
  - destruct (existsb _ _) eqn:E.
    + apply existsb_nat_In in E. set (b1 := b <| Buf.cancelledTickets := _ |> <| Buf.admissionTurn := _ |>).
      destruct (IH b1) as [H1 S1]; [|simpl|by split].
      * split; simpl.
        -- specialize (P4 _ E). lia.
        -- intros w Hw. destruct (P2 w Hw) as (A & B & C & D).
           assert (Waiter.ticket w <> Buf.admissionTurn b) by (intros Et; by rewrite Et in B).
           split; [lia|]. split; [|done]. intros Hc. apply filter_In in Hc as [Hc _]. by apply B.
        -- intros t Ht. destruct (P3 t) as [H|H]; [lia|by left|right]. apply filter_In. split; [done|].
           apply negb_true_iff, Nat.eqb_neq. lia.
        -- intros t Hc. apply filter_In in Hc as [Hc _]. by apply P4.
      * assert (List.length (List.filter (fun t => negb (t =? Buf.admissionTurn b)%nat) (Buf.cancelledTickets b)) <
          List.length (Buf.cancelledTickets b))%nat; [|lia].
        apply (filter_shorter _ _ (Buf.admissionTurn b)); [done|]. by rewrite Nat.eqb_refl.
    + split; [|done]. split; try done. intros Hc. apply existsb_nat_In in Hc. congruence.
Qed.

(** Advancing past a turn that nobody waits for any more. *)
Lemma advance_ok b :
  (Buf.admissionTurn b < Buf.nextAdmissionTicket b)%nat ->
  (forall w, In w (Buf.waiting b) ->
    (Buf.admissionTurn b < Waiter.ticket w < Buf.nextAdmissionTicket b)%nat /\
    ~ In (Waiter.ticket w) (Buf.cancelledTickets b) /\ frame_ok (Waiter.bytes w) (Waiter.message w) (Waiter.signal w) /\
    (Waiter.awaits w <= Buf.capacity b)%nat) ->
  (forall t, (Buf.admissionTurn b < t < Buf.nextAdmissionTicket b)%nat ->
    In t (map Waiter.ticket (Buf.waiting b)) \/ In t (Buf.cancelledTickets b)) ->
  (forall t, In t (Buf.cancelledTickets b) -> (t < Buf.nextAdmissionTicket b)%nat) ->
  turn_ok (advanceAdmissionTurn b) /\ same_but_turn b (advanceAdmissionTurn b).
Proof.
  intros H1 H2 H3 H4. apply skip_ok; [|done]. split; simpl; [lia| | |done].
  - intros w Hw. destruct (H2 w Hw) as (A & B). split; [lia|done].
  - intros t Ht. apply H3. lia.
Qed.

(** ** The invariant *)
Record buf_ok (b : WsOutboundBuffer) : Prop := {
  bk_room : room_ok b;
  bk_order : order_ok b;
  bk_lined : lined b;
  bk_open : Buf.closed b = false -> turn_ok b /\ blocked_ok b;
  bk_closed : Buf.closed b = true -> Buf.items b = [] /\ Buf.inflight b = [];
}.

Lemma open_ok b : core_ok b -> blocked_ok b -> Buf.closed b = false -> buf_ok b.
Proof. intros (R & O & L & T) Bl Ho. split; try done. congruence. Qed.

Lemma buf_core b : buf_ok b -> Buf.closed b = false -> core_ok b.
Proof. intros [R O L Ho _] E. by destruct (Ho E). Qed.

(** [blocked_ok] for all the suspended calls but one. *)
Definition blocked_but (ticket : nat) (b : WsOutboundBuffer) : Prop :=
  forall w, In w (Buf.waiting b) -> Waiter.ticket w <> ticket -> Waiter.ticket w = Buf.admissionTurn b ->
    runnable b w = false -> fits b (Waiter.bytes w) = false /\ Forall (fun i => droppable i = false) (Buf.items b).

Lemma waiter_unique b w w' :
  lined b -> In w (Buf.waiting b) -> In w' (Buf.waiting b) -> Waiter.ticket w' = Waiter.ticket w -> w' = w.
Proof. intros [L _] Hw Hw'. apply (NoDup_inj Waiter.ticket (Buf.waiting b)); [by apply sorted_NoDup|done|done]. Qed.

Lemma without_waiter_In b w v : In v (Buf.waiting (without_waiter b w)) <->
  In v (Buf.waiting b) /\ Waiter.ticket v <> Waiter.ticket w.
Proof. simpl. unfold remove_waiter. rewrite filter_In, negb_true_iff, Nat.eqb_neq. done. Qed.

Lemma without_waiter_queue b w :
  order_ok b -> lined b -> In w (Buf.waiting b) ->
  queue_uids (without_waiter b w) = without (Waiter.uid w) (queue_uids b).
Proof.
  intros H L Hin. destruct (order_parts b H) as (_ & _ & N & D1 & D2).
  assert (In (Waiter.uid w) (map Waiter.uid (Buf.waiting b))) as Hu by (by apply in_map).
  unfold queue_uids. simpl. rewrite !without_app.
  rewrite (without_id _ (map Item.uid (Buf.inflight b))); [|intros Hf; by destruct (D1 _ Hf)].
  rewrite (without_id _ (map Item.uid (Buf.items b))); [|intros Hf; by destruct (D2 _ Hf)].
  do 2 f_equal. apply (remove_unique Waiter.ticket Waiter.uid). intros x Hx. split; intros E.
  - by rewrite (waiter_unique b w x).
  - by rewrite (NoDup_inj Waiter.uid _ x w N).
Qed.

Lemma without_waiter_order b w :
  order_ok b -> lined b -> In w (Buf.waiting b) -> order_but [Waiter.uid w] (without_waiter b w).
Proof.
  intros O L Hw. apply (order_take b); [done| |done|done|by apply without_waiter_queue].
  unfold queue_uids. apply in_or_app. right. apply in_or_app. right. by apply in_map.
Qed.

Lemma without_waiter_lined b w : lined b -> lined (without_waiter b w).
Proof.
  intros [L1 L2]. split.
  - simpl. unfold remove_waiter. clear L2. induction (Buf.waiting b) as [|v l IH]; simpl in *; [constructor|].
    inversion_clear L1 as [|? ? S F]. destruct (negb _); simpl; [|by apply IH]. constructor; [by apply IH|].
    rewrite Forall_forall in F |- *. intros t Ht. apply F. apply list_elem_of_In. apply list_elem_of_In in Ht.
    apply in_map_iff in Ht as (x & <- & Hx). apply filter_In in Hx as [Hx _]. by apply in_map.
  - intros v Hv. apply without_waiter_In in Hv as [Hv _]. by apply L2.
Qed.

(** The call whose turn it is stands first. *)
Lemma turn_first b w :
  lined b -> turn_ok b -> In w (Buf.waiting b) -> Waiter.ticket w = Buf.admissionTurn b ->
  exists rest, Buf.waiting b = w :: rest.
Proof.
  intros [L _] T Hw Ht. destruct (Buf.waiting b) as [|v rest] eqn:E; [done|]. exists rest. f_equal.
  destruct Hw as [->|Hw]; [done|]. simpl in L. inversion_clear L as [|? ? _ F]. rewrite Forall_forall in F.
  assert (Waiter.ticket v < Waiter.ticket w)%nat by (apply F, list_elem_of_In; by apply in_map).
  destruct (to_range _ T v) as [Hr _]; [rewrite E; by left|]. lia.
Qed.

(** Waiting again. *)
Lemma wait_again_map b t (f : Waiter -> nat) :
  (forall w n, f (Waiter.mkWaiter (Waiter.ticket w) (Waiter.uid w) (Waiter.message w) (Waiter.bytes w) (Waiter.signal w) n) = f w) ->
  map f (Buf.waiting (wait_again b t)) = map f (Buf.waiting b).
Proof. intros Hf. simpl. rewrite map_map. apply map_ext. intros w. destruct (Nat.eqb _ _); [apply Hf|done]. Qed.

Lemma wait_again_In b t v : In v (Buf.waiting (wait_again b t)) ->
  exists w, In w (Buf.waiting b) /\ Waiter.ticket v = Waiter.ticket w /\ Waiter.bytes v = Waiter.bytes w /\
    Waiter.message v = Waiter.message w /\ Waiter.signal v = Waiter.signal w /\
    (v = w /\ Waiter.ticket w <> t \/ Waiter.ticket w = t /\ Waiter.awaits v = Buf.capacity b).
Proof.
  simpl. rewrite in_map_iff. intros (w & <- & Hw). exists w. split; [done|].
  destruct (Nat.eqb_spec (Waiter.ticket w) t); simpl; tauto.
Qed.

Lemma wait_again_core b t : core_ok b -> core_ok (wait_again b t).
Proof.
  intros ([R1 R2 R3 R4 R5] & O & [L1 L2] & [T1 T2 T3 T4 T5]). split; [by split|]. split.
  - apply (order_same [] b); [done|done|done|]. unfold queue_uids. by rewrite (wait_again_map b t Waiter.uid).
  - split; [split|split].
    + by rewrite (wait_again_map b t Waiter.ticket).
    + intros v Hv. destruct (wait_again_In b t v Hv) as (w & Hw & -> & _). by apply L2.
    + done.
    + intros v Hv. destruct (wait_again_In b t v Hv) as (w & Hw & Et & Eb & Em & Es & D). rewrite Et, Eb, Em, Es.
      destruct (T2 w Hw) as (A & B & C & E). split; [done|]. split; [done|]. split; [done|].
      destruct D as [[-> _]|[_ ->]]; [done|simpl; lia].
    + intros x Hx. rewrite (wait_again_map b t Waiter.ticket) by done. by apply T3.
    + done.
    + done.
Qed.

(** A call whose turn it is not, or which has no room, may wait. *)
Lemma wait_again_ok b t :
  core_ok b -> Buf.closed b = false -> blocked_but t b ->
  (t = Buf.admissionTurn b -> forall w, In w (Buf.waiting b) -> Waiter.ticket w = t ->
    fits b (Waiter.bytes w) = false /\ Forall (fun i => droppable i = false) (Buf.items b)) ->
  buf_ok (wait_again b t).
Proof.
  intros H Ho Hb Ht. apply open_ok; [by apply wait_again_core| |done].
  intros v Hv Etk Hr. destruct (wait_again_In b t v Hv) as (w & Hw & Et & Eb & _ & _ & D). rewrite Eb.
  change (Forall _ (Buf.items (wait_again b t))) with (Forall (fun i => droppable i = false) (Buf.items b)).
  change (fits (wait_again b t) (Waiter.bytes w)) with (fits b (Waiter.bytes w)).
  change (Buf.admissionTurn (wait_again b t)) with (Buf.admissionTurn b) in Etk. rewrite Et in Etk.
  destruct D as [[-> Hne]|[Heq _]]; [by apply Hb|]. apply Ht; [congruence|done|done].
Qed.

(** The call that owns the turn leaves, admitted or cancelled. *)
Lemma leave_turn b w cancelled :
  core_ok b -> In w (Buf.waiting b) -> Waiter.ticket w = Buf.admissionTurn b ->
  (forall t, In t cancelled <-> In t (Buf.cancelledTickets b) \/ (t = Waiter.ticket w /\ In t cancelled)) ->
  turn_ok (advanceAdmissionTurn ((without_waiter b w) <| Buf.cancelledTickets := cancelled |>)) /\
  same_but_turn (without_waiter b w) (advanceAdmissionTurn ((without_waiter b w) <| Buf.cancelledTickets := cancelled |>)).
Proof.
  intros (_ & _ & L & T) Hw Et Hc. destruct (to_range _ T w Hw) as (Hr & _).
  destruct (advance_ok ((without_waiter b w) <| Buf.cancelledTickets := cancelled |>)) as [A B];
    [simpl; lia| | | |by split]; simpl.
  - intros v Hv. apply without_waiter_In in Hv as [Hv Hne]. destruct (to_range _ T v Hv) as (A & B & C).
    split; [lia|]. split; [|done]. rewrite Hc. intros [H|[H _]]; [done|congruence].
  - intros t Ht. destruct (to_full _ T t) as [H|H]; [lia| |right; apply Hc; by left]. left.
    apply in_map_iff in H as (v & <- & Hv). apply in_map. apply without_waiter_In. split; [done|lia].
  - intros t H. apply Hc in H as [H|[-> _]]; [by apply (to_cancelled _ T)|lia].
Qed.

Lemma room_but_turn b b' : same_but_turn b b' -> room_ok b -> room_ok b'.
Proof.
  intros (Ei & Ef & Eb & _) [R1 R2 R3 R4 R5]. unfold buffer_length in *.
  by split; unfold buffer_length; rewrite ?Ei, ?Ef, ?Eb.
Qed.

Lemma order_but_turn held b b' : same_but_turn b b' -> order_but held b -> order_but held b'.
Proof.
  intros (Ei & Ef & _ & _ & _ & _ & Ew & _ & Ed & Ec) O. apply (order_same held b); [done|done|done|].
  unfold queue_uids. by rewrite Ei, Ef, Ew.
Qed.

Lemma lined_but_turn b b' : same_but_turn b b' -> lined b -> lined b'.
Proof. intros (_ & _ & _ & En & _ & _ & Ew & _). unfold lined. by rewrite En, Ew. Qed.

Lemma without_waiter_room b w : room_ok b -> room_ok (without_waiter b w).
Proof. by intros [R1 R2 R3 R4 R5]. Qed.

(** A notification settles every doubt about who may be blocked. *)
Lemma notified_ok b : core_ok b -> Buf.closed b = false -> buf_ok (notifyCapacity b).
Proof.
  intros (R & O & L & T) Ho. apply open_ok; [|by apply notify_blocked|done].
  split; [by apply notify_room|]. split; [by apply notify_order|]. split; [done|by apply notify_turn].
Qed.

Lemma buf_same b b' :
  same_state b b' -> order_ok b' -> buf_ok b -> buf_ok b'.
Proof.
  intros S O' [R O L Ho Hc]. pose proof S as S'. use_same S'. split; [by eapply room_same|done|by eapply lined_same| |].
  - rewrite Ecl. intros E. destruct (Ho E). split; [by eapply turn_same|by eapply blocked_same].
  - by rewrite Ecl, Ei, Ef.
Qed.

(** Cancelling a suspended call. *)
Lemma cancel_waiter_ok b w :
  core_ok b -> Buf.closed b = false -> In w (Buf.waiting b) ->
  buf_ok (settle (notifyCapacity
    (let b1 := (without_waiter b w) <| Buf.cancelledTickets := (Buf.cancelledTickets b ++ [Waiter.ticket w])%list |> in
     if Nat.eqb (Waiter.ticket w) (Buf.admissionTurn b1) then advanceAdmissionTurn b1 else b1))
    (Waiter.uid w) (rejected frame_cancelled)).
Proof.
  intros H Ho Hw. destruct (H) as (R & O & L & T).
  pose proof (without_waiter_order b w O L Hw) as O1. pose proof (without_waiter_lined b w L) as L1.
  pose proof (without_waiter_room b w R) as R1. cbn zeta.
  set (b1 := (without_waiter b w) <| Buf.cancelledTickets := _ |>).
  set (b2 := if Nat.eqb _ _ then _ else _).
  assert (core_but [Waiter.uid w] b2 /\ Buf.closed b2 = false) as [(R2 & O2 & L2 & T2) Ho2].
  { unfold b2. destruct (Nat.eqb_spec (Waiter.ticket w) (Buf.admissionTurn b1)) as [Et|Et].
    - destruct (leave_turn b w (Buf.cancelledTickets b ++ [Waiter.ticket w]) H Hw Et) as [T2 S2].
      { intros t. rewrite in_app_iff. simpl. split; [intros [Hc|[<-|[]]]; [by left|right]|]; tauto. }
      split; [|destruct S2 as (_ & _ & _ & _ & _ & E & _); exact (eq_trans E Ho)].
      split; [by eapply room_but_turn|]. split; [by eapply order_but_turn|]. split; [by eapply lined_but_turn|done].
    - split; [|done]. split; [by apply (room_but_turn (without_waiter b w))|].
      split; [by apply (order_same _ (without_waiter b w))|]. split; [done|]. split; simpl; [apply T| | | |].
      + intros v Hv. apply without_waiter_In in Hv as [Hv Hne]. destruct (to_range _ T v Hv) as (A & B & C).
        split; [done|]. split; [|done]. rewrite in_app_iff. intros [Hc|[Hc|[]]]; [done|by rewrite Hc in Hne].
      + intros t Ht. rewrite in_app_iff. destruct (to_full _ T t Ht) as [Hf|Hf]; [|right; by left].
        apply in_map_iff in Hf as (v & <- & Hv). destruct (decide (Waiter.ticket v = Waiter.ticket w)) as [->|Hne];
          [right; right; by left|]. left. apply in_map. by apply without_waiter_In.
      + rewrite in_app_iff. intros [Hc|[Hc|[]]]; [by apply (to_turn _ T)|done].
      + intros t. rewrite in_app_iff. intros [Hc|[<-|[]]]; [by apply (to_cancelled _ T)|apply L, Hw]. }
  assert (core_ok (settle b2 (Waiter.uid w) (rejected frame_cancelled))) as H3 by (by apply settle_core).
  assert (Buf.closed (settle b2 (Waiter.uid w) (rejected frame_cancelled)) = false) as Ho3.
  { destruct (same_settle b2 (Waiter.uid w) (rejected frame_cancelled)) as (_ & _ & _ & _ & _ & _ & _ & -> & _). done. }
  replace (settle (notifyCapacity b2) (Waiter.uid w) (rejected frame_cancelled))
    with (notifyCapacity (settle b2 (Waiter.uid w) (rejected frame_cancelled)));
    [by apply notified_ok|]. unfold settle, notifyCapacity. simpl. by case_match.
Qed.

(** A frame for which there is room goes to the end of the queue. *)
Lemma admit_room b i :
  room_ok b -> fits b (Item.bytes i) = true -> item_ok i -> room_ok (admit_item b i).
Proof.
  intros [R1 R2 R3 R4 R5] Hf Hp. apply andb_true_iff in Hf as [Hl Hb]. apply Z.ltb_lt in Hl. apply Z.leb_le in Hb.
  split; simpl; unfold buffer_length in *; simpl.
  - rewrite total_snoc. lia.
  - lia.
  - rewrite length_app. simpl. lia.
  - apply Forall_app. split; [done|]. constructor; [done|constructor].
  - done.
Qed.

(** The owner of the turn is admitted. *)
Lemma admit_waiter_ok b w :
  core_ok b -> Buf.closed b = false -> In w (Buf.waiting b) -> Waiter.ticket w = Buf.admissionTurn b ->
  fits b (Waiter.bytes w) = true -> is_aborted b (Waiter.signal w) = false ->
  buf_ok (notifyCapacity (enqueueAdmitted (advanceAdmissionTurn (without_waiter b w)) (Waiter.uid w)
            (Waiter.message w) (Waiter.bytes w) true (Waiter.signal w))).
Proof.
  intros H Ho Hw Et Hf Ha. destruct (H) as (R & O & L & T).
  destruct (leave_turn b w (Buf.cancelledTickets b) H Hw Et) as [T2 S2]; [intros t; tauto|].
  change ((without_waiter b w) <| Buf.cancelledTickets := Buf.cancelledTickets b |>) with (without_waiter b w) in *.
  set (b2 := advanceAdmissionTurn (without_waiter b w)) in *.
  pose proof S2 as (Ei & Ef & Eb & En & Eg & Ecl & Ew & Ea & Ed & Ec).
  unfold enqueueAdmitted. assert (is_aborted b2 (Waiter.signal w) = false) as ->.
  { unfold is_aborted in *. rewrite Ea. exact Ha. }
  set (i := Item.mkItem _ _ _ _ _ _).
  assert (core_ok (admit_item b2 i)) as H3.
  { split; [|split; [|split]].
    - apply admit_room; [by eapply room_but_turn, without_waiter_room| |destruct (to_range _ T w Hw) as (_ & _ & [Hn Hk] & _); split; [simpl; lia|by split; [|right]]].
      unfold fits, buffer_length in *. rewrite Ei, Ef, Eb. exact Hf.
    - apply (order_same [] b); [done|exact Ed|exact Ec|]. unfold queue_uids. simpl. rewrite Ei, Ef, Ew. simpl.
      destruct (turn_first b w L T Hw Et) as (rest & E). rewrite E. simpl. rewrite Nat.eqb_refl. simpl.
      assert (remove_waiter (Waiter.ticket w) rest = rest) as ->.
      { destruct L as [L _]. rewrite E in L. simpl in L. inversion_clear L as [|? ? _ F]. clear -F.
        induction rest as [|v rest IH]; simpl in *; [done|]. inversion_clear F as [|? ? Hlt F'].
        destruct (Nat.eqb_spec (Waiter.ticket v) (Waiter.ticket w)); [lia|]. simpl. by rewrite IH. }
      rewrite map_app. simpl. by rewrite <- app_assoc.
    - exact (lined_but_turn (without_waiter b w) b2 S2 (without_waiter_lined b w L)).
    - by destruct T2. }
  assert (buf_ok (notifyCapacity (admit_item b2 i))) as H4.
  { apply notified_ok; [done|]. simpl. exact (eq_trans Ecl Ho). }
  apply notified_ok; [|simpl; exact (eq_trans Ecl Ho)]. apply buf_core; [done|]. simpl. exact (eq_trans Ecl Ho).
Qed.

(** One turn of the loop of a suspended call, whichever way it goes. *)
Lemma admission_ok reply b w :
  room_ok b -> order_ok b -> lined b -> In w (Buf.waiting b) ->
  (Buf.closed b = false -> turn_ok b /\ blocked_but (Waiter.ticket w) b) ->
  (Buf.closed b = true -> Buf.items b = [] /\ Buf.inflight b = []) -> buf_ok (admission reply b w).
Proof.
  intros R O L Hw Hopen Hclosed. unfold admission. destruct (Buf.closed b) eqn:Ho.
  - pose proof (same_settle (without_waiter b w) (Waiter.uid w) (rejected transport_closed)) as S. pose proof S as S'.
    use_same S'. split.
    + by apply (room_same (without_waiter b w)); [|apply without_waiter_room].
    + by apply order_settle; [apply without_waiter_order|].
    + by apply (lined_same (without_waiter b w)); [|apply without_waiter_lined].
    + rewrite Ecl. simpl. congruence.
    + rewrite Ei, Ef. intros _. by apply Hclosed.
  - destruct Hopen as [T Hb]; [done|]. assert (core_ok b) as H by done.
    destruct (is_aborted b (Waiter.signal w)) eqn:Ha; [by apply cancel_waiter_ok|].
    destruct (Nat.eqb_spec (Waiter.ticket w) (Buf.admissionTurn b)) as [Et|Et]; cbn [negb];
      [|by apply wait_again_ok].
    destruct (evict_ok reply (Waiter.bytes w) (S (List.length (Buf.items b))) b H) as (H1 & A & D & _); [lia|].
    fold (evictLogsUntilFits reply b (Waiter.bytes w)) in *. set (b1 := evictLogsUntilFits _ _ _) in *.
    destruct A as ((extra & Ew) & Ef & Etn & Eg & Ecl & Ea & _).
    assert (In w (Buf.waiting b1)) as Hw1 by (rewrite Ew; apply in_or_app; by left).
    assert (Waiter.ticket w = Buf.admissionTurn b1) as Et1 by congruence.
    destruct (fits b1 (Waiter.bytes w)) eqn:Hf; cbn [negb].
    + apply admit_waiter_ok; [done|congruence|done|done|done|]. unfold is_aborted in *. by rewrite Ea.
    + destruct D as [D|D]; [congruence|]. apply wait_again_ok; [done|congruence| |].
      * intros v Hv Hne Hv'. congruence.
      * intros _ v Hv Ev. assert (v = w) as -> by (apply (waiter_unique b1); [apply H1|done|done|done]). done.
Qed.

(** ** The operations keep the invariant *)
Lemma refuse_ok b m r : buf_ok b -> buf_ok (settle (call b m).2 (Buf.calls b) (rejected r)).
Proof.
  intros H. apply (buf_same b); [|apply order_refuse, H|done].
  eapply same_trans; [apply same_call|apply same_settle].
Qed.

Lemma drop_ok b m : buf_ok b -> buf_ok (drop b m).
Proof. intros H. apply (buf_same b); [done|by apply (order_same [] b); [apply H|..]|done]. Qed.

(** The frames with one of them replaced. *)
Lemma coalesce_total l e m n :
  List.NoDup (map Item.uid l) -> In e l ->
  let newer i := if Nat.eqb (Item.uid i) (Item.uid e)
    then Item.mkItem (Item.uid i) m n (Item.nonDroppable i) (Item.signal i) (Item.captured i) else i in
  total (map newer l) = total l - Item.bytes e + n /\ map Item.uid (map newer l) = map Item.uid l.
Proof.
  intros N Hin newer. split.
  - induction l as [|i l IH]; simpl in *; [done|]. inversion_clear N as [|? ? Hi Hl]. unfold newer at 1.
    destruct Hin as [->|Hin].
    + rewrite Nat.eqb_refl. simpl. assert (map newer l = l) as ->; [|lia].
      rewrite <- (map_id l) at 2. apply map_ext_in. intros j Hj. unfold newer.
      destruct (Nat.eqb_spec (Item.uid j) (Item.uid e)) as [E|]; [|done]. destruct Hi. rewrite <- E. by apply in_map.
    + destruct (Nat.eqb_spec (Item.uid i) (Item.uid e)) as [E|]; [destruct Hi; rewrite E; by apply in_map|].
      rewrite IH by done. lia.
  - rewrite map_map. apply map_ext. intros i. unfold newer. by destruct (Nat.eqb _ _).
Qed.

Lemma coalesce_ok b m n u b' :
  buf_ok b -> Buf.closed b = false -> 0 <= n -> coalesceQueuedKeepalive b m n = Some (u, b') ->
  buf_ok b' /\ Buf.inflight b' = Buf.inflight b /\ Buf.closed b' = Buf.closed b.
Proof.
  intros H Ho Hn. unfold coalesceQueuedKeepalive. destruct (negb _); [done|].
  destruct (List.find _ (Buf.items b)) as [e|] eqn:Ef; [|done]. apply find_some in Ef as [He Hke].
  destruct (Z.ltb_spec MAX_BYTES (Buf.bytes b - Item.bytes e + n)) as [|Hle]; [done|]. intros [= _ <-].
  split; [|done]. destruct (buf_core b H Ho) as ([R1 R2 R3 R4 R5] & O & L & T). destruct (order_parts b O) as (_ & N & _).
  destruct (coalesce_total (Buf.items b) e m n N He) as [Et Eu].
  apply notified_ok; [|done]. split; [|split; [|split; [done|by destruct T]]].
  - split; simpl; unfold buffer_length in *; simpl; [rewrite Et; lia|lia|by rewrite length_map| |done].
    apply Forall_forall. intros j Hj. apply list_elem_of_In, in_map_iff in Hj as (i & <- & Hi).
    rewrite Forall_forall in R4. assert (forall x, In x (Buf.items b) -> item_ok x) as Hok
      by (intros x Hx; apply R4; by apply list_elem_of_In).
    destruct (Nat.eqb_spec (Item.uid i) (Item.uid e)) as [E|]; [|by apply Hok].
    rewrite (NoDup_inj Item.uid _ i e N Hi He E). destruct (Hok e He) as (_ & Hk & _).
    split; [done|]. split; [intros _|left]; by apply Hk.
  - apply (order_same [] b); [done|done|done|]. unfold queue_uids. simpl. by rewrite Eu.
Qed.

(** A log is admitted behind all the others. *)
Lemma admit_log_ok b m n nd g :
  buf_ok b -> Buf.closed b = false -> hasWaitingAdmission b = false -> fits b n = true -> frame_ok n m g ->
  buf_ok (enqueueAdmitted (call b m).2 (Buf.calls b) m n nd g).
Proof.
  intros H Ho Hw Hf Hn. destruct (buf_core b H Ho) as (R & O & L & T). unfold enqueueAdmitted.
  destruct (is_aborted _ g); [by apply refuse_ok|]. apply notified_ok; [|done].
  assert (Buf.waiting b = []) as Ew.
  { destruct (Buf.waiting b) as [|v l] eqn:E; [done|]. destruct (to_range _ T v) as [Hr _]; [rewrite E; by left|].
    unfold hasWaitingAdmission in Hw. apply negb_false_iff, Nat.eqb_eq in Hw. lia. }
  split; [apply admit_room; [by apply (room_same b)|done|]|]; [destruct Hn as [Hn Hk]; split; [simpl; lia|by split; [|right]]|].
  split; [|split; [done|by destruct T]].
  apply (order_append [] b); [done|done|done|]. unfold queue_uids. simpl. rewrite Ew, map_app. simpl.
  by rewrite !app_nil_r, app_assoc.
Qed.

Definition keeps (b b' : WsOutboundBuffer) : Prop :=
  buf_ok b' /\ Buf.inflight b' = Buf.inflight b /\ Buf.closed b' = Buf.closed b.

Lemma advance_frame b :
  Buf.inflight (advanceAdmissionTurn b) = Buf.inflight b /\ Buf.closed (advanceAdmissionTurn b) = Buf.closed b.
Proof.
  assert (forall fuel b, Buf.inflight (skip_cancelled fuel b) = Buf.inflight b /\
    Buf.closed (skip_cancelled fuel b) = Buf.closed b) as H.
  { induction fuel as [|fuel IH]; intros b1; cbn [skip_cancelled]; [done|].
    destruct (existsb _ _); [|done].
    match goal with |- context [skip_cancelled fuel ?x] => exact (IH x) end. }
  exact (H _ (b <| Buf.admissionTurn := S (Buf.admissionTurn b) |>)).
Qed.

Lemma admission_frame reply b w :
  core_ok b \/ Buf.closed b = true -> In w (Buf.waiting b) ->
  Buf.inflight (admission reply b w) = Buf.inflight b /\ Buf.closed (admission reply b w) = Buf.closed b.
Proof.
  intros H Hw. unfold admission. destruct (Buf.closed b) eqn:Ho.
  - destruct (same_settle (without_waiter b w) (Waiter.uid w) (rejected transport_closed)) as (_ & -> & _ & _ & _ & _ & _ & -> & _).
    done.
  - destruct H as [H|]; [|done].
    destruct (is_aborted b (Waiter.signal w)).
    + match goal with |- context [settle ?x ?u ?o] => destruct (same_settle x u o) as (_ & -> & _ & _ & _ & _ & _ & -> & _) end.
      simpl. destruct (Nat.eqb _ _); [|done].
      match goal with |- context [advanceAdmissionTurn ?x] => destruct (advance_frame x) as [-> ->] end. done.
    + destruct (negb _); [done|].
      destruct (evict_ok reply (Waiter.bytes w) (S (List.length (Buf.items b))) b H) as (_ & A & _); [lia|].
      fold (evictLogsUntilFits reply b (Waiter.bytes w)) in *. destruct A as (_ & Ef & _ & _ & Ecl & _).
      destruct (negb _); [split; [exact Ef|exact (eq_trans Ecl Ho)]|].
      unfold enqueueAdmitted. destruct (is_aborted _ _); simpl.
      * match goal with |- context [settle ?x ?u ?o] => destruct (same_settle x u o) as (_ & -> & _ & _ & _ & _ & _ & -> & _) end.
        match goal with |- context [advanceAdmissionTurn ?x] => destruct (advance_frame x) as [-> ->] end. simpl. split; congruence.
      * match goal with |- context [advanceAdmissionTurn ?x] => destruct (advance_frame x) as [-> ->] end. simpl. split; congruence.
Qed.

Lemma enqueue_ok reply b m nd g :
  buf_ok b -> (is_keepalive m = true -> g = None) -> keeps b (enqueue reply b m nd g).2.
Proof.
  intros H Hk. unfold enqueue. pose proof (message_bytes_nonneg m) as Hn.
  assert (forall b r, buf_ok b -> keeps b (settle (call b m).2 (Buf.calls b) (rejected r))) as Hrefuse.
  { intros b0 r H0. split; [by apply refuse_ok|].
    destruct (same_settle (call b0 m).2 (Buf.calls b0) (rejected r)) as (_ & -> & _ & _ & _ & _ & _ & -> & _). done. }
  destruct (Buf.closed b) eqn:Ho; [by apply Hrefuse|].
  destruct (Z.ltb_spec MAX_BYTES (message_bytes m)) as [|Hle].
  { cbn [snd call]. destruct (nd || _); [by apply Hrefuse|]. by apply (Hrefuse (drop b m)), drop_ok. }
  destruct (coalesceQueuedKeepalive b m (message_bytes m)) as [[u b']|] eqn:Ec; [by eapply coalesce_ok|].
  destruct (negb (nd || negb (is_log m)) && _) eqn:Hd; [by apply (Hrefuse (drop b m)), drop_ok|].
  destruct (nd || negb (is_log m)) eqn:Hr.
  - cbn [snd].
    pose proof (suspend_core [] b m (message_bytes m) g (conj (conj Hn Hle) Hk) (buf_core b H Ho)) as Hs.
    match goal with |- keeps b (admission reply ?x ?y) => set (b1 := x) in *; set (w := y) end.
    assert (In w (Buf.waiting b1)) as Hw by (apply in_or_app; right; by left).
    destruct (admission_frame reply b1 w (or_introl Hs) Hw) as [Ef Ecl].
    split; [|split; [exact Ef|exact Ecl]].
    destruct (Hs) as (R & O & L & T). apply admission_ok; [done|done|done|done| |simpl; congruence].
    intros _. split; [done|]. intros v Hv Hne Et Hrun. apply in_app_or in Hv as [Hv|[<-|[]]]; [|done].
    destruct (bk_open _ H Ho) as [_ Bl]. exact (Bl v Hv Et Hrun).
  - cbn [snd call] in *. apply orb_false_iff in Hd as [Hw Hf]. apply negb_false_iff in Hf. split; [by apply admit_log_ok; [..|split]|].
    unfold enqueueAdmitted. destruct (is_aborted _ g); [|done].
    match goal with |- context [settle ?x ?u ?o] => destruct (same_settle x u o) as (_ & -> & _ & _ & _ & _ & _ & -> & _) end. done.
Qed.

(** ** The transport keeps the invariant *)
Record link_ok (t : Transport) : Prop := {
  lk_buffer : buf_ok (Link.buffer t);
  lk_writing : Buf.inflight (Link.buffer t) = match Link.writing t with Some i => [i] | None => [] end;
  lk_shut : Link.shut t = Buf.closed (Link.buffer t);
}.

Lemma fits_eq b b' n : buffer_length b' = buffer_length b -> Buf.bytes b' = Buf.bytes b -> fits b' n = fits b n.
Proof. unfold fits. by intros -> ->. Qed.

(** The oldest frame is taken. *)
Lemma take_ok b : buf_ok b -> Buf.inflight b = [] ->
  buf_ok (take b).2 /\ Buf.inflight (take b).2 = match (take b).1 with Some i => [i] | None => [] end /\
  Buf.closed (take b).2 = Buf.closed b.
Proof.
  intros H Hf. unfold take. destruct (Buf.items b) as [|i rest] eqn:Ei; [by split|]. cbn [fst snd].
  rewrite Hf. split; [|done].
  assert (Buf.closed b = false) as Ho.
  { destruct (Buf.closed b) eqn:Ho; [|done]. destruct (bk_closed _ H Ho) as [E _]. congruence. }
  destruct (buf_core b H Ho) as ([R1 R2 R3 R4 R5] & O & L & T). destruct (bk_open _ H Ho) as [_ Bl].
  rewrite Ei in R4. inversion_clear R4 as [|? ? Hi Hrest]. rewrite Ei in R1. rewrite Hf in R1. simpl in R1.
  apply open_ok; [|intros w Hw Et Hr|done]; [split; [|split; [|split; [done|by destruct T]]]|].
  - split; simpl; unfold buffer_length in *; simpl; [lia|done| |done|constructor; [done|constructor]].
    rewrite Ei, Hf in R3. simpl in R3. lia.
  - apply (order_same [] b); [done|done|done|]. unfold queue_uids. simpl. by rewrite Ei, Hf.
  - destruct (Bl w Hw Et Hr) as [F D]. rewrite Ei in D. inversion_clear D. split; [|done].
    rewrite (fits_eq b); [exact F|unfold buffer_length; simpl; rewrite Ei, Hf; simpl; lia|done].
Qed.

(** A frame that must not be lost goes back to the front. *)
Lemma put_back_ok b i :
  buf_ok b -> Buf.closed b = false -> Buf.inflight b = [i] -> droppable i = false ->
  buf_ok (putBack b i) /\ Buf.inflight (putBack b i) = [].
Proof.
  intros H Ho Hf Hd. destruct (buf_core b H Ho) as ([R1 R2 R3 R4 R5] & O & L & T). destruct (bk_open _ H Ho) as [_ Bl].
  assert (remove_item (Item.uid i) (Buf.inflight b) = []) as Er by (rewrite Hf; simpl; by rewrite Nat.eqb_refl).
  split; [|exact Er]. rewrite Hf in R1, R5. simpl in R1. inversion_clear R5 as [|? ? Hi _].
  apply open_ok; [|intros w Hw Et Hr|done]; [split; [|split; [|split; [done|by destruct T]]]|].
  - split; simpl; unfold buffer_length in *; simpl; rewrite ?Er; simpl; [lia|done| |by constructor|done].
    rewrite Hf in R3. simpl in R3. lia.
  - apply (order_same [] b); [done|done|done|]. unfold queue_uids. simpl. by rewrite Er, Hf.
  - destruct (Bl w Hw Et Hr) as [F D]. split; [|by constructor].
    rewrite (fits_eq b); [exact F|unfold buffer_length; simpl; rewrite Er, Hf; simpl; lia|done].
Qed.

(** The frame in flight is finished with. *)
Lemma finish_ok b i o :
  buf_ok b -> Buf.closed b = false -> Buf.inflight b = [i] ->
  buf_ok (settle (complete b i) (Item.uid i) o) /\ Buf.inflight (settle (complete b i) (Item.uid i) o) = [] /\
  Buf.closed (settle (complete b i) (Item.uid i) o) = false.
Proof.
  intros H Ho Hf. destruct (buf_core b H Ho) as ([R1 R2 R3 R4 R5] & O & L & T).
  assert (remove_item (Item.uid i) (Buf.inflight b) = []) as Er by (rewrite Hf; simpl; by rewrite Nat.eqb_refl).
  assert (complete b i = notifyCapacity (b <| Buf.inflight := [] |> <| Buf.bytes := Buf.bytes b - Item.bytes i |>)) as Ec.
  { unfold complete. rewrite Er, Hf. simpl. by rewrite Nat.eqb_refl. }
  set (b1 := b <| Buf.inflight := [] |> <| Buf.bytes := Buf.bytes b - Item.bytes i |>) in *.
  rewrite Hf in R1, R5. simpl in R1. inversion_clear R5 as [|? ? [Hi _] _].
  assert (queue_uids b = Item.uid i :: queue_uids b1) as Eq by (unfold queue_uids; simpl; by rewrite Hf).
  destruct (O) as [S P]. apply sorted_app in S as (S1 & S2 & D). rewrite Eq in S2. inversion_clear S2 as [|? ? S2' F].
  rewrite Forall_forall in F.
  assert (order_but [Item.uid i] (notifyCapacity b1)) as O1.
  { apply (order_take b); [done|rewrite Eq; by left|done|done|].
    transitivity (queue_uids b1); [done|]. rewrite Eq. simpl. rewrite Nat.eqb_refl. simpl. symmetry. apply without_id.
    intros Hin. apply list_elem_of_In, F in Hin. lia. }
  assert (order_ok (settle (notifyCapacity b1) (Item.uid i) o)) as O2.
  { apply order_settle; [done|]. intros _. split.
    - intros v Hv. apply D; [exact Hv|rewrite Eq; by left].
    - intros v Hv. apply F. by apply list_elem_of_In. }
  pose proof (same_settle (notifyCapacity b1) (Item.uid i) o) as S. rewrite Ec.
  assert (turn_ok b1) as T1 by (by destruct T).
  split; [|destruct S as (_ & -> & _ & _ & _ & _ & _ & -> & _); done].
  split; [|done|by apply (lined_same (notifyCapacity b1))| |].
  - apply (room_same (notifyCapacity b1)); [done|]. split; simpl; unfold buffer_length in *; simpl; [lia|lia| |done|done].
    rewrite Hf in R3. simpl in R3. lia.
  - intros _. split; [apply (turn_same (notifyCapacity b1)); [done|by apply notify_turn]|].
    apply (blocked_same (notifyCapacity b1)); [done|by apply notify_blocked].
  - destruct S as (_ & _ & _ & _ & _ & _ & _ & -> & _). simpl. congruence.
Qed.

(** Aborting removes queued frames. *)
Lemma cancel_item_ok b i :
  buf_ok b -> Buf.closed b = false -> In i (Buf.items b) -> Item.signal i <> None -> buf_ok (cancel_item b i) /\
  Buf.closed (cancel_item b i) = false /\ Buf.inflight (cancel_item b i) = Buf.inflight b /\
  Buf.items (cancel_item b i) = remove_item (Item.uid i) (Buf.items b).
Proof.
  intros H Ho Hi Hsig. unfold cancel_item.
  assert (Item.captured i = Item.bytes i) as ->.
  { destruct (bk_room _ H) as [_ _ _ R4 _]. rewrite Forall_forall in R4. apply list_elem_of_In in Hi.
    destruct (R4 i Hi) as (_ & _ & [E|E]); congruence. }
  fold (without_item b i).
  destruct (same_settle (without_item b i) (Item.uid i) (rejected frame_cancelled)) as (Ei & Ef & _ & _ & _ & _ & _ & Ecl & _).
  split; [|simpl; rewrite Ecl, Ef, Ei; done]. apply notified_ok; [|rewrite Ecl; done].
  apply settle_core. apply without_item_core; [by apply buf_core|done].
Qed.

Lemma cancel_items_ok l : forall b,
  buf_ok b -> Buf.closed b = false -> List.NoDup (map Item.uid l) ->
  (forall i, In i l -> In i (Buf.items b) /\ Item.signal i <> None) ->
  buf_ok (fold_left cancel_item l b) /\ Buf.closed (fold_left cancel_item l b) = false /\
  Buf.inflight (fold_left cancel_item l b) = Buf.inflight b.
Proof.
  induction l as [|i l IH]; intros b H Ho N Hin; simpl; [by split|]. inversion_clear N as [|? ? Hi N'].
  destruct (cancel_item_ok b i H Ho) as (H1 & Ho1 & Ef1 & Ei1); [apply Hin; by left|apply Hin; by left|].
  destruct (IH (cancel_item b i) H1 Ho1 N') as (H2 & Ho2 & Ef2).
  - intros j Hj. destruct (Hin j) as [Hj1 Hj2]; [by right|]. split; [|done]. rewrite Ei1. apply filter_In.
    split; [done|]. apply negb_true_iff, Nat.eqb_neq. intros E. apply Hi. rewrite <- E. by apply in_map.
  - split; [done|]. split; [done|]. congruence.
Qed.

Lemma abort_ok b g : buf_ok b -> keeps b (abort b g).
Proof.
  intros H. unfold abort. set (b0 := b <| Buf.aborted := g :: Buf.aborted b |>).
  assert (buf_ok b0) as H0.
  { destruct H as [[R1 R2 R3 R4 R5] O L Ho Hc]. split; [by split|by apply (order_same [] b)|done| |done].
    intros E. destruct (Ho E) as [T Bl]. split; [by destruct T|]. intros w Hw Et Hr. apply Bl; [done|done|].
    unfold runnable in *. apply orb_false_iff in Hr as [Ha Hr]. apply orb_false_iff. split; [exact Ha|]. unfold is_aborted in *.
    destruct (Waiter.signal w) as [k|]; [|done]. simpl in Hr. by apply orb_false_iff in Hr as [_ Hr]. }
  destruct (Buf.closed b) eqn:Ho.
  { destruct (bk_closed _ H Ho) as [E _]. rewrite E. simpl. by split. }
  assert (List.NoDup (map Item.uid (Buf.items b))) as N by (by destruct (order_parts b (bk_order _ H)) as (_ & N & _)).
  destruct (cancel_items_ok (List.filter (fun i => bool_decide (Item.signal i = Some g)) (Buf.items b)) b0) as (H1 & Ho1 & Ef1);
    [done|done| |intros i Hi; apply filter_In in Hi as [Hi Hg]; apply bool_decide_eq_true in Hg; split; [done|congruence]|split; [exact H1|]; split; [exact Ef1|congruence]].
  clear -N. induction (Buf.items b) as [|i l IH]; simpl in *; [constructor|]. inversion_clear N as [|? ? Hi N'].
  destruct (bool_decide _); [|by apply IH]. simpl. constructor; [|by apply IH]. intros Hin. apply Hi.
  apply in_map_iff in Hin as (j & <- & Hj). apply filter_In in Hj as [Hj _]. by apply in_map.
Qed.

(** Rejecting everything. *)
Lemma settle_all_new o l : forall b,
  List.NoDup (map fst (Buf.deliveries b) ++ map Item.uid l) ->
  settle_all b l o = b <| Buf.deliveries := (Buf.deliveries b ++ map (fun i => (Item.uid i, o)) l)%list |>.
Proof.
  induction l as [|i l IH]; intros b N; simpl.
  - rewrite app_nil_r. by destruct b.
  - simpl in N. unfold settle_all in *. simpl. rewrite settle_new.
    + rewrite IH.
      * simpl. by rewrite <- app_assoc.
      * simpl. rewrite map_app, <- app_assoc. exact N.
    + intros Hin. apply NoDup_remove_2 in N. apply N. apply in_or_app. by left.
Qed.

Lemma NoDup_app_parts (l1 l2 l3 l4 : list nat) :
  List.NoDup (l1 ++ l2 ++ l3 ++ l4) -> List.NoDup (l1 ++ l3) /\ List.NoDup ((l1 ++ l3) ++ l2).
Proof.
  intros N. assert (List.NoDup (((l1 ++ l3) ++ l2) ++ l4)) as N'.
  { eapply Permutation.Permutation_NoDup; [|exact N]. rewrite <- !app_assoc. apply Permutation_app_head.
    rewrite !app_assoc. apply Permutation_app_tail. apply Permutation_app_comm. }
  apply NoDup_app_remove_r in N'. split; [by apply NoDup_app_remove_r in N'|done].
Qed.

Lemma reject_all_ok b : buf_ok b -> buf_ok (rejectAll b) /\ Buf.inflight (rejectAll b) = [] /\ Buf.closed (rejectAll b) = true.
Proof.
  intros H. unfold rejectAll. set (o := rejected transport_closed). set (b0 := b <| Buf.closed := true |>).
  pose proof (order_NoDup [] b (bk_order _ H)) as N. unfold queue_uids in N. simpl in N.
  destruct (NoDup_app_parts _ _ _ _ N) as [N1 N2]. change (Buf.items b0) with (Buf.items b).
  rewrite (settle_all_new o (Buf.items b) b0) by done.
  set (b1 := b0 <| Buf.deliveries := _ |>). change (Buf.inflight b1) with (Buf.inflight b).
  rewrite (settle_all_new o (Buf.inflight b) b1).
  2:{ simpl. rewrite map_app, map_map. exact N2. }
  split; [|done]. destruct (bk_order _ H) as [S P]. apply sorted_app in S as (S1 & S2 & D).
  assert (forall l, List.filter is_resolved (map (fun i => (Item.uid i, o)) l) = []) as Hno
    by (induction l as [|i l IH]; [done|exact IH]).
  split; simpl.
  - split; simpl; [lia|unfold MAX_BYTES; lia|unfold buffer_length, MAX_ITEMS; simpl; lia|done|done].
  - split.
    + unfold resolved_uids. simpl. rewrite !List.filter_app, !Hno, !app_nil_r. apply sorted_app. split; [exact S1|].
      unfold queue_uids in *. simpl. apply sorted_app in S2 as (_ & S2 & _). apply sorted_app in S2 as (_ & S3 & _).
      split; [exact S3|]. intros x y Hx Hy. apply D; [exact Hx|]. rewrite !in_app_iff. by right; right.
    + unfold queue_uids in *. simpl. simpl in P. rewrite <- P, !map_app, !map_map. simpl. rewrite <- !app_assoc.
      apply Permutation_app_head. rewrite !app_assoc. apply Permutation_app_tail. apply Permutation_app_comm.
  - exact (bk_lined _ H).
  - done.
  - done.
Qed.

(** ** Steps *)
Lemma settle_inflight_ok t i failed :
  buf_ok (Link.buffer t) -> Buf.closed (Link.buffer t) = false -> Buf.inflight (Link.buffer t) = [i] ->
  buf_ok (Link.buffer (settleInflight t i failed)) /\ Buf.inflight (Link.buffer (settleInflight t i failed)) = [] /\
  Buf.closed (Link.buffer (settleInflight t i failed)) = false /\ Link.writing (settleInflight t i failed) = None /\
  Link.shut (settleInflight t i failed) = Link.shut t.
Proof.
  intros H Ho Hf. unfold settleInflight.
  destruct (is_aborted _ _); [destruct (finish_ok (Link.buffer t) i (rejected frame_cancelled) H Ho Hf); tauto|].
  destruct failed; [|destruct (finish_ok (Link.buffer t) i resolved H Ho Hf); tauto].
  destruct (droppable i) eqn:Hd.
  { destruct (finish_ok (drop (Link.buffer t) (Item.message i)) i (rejected write_failed)); [by apply drop_ok|done|done|tauto]. }
  destruct (Link.shut t); [destruct (finish_ok (Link.buffer t) i (rejected write_failed) H Ho Hf); tauto|].
  destruct (put_back_ok (Link.buffer t) i H Ho Hf Hd). by split.
Qed.

Lemma writing_open t i : link_ok t -> Link.writing t = Some i ->
  Buf.inflight (Link.buffer t) = [i] /\ Buf.closed (Link.buffer t) = false.
Proof.
  intros [B W _] E. rewrite E in W. split; [done|]. destruct (Buf.closed _) eqn:Ho; [|done].
  destruct (bk_closed _ B Ho) as [_ E']. congruence.
Qed.

Lemma step_link t t' : transport_step t t' -> link_ok t -> link_ok t'.
Proof.
  intros Hs H. destruct (H) as [B W Sh]. destruct Hs as [reply t m nd g Hk|reply t w Hw Hr|t open_|t i failed Ew|t g|t].
  - unfold send. destruct (_ || _); [done|]. pose proof (enqueue_ok reply (Link.buffer t) m nd g B Hk) as (B1 & Ef & Ec).
    destruct (enqueue reply (Link.buffer t) m nd g) as [u b]. cbn [fst snd] in *. split; simpl; congruence.
  - assert (core_ok (Link.buffer t) \/ Buf.closed (Link.buffer t) = true) as Hc.
    { destruct (Buf.closed (Link.buffer t)) eqn:Ho; [by right|left; by apply buf_core]. }
    destruct (admission_frame reply (Link.buffer t) w Hc Hw) as [Ef Ec].
    split; simpl; [|congruence|congruence]. destruct B as [R O L Ho Hcl]. apply admission_ok; try done.
    intros E. destruct (Ho E) as [T Bl]. split; [done|]. intros v Hv _. by apply Bl.
  - unfold pump. destruct (Link.writing t) eqn:Ew; [done|]. destruct (negb _); [done|].
    destruct (take_ok (Link.buffer t) B W) as (B1 & Ef & Ec). destruct (take (Link.buffer t)) as [i b].
    cbn [fst snd] in *. split; simpl; congruence.
  - destruct (writing_open t i H Ew) as [Hf Ho].
    destruct (settle_inflight_ok t i failed B Ho Hf) as (B1 & Ef & Ec & Ew1 & Es). split; [done|by rewrite Ew1|congruence].
  - destruct (abort_ok (Link.buffer t) g B) as (B1 & Ef & Ec). split; simpl; congruence.
  - unfold close. cbn [Link.writing]. set (t1 := Link.mkTransport (Link.buffer t) (Link.writing t) true).
    set (t2 := match Link.writing t with Some i => settleInflight t1 i true | None => t1 end).
    assert (buf_ok (Link.buffer t2) /\ Link.writing t2 = None /\ Link.shut t2 = true) as (B2 & W2 & S2).
    { unfold t2. destruct (Link.writing t) as [i|] eqn:Ew; [|by split].
      destruct (writing_open t i H Ew) as [Hf Ho].
      destruct (settle_inflight_ok t1 i true B Ho Hf) as (B1 & _ & _ & Ew1 & Es). by split. }
    destruct (reject_all_ok (Link.buffer t2) B2) as (B3 & Ef & Ec). split; simpl; [done| |exact (eq_trans S2 (eq_sym Ec))].
    fold t2. rewrite W2. exact Ef.
Qed.

Lemma new_ok : link_ok new_transport.
Proof.
  split; [|done|done]. split; [|split; [constructor|done]|split; [constructor|done]| |done].
  - split; simpl; [done|unfold MAX_BYTES; lia|unfold buffer_length, MAX_ITEMS; simpl; lia|done|done].
  - intros _. split; [|done]. split; simpl; [done|done|lia|by intros []|done].
Qed.

Lemma steps_link t t' : rtc transport_step t t' -> link_ok t -> link_ok t'.
Proof. induction 1 as [|t1 t2 t3 Hs _ IH]; [done|]. intros H. apply IH. by eapply step_link. Qed.

Lemma reachable_ok t : reachable t -> link_ok t.
Proof. intros H. eapply steps_link; [exact H|apply new_ok]. Qed.

(** ** Contents *)

(** The frames in flight, queued and suspended, in the order they will be sent. *)
Definition frames (b : WsOutboundBuffer) : list (nat * json) :=
  (map (fun i => (Item.uid i, Item.message i)) (Buf.inflight b ++ Buf.items b) ++
   map (fun w => (Waiter.uid w, Waiter.message w)) (Buf.waiting b))%list.






(** No call is added, no frame appears and none changes. *)
Definition fewer (b b' : WsOutboundBuffer) : Prop :=
  Buf.sent b' = Buf.sent b /\ Buf.calls b' = Buf.calls b /\ incl (frames b') (frames b).

#[global] Instance fewer_preorder : PreOrder fewer.
Proof.
  split; [intros b; by split; [|split; [|apply incl_refl]]|].
  intros b1 b2 b3 (S1 & C1 & I1) (S2 & C2 & I2). split; [congruence|]. split; [congruence|by eapply incl_tran].
Qed.

































(** ** Properties *)

(** The buffer is bounded and its accounting exact: after any interleaving of sends,
    wake-ups, writes, failures, aborts and a close, the accounted bytes are those of the
    frames queued or in flight, never more than 4 MiB, and never more than 1000 frames are
    held. *)
Theorem buffer_bounded t :
  reachable t ->
  Buf.bytes (Link.buffer t) = total (Buf.items (Link.buffer t)) + total (Buf.inflight (Link.buffer t)) /\
  0 <= Buf.bytes (Link.buffer t) <= MAX_BYTES /\ buffer_length (Link.buffer t) <= MAX_ITEMS.
Proof.
  intros H. destruct (bk_room _ (lk_buffer _ (reachable_ok t H))) as [R1 R2 R3 R4 R5].
  assert (forall l, Forall item_ok l -> 0 <= total l) as Hp.
  { induction 1 as [|i l [Hi _] _ IH]; simpl; lia. }
  apply Hp in R4, R5. split; [done|]. split; [lia|done].
Qed.


(** [C32] No wake-up is lost: in every reachable state of an open transport that has suspended
    calls the oldest one owns the turn; and when nothing is queued or in flight it may run, and
    running it queues its frame (unless it was aborted).  So a suspended frame is never stranded
    by a buffer that has run empty. *)
Theorem no_lost_wakeup reply t w :
  reachable t -> Link.shut t = false -> head (Buf.waiting (Link.buffer t)) = Some w ->
  Waiter.ticket w = Buf.admissionTurn (Link.buffer t) /\
  (buffer_length (Link.buffer t) = 0 ->
   runnable (Link.buffer t) w = true /\
   (is_aborted (Link.buffer t) (Waiter.signal w) = false ->
    Buf.items (admission reply (Link.buffer t) w) =
      [Item.mkItem (Waiter.uid w) (Waiter.message w) (Waiter.bytes w) true (Waiter.signal w) (Waiter.bytes w)])).
Proof.
  intros H Hopen Hhead. destruct (reachable_ok t H) as [B _ Hs]. rewrite Hopen in Hs. symmetry in Hs.
  destruct (bk_open _ B Hs) as [T Bl]. pose proof (bk_lined _ B) as L. pose proof (buf_core _ B Hs) as C.
  set (b := Link.buffer t) in *.
  destruct (Buf.waiting b) as [|v rest] eqn:Ew; [done|]. simpl in Hhead. injection Hhead as ->.
  assert (In w (Buf.waiting b)) as Hw by (rewrite Ew; by left).
  destruct (to_range _ T w Hw) as (Hr & _ & [Hb _] & _).
  assert (Waiter.ticket w = Buf.admissionTurn b) as Et.
  { destruct (to_full _ T (Buf.admissionTurn b)) as [Hin|Hin]; [lia| |by apply (to_turn _ T) in Hin].
    apply in_map_iff in Hin as (v & Ev & Hv). destruct (turn_first b v L T Hv Ev) as (rest' & E'). congruence. }
  split; [done|]. intros Hlen.
  assert (Buf.items b = [] /\ Buf.inflight b = []) as [Hi Hf].
  { unfold buffer_length in Hlen. destruct (Buf.items b), (Buf.inflight b); simpl in Hlen; try lia. done. }
  assert (fits b (Waiter.bytes w) = true) as Hfit.
  { destruct (bk_room _ B) as [R1 _ _ _ _]. rewrite Hi, Hf in R1. simpl in R1. unfold fits. rewrite Hlen, R1.
    apply andb_true_iff. split; [done|]. apply Z.leb_le. lia. }
  split.
  - destruct (runnable b w) eqn:Hrun; [done|]. destruct (Bl w Hw Et Hrun). congruence.
  - intros Ha. unfold admission. rewrite Hs, Ha, Et, Nat.eqb_refl. cbn [negb].
    unfold evictLogsUntilFits. rewrite Hi. cbn [List.length evict]. rewrite Hfit, Hfit. cbn [negb].
    destruct (leave_turn b w (Buf.cancelledTickets b) C Hw Et) as [_ S2]; [intros x; tauto|].
    change ((without_waiter b w) <| Buf.cancelledTickets := Buf.cancelledTickets b |>) with (without_waiter b w) in *.
    destruct S2 as (Ei & _ & _ & _ & _ & _ & _ & Ea & _). unfold enqueueAdmitted.
    assert (is_aborted (advanceAdmissionTurn (without_waiter b w)) (Waiter.signal w) = false) as ->.
    { unfold is_aborted in *. rewrite Ea. exact Ha. }
    simpl. rewrite Ei. simpl. by rewrite Hi.
Qed.

(** ** Retained frames *)














(** ** Witnesses *)
Definition quiet_drop (m : json) : option json := None.

Definition status_frame : json := JObject [("type", JString "session:status"); ("sessionId", JString "s1")].
Definition log_frame : json := JObject [("type", JString "session:log"); ("content", JString "hello")].

Definition send_frame (t : Transport) (m : json) : Transport := (send quiet_drop t m false None).2.

(** A frame is taken and written. *)
Definition write_one (t : Transport) : Transport :=
  let t := pump t true in
  match Link.writing t with Some i => settleInflight t i false | None => t end.

Lemma reach_send t m : reachable t -> reachable (send_frame t m).
Proof. intros H. eapply rtc_r; [exact H|]. by apply step_send. Qed.

Lemma reach_write t : reachable t -> reachable (write_one t).
Proof.
  intros H. assert (reachable (pump t true)) as H1 by (eapply rtc_r; [exact H|apply step_pump]).
  unfold write_one. destruct (Link.writing (pump t true)) as [i|] eqn:E; [|exact H1].
  eapply rtc_r; [exact H1|]. by apply step_settle.
Qed.

(** A status frame in flight, a log behind it. *)
Definition two_frames : Transport := pump (send_frame (send_frame new_transport status_frame) log_frame) true.

Lemma two_frames_reachable : reachable two_frames.
Proof. eapply rtc_r; [|apply step_pump]. apply reach_send, reach_send, rtc_refl. Qed.

Lemma buffer_bounded_witness :
  0 <= Buf.bytes (Link.buffer two_frames) <= MAX_BYTES /\ buffer_length (Link.buffer two_frames) = 2.
Proof.
  split; [|vm_compute; reflexivity]. exact (proj1 (proj2 (buffer_bounded two_frames two_frames_reachable))).
Defined.

Definition keepalive (at_ : string) : json := JObject [("type", JString "host:keepalive"); ("at", JString at_)].



(** A thousand frames fill the buffer, one more is suspended, and all are written before
    it runs again. *)
Definition frame_size : Z := Eval vm_compute in message_bytes status_frame.

Definition queued_frame (k : nat) : WsBufferItem := Item.mkItem k status_frame frame_size true None frame_size.

Definition sent_frames (n : nat) : list (nat * json) := map (fun k => (k, status_frame)) (seq 0 n).

(** After [n] sends. *)
Definition filled (n : nat) : Transport :=
  Link.mkTransport
    (Buf.mkBuffer (map queued_frame (seq 0 n)) [] n n [] (2 * n) false (Z.of_nat n * frame_size) [] n [] [] []
       (sent_frames n))
    None false.

Definition late_waiter : Waiter := Waiter.mkWaiter 1000 1000 status_frame frame_size None 2000.

(** After one more send and [k] writes. *)
Definition draining (k : nat) : Transport :=
  Link.mkTransport
    (Buf.mkBuffer (map queued_frame (seq k (1000 - k))) [] 1001 1000 [] (2000 + k) false
       (Z.of_nat (1000 - k) * frame_size) [late_waiter] 1001 (map (fun i => (i, resolved)) (seq 0 k)) [] []
       (sent_frames 1001))
    None false.

Lemma filled_fits n bytes :
  (n < 1000)%nat -> bytes <= frame_size ->
  fits (Link.buffer (filled n)) bytes = true.
Proof.
  intros Hn Hb. unfold fits, buffer_length, filled. cbn [Link.buffer Buf.items Buf.inflight Buf.bytes].
  rewrite length_map, length_seq. unfold MAX_ITEMS, MAX_BYTES, frame_size in *. cbn [List.length].
  apply andb_true_intro. split; [apply Z.ltb_lt|apply Z.leb_le]; lia.
Qed.

(** A retained frame that fits, or does not, when no call is suspended. *)
Lemma enqueue_retained items inflight n cap total calls deliveries dropped aborted sent m :
  let b := Buf.mkBuffer items inflight n n [] cap false total [] calls deliveries dropped aborted sent in
  is_log m = false -> is_keepalive m = false -> (MAX_BYTES <? message_bytes m) = false ->
  List.find droppable items = None ->
  (enqueue quiet_drop b m false None).2 =
  if fits b (message_bytes m)
  then Buf.mkBuffer (items ++ [Item.mkItem calls m (message_bytes m) true None (message_bytes m)]) inflight
         (S n) (S n) [] (S (S cap)) false (total + message_bytes m) [] (S calls) deliveries dropped aborted
         (sent ++ [(calls, m)])
  else Buf.mkBuffer items inflight (S n) n [] cap false total
         [Waiter.mkWaiter n calls m (message_bytes m) None cap] (S calls) deliveries dropped aborted (sent ++ [(calls, m)]).
Proof.
  intros b Hl Hk Hm Hd. unfold enqueue, coalesceQueuedKeepalive. rewrite Hl, Hk, Hm. cbn.
  unfold admission, suspend, evictLogsUntilFits. cbn. rewrite !Nat.eqb_refl. cbn.
  rewrite Hd. unfold fits, buffer_length. cbn.
  destruct (Z.of_nat (List.length items) + Z.of_nat (List.length inflight) <? MAX_ITEMS) eqn:E1,
    (total + message_bytes m <=? MAX_BYTES) eqn:E2; cbn; unfold fits, buffer_length; cbn; rewrite E1, ?E2; cbn;
    unfold wait_again, without_waiter, remove_waiter; cbn; rewrite ?Nat.eqb_refl; reflexivity.
Qed.

Lemma no_log_queued l : List.find droppable (map queued_frame l) = None.
Proof. by induction l. Qed.

Lemma send_filled n : (n < 1000)%nat -> send_frame (filled n) status_frame = filled (S n).
Proof.
  intros Hn. unfold send_frame, send. cbn [Link.shut filled orb].
  replace (str_eqb (message_type status_frame) "host:register") with false by reflexivity.
  pose proof (enqueue_retained (map queued_frame (seq 0 n)) [] n (2 * n) (Z.of_nat n * frame_size) n [] [] [] (sent_frames n)
                status_frame eq_refl eq_refl eq_refl (no_log_queued _)) as H. cbv zeta in H.
  change (message_bytes status_frame) with frame_size in H.
  change (fits _ frame_size) with (fits (Link.buffer (filled n)) frame_size) in H.
  rewrite filled_fits in H by (lia || done). cbn [Link.buffer] in *.
  destruct (enqueue quiet_drop _ status_frame false None) as [uid b]. cbn [snd] in *. subst b.
  unfold filled, sent_frames. rewrite seq_S, !map_app. do 2 f_equal; lia.
Qed.

Lemma send_full : send_frame (filled 1000) status_frame = draining 0.
Proof.
  unfold send_frame, send. cbn [Link.shut filled orb].
  replace (str_eqb (message_type status_frame) "host:register") with false by reflexivity.
  pose proof (enqueue_retained (map queued_frame (seq 0 1000)) [] 1000 2000 (Z.of_nat 1000 * frame_size) 1000 [] [] [] (sent_frames 1000)
                status_frame eq_refl eq_refl eq_refl (no_log_queued _)) as H. cbv zeta in H.
  change (message_bytes status_frame) with frame_size in H.
  replace (fits _ frame_size) with false in H by (vm_compute; reflexivity).
  cbn [Link.buffer]. change (2 * 1000)%nat with 2000%nat.
  destruct (enqueue quiet_drop _ status_frame false None) as [uid b]. cbn [snd] in *. subst b. reflexivity.
Qed.

Lemma not_yet_resolved k : existsb (fun d => Nat.eqb k d.1) (map (fun i => (i, resolved)) (seq 0 k)) = false.
Proof.
  apply not_true_is_false. intros ([i o] & Hin & He)%existsb_exists. apply Nat.eqb_eq in He. simpl in He. subst i.
  apply in_map_iff in Hin as (j & [= -> _] & Hj). apply in_seq in Hj. lia.
Qed.

Lemma write_draining k : (k < 1000)%nat -> write_one (draining k) = draining (S k).
Proof.
  intros Hk. unfold write_one, draining, pump. rewrite (seq_S k 0), (map_app _ (seq 0 k)). cbn [Link.writing Link.buffer negb].
  replace (1000 - k)%nat with (S (1000 - S k)) by lia. cbn [seq map take Buf.items].
  set (rest := map queued_frame _). unfold settleInflight, complete, settle. cbn -[Z.of_nat Z.mul Nat.sub Nat.add]. rewrite Nat.eqb_refl. cbn -[Z.of_nat Z.mul Nat.sub Nat.add].
  rewrite not_yet_resolved. cbn -[Z.of_nat Z.mul Nat.sub Nat.add].
  transitivity (Link.mkTransport (Buf.mkBuffer rest [] 1001 1000 [] (S (2000 + k)) false
    (Z.of_nat (S (1000 - S k)) * frame_size - frame_size) [late_waiter] 1001
    (map (fun i => (i, resolved)) (seq 0 k) ++ [(k, resolved)]) [] [] (sent_frames 1001)) None false); [reflexivity|].
  do 2 f_equal; unfold frame_size; lia.
Qed.

Lemma reach_filled n : (n <= 1000)%nat -> reachable (filled n).
Proof.
  induction n as [|n IH]; intros Hn; [apply rtc_refl|]. rewrite <- send_filled by lia. apply reach_send, IH. lia.
Qed.

Lemma reach_draining k : (k <= 1000)%nat -> reachable (draining k).
Proof.
  induction k as [|k IH]; intros Hk; [rewrite <- send_full; apply reach_send, reach_filled; lia|].
  rewrite <- write_draining by lia. apply reach_write, IH. lia.
Qed.

Lemma no_lost_wakeup_witness :
  buffer_length (Link.buffer (draining 1000)) = 0 /\
  runnable (Link.buffer (draining 1000)) late_waiter = true.
Proof.
  split; [reflexivity|].
  destruct (no_lost_wakeup quiet_drop (draining 1000) late_waiter (reach_draining 1000 (le_n _)) eq_refl eq_refl)
    as [_ H]. exact (proj1 (H eq_refl)).
Defined.



(** ** An aborted keepalive that was coalesced

    The [abort] listener subtracts the size it captured, not the size of the frame that
    replaced the keepalive, so capacity is lost for good.  The daemon never aborts a
    keepalive. *)
Definition coalesced : WsOutboundBuffer :=
  let b := (enqueue quiet_drop new_buffer (keepalive "1") false (Some 7%nat)).2 in
  (enqueue quiet_drop b (keepalive "1000") false None).2.

Theorem coalesced_keepalive_leaks :
  buffer_length coalesced = 1 /\ buffer_length (abort coalesced 7) = 0 /\ Buf.bytes (abort coalesced 7) = 3.
Proof. vm_compute. done. Qed.
