(* ===== verification/LogStreaming.v ===== *)
(** * The daemon's log streamer

    services/host-daemon/src/log-coalesce.ts and log-streamer.ts: the output of
    a session is cut into bounded pieces, coalesced into batches at a bounded
    rate, numbered and emitted; what cannot be kept is counted and reported.
    Strings are code units below 256, so [for (const char of s)] visits them one
    by one.  The clocks are parameters of the state: each call draws the next
    reading. *)

From Stdlib Require Import ZArith Lia Ascii String.
From stdpp Require Import base strings list relations.
From S2P Require Import Prelude Types Ordering CommandResume SessionOutcome.

Local Open Scope string_scope.
Local Open Scope Z_scope.

(** ** Coalescing *)
Inductive LogStream := stdout | stderr | system.

#[global] Instance LogStream_eq_dec : EqDecision LogStream.
Proof. solve_decision. Defined.

Definition DEFAULT_LOG_MESSAGES_PER_SEC : Z := 10.
Definition DEFAULT_LOG_BATCH_MAX_WAIT_MS : Z := 100.
Definition DEFAULT_LOG_BATCH_MAX_LINES : Z := 100.
Definition RATE_WINDOW_MS : Z := 1000.
Definition API_GATEWAY_MAX_FRAME_BYTES : Z := 32 * 1024.
Definition ENVELOPE_OVERHEAD_BYTES : Z := 512.
Definition JSON_ESCAPE_WORST_CASE_FACTOR : Z := 6.
Definition DEFAULT_MAX_WIRE_BYTES : Z :=
  (API_GATEWAY_MAX_FRAME_BYTES - ENVELOPE_OVERHEAD_BYTES) / JSON_ESCAPE_WORST_CASE_FACTOR.

Module Batch.
Record CoalesceBatch := mkBatch {
  stream : LogStream;
  content : string;
  timestamp : string;
  bytes : Z;
}.
End Batch.
Notation CoalesceBatch := Batch.CoalesceBatch.

Definition is_newline (c : ascii) : bool := code c =? 10.

Fixpoint count_newlines (s : string) : Z :=
  match s with "" => 0 | String c s' => (if is_newline c then 1 else 0) + count_newlines s' end.

Fixpoint ends_with_newline (s : string) : bool :=
  match s with
  | "" => false
  | String c "" => is_newline c
  | String _ s' => ends_with_newline s'
  end.

Definition countLogLines (content : string) : Z :=
  if slen content =? 0 then 0
  else if ends_with_newline content then count_newlines content else count_newlines content + 1.

Definition formatDroppedLogNotice (dropped : Z) : string := number_string dropped ++ " log chunk(s) dropped".

Definition char_bytes (c : ascii) : Z := utf8_length (String c "").

Fixpoint truncate_from (used maxBytes : Z) (s : string) : string :=
  match s with
  | "" => ""
  | String c s' =>
      if maxBytes <? used + char_bytes c then ""
      else String c (truncate_from (used + char_bytes c) maxBytes s')
  end.

Definition truncateUtf8 (content : string) (maxBytes : Z) : string :=
  if utf8_length content <=? maxBytes then content else truncate_from 0 maxBytes content.

(** The loop, with [current] and [used] as it has them. *)
Fixpoint split_utf8 (maxBytes : Z) (current : string) (used : Z) (s : string) : list string :=
  match s with
  | "" => if slen current =? 0 then [] else [current]
  | String c s' =>
      let size := char_bytes c in
      if (0 <? used) && (maxBytes <? used + size)
      then current :: split_utf8 maxBytes (String c "") size s'
      else split_utf8 maxBytes (current ++ String c "") (used + size) s'
  end.

Definition splitUtf8 (content : string) (maxBytesPerPiece : Z) : list string :=
  split_utf8 maxBytesPerPiece "" 0 content.

Definition canAppendToBatch (batch : CoalesceBatch) (stream : LogStream) (piece : string)
    (pieceBytes maxBytes maxLines : Z) : bool :=
  bool_decide (Batch.stream batch = stream) &&
  (Batch.bytes batch + pieceBytes <=? maxBytes) &&
  (countLogLines (Batch.content batch ++ piece) <=? maxLines).

Definition newline_text : string := String "010"%char "".

Definition batchAtBound (batch : CoalesceBatch) (maxBytes maxLines : Z) : bool :=
  negb (canAppendToBatch batch (Batch.stream batch) newline_text 1 maxBytes maxLines).

Fixpoint split_lines (maxLines : Z) (current : string) (lines : Z) (s : string) : list string :=
  match s with
  | "" => if slen current =? 0 then [] else [current]
  | String c s' =>
      let current := current ++ String c "" in
      if is_newline c then
        if maxLines <=? lines + 1 then current :: split_lines maxLines "" 0 s'
        else split_lines maxLines current (lines + 1) s'
      else split_lines maxLines current lines s'
  end.

Definition splitLogLines (content : string) (maxLines : Z) : list string :=
  if slen content =? 0 then []
  else if countLogLines content <=? maxLines then [content]
  else split_lines maxLines "" 0 content.

Definition startBatch (stream : LogStream) (content timestamp : string) : CoalesceBatch :=
  Batch.mkBatch stream content timestamp (utf8_length content).

Definition appendToBatch (b : CoalesceBatch) (piece : string) : CoalesceBatch :=
  Batch.mkBatch (Batch.stream b) (Batch.content b ++ piece) (Batch.timestamp b)
    (Batch.bytes b + utf8_length piece).

(** ** State of the streamer *)
Module Chunk.
Record SessionLogChunk := mkChunk {
  sessionId : string;
  attemptId : string;
  stream : LogStream;
  content : string;
  timestamp : string;
  seq : Z;
  dropped : option Z;
}.
End Chunk.
Notation SessionLogChunk := Chunk.SessionLogChunk.

Definition DEFAULT_MAX_LOG_CHUNKS : Z := 10000.
Definition DEFAULT_MAX_LOG_BYTES : Z := 10 * 1024 * 1024.
Definition MAX_SESSION_LOG_DROPPED : Z := 1000000.

(** [maxMessagesPerSec] is [None] when it is not finite; [maxDroppedPerNotice] is at least 1. *)
Module Limits.
Record LogLimits := mkLimits {
  maxChunks : Z;
  maxBytes : Z;
  maxWireBytes : Z;
  logBatchMaxLines : Z;
  logBatchMaxWaitMs : Z;
  maxMessagesPerSec : option Z;
  maxDroppedPerNotice : Z;
}.
End Limits.
Notation LogLimits := Limits.LogLimits.

Definition default_limits : LogLimits :=
  Limits.mkLimits DEFAULT_MAX_LOG_CHUNKS DEFAULT_MAX_LOG_BYTES DEFAULT_MAX_WIRE_BYTES
    DEFAULT_LOG_BATCH_MAX_LINES DEFAULT_LOG_BATCH_MAX_WAIT_MS (Some DEFAULT_LOG_MESSAGES_PER_SEC)
    MAX_SESSION_LOG_DROPPED.

Module Log.
Record LogStreamer := mkLogStreamer {
  sessionId : string;
  attemptId : string;
  limits : LogLimits;
  seq : Z;
  (** [LogRateWindow.times]. *)
  times : list Z;
  emittedChunks : Z;
  emittedBytes : Z;
  pending : option CoalesceBatch;
  pendingSinceMs : Z;
  overflow : option CoalesceBatch;
  overflowSinceMs : Z;
  (** The delay of the armed timer; [Some None] is a delay of [NaN]. *)
  timer : option (option Z);
  droppedChunks : Z;
  unsentDropped : Z;
  (** The calls of [emit], in order. *)
  emitted : list SessionLogChunk;
  nowMs : nat -> Z;
  msReads : nat;
  now : nat -> string;
  nowReads : nat;
}.

#[global] Instance eta_streamer : Eta LogStreamer := fun r => mkLogStreamer (sessionId r) (attemptId r)
  (limits r) (seq r) (times r) (emittedChunks r) (emittedBytes r) (pending r) (pendingSinceMs r) (overflow r)
  (overflowSinceMs r) (timer r) (droppedChunks r) (unsentDropped r) (emitted r) (nowMs r) (msReads r)
  (now r) (nowReads r).

#[global] Instance set_seq : Setter seq := ltac:(derive_setter).
#[global] Instance set_times : Setter times := ltac:(derive_setter).
#[global] Instance set_emittedChunks : Setter emittedChunks := ltac:(derive_setter).
#[global] Instance set_emittedBytes : Setter emittedBytes := ltac:(derive_setter).
#[global] Instance set_pending : Setter pending := ltac:(derive_setter).
#[global] Instance set_pendingSinceMs : Setter pendingSinceMs := ltac:(derive_setter).
#[global] Instance set_overflow : Setter overflow := ltac:(derive_setter).
#[global] Instance set_overflowSinceMs : Setter overflowSinceMs := ltac:(derive_setter).
#[global] Instance set_timer : Setter timer := ltac:(derive_setter).
#[global] Instance set_droppedChunks : Setter droppedChunks := ltac:(derive_setter).
#[global] Instance set_unsentDropped : Setter unsentDropped := ltac:(derive_setter).
#[global] Instance set_emitted : Setter emitted := ltac:(derive_setter).
#[global] Instance set_msReads : Setter msReads := ltac:(derive_setter).
#[global] Instance set_nowReads : Setter nowReads := ltac:(derive_setter).
End Log.
Notation LogStreamer := Log.LogStreamer.

Definition new_streamer (sessionId attemptId : string) (initialSeq : Z) (limits : LogLimits)
    (nowMs : nat -> Z) (now : nat -> string) : LogStreamer :=
  Log.mkLogStreamer sessionId attemptId limits initialSeq [] 0 0 None 0 None 0 None 0 0 [] nowMs 0 now 0.

(** [this.nowMs()] and [this.now()]. *)
Definition read_ms (s : LogStreamer) : Z * LogStreamer :=
  (Log.nowMs s (Log.msReads s), s <| Log.msReads := S (Log.msReads s) |>).

Definition read_now (s : LogStreamer) : string * LogStreamer :=
  (Log.now s (Log.nowReads s), s <| Log.nowReads := S (Log.nowReads s) |>).

(** ** [LogRateWindow] *)
Fixpoint prune_times (cutoff : Z) (times : list Z) : list Z :=
  match times with
  | t :: rest => if t <=? cutoff then prune_times cutoff rest else times
  | [] => []
  end.

Definition prune (s : LogStreamer) : LogStreamer :=
  let '(now, s) := read_ms s in s <| Log.times := prune_times (now - RATE_WINDOW_MS) (Log.times s) |>.

Definition canEmit (s : LogStreamer) : bool * LogStreamer :=
  match Limits.maxMessagesPerSec (Log.limits s) with
  | None => (true, s)
  | Some most => let s := prune s in (Z.of_nat (List.length (Log.times s)) <? most, s)
  end.

(** [None] is [NaN]. *)
Definition nextEmitAt (s : LogStreamer) (now : Z) : option Z * LogStreamer :=
  match Limits.maxMessagesPerSec (Log.limits s) with
  | None => (Some now, s)
  | Some most =>
      let s := prune s in
      if Z.of_nat (List.length (Log.times s)) <? most then (Some now, s)
      else (match Log.times s with t :: _ => Some (t + RATE_WINDOW_MS) | [] => None end, s)
  end.

Definition record (s : LogStreamer) : LogStreamer :=
  match Limits.maxMessagesPerSec (Log.limits s) with
  | None => s
  | Some _ => let '(now, s) := read_ms s in s <| Log.times := (Log.times s ++ [now])%list |>
  end.

(** ** Emission *)
Definition emitRaw (s : LogStreamer) (stream : LogStream) (content timestamp : string) (dropped : option Z)
    : SessionLogChunk * LogStreamer :=
  let chunk := Chunk.mkChunk (Log.sessionId s) (Log.attemptId s) stream content timestamp (Log.seq s) dropped in
  let s := s <| Log.seq := Log.seq s + 1 |> in
  let s := if bool_decide (stream = system) then s
           else s <| Log.emittedChunks := Log.emittedChunks s + 1 |>
                  <| Log.emittedBytes := Log.emittedBytes s + utf8_length content |> in
  let s := record s in
  (chunk, s <| Log.emitted := (Log.emitted s ++ [chunk])%list |>).

Definition at_bound (s : LogStreamer) (b : CoalesceBatch) : bool :=
  batchAtBound b (Limits.maxWireBytes (Log.limits s)) (Limits.logBatchMaxLines (Log.limits s)).

(** [Math.max], which is [NaN] when an argument is. *)
Definition max_nan (a : Z) (b : option Z) : option Z := Z.max a <$> b.

Definition scheduleFlush (s : LogStreamer) : LogStreamer :=
  if is_some (Log.timer s) ||
     (negb (is_some (Log.pending s)) && negb (is_some (Log.overflow s)) && (Log.unsentDropped s =? 0))
  then s
  else
    let '(now, s) := read_ms s in
    let waitForCoalesce :=
      match Log.pending s with
      | Some b => negb (is_some (Log.overflow s)) &&
                  (Log.unsentDropped s <? Limits.maxDroppedPerNotice (Log.limits s)) && negb (at_bound s b)
      | None => false
      end in
    let '(next, s) := nextEmitAt s now in
    let due := max_nan (if waitForCoalesce then Log.pendingSinceMs s + Limits.logBatchMaxWaitMs (Log.limits s)
                        else now) next in
    s <| Log.timer := Some ((fun d => Z.max 0 (d - now)) <$> due) |>.

Definition clearTimer (s : LogStreamer) : LogStreamer := s <| Log.timer := None |>.

Definition promoteOverflow (s : LogStreamer) : LogStreamer :=
  match Log.pending s, Log.overflow s with
  | None, Some b => s <| Log.pending := Some b |> <| Log.pendingSinceMs := Log.overflowSinceMs s |>
                      <| Log.overflow := None |>
  | _, _ => s
  end.

(** The loop of [flushDropNotice]: every turn reports at least one drop. *)
Fixpoint drop_notices (fuel : nat) (force : bool) (last : option SessionLogChunk) (s : LogStreamer)
    : option SessionLogChunk * LogStreamer :=
  match fuel with
  | O => (last, s)
  | S fuel =>
      if Log.unsentDropped s <=? 0 then (last, s)
      else
        let most := Limits.maxDroppedPerNotice (Log.limits s) in
        let mustSend := force || ((most <=? Log.unsentDropped s) && negb (is_some (Log.pending s)) &&
                                  negb (is_some (Log.overflow s))) in
        if negb mustSend && is_some last then (last, scheduleFlush s)
        else
          let '(ok, s) := if mustSend then (true, s) else canEmit s in
          if negb ok then (last, scheduleFlush s)
          else
            let count := Z.min (Log.unsentDropped s) most in
            let s := s <| Log.unsentDropped := Log.unsentDropped s - count |> in
            let '(at_, s) := read_now s in
            let '(chunk, s) := emitRaw s system (formatDroppedLogNotice count) at_ (Some count) in
            drop_notices fuel force (Some chunk) s
  end.

Definition flushDropNotice (s : LogStreamer) (force : bool) : option SessionLogChunk * LogStreamer :=
  drop_notices (S (Z.to_nat (Log.unsentDropped s))) force None s.

(** The loop of [flushPending], at most twice round: the pending batch and the overflow.
    The flag tells that the function returned from inside. *)
Fixpoint flush_loop (fuel : nat) (force : bool) (last : option SessionLogChunk) (s : LogStreamer)
    : bool * option SessionLogChunk * LogStreamer :=
  match fuel with
  | O => (false, last, s)
  | S fuel =>
      match Log.pending s with
      | None => (false, last, s)
      | Some batch =>
          let '(ok, s) := if force then (true, s) else canEmit s in
          if negb ok then (true, last, scheduleFlush s)
          else
            let s := (clearTimer s) <| Log.pending := None |> in
            let '(chunk, s) := emitRaw s (Batch.stream batch) (Batch.content batch) (Batch.timestamp batch) None in
            let s := promoteOverflow s in
            if force then flush_loop fuel force (Some chunk) s else (false, Some chunk, s)
      end
  end.

Definition flushPending (s : LogStreamer) (force : bool) : option SessionLogChunk * LogStreamer :=
  let '(returned, last, s) := flush_loop 3 force None (promoteOverflow s) in
  if returned then (last, s)
  else if is_some (Log.pending s) || is_some (Log.overflow s)
  then (last, if force then s else scheduleFlush s)
  else
    let '(notice, s) := flushDropNotice s force in
    let s := if negb force && (0 <? Log.unsentDropped s) then scheduleFlush s else s in
    (opt_else notice last, s).

Definition recordDrop (s : LogStreamer) : LogStreamer :=
  s <| Log.droppedChunks := Log.droppedChunks s + 1 |> <| Log.unsentDropped := Log.unsentDropped s + 1 |>.

Definition batch_bytes (b : option CoalesceBatch) : Z := match b with Some b => Batch.bytes b | None => 0 end.

Definition remainingBytes (s : LogStreamer) : Z :=
  Limits.maxBytes (Log.limits s) - Log.emittedBytes s - batch_bytes (Log.pending s) - batch_bytes (Log.overflow s).

(** ** Writing *)
Definition fits_batch (s : LogStreamer) (b : CoalesceBatch) (stream : LogStream) (piece : string) : bool :=
  canAppendToBatch b stream piece (utf8_length piece) (Limits.maxWireBytes (Log.limits s))
    (Limits.logBatchMaxLines (Log.limits s)).

Definition startPending (s : LogStreamer) (stream : LogStream) (piece timestamp : string) (force : bool)
    : option SessionLogChunk * LogStreamer :=
  if negb force && (Limits.maxChunks (Log.limits s) <=? Log.emittedChunks s) then (None, s)
  else
    let s := s <| Log.pending := Some (startBatch stream piece timestamp) |> in
    let '(now, s) := read_ms s in
    let s := s <| Log.pendingSinceMs := now |> in
    if force then flushPending s true else (None, s).

Record EnqueueResult := mkEnqueueResult {
  resultChunk : option SessionLogChunk;
  diverted : bool;
  wasDropped : bool;
}.

(** The part of [enqueuePiece] after the pending batch was flushed and the overflow promoted. *)
Definition enqueue_flushed (s : LogStreamer) (stream : LogStream) (piece timestamp : string) (force : bool)
    (allowOverflow : bool) (last : option SessionLogChunk) : EnqueueResult * LogStreamer :=
  match Log.pending s with
  | None =>
      let '(chunk, s) := startPending s stream piece timestamp force in
      (mkEnqueueResult (opt_else chunk last) false false, s)
  | Some p =>
      if negb (is_some (Log.overflow s)) && (Log.unsentDropped s =? 0) && fits_batch s p stream piece
      then (mkEnqueueResult last false false, s <| Log.pending := Some (appendToBatch p piece) |>)
      else
        match Log.overflow s with
        | Some o =>
            if allowOverflow && (Log.unsentDropped s =? 0) && fits_batch s o stream piece
            then (mkEnqueueResult last true false, s <| Log.overflow := Some (appendToBatch o piece) |>)
            else (mkEnqueueResult last true true, recordDrop s)
        | None =>
            if allowOverflow && (Log.unsentDropped s =? 0) &&
               (Log.emittedChunks s + 1 <? Limits.maxChunks (Log.limits s))
            then
              let s := s <| Log.overflow := Some (startBatch stream piece timestamp) |> in
              let '(now, s) := read_ms s in
              (mkEnqueueResult last true false, s <| Log.overflowSinceMs := now |>)
            else (mkEnqueueResult last true true, recordDrop s)
        end
  end.

Definition enqueuePiece (s : LogStreamer) (stream : LogStream) (piece timestamp : string)
    (force allowPending allowOverflow : bool) : EnqueueResult * LogStreamer :=
  match Log.pending s with
  | Some p =>
      if allowPending && negb (is_some (Log.overflow s)) && fits_batch s p stream piece
      then (mkEnqueueResult None false false, s <| Log.pending := Some (appendToBatch p piece) |>)
      else
        let '(last, s) := flushPending s force in
        enqueue_flushed (promoteOverflow s) stream piece timestamp force allowOverflow last
  | None =>
      if allowPending then
        let '(chunk, s) := startPending s stream piece timestamp force in
        (mkEnqueueResult chunk false false, s)
      else enqueue_flushed (promoteOverflow s) stream piece timestamp force allowOverflow None
  end.

Definition afterStdoutEnqueue (s : LogStreamer) : option SessionLogChunk * LogStreamer :=
  let s := promoteOverflow s in
  match Log.pending s with
  | None => flushDropNotice s false
  | Some p =>
      if (Limits.logBatchMaxWaitMs (Log.limits s) =? 0) || is_some (Log.overflow s) ||
         (Limits.maxDroppedPerNotice (Log.limits s) <=? Log.unsentDropped s) || at_bound s p
      then flushPending s false
      else (None, scheduleFlush s)
  end.

(** The loop over the pieces, with its variables. *)
Fixpoint enqueue_pieces (stream : LogStream) (timestamp : string) (force : bool) (pieces : list string)
    (last : option SessionLogChunk) (allowPending rejectRest : bool) (s : LogStreamer)
    : option SessionLogChunk * LogStreamer :=
  match pieces with
  | [] => (last, s)
  | piece :: rest =>
      let '(r, s) := enqueuePiece s stream piece timestamp force (allowPending && negb rejectRest)
                       (negb rejectRest) in
      enqueue_pieces stream timestamp force rest (opt_else (resultChunk r) last)
        (if diverted r then false else allowPending) (wasDropped r || rejectRest) s
  end.

Definition wire_pieces (limits : LogLimits) (content : string) : list string :=
  flat_map (fun p => splitLogLines p (Limits.logBatchMaxLines limits))
    (splitUtf8 content (Limits.maxWireBytes limits)).

Definition writeAt (s : LogStreamer) (stream : LogStream) (content timestamp : string)
    : option SessionLogChunk * LogStreamer :=
  let force := bool_decide (stream = system) in
  let '(last, s) := if force then flushPending s true else (None, s) in
  if negb force && (Limits.maxChunks (Log.limits s) <=? Log.emittedChunks s) &&
     negb (is_some (Log.pending s)) && negb (is_some (Log.overflow s))
  then (last, s)
  else
    let bounded := if force then content else truncateUtf8 content (remainingBytes s) in
    if slen bounded =? 0 then (last, s)
    else
      let '(last, s) := enqueue_pieces stream timestamp force (wire_pieces (Log.limits s) bounded) last
                          true false s in
      if force then (last, s)
      else let '(flushed, s) := afterStdoutEnqueue s in (opt_else flushed last, s).

Definition write (s : LogStreamer) (stream : LogStream) (content : string)
    : option SessionLogChunk * LogStreamer :=
  let '(at_, s) := read_now s in writeAt s stream content at_.

Definition writeTimestampedSystem (s : LogStreamer) (label : string) : option SessionLogChunk * LogStreamer :=
  let '(at_, s) := read_now s in writeAt s system (label ++ " at " ++ at_) at_.

Definition flush (s : LogStreamer) : LogStreamer := (flushPending s true).2.

(** The timer fires. *)
Definition fire (s : LogStreamer) : LogStreamer := (flushPending (s <| Log.timer := None |>) false).2.

(** One operation; the timer only fires when it is armed. *)
Inductive log_step : LogStreamer -> LogStreamer -> Prop :=
| step_write s stream content : log_step s (write s stream content).2
| step_system s label : log_step s (writeTimestampedSystem s label).2
| step_flush s : log_step s (flush s)
| step_fire s : is_some (Log.timer s) = true -> log_step s (fire s).
