(* ===== verification/LogDelivery.v ===== *)
(** * What the log streamer delivers

    The streamer of LogStreaming.v against an abstract machine: a step of the
    machine emits the oldest batch, reports drops, or takes one piece of output,
    which it keeps, refuses or counts as dropped.  Every operation of the
    streamer is a sequence of such steps, and the guarantees are proved of the
    machine: consecutive sequence numbers, bounded frames, bounded totals, no
    loss that is not counted or capped, every drop reported, and a timer armed
    whenever output waits. *)

From Stdlib Require Import ZArith Lia Ascii String.
From stdpp Require Import base strings list relations.
From S2P Require Import Prelude Types Ordering CommandResume SessionOutcome LogStreaming.

Local Open Scope string_scope.
Local Open Scope Z_scope.

(** ** Pieces of text *)
Definition joined (pieces : list string) : string := foldr String.append "" pieces.

Lemma joined_app xs ys : joined (xs ++ ys) = joined xs ++ joined ys.
Proof. induction xs as [|x xs IH]; [done|]. simpl. by rewrite IH, string_app_assoc. Qed.

Lemma joined_last text : joined (if slen text =? 0 then [] else [text]) = text.
Proof. rewrite slen_zero. case_bool_decide; simplify_eq/=; [done|]. apply string_app_nil_r. Qed.

Lemma snoc_text text c rest : (text ++ String c "") ++ rest = text ++ String c rest.
Proof. rewrite string_app_assoc. done. Qed.

Lemma split_utf8_joined m current used s : joined (split_utf8 m current used s) = current ++ s.
Proof.
  revert current used. induction s as [|c s IH]; intros current used; simpl.
  - by rewrite joined_last, string_app_nil_r.
  - destruct (_ && _); simpl; rewrite IH; [done|]. apply snoc_text.
Qed.

Lemma split_lines_joined m current lines s : joined (split_lines m current lines s) = current ++ s.
Proof.
  revert current lines. induction s as [|c s IH]; intros current lines; simpl.
  - by rewrite joined_last, string_app_nil_r.
  - destruct (is_newline c); [destruct (_ <=? _)|]; simpl; rewrite IH, ?snoc_text; done.
Qed.

Lemma splitLogLines_joined content m : joined (splitLogLines content m) = content.
Proof.
  unfold splitLogLines. rewrite slen_zero. case_bool_decide; [by subst|].
  destruct (_ <=? _); simpl; [apply string_app_nil_r|]. apply split_lines_joined.
Qed.

Lemma joined_flat_map (f : string -> list string) pieces :
  (forall p, joined (f p) = p) -> joined (flat_map f pieces) = joined pieces.
Proof. intros Hf. induction pieces as [|p ps IH]; simpl; [done|]. by rewrite joined_app, Hf, IH. Qed.

Lemma wire_pieces_joined limits content : joined (wire_pieces limits content) = content.
Proof.
  unfold wire_pieces. rewrite joined_flat_map; [apply split_utf8_joined|].
  intros p. apply splitLogLines_joined.
Qed.

Lemma split_utf8_nonempty m current used s :
  (0 < used -> current <> "") -> Forall (fun p => p <> "") (split_utf8 m current used s).
Proof.
  revert current used. induction s as [|c s IH]; intros current used Hu; simpl.
  - rewrite slen_zero. case_bool_decide; auto.
  - destruct (Z.ltb_spec 0 used), (m <? used + char_bytes c); simpl; try (apply IH; intros _; by destruct current).
    constructor; [by apply Hu|]. by apply IH.
Qed.

Lemma split_lines_nonempty m current lines s : Forall (fun p => p <> "") (split_lines m current lines s).
Proof.
  revert current lines. induction s as [|c s IH]; intros current lines; simpl.
  - rewrite slen_zero. case_bool_decide; auto.
  - destruct (is_newline c); [destruct (_ <=? _)|]; auto. constructor; [by destruct current|auto].
Qed.

Lemma wire_pieces_nonempty limits content : Forall (fun p => p <> "") (wire_pieces limits content).
Proof.
  unfold wire_pieces. apply Forall_forall. intros p Hp. apply list_elem_of_In, in_flat_map in Hp as (q & Hq & Hp).
  assert (Forall (fun p => p <> "") (splitLogLines q (Limits.logBatchMaxLines limits))) as H.
  { unfold splitLogLines. rewrite slen_zero. case_bool_decide; [constructor|].
    destruct (_ <=? _); [by constructor|]. apply split_lines_nonempty. }
  rewrite Forall_forall in H. apply H. by apply list_elem_of_In.
Qed.

Lemma char_bytes_range c : 1 <= char_bytes c <= 2.
Proof. unfold char_bytes. simpl. destruct (_ <? 128)%N; lia. Qed.

Lemma utf8_length_cons c s : utf8_length (String c s) = char_bytes c + utf8_length s.
Proof. unfold char_bytes. simpl. lia. Qed.

Lemma utf8_length_snoc s c : utf8_length (s ++ String c "") = utf8_length s + char_bytes c.
Proof. apply utf8_length_app. Qed.

Lemma split_utf8_bytes m current used s :
  2 <= m -> used = utf8_length current -> used <= m ->
  Forall (fun p => utf8_length p <= m) (split_utf8 m current used s).
Proof.
  intros Hm. revert current used. induction s as [|c s IH]; intros current used Hused Hfit; simpl.
  - destruct (slen current =? 0); auto. constructor; [lia|auto].
  - pose proof (char_bytes_range c). pose proof (utf8_length_snoc current c).
    destruct (Z.ltb_spec 0 used), (Z.ltb_spec m (used + char_bytes c)); simpl; try (apply IH; lia).
    constructor; [lia|]. apply IH; [done|lia].
Qed.

Lemma joined_bytes pieces p : In p pieces -> utf8_length p <= utf8_length (joined pieces).
Proof.
  induction pieces as [|q ps IH]; simpl; [done|]. rewrite utf8_length_app.
  pose proof (utf8_length_nonneg q). pose proof (utf8_length_nonneg (joined ps)).
  intros [->|Hin]; [lia|]. specialize (IH Hin). lia.
Qed.

Lemma count_newlines_nonneg s : 0 <= count_newlines s.
Proof. induction s as [|c s IH]; simpl; [done|]. destruct (is_newline c); lia. Qed.

Lemma count_newlines_app a b : count_newlines (a ++ b) = count_newlines a + count_newlines b.
Proof. induction a as [|c a IH]; [done|]. rewrite string_app_cons. simpl. rewrite IH. lia. Qed.

Lemma ends_with_newline_snoc s c : ends_with_newline (s ++ String c "") = is_newline c.
Proof.
  induction s as [|x s IH]; [done|]. rewrite string_app_cons. simpl.
  destruct (s ++ String c "") eqn:E; [by destruct s|done].
Qed.

Lemma countLogLines_le s : countLogLines s <= count_newlines s + 1.
Proof.
  unfold countLogLines. pose proof (count_newlines_nonneg s).
  destruct (_ =? _); [lia|]. destruct (ends_with_newline s); lia.
Qed.

Lemma countLogLines_ended s c :
  is_newline c = true -> countLogLines (s ++ String c "") = count_newlines s + 1.
Proof.
  intros Hc. unfold countLogLines. rewrite ends_with_newline_snoc, count_newlines_app, Hc. simpl. rewrite Hc.
  rewrite slen_zero. case_bool_decide as He; [by destruct s|]. lia.
Qed.

Lemma split_lines_count m current lines s :
  1 <= m -> lines = count_newlines current -> lines < m ->
  Forall (fun p => countLogLines p <= m) (split_lines m current lines s).
Proof.
  intros Hm. revert current lines. induction s as [|c s IH]; intros current lines Hlines Hfit; simpl.
  - destruct (slen current =? 0); auto. constructor; [pose proof (countLogLines_le current); lia|auto].
  - assert (Hn : count_newlines (current ++ String c "") = lines + (if is_newline c then 1 else 0))
      by (rewrite count_newlines_app; simpl; lia).
    destruct (is_newline c) eqn:Hc; [|apply IH; lia].
    destruct (Z.leb_spec m (lines + 1)); [|apply IH; lia].
    constructor; [rewrite countLogLines_ended by done; lia|]. apply IH; [done|lia].
Qed.

Lemma splitLogLines_count content m :
  1 <= m -> Forall (fun p => countLogLines p <= m) (splitLogLines content m).
Proof.
  intros Hm. unfold splitLogLines. destruct (_ =? 0); auto.
  destruct (Z.leb_spec (countLogLines content) m); [auto|]. apply split_lines_count; [done|done|lia].
Qed.

(** A piece fits one frame. *)
Definition frame_fits (limits : LogLimits) (text : string) : Prop :=
  utf8_length text <= Limits.maxWireBytes limits /\ countLogLines text <= Limits.logBatchMaxLines limits.

Lemma wire_pieces_fit limits content :
  2 <= Limits.maxWireBytes limits -> 1 <= Limits.logBatchMaxLines limits ->
  Forall (frame_fits limits) (wire_pieces limits content).
Proof.
  intros Hw Hl. unfold wire_pieces. apply Forall_forall. intros p Hp.
  apply list_elem_of_In, in_flat_map in Hp as (q & Hq & Hp).
  pose proof (split_utf8_bytes _ "" 0 content Hw eq_refl ltac:(lia)) as Hbytes.
  rewrite Forall_forall in Hbytes. specialize (Hbytes q (proj2 (list_elem_of_In _ _) Hq)).
  pose proof (splitLogLines_count q _ Hl) as Hcount. rewrite Forall_forall in Hcount.
  specialize (Hcount p (proj2 (list_elem_of_In _ _) Hp)). simpl in *.
  pose proof (joined_bytes _ _ Hp) as Hj. rewrite splitLogLines_joined in Hj. split; [lia|done].
Qed.

Lemma truncate_from_bytes used m s : used <= m -> used + utf8_length (truncate_from used m s) <= m.
Proof.
  revert used. induction s as [|c s IH]; intros used Hle; simpl; [lia|].
  destruct (Z.ltb_spec m (used + char_bytes c)); [simpl; lia|].
  rewrite utf8_length_cons. specialize (IH (used + char_bytes c)). lia.
Qed.

Lemma truncateUtf8_bytes s m : 0 <= m -> utf8_length (truncateUtf8 s m) <= m.
Proof.
  intros Hm. unfold truncateUtf8. destruct (Z.leb_spec (utf8_length s) m); [done|].
  pose proof (truncate_from_bytes 0 m s). lia.
Qed.

(** ** The abstract machine

    What matters of the streamer once the clock, the timer and the rate window
    are left out. *)
Module Core.
Record t := mk {
  sessionId : string;
  attemptId : string;
  limits : LogLimits;
  seq : Z;
  chunks : Z;
  bytes : Z;
  pending : option CoalesceBatch;
  overflow : option CoalesceBatch;
  dropped : Z;
  unsent : Z;
  emitted : list SessionLogChunk;
}.

Definition publish (c : t) (stream : LogStream) (content at_ : string) (notice : option Z) : t :=
  mk (sessionId c) (attemptId c) (limits c) (seq c + 1)
    (if bool_decide (stream = system) then chunks c else chunks c + 1)
    (if bool_decide (stream = system) then bytes c else bytes c + utf8_length content)
    (pending c) (overflow c) (dropped c) (unsent c)
    (emitted c ++ [Chunk.mkChunk (sessionId c) (attemptId c) stream content at_ (seq c) notice])%list.

Definition hold (c : t) (p o : option CoalesceBatch) : t :=
  mk (sessionId c) (attemptId c) (limits c) (seq c) (chunks c) (bytes c) p o (dropped c) (unsent c) (emitted c).

Definition count (c : t) (d u : Z) : t :=
  mk (sessionId c) (attemptId c) (limits c) (seq c) (chunks c) (bytes c) (pending c) (overflow c) d u (emitted c).
End Core.

Definition core (s : LogStreamer) : Core.t :=
  Core.mk (Log.sessionId s) (Log.attemptId s) (Log.limits s) (Log.seq s) (Log.emittedChunks s)
    (Log.emittedBytes s) (Log.pending s) (Log.overflow s) (Log.droppedChunks s) (Log.unsentDropped s)
    (Log.emitted s).

Definition batch_fits (limits : LogLimits) (b : CoalesceBatch) (stream : LogStream) (piece : string) : bool :=
  canAppendToBatch b stream piece (utf8_length piece) (Limits.maxWireBytes limits)
    (Limits.logBatchMaxLines limits).

(** What becomes of one piece of output. *)
Inductive fate :=
| Kept (piece : string)
| Spoken (piece : string)
| Dropped (piece : string)
| Capped (piece : string).

(** [Kept] output is in a batch, [Spoken] system output is emitted at once, [Dropped] output is
    counted, [Capped] output comes when the session has emitted all the chunks it may. *)
Inductive core_step (c : Core.t) : list fate -> Core.t -> Prop :=
| cs_emit b :
    Core.pending c = Some b -> Batch.stream b <> system ->
    core_step c [] (Core.publish (Core.hold c (Core.overflow c) None) (Batch.stream b) (Batch.content b)
                      (Batch.timestamp b) None)
| cs_notice n at_ :
    0 < n -> n <= Core.unsent c -> n <= Limits.maxDroppedPerNotice (Core.limits c) ->
    core_step c [] (Core.publish (Core.count c (Core.dropped c) (Core.unsent c - n)) system
                      (formatDroppedLogNotice n) at_ (Some n))
| cs_start stream piece at_ :
    stream <> system -> Core.pending c = None -> Core.overflow c = None ->
    Core.chunks c < Limits.maxChunks (Core.limits c) ->
    core_step c [Kept piece] (Core.hold c (Some (startBatch stream piece at_)) None)
| cs_append b stream piece :
    stream <> system -> Core.pending c = Some b -> Core.overflow c = None ->
    batch_fits (Core.limits c) b stream piece = true ->
    core_step c [Kept piece] (Core.hold c (Some (appendToBatch b piece)) None)
| cs_park b stream piece at_ :
    stream <> system -> Core.pending c = Some b -> Core.overflow c = None ->
    Core.chunks c + 1 < Limits.maxChunks (Core.limits c) ->
    core_step c [Kept piece] (Core.hold c (Some b) (Some (startBatch stream piece at_)))
| cs_append_overflow b o stream piece :
    stream <> system -> Core.pending c = Some b -> Core.overflow c = Some o ->
    batch_fits (Core.limits c) o stream piece = true ->
    core_step c [Kept piece] (Core.hold c (Some b) (Some (appendToBatch o piece)))
| cs_system piece at_ :
    Core.pending c = None -> Core.overflow c = None ->
    core_step c [Spoken piece] (Core.publish c system piece at_ None)
| cs_drop b piece :
    Core.pending c = Some b ->
    core_step c [Dropped piece] (Core.count c (Core.dropped c + 1) (Core.unsent c + 1))
| cs_cap piece :
    Limits.maxChunks (Core.limits c) <= Core.chunks c ->
    core_step c [Capped piece] c.

Inductive core_steps : Core.t -> list fate -> Core.t -> Prop :=
| css_nil c : core_steps c [] c
| css_cons c l c' ls c'' : core_step c l c' -> core_steps c' ls c'' -> core_steps c (l ++ ls)%list c''.

Lemma core_steps_one c l c' : core_step c l c' -> core_steps c l c'.
Proof. intros H. rewrite <- (app_nil_r l). by eapply css_cons, css_nil. Qed.

Lemma core_steps_trans c l c' l' c'' : core_steps c l c' -> core_steps c' l' c'' -> core_steps c (l ++ l')%list c''.
Proof.
  induction 1 as [|c l1 c1 ls c2 Hs _ IH]; [done|]. intros H. rewrite <- app_assoc.
  by eapply css_cons; [|apply IH].
Qed.

Lemma core_steps_quiet c c' l c'' : core_steps c [] c' -> core_steps c' l c'' -> core_steps c l c''.
Proof. intros H1 H2. by apply (core_steps_trans _ [] _ _ _ H1). Qed.

(** The invariant of the machine: the overflow only exists behind a pending batch, what is held is
    not system output, and some drop fits in a notice. *)
Record order_ok (c : Core.t) : Prop := mk_order_ok {
  ok_order : Core.pending c = None -> Core.overflow c = None;
  ok_pending : forall b, Core.pending c = Some b -> Batch.stream b <> system;
  ok_overflow : forall b, Core.overflow c = Some b -> Batch.stream b <> system;
  ok_notice : 1 <= Limits.maxDroppedPerNotice (Core.limits c);
  ok_unsent : 0 <= Core.unsent c;
}.

Lemma batch_fits_stream limits b stream piece : batch_fits limits b stream piece = true -> Batch.stream b = stream.
Proof. unfold batch_fits, canAppendToBatch. intros H. by apply andb_prop in H as [[H%bool_decide_eq_true_1 _]%andb_prop _]. Qed.

Lemma core_step_ok c l c' : core_step c l c' -> order_ok c -> order_ok c'.
Proof.
  intros H [Ho Hp Hv Hn Hu]. destruct H; try done; constructor; simpl in *; intros; simplify_eq/=; eauto; try lia.
Qed.

Lemma core_steps_ok c l c' : core_steps c l c' -> order_ok c -> order_ok c'.
Proof. induction 1; eauto using core_step_ok. Qed.

Lemma core_step_limits c l c' : core_step c l c' -> Core.limits c' = Core.limits c.
Proof. by destruct 1. Qed.

Lemma core_steps_limits c l c' : core_steps c l c' -> Core.limits c' = Core.limits c.
Proof. induction 1 as [|c l c1 ls c2 H _ IH]; [done|]. by rewrite IH, (core_step_limits _ _ _ H). Qed.

(** ** The streamer runs the machine *)
Lemma core_prune s : core (prune s) = core s.
Proof. done. Qed.

Lemma core_canEmit s : core (canEmit s).2 = core s.
Proof. unfold canEmit. by destruct (Limits.maxMessagesPerSec _). Qed.

Lemma core_nextEmitAt s now : core (nextEmitAt s now).2 = core s.
Proof. unfold nextEmitAt. destruct (Limits.maxMessagesPerSec _); [|done]. by destruct (_ <? _). Qed.

Lemma core_record s : core (record s) = core s.
Proof. unfold record. by destruct (Limits.maxMessagesPerSec _). Qed.

Lemma core_scheduleFlush s : core (scheduleFlush s) = core s.
Proof.
  unfold scheduleFlush. destruct (_ || _); [done|]. cbn [read_ms].
  set (s1 := s <| Log.msReads := _ |>). pose proof (core_nextEmitAt s1 (Log.nowMs s (Log.msReads s))) as E.
  destruct (nextEmitAt s1 _) as [next s']. exact E.
Qed.

Lemma core_emitRaw s stream content at_ notice :
  core (emitRaw s stream content at_ notice).2 = Core.publish (core s) stream content at_ notice.
Proof.
  destruct s as [? ? [? ? ? ? ? most ?]]. unfold emitRaw, Core.publish.
  destruct (bool_decide (stream = system)), most; reflexivity.
Qed.

Definition promoted (c : Core.t) : Core.t :=
  match Core.pending c, Core.overflow c with None, Some b => Core.hold c (Some b) None | _, _ => c end.

Lemma core_promoteOverflow s : core (promoteOverflow s) = promoted (core s).
Proof. unfold promoteOverflow, promoted. simpl. destruct (Log.pending s), (Log.overflow s); done. Qed.

Lemma promoted_ok c : order_ok c -> promoted c = c.
Proof.
  intros Hok. unfold promoted. destruct (Core.pending c) eqn:Hp; [done|]. by rewrite (ok_order _ Hok Hp).
Qed.

Lemma core_promote_ok s : order_ok (core s) -> core (promoteOverflow s) = core s.
Proof. intros H. by rewrite core_promoteOverflow, promoted_ok. Qed.

Lemma emitted_scheduleFlush s : Log.emitted (scheduleFlush s) = Log.emitted s.
Proof. exact (f_equal Core.emitted (core_scheduleFlush s)). Qed.

(** One turn of the loop of [flushDropNotice]: [s1] is the state after the rate check. *)
Definition notice_turn (s s1 : LogStreamer) : SessionLogChunk * LogStreamer :=
  let n := Z.min (Log.unsentDropped s1) (Limits.maxDroppedPerNotice (Log.limits s)) in
  let '(at_, s2) := read_now (s1 <| Log.unsentDropped := Log.unsentDropped s1 - n |>) in
  emitRaw s2 system (formatDroppedLogNotice n) at_ (Some n).

Lemma notice_turn_step s s1 :
  order_ok (core s) -> core s1 = core s -> 0 < Log.unsentDropped s ->
  let s2 := (notice_turn s s1).2 in
  core_step (core s) [] (core s2) /\ 0 <= Log.unsentDropped s2 < Log.unsentDropped s /\
  Log.pending s2 = Log.pending s /\ Log.overflow s2 = Log.overflow s /\
  (List.length (Log.emitted s) < List.length (Log.emitted s2))%nat.
Proof.
  intros Hok Hc Hu. pose proof (ok_notice _ Hok) as Hn. cbn in Hn.
  assert (Hu1 : Log.unsentDropped s1 = Log.unsentDropped s) by exact (f_equal Core.unsent Hc).
  assert (Hl1 : Log.limits s1 = Log.limits s) by exact (f_equal Core.limits Hc).
  unfold notice_turn. cbv zeta. set (n := Z.min _ _). cbn [read_now].
  match goal with |- context [emitRaw ?x ?a ?b ?d ?e] =>
    pose proof (core_emitRaw x a b d e) as He; destruct (emitRaw x a b d e) as [chunk s4] end.
  cbn [snd] in *.
  assert (Hu4 : Log.unsentDropped s4 = Log.unsentDropped s1 - n) by exact (f_equal Core.unsent He).
  assert (He4 : Log.emitted s4 = Core.emitted (Core.publish (core s1) system _ _ _)) by exact (f_equal Core.emitted He).
  split; [|split; [|split; [|split]]].
  - rewrite He, <- Hc. apply (cs_notice (core s1) n); subst n; cbn; rewrite ?Hu1, ?Hl1; lia.
  - rewrite Hu4, Hu1. subst n. lia.
  - exact (eq_trans (f_equal Core.pending He) (f_equal Core.pending Hc)).
  - exact (eq_trans (f_equal Core.overflow He) (f_equal Core.overflow Hc)).
  - rewrite He4, Hc. cbn. rewrite length_app. cbn. lia.
Qed.

(** One turn of the loop of [flushPending] that emits the batch [b]. *)
Definition batch_turn (s1 : LogStreamer) (b : CoalesceBatch) : SessionLogChunk * LogStreamer :=
  emitRaw ((clearTimer s1) <| Log.pending := None |>) (Batch.stream b) (Batch.content b) (Batch.timestamp b) None.

Lemma batch_turn_step s s1 b :
  order_ok (core s) -> core s1 = core s -> Log.pending s = Some b ->
  let s2 := promoteOverflow (batch_turn s1 b).2 in
  core_step (core s) [] (core s2) /\ Log.pending s2 = Log.overflow s /\ Log.overflow s2 = None /\
  (List.length (Log.emitted s) < List.length (Log.emitted s2))%nat.
Proof.
  intros Hok Hc Hp. unfold batch_turn.
  match goal with |- context [emitRaw ?x ?a ?b ?d ?e] =>
    pose proof (core_emitRaw x a b d e) as He; destruct (emitRaw x a b d e) as [chunk s3] end.
  cbv zeta. cbn [snd] in *.
  assert (Hq : core (promoteOverflow s3) =
      Core.publish (Core.hold (core s) (Core.overflow (core s)) None) (Batch.stream b) (Batch.content b)
        (Batch.timestamp b) None).
  { rewrite core_promoteOverflow, He, <- Hc. clear. by destruct s1 as [? ? ? ? ? ? ? ? ? [?|]]. }
  split; [|split; [|split]].
  - rewrite Hq. by apply cs_emit; [|apply (ok_pending _ Hok)].
  - exact (f_equal Core.pending Hq).
  - exact (f_equal Core.overflow Hq).
  - rewrite (f_equal Core.emitted Hq : Log.emitted (promoteOverflow s3) = _). cbn. rewrite length_app. cbn. lia.
Qed.

Lemma rate_check (must : bool) s : core (if must then (true, s) else canEmit s).2 = core s.
Proof. destruct must; [done|apply core_canEmit]. Qed.

Lemma drop_notices_S fuel force last s :
  drop_notices (Datatypes.S fuel) force last s =
  if Log.unsentDropped s <=? 0 then (last, s)
  else
    let must := force || ((Limits.maxDroppedPerNotice (Log.limits s) <=? Log.unsentDropped s) &&
                          negb (is_some (Log.pending s)) && negb (is_some (Log.overflow s))) in
    if negb must && is_some last then (last, scheduleFlush s)
    else
      let '(ok, s1) := if must then (true, s) else canEmit s in
      if negb ok then (last, scheduleFlush s1)
      else let '(chunk, s2) := notice_turn s s1 in drop_notices fuel force (Some chunk) s2.
Proof. reflexivity. Qed.

Lemma flush_loop_S fuel force last s :
  flush_loop (Datatypes.S fuel) force last s =
  match Log.pending s with
  | None => (false, last, s)
  | Some b =>
      let '(ok, s1) := if force then (true, s) else canEmit s in
      if negb ok then (true, last, scheduleFlush s1)
      else
        let '(chunk, s2) := batch_turn s1 b in
        if force then flush_loop fuel force (Some chunk) (promoteOverflow s2)
        else (false, Some chunk, promoteOverflow s2)
  end.
Proof. reflexivity. Qed.

Lemma drop_notices_steps fuel force last s :
  order_ok (core s) -> core_steps (core s) [] (core (drop_notices fuel force last s).2).
Proof.
  revert last s. induction fuel as [|fuel IH]; intros last s Hok; [apply css_nil|]. rewrite drop_notices_S.
  destruct (Z.leb_spec (Log.unsentDropped s) 0) as [|Hu]; [apply css_nil|]. cbv zeta.
  set (must := force || _). destruct (negb must && is_some last).
  { cbn [snd]. rewrite core_scheduleFlush. apply css_nil. }
  pose proof (rate_check must s) as Hc. destruct (if must then (true, s) else canEmit s) as [ok s1]. cbn [snd] in Hc.
  destruct (negb ok). { cbn [snd]. rewrite core_scheduleFlush, Hc. apply css_nil. }
  destruct (notice_turn_step s s1 Hok Hc Hu) as (Hs & _). destruct (notice_turn s s1) as [chunk s2].
  eapply core_steps_quiet; [by apply core_steps_one|]. apply IH. by eapply core_step_ok.
Qed.

Lemma flushDropNotice_steps s force :
  order_ok (core s) -> core_steps (core s) [] (core (flushDropNotice s force).2).
Proof. apply drop_notices_steps. Qed.

Lemma flush_loop_steps fuel force last s :
  order_ok (core s) -> core_steps (core s) [] (core (flush_loop fuel force last s).2).
Proof.
  revert last s. induction fuel as [|fuel IH]; intros last s Hok; [apply css_nil|]. rewrite flush_loop_S.
  destruct (Log.pending s) as [b|] eqn:Hp; [|apply css_nil].
  pose proof (rate_check force s) as Hc. destruct (if force then (true, s) else canEmit s) as [ok s1]. cbn [snd] in Hc.
  destruct (negb ok). { cbn [snd]. rewrite core_scheduleFlush, Hc. apply css_nil. }
  destruct (batch_turn_step s s1 b Hok Hc Hp) as (Hs & _). destruct (batch_turn s1 b) as [chunk s2].
  destruct force; cbn [snd]; [|by apply core_steps_one].
  eapply core_steps_quiet; [by apply core_steps_one|]. apply IH. by eapply core_step_ok.
Qed.

Lemma flushPending_steps s force :
  order_ok (core s) -> core_steps (core s) [] (core (flushPending s force).2).
Proof.
  intros Hok. unfold flushPending. rewrite <- (core_promote_ok s Hok).
  assert (Hok1 : order_ok (core (promoteOverflow s))) by by rewrite core_promote_ok.
  pose proof (flush_loop_steps 3 force None _ Hok1) as H.
  destruct (flush_loop 3 force None _) as [[returned last] s1]. cbn [snd] in H.
  destruct returned; [done|]. destruct (_ || _).
  { destruct force; cbn [snd]; rewrite ?core_scheduleFlush; done. }
  pose proof (flushDropNotice_steps s1 force (core_steps_ok _ _ _ H Hok1)) as H2.
  destruct (flushDropNotice s1 force) as [notice s2]. cbn [snd] in *.
  eapply core_steps_quiet; [done|]. destruct (_ && _); rewrite ?core_scheduleFlush; done.
Qed.

(** *** A forced flush leaves nothing behind *)
Record quiescent (c : Core.t) : Prop := mk_quiescent {
  quiescent_pending : Core.pending c = None;
  quiescent_overflow : Core.overflow c = None;
  quiescent_unsent : Core.unsent c = 0;
}.

Lemma drop_notices_forced fuel last s :
  order_ok (core s) -> (Z.to_nat (Log.unsentDropped s) < fuel)%nat ->
  let s' := (drop_notices fuel true last s).2 in
  Log.unsentDropped s' = 0 /\ Log.pending s' = Log.pending s /\ Log.overflow s' = Log.overflow s.
Proof.
  revert last s. induction fuel as [|fuel IH]; intros last s Hok Hfuel; [lia|]. rewrite drop_notices_S.
  pose proof (ok_unsent _ Hok) as Hu. cbn in Hu.
  destruct (Z.leb_spec (Log.unsentDropped s) 0); [cbn; repeat split; lia|]. cbn [orb negb andb].
  destruct (notice_turn_step s s Hok eq_refl ltac:(lia)) as (Hs & Hu2 & Hp2 & Ho2 & _).
  destruct (notice_turn s s) as [chunk s2]. cbn [snd] in *.
  destruct (IH (Some chunk) s2) as (H1 & H2 & H3); [by eapply core_step_ok|lia|].
  rewrite H1, H2, H3. done.
Qed.

Lemma flushDropNotice_forced s :
  order_ok (core s) -> Log.pending s = None -> Log.overflow s = None ->
  quiescent (core (flushDropNotice s true).2).
Proof.
  intros Hok Hp Ho. destruct (drop_notices_forced (Datatypes.S (Z.to_nat (Log.unsentDropped s))) None s Hok) as (H1 & H2 & H3);
    [lia|]. constructor; [exact (eq_trans H2 Hp)|exact (eq_trans H3 Ho)|exact H1].
Qed.

Definition held_count (s : LogStreamer) : nat :=
  (if is_some (Log.pending s) then 1 else 0) + (if is_some (Log.overflow s) then 1 else 0).

Lemma held_count_two s : (held_count s < 3)%nat.
Proof. unfold held_count. destruct (is_some (Log.pending s)), (is_some (Log.overflow s)); lia. Qed.

Lemma flush_loop_forced fuel last s :
  order_ok (core s) -> (held_count s < fuel)%nat ->
  let r := flush_loop fuel true last s in
  r.1.1 = false /\ Log.pending r.2 = None /\ Log.overflow r.2 = None.
Proof.
  revert last s. induction fuel as [|fuel IH]; intros last s Hok Hfuel; [lia|]. rewrite flush_loop_S.
  destruct (Log.pending s) as [b|] eqn:Hp; [|by pose proof (ok_order _ Hok Hp)]. cbn [negb].
  destruct (batch_turn_step s s b Hok eq_refl Hp) as (Hs & Hp2 & Ho2 & _).
  destruct (batch_turn s b) as [chunk s2]. cbn [snd] in *.
  apply IH; [by eapply core_step_ok|]. unfold held_count in *. rewrite Hp2, Ho2. rewrite Hp in Hfuel.
  cbn [is_some] in *. lia.
Qed.

Lemma flushPending_forced s : order_ok (core s) -> quiescent (core (flushPending s true).2).
Proof.
  intros Hok. unfold flushPending.
  assert (Hok1 : order_ok (core (promoteOverflow s))) by by rewrite core_promote_ok.
  pose proof (flush_loop_steps 3 true None _ Hok1) as H.
  pose proof (flush_loop_forced 3 None _ Hok1) as Hf.
  destruct (flush_loop 3 true None _) as [[returned last] s1]. cbn [fst snd] in *.
  destruct Hf as (-> & Hp & Ho).
  { apply held_count_two. }
  rewrite Hp, Ho. cbn [is_some orb].
  pose proof (flushDropNotice_forced s1 (core_steps_ok _ _ _ H Hok1) Hp Ho) as H2.
  by destruct (flushDropNotice s1 true) as [notice s2].
Qed.

(** *** Taking one piece *)
Lemma startPending_system s piece at_ :
  order_ok (core s) -> Log.pending s = None ->
  let s' := (startPending s system piece at_ true).2 in
  core_steps (core s) [Spoken piece] (core s') /\ quiescent (core s').
Proof.
  intros Hok Hp. pose proof (ok_order _ Hok Hp) as Ho. cbn in Ho.
  unfold startPending. cbn [negb andb]. cbv zeta. cbn [read_ms].
  set (s1 := s <| Log.pending := _ |> <| Log.msReads := _ |> <| Log.pendingSinceMs := _ |>).
  unfold flushPending.
  assert (Hs1 : promoteOverflow s1 = s1) by done. rewrite Hs1. clear Hs1.
  cbn [flush_loop]. change (Log.pending s1) with (Some (startBatch system piece at_)). cbn [negb].
  set (s2 := (clearTimer s1) <| Log.pending := None |>). cbn [startBatch Batch.stream Batch.content Batch.timestamp].
  destruct (emitRaw s2 system piece at_ None) as [chunk s3] eqn:He. cbv zeta.
  apply (f_equal (fun r => core r.2)) in He. rewrite core_emitRaw in He. cbn [snd] in He.
  assert (Hs : core_step (core s) [Spoken piece] (core s3)).
  { rewrite <- He. assert (H2 : core s2 = core s).
    { subst s2 s1. clear - Hp. destruct s. cbn in Hp. by subst. }
    rewrite H2. by apply cs_system. }
  pose proof (core_step_ok _ _ _ Hs Hok) as Hok3.
  assert (Hp3 : Log.pending s3 = None) by exact (eq_sym (f_equal Core.pending He)).
  assert (Ho3 : Log.overflow s3 = None) by by apply (ok_order _ Hok3).
  assert (Hpr : promoteOverflow s3 = s3) by (unfold promoteOverflow; by rewrite Hp3, Ho3).
  rewrite Hpr, Hp3. cbn [fst snd]. rewrite Hp3, Ho3. cbn [is_some orb].
  pose proof (flushDropNotice_steps s3 true Hok3) as H1.
  pose proof (flushDropNotice_forced s3 Hok3 Hp3 Ho3) as H2.
  destruct (flushDropNotice s3 true) as [notice s4]. cbn [negb andb snd] in *. split; [|done].
  change [Spoken piece] with ([Spoken piece] ++ [])%list. by eapply css_cons.
Qed.

Definition fate_piece (f : fate) : string := match f with Kept p | Spoken p | Dropped p | Capped p => p end.

(** One piece of [stdout] or [stderr] has one fate. *)
Definition takes (c : Core.t) (piece : string) (c' : Core.t) : Prop :=
  exists f, fate_piece f = piece /\ core_steps c [f] c'.

Lemma takes_step c f c' : core_step c [f] c' -> takes c (fate_piece f) c'.
Proof. intros H. exists f. split; [done|]. by apply core_steps_one. Qed.

Lemma takes_quiet c c1 piece c' : core_steps c [] c1 -> takes c1 piece c' -> takes c piece c'.
Proof. intros H (f & Hf & H1). exists f. split; [done|]. by eapply core_steps_quiet. Qed.

Lemma startPending_takes s stream piece at_ :
  order_ok (core s) -> Log.pending s = None -> stream <> system ->
  takes (core s) piece (core (startPending s stream piece at_ false).2).
Proof.
  intros Hok Hp Hst. pose proof (ok_order _ Hok Hp) as Ho. unfold startPending. cbn [negb andb].
  destruct (Z.leb_spec (Limits.maxChunks (Log.limits s)) (Log.emittedChunks s)) as [Hcap|Hcap].
  - by apply (takes_step _ (Capped piece)), cs_cap.
  - apply (takes_step _ (Kept piece)). cbv zeta. cbn [read_ms snd].
    pose proof (cs_start (core s) stream piece at_ Hst Hp Ho Hcap) as H.
    rewrite <- Ho in H. exact H.
Qed.

Lemma enqueue_flushed_takes s stream piece at_ allowOverflow last :
  order_ok (core s) -> stream <> system ->
  takes (core s) piece (core (enqueue_flushed s stream piece at_ false allowOverflow last).2).
Proof.
  intros Hok Hst. unfold enqueue_flushed. destruct (Log.pending s) as [b|] eqn:Hp.
  - destruct (negb (is_some (Log.overflow s)) && _ && _) eqn:Happ.
    + apply andb_prop in Happ as [[Ho _]%andb_prop Hfit].
      destruct (Log.overflow s) eqn:Hov; [done|].
      pose proof (cs_append (core s) b stream piece Hst Hp Hov Hfit) as H.
      apply (takes_step _ (Kept piece)). rewrite <- Hov in H. exact H.
    + clear Happ. destruct (Log.overflow s) as [o|] eqn:Hov.
      * destruct (allowOverflow && _ && _) eqn:Hfit.
        -- apply andb_prop in Hfit as [_ Hfit].
           pose proof (cs_append_overflow (core s) b o stream piece Hst Hp Hov Hfit) as H.
           apply (takes_step _ (Kept piece)). rewrite <- Hp in H. exact H.
        -- apply (takes_step _ (Dropped piece)). by apply (cs_drop (core s) b).
      * destruct (allowOverflow && _ && _) eqn:Hfit.
        -- apply andb_prop in Hfit as [_ Hroom%Z.ltb_lt].
           pose proof (cs_park (core s) b stream piece at_ Hst Hp Hov Hroom) as H.
           apply (takes_step _ (Kept piece)). rewrite <- Hp in H. exact H.
        -- apply (takes_step _ (Dropped piece)). by apply (cs_drop (core s) b).
  - pose proof (startPending_takes s stream piece at_ Hok Hp Hst) as H.
    by destruct (startPending s stream piece at_ false) as [chunk s1].
Qed.

Lemma enqueuePiece_takes s stream piece at_ allowPending allowOverflow :
  order_ok (core s) -> stream <> system ->
  takes (core s) piece (core (enqueuePiece s stream piece at_ false allowPending allowOverflow).2).
Proof.
  intros Hok Hst. unfold enqueuePiece. destruct (Log.pending s) as [b|] eqn:Hp.
  - destruct (allowPending && _ && _) eqn:Happ.
    + apply andb_prop in Happ as [[_ Ho]%andb_prop Hfit]. destruct (Log.overflow s) eqn:Hov; [done|].
      pose proof (cs_append (core s) b stream piece Hst Hp Hov Hfit) as H.
      apply (takes_step _ (Kept piece)). rewrite <- Hov in H. exact H.
    + pose proof (flushPending_steps s false Hok) as H.
      destruct (flushPending s false) as [last s1]. cbn [snd] in H.
      pose proof (core_steps_ok _ _ _ H Hok) as Hok1.
      eapply takes_quiet; [done|]. rewrite <- (core_promote_ok s1 Hok1).
      apply enqueue_flushed_takes; [|done]. by rewrite core_promote_ok.
  - destruct allowPending.
    + pose proof (startPending_takes s stream piece at_ Hok Hp Hst) as H.
      by destruct (startPending s stream piece at_ false) as [chunk s1].
    + rewrite <- (core_promote_ok s Hok). apply enqueue_flushed_takes; [|done]. by rewrite core_promote_ok.
Qed.

Lemma enqueue_pieces_takes stream at_ pieces last allowPending rejectRest s :
  order_ok (core s) -> stream <> system ->
  exists fates, map fate_piece fates = pieces /\
    core_steps (core s) fates (core (enqueue_pieces stream at_ false pieces last allowPending rejectRest s).2).
Proof.
  intros Hok Hst. revert last allowPending rejectRest s Hok.
  induction pieces as [|piece rest IH]; intros last allowPending rejectRest s Hok; cbn [enqueue_pieces].
  { exists []. split; [done|apply css_nil]. }
  destruct (enqueuePiece_takes s stream piece at_ (allowPending && negb rejectRest) (negb rejectRest) Hok Hst)
    as (f & Hf & H).
  destruct (enqueuePiece s _ _ _ _ _ _) as [r s1]. cbn [snd] in H.
  destruct (IH (opt_else (resultChunk r) last) (if diverted r then false else allowPending)
              (wasDropped r || rejectRest) s1) as (fs & Hfs & H2); [by eapply core_steps_ok|].
  exists (f :: fs). split; [by cbn; rewrite Hf, Hfs|]. by apply (core_steps_trans _ [f] _ fs _ H).
Qed.

Lemma enqueuePiece_system s piece at_ allowPending allowOverflow :
  order_ok (core s) -> Log.pending s = None ->
  let s' := (enqueuePiece s system piece at_ true allowPending allowOverflow).2 in
  core_steps (core s) [Spoken piece] (core s') /\ quiescent (core s').
Proof.
  intros Hok Hp. pose proof (ok_order _ Hok Hp) as Ho. pose proof (startPending_system s piece at_ Hok Hp) as H.
  assert (Hpr : promoteOverflow s = s) by (unfold promoteOverflow; cbn in Ho; by rewrite Hp, Ho).
  unfold enqueuePiece, enqueue_flushed. rewrite Hpr, Hp. cbv zeta in H.
  destruct (startPending s system piece at_ true) as [chunk s1]. by destruct allowPending.
Qed.

Lemma enqueue_pieces_system at_ pieces last allowPending rejectRest s :
  order_ok (core s) -> quiescent (core s) ->
  let s' := (enqueue_pieces system at_ true pieces last allowPending rejectRest s).2 in
  core_steps (core s) (map Spoken pieces) (core s') /\ quiescent (core s').
Proof.
  revert last allowPending rejectRest s.
  induction pieces as [|piece rest IH]; intros last allowPending rejectRest s Hok Hidle; cbn [enqueue_pieces].
  { split; [apply css_nil|done]. }
  destruct (enqueuePiece_system s piece at_ (allowPending && negb rejectRest) (negb rejectRest) Hok
              (quiescent_pending _ Hidle)) as [H Hi].
  destruct (enqueuePiece s _ _ _ _ _ _) as [r s1]. cbn [snd] in H, Hi.
  destruct (IH (opt_else (resultChunk r) last) (if diverted r then false else allowPending)
              (wasDropped r || rejectRest) s1) as [H2 Hi2]; [by eapply core_steps_ok|done|].
  split; [|done]. by apply (core_steps_trans _ [Spoken piece] _ _ _ H).
Qed.

Lemma afterStdoutEnqueue_steps s :
  order_ok (core s) -> core_steps (core s) [] (core (afterStdoutEnqueue s).2).
Proof.
  intros Hok. unfold afterStdoutEnqueue. rewrite <- (core_promote_ok s Hok).
  assert (Hok1 : order_ok (core (promoteOverflow s))) by by rewrite core_promote_ok.
  destruct (Log.pending (promoteOverflow s)); [|by apply flushDropNotice_steps].
  destruct (_ || _); [by apply flushPending_steps|]. cbn [snd]. rewrite core_scheduleFlush. apply css_nil.
Qed.

(** *** Whole writes *)
Lemma capped_steps c pieces :
  Limits.maxChunks (Core.limits c) <= Core.chunks c -> core_steps c (map Capped pieces) c.
Proof.
  intros Hcap. induction pieces as [|p ps IH]; [apply css_nil|].
  by apply (css_cons c [Capped p] c (map Capped ps)); [apply cs_cap|].
Qed.

Lemma writeAt_output s stream content at_ :
  order_ok (core s) -> stream <> system ->
  exists fates,
    map fate_piece fates = wire_pieces (Log.limits s) (truncateUtf8 content (remainingBytes s)) /\
    core_steps (core s) fates (core (writeAt s stream content at_).2).
Proof.
  intros Hok Hst. unfold writeAt. rewrite bool_decide_false by done. cbn [negb andb].
  destruct (_ && _ && _) eqn:Hcap.
  { apply andb_prop in Hcap as [[Hcap%Z.leb_le _]%andb_prop _].
    exists (map Capped (wire_pieces (Log.limits s) (truncateUtf8 content (remainingBytes s)))).
    split; [by rewrite map_map, map_id|]. by apply capped_steps. }
  rewrite slen_zero. case_bool_decide as He. { rewrite He. exists []. split; [done|apply css_nil]. }
  destruct (enqueue_pieces_takes stream at_
    (wire_pieces (Log.limits s) (truncateUtf8 content (remainingBytes s))) None true false s Hok Hst)
    as (fates & Hf & H).
  destruct (enqueue_pieces stream at_ false _ None true false s) as [last s1]. cbn [snd] in H.
  exists fates. split; [done|].
  pose proof (afterStdoutEnqueue_steps s1 (core_steps_ok _ _ _ H Hok)) as H2.
  destruct (afterStdoutEnqueue s1) as [flushed s2]. cbn [snd] in *.
  rewrite <- (app_nil_r fates). by eapply core_steps_trans.
Qed.

Lemma writeAt_system s content at_ :
  order_ok (core s) ->
  let s' := (writeAt s system content at_).2 in
  core_steps (core s) (map Spoken (wire_pieces (Log.limits s) content)) (core s') /\ quiescent (core s').
Proof.
  intros Hok. unfold writeAt. rewrite bool_decide_true by done.
  pose proof (flushPending_steps s true Hok) as H. pose proof (flushPending_forced s Hok) as Hi.
  destruct (flushPending s true) as [last s1]. cbn [snd] in H, Hi. cbn [negb andb].
  assert (Hl : Log.limits s1 = Log.limits s) by exact (core_steps_limits _ _ _ H).
  rewrite slen_zero. case_bool_decide as He. { subst. cbn. done. }
  destruct (enqueue_pieces_system at_ (wire_pieces (Log.limits s1) content) last true false s1
              (core_steps_ok _ _ _ H Hok) Hi) as [H2 Hi2].
  destruct (enqueue_pieces system at_ true _ last true false s1) as [last2 s2]. cbn [snd] in *.
  rewrite Hl in H2. split; [|done]. by eapply core_steps_quiet.
Qed.

(** ** What the machine keeps true *)
Definition from_system (ch : SessionLogChunk) : bool := bool_decide (Chunk.stream ch = system).

Fixpoint output_chunks (l : list SessionLogChunk) : Z :=
  match l with [] => 0 | ch :: l => (if from_system ch then 0 else 1) + output_chunks l end.

Fixpoint output_bytes (l : list SessionLogChunk) : Z :=
  match l with [] => 0 | ch :: l => (if from_system ch then 0 else utf8_length (Chunk.content ch)) + output_bytes l end.

(** The drops reported so far. *)
Fixpoint reported (l : list SessionLogChunk) : Z :=
  match l with [] => 0 | ch :: l => default 0 (Chunk.dropped ch) + reported l end.

Lemma output_chunks_snoc l ch :
  output_chunks (l ++ [ch])%list = output_chunks l + (if from_system ch then 0 else 1).
Proof. induction l as [|x l IH]; cbn; [lia|]. rewrite IH. lia. Qed.

Lemma output_bytes_snoc l ch :
  output_bytes (l ++ [ch])%list = output_bytes l + (if from_system ch then 0 else utf8_length (Chunk.content ch)).
Proof. induction l as [|x l IH]; cbn; [lia|]. rewrite IH. lia. Qed.

Lemma reported_snoc l ch : reported (l ++ [ch])%list = reported l + default 0 (Chunk.dropped ch).
Proof. induction l as [|x l IH]; cbn; [lia|]. rewrite IH. lia. Qed.

Definition holding (b : option CoalesceBatch) : Z := if is_some b then 1 else 0.

Definition batch_ok (limits : LogLimits) (b : CoalesceBatch) : Prop :=
  Batch.bytes b = utf8_length (Batch.content b) /\ frame_fits limits (Batch.content b).

(** Of what was emitted. *)
Record tape_ok (init : Z) (c : Core.t) : Prop := mk_tape_ok {
  tp_seq : Core.seq c = init + Z.of_nat (List.length (Core.emitted c));
  tp_numbered : forall i ch, Core.emitted c !! i = Some ch -> Chunk.seq ch = init + Z.of_nat i;
  tp_chunks : Core.chunks c = output_chunks (Core.emitted c);
  tp_bytes : Core.bytes c = output_bytes (Core.emitted c);
  tp_notices : forall ch n, ch ∈ Core.emitted c -> Chunk.dropped ch = Some n ->
                 0 < n <= Limits.maxDroppedPerNotice (Core.limits c);
  tp_frames : forall ch, ch ∈ Core.emitted c -> Chunk.dropped ch = None ->
                frame_fits (Core.limits c) (Chunk.content ch);
}.

(** Of what is held. *)
Record stock_ok (c : Core.t) : Prop := mk_stock_ok {
  sk_room : Core.chunks c + holding (Core.pending c) + holding (Core.overflow c) <=
            Limits.maxChunks (Core.limits c);
  sk_reported : reported (Core.emitted c) + Core.unsent c = Core.dropped c;
  sk_pending : forall b, Core.pending c = Some b -> batch_ok (Core.limits c) b;
  sk_overflow : forall b, Core.overflow c = Some b -> batch_ok (Core.limits c) b;
}.

Lemma emit_tape init c stream content at_ notice :
  tape_ok init c ->
  (forall n, notice = Some n -> 0 < n <= Limits.maxDroppedPerNotice (Core.limits c)) ->
  (notice = None -> frame_fits (Core.limits c) content) ->
  tape_ok init (Core.publish c stream content at_ notice).
Proof.
  intros [Hs Hn Hc Hb Hd Hf] Hnotice Hframe. constructor; cbn.
  - rewrite length_app. cbn. lia.
  - intros i ch [Hl|[Hlen Hl]]%lookup_app_Some; [by apply Hn|].
    apply list_lookup_singleton_Some in Hl as [Hi <-]. cbn. lia.
  - rewrite output_chunks_snoc. unfold from_system. cbn. case_bool_decide; lia.
  - rewrite output_bytes_snoc. unfold from_system. cbn. case_bool_decide; lia.
  - intros ch n [Hin|Hin]%elem_of_app Hdr; [by eapply Hd|]. apply list_elem_of_singleton in Hin as ->. by apply Hnotice.
  - intros ch [Hin|Hin]%elem_of_app Hdr; [by apply Hf|]. apply list_elem_of_singleton in Hin as ->. by apply Hframe.
Qed.

Lemma tape_hold init c p o : tape_ok init c -> tape_ok init (Core.hold c p o).
Proof. by intros []. Qed.

Lemma tape_count init c d u : tape_ok init c -> tape_ok init (Core.count c d u).
Proof. by intros []. Qed.

Lemma start_batch_ok limits stream piece at_ : frame_fits limits piece -> batch_ok limits (startBatch stream piece at_).
Proof. done. Qed.

Lemma append_batch_ok limits b stream piece :
  batch_ok limits b -> batch_fits limits b stream piece = true -> batch_ok limits (appendToBatch b piece).
Proof.
  intros [Hb _] [[_ H1%Z.leb_le]%andb_prop H2%Z.leb_le]%andb_prop.
  split; [|split]; cbn; rewrite ?utf8_length_app; [lia|lia|done].
Qed.

Definition pieces_fit (limits : LogLimits) (fates : list fate) : Prop :=
  Forall (frame_fits limits) (map fate_piece fates).

#[local] Hint Resolve tape_hold tape_count start_batch_ok append_batch_ok sk_pending sk_overflow : log.

Lemma core_step_tape init c l c' :
  core_step c l c' -> pieces_fit (Core.limits c) l -> stock_ok c -> tape_ok init c -> tape_ok init c'.
Proof.
  intros H Hfit Hk Ht. unfold pieces_fit in Hfit. destruct H; eauto with log; apply emit_tape; auto with log; try done.
  - intros _. by apply (sk_pending _ Hk).
  - intros m [= <-]. cbn. lia.
  - intros _. by apply Forall_inv in Hfit.
Qed.

Lemma core_step_stock c l c' :
  core_step c l c' -> pieces_fit (Core.limits c) l -> order_ok c -> stock_ok c -> stock_ok c'.
Proof.
  intros H Hfit Hok Hk. pose proof Hk as [Hr Hd Hp Ho]. unfold pieces_fit in Hfit.
  assert (Hempty : Core.pending c = None -> Core.overflow c = None) by apply (ok_order _ Hok).
  destruct H; try done; constructor; cbn; rewrite ?reported_snoc; cbn;
    intros; simplify_eq; eauto with log; repeat match goal with H : Core.pending c = _ |- _ => rewrite H in Hr
    | H : Core.overflow c = _ |- _ => rewrite H in Hr end; cbn in *; try lia.
  all: try (rewrite bool_decide_false by done). all: try lia.
  all: try (apply Forall_inv in Hfit; by apply start_batch_ok).
Qed.

(** *** Bytes *)
Definition load (c : Core.t) : Z := Core.bytes c + batch_bytes (Core.pending c) + batch_bytes (Core.overflow c).

Fixpoint kept_bytes (l : list fate) : Z :=
  match l with [] => 0 | Kept p :: l => utf8_length p + kept_bytes l | _ :: l => kept_bytes l end.

Lemma kept_bytes_app l l' : kept_bytes (l ++ l')%list = kept_bytes l + kept_bytes l'.
Proof. induction l as [|[] l IH]; cbn; lia. Qed.

Lemma kept_bytes_le l : kept_bytes l <= utf8_length (joined (map fate_piece l)).
Proof.
  induction l as [|f l IH]; [done|].
  change (joined (map fate_piece (f :: l))) with (fate_piece f ++ joined (map fate_piece l)).
  rewrite utf8_length_app. pose proof (utf8_length_nonneg (fate_piece f)).
  destruct f; cbn [fate_piece kept_bytes] in *; lia.
Qed.

Lemma kept_bytes_spoken l : kept_bytes (map Spoken l) = 0.
Proof. by induction l. Qed.

Lemma core_step_load c l c' : core_step c l c' -> stock_ok c -> order_ok c -> load c' = load c + kept_bytes l.
Proof.
  intros H Hk Hok. unfold load. destruct H; cbn;
    repeat match goal with H : Core.pending c = _ |- _ => rewrite H
    | H : Core.overflow c = _ |- _ => rewrite H end; cbn; try lia.
  all: try (rewrite bool_decide_true by done; lia).
  rewrite bool_decide_false by done. destruct (sk_pending _ Hk b) as [-> _]; [done|]. lia.
Qed.

(** *** Text: [flow] is everything written and not lost, in order. *)
Definition chunk_text (ch : SessionLogChunk) : string :=
  match Chunk.dropped ch with None => Chunk.content ch | Some _ => "" end.

Definition batch_text (b : option CoalesceBatch) : string :=
  match b with Some b => Batch.content b | None => "" end.

Definition flow (c : Core.t) : string :=
  joined (map chunk_text (Core.emitted c)) ++ batch_text (Core.pending c) ++ batch_text (Core.overflow c).

Fixpoint said (l : list fate) : string :=
  match l with [] => "" | (Kept p | Spoken p) :: l => p ++ said l | _ :: l => said l end.

Lemma said_app l l' : said (l ++ l')%list = said l ++ said l'.
Proof. induction l as [|[] l IH]; cbn; rewrite ?IH, ?string_app_assoc; done. Qed.

Lemma said_spoken l : said (map Spoken l) = joined l.
Proof. induction l as [|p l IH]; cbn; by rewrite ?IH. Qed.

Lemma emit_text c stream content at_ notice :
  joined (map chunk_text (Core.emitted (Core.publish c stream content at_ notice))) =
  joined (map chunk_text (Core.emitted c)) ++ (match notice with None => content | Some _ => "" end).
Proof. cbn. rewrite map_app, joined_app. cbn. by rewrite string_app_nil_r. Qed.

Lemma core_step_flow c l c' : core_step c l c' -> order_ok c -> flow c' = flow c ++ said l.
Proof.
  intros H Hok. unfold flow. destruct H; rewrite ?emit_text; cbn -[joined];
    repeat match goal with H : Core.pending c = _ |- _ => rewrite H
    | H : Core.overflow c = _ |- _ => rewrite H end; cbn -[joined];
    rewrite ?string_app_nil_r, ?string_app_assoc; done.
Qed.

(** *** Losses *)
Fixpoint drops (l : list fate) : Z :=
  match l with [] => 0 | Dropped _ :: l => 1 + drops l | _ :: l => drops l end.

Lemma drops_app l l' : drops (l ++ l')%list = drops l + drops l'.
Proof. induction l as [|[] l IH]; cbn; lia. Qed.

Lemma drops_spoken l : drops (map Spoken l) = 0.
Proof. by induction l. Qed.

Lemma core_step_drops c l c' : core_step c l c' -> Core.dropped c' = Core.dropped c + drops l.
Proof. destruct 1; cbn; lia. Qed.

Lemma core_step_chunks c l c' : core_step c l c' -> Core.chunks c <= Core.chunks c'.
Proof. destruct 1; cbn; try case_bool_decide; lia. Qed.

Lemma core_steps_chunks c l c' : core_steps c l c' -> Core.chunks c <= Core.chunks c'.
Proof. induction 1 as [|c l c1 ls c2 H _ IH]; [done|]. apply core_step_chunks in H. lia. Qed.

Lemma core_steps_capped c l c' p :
  core_steps c l c' -> In (Capped p) l -> Limits.maxChunks (Core.limits c) <= Core.chunks c'.
Proof.
  induction 1 as [|c l c1 ls c2 H Hs IH]; [done|]. intros [Hin|Hin]%in_app_or.
  - apply core_steps_chunks in Hs. destruct H; cbn in Hin; naive_solver lia.
  - rewrite <- (core_step_limits _ _ _ H). by apply IH.
Qed.

Lemma said_all l :
  drops l = 0 -> (forall p, ~ In (Capped p) l) -> said l = joined (map fate_piece l).
Proof.
  assert (Hnn : forall l, 0 <= drops l) by (clear; induction l as [|[] l IH]; cbn; lia).
  induction l as [|f l IH]; [done|]. intros Hd Hc. specialize (Hnn l).
  assert (Hl : forall p, ~ In (Capped p) l) by (intros p Hin; apply (Hc p); by right).
  destruct f as [p|p|p|p]; cbn in *; [by rewrite IH|by rewrite IH|lia|].
  destruct (Hc p); by left.
Qed.

(** ** Sequences of steps *)
Record machine_ok (init : Z) (c : Core.t) : Prop := mk_machine_ok {
  mo_core : order_ok c;
  mo_stock : stock_ok c;
  mo_tape : tape_ok init c;
}.

Lemma core_steps_machine init c l c' :
  core_steps c l c' -> pieces_fit (Core.limits c) l -> machine_ok init c ->
  machine_ok init c' /\ load c' = load c + kept_bytes l /\ flow c' = flow c ++ said l /\
  Core.dropped c' = Core.dropped c + drops l.
Proof.
  induction 1 as [c|c l c1 ls c2 H _ IH]; intros Hfit Hm.
  { split; [done|]. cbn. rewrite string_app_nil_r. repeat split; lia. }
  unfold pieces_fit in *. rewrite map_app, Forall_app in Hfit. destruct Hfit as [Hl Hls], Hm as [Hok Hk Ht].
  destruct IH as (Hm & Hload & Hflow & Hd).
  - by rewrite (core_step_limits _ _ _ H).
  - constructor; [by eapply core_step_ok|by eapply core_step_stock|by eapply core_step_tape].
  - split; [done|]. rewrite Hload, Hflow, Hd, kept_bytes_app, said_app, drops_app.
    rewrite (core_step_load _ _ _ H), (core_step_flow _ _ _ H), (core_step_drops _ _ _ H) by done.
    split; [lia|]. split; [by rewrite string_app_assoc|lia].
Qed.

(** Limits under which every piece fits a frame: a code unit takes at most two bytes. *)
Record limits_ok (limits : LogLimits) : Prop := mk_limits_ok {
  lo_wire : 2 <= Limits.maxWireBytes limits;
  lo_lines : 1 <= Limits.logBatchMaxLines limits;
  lo_notice : 1 <= Limits.maxDroppedPerNotice limits;
  lo_chunks : 0 <= Limits.maxChunks limits;
  lo_bytes : 0 <= Limits.maxBytes limits;
}.

Record streamer_ok (init : Z) (s : LogStreamer) : Prop := mk_streamer_ok {
  so_limits : limits_ok (Log.limits s);
  so_machine : machine_ok init (core s);
  so_load : load (core s) <= Limits.maxBytes (Log.limits s);
}.

Lemma wire_pieces_fates limits content fates :
  limits_ok limits -> map fate_piece fates = wire_pieces limits content -> pieces_fit limits fates.
Proof. intros [Hw Hl _ _ _] Hp. unfold pieces_fit. rewrite Hp. by apply wire_pieces_fit. Qed.

Lemma quiet_ok init s s' : core_steps (core s) [] (core s') -> streamer_ok init s -> streamer_ok init s'.
Proof.
  intros H [Hl Hm Hb]. assert (Hlim : Log.limits s' = Log.limits s) by exact (core_steps_limits _ _ _ H).
  destruct (core_steps_machine init _ _ _ H) as (Hm' & Hload & _ & _); [constructor|done|].
  cbn in Hload. constructor; [by rewrite Hlim|done|]. rewrite Hlim. lia.
Qed.

(** Every write accounts for every piece of its content. *)
Definition written (s : LogStreamer) (stream : LogStream) (content : string) : string :=
  if bool_decide (stream = system) then content else truncateUtf8 content (remainingBytes s).

Lemma writeAt_fates init s stream content at_ :
  streamer_ok init s ->
  exists fates, let s' := (writeAt s stream content at_).2 in
    map fate_piece fates = wire_pieces (Log.limits s) (written s stream content) /\
    core_steps (core s) fates (core s') /\
    (stream = system -> drops fates = 0 /\ forall p, ~ In (Capped p) fates) /\
    streamer_ok init s' /\
    flow (core s') = flow (core s) ++ said fates /\
    Log.droppedChunks s' = Log.droppedChunks s + drops fates.
Proof.
  intros [Hl Hm Hb]. unfold written. case_bool_decide as Hst.
  - subst. destruct (writeAt_system s content at_ (mo_core _ _ Hm)) as [H _].
    remember (map Spoken (wire_pieces (Log.limits s) content)) as fates eqn:Efates. exists fates.
    assert (Hp : map fate_piece fates = wire_pieces (Log.limits s) content) by (rewrite Efates; by rewrite map_map, map_id).
    destruct (core_steps_machine init _ _ _ H) as (Hm' & Hload & Hflow & Hd);
      [by eapply wire_pieces_fates|done|].
    assert (Hlim : Log.limits (writeAt s system content at_).2 = Log.limits s) by exact (core_steps_limits _ _ _ H).
    split; [done|]. split; [done|]. split.
    { intros _. rewrite Efates. split; [apply drops_spoken|]. intros p Hin%in_map_iff. by destruct Hin as (? & ? & _). }
    split; [|done]. constructor; rewrite ?Hlim; [done|done|]. rewrite Hload, Efates, kept_bytes_spoken. lia.
  - destruct (writeAt_output s stream content at_ (mo_core _ _ Hm) Hst) as (fates & Hp & H).
    exists fates.
    destruct (core_steps_machine init _ _ _ H) as (Hm' & Hload & Hflow & Hd);
      [by eapply wire_pieces_fates|done|].
    assert (Hlim : Log.limits (writeAt s stream content at_).2 = Log.limits s) by exact (core_steps_limits _ _ _ H).
    assert (Hj : joined (map fate_piece fates) = truncateUtf8 content (remainingBytes s))
      by (rewrite Hp; apply wire_pieces_joined).
    split; [done|]. split; [done|]. split; [done|]. split; [|done]. constructor; rewrite ?Hlim; [done|done|].
    pose proof (kept_bytes_le fates) as Hk. rewrite Hj in Hk.
    assert (Hr : remainingBytes s = Limits.maxBytes (Log.limits s) - load (core s))
      by (unfold remainingBytes, load; cbn; lia).
    pose proof (truncateUtf8_bytes content (remainingBytes s)). lia.
Qed.

(** ** The timer *)
Definition waiting (s : LogStreamer) : bool :=
  is_some (Log.pending s) || is_some (Log.overflow s) || negb (Log.unsentDropped s =? 0).

Definition armed (s : LogStreamer) : Prop := waiting s = true -> is_some (Log.timer s) = true.

Lemma quiescent_armed s : quiescent (core s) -> armed s.
Proof.
  intros [Hp Ho Hu]. unfold armed, waiting. cbn in Hp, Ho, Hu. by rewrite Hp, Ho, Hu.
Qed.

Lemma scheduleFlush_armed s : armed (scheduleFlush s).
Proof.
  unfold scheduleFlush. destruct (_ || _) eqn:Hskip.
  - unfold armed, waiting. intros Hw. destruct (Log.timer s); [done|]. cbn in Hskip.
    destruct (is_some (Log.pending s)), (is_some (Log.overflow s)), (Log.unsentDropped s =? 0); done.
  - cbn [read_ms]. by destruct (nextEmitAt _ _).
Qed.

Lemma drop_notices_armed fuel force last s :
  order_ok (core s) -> Log.pending s = None -> (Z.to_nat (Log.unsentDropped s) < fuel)%nat ->
  armed (drop_notices fuel force last s).2.
Proof.
  revert last s. induction fuel as [|fuel IH]; intros last s Hok Hp Hfuel; [lia|]. rewrite drop_notices_S.
  pose proof (ok_unsent _ Hok) as Hu. cbn in Hu. destruct (Z.leb_spec (Log.unsentDropped s) 0).
  { apply quiescent_armed. constructor; [done|by apply (ok_order _ Hok)|cbn; lia]. }
  cbv zeta. set (must := force || _). destruct (negb must && is_some last); [apply scheduleFlush_armed|].
  pose proof (rate_check must s) as Hc. destruct (if must then (true, s) else canEmit s) as [ok s1]. cbn [snd] in Hc.
  destruct (negb ok); [apply scheduleFlush_armed|].
  destruct (notice_turn_step s s1 Hok Hc ltac:(lia)) as (Hs & Hu2 & Hp2 & _).
  destruct (notice_turn s s1) as [chunk s2]. cbn [snd] in *.
  apply IH; [by eapply core_step_ok|by rewrite Hp2|lia].
Qed.

Lemma flush_loop_returned fuel last s :
  (flush_loop fuel false last s).1.1 = true -> armed (flush_loop fuel false last s).2.
Proof.
  destruct fuel as [|fuel]; cbn [flush_loop]; [done|]. destruct (Log.pending s); [|done].
  destruct (canEmit s) as [ok s1]. destruct (negb ok).
  { intros _. apply scheduleFlush_armed. }
  by destruct (emitRaw _ _ _ _ _) as [chunk s3].
Qed.

Lemma flushPending_armed s : order_ok (core s) -> armed (flushPending s false).2.
Proof.
  intros Hok. unfold flushPending.
  assert (Hok1 : order_ok (core (promoteOverflow s))) by by rewrite core_promote_ok.
  pose proof (flush_loop_steps 3 false None _ Hok1) as H.
  pose proof (flush_loop_returned 3 None (promoteOverflow s)) as Hr.
  destruct (flush_loop 3 false None _) as [[returned last] s1]. cbn [fst snd] in *.
  destruct returned; [by apply Hr|]. destruct (_ || _) eqn:Hheld; [apply scheduleFlush_armed|].
  apply orb_false_elim in Hheld as [Hp Ho].
  assert (Hp1 : Log.pending s1 = None) by by destruct (Log.pending s1).
  pose proof (drop_notices_armed (Datatypes.S (Z.to_nat (Log.unsentDropped s1))) false None s1
                (core_steps_ok _ _ _ H Hok1) Hp1 ltac:(lia)) as Ha.
  fold (flushDropNotice s1 false) in Ha. destruct (flushDropNotice s1 false) as [notice s2]. cbn [snd] in *.
  destruct (_ && _); [apply scheduleFlush_armed|done].
Qed.

Lemma afterStdoutEnqueue_armed s : order_ok (core s) -> armed (afterStdoutEnqueue s).2.
Proof.
  intros Hok. unfold afterStdoutEnqueue.
  assert (Hok1 : order_ok (core (promoteOverflow s))) by by rewrite core_promote_ok.
  destruct (Log.pending (promoteOverflow s)) eqn:Hp.
  - destruct (_ || _); [by apply flushPending_armed|apply scheduleFlush_armed].
  - apply drop_notices_armed; [done|done|lia].
Qed.

Lemma writeAt_armed s stream content at_ : order_ok (core s) -> armed s -> armed (writeAt s stream content at_).2.
Proof.
  intros Hok Ha. destruct (decide (stream = system)) as [->|Hst].
  { by apply quiescent_armed, writeAt_system. }
  unfold writeAt. rewrite bool_decide_false by done. cbn [negb andb]. destruct (_ && _ && _); [done|].
  destruct (slen _ =? 0); [done|].
  destruct (enqueue_pieces_takes stream at_
    (wire_pieces (Log.limits s) (truncateUtf8 content (remainingBytes s))) None true false s Hok Hst)
    as (fates & _ & H).
  destruct (enqueue_pieces stream at_ false _ None true false s) as [last s1]. cbn [snd] in H.
  pose proof (afterStdoutEnqueue_armed s1 (core_steps_ok _ _ _ H Hok)) as H2.
  by destruct (afterStdoutEnqueue s1).
Qed.

Lemma core_steps_emitted c l c' :
  core_steps c l c' -> (List.length (Core.emitted c) <= List.length (Core.emitted c'))%nat.
Proof.
  induction 1 as [|c l c1 ls c2 H _ IH]; [done|]. etransitivity; [|done].
  destruct H; cbn; rewrite ?length_app; cbn; lia.
Qed.

(** When the rate window has room, the timer's turn emits. *)
Lemma drop_notices_emits fuel s :
  order_ok (core s) -> (canEmit s).1 = true -> 0 < Log.unsentDropped s ->
  (List.length (Log.emitted s) < List.length (Log.emitted (drop_notices (Datatypes.S fuel) false None s).2))%nat.
Proof.
  intros Hok Hcan Hu. rewrite drop_notices_S. destruct (Z.leb_spec (Log.unsentDropped s) 0); [lia|].
  cbv zeta. set (must := false || _). rewrite andb_false_r. pose proof (rate_check must s) as Hc.
  assert (Hb : (if must then (true, s) else canEmit s).1 = true) by (destruct must; done).
  destruct (if must then (true, s) else canEmit s) as [ok s1]. cbn [fst snd] in Hc, Hb. rewrite Hb. cbn [negb].
  destruct (notice_turn_step s s1 Hok Hc Hu) as (Hs & _ & _ & _ & Hlen).
  destruct (notice_turn s s1) as [chunk s2]. cbn [snd] in Hlen.
  pose proof (core_steps_emitted _ _ _ (drop_notices_steps fuel false (Some chunk) s2 (core_step_ok _ _ _ Hs Hok))) as Hm.
  cbn -[drop_notices] in Hm. lia.
Qed.

Lemma flushPending_emits s :
  order_ok (core s) -> waiting s = true -> (canEmit s).1 = true ->
  (List.length (Log.emitted s) < List.length (Log.emitted (flushPending s false).2))%nat.
Proof.
  intros Hok Hw Hcan. unfold flushPending.
  assert (Hpr : promoteOverflow s = s).
  { unfold promoteOverflow. destruct (Log.pending s) eqn:Hp; [done|].
    pose proof (ok_order _ Hok Hp) as Ho. cbn in Ho. by rewrite Ho. }
  rewrite Hpr, flush_loop_S. destruct (Log.pending s) as [b|] eqn:Hp.
  - pose proof (core_canEmit s) as Hc. destruct (canEmit s) as [ok s1]. cbn [fst snd] in Hcan, Hc. subst ok. cbn [negb].
    destruct (batch_turn_step s s1 b Hok Hc Hp) as (Hs & _ & _ & Hlen).
    destruct (batch_turn s1 b) as [chunk s2]. cbn [snd] in *. set (s3 := promoteOverflow s2) in *.
    destruct (_ || _); [cbn [snd]; by rewrite emitted_scheduleFlush|].
    pose proof (core_steps_emitted _ _ _ (flushDropNotice_steps s3 false (core_step_ok _ _ _ Hs Hok))) as Hm.
    destruct (flushDropNotice s3 false) as [notice s4]. cbn [snd] in *. cbn in Hm.
    destruct (_ && _); rewrite ?emitted_scheduleFlush; lia.
  - pose proof (ok_order _ Hok Hp) as Ho. pose proof (ok_unsent _ Hok) as Hu. cbn in Ho, Hu.
    rewrite Hp, Ho. cbn [is_some orb].
    unfold waiting in Hw. rewrite Hp, Ho in Hw. cbn in Hw. apply negb_true_iff, Z.eqb_neq in Hw.
    pose proof (drop_notices_emits (Z.to_nat (Log.unsentDropped s)) s Hok Hcan ltac:(lia)) as Hm.
    fold (flushDropNotice s false) in Hm. destruct (flushDropNotice s false) as [notice s4]. cbn [snd] in *.
    destruct (_ && _); rewrite ?emitted_scheduleFlush; lia.
Qed.

(** *** The loops end: more turns change nothing *)
Lemma drop_notices_fuel fuel extra force last s :
  order_ok (core s) -> (Z.to_nat (Log.unsentDropped s) < fuel)%nat ->
  drop_notices (fuel + extra) force last s = drop_notices fuel force last s.
Proof.
  revert last s. induction fuel as [|fuel IH]; intros last s Hok Hfuel; [lia|].
  cbn [Nat.add]. rewrite !drop_notices_S. destruct (Z.leb_spec (Log.unsentDropped s) 0) as [|Hu]; [done|].
  cbv zeta. set (must := force || _). destruct (negb must && is_some last); [done|].
  pose proof (rate_check must s) as Hc. destruct (if must then (true, s) else canEmit s) as [ok s1]. cbn [snd] in Hc.
  destruct (negb ok); [done|]. destruct (notice_turn_step s s1 Hok Hc Hu) as (Hs & Hu2 & _).
  destruct (notice_turn s s1) as [chunk s2]. cbn [snd] in *. apply IH; [by eapply core_step_ok|lia].
Qed.

Lemma flush_loop_fuel fuel extra force last s :
  order_ok (core s) -> (held_count s < fuel)%nat ->
  flush_loop (fuel + extra) force last s = flush_loop fuel force last s.
Proof.
  revert last s. induction fuel as [|fuel IH]; intros last s Hok Hfuel; [lia|].
  cbn [Nat.add]. rewrite !flush_loop_S. destruct (Log.pending s) as [b|] eqn:Hp; [|done].
  pose proof (rate_check force s) as Hc. destruct (if force then (true, s) else canEmit s) as [ok s1]. cbn [snd] in Hc.
  destruct (negb ok); [done|]. destruct (batch_turn_step s s1 b Hok Hc Hp) as (Hs & Hp2 & Ho2 & _).
  destruct (batch_turn s1 b) as [chunk s2]. cbn [snd] in *. destruct force; [|done].
  apply IH; [by eapply core_step_ok|]. unfold held_count in *. rewrite Hp2, Ho2. rewrite Hp in Hfuel.
  cbn [is_some] in *. lia.
Qed.

(** ** The life of a streamer *)
Lemma log_step_ok init s s' : log_step s s' -> streamer_ok init s /\ armed s -> streamer_ok init s' /\ armed s'.
Proof.
  intros H [Hok Ha]. pose proof (mo_core _ _ (so_machine _ _ Hok)) as Hc.
  assert (Hw : forall s0 stream content at_, core s0 = core s -> Log.timer s0 = Log.timer s ->
    streamer_ok init (writeAt s0 stream content at_).2 /\ armed (writeAt s0 stream content at_).2).
  { intros s0 stream content at_ Hc0 Ht0.
    assert (Hok0 : streamer_ok init s0) by (apply (quiet_ok init s); [rewrite Hc0; apply css_nil|done]).
    split; [by destruct (writeAt_fates init s0 stream content at_ Hok0) as (? & _ & _ & _ & ? & _)|].
    apply writeAt_armed; [by rewrite Hc0|]. unfold armed, waiting in *.
    rewrite (f_equal Core.pending Hc0 : Log.pending s0 = Log.pending s),
      (f_equal Core.overflow Hc0 : Log.overflow s0 = Log.overflow s),
      (f_equal Core.unsent Hc0 : Log.unsentDropped s0 = Log.unsentDropped s), Ht0. done. }
  destruct H as [s stream content|s label|s|s Htimer].
  - unfold write. cbn [read_now]. by apply Hw.
  - unfold writeTimestampedSystem. cbn [read_now]. by apply Hw.
  - split; [eapply quiet_ok; [by apply flushPending_steps|done]|]. by apply quiescent_armed, flushPending_forced.
  - set (s1 := s <| Log.timer := None |>). split; [|by apply flushPending_armed].
    eapply quiet_ok; [apply (flushPending_steps s1 false Hc)|]. apply (quiet_ok init s); [apply css_nil|done].
Qed.

Lemma log_step_refines init s s' :
  log_step s s' -> streamer_ok init s -> exists fates, core_steps (core s) fates (core s').
Proof.
  intros H Hok. pose proof (mo_core _ _ (so_machine _ _ Hok)) as Hc.
  assert (Hw : forall s0 stream content at_, core s0 = core s ->
    exists fates, core_steps (core s) fates (core (writeAt s0 stream content at_).2)).
  { intros s0 stream content at_ Hc0. rewrite <- Hc0.
    destruct (writeAt_fates init s0 stream content at_) as (fates & _ & H0 & _); [|by exists fates].
    apply (quiet_ok init s); [rewrite Hc0; apply css_nil|done]. }
  destruct H as [s stream content|s label|s|s Htimer].
  - unfold write. cbn [read_now]. by apply Hw.
  - unfold writeTimestampedSystem. cbn [read_now]. by apply Hw.
  - exists []. by apply flushPending_steps.
  - exists []. set (s1 := s <| Log.timer := None |>). exact (flushPending_steps s1 false Hc).
Qed.

Lemma new_streamer_ok sid aid init limits nowMs now :
  limits_ok limits ->
  streamer_ok init (new_streamer sid aid init limits nowMs now) /\ armed (new_streamer sid aid init limits nowMs now).
Proof.
  intros Hl. pose proof Hl as [Hw Hn Hd Hc Hb]. split; [|done]. constructor; [done| |unfold load; cbn; lia].
  constructor; constructor; cbn; try done; try lia; try (by intros ? ?%elem_of_nil); try (by intros ? ? ?%elem_of_nil).
Qed.

(** A streamer that some operations have run on. *)
Definition log_run (sid aid : string) (init : Z) (limits : LogLimits) (nowMs : nat -> Z) (now : nat -> string)
    (s : LogStreamer) : Prop :=
  rtc log_step (new_streamer sid aid init limits nowMs now) s.

Lemma log_run_ok sid aid init limits nowMs now s :
  limits_ok limits -> log_run sid aid init limits nowMs now s ->
  streamer_ok init s /\ armed s /\ Log.limits s = limits.
Proof.
  intros Hl Hrun. assert (H : (streamer_ok init s /\ armed s) /\ Log.limits s = limits); [|tauto].
  unfold log_run in Hrun. remember (new_streamer sid aid init limits nowMs now) as s0 eqn:E0.
  assert (H0 : (streamer_ok init s0 /\ armed s0) /\ Log.limits s0 = limits)
    by (subst; split; [by apply new_streamer_ok|done]).
  clear E0. induction Hrun as [s|s s1 s2 Hstep _ IH]; [done|]. apply IH. destruct H0 as [H0 Hlim].
  split; [by eapply log_step_ok|]. destruct H0 as [Hok _].
  destruct (log_step_refines init _ _ Hstep Hok) as (fates & Hsteps).
  by rewrite <- Hlim; apply (core_steps_limits _ _ _ Hsteps).
Qed.

(** ** Guarantees *)

(** Sequence numbers (Invariant 5).  However the daemon interleaves writes, flushes and timer
    turns, the chunks a streamer has emitted carry consecutive sequence numbers from [initialSeq] in
    emission order, and [nextSeq()] is the number after the last of them. *)
Theorem log_sequence_consecutive sid aid init limits nowMs now s :
  limits_ok limits -> log_run sid aid init limits nowMs now s ->
  (forall i ch, Log.emitted s !! i = Some ch -> Chunk.seq ch = init + Z.of_nat i) /\
  Log.seq s = init + Z.of_nat (List.length (Log.emitted s)).
Proof.
  intros Hlimits Hrun.
  destruct (log_run_ok _ _ _ _ _ _ _ Hlimits Hrun) as ([_ [_ _ [Hs Hn _ _ _ _]] _] & _ & _). done.
Qed.

(** Bounds of the stream.  In every reachable state each emitted chunk other than a drop notice
    fits the frame budget in bytes and in lines, the stdout and stderr chunks emitted are at most
    [maxChunks] and their bytes at most [maxBytes], and no notice reports more than
    [maxDroppedPerNotice] drops. *)
Theorem log_output_bounded sid aid init limits nowMs now s :
  limits_ok limits -> log_run sid aid init limits nowMs now s ->
  (forall ch, ch ∈ Log.emitted s -> Chunk.dropped ch = None -> frame_fits limits (Chunk.content ch)) /\
  output_chunks (Log.emitted s) <= Limits.maxChunks limits /\
  output_bytes (Log.emitted s) <= Limits.maxBytes limits /\
  (forall ch n, ch ∈ Log.emitted s -> Chunk.dropped ch = Some n -> 0 < n <= Limits.maxDroppedPerNotice limits).
Proof.
  intros Hlimits Hrun.
  destruct (log_run_ok _ _ _ _ _ _ _ Hlimits Hrun) as ([_ [_ [Hroom _ Hp Ho] [_ _ Hc Hb Hn Hf]] Hload] & _ & Hl).
  unfold load in Hload. cbn in *. rewrite Hl in *.
  assert (Hbytes : forall b, (forall x, b = Some x -> batch_ok limits x) -> 0 <= batch_bytes b).
  { intros [b|] Hb'; [|done]. cbn. destruct (Hb' b eq_refl) as [-> _]. apply utf8_length_nonneg. }
  pose proof (Hbytes _ Hp). pose proof (Hbytes _ Ho).
  assert (Hheld : forall b : option CoalesceBatch, 0 <= holding b) by (intros []; done).
  pose proof (Hheld (Log.pending s)). pose proof (Hheld (Log.overflow s)).
  split; [done|]. split; [lia|]. split; [lia|done].
Qed.

(** [C35] Every piece written is accounted for.  A write takes [written] (all the content of a
    system line, otherwise its truncation to the remaining byte budget) and cuts it into the
    pieces of [wire_pieces], none empty, which joined give it back.  Each piece has exactly one
    fate, and the write is a run of the machine [core_steps] with these fates in this order: the
    pieces kept or emitted follow everything kept before in the same order, [droppedCount()] and
    the count of drops to report rise by one for each piece dropped and by nothing else, a piece
    is dropped only while a batch is held, it is silently refused only when the session has
    emitted [maxChunks] chunks, and system lines are never lost. *)
Theorem log_output_accounted sid aid init limits nowMs now s (stream : LogStream) (content at_ : string) :
  limits_ok limits -> log_run sid aid init limits nowMs now s ->
  let s' := (writeAt s stream content at_).2 in
  joined (wire_pieces limits (written s stream content)) = written s stream content /\
  Forall (fun p => p <> "") (wire_pieces limits (written s stream content)) /\
  exists fates,
    map fate_piece fates = wire_pieces limits (written s stream content) /\
    core_steps (core s) fates (core s') /\
    flow (core s') = flow (core s) ++ said fates /\
    Log.droppedChunks s' = Log.droppedChunks s + drops fates /\
    (forall p, In (Capped p) fates -> Limits.maxChunks limits <= Log.emittedChunks s') /\
    (stream = system -> said fates = content).
Proof.
  intros Hlimits Hrun. cbv zeta.
  destruct (log_run_ok _ _ _ _ _ _ _ Hlimits Hrun) as (Hok & _ & Hl).
  destruct (writeAt_fates init s stream content at_ Hok) as (fates & Hj & Hs & Hsys & _ & Hf & Hd). rewrite Hl in Hj.
  split; [apply wire_pieces_joined|]. split; [apply wire_pieces_nonempty|].
  exists fates. split; [done|]. split; [done|]. split; [done|]. split; [done|]. split.
  - intros p Hin. rewrite <- Hl. exact (core_steps_capped _ _ _ p Hs Hin).
  - intros Hst. destruct (Hsys Hst) as [Hd0 Hc0]. rewrite said_all, Hj, wire_pieces_joined by done.
    unfold written. by rewrite bool_decide_true.
Qed.

(** Every drop is reported.  In every reachable state the counts in the drop notices emitted
    and the drops not yet reported add up to [droppedCount()]; [flush()] emits everything held, so
    that after it all kept text is in emitted chunks and all drops are in emitted notices. *)
Theorem log_drops_reported sid aid init limits nowMs now s :
  limits_ok limits -> log_run sid aid init limits nowMs now s ->
  reported (Log.emitted s) + Log.unsentDropped s = Log.droppedChunks s /\
  waiting (flush s) = false /\
  joined (map chunk_text (Log.emitted (flush s))) = flow (core s) /\
  reported (Log.emitted (flush s)) = Log.droppedChunks s.
Proof.
  intros Hlimits Hrun.
  destruct (log_run_ok _ _ _ _ _ _ _ Hlimits Hrun) as ([_ Hm _] & _ & _).
  pose proof (flushPending_steps s true (mo_core _ _ Hm)) as Hs.
  destruct (flushPending_forced s (mo_core _ _ Hm)) as [Hp Ho Hu].
  destruct (core_steps_machine init _ _ _ Hs) as ([_ Hk _] & _ & Hflow & Hd); [constructor|done|].
  fold (flush s) in *. cbn -[flush flow] in Hp, Ho, Hu, Hflow, Hd.
  pose proof (sk_reported _ Hk) as Hr. cbn -[flush] in Hr.
  split; [exact (sk_reported _ (mo_stock _ _ Hm))|]. split; [unfold waiting; by rewrite Hp, Ho, Hu|].
  split; [|lia]. rewrite string_app_nil_r in Hflow. rewrite <- Hflow. unfold flow. cbn -[flush joined].
  rewrite Hp, Ho. cbn -[flush joined]. by rewrite string_app_nil_r.
Qed.

(** The streamer's loops end.  In every reachable state the loop of [flushPending] is done after at
    most two batches and the loop of [flushDropNotice] after at most one notice per unreported drop:
    with any larger bound the two functions compute the same result. *)
Theorem log_loops_terminate sid aid init limits nowMs now s force extra :
  limits_ok limits -> log_run sid aid init limits nowMs now s ->
  flush_loop (3 + extra) force None (promoteOverflow s) = flush_loop 3 force None (promoteOverflow s) /\
  drop_notices (Datatypes.S (Z.to_nat (Log.unsentDropped s)) + extra) force None s = flushDropNotice s force.
Proof.
  intros Hlimits Hrun.
  destruct (log_run_ok _ _ _ _ _ _ _ Hlimits Hrun) as ([_ Hm _] & _ & _). pose proof (mo_core _ _ Hm) as Hok. split.
  - apply flush_loop_fuel; [by rewrite core_promote_ok|apply held_count_two].
  - apply drop_notices_fuel; [done|lia].
Qed.

(** [C36] Output never waits without a timer.  In every reachable state in which a batch is held or a
    drop is unreported, the timer is armed, and a timer turn that finds room in the rate window emits
    at least one chunk. *)
Theorem log_output_not_stranded sid aid init limits nowMs now s :
  limits_ok limits -> log_run sid aid init limits nowMs now s ->
  waiting s = true ->
  is_some (Log.timer s) = true /\
  ((canEmit s).1 = true -> (List.length (Log.emitted s) < List.length (Log.emitted (fire s)))%nat).
Proof.
  intros Hlimits Hrun Hw. destruct (log_run_ok _ _ _ _ _ _ _ Hlimits Hrun) as ([_ Hm _] & Ha & _). split; [by apply Ha|].
  intros Hcan. set (s1 := s <| Log.timer := None |>). apply (flushPending_emits s1); [exact (mo_core _ _ Hm)|exact Hw|].
  rewrite <- Hcan. unfold canEmit. cbn. by destruct (Limits.maxMessagesPerSec (Log.limits s)).
Qed.

(** ** An example run: two messages a second, frames of eight bytes. *)
Definition example_limits : LogLimits := Limits.mkLimits 20 200 8 2 100 (Some 2) 5.

Definition example_start : LogStreamer :=
  new_streamer "s1" "a1" 7 example_limits (fun _ => 0) (fun _ => "t").

Definition example_first : LogStreamer := (write example_start stdout "hello world, hello again, and more").2.

Definition example_log : LogStreamer := (write example_first stderr "error").2.

Lemma example_limits_ok : limits_ok example_limits.
Proof. constructor; cbn; lia. Qed.

Lemma example_step1 : log_step example_start example_first.
Proof. unfold example_first. apply step_write. Qed.

Lemma example_step2 : log_step example_first example_log.
Proof. unfold example_log. apply step_write. Qed.

Lemma example_run : log_run "s1" "a1" 7 example_limits (fun _ => 0) (fun _ => "t") example_log.
Proof.
  unfold log_run. fold example_start. apply (rtc_l _ _ _ _ example_step1), rtc_once, example_step2.
Qed.

Lemma log_sequence_consecutive_witness : Log.seq example_log = 7 + Z.of_nat (List.length (Log.emitted example_log)).
Proof.
  exact (proj2 (log_sequence_consecutive _ _ _ _ _ _ _ example_limits_ok example_run)).
Defined.

Lemma log_output_bounded_witness : output_bytes (Log.emitted example_log) <= 200.
Proof.
  exact (proj1 (proj2 (proj2 (log_output_bounded _ _ _ _ _ _ _ example_limits_ok example_run)))).
Defined.

Lemma log_output_accounted_witness :
  wire_pieces example_limits (written example_log stdout "more") = ["more"] /\
  Log.droppedChunks (writeAt example_log stdout "more" "t").2 = Log.droppedChunks example_log + 1.
Proof.
  destruct (log_output_accounted _ _ _ _ _ _ _ stdout "more" "t" example_limits_ok example_run)
    as (_ & _ & fates & H1 & _ & H2 & H3 & H4 & _).
  assert (E : wire_pieces example_limits (written example_log stdout "more") = ["more"]) by (vm_compute; reflexivity).
  split; [exact E|]. rewrite H3. rewrite E in H1. f_equal. clear H3.
  destruct fates as [|f [|g fates]]; try discriminate H1.
  destruct f as [p|p|p|p]; [| |reflexivity|]; exfalso; injection H1 as ->.
  - vm_compute in H2. discriminate H2.
  - vm_compute in H2. discriminate H2.
  - specialize (H4 "more" (or_introl eq_refl)). vm_compute in H4. apply H4. reflexivity.
Defined.

Lemma log_drops_reported_witness :
  reported (Log.emitted example_log) + Log.unsentDropped example_log = Log.droppedChunks example_log.
Proof. exact (proj1 (log_drops_reported _ _ _ _ _ _ _ example_limits_ok example_run)). Defined.

Lemma log_loops_terminate_witness :
  drop_notices (3 + 5) true None example_log = flushDropNotice example_log true.
Proof. exact (proj2 (log_loops_terminate _ _ _ _ _ _ _ true 5%nat example_limits_ok example_run)). Defined.

Lemma log_output_not_stranded_witness : is_some (Log.timer example_log) = true.
Proof.
  exact (proj1 (log_output_not_stranded _ _ _ _ _ _ _ example_limits_ok example_run ltac:(vm_compute; reflexivity))).
Defined.
