(* ===== verification/Access.v ===== *)
(** * Roles, capabilities and the access policy

    modules/shared/src/authz.ts (roles, capabilities, grants),
    services/api/src/auth-policy.ts (the capability each REST route needs, the role
    gate) and services/api/src/local-routes-session-access.ts (what the session
    handlers check).  A regular expression over the path is written as the list of
    its segments: [[^/]+] is a segment that is not empty. *)

From Stdlib Require Import ZArith Lia Ascii String.
From stdpp Require Import base strings list.
From S2P Require Import Prelude Types Cron.

Local Open Scope string_scope.

(** ** authz.ts *)
Inductive UserRole := role_read_only | role_author | role_operator | role_maintainer | role_agent | role_admin.

#[global] Instance UserRole_eq_dec : EqDecision UserRole.
Proof. solve_decision. Defined.

Inductive Capability :=
| sessions_write | sessions_spawn | sessions_cancel_any | sessions_archive | schedules_write
| repositories_operate | fleet_drain | fleet_inventory | fleet_exec_config | providers_accounts
| providers_leases | catalog_write | accounts_write | integrations_write | audit_read | scheduler_run
| agent_protocol.

#[global] Instance Capability_eq_dec : EqDecision Capability.
Proof. solve_decision. Defined.

Definition CAPABILITIES : list Capability :=
  [sessions_write; sessions_spawn; sessions_cancel_any; sessions_archive; schedules_write; repositories_operate;
   fleet_drain; fleet_inventory; fleet_exec_config; providers_accounts; providers_leases; catalog_write;
   accounts_write; integrations_write; audit_read; scheduler_run; agent_protocol].

Definition AUTHOR_CAPABILITIES : list Capability := [sessions_write; sessions_spawn; sessions_archive].

Definition OPERATOR_CAPABILITIES : list Capability :=
  AUTHOR_CAPABILITIES ++
  [sessions_cancel_any; schedules_write; repositories_operate; fleet_drain; providers_leases].

Definition MAINTAINER_CAPABILITIES : list Capability :=
  OPERATOR_CAPABILITIES ++ [fleet_inventory; providers_accounts].

Definition ROLE_CAPABILITIES (role : UserRole) : list Capability :=
  match role with
  | role_read_only => []
  | role_author => AUTHOR_CAPABILITIES
  | role_operator => OPERATOR_CAPABILITIES
  | role_maintainer => MAINTAINER_CAPABILITIES
  | role_agent => [agent_protocol; fleet_drain]
  | role_admin => CAPABILITIES
  end.

Inductive PrincipalKind := kind_admin | kind_user | kind_service_account.

#[global] Instance PrincipalKind_eq_dec : EqDecision PrincipalKind.
Proof. solve_decision. Defined.

Module Principal.
Record Principal := mkPrincipal {
  id : string;
  username : string;
  role : UserRole;
  kind : PrincipalKind;
  allowedRepositoryIds : option (list string);
  boundHostId : option string;
}.
End Principal.
Notation Principal := Principal.Principal.

(** The axes of a grant: [{ role, allowedRepositoryIds?, boundHostId? }]. *)
Module Grant.
Record AccountGrant := mkGrant {
  role : UserRole;
  allowedRepositoryIds : option (list string);
  boundHostId : option string;
}.
End Grant.
Notation AccountGrant := Grant.AccountGrant.

Definition grant_of (p : Principal) : AccountGrant :=
  Grant.mkGrant (Principal.role p) (Principal.allowedRepositoryIds p) (Principal.boundHostId p).

Definition effectiveRole (g : AccountGrant) : UserRole :=
  match truthy_opt (Grant.boundHostId g) with
  | Some _ => match Grant.role g with role_read_only => role_read_only | _ => role_agent end
  | None => Grant.role g
  end.

Definition roleHas (role : UserRole) (capability : Capability) : bool :=
  existsb (fun c => bool_decide (c = capability)) (ROLE_CAPABILITIES role).

Definition principalHas (p : Principal) (capability : Capability) : bool :=
  let role := effectiveRole (grant_of p) in
  match capability with
  | agent_protocol =>
      roleHas role capability && bool_decide (Principal.kind p = kind_service_account) &&
      is_some (truthy_opt (Principal.boundHostId p))
  | _ => roleHas role capability
  end.

Definition principalCapabilities (p : Principal) : list Capability := List.filter (principalHas p) CAPABILITIES.

(** [ids?.length ? ids : undefined]. *)
Definition non_empty (ids : option (list string)) : option (list string) :=
  match ids with Some [] => None | _ => ids end.

Definition normalizeAccountGrant (g : AccountGrant) : AccountGrant :=
  Grant.mkGrant (effectiveRole g) (non_empty (Grant.allowedRepositoryIds g)) (truthy_opt (Grant.boundHostId g)).

Definition accountGrantError (g : AccountGrant) : option string :=
  let scoped := is_some (non_empty (Grant.allowedRepositoryIds g)) in
  let bound := is_some (truthy_opt (Grant.boundHostId g)) in
  if bool_decide (Grant.role g = role_admin) && (scoped || bound)
  then Some "admin accounts cannot be repository- or host-scoped"
  else if bool_decide (Grant.role g = role_agent)
  then (if bound then None else Some "agent accounts require boundHostId")
  else if bound then Some "boundHostId is only valid on agent accounts"
  else None.

(** ** auth-policy.ts *)
Definition SAFE_METHODS : list string := ["GET"; "HEAD"; "OPTIONS"].

Definition matchesRoutePrefix (pathname route : string) : bool :=
  str_eqb pathname route || String.prefix (route ++ "/") pathname.

(** A segment of a route: a literal, one of some literals, or [[^/]+]. *)
Inductive Segment := lit (s : string) | one_of (l : list string) | any_segment.

Definition segment_matches (p : Segment) (s : string) : bool :=
  match p with
  | lit l => str_eqb s l
  | one_of l => existsb (str_eqb s) l
  | any_segment => truthy s
  end.

Fixpoint segments_match (ps : list Segment) (segments : list string) : bool :=
  match ps, segments with
  | [], [] => true
  | p :: ps', s :: segments' => segment_matches p s && segments_match ps' segments'
  | _, _ => false
  end.

(** [^\/api\/v1\/...$]. *)
Definition route (pathname : string) (ps : list Segment) : bool :=
  segments_match (lit "" :: lit "api" :: lit "v1" :: ps) (split_on "/" pathname).

Inductive Required := req (c : Capability) | req_authenticated | req_unknown.

Definition EXEC_CONFIG_CAPABILITY : Capability := fleet_exec_config.

Definition is_write (method : string) : bool := negb (existsb (str_eqb method) SAFE_METHODS).

(** The routes below [/api/v1/sessions/:id/] that a write reaches. *)
Definition session_write_route (pathname : string) : option Capability :=
  let under ps := route pathname (lit "sessions" :: any_segment :: ps) in
  if under [lit "log-parts"] then Some agent_protocol
  else if under [lit "log-archive"] then Some agent_protocol
  else if under [lit "outputs"; one_of ["prepare"; "complete"]] || under [lit "outputs"; lit "upload"; any_segment]
  then Some agent_protocol
  else if under [lit "archive"] then Some sessions_archive
  else if under [lit "children"] then Some sessions_spawn
  else if matchesRoutePrefix pathname "/api/v1/sessions" then Some sessions_write
  else None.

Definition requiredCapability (method pathname : string) : Required :=
  let write := is_write method in
  let on_write c := if write then req c else req_authenticated in
  if str_eqb pathname "/api/v1/integrations/slack" || str_eqb pathname "/api/v1/integrations/slack/oauth/start"
  then req integrations_write
  else if str_eqb pathname "/api/v1/integrations/github-ingress" then req integrations_write
  else if str_eqb pathname "/api/v1/session-log-settings" then on_write integrations_write
  else if route pathname [lit "integrations"; lit "custom"; any_segment] then req integrations_write
  else if matchesRoutePrefix pathname "/api/v1/auth/users" || matchesRoutePrefix pathname "/api/v1/auth/service-accounts"
  then req accounts_write
  else if str_eqb pathname "/api/v1/audit-logs" then req audit_read
  else if str_eqb pathname "/api/v1/host/messages" then req agent_protocol
  else if matchesRoutePrefix pathname "/api/v1/scheduler" then req scheduler_run
  else if str_eqb pathname "/api/v1/hosts/drain" || str_eqb pathname "/api/v1/hosts/resume" then on_write fleet_drain
  else if route pathname [lit "repositories"; any_segment; one_of ["pause"; "drain"; "activate"]]
  then on_write repositories_operate
  else if route pathname [lit "repositories"; any_segment; lit "session-drains"] ||
          route pathname [lit "repositories"; any_segment; lit "session-drains"; any_segment] ||
          route pathname [lit "repositories"; any_segment; lit "session-drains"; any_segment; lit "release"]
  then on_write sessions_write
  else if route pathname [lit "hosts"; any_segment; one_of ["exec-config"; "update-config"]]
  then on_write EXEC_CONFIG_CAPABILITY
  else if route pathname [lit "workspace-pools"; any_segment; lit "exec-config"] then req EXEC_CONFIG_CAPABILITY
  else if str_eqb pathname "/api/v1/host-inventories" || route pathname [lit "hosts"; any_segment; lit "inventory"]
  then on_write fleet_inventory
  else if route pathname [lit "provider-accounts"; any_segment; lit "leases"] ||
          route pathname [lit "provider-accounts"; any_segment; lit "leases"; any_segment; lit "release"]
  then req providers_leases
  else if matchesRoutePrefix pathname "/api/v1/provider-accounts" then on_write providers_accounts
  else if matchesRoutePrefix pathname "/api/v1/workspace-pools" then on_write EXEC_CONFIG_CAPABILITY
  else if matchesRoutePrefix pathname "/api/v1/commands" || matchesRoutePrefix pathname "/api/v1/providers" ||
          matchesRoutePrefix pathname "/api/v1/repositories"
  then on_write catalog_write
  else if matchesRoutePrefix pathname "/api/v1/schedules" then on_write schedules_write
  else if negb write then req_authenticated
  else match session_write_route pathname with
       | Some c => req c
       | None => if String.prefix "/api/v1/" pathname then req_unknown else req_authenticated
       end.

Definition isUnroutedWrite (method pathname : string) : bool :=
  match requiredCapability method pathname with req_unknown => true | _ => false end.

Definition BOUND_KEY_HANDLER_DENIALS : list Capability :=
  [sessions_write; sessions_spawn; sessions_archive; schedules_write].

Definition is_bound (p : Principal) : bool := is_some (truthy_opt (Principal.boundHostId p)).

Definition authorize (p : Principal) (method pathname : string) : bool :=
  match requiredCapability method pathname with
  | req_unknown => false
  | req_authenticated => true
  | req capability =>
      if is_bound p && existsb (fun c => bool_decide (c = capability)) BOUND_KEY_HANDLER_DENIALS then true
      else principalHas p capability
  end.

Definition mayAccessRepository (p : option Principal) (repositoryId : option string) : bool :=
  match p ≫= Principal.allowedRepositoryIds with
  | None => true
  | Some ids =>
      match truthy_opt repositoryId with Some id => existsb (str_eqb id) ids | None => false end
  end.

Definition mayAccessHost (p : option Principal) (hostId : nullable string) : bool :=
  match p ≫= (fun q => truthy_opt (Principal.boundHostId q)) with
  | None => true
  | Some bound => bool_decide (hostId = Val bound)
  end.

Definition may (p : option Principal) (capability : Capability) : bool :=
  match p with Some q => principalHas q capability | None => false end.

(** ** local-routes-session-access.ts *)
Definition canAccessSession (p : option Principal) (repositoryId : option string) : bool :=
  match p with None => true | Some _ => mayAccessRepository p repositoryId end.

Definition canAccessSessionHost (p : option Principal) (hostId : nullable string) : bool := mayAccessHost p hostId.

Definition canAuthorSessions (p : option Principal) : bool :=
  match p with
  | Some q => if is_bound q then false else may p sessions_write
  | None => true
  end.

(** [session.metadata?.createdBy]. *)
Definition created_by (metadata : option (list (string * json))) : option json :=
  m ← metadata; JsMap.get "createdBy" m.

Definition canCancelSession (p : option Principal) (hostId : nullable string)
    (metadata : option (list (string * json))) : bool :=
  if negb (canAccessSessionHost p hostId) then false
  else match p with
       | None => true
       | Some q =>
           if may p sessions_cancel_any then true
           else may p sessions_write &&
                match created_by metadata with Some (JString c) => str_eqb c (Principal.id q) | _ => false end
       end.

(** ** Properties *)

(** A write below [/api/v1/] always needs a capability, and an unknown one is denied. *)
Lemma write_needs_capability method pathname :
  is_write method = true -> String.prefix "/api/v1/" pathname = true ->
  requiredCapability method pathname <> req_authenticated.
Proof.
  intros Hw Hp. unfold requiredCapability. rewrite Hw, Hp. cbn [negb].
  repeat match goal with |- context [if ?b then _ else _] => destruct b; [done|] end.
  by destruct (session_write_route pathname).
Qed.

Lemma roleHas_In role c : roleHas role c = true <-> In c (ROLE_CAPABILITIES role).
Proof.
  unfold roleHas. rewrite existsb_exists. split.
  - intros (d & Hin & E). apply bool_decide_eq_true in E as ->. done.
  - intros Hin. exists c. split; [done|]. by apply bool_decide_eq_true.
Qed.

(** What a credential holds is at most what its effective role holds. *)
Lemma principalHas_role p c : principalHas p c = true -> In c (ROLE_CAPABILITIES (effectiveRole (grant_of p))).
Proof.
  intros H. apply roleHas_In. unfold principalHas in H. by destruct c; try done; apply andb_true_iff in H as [H _];
    apply andb_true_iff in H as [H _].
Qed.

(** The capabilities only administrators hold. *)
Definition admin_only : list Capability :=
  [fleet_exec_config; catalog_write; accounts_write; integrations_write; audit_read; scheduler_run].

Lemma admin_only_role role c : In c admin_only -> In c (ROLE_CAPABILITIES role) -> role = role_admin.
Proof. intros Ha Hr. destruct role; simpl in *; intuition (subst; discriminate || done). Qed.

Lemma is_bound_role p : is_bound p = true ->
  effectiveRole (grant_of p) = role_read_only \/ effectiveRole (grant_of p) = role_agent.
Proof.
  unfold is_bound, effectiveRole. cbn. destruct (truthy_opt _); [|done]. intros _. destruct (Principal.role p); auto.
Qed.

Lemma not_bound_role p : is_bound p = false -> effectiveRole (grant_of p) = Principal.role p.
Proof. unfold is_bound, effectiveRole. cbn. by destruct (truthy_opt _). Qed.

Lemma authorize_req p method pathname c :
  requiredCapability method pathname = req c ->
  authorize p method pathname = true <->
  (is_bound p = true /\ In c BOUND_KEY_HANDLER_DENIALS) \/ principalHas p c = true.
Proof.
  intros E. unfold authorize. rewrite E.
  assert (existsb (fun d => bool_decide (d = c)) BOUND_KEY_HANDLER_DENIALS = true <-> In c BOUND_KEY_HANDLER_DENIALS)
    as Hd.
  { rewrite existsb_exists. split.
    - intros (d & Hin & Ed). apply bool_decide_eq_true in Ed as ->. done.
    - intros Hin. exists c. split; [done|by apply bool_decide_eq_true]. }
  destruct (is_bound p && _) eqn:B.
  - apply andb_true_iff in B as [B1 B2]. apply Hd in B2. naive_solver.
  - split; [by right|]. intros [[B1 B2]|?]; [|done]. apply Hd in B2. by rewrite B1, B2 in B.
Qed.

(** Privileged routes are for administrators: whoever the gate lets through to a
    route that edits what hosts execute, the command catalogue, accounts or
    integrations, reads the audit log or runs the scheduler is an administrator whose
    credential is not bound to a host. *)
Theorem privileged_routes_admin_only p method pathname c :
  requiredCapability method pathname = req c -> In c admin_only -> authorize p method pathname = true ->
  Principal.role p = role_admin /\ is_bound p = false.
Proof.
  intros E Ha H. destruct (proj1 (authorize_req p _ _ c E) H) as [[_ Hd]|Hp2].
  { exfalso. revert Ha Hd. simpl. intuition congruence. }
  apply principalHas_role, (admin_only_role _ _ Ha) in Hp2.
  destruct (is_bound p) eqn:B; [destruct (is_bound_role p B); congruence|].
  by rewrite (not_bound_role p B) in Hp2.
Qed.

(** [C30] A host-bound credential is fenced: of the writes below [/api/v1/] the gate lets
    it through only to draining a host, to the agent protocol when it is a service
    account that is more than read-only, and to the authoring routes whose handlers
    deny it; it never authors or cancels a session, and it sees no other host. *)
Theorem bound_key_fenced p method pathname :
  is_bound p = true ->
  (is_write method = true -> String.prefix "/api/v1/" pathname = true -> authorize p method pathname = true ->
   exists c, requiredCapability method pathname = req c /\
     (In c BOUND_KEY_HANDLER_DENIALS \/
      Principal.role p <> role_read_only /\
      (c = fleet_drain \/ c = agent_protocol /\ Principal.kind p = kind_service_account))) /\
  canAuthorSessions (Some p) = false /\
  (forall hostId metadata, canCancelSession (Some p) hostId metadata = false) /\
  (forall hostId, mayAccessHost (Some p) hostId = true -> Principal.boundHostId p = nul_opt hostId).
Proof.
  intros B. split; [|split; [|split]].
  - intros Hw Hp H. pose proof (write_needs_capability method pathname Hw Hp) as Hn.
    destruct (requiredCapability method pathname) as [c| |] eqn:E; [|done|by unfold authorize in H; rewrite E in H].
    exists c. split; [done|]. destruct (proj1 (authorize_req p _ _ c E) H) as [[_ Hd]|Hp2]; [by left|]. right.
    pose proof (principalHas_role p c Hp2) as Hr.
    destruct (is_bound_role p B) as [R|R]; rewrite R in Hr; [done|].
    split; [intros Eq; unfold effectiveRole in R; cbn in R; rewrite Eq in R; by destruct (truthy_opt _)|].
    destruct Hr as [<-|[<-|[]]]; [right|by left]. split; [done|].
    unfold principalHas in Hp2. rewrite !andb_true_iff, bool_decide_eq_true in Hp2. apply Hp2.
  - unfold canAuthorSessions. by rewrite B.
  - intros hostId metadata. unfold canCancelSession. destruct (negb _); [done|].
    assert (forall c, c = sessions_cancel_any \/ c = sessions_write -> may (Some p) c = false) as Hm.
    { intros c Hc. unfold may. destruct (principalHas p c) eqn:H; [|done]. apply principalHas_role in H.
      exfalso. destruct (is_bound_role p B) as [R|R]; rewrite R in H; simpl in H; naive_solver. }
    by rewrite !Hm by auto.
  - intros hostId. unfold mayAccessHost. cbn. unfold is_bound in B.
    destruct (truthy_opt (Principal.boundHostId p)) as [b|] eqn:E; [|done].
    apply truthy_opt_Some in E as [E _]. intros H. apply bool_decide_eq_true in H as ->. exact E.
Qed.

(** A read-only credential changes nothing: it is refused every write below
    [/api/v1/], except that one bound to a host reaches the authoring routes, whose
    handlers refuse it; it may neither author nor cancel a session. *)
Theorem read_only_never_writes p method pathname :
  Principal.role p = role_read_only -> is_write method = true -> String.prefix "/api/v1/" pathname = true ->
  (authorize p method pathname = true ->
   is_bound p = true /\ exists c, requiredCapability method pathname = req c /\ In c BOUND_KEY_HANDLER_DENIALS) /\
  canAuthorSessions (Some p) = false /\
  forall hostId metadata, canCancelSession (Some p) hostId metadata = false.
Proof.
  intros R Hw Hp.
  assert (effectiveRole (grant_of p) = role_read_only) as Er
    by (unfold effectiveRole; cbn; rewrite R; by destruct (truthy_opt _)).
  assert (forall c, principalHas p c = false) as Hn.
  { intros c. destruct (principalHas p c) eqn:H; [|done]. apply principalHas_role in H. by rewrite Er in H. }
  split; [|split].
  - intros H. pose proof (write_needs_capability method pathname Hw Hp) as Hc.
    destruct (requiredCapability method pathname) as [c| |] eqn:E; [|done|by unfold authorize in H; rewrite E in H].
    destruct (proj1 (authorize_req p _ _ c E) H) as [[B Hd]|Hp2]; [|by rewrite Hn in Hp2].
    split; [done|]. by exists c.
  - unfold canAuthorSessions, may. rewrite Hn. by destruct (is_bound p).
  - intros hostId metadata. unfold canCancelSession, may. rewrite !Hn. by destruct (negb _).
Qed.

(** Each role may do what the roles below it may. *)
Definition role_rank (role : UserRole) : option nat :=
  match role with
  | role_read_only => Some 0%nat | role_author => Some 1%nat | role_operator => Some 2%nat
  | role_maintainer => Some 3%nat | role_admin => Some 4%nat | role_agent => None
  end.

Definition role_le (r1 r2 : UserRole) : Prop :=
  exists n m, role_rank r1 = Some n /\ role_rank r2 = Some m /\ (n <= m)%nat.

Lemma role_le_capabilities r1 r2 c :
  role_le r1 r2 -> In c (ROLE_CAPABILITIES r1) -> In c (ROLE_CAPABILITIES r2).
Proof.
  intros (n & m & E1 & E2 & Hle). destruct r1, r2; simpl in *; simplify_eq; try lia; simpl; intuition.
Qed.

Lemma authorize_monotone p q method pathname :
  is_bound p = false -> is_bound q = false -> role_le (Principal.role p) (Principal.role q) ->
  authorize p method pathname = true -> authorize q method pathname = true.
Proof.
  intros Bp Bq Hle. destruct (requiredCapability method pathname) as [c| |] eqn:E;
    [|unfold authorize; by rewrite E|unfold authorize; by rewrite E].
  rewrite !(authorize_req _ _ _ c E), Bp, Bq. intros [[? _]|H]; [done|]. right.
  pose proof (principalHas_role p c H) as Hr. rewrite (not_bound_role p Bp) in Hr.
  unfold principalHas in *. rewrite (not_bound_role q Bq).
  destruct c; try (apply roleHas_In; by eapply role_le_capabilities).
  unfold is_bound in Bp. by rewrite Bp, andb_false_r in H.
Qed.

(** A grant that may be stored means what it says. *)
Theorem stored_grant_exact g :
  accountGrantError g = None ->
  effectiveRole (normalizeAccountGrant g) = Grant.role g /\ Grant.role (normalizeAccountGrant g) = Grant.role g /\
  normalizeAccountGrant (normalizeAccountGrant g) = normalizeAccountGrant g /\
  accountGrantError (normalizeAccountGrant g) = None /\
  (Grant.role g = role_agent <-> is_some (truthy_opt (Grant.boundHostId g)) = true) /\
  (Grant.role g = role_admin -> non_empty (Grant.allowedRepositoryIds g) = None).
Proof.
  unfold accountGrantError, normalizeAccountGrant, effectiveRole. cbn.
  assert (forall x, non_empty (non_empty x) = non_empty x) as N1 by (by intros [[|]|]).
  assert (forall x, truthy_opt (truthy_opt x) = truthy_opt x) as N2.
  { intros [x|]; cbn; [|done]. by destruct (truthy x) eqn:E; cbn; rewrite ?E. }
  rewrite !N1, !N2.
  destruct (non_empty _) as [ids|], (truthy_opt _) as [b|], (Grant.role g); cbn; try done; by repeat split.
Qed.

(** ** Witnesses *)
Definition daemon_key : Principal :=
  Principal.mkPrincipal "service:1" "daemon" role_agent kind_service_account None (Some "h1").

Definition viewer : Principal := Principal.mkPrincipal "user:v" "v" role_read_only kind_user None None.

Definition root_admin : Principal := Principal.mkPrincipal "admin:root" "root" role_admin kind_admin None None.

Lemma privileged_routes_admin_only_witness :
  authorize root_admin "PUT" "/api/v1/hosts/h1/exec-config" = true /\ Principal.role root_admin = role_admin.
Proof.
  split; [reflexivity|].
  apply (privileged_routes_admin_only root_admin "PUT" "/api/v1/hosts/h1/exec-config" fleet_exec_config);
    [reflexivity|left; reflexivity|reflexivity].
Defined.

Lemma bound_key_fenced_witness :
  authorize daemon_key "POST" "/api/v1/host/messages" = true /\ canAuthorSessions (Some daemon_key) = false /\
  authorize daemon_key "PUT" "/api/v1/hosts/h1/exec-config" = false.
Proof.
  split; [reflexivity|]. split; [|reflexivity].
  apply (bound_key_fenced daemon_key "POST" "/api/v1/sessions"). reflexivity.
Defined.

Lemma read_only_never_writes_witness :
  authorize viewer "GET" "/api/v1/sessions" = true /\
  (authorize viewer "POST" "/api/v1/sessions" = true -> is_bound viewer = true) /\
  canAuthorSessions (Some viewer) = false.
Proof.
  destruct (read_only_never_writes viewer "POST" "/api/v1/sessions" eq_refl eq_refl eq_refl) as (H1 & H2 & _).
  split; [reflexivity|]. split; [intros H; apply (H1 H)|exact H2].
Defined.

(** Paths with too many, too few or empty segments match no pattern. *)
Example routes_example :
  requiredCapability "POST" "/api/v1/hosts/h1/drain" = req_unknown /\
  requiredCapability "POST" "/api/v1/repositories/r1/drain" = req repositories_operate /\
  requiredCapability "POST" "/api/v1/repositories//drain" = req catalog_write /\
  requiredCapability "POST" "/api/v1/sessions/s1/outputs/upload/f" = req agent_protocol /\
  requiredCapability "POST" "/api/v1/sessions/s1/outputs/upload" = req sessions_write /\
  requiredCapability "GET" "/api/v1/provider-accounts/a/leases" = req providers_leases /\
  requiredCapability "POST" "/health" = req_authenticated.
Proof. repeat split; reflexivity. Qed.
