(* ===== verification/Auth.v ===== *)
(** * Authentication and accounts

    services/api/src/auth.ts and auth-accounts.ts: the accounts a worker caches, the
    cookies and one-time viewer tickets it issues and accepts, and the durable
    tables (db/plane-storage-auth.ts, db/plane-storage-viewer-tickets.ts) it shares
    with the other workers.  A call runs on its own from start to end; between calls
    the tables may change in any way.  bcrypt, SHA-256, HMAC and the base64url JSON
    codec are parameters; random bytes are arguments. *)

From Stdlib Require Import ZArith Lia Ascii String.
From stdpp Require Import base strings list.
From S2P Require Import Prelude Types Cron CommandResume Access.

Local Open Scope string_scope.
Local Open Scope Z_scope.

(** ** What is not the program's own code *)
Class Crypto := {
  (** [bcrypt.hash(password, 12)], with the salt it draws. *)
  bcrypt_hash : string -> string -> string;
  bcrypt_compare : string -> string -> bool;
  (** Hex digests. *)
  sha256 : string -> string;
  (** The base64url digest of a message under a secret. *)
  hmac : string -> string -> string;
  (** [b64url(JSON.stringify(value))] and [parseB64urlJson]. *)
  encode_part : json -> string;
  decode_part : string -> option json;
  (** [Buffer.from(text, "base64").toString("utf8")]. *)
  base64_text : string -> string;
}.

(** ** Accounts *)
Module User.
Record User := mkUser {
  principal : Principal;
  passwordHash : string;
}.
End User.
Notation User := User.User.

Module ServiceAccount.
Record ServiceAccount := mkServiceAccount {
  principal : Principal;
  keyHash : string;
  name : string;
  createdAt : string;
}.
End ServiceAccount.
Notation ServiceAccount := ServiceAccount.ServiceAccount.

(** A row of the users table. *)
Module AccountRow.
Record AuthAccountRecord := mkAuthAccount {
  id : string;
  username : string;
  name : option string;
  kind : PrincipalKind;
  role : UserRole;
  passwordHash : option string;
  apiKeyHash : option string;
  allowedRepositoryIds : option (list string);
  boundHostId : option string;
  createdAt : string;
  updatedAt : string;
}.
End AccountRow.
Notation AuthAccountRecord := AccountRow.AuthAccountRecord.

Module Ticket.
Record ViewerTicketRecord := mkViewerTicket {
  ticketHash : string;
  principal : Principal;
  expiresAtMs : Z;
}.
End Ticket.
Notation ViewerTicketRecord := Ticket.ViewerTicketRecord.

(** The durable tables.  [accounts] is the users table; [replica] is what a read of it that is not
    strongly consistent finds (the [Scan] of [listAuthAccounts] and the [Query] of the [username]
    index), which may lag behind it; [readMs] is how long such a read takes. *)
Module Store.
Record AuthStorage := mkStore {
  accounts : list AuthAccountRecord;
  replica : list AuthAccountRecord;
  tickets : JsMap.t ViewerTicketRecord;
  readMs : N;
}.

#[global] Instance eta_AuthStorage : Eta AuthStorage := fun r => mkStore (accounts r) (replica r) (tickets r) (readMs r).
#[global] Instance set_accounts : Setter accounts := ltac:(derive_setter).
#[global] Instance set_tickets : Setter tickets := ltac:(derive_setter).
End Store.
Notation AuthStorage := Store.AuthStorage.

(** [now] is the service's clock and [dateNow] the process's [Date.now()]; [None] is a
    refresh that never happened; [refreshing] is whether a read of the accounts is in flight. *)
Module Service.
Record AuthService := mkAuthService {
  secret : string;
  admins : list User;
  users : JsMap.t User;
  serviceAccounts : JsMap.t ServiceAccount;
  storage : option AuthStorage;
  cacheTtlMs : Z;
  now : Z;
  dateNow : Z;
  lastRefreshAt : option Z;
  lastMissRefreshAt : option Z;
  refreshing : bool;
  memoryTickets : JsMap.t ViewerTicketRecord;
}.

#[global] Instance eta_AuthService : Eta AuthService := fun r => mkAuthService
  (secret r) (admins r) (users r) (serviceAccounts r) (storage r) (cacheTtlMs r) (now r) (dateNow r)
  (lastRefreshAt r) (lastMissRefreshAt r) (refreshing r) (memoryTickets r).
#[global] Instance set_users : Setter users := ltac:(derive_setter).
#[global] Instance set_serviceAccounts : Setter serviceAccounts := ltac:(derive_setter).
#[global] Instance set_storage : Setter storage := ltac:(derive_setter).
#[global] Instance set_now : Setter now := ltac:(derive_setter).
#[global] Instance set_dateNow : Setter dateNow := ltac:(derive_setter).
#[global] Instance set_lastRefreshAt : Setter lastRefreshAt := ltac:(derive_setter).
#[global] Instance set_lastMissRefreshAt : Setter lastMissRefreshAt := ltac:(derive_setter).
#[global] Instance set_refreshing : Setter refreshing := ltac:(derive_setter).
#[global] Instance set_memoryTickets : Setter memoryTickets := ltac:(derive_setter).
End Service.
Notation AuthService := Service.AuthService.

Definition DAY_MS : Z := 24 * 60 * 60 * 1000.
Definition VIEWER_TICKET_MS : Z := 60 * 1000.
Definition MISS_REFRESH_INTERVAL_MS : Z := 1000.

(** ** auth-accounts.ts *)
Definition publicPrincipal (p : Principal) : Principal :=
  Principal.mkPrincipal (Principal.id p) (Principal.username p) (Principal.role p) (Principal.kind p)
    (Principal.allowedRepositoryIds p) (truthy_opt (Principal.boundHostId p)).

Definition toUser (r : AuthAccountRecord) : User :=
  User.mkUser
    (Principal.mkPrincipal (AccountRow.id r) (AccountRow.username r) (AccountRow.role r) kind_user
       (AccountRow.allowedRepositoryIds r) (truthy_opt (AccountRow.boundHostId r)))
    (opt_or (AccountRow.passwordHash r) "").

Definition toServiceAccount (r : AuthAccountRecord) : ServiceAccount :=
  ServiceAccount.mkServiceAccount
    (Principal.mkPrincipal (AccountRow.id r) (AccountRow.username r) (AccountRow.role r) kind_service_account
       (AccountRow.allowedRepositoryIds r) (truthy_opt (AccountRow.boundHostId r)))
    (opt_or (AccountRow.apiKeyHash r) "") (opt_or (AccountRow.name r) (AccountRow.username r)) (AccountRow.createdAt r).

(** [listAuthAccounts]: a [Scan] without [ConsistentRead]. *)
Definition listAuthAccounts (store : AuthStorage) : list AuthAccountRecord := Store.replica store.

(** One row of [listAuthAccounts]. *)
Definition hydrate_row (maps : JsMap.t User * JsMap.t ServiceAccount) (r : AuthAccountRecord)
    : JsMap.t User * JsMap.t ServiceAccount :=
  if bool_decide (AccountRow.kind r = kind_user) && is_some (truthy_opt (AccountRow.passwordHash r))
  then (JsMap.set (AccountRow.username r) (toUser r) maps.1, maps.2)
  else if bool_decide (AccountRow.kind r = kind_service_account) && is_some (truthy_opt (AccountRow.apiKeyHash r))
  then (maps.1, JsMap.set (AccountRow.id r) (toServiceAccount r) maps.2)
  else maps.

(** What happens once the rows are there. *)
Definition hydrateAccounts (a : AuthService) : AuthService :=
  match Service.storage a with
  | None => a
  | Some store =>
      let maps := fold_left hydrate_row (listAuthAccounts store) (JsMap.empty, JsMap.empty) in
      a <| Service.users := maps.1 |> <| Service.serviceAccounts := maps.2 |>
  end.

(** [Some message] is the error thrown. *)
Definition validateCredential (value label : string) : option string :=
  if negb (truthy value) || (256 <? slen value) || hasControlChars value
  then Some (label ++ " is invalid") else None.

Definition toRecord_user (u : User) (at_ : string) : AuthAccountRecord :=
  let p := User.principal u in
  AccountRow.mkAuthAccount (Principal.id p) (Principal.username p) None (Principal.kind p) (Principal.role p)
    (Some (User.passwordHash u)) None (Principal.allowedRepositoryIds p) (truthy_opt (Principal.boundHostId p)) at_ at_.

Definition toRecord_service (s : ServiceAccount) (at_ : string) : AuthAccountRecord :=
  let p := ServiceAccount.principal s in
  AccountRow.mkAuthAccount (Principal.id p) (Principal.username p) (Some (ServiceAccount.name s)) (Principal.kind p)
    (Principal.role p) None (Some (ServiceAccount.keyHash s)) (Principal.allowedRepositoryIds p)
    (truthy_opt (Principal.boundHostId p)) (ServiceAccount.createdAt s) at_.

(** The put is conditional on [attribute_not_exists(id)]; [None] when it throws. *)
Definition putAuthAccount (store : AuthStorage) (r : AuthAccountRecord) : option AuthStorage :=
  if existsb (fun x => str_eqb (AccountRow.id x) (AccountRow.id r)) (Store.accounts store) then None
  else Some (store <| Store.accounts := (Store.accounts store ++ [r])%list |>).

Definition deleteAuthAccount (store : AuthStorage) (id : string) : AuthStorage :=
  store <| Store.accounts := List.filter (fun x => negb (str_eqb (AccountRow.id x) id)) (Store.accounts store) |>.

(** [if (storage) await storage.putAuthAccount(...)]. *)
Definition put_row (a : AuthService) (r : AuthAccountRecord) : option AuthService :=
  match Service.storage a with
  | None => Some a
  | Some store => s ← putAuthAccount store r; Some (a <| Service.storage := Some s |>)
  end.

Definition delete_row (a : AuthService) (id : string) : AuthService :=
  match Service.storage a with
  | None => a
  | Some store => a <| Service.storage := Some (deleteAuthAccount store id) |>
  end.

Section accounts.
Context {C : Crypto}.

(** The account, or the message of the error thrown. *)
Definition createUser (a : AuthService) (username password : string) (role : UserRole)
    (allowedRepositoryIds : option (list string)) (salt at_ : string) : (Principal + string) * AuthService :=
  match validateCredential username "username", validateCredential password "password" with
  | Some e, _ | None, Some e => (inr e, a)
  | None, None =>
      let input := Grant.mkGrant role allowedRepositoryIds None in
      match accountGrantError input with
      | Some e => (inr e, a)
      | None =>
          if JsMap.has username (Service.users a) ||
             existsb (fun u => str_eqb (Principal.username (User.principal u)) username) (Service.admins a)
          then (inr "username already exists", a)
          else
            let user := User.mkUser
              (Principal.mkPrincipal ("user:" ++ username) username (Grant.role (normalizeAccountGrant input)) kind_user
                 (non_empty allowedRepositoryIds) None) (bcrypt_hash password salt) in
            match put_row a (toRecord_user user at_) with
            | None => (inr "conditional request failed", a)
            | Some a => (inl (publicPrincipal (User.principal user)),
                         a <| Service.users := JsMap.set username user (Service.users a) |>)
            end
      end
  end.

(** The account with the API key it is given. *)
Definition createServiceAccount (a : AuthService) (name : string) (role : UserRole)
    (allowedRepositoryIds : option (list string)) (boundHostId : option string) (apiKey id createdAt at_ : string)
    : (Principal + string) * AuthService :=
  if negb (truthy name) then (inr "name is required", a)
  else match validateCredential name "name" with
  | Some e => (inr e, a)
  | None =>
      let input := Grant.mkGrant role allowedRepositoryIds boundHostId in
      match accountGrantError input with
      | Some e => (inr e, a)
      | None =>
          let account := ServiceAccount.mkServiceAccount
            (Principal.mkPrincipal id name (Grant.role (normalizeAccountGrant input)) kind_service_account
               (non_empty allowedRepositoryIds) (truthy_opt boundHostId)) (sha256 apiKey) name createdAt in
          match put_row a (toRecord_service account at_) with
          | None => (inr "conditional request failed", a)
          | Some a => (inl (publicPrincipal (ServiceAccount.principal account)),
                       a <| Service.serviceAccounts := JsMap.set id account (Service.serviceAccounts a) |>)
          end
      end
  end.

Definition deleteUser (a : AuthService) (username : string) : bool * AuthService :=
  match JsMap.get username (Service.users a) with
  | None => (false, a)
  | Some user =>
      let a := delete_row a (Principal.id (User.principal user)) in
      (true, a <| Service.users := JsMap.delete username (Service.users a) |>)
  end.

Definition deleteServiceAccount (a : AuthService) (id : string) : bool * AuthService :=
  match JsMap.get id (Service.serviceAccounts a) with
  | None => (false, a)
  | Some _ =>
      let a := delete_row a id in
      (true, a <| Service.serviceAccounts := JsMap.delete id (Service.serviceAccounts a) |>)
  end.

Inductive FencedAuthAccountDelete := fenced_deleted | fenced_missing | fence_lost.

(** The row goes only while the caller holds its deletion marker. *)
Definition deleteAuthAccountFenced (store : AuthStorage) (id : string) (markerHeld : bool)
    : FencedAuthAccountDelete * AuthStorage :=
  if negb markerHeld then (fence_lost, store)
  else if existsb (fun x => str_eqb (AccountRow.id x) id) (Store.accounts store)
  then (fenced_deleted, deleteAuthAccount store id)
  else (fenced_missing, store).

(** The durable half of a fenced deletion; [fence] is [Some held] when there is a fence. *)
Definition delete_fenced (a : AuthService) (id : string) (fence : option bool)
    : FencedAuthAccountDelete * AuthService :=
  match fence, Service.storage a with
  | Some held, Some store =>
      let '(result, store) := deleteAuthAccountFenced store id held in
      (result, a <| Service.storage := Some store |>)
  | Some _, None => (fence_lost, a)
  | None, _ => (fenced_deleted, delete_row a id)
  end.

Definition deleteUserFenced (a : AuthService) (username : string) (fence : option bool)
    : FencedAuthAccountDelete * AuthService :=
  match JsMap.get username (Service.users a) with
  | None => (fenced_missing, a)
  | Some user =>
      match delete_fenced a (Principal.id (User.principal user)) fence with
      | (fence_lost, a) => (fence_lost, a)
      | (result, a) => (result, a <| Service.users := JsMap.delete username (Service.users a) |>)
      end
  end.

Definition deleteServiceAccountFenced (a : AuthService) (id : string) (fence : option bool)
    : FencedAuthAccountDelete * AuthService :=
  match JsMap.get id (Service.serviceAccounts a) with
  | None => (fenced_missing, a)
  | Some _ =>
      match delete_fenced a id fence with
      | (fence_lost, a) => (fence_lost, a)
      | (result, a) => (result, a <| Service.serviceAccounts := JsMap.delete id (Service.serviceAccounts a) |>)
      end
  end.

Definition listUsers (a : AuthService) : list Principal :=
  map (fun u => publicPrincipal (User.principal u)) (JsMap.values (Service.users a)).

(** ** The cache *)
Inductive RefreshReason := on_hit | on_miss.

(** [now - last < interval], where a refresh that never happened is infinitely long ago. *)
Definition within (now : Z) (last : option Z) (interval : Z) : bool :=
  match last with Some t => now - t <? interval | None => false end.

(** [refreshAccounts] up to its [await], and whether it waits for a read.  A read that is already in
    flight is shared. *)
Definition refresh_start (a : AuthService) (reason : RefreshReason) : bool * AuthService :=
  match Service.storage a with
  | None => (false, a)
  | Some _ =>
      match reason with
      | on_miss =>
          if within (Service.now a) (Service.lastMissRefreshAt a) MISS_REFRESH_INTERVAL_MS then (false, a)
          else (true, a <| Service.lastMissRefreshAt := Some (Service.now a) |> <| Service.refreshing := true |>)
      | on_hit =>
          if within (Service.now a) (Service.lastRefreshAt a) (Service.cacheTtlMs a) then (false, a)
          else (true, a <| Service.refreshing := true |>)
      end
  end.

(** The read has answered: the cache is replaced and the clock, read again, is its stamp. *)
Definition refresh_done (a : AuthService) : AuthService :=
  (hydrateAccounts a) <| Service.lastRefreshAt := Some (Service.now a) |> <| Service.refreshing := false |>.

(** The time until a read answers passes. *)
Definition read_time (a : AuthService) : AuthService :=
  match Service.storage a with
  | None => a
  | Some store => a <| Service.now := Service.now a + Z.of_N (Store.readMs store) |>
                    <| Service.dateNow := Service.dateNow a + Z.of_N (Store.readMs store) |>
  end.

(** The whole call when nothing else runs while it waits; [Revocation] has the calls that are
    interleaved with others at their awaits. *)
Definition refreshAccounts (a : AuthService) (reason : RefreshReason) : AuthService :=
  let '(waits, a) := refresh_start a reason in
  if waits then refresh_done (read_time a) else a.

Definition hydrate (a : AuthService) (storage : option AuthStorage) : AuthService :=
  let a := hydrateAccounts (read_time (a <| Service.storage := storage |>)) in
  a <| Service.lastRefreshAt := Some (Service.now a) |>.

(** ** API keys and passwords *)
Definition matchApiKey (a : AuthService) (hash : string) : option Principal :=
  (fun s => publicPrincipal (ServiceAccount.principal s)) <$>
  List.find (fun s => str_eqb (ServiceAccount.keyHash s) hash) (JsMap.values (Service.serviceAccounts a)).

Definition authenticateApiKey (a : AuthService) (key : string) : option Principal * AuthService :=
  if negb (truthy key) then (None, a)
  else
    let hash := sha256 key in
    let a := refreshAccounts a on_hit in
    match matchApiKey a hash with
    | Some p => (Some p, a)
    | None => let a := refreshAccounts a on_miss in (matchApiKey a hash, a)
    end.

(** A [GetItem] with [ConsistentRead]. *)
Definition getAuthAccount (store : AuthStorage) (id : string) : option AuthAccountRecord :=
  List.find (fun r => str_eqb (AccountRow.id r) id) (Store.accounts store).

(** A [Query] of the [username] index. *)
Definition getAuthAccountByUsername (store : AuthStorage) (username : string) : option AuthAccountRecord :=
  List.find (fun r => str_eqb (AccountRow.username r) username && bool_decide (AccountRow.kind r = kind_user))
    (Store.replica store).

(** The durable read of [authenticatePassword], by id when the user is cached. *)
Definition read_account (store : AuthStorage) (cached : option User) (username : string) : option AuthAccountRecord :=
  match cached with
  | Some u => getAuthAccount store (Principal.id (User.principal u))
  | None => getAuthAccountByUsername store username
  end.

(** The cache once the durable read has answered, and the account it gives. *)
Definition remember_record (a : AuthService) (username : string) (record : option AuthAccountRecord)
    : option User * AuthService :=
  match record with
  | Some r =>
      if bool_decide (AccountRow.kind r = kind_user) && str_eqb (AccountRow.username r) username &&
         is_some (truthy_opt (AccountRow.passwordHash r))
      then (Some (toUser r), a <| Service.users := JsMap.set username (toUser r) (Service.users a) |>)
      else (None, a <| Service.users := JsMap.delete username (Service.users a) |>)
  | None => (None, a <| Service.users := JsMap.delete username (Service.users a) |>)
  end.

(** The account a password is checked against, and the cache after the durable read. *)
Definition password_account (a : AuthService) (username : string) : option User * AuthService :=
  match List.find (fun u => str_eqb (Principal.username (User.principal u)) username) (Service.admins a) with
  | Some admin => (Some admin, a)
  | None =>
      let cached := JsMap.get username (Service.users a) in
      match Service.storage a with
      | None => (cached, a)
      | Some store => remember_record a username (read_account store cached username)
      end
  end.

(** An unknown name is compared with a dummy hash and refused whatever the result. *)
Definition check_password (user : option User) (password : string) : option Principal :=
  match user with
  | Some u => if bcrypt_compare password (User.passwordHash u) then Some (publicPrincipal (User.principal u)) else None
  | None => None
  end.

Definition authenticatePassword (a : AuthService) (username password : string) : option Principal * AuthService :=
  let '(user, a) := password_account a username in (check_password user password, a).

Inductive PasswordChange :=
| pw_changed | pw_invalid_current | pw_invalid_new | pw_unsupported | pw_missing.

(** The update is conditional on the row and its hash. *)
Definition updateAuthAccountPassword (store : AuthStorage) (id expected hash at_ : string) : option AuthStorage :=
  match getAuthAccount store id with
  | Some r =>
      if bool_decide (AccountRow.kind r = kind_user) && bool_decide (AccountRow.passwordHash r = Some expected)
      then Some (store <| Store.accounts := map (fun x =>
             if str_eqb (AccountRow.id x) id
             then AccountRow.mkAuthAccount (AccountRow.id x) (AccountRow.username x) (AccountRow.name x) (AccountRow.kind x)
                    (AccountRow.role x) (Some hash) (AccountRow.apiKeyHash x) (AccountRow.allowedRepositoryIds x)
                    (AccountRow.boundHostId x) (AccountRow.createdAt x) at_
             else x) (Store.accounts store) |>)
      else None
  | None => None
  end.

Definition changePassword (a : AuthService) (p : Principal) (currentPassword newPassword salt at_ : string)
    : PasswordChange * AuthService :=
  if negb (bool_decide (Principal.kind p = kind_user)) then (pw_unsupported, a)
  else match JsMap.get (Principal.username p) (Service.users a) with
  | None => (pw_missing, a)
  | Some user =>
      if negb (str_eqb (Principal.id (User.principal user)) (Principal.id p)) then (pw_missing, a)
      else if negb (bcrypt_compare currentPassword (User.passwordHash user)) then (pw_invalid_current, a)
      else if is_some (validateCredential newPassword "new password") then (pw_invalid_new, a)
      else
        let hash := bcrypt_hash newPassword salt in
        let stored := match Service.storage a with
                      | None => Some None
                      | Some store =>
                          Some <$> updateAuthAccountPassword store (Principal.id (User.principal user))
                                     (User.passwordHash user) hash at_
                      end in
        match stored with
        | None => (pw_missing, a)
        | Some storage =>
            (pw_changed, a <| Service.storage := storage |>
               <| Service.users := JsMap.set (Principal.username p) (User.mkUser (User.principal user) hash)
                                     (Service.users a) |>)
        end
  end.
End accounts.

(** ** Claims *)
Definition isBrowserPrincipal (p : Principal) : bool :=
  bool_decide (Principal.kind p = kind_admin) || bool_decide (Principal.kind p = kind_user).

Definition role_name (r : UserRole) : string :=
  match r with
  | role_read_only => "read-only" | role_author => "author" | role_operator => "operator"
  | role_maintainer => "maintainer" | role_agent => "agent" | role_admin => "admin"
  end.

Definition kind_name (k : PrincipalKind) : string :=
  match k with kind_admin => "admin" | kind_user => "user" | kind_service_account => "service-account" end.

(** [isUserRole]. *)
Definition asRole (value : option json) : option UserRole :=
  match value with
  | Some (JString s) =>
      List.find (fun r => str_eqb (role_name r) s)
        [role_read_only; role_author; role_operator; role_maintainer; role_agent; role_admin]
  | _ => None
  end.

(** A principal as the members of an object. *)
Definition principal_claims (p : Principal) : list (string * json) :=
  ([("id", JString (Principal.id p)); ("username", JString (Principal.username p));
    ("role", JString (role_name (Principal.role p))); ("kind", JString (kind_name (Principal.kind p)))] ++
   match Principal.allowedRepositoryIds p with
   | Some ids => [("allowedRepositoryIds", JArray (map JString ids))] | None => [] end ++
   match Principal.boundHostId p with Some h => [("boundHostId", JString h)] | None => [] end)%list.

(** [claims.key === value]. *)
Definition claim_is (claims : list (string * json)) (key value : string) : bool :=
  match JsMap.get key claims with Some (JString s) => str_eqb s value | _ => false end.

(** [actual.every((value, index) => value === expected[index])] on arrays of one length. *)
Fixpoint same_strings (actual : list json) (expected : list string) : bool :=
  match actual, expected with
  | [], [] => true
  | JString s :: actual', e :: expected' => str_eqb s e && same_strings actual' expected'
  | _, _ => false
  end.

Definition samePrincipalClaims (current : Principal) (claims : list (string * json)) : bool :=
  forallb (fun k => existsb (str_eqb k) ["id"; "username"; "role"; "kind"; "allowedRepositoryIds"; "boundHostId"])
    (JsMap.keys claims) &&
  claim_is claims "id" (Principal.id current) && claim_is claims "username" (Principal.username current) &&
  claim_is claims "role" (role_name (Principal.role current)) &&
  claim_is claims "kind" (kind_name (Principal.kind current)) &&
  match Principal.boundHostId current with
  | Some h => claim_is claims "boundHostId" h
  | None => negb (JsMap.has "boundHostId" claims)
  end &&
  match JsMap.get "allowedRepositoryIds" claims, Principal.allowedRepositoryIds current with
  | None, None => true
  | Some (JArray items), Some ids => same_strings items ids
  | _, _ => false
  end.

Definition findCurrentPrincipal (a : AuthService) (claims : list (string * json)) : option Principal :=
  if claim_is claims "kind" "admin"
  then (fun u => publicPrincipal (User.principal u)) <$>
       List.find (fun u => claim_is claims "id" (Principal.id (User.principal u))) (Service.admins a)
  else if claim_is claims "kind" "user"
  then match JsMap.get "username" claims with
       | Some (JString name) =>
           u ← JsMap.get name (Service.users a);
           if claim_is claims "id" (Principal.id (User.principal u)) then Some (publicPrincipal (User.principal u)) else None
       | _ => None
       end
  else None.

(** The account found, if the claims are exactly its own. *)
Definition bound_principal (current : option Principal) (value : list (string * json)) : option Principal :=
  let claims := JsMap.delete "audience" (JsMap.delete "exp" value) in
  match current with
  | Some p => if isBrowserPrincipal p && samePrincipalClaims p claims then Some p else None
  | None => None
  end.

(** Re-binds a value to the live account. *)
Definition bindCurrentPrincipal (a : AuthService) (value : list (string * json)) : option Principal * AuthService :=
  let a := refreshAccounts a on_hit in
  let '(current, a) :=
    match findCurrentPrincipal a value with
    | Some p => (Some p, a)
    | None => let a := refreshAccounts a on_miss in (findCurrentPrincipal a value, a)
    end in
  (bound_principal current value, a).

(** ** Viewer tickets *)

(** The map that holds the tickets: the durable one when there is a storage. *)
Definition sweepMemoryTickets (a : AuthService) : AuthService :=
  a <| Service.memoryTickets :=
         List.filter (fun e => negb (Ticket.expiresAtMs e.2 <=? Service.now a)) (Service.memoryTickets a) |>.

(** [None] when the hash is already taken. *)
Definition persistViewerTicket (a : AuthService) (r : ViewerTicketRecord) : option AuthService :=
  match Service.storage a with
  | Some store =>
      if JsMap.has (Ticket.ticketHash r) (Store.tickets store) then None
      else Some (a <| Service.storage :=
             Some (store <| Store.tickets := JsMap.set (Ticket.ticketHash r) r (Store.tickets store) |>) |>)
  | None =>
      let a := sweepMemoryTickets a in
      if JsMap.has (Ticket.ticketHash r) (Service.memoryTickets a) then None
      else Some (a <| Service.memoryTickets := JsMap.set (Ticket.ticketHash r) r (Service.memoryTickets a) |>)
  end.

Definition consumeViewerTicket (a : AuthService) (ticketHash : string) : option ViewerTicketRecord * AuthService :=
  let live t := if Ticket.expiresAtMs t <=? Service.now a then None else Some t in
  match Service.storage a with
  | Some store =>
      match JsMap.get ticketHash (Store.tickets store) with
      | None => (None, a)
      | Some t => (live t, a <| Service.storage :=
                     Some (store <| Store.tickets := JsMap.delete ticketHash (Store.tickets store) |>) |>)
      end
  | None =>
      match JsMap.get ticketHash (Service.memoryTickets a) with
      | None => (None, a)
      | Some t => (live t, a <| Service.memoryTickets := JsMap.delete ticketHash (Service.memoryTickets a) |>)
      end
  end.

(** The sweep runs also when the hash is taken. *)
Definition swept (a : AuthService) : AuthService :=
  match Service.storage a with Some _ => a | None => sweepMemoryTickets a end.

Section sessions.
Context {C : Crypto}.

(** Up to three draws, one per attempt; [None] when an error is thrown. *)
Fixpoint issue_attempts (a : AuthService) (p : Principal) (draws : list string) : option string * AuthService :=
  match draws with
  | [] => (None, a)
  | ticket :: rest =>
      match persistViewerTicket a (Ticket.mkViewerTicket (sha256 ticket) p (Service.now a + VIEWER_TICKET_MS)) with
      | Some a => (Some ticket, a)
      | None => issue_attempts (swept a) p rest
      end
  end.

Definition issueViewerTicket (a : AuthService) (p : Principal) (draw1 draw2 draw3 : string)
    : option string * AuthService :=
  if negb (isBrowserPrincipal p) then (None, a)
  else issue_attempts a (publicPrincipal p) [draw1; draw2; draw3].

Definition authenticateViewerTicket (a : AuthService) (token : string) : option Principal * AuthService :=
  if negb (truthy token) then (None, a)
  else
    match consumeViewerTicket a (sha256 token) with
    | (None, a) => (None, a)
    | (Some t, a) => bindCurrentPrincipal a (principal_claims (Ticket.principal t))
    end.

(** ** Session cookies *)
Definition COOKIE : string := "auto_harness_session".

Definition jwt_header : json := JObject [("alg", JString "HS256"); ("typ", JString "JWT")].

Definition jwt_payload (p : Principal) (exp : Z) : json :=
  JObject (principal_claims p ++ [("exp", JNumber exp)])%list.

(** The token of the [Set-Cookie] header; [None] when an error is thrown. *)
Definition issueCookie (a : AuthService) (p : Principal) : option string :=
  if negb (isBrowserPrincipal p) then None
  else
    let unsigned := encode_part jwt_header ++ "." ++
                    encode_part (jwt_payload p ((Service.dateNow a + DAY_MS) / 1000)) in
    Some (unsigned ++ "." ++ hmac (Service.secret a) unsigned).

(** [signature.length !== expected.length || !timingSafeEqual(...)]: the comparison of two
    buffers throws ([None]) unless they have as many bytes. *)
Definition safe_equal (signature expected : string) : option bool :=
  if negb (slen signature =? slen expected) then Some false
  else if negb (utf8_length signature =? utf8_length expected) then None
  else Some (str_eqb signature expected).

(** The members of a session payload that is in date. *)
Definition session_claims (a : AuthService) (header payload : option json) : option (list (string * json)) :=
  match header, payload with
  | Some (JObject h), Some (JObject v) =>
      if claim_is h "alg" "HS256" && claim_is h "typ" "JWT" &&
         is_some (asRole (JsMap.get "role" v)) &&
         match JsMap.get "id" v with Some (JString _) => true | _ => false end &&
         match JsMap.get "username" v with Some (JString _) => true | _ => false end &&
         match JsMap.get "exp" v with
         | Some (JNumber e) => negb (e * 1000 <=? Service.dateNow a) | _ => false
         end &&
         negb (JsMap.has "audience" v) && (claim_is v "kind" "admin" || claim_is v "kind" "user")
      then Some v else None
  | _, _ => None
  end.

(** The checks of [verifySession] before it looks for the account: the outer [None] is an exception,
    the inner one a refusal. *)
Definition session_value (a : AuthService) (token : string) : option (option (list (string * json))) :=
  match split_on "." token with
  | [header; payload; signature] =>
      if negb (truthy (Service.secret a)) || negb (truthy header) || negb (truthy payload) || negb (truthy signature)
      then Some None
      else match safe_equal signature (hmac (Service.secret a) (header ++ "." ++ payload)) with
           | None => None
           | Some false => Some None
           | Some true => Some (session_claims a (decode_part header) (decode_part payload))
           end
  | _ => Some None
  end.

(** [None] when an error is thrown. *)
Definition verifySession (a : AuthService) (token : string) : option (option Principal) * AuthService :=
  match session_value a token with
  | None => (None, a)
  | Some None => (Some None, a)
  | Some (Some v) => let '(p, a) := bindCurrentPrincipal a v in (Some p, a)
  end.

(** ** Requests *)

Definition session_cookie (cookie : option string) : option string :=
  c ← cookie;
  drop_chars (String.length COOKIE + 1) <$>
  List.find (String.prefix (COOKIE ++ "=")) (map trim (split_on ";" c)).

(** [credentials.indexOf(":")] splits the name from the password. *)
Fixpoint split_credentials (s : string) : string * string :=
  match s with
  | "" => ("", "")
  | String c s' =>
      if Ascii.eqb c ":" then ("", s') else let '(u, p) := split_credentials s' in (String c u, p)
  end.

Definition authenticateHeader (a : AuthService) (authorization : option string) : option Principal * AuthService :=
  match truthy_opt authorization with
  | None => (None, a)
  | Some h =>
      if String.prefix "Bearer " h then authenticateApiKey a (drop_chars 7 h)
      else if negb (String.prefix "Basic " h) then (None, a)
      else
        let '(username, password) := split_credentials (base64_text (drop_chars 6 h)) in
        if negb (truthy username) || negb (truthy password) then (None, a)
        else authenticatePassword a username password
  end.

(** [None] when an error is thrown. *)
Definition authenticate (a : AuthService) (cookie authorization : option string)
    : option (option Principal) * AuthService :=
  match session_cookie cookie with
  | Some token =>
      match verifySession a token with
      | (None, a) => (None, a)
      | (Some (Some p), a) => (Some (Some p), a)
      | (Some None, a) => let '(p, a) := authenticateHeader a authorization in (Some p, a)
      end
  | None => let '(p, a) := authenticateHeader a authorization in (Some p, a)
  end.
End sessions.
