(* ===== verification/AuthSecurity.v ===== *)
(** * What the authentication service promises

    A session cookie is worth exactly the live account it names, a viewer ticket is
    worth one use; [Revocation] has how long a revoked credential can still work. *)

From Stdlib Require Import ZArith Lia Ascii String.
From stdpp Require Import base strings list relations.
From S2P Require Import Prelude Types Ordering Cron CommandResume Access Auth.

Local Open Scope string_scope.
Local Open Scope Z_scope.

Implicit Types (a : AuthService) (p : Principal).

(** ** The cache *)

Lemma get_none_not_In {V} k (v : V) m : JsMap.get k m = None -> In (k, v) m -> False.
Proof.
  induction m as [|[j w] m IH]; cbn; [done|]. destruct (str_eqb k j) eqn:E; [done|].
  intros G [[= -> ->]|Hin]; [by rewrite str_eqb_refl in E|by apply IH].
Qed.

(** What a refresh of the cache leaves alone. *)
Record same_service a a' : Prop := {
  ss_secret : Service.secret a' = Service.secret a;
  ss_admins : Service.admins a' = Service.admins a;
  ss_storage : Service.storage a' = Service.storage a;
  ss_ttl : Service.cacheTtlMs a' = Service.cacheTtlMs a;
  ss_tickets : Service.memoryTickets a' = Service.memoryTickets a;
}.

#[global] Instance same_service_preorder : PreOrder same_service.
Proof. split; [by intros a; split|]. intros a b c [] []. split; congruence. Qed.

Lemma hydrate_same a : same_service a (hydrateAccounts a).
Proof. unfold hydrateAccounts. destruct (Service.storage a) eqn:E; split; cbn; done. Qed.

Lemma refresh_start_same a reason : same_service a (refresh_start a reason).2.
Proof. unfold refresh_start. destruct (Service.storage a) eqn:E; [|done]. by destruct reason, (within _ _ _). Qed.

Lemma refresh_done_same a : same_service a (refresh_done a).
Proof. unfold refresh_done. destruct (hydrate_same a) as []. by split. Qed.

Lemma read_time_same a : same_service a (read_time a).
Proof. unfold read_time. by destruct (Service.storage a). Qed.

Lemma refresh_same a reason : same_service a (refreshAccounts a reason).
Proof.
  unfold refreshAccounts. pose proof (refresh_start_same a reason) as H. destruct (refresh_start a reason) as [[] b]; [|done].
  etransitivity; [exact H|]. etransitivity; [apply read_time_same|apply refresh_done_same].
Qed.

Section steps.
Context {C : Crypto}.

(** What a step brings in from outside: tables other workers wrote, or the draws of a ticket. *)
Inductive AuthEvent := ev_call | ev_tables (store : AuthStorage) | ev_issue (draws : list string).

(** One call of the service, the start or the end of a refresh, time passing, or other workers writing
    the tables. *)
Inductive auth_step : AuthEvent -> AuthService -> AuthService -> Prop :=
| auth_clock a now date :
    Service.now a <= now -> auth_step ev_call a (a <| Service.now := now |> <| Service.dateNow := date |>)
| auth_tables a store : auth_step (ev_tables store) a (a <| Service.storage := Some store |>)
| auth_refresh_start a reason : auth_step ev_call a (refresh_start a reason).2
| auth_refresh_done a : auth_step ev_call a (refresh_done a)
| auth_refresh_failed a : auth_step ev_call a (a <| Service.refreshing := false |>)
| auth_create_user a n pw role ids salt at_ : auth_step ev_call a (createUser a n pw role ids salt at_).2
| auth_create_service a n role ids host key id created at_ :
    auth_step ev_call a (createServiceAccount a n role ids host key id created at_).2
| auth_delete_user a n : auth_step ev_call a (deleteUser a n).2
| auth_delete_service a id : auth_step ev_call a (deleteServiceAccount a id).2
| auth_delete_user_fenced a n fence : auth_step ev_call a (deleteUserFenced a n fence).2
| auth_delete_service_fenced a id fence : auth_step ev_call a (deleteServiceAccountFenced a id fence).2
| auth_change_password a p pw pw' salt at_ : auth_step ev_call a (changePassword a p pw pw' salt at_).2
| auth_authenticate a cookie header : auth_step ev_call a (authenticate a cookie header).2
| auth_issue a p d1 d2 d3 : auth_step (ev_issue [d1; d2; d3]) a (issueViewerTicket a p d1 d2 d3).2
| auth_ticket a token : auth_step ev_call a (authenticateViewerTicket a token).2.

Lemma claim_is_delete key claims j v : key <> j -> claim_is (JsMap.delete j claims) key v = claim_is claims key v.
Proof. intros Hn. unfold claim_is. by rewrite JsMap.get_delete_ne. Qed.

Lemma claim_is_get claims key v : claim_is claims key v = true -> JsMap.get key claims = Some (JString v).
Proof. unfold claim_is. destruct (JsMap.get key claims) as [[]|]; try done. intros H. apply str_eqb_true in H. by subst. Qed.

(** ** Viewer tickets *)
Definition tickets_of a : JsMap.t ViewerTicketRecord :=
  match Service.storage a with Some store => Store.tickets store | None => Service.memoryTickets a end.

Definition ticket_held (hash : string) a : Prop := JsMap.has hash (tickets_of a) = true.

(** The event does not bring the ticket back. *)
Definition not_reissued (hash : string) (e : AuthEvent) : Prop :=
  match e with
  | ev_call => True
  | ev_tables store => JsMap.has hash (Store.tickets store) = false
  | ev_issue draws => forall d, In d draws -> sha256 d <> hash
  end.

Definition tickets_same a a' : Prop := tickets_of a' = tickets_of a.

Lemma same_service_tickets a a' : same_service a a' -> tickets_same a a'.
Proof. intros [_ _ E _ T]. unfold tickets_same, tickets_of. by rewrite E, T. Qed.

Lemma bind_tickets a v : tickets_same a (bindCurrentPrincipal a v).2.
Proof.
  apply same_service_tickets. unfold bindCurrentPrincipal. destruct (findCurrentPrincipal _ v); cbn;
    [apply refresh_same|]. etransitivity; [apply refresh_same|]. apply refresh_same.
Qed.

Lemma header_tickets a header : tickets_same a (authenticateHeader a header).2.
Proof.
  unfold authenticateHeader. destruct (truthy_opt header) as [v|]; [|done].
  destruct (String.prefix "Bearer " v).
  - unfold authenticateApiKey. destruct (negb _); [done|]. apply same_service_tickets.
    destruct (matchApiKey _ _); cbn; [apply refresh_same|]. etransitivity; [apply refresh_same|]. apply refresh_same.
  - destruct (negb _); [done|]. destruct (split_credentials _) as [u pw]. destruct (_ || _); [done|].
    unfold authenticatePassword, password_account, remember_record. by repeat case_match; simplify_eq/=.
Qed.

Lemma session_tickets a token : tickets_same a (verifySession a token).2.
Proof.
  unfold verifySession. destruct (session_value a token) as [[v|]|]; [|done|done]. pose proof (bind_tickets a v) as T.
  by destruct (bindCurrentPrincipal a v).
Qed.

Lemma authenticate_tickets a cookie header : tickets_same a (authenticate a cookie header).2.
Proof.
  unfold authenticate. destruct (session_cookie cookie) as [token|].
  - pose proof (session_tickets a token) as T. destruct (verifySession a token) as [[[q|]|] a1]; [done| |done].
    pose proof (header_tickets a1 header) as T1. destruct (authenticateHeader a1 header). unfold tickets_same in *.
    cbn in *. congruence.
  - pose proof (header_tickets a header) as T1. by destruct (authenticateHeader a header).
Qed.

Lemma accounts_tickets a :
  (forall r a1, put_row a r = Some a1 -> tickets_same a a1) /\ (forall id, tickets_same a (delete_row a id)).
Proof.
  unfold tickets_same, tickets_of, put_row, delete_row, putAuthAccount.
  destruct (Service.storage a) as [store|] eqn:E; cbn.
  - split; [|done]. intros r a1. destruct (existsb _ _); cbn; [done|]. by intros [= <-].
  - split; [|by rewrite E]. intros r a1 [= <-]. by rewrite E.
Qed.

Lemma fenced_tickets a id fence : tickets_same a (delete_fenced a id fence).2.
Proof.
  unfold delete_fenced, deleteAuthAccountFenced. destruct fence as [held|]; [|apply (proj2 (accounts_tickets a))].
  unfold tickets_same, tickets_of. destruct (Service.storage a) as [store|] eqn:E; [|by cbn; rewrite E].
  destruct held; cbn; [|done]. by destruct (existsb _ _).
Qed.

Lemma change_tickets a p pw pw' salt at_ : tickets_same a (changePassword a p pw pw' salt at_).2.
Proof.
  unfold changePassword, tickets_same, tickets_of. destruct (negb _); [done|].
  destruct (JsMap.get _ (Service.users a)) as [u|]; [|done].
  destruct (negb _); [done|]. destruct (negb _); [done|]. destruct (is_some _); [done|].
  destruct (Service.storage a) as [store|] eqn:E; cbn; [|done].
  unfold updateAuthAccountPassword. destruct (getAuthAccount _ _); cbn; [|by rewrite E].
  destruct (_ && _); cbn; [done|by rewrite E].
Qed.

Lemma consume_tickets a hash k :
  JsMap.get k (tickets_of (consumeViewerTicket a hash).2) =
  if decide (hash = k) then None else JsMap.get k (tickets_of a).
Proof.
  unfold tickets_of, consumeViewerTicket. destruct (Service.storage a) as [store|] eqn:E.
  - destruct (JsMap.get hash (Store.tickets store)) eqn:G; cbn; [apply JsMap.get_delete|].
    rewrite E. case_decide; [by subst|done].
  - destruct (JsMap.get hash (Service.memoryTickets a)) eqn:G; cbn; rewrite E; [apply JsMap.get_delete|].
    case_decide; [by subst|done].
Qed.

Lemma sweep_held hash a : ticket_held hash (swept a) -> ticket_held hash a.
Proof.
  unfold ticket_held, tickets_of, swept, JsMap.has. destruct (Service.storage a) as [store|] eqn:E; [by rewrite E|].
  cbn. rewrite E. intros H. destruct (JsMap.get hash (List.filter _ _)) as [t|] eqn:G; [|done].
  apply JsMap.get_In, filter_In in G as [G _]. by destruct (JsMap.get hash (Service.memoryTickets a)) eqn:G2;
    [|exfalso; eapply get_none_not_In; eauto].
Qed.

Lemma same_held hash a a' : tickets_same a a' -> ticket_held hash a' -> ticket_held hash a.
Proof. unfold tickets_same, ticket_held. by intros ->. Qed.

Lemma issue_held hash p draws : (forall d, In d draws -> sha256 d <> hash) -> forall a,
  ticket_held hash (issue_attempts a p draws).2 -> ticket_held hash a.
Proof.
  induction draws as [|d draws IH]; intros Hd a; cbn [issue_attempts]; [done|].
  destruct (persistViewerTicket a _) as [a'|] eqn:P.
  - cbn [snd]. unfold persistViewerTicket in P. pose proof (sweep_held hash a) as Hs.
    unfold ticket_held, tickets_of, swept, JsMap.has in *. specialize (Hd d (or_introl eq_refl)).
    destruct (Service.storage a) as [store|] eqn:E; destruct (is_some _); try done; injection P as <-; cbn.
    + by rewrite JsMap.get_set_ne.
    + rewrite E. cbn in Hs. rewrite E in Hs. rewrite JsMap.get_set_ne by done. exact Hs.
  - intros H. apply IH in H; [by apply sweep_held|]. intros x Hx. apply Hd. by right.
Qed.

Lemma step_no_ticket hash e a a' :
  auth_step e a a' -> not_reissued hash e -> ticket_held hash a' -> ticket_held hash a.
Proof.
  intros Hs He. destruct Hs; cbn in He.
  - done.
  - unfold ticket_held, tickets_of. cbn. by rewrite He.
  - apply same_held, same_service_tickets, refresh_start_same.
  - apply same_held, same_service_tickets, refresh_done_same.
  - done.
  - apply same_held. unfold createUser. repeat case_match; try done. cbn [snd].
    by apply (proj1 (accounts_tickets a) _ _ ltac:(eassumption)).
  - apply same_held. unfold createServiceAccount. repeat case_match; try done. cbn [snd].
    by apply (proj1 (accounts_tickets a) _ _ ltac:(eassumption)).
  - apply same_held. unfold deleteUser. case_match; [|done]. cbn [snd]. apply (proj2 (accounts_tickets a)).
  - apply same_held. unfold deleteServiceAccount. case_match; [|done]. cbn [snd]. apply (proj2 (accounts_tickets a)).
  - apply same_held. unfold deleteUserFenced. case_match; [|done].
    match goal with |- context [delete_fenced a ?i fence] => pose proof (fenced_tickets a i fence) as T;
      by destruct (delete_fenced a i fence) as [[] a1] end.
  - apply same_held. unfold deleteServiceAccountFenced. case_match; [|done].
    match goal with |- context [delete_fenced a ?i fence] => pose proof (fenced_tickets a i fence) as T;
      by destruct (delete_fenced a i fence) as [[] a1] end.
  - apply same_held, change_tickets.
  - apply same_held, authenticate_tickets.
  - unfold issueViewerTicket. destruct (negb _); [done|]. by apply issue_held.
  - unfold authenticateViewerTicket. destruct (negb _); [done|].
    pose proof (consume_tickets a (sha256 token) hash) as Hc.
    destruct (consumeViewerTicket a (sha256 token)) as [[t|] a1]; cbn [snd] in *.
    + intros H. apply (same_held hash a1) in H; [|apply bind_tickets]. revert H. unfold ticket_held, JsMap.has.
      rewrite Hc. by case_decide.
    + unfold ticket_held, JsMap.has. rewrite Hc. by case_decide.
Qed.

(** A ticket that is not held opens nothing. *)
Lemma ticket_not_held a token : ~ ticket_held (sha256 token) a -> (authenticateViewerTicket a token).1 = None.
Proof.
  unfold ticket_held, tickets_of, JsMap.has, authenticateViewerTicket, consumeViewerTicket. intros H.
  destruct (negb _); [done|]. destruct (Service.storage a) as [store|]; by destruct (JsMap.get _ _); [destruct H|].
Qed.

Lemma ticket_expired a token r :
  JsMap.get (sha256 token) (tickets_of a) = Some r -> Ticket.expiresAtMs r <= Service.now a ->
  (authenticateViewerTicket a token).1 = None.
Proof.
  unfold tickets_of, authenticateViewerTicket, consumeViewerTicket. intros G Ht. destruct (negb _); [done|].
  apply Z.leb_le in Ht. destruct (Service.storage a) as [store|]; rewrite G; cbn; by rewrite Ht.
Qed.

(** [C29] A viewer ticket works once: when it has been presented, accepted or not, then
    whatever calls, clock changes and writes of other workers follow, it is refused for
    ever, as long as no later ticket is issued under the same hash; and a ticket that is
    past its expiry is refused the first time. *)
Theorem viewer_ticket_once a token a' :
  truthy token = true ->
  rtc (fun b c => exists e, auth_step e b c /\ not_reissued (sha256 token) e) (authenticateViewerTicket a token).2 a' ->
  (authenticateViewerTicket a' token).1 = None /\
  forall r, JsMap.get (sha256 token) (tickets_of a) = Some r -> Ticket.expiresAtMs r <= Service.now a ->
    (authenticateViewerTicket a token).1 = None.
Proof.
  intros Htok Hrun. split; [|intros r; apply ticket_expired]. apply ticket_not_held.
  assert (~ ticket_held (sha256 token) (authenticateViewerTicket a token).2) as H0.
  { unfold authenticateViewerTicket. rewrite Htok. cbn [negb].
    pose proof (consume_tickets a (sha256 token) (sha256 token)) as Hc. rewrite decide_True in Hc by done.
    destruct (consumeViewerTicket a (sha256 token)) as [[t|] a1]; cbn [snd] in *.
    - intros H. apply (same_held _ a1) in H; [|apply bind_tickets]. revert H. unfold ticket_held, JsMap.has. by rewrite Hc.
    - unfold ticket_held, JsMap.has. by rewrite Hc. }
  revert H0. induction Hrun as [b|b c d (e & Hs & He) _ IH]; [done|]. intros H0. apply IH.
  intros Hh. apply H0. by eapply step_no_ticket.
Qed.

(** ** Session cookies *)

(** [p] is an account the service knows now. *)
Definition live_account a p : Prop :=
  exists u, p = publicPrincipal (User.principal u) /\
    (In u (Service.admins a) \/ exists n, JsMap.get n (Service.users a) = Some u).

Lemma find_current_live a value p : findCurrentPrincipal a value = Some p -> live_account a p.
Proof.
  unfold findCurrentPrincipal, live_account. destruct (claim_is value "kind" "admin").
  - destruct (List.find _ _) as [u|] eqn:F; cbn; [|done]. intros [= <-]. apply find_some in F as [Hin _]. eauto.
  - destruct (claim_is value "kind" "user"); [|done]. destruct (JsMap.get "username" value) as [[]|]; try done. cbn.
    destruct (JsMap.get s (Service.users a)) as [u|] eqn:G; cbn; [|done].
    destruct (claim_is _ _ _); [|done]. intros [= <-]. eauto 6.
Qed.

(** The members a payload must have to stand for [p]. *)
Record claims_exact p (v : list (string * json)) : Prop := {
  ce_id : JsMap.get "id" v = Some (JString (Principal.id p));
  ce_username : JsMap.get "username" v = Some (JString (Principal.username p));
  ce_role : JsMap.get "role" v = Some (JString (role_name (Principal.role p)));
  ce_kind : JsMap.get "kind" v = Some (JString (kind_name (Principal.kind p)));
  ce_host : JsMap.get "boundHostId" v = JString <$> Principal.boundHostId p;
  ce_repositories : JsMap.get "allowedRepositoryIds" v = JArray ∘ map JString <$> Principal.allowedRepositoryIds p;
}.

Lemma same_strings_map items ids : same_strings items ids = true -> items = map JString ids.
Proof.
  revert ids. induction items as [|[] items IH]; intros [|e ids]; try done. cbn. rewrite andb_true_iff.
  intros [H1 H2]. apply str_eqb_true in H1 as ->. f_equal. by apply IH.
Qed.

Lemma same_claims_exact p v :
  samePrincipalClaims p (JsMap.delete "audience" (JsMap.delete "exp" v)) = true -> claims_exact p v.
Proof.
  unfold samePrincipalClaims. rewrite !andb_true_iff, !claim_is_delete by done.
  unfold JsMap.has. rewrite !JsMap.get_delete_ne by done.
  intros [[[[[[_ H1] H2] H3] H4] H5] H6].
  split; try (by apply claim_is_get).
  - destruct (Principal.boundHostId p) as [b|]; cbn.
    + rewrite !claim_is_delete in H5 by done. by apply claim_is_get.
    + by destruct (JsMap.get "boundHostId" v).
  - destruct (JsMap.get "allowedRepositoryIds" v) as [[]|], (Principal.allowedRepositoryIds p) as [ids|]; try done.
    cbn. by apply same_strings_map in H6 as ->.
Qed.

Lemma bind_sound a v p a' : bindCurrentPrincipal a v = (Some p, a') ->
  isBrowserPrincipal p = true /\ live_account a' p /\ claims_exact p v.
Proof.
  unfold bindCurrentPrincipal, bound_principal. intros H.
  assert (forall b, findCurrentPrincipal b v = Some p -> b = a' ->
    isBrowserPrincipal p && samePrincipalClaims p (JsMap.delete "audience" (JsMap.delete "exp" v)) = true ->
    isBrowserPrincipal p = true /\ live_account a' p /\ claims_exact p v) as Hgo.
  { intros b F <- B. apply andb_true_iff in B as [B1 B2]. split; [done|]. split; [by eapply find_current_live|].
    by apply same_claims_exact. }
  destruct (findCurrentPrincipal (refreshAccounts a on_hit) v) as [q|] eqn:F1.
  - destruct (_ && _) eqn:B in H; [|done]. injection H as <- <-. by eapply Hgo.
  - destruct (findCurrentPrincipal (refreshAccounts (refreshAccounts a on_hit) on_miss) v) as [q|] eqn:F2; [|done].
    destruct (_ && _) eqn:B in H; [|done]. injection H as <- <-. by eapply Hgo.
Qed.

Lemma split_on_join c s parts :
  split_on c s = parts -> s = String.concat (String c "") parts.
Proof.
  intros <-. induction s as [|d s IH]; [done|]. cbn [split_on].
  destruct (Ascii.eqb c d) eqn:E.
  - apply Ascii.eqb_eq in E as <-. pose proof (split_on_nonempty c s) as Hn.
    destruct (split_on c s) as [|x l]; [done|]. exact (f_equal (String c) IH).
  - pose proof (split_on_nonempty c s) as Hn. destruct (split_on c s) as [|x l]; [done|].
    transitivity (String d (String.concat (String c "") (x :: l))); [by f_equal|]. by destruct l.
Qed.

Lemma safe_equal_true s e : safe_equal s e = Some true -> s = e.
Proof.
  unfold safe_equal. destruct (negb _); [done|]. destruct (negb _); [done|].
  intros [= H]. by apply str_eqb_true.
Qed.

(** [C27] A session cookie is worth the live account it names: whoever gets in with one
    presented three parts, the last of them the signature of the first two under the
    service's secret, with a payload that is not past its expiry and that gives exactly
    the id, name, kind, role, host and repositories of an administrator or user the
    service knows now; a service account never gets in this way. *)
Theorem session_accepted_sound a token p a' :
  verifySession a token = (Some (Some p), a') ->
  exists header payload v e,
    token = header ++ "." ++ payload ++ "." ++ hmac (Service.secret a) (header ++ "." ++ payload) /\
    Service.secret a <> "" /\ decode_part payload = Some (JObject v) /\
    JsMap.get "exp" v = Some (JNumber e) /\ Service.dateNow a < e * 1000 /\
    isBrowserPrincipal p = true /\ live_account a' p /\ claims_exact p v.
Proof.
  unfold verifySession, session_value. destruct (split_on "." token) as [|header [|payload [|sig [|]]]] eqn:Sp; try done.
  destruct (_ || _) eqn:N; [done|]. rewrite !orb_false_iff, !negb_false_iff in N. destruct N as [[[N _] _] _].
  destruct (safe_equal _ _) as [[]|] eqn:Q; [|done|done]. apply safe_equal_true in Q as ->.
  destruct (session_claims a (decode_part header) (decode_part payload)) as [v|] eqn:S; [|done].
  destruct (bindCurrentPrincipal a v) as [q a1] eqn:B. intros [= -> ->].
  destruct (bind_sound a v p a' B) as (B1 & B2 & B3).
  unfold session_claims in S. destruct (decode_part header) as [[]|]; try done.
  destruct (decode_part payload) as [[]|] eqn:D; try done.
  destruct (_ && _) eqn:G in S; [|done]. injection S as <-. rewrite !andb_true_iff in G.
  destruct G as [[[_ He] _] _]. destruct (JsMap.get "exp" entries0) as [[]|] eqn:Ex; try done.
  apply negb_true_iff, Z.leb_gt in He. exists header, payload, entries0, z.
  split; [by apply split_on_join in Sp|]. split; [by apply truthy_true|]. by rewrite D.
Qed.

(** The account [p] stands for is known under its id and name. *)
Definition known a p : Prop :=
  match Principal.kind p with
  | kind_admin => exists u, p = publicPrincipal (User.principal u) /\
      List.find (fun x => str_eqb (Principal.id p) (Principal.id (User.principal x))) (Service.admins a) = Some u
  | kind_user => exists u, p = publicPrincipal (User.principal u) /\
      JsMap.get (Principal.username p) (Service.users a) = Some u
  | kind_service_account => False
  end.

Section own_claims.
Context p (e : Z).
Let v := (principal_claims p ++ [("exp", JNumber e)])%list.

Lemma own_claims_get :
  claims_exact p v /\ JsMap.get "exp" v = Some (JNumber e) /\ JsMap.has "audience" v = false.
Proof.
  unfold v, principal_claims.
  destruct (Principal.allowedRepositoryIds p) as [ids|] eqn:E1, (Principal.boundHostId p) as [b|] eqn:E2;
    (split; [split; rewrite ?E1, ?E2; reflexivity|split; reflexivity]).
Qed.

Lemma own_claims_delete : JsMap.delete "audience" (JsMap.delete "exp" v) = principal_claims p.
Proof.
  unfold v, principal_claims. by destruct (Principal.allowedRepositoryIds p), (Principal.boundHostId p).
Qed.

Lemma own_claims_same : samePrincipalClaims p (principal_claims p) = true.
Proof.
  assert (claims_exact p (principal_claims p)) as [H1 H2 H3 H4 H5 H6].
  { unfold principal_claims.
    destruct (Principal.allowedRepositoryIds p) as [ids|] eqn:E1, (Principal.boundHostId p) as [b|] eqn:E2;
      (split; rewrite ?E1, ?E2; reflexivity). }
  assert (forall ids, same_strings (map JString ids) ids = true) as Hs.
  { induction ids as [|i ids IH]; [done|]. cbn. by rewrite str_eqb_refl. }
  unfold samePrincipalClaims, claim_is, JsMap.has. rewrite H1, H2, H3, H4, H5, H6, !str_eqb_refl, !andb_true_iff.
  repeat split.
  - unfold principal_claims. by destruct (Principal.allowedRepositoryIds p), (Principal.boundHostId p).
  - destruct (Principal.boundHostId p); cbn; [apply str_eqb_refl|done].
  - destruct (Principal.allowedRepositoryIds p); cbn; [apply Hs|done].
Qed.

Lemma own_claims_found a : known a p -> findCurrentPrincipal a v = Some p.
Proof.
  unfold known, findCurrentPrincipal. destruct own_claims_get as [[H1 H2 _ H4 _ _] _].
  unfold claim_is. rewrite H1, H2, H4.
  destruct (Principal.kind p); [| |done]; intros (u & -> & F).
  - cbn [kind_name]. rewrite str_eqb_refl. rewrite F. done.
  - change (str_eqb (kind_name kind_user) "admin") with false.
    change (str_eqb (kind_name kind_user) "user") with true. cbv iota. rewrite F. cbn. by rewrite str_eqb_refl.
Qed.

Lemma own_role : is_some (asRole (JsMap.get "role" v)) = true.
Proof. destruct own_claims_get as [[_ _ -> _ _ _] _]. by destruct (Principal.role p). Qed.
End own_claims.

(** A part of a token: not empty and without a dot. *)
Definition part_ok (s : string) : Prop := s <> "" /\ string_exists (Ascii.eqb ".") s = false.

Lemma split_on_part c x rest : string_exists (Ascii.eqb c) x = false ->
  split_on c (x ++ String c rest) = x :: split_on c rest.
Proof.
  induction x as [|d x IH]; cbn [String.append string_exists split_on];
    [intros _; change ("" ++ String c rest) with (String c rest); cbn [split_on]; by rewrite Ascii.eqb_refl|].
  change (String d x ++ String c rest) with (String d (x ++ String c rest)). cbn [split_on].
  rewrite orb_false_iff. intros [-> Hx]. by rewrite (IH Hx).
Qed.

Lemma split_on_last c x : string_exists (Ascii.eqb c) x = false -> split_on c x = [x].
Proof.
  induction x as [|d x IH]; cbn [string_exists split_on]; [done|]. rewrite orb_false_iff. intros [-> Hx].
  by rewrite (IH Hx).
Qed.

Lemma safe_equal_refl x : safe_equal x x = Some true.
Proof. unfold safe_equal. by rewrite !Z.eqb_refl, str_eqb_refl. Qed.

Lemma app_string_assoc (x y z : string) : (x ++ y) ++ z = x ++ (y ++ z).
Proof. induction x as [|c x IH]; [done|]. exact (f_equal (String c) IH). Qed.

(** [C28] A session cookie works for a day: the cookie issued to a known administrator or
    user gives that account back at any time before its expiry, which is a day ahead
    rounded down to the second, and is refused from then on.  The hypotheses say that the
    codec gives the two parts back, that tokens split at the dots that join them, and that
    the cache is fresh. *)
Theorem session_cookie_roundtrip a p token date :
  let payload := jwt_payload p ((Service.dateNow a + DAY_MS) / 1000) in
  let unsigned := encode_part jwt_header ++ "." ++ encode_part payload in
  issueCookie a p = Some token -> known a p -> Service.secret a <> "" ->
  Service.storage a = None \/ within (Service.now a) (Service.lastRefreshAt a) (Service.cacheTtlMs a) = true ->
  decode_part (encode_part jwt_header) = Some jwt_header -> decode_part (encode_part payload) = Some payload ->
  part_ok (encode_part jwt_header) -> part_ok (encode_part payload) -> part_ok (hmac (Service.secret a) unsigned) ->
  let later := a <| Service.dateNow := date |> in
  (verifySession later token).1 =
    Some (if date <? (Service.dateNow a + DAY_MS) / 1000 * 1000 then Some p else None).
Proof.
  cbv zeta. intros Hi Hk Hs Hc Dh Dp [Nh Oh] [Np Op] [Ns Os].
  set (e := (Service.dateNow a + DAY_MS) / 1000) in *. set (later := a <| Service.dateNow := date |>).
  unfold issueCookie in Hi. destruct (isBrowserPrincipal p) eqn:Bp; [|done]. cbn [negb] in Hi. fold e in Hi.
  set (header := encode_part jwt_header) in *. set (payload := encode_part (jwt_payload p e)) in *.
  injection Hi as <-. unfold verifySession, session_value. change (Service.secret later) with (Service.secret a).
  set (sig := hmac (Service.secret a) (header ++ "." ++ payload)) in *.
  assert ((header ++ "." ++ payload) ++ "." ++ sig = header ++ String "." (payload ++ String "." sig)) as ->
    by exact (app_string_assoc header (String "." payload) (String "." sig)).
  rewrite (split_on_part "." header _ Oh), (split_on_part "." payload _ Op), (split_on_last "." _ Os).
  cbv beta iota.
  assert (forall x, x <> "" -> negb (truthy x) = false) as Ht by (intros x Hx; by apply negb_false_iff, truthy_true).
  rewrite !Ht by done. cbn [orb]. fold sig. rewrite safe_equal_refl, Dh, Dp. unfold session_claims, jwt_header, jwt_payload.
  set (v := (principal_claims p ++ [("exp", JNumber e)])%list).
  destruct (own_claims_get p e) as ([H1 H2 H3 H4 H5 H6] & He & Ha). fold v in H1, H2, H3, H4, H5, H6, He, Ha.
  rewrite H1, H2, He, Ha. pose proof (own_role p e) as Hr. fold v in Hr. rewrite Hr.
  change (claim_is [("alg", JString "HS256"); ("typ", JString "JWT")] "alg" "HS256") with true.
  change (claim_is [("alg", JString "HS256"); ("typ", JString "JWT")] "typ" "JWT") with true.
  assert (claim_is v "kind" "admin" || claim_is v "kind" "user" = true) as Hkind.
  { unfold claim_is. rewrite H4. revert Bp. unfold isBrowserPrincipal. by destruct (Principal.kind p). }
  rewrite Hkind. cbn [andb negb]. change (Service.dateNow later) with date. rewrite !andb_true_r.
  destruct (Z.leb_spec (e * 1000) date) as [Hle|Hlt]; cbn [negb].
  { by rewrite (proj2 (Z.ltb_ge _ _) Hle). }
  rewrite (proj2 (Z.ltb_lt _ _) Hlt).
  assert (refreshAccounts later on_hit = later) as Hl.
  { unfold refreshAccounts, refresh_start. destruct Hc as [Hc|Hc]; [by change (Service.storage later) with (Service.storage a); rewrite Hc|].
    change (within (Service.now later) (Service.lastRefreshAt later) (Service.cacheTtlMs later))
      with (within (Service.now a) (Service.lastRefreshAt a) (Service.cacheTtlMs a)). rewrite Hc.
    by destruct (Service.storage later). }
  unfold bindCurrentPrincipal, bound_principal. rewrite Hl.
  pose proof (own_claims_found p e later Hk) as Hf. fold v in Hf. rewrite Hf. cbn [fst].
  pose proof (own_claims_delete p e) as Hd. fold v in Hd. rewrite Hd, Bp, own_claims_same. done.
Qed.
End steps.

(** ** Witnesses *)
Definition admin_root : User := User.mkUser root_admin "root-password".

Definition user_ann : User :=
  User.mkUser (Principal.mkPrincipal "user:ann" "ann" role_author kind_user (Some ["repo"]) None) "ann-password".

Definition ann_row : AuthAccountRecord :=
  AccountRow.mkAuthAccount "user:ann" "ann" None kind_user role_author (Some "ann-password") None (Some ["repo"]) None
    "2026-01-01T00:00:00.000Z" "2026-01-01T00:00:00.000Z".

Definition key_row : AuthAccountRecord :=
  AccountRow.mkAuthAccount "service:1" "daemon" (Some "daemon") kind_service_account role_agent None (Some "digest:k")
    None (Some "h1") "2026-01-01T00:00:00.000Z" "2026-01-01T00:00:00.000Z".

(** Stand-ins: no secrecy is claimed of them. *)
#[local] Instance toy_crypto : Crypto := {|
  bcrypt_hash password _ := password;
  bcrypt_compare := str_eqb;
  sha256 text := "digest:" ++ text;
  hmac secret message := secret ++ "-" ++ number_string (slen message);
  encode_part j := match j with JObject (("alg", _) :: _) => "header" | _ => "payload" end;
  decode_part text :=
    if str_eqb text "header" then Some jwt_header
    else if str_eqb text "payload" then Some (jwt_payload (publicPrincipal (User.principal user_ann)) 1767312000)
    else None;
  base64_text text := text;
|}.

(** A worker that has cached a user and a daemon key. *)
Definition worker : AuthService :=
  hydrate (Service.mkAuthService "secret" [admin_root] [] [] None 30000 1767225599980 1767225599980 None None false [])
    (Some (Store.mkStore [ann_row; key_row] [ann_row; key_row] [] 20)).

(** A ticket for the user, presented twice. *)
Definition worker_ticket : AuthService := (issueViewerTicket worker (User.principal user_ann) "t1" "t2" "t3").2.

Lemma viewer_ticket_once_witness :
  is_some (authenticateViewerTicket worker_ticket "t1").1 = true /\
  (authenticateViewerTicket (authenticateViewerTicket worker_ticket "t1").2 "t1").1 = None.
Proof.
  split; [reflexivity|].
  apply (viewer_ticket_once worker_ticket "t1"); [reflexivity|apply rtc_refl].
Defined.

(** The cookie of the user. *)
Definition ann_token : string := "header.payload.secret-14".

Lemma session_accepted_sound_witness :
  exists p a', verifySession worker ann_token = (Some (Some p), a') /\ live_account a' p /\ Principal.role p = role_author.
Proof.
  destruct (verifySession worker ann_token) as [[[p|]|] a'] eqn:E; [|exfalso..].
  - exists p, a'. split; [reflexivity|].
    destruct (session_accepted_sound worker ann_token p a' E) as (_ & _ & _ & _ & _ & _ & _ & _ & _ & _ & Hl & _).
    split; [exact Hl|].
    pose proof (f_equal (fun x => match x.1 with Some (Some q) => Some (Principal.role q) | _ => None end) E) as Er.
    vm_compute in Er. by injection Er.
  - pose proof (f_equal (fun x => match x.1 with Some (Some _) => true | _ => false end) E) as E1. vm_compute in E1. done.
  - pose proof (f_equal (fun x => match x.1 with Some (Some _) => true | _ => false end) E) as E1. vm_compute in E1. done.
Defined.

Lemma session_cookie_roundtrip_witness :
  issueCookie worker (publicPrincipal (User.principal user_ann)) = Some ann_token /\
  (verifySession (worker <| Service.dateNow := 1767311999999 |>) ann_token).1 =
    Some (Some (publicPrincipal (User.principal user_ann))) /\
  (verifySession (worker <| Service.dateNow := 1767312000000 |>) ann_token).1 = Some None.
Proof.
  split; [reflexivity|].
  assert (forall date, (verifySession (worker <| Service.dateNow := date |>) ann_token).1 =
    Some (if date <? (Service.dateNow worker + DAY_MS) / 1000 * 1000
          then Some (publicPrincipal (User.principal user_ann)) else None)) as H.
  { intros date. apply (session_cookie_roundtrip worker (publicPrincipal (User.principal user_ann)) ann_token date).
    - reflexivity.
    - exists user_ann. split; reflexivity.
    - discriminate.
    - right. reflexivity.
    - reflexivity.
    - reflexivity.
    - split; [discriminate|reflexivity].
    - split; [discriminate|reflexivity].
    - split; [discriminate|reflexivity]. }
  split; [exact (H 1767311999999)|exact (H 1767312000000)].
Defined.

(** A cookie whose signature has the right number of code units but not of bytes makes the
    comparison throw, so the request fails instead of being unauthenticated. *)
Theorem odd_signature_throws :
  let odd := "secret-1" ++ String "233" "" in
  (verifySession worker ("header.payload." ++ odd)).1 = None /\
  (authenticate worker (Some ("auto_harness_session=header.payload." ++ odd)) None).1 = None.
Proof. split; reflexivity. Qed.
