(* ===== verification/Revocation.v ===== *)
(** * How long a revoked credential still works

    services/api/src/auth.ts: [authenticateApiKey], [verifySession], [authenticateViewerTicket] and
    [authenticatePassword] with their awaits taken apart.  Between the point where a call waits and
    the point where it goes on, any number of segments of other calls may run, time passes, other
    workers write the users table, and reads that are not strongly consistent answer from a replica
    that lags behind.  The only assumption on the storage is a bound on how old an answer may be
    when the service acts on it. *)

From Stdlib Require Import ZArith Lia Ascii String.
From stdpp Require Import base strings list relations.
From S2P Require Import Prelude Types Ordering Cron CommandResume Access Auth AuthSecurity.

Local Open Scope string_scope.
Local Open Scope Z_scope.

Implicit Types (a b : AuthService) (p : Principal).

(** ** What the cache holds *)

(** The row has key hash [h] or is the user named [name]. *)
Definition shows (h name : string) (r : AuthAccountRecord) : Prop :=
  AccountRow.apiKeyHash r = Some h \/ AccountRow.kind r = kind_user /\ AccountRow.username r = name.

Definition gone (h name : string) (rows : list AuthAccountRecord) : Prop := forall r, In r rows -> ~ shows h name r.

(** The cache knows neither. *)
Definition lacks (h name : string) a : Prop :=
  (forall s, In s (JsMap.values (Service.serviceAccounts a)) -> ServiceAccount.keyHash s <> h) /\
  JsMap.get name (Service.users a) = None.

Lemma values_set {V} k (v x : V) m : In x (JsMap.values (JsMap.set k v m)) -> x = v \/ In x (JsMap.values m).
Proof.
  unfold JsMap.values. intros Hin. apply in_map_iff in Hin as ([j w] & <- & Hin).
  apply JsMap.set_entry in Hin as [[_ ->]|Hin]; [by left|]. right. by apply (in_map snd) in Hin.
Qed.

Lemma values_delete {V} k (x : V) m : In x (JsMap.values (JsMap.delete k m)) -> In x (JsMap.values m).
Proof.
  unfold JsMap.values, JsMap.delete. intros Hin. apply in_map_iff in Hin as (e & <- & Hin).
  apply filter_In in Hin as [Hin _]. by apply in_map.
Qed.

Lemma hydrate_row_lacks h name maps r :
  ~ shows h name r ->
  (forall s, In s (JsMap.values maps.2) -> ServiceAccount.keyHash s <> h) -> JsMap.get name maps.1 = None ->
  (forall s, In s (JsMap.values (hydrate_row maps r).2) -> ServiceAccount.keyHash s <> h) /\
  JsMap.get name (hydrate_row maps r).1 = None.
Proof.
  intros Hr Hs Hu. unfold hydrate_row. destruct (bool_decide _ && _) eqn:E1.
  - apply andb_true_iff in E1 as [E1 _]. apply bool_decide_eq_true in E1. cbn. split; [done|].
    rewrite JsMap.get_set_ne; [done|]. intros En. apply Hr. by right.
  - destruct (bool_decide (AccountRow.kind r = kind_service_account) && _) eqn:E2; [|done].
    apply andb_true_iff in E2 as [_ E2]. cbn. split; [|done]. intros s Hin.
    apply values_set in Hin as [-> |Hin]; [|by apply Hs]. cbn.
    destruct (AccountRow.apiKeyHash r) eqn:Ek; [|done]. cbn. intros ->. apply Hr. by left.
Qed.

Lemma hydrate_lacks h name a store :
  Service.storage a = Some store -> gone h name (listAuthAccounts store) -> lacks h name (hydrateAccounts a).
Proof.
  intros E Hg. unfold hydrateAccounts. rewrite E. unfold lacks. cbn. revert Hg.
  generalize (listAuthAccounts store) as rows. intros rows.
  assert (forall maps, gone h name rows ->
    (forall s, In s (JsMap.values maps.2) -> ServiceAccount.keyHash s <> h) -> JsMap.get name maps.1 = None ->
    (forall s, In s (JsMap.values (fold_left hydrate_row rows maps).2) -> ServiceAccount.keyHash s <> h) /\
    JsMap.get name (fold_left hydrate_row rows maps).1 = None) as Hfold.
  { induction rows as [|r rows IH]; intros maps Hg Hs Hu; cbn [fold_left]; [done|].
    destruct (hydrate_row_lacks h name maps r) as [S1 U1]; [apply Hg; by left|done|done|].
    apply IH; [|done|done]. intros x Hx. apply Hg. by right. }
  intros Hg. by apply Hfold.
Qed.

(** ** Segments *)

(** [user.passwordHash = passwordHash], seen through the map. *)
Definition change_hash a (name hash : string) : AuthService :=
  match JsMap.get name (Service.users a) with
  | Some u => a <| Service.users := JsMap.set name (User.mkUser (User.principal u) hash) (Service.users a) |>
  | None => a
  end.

(** What may happen between two awaits of a call: time passes, other workers and the replication
    change the tables (tickets included), or a segment of another call runs.  The label is the row
    on whose account the cache gains an entry: the answer to a durable read, or a row that was put. *)
Inductive segment : option AuthAccountRecord -> relation AuthService :=
| seg_clock a now date :
    Service.now a <= now -> segment None a (a <| Service.now := now |> <| Service.dateNow := date |>)
| seg_tables a store : segment None a (a <| Service.storage := Some store |>)
| seg_refresh_start a reason : segment None a (refresh_start a reason).2
| seg_refresh_done a : segment None a (refresh_done a)
| seg_refresh_failed a : segment None a (a <| Service.refreshing := false |>)
| seg_password_read a n record : segment record a (remember_record a n record).2
| seg_user_created a u at_ :
    Principal.kind (User.principal u) = kind_user ->
    segment (Some (toRecord_user u at_)) a
      (a <| Service.users := JsMap.set (Principal.username (User.principal u)) u (Service.users a) |>)
| seg_service_created a s at_ :
    segment (Some (toRecord_service s at_)) a
      (a <| Service.serviceAccounts := JsMap.set (Principal.id (ServiceAccount.principal s)) s (Service.serviceAccounts a) |>)
| seg_user_deleted a n : segment None a (a <| Service.users := JsMap.delete n (Service.users a) |>)
| seg_service_deleted a id : segment None a (a <| Service.serviceAccounts := JsMap.delete id (Service.serviceAccounts a) |>)
| seg_password_changed a n hash : segment None a (change_hash a n hash)
| seg_memory_tickets a tickets : segment None a (a <| Service.memoryTickets := tickets |>).

(** The users table lacks both, and after instant [T] so does what an eventually consistent read finds. *)
Definition settled (h name : string) (T : Z) a : Prop :=
  exists store, Service.storage a = Some store /\ gone h name (Store.accounts store) /\
    (T < Service.now a -> gone h name (Store.replica store)).

(** A segment after which this holds, and which after [T] acts on no answer that still shows them. *)
Definition quiet (h name : string) (T : Z) : relation AuthService := fun a a' =>
  exists answer, segment answer a a' /\ settled h name T a' /\
    (T < Service.now a' -> forall r, answer = Some r -> ~ shows h name r).

Definition quiet_run (h name : string) (T : Z) : relation AuthService := rtc (quiet h name T).

(** ** Calls with their awaits *)
Section calls.
Context {C : Crypto} (R : relation AuthService).

(** [await this.refreshAccounts(reason)]: the state when it is called and the one in which the
    caller goes on.  A call that waits goes on after a read has answered. *)
Inductive awaited (reason : RefreshReason) : relation AuthService :=
| awaited_nothing a a' :
    (refresh_start a reason).1 = false -> R (refresh_start a reason).2 a' -> awaited reason a a'
| awaited_read a b a' :
    (refresh_start a reason).1 = true -> R (refresh_start a reason).2 b -> R (refresh_done b) a' -> awaited reason a a'.

(** A look into the cache after a refresh, and once more after a miss. *)
Definition looked_up (look : AuthService -> option Principal) a (r : option Principal) a' : Prop :=
  exists b, awaited on_hit a b /\
    match look b with
    | Some q => r = Some q /\ a' = b
    | None => awaited on_miss b a' /\ r = look a'
    end.

Definition api_key_call a (key : string) (r : option Principal) a' : Prop :=
  if truthy key then looked_up (fun b => matchApiKey b (sha256 key)) a r a' else r = None /\ a' = a.

Definition bind_call a (value : list (string * json)) (r : option Principal) a' : Prop :=
  exists q, looked_up (fun b => findCurrentPrincipal b value) a q a' /\ r = bound_principal q value.

(** A cookie that passes the checks before the account is looked for. *)
Definition session_call a (token : string) (r : option Principal) a' : Prop :=
  exists v, session_value a token = Some (Some v) /\ bind_call a v r a'.

(** A ticket that was found and deleted. *)
Definition ticket_call a (token : string) (r : option Principal) a' : Prop :=
  exists b t c, R a b /\ JsMap.get (sha256 token) (tickets_of b) = Some t /\
    R (consumeViewerTicket b (sha256 token)).2 c /\ bind_call c (principal_claims (Ticket.principal t)) r a'.

(** The row is read in some later state and acted on in a still later one. *)
Definition password_call a (name password : string) (r : option Principal) : Prop :=
  match List.find (fun u => str_eqb (Principal.username (User.principal u)) name) (Service.admins a) with
  | Some admin => r = check_password (Some admin) password
  | None =>
      exists b store c, R a b /\ Service.storage b = Some store /\ R b c /\
        r = check_password (remember_record c name (read_account store (JsMap.get name (Service.users a)) name)).1 password
  end.
End calls.

(** ** A cache refreshed late enough *)
Section revocation.
Context {C : Crypto} (h name : string) (T : Z).
Notation settled := (settled h name T).
Notation lacks := (lacks h name).
Notation R := (quiet_run h name T).

(** The stamp of the cache is not in the future, and a cache stamped after [T] lacks both. *)
Definition sound a : Prop :=
  forall t, Service.lastRefreshAt a = Some t -> t <= Service.now a /\ (T < t -> lacks a).

Definition fresh a : Prop := exists t, Service.lastRefreshAt a = Some t /\ T < t.

Lemma fresh_lacks a : sound a -> fresh a -> lacks a.
Proof. intros Hs (t & E & Ht). by apply (Hs t). Qed.

Lemma lacks_eq a a' :
  Service.users a' = Service.users a -> Service.serviceAccounts a' = Service.serviceAccounts a -> lacks a -> lacks a'.
Proof. intros E1 E2 [H1 H2]. split; [by rewrite E2|by rewrite E1]. Qed.

Lemma lacks_set_user a n u : n <> name -> lacks a -> lacks (a <| Service.users := JsMap.set n u (Service.users a) |>).
Proof. intros Hn [H1 H2]. split; [done|]. cbn. by rewrite JsMap.get_set_ne. Qed.

Lemma lacks_delete_user a n : lacks a -> lacks (a <| Service.users := JsMap.delete n (Service.users a) |>).
Proof. intros [H1 H2]. split; [done|]. cbn. rewrite JsMap.get_delete. by case_decide. Qed.

(** A segment that is no refresh: the stamp stays, the clock does not go back, and where the acted-on
    row does not show them the cache still lacks both. *)
Lemma sound_edit a a' :
  Service.lastRefreshAt a' = Service.lastRefreshAt a -> Service.now a <= Service.now a' ->
  (T < Service.now a' -> lacks a -> lacks a') -> sound a -> sound a' /\ (fresh a -> fresh a').
Proof.
  intros E Hn Hl Hs. split; [|intros (t & Et & Ht); exists t; by rewrite E].
  intros t Et. rewrite E in Et. destruct (Hs t Et) as [H1 H2]. split; [lia|]. intros Ht. apply Hl; [lia|auto].
Qed.

Lemma refresh_done_now a : Service.now (refresh_done a) = Service.now a.
Proof. unfold refresh_done, hydrateAccounts. by destruct (Service.storage a). Qed.

Lemma refresh_done_sound a : settled a -> sound a -> sound (refresh_done a) /\ (T < Service.now a -> fresh (refresh_done a)).
Proof.
  intros (store & E & _ & Hg) Hs.
  pose proof (refresh_done_now a) as Hn.
  split; [|intros Ht; by exists (Service.now a)].
  intros t Et. cbn in Et. injection Et as <-. rewrite Hn. split; [done|]. intros Ht.
  apply (lacks_eq (hydrateAccounts a)); [done|done|]. by eapply hydrate_lacks; [|apply Hg].
Qed.

Lemma refresh_start_fields a reason :
  let a' := (refresh_start a reason).2 in
  Service.lastRefreshAt a' = Service.lastRefreshAt a /\ Service.now a' = Service.now a /\
  Service.users a' = Service.users a /\ Service.serviceAccounts a' = Service.serviceAccounts a /\
  Service.storage a' = Service.storage a /\ Service.cacheTtlMs a' = Service.cacheTtlMs a /\ Service.admins a' = Service.admins a.
Proof. unfold refresh_start. destruct (Service.storage a) eqn:E; [|done]. by destruct reason, (within _ _ _). Qed.

Lemma settled_same a a' : Service.storage a' = Service.storage a -> Service.now a' = Service.now a -> settled a -> settled a'.
Proof. intros E1 E2 (store & E & Hg). exists store. by rewrite E1, E2. Qed.

Lemma refresh_done_settled a : settled a -> settled (refresh_done a).
Proof.
  intros H. apply (settled_same a); [|by rewrite refresh_done_now|done].
  apply refresh_done_same.
Qed.

(** What every segment keeps. *)
Lemma segment_sound a a' : quiet h name T a a' -> sound a -> sound a' /\ (fresh a -> fresh a').
Proof.
  intros (answer & Hseg & Hset & Hans) Hs. destruct Hseg.
  - by apply (sound_edit a).
  - by apply (sound_edit a).
  - destruct (refresh_start_fields a reason) as (E1 & E2 & E3 & E4 & _). apply (sound_edit a); [done|lia| |done].
    intros _. by apply lacks_eq.
  - assert (settled a) as Ha.
    { apply (settled_same (refresh_done a)); [|by rewrite refresh_done_now|done].
      destruct (refresh_done_same a) as []. congruence. }
    destruct (refresh_done_sound a Ha Hs) as [H1 H2]. split; [done|]. intros (t & Et & Ht). apply H2.
    destruct (Hs t Et). lia.
  - by apply (sound_edit a).
  - unfold remember_record in *. destruct record as [r|]; [|by apply (sound_edit a); [| |intros _; apply lacks_delete_user|]].
    destruct (bool_decide _ && _ && _) eqn:B; [|by apply (sound_edit a); [| |intros _; apply lacks_delete_user|]].
    rewrite !andb_true_iff, bool_decide_eq_true in B. destruct B as [[Bk Bn] _]. apply str_eqb_true in Bn.
    apply (sound_edit a); [done|done| |done]. intros Ht. apply lacks_set_user. intros En.
    apply (Hans Ht r); [done|]. right. split; [done|congruence].
  - apply (sound_edit a); [done|done| |done]. intros Ht. apply lacks_set_user. intros En.
    apply (Hans Ht _ eq_refl). by right.
  - apply (sound_edit a); [done|done| |done]. intros Ht [H1 H2]. split; [|done]. cbn. intros x Hx.
    apply values_set in Hx as [-> |Hx]; [|by apply H1]. intros Eh. apply (Hans Ht _ eq_refl). left. cbn. by rewrite Eh.
  - apply (sound_edit a); [done|done|intros _; apply lacks_delete_user|done].
  - apply (sound_edit a); [done|done| |done]. intros _ [H1 H2]. split; [|done]. cbn. intros x Hx. apply H1. by eapply values_delete.
  - unfold change_hash in *. destruct (JsMap.get n (Service.users a)) as [u|] eqn:G; [|by apply (sound_edit a)].
    apply (sound_edit a); [done|done| |done]. intros _ Hl. apply lacks_set_user; [|done]. intros ->. destruct Hl. congruence.
  - by apply (sound_edit a).
Qed.

Lemma segment_keeps a a' : quiet h name T a a' ->
  Service.now a <= Service.now a' /\ Service.cacheTtlMs a' = Service.cacheTtlMs a /\ Service.admins a' = Service.admins a.
Proof.
  intros (answer & Hseg & _). destruct Hseg; try (by cbn).
  - destruct (refresh_start_fields a reason) as (_ & -> & _ & _ & _ & -> & ->). done.
  - destruct (refresh_done_same a) as [_ -> _ -> _]. by rewrite refresh_done_now.
  - unfold remember_record. by repeat case_match.
  - unfold change_hash. by case_match.
Qed.

Lemma run_keeps a a' : R a a' -> settled a -> sound a ->
  settled a' /\ sound a' /\ (fresh a -> fresh a') /\ Service.now a <= Service.now a' /\
  Service.cacheTtlMs a' = Service.cacheTtlMs a /\ Service.admins a' = Service.admins a.
Proof.
  induction 1 as [a|a b c Hq _ IH]; intros Hset Hs; [done|].
  destruct (segment_sound a b Hq Hs) as [Hb Hf]. destruct (segment_keeps a b Hq) as (Hn & Et & Ea).
  destruct Hq as (answer & _ & Hset' & _). destruct (IH Hset' Hb) as (H1 & H2 & H3 & H4 & H5 & H6).
  split; [done|]. split; [done|]. split; [auto|]. split; [lia|]. split; congruence.
Qed.

(** A call that waits for a refresh goes on with a cache read after [T], if it started late enough. *)
Lemma awaited_keeps reason a a' : awaited R reason a a' -> settled a -> sound a ->
  settled a' /\ sound a' /\ (fresh a -> fresh a') /\ Service.now a <= Service.now a'.
Proof.
  intros Hw Hset Hs. destruct (refresh_start_fields a reason) as (E1 & E2 & E3 & E4 & E5 & _).
  assert (settled (refresh_start a reason).2) as Hset1 by by apply (settled_same a).
  destruct (sound_edit a (refresh_start a reason).2) as [Hs1 Hf1]; [done|lia|intros _; by apply lacks_eq|done|].
  destruct Hw as [a a' _ Hr|a b a' _ Hb Hr].
  - destruct (run_keeps _ _ Hr Hset1 Hs1) as (H1 & H2 & H3 & H4 & _). rewrite E2 in H4. split; [done|]. split; [done|]. split; [auto|done].
  - destruct (run_keeps _ _ Hb Hset1 Hs1) as (B1 & B2 & B3 & B4 & _). rewrite E2 in B4.
    destruct (refresh_done_sound b B1 B2) as [D1 D2].
    destruct (run_keeps _ _ Hr (refresh_done_settled b B1) D1) as (H1 & H2 & H3 & H4 & _).
    pose proof (refresh_done_now b) as En.
    split; [done|]. split; [done|]. split; [|lia]. intros Hf. apply H3, D2. destruct (B3 (Hf1 Hf)) as (t & Et & Ht).
    destruct (B2 t Et). lia.
Qed.

Lemma awaited_hit a a' :
  awaited R on_hit a a' -> settled a -> sound a -> 0 <= Service.cacheTtlMs a -> T + Service.cacheTtlMs a < Service.now a -> fresh a'.
Proof.
  intros Hw Hset Hs Httl Ht. destruct (awaited_keeps _ _ _ Hw Hset Hs) as (_ & _ & Hf & _).
  destruct (refresh_start_fields a on_hit) as (E1 & E2 & E3 & E4 & E5 & _).
  destruct Hw as [a a' Hno _|a b a' _ Hb Hr].
  - apply Hf. destruct Hset as (store & E & _). unfold refresh_start in Hno. rewrite E in Hno.
    destruct (within _ _ _) eqn:W; [|done]. unfold within in W. destruct (Service.lastRefreshAt a) as [t|] eqn:Et; [|done].
    apply Z.ltb_lt in W. exists t. split; [done|lia].
  - assert (settled (refresh_start a on_hit).2) as Hset1 by by apply (settled_same a).
    destruct (sound_edit a (refresh_start a on_hit).2) as [Hs1 _]; [done|lia|intros _; by apply lacks_eq|done|].
    destruct (run_keeps _ _ Hb Hset1 Hs1) as (B1 & B2 & _ & B4 & _). rewrite E2 in B4.
    destruct (refresh_done_sound b B1 B2) as [D1 D2].
    destruct (run_keeps _ _ Hr (refresh_done_settled b B1) D1) as (_ & _ & H3 & _). apply H3, D2. lia.
Qed.

(** Whatever such a call finds, it finds in a cache that lacks both. *)
Lemma looked_up_lacks look a r a' :
  looked_up R look a r a' -> settled a -> sound a -> 0 <= Service.cacheTtlMs a -> T + Service.cacheTtlMs a < Service.now a ->
  exists b, lacks b /\ r = look b.
Proof.
  intros (b & Hw & Hr) Hset Hs Httl Ht. pose proof (awaited_hit _ _ Hw Hset Hs Httl Ht) as Hf.
  destruct (awaited_keeps _ _ _ Hw Hset Hs) as (B1 & B2 & _ & _).
  destruct (look b) as [q|] eqn:El.
  - destruct Hr as [-> ->]. exists b. split; [by apply fresh_lacks|done].
  - destruct Hr as [Hm ->]. destruct (awaited_keeps _ _ _ Hm B1 B2) as (_ & M2 & M3 & _).
    exists a'. split; [by apply fresh_lacks; [|apply M3]|done].
Qed.

Lemma match_lacks a hash : lacks a -> hash = h -> matchApiKey a hash = None.
Proof.
  intros [Hb _] ->. unfold matchApiKey. destruct (List.find _ _) as [s|] eqn:F; [|done].
  apply find_some in F as [Hin Hs]. apply str_eqb_true in Hs. exfalso. by apply (Hb s Hin).
Qed.

(** A principal whose claims are matched is found under the kind and name they give. *)
Lemma same_claims_user p value :
  samePrincipalClaims p (JsMap.delete "audience" (JsMap.delete "exp" value)) = true ->
  Principal.kind p = kind_user ->
  claim_is value "kind" "user" = true /\ JsMap.get "username" value = Some (JString (Principal.username p)).
Proof.
  unfold samePrincipalClaims. rewrite !andb_true_iff. intros [[[[[[_ _] Hn] _] Hk] _] _] E. rewrite E in Hk.
  rewrite !claim_is_delete in Hk, Hn by done. split; [done|]. by apply claim_is_get.
Qed.

Lemma bound_lacks a value p :
  lacks a -> bound_principal (findCurrentPrincipal a value) value = Some p -> Principal.kind p = kind_user ->
  Principal.username p <> name.
Proof.
  intros [_ Hu] Hb Hk Hn. unfold bound_principal in Hb. destruct (findCurrentPrincipal a value) as [q|] eqn:F; [|done].
  destruct (_ && _) eqn:B; [|done]. injection Hb as ->. apply andb_true_iff in B as [_ B].
  destruct (same_claims_user p value B Hk) as [C1 C2]. rewrite Hn in C2.
  unfold findCurrentPrincipal in F. rewrite C1, C2, Hu in F.
  assert (claim_is value "kind" "admin" = false) as E; [|by rewrite E in F].
  apply claim_is_get in C1. unfold claim_is. by rewrite C1.
Qed.

Lemma bind_refused a value p a' :
  bind_call R a value (Some p) a' -> settled a -> sound a -> 0 <= Service.cacheTtlMs a ->
  T + Service.cacheTtlMs a < Service.now a -> Principal.kind p = kind_user -> Principal.username p <> name.
Proof.
  intros (q & Hl & Eq) Hset Hs Httl Ht.
  destruct (looked_up_lacks _ _ _ _ Hl Hset Hs Httl Ht) as (b & Hb & ->). by eapply bound_lacks.
Qed.

(** Consuming a ticket is no business of the cache. *)
Lemma consume_keeps a hash (a' := (consumeViewerTicket a hash).2) :
  settled a -> sound a -> settled a' /\ sound a' /\ Service.now a' = Service.now a /\ Service.cacheTtlMs a' = Service.cacheTtlMs a.
Proof.
  intros (store & E & Hg & Hr) Hs. subst a'. unfold consumeViewerTicket. rewrite E.
  destruct (JsMap.get hash (Store.tickets store)); cbn [snd]; [|split; [by exists store|done]].
  split; [by eexists|]. split; [|done]. intros t Et. by apply Hs.
Qed.

Lemma remember_refused a record password :
  (forall r, record = Some r -> ~ shows h name r) -> check_password (remember_record a name record).1 password = None.
Proof.
  intros Hr. unfold remember_record. destruct record as [r|]; [|done]. destruct (bool_decide _ && _ && _) eqn:B; [|done].
  rewrite !andb_true_iff, bool_decide_eq_true in B. destruct B as [[Bk Bn] _]. apply str_eqb_true in Bn.
  exfalso. apply (Hr r eq_refl). by right.
Qed.
End revocation.

(** [C26] Revocation is bounded.  Once the row of a service account or of a user is gone from the
    users table, then after the time to live of the cache plus the lag of the storage, whatever
    segments of other calls, clock changes and writes of other workers run before the call and
    at each of its awaits, the key opens nothing, no cookie and no viewer ticket gives the user
    back, and the password is refused (unless an administrator has that name).  The lag bounds how
    old an answer of the storage may be when the service acts on it: the replication of reads that
    are not strongly consistent and the time reads and writes take.  The row stays out of the
    table, the clock does not go back and the cache's stamp is not in the future. *)
Theorem revocation_bounded {C : Crypto} h name lag a0 a (T := Service.now a0 + lag) (R := quiet_run h name T) :
  0 <= lag -> 0 <= Service.cacheTtlMs a -> (forall t, Service.lastRefreshAt a0 = Some t -> t <= Service.now a0) ->
  settled h name T a0 -> R a0 a -> T + Service.cacheTtlMs a < Service.now a ->
  (forall key r a', sha256 key = h -> api_key_call R a key r a' -> r = None) /\
  (forall token p a', session_call R a token (Some p) a' -> Principal.kind p = kind_user -> Principal.username p <> name) /\
  (forall token p a', ticket_call R a token (Some p) a' -> Principal.kind p = kind_user -> Principal.username p <> name) /\
  (forall password r, (forall u, In u (Service.admins a) -> Principal.username (User.principal u) <> name) ->
     password_call R a name password r -> r = None).
Proof.
  intros Hlag Httl Hst Hset0 Hrun Ht.
  assert (sound h name T a0) as Hs0 by (intros t Et; specialize (Hst t Et); unfold T; split; [done|lia]).
  destruct (run_keeps h name T a0 a Hrun Hset0 Hs0) as (Hset & Hs & _). split; [|split; [|split]].
  - intros key r a' Hk Hc. unfold api_key_call in Hc. destruct (truthy key); [|by destruct Hc].
    destruct (looked_up_lacks h name T _ _ _ _ Hc Hset Hs Httl Ht) as (b & Hb & ->). by apply (match_lacks h name).
  - intros token p a' (v & _ & Hb). by eapply bind_refused.
  - intros token p a' (b & t & c & Hb & _ & Hc & Hbind).
    destruct (run_keeps h name T a b Hb Hset Hs) as (B1 & B2 & _ & B4 & B5 & _).
    destruct (consume_keeps h name T b (sha256 token) B1 B2) as (C1 & C2 & C3 & C4).
    destruct (run_keeps h name T _ c Hc C1 C2) as (D1 & D2 & _ & D4 & D5 & _).
    eapply bind_refused; [exact Hbind|done|done|lia|lia].
  - intros password r Hadm Hc. unfold password_call in Hc.
    destruct (List.find _ (Service.admins a)) as [u|] eqn:F.
    { apply find_some in F as [Hin Hn]. apply str_eqb_true in Hn. by apply Hadm in Hin. }
    destruct Hc as (b & store & c & Hb & Es & _ & ->).
    destruct (run_keeps h name T a b Hb Hset Hs) as (B1 & _ & _ & B4 & _). apply (remember_refused h name).
    destruct B1 as (store' & Es' & Hg & Hrep). simplify_eq.
    intros r Hr. unfold read_account in Hr.
    destruct (JsMap.get name (Service.users a)); apply find_some in Hr as [Hr _]; [by apply Hg|].
    apply Hrep; [lia|done].
Qed.

(** ** Calls that run alone *)
Section alone.
Context {C : Crypto} (h name : string) (T : Z).
Notation R := (quiet_run h name T).

(** A call nothing is interleaved with is one of the interleaved ones. *)
Lemma read_time_quiet a : settled h name T a -> T < Service.now a -> R a (read_time a) /\ settled h name T (read_time a) /\ T < Service.now (read_time a).
Proof.
  intros (store & E & Hg & Hr) Ht. unfold read_time. rewrite E.
  set (a' := a <| Service.now := _ |> <| Service.dateNow := _ |>).
  assert (T < Service.now a') as Ht' by (unfold a'; cbn; lia).
  assert (settled h name T a') as Hs by (exists store; split; [exact E|]; split; [done|]; intros _; by apply Hr).
  split; [|done]. apply rtc_once. exists None. split; [apply seg_clock; lia|done].
Qed.

Lemma refresh_alone a reason :
  settled h name T a -> T < Service.now a ->
  awaited R reason a (refreshAccounts a reason) /\ settled h name T (refreshAccounts a reason) /\ T < Service.now (refreshAccounts a reason).
Proof.
  intros Hs Ht. destruct (refresh_start_fields a reason) as (_ & E2 & _ & _ & E5 & _).
  assert (settled h name T (refresh_start a reason).2) as Hs1 by by apply (settled_same h name T a).
  unfold refreshAccounts. destruct (refresh_start a reason) as [[] b] eqn:E; cbn [fst snd] in *.
  - destruct (read_time_quiet b Hs1) as (Hr & Hs2 & Ht2); [lia|].
    split; [|split; [by apply refresh_done_settled|by rewrite refresh_done_now]].
    eapply awaited_read; rewrite ?E; [done|exact Hr|apply rtc_refl].
  - split; [|split; [done|lia]]. apply awaited_nothing; rewrite E; [done|apply rtc_refl].
Qed.

Lemma api_key_alone a key :
  settled h name T a -> T < Service.now a -> api_key_call R a key (authenticateApiKey a key).1 (authenticateApiKey a key).2.
Proof.
  intros Hs Ht. unfold api_key_call, authenticateApiKey. destruct (truthy key); [|done]. cbn [negb].
  destruct (refresh_alone a on_hit Hs Ht) as (Hw & Hs1 & Ht1). exists (refreshAccounts a on_hit). split; [done|].
  destruct (matchApiKey (refreshAccounts a on_hit) (sha256 key)) as [q|]; [done|]. cbn [fst snd].
  split; [by apply refresh_alone|done].
Qed.

Lemma password_alone a password store :
  Service.storage a = Some store -> password_call R a name password (authenticatePassword a name password).1.
Proof.
  intros E. unfold password_call, authenticatePassword, password_account.
  destruct (List.find _ _); [done|]. rewrite E. exists a, store, a. split; [apply rtc_refl|]. split; [done|].
  split; [apply rtc_refl|]. by destruct (remember_record _ _ _).
Qed.
End alone.

(** ** Witness *)
#[local] Existing Instance toy_crypto.

(** Both rows are deleted by another worker; the replica still has them.  A minute later it does not,
    while the worker's cache still does. *)
Definition worker_revoked : AuthService :=
  worker <| Service.storage := Some (Store.mkStore [] [ann_row; key_row] [] 20) |>.

Definition worker_waited : AuthService := worker_revoked <| Service.storage := Some (Store.mkStore [] [] [] 20) |>.

Definition worker_later : AuthService :=
  worker_waited <| Service.now := 1767225660000 |> <| Service.dateNow := 1767225660000 |>.

Lemma revocation_bounded_witness :
  is_some (authenticateApiKey worker_revoked "k").1 = true /\ (authenticateApiKey worker_later "k").1 = None /\
  (authenticatePassword worker_later "ann" "ann-password").1 = None.
Proof.
  assert (settled "digest:k" "ann" 1767225605000 worker_revoked) as Hs0.
  { eexists. split; [reflexivity|]. split; [intros r []|]. intros H. vm_compute in H. discriminate H. }
  assert (forall now date, settled "digest:k" "ann" 1767225605000 (worker_waited <| Service.now := now |> <| Service.dateNow := date |>)) as Hs
    by (intros now date; eexists; split; [reflexivity|]; split; [intros r []|intros _ r []]).
  assert (quiet_run "digest:k" "ann" 1767225605000 worker_revoked worker_later) as Hrun.
  { eapply rtc_l; [|apply rtc_once].
    - exists None. split; [apply (seg_tables worker_revoked (Store.mkStore [] [] [] 20))|].
      split; [exact (Hs 1767225600000 1767225600000)|done].
    - exists None. split; [apply (seg_clock worker_waited 1767225660000 1767225660000); vm_compute; discriminate|].
      split; [exact (Hs 1767225660000 1767225660000)|done]. }
  assert (forall t, Service.lastRefreshAt worker_revoked = Some t -> t <= Service.now worker_revoked) as Hwf.
  { intros t Et. change (Some 1767225600000 = Some t) in Et. change (t <= 1767225600000). injection Et as <-. lia. }
  destruct (revocation_bounded "digest:k" "ann" 5000 worker_revoked worker_later) as (H1 & _ & _ & H4);
    [lia|by vm_compute|exact Hwf|exact Hs0|exact Hrun|by vm_compute|].
  split; [reflexivity|]. split.
  - eapply H1; [reflexivity|]. apply api_key_alone; [exact (Hs 1767225660000 1767225660000)|by vm_compute].
  - eapply H4; [intros u [<-|[]]; discriminate|]. eapply password_alone. reflexivity.
Defined.

(** The time to live alone is no bound: the row is gone and the cache has expired, but the scan
    still sees the row, and its answer counts as fresh for another time to live. *)
Definition worker_stale : AuthService :=
  worker_revoked <| Service.now := Service.now worker + Service.cacheTtlMs worker + 1 |>.

Theorem stale_read_renews_revoked_key :
  (exists t, Service.lastRefreshAt worker_stale = Some t /\ t + Service.cacheTtlMs worker_stale < Service.now worker_stale) /\
  is_some (authenticateApiKey worker_stale "k").1 = true /\
  exists t, Service.lastRefreshAt (authenticateApiKey worker_stale "k").2 = Some t /\ Service.now worker_stale <= t.
Proof.
  split; [eexists; split; [reflexivity|by vm_compute]|]. split; [vm_compute; reflexivity|].
  eexists. split; [vm_compute; reflexivity|by vm_compute].
Qed.
