(* ===== verification/RateLimit.v ===== *)
(** * The request rate limiter

    services/api/src/rate-limit.ts and local-rate-limit.ts: the fixed-window limiter
    of a process, its memory bound, the buckets requests fall into, and what a caller
    over its limit is answered.  The durable limiter and the parsing of the
    environment are left out. *)

From Stdlib Require Import ZArith Lia Ascii String.
From stdpp Require Import base strings list.
From S2P Require Import Prelude Types Cron CommandResume Access Auth.

Local Open Scope string_scope.
Local Open Scope Z_scope.

(** ** Buckets *)
Inductive RateLimitBucket :=
| bucket_login | bucket_read | bucket_mutation | bucket_scheduler | bucket_host | bucket_public_ingress.

Definition bucket_name (b : RateLimitBucket) : string :=
  match b with
  | bucket_login => "login" | bucket_read => "read" | bucket_mutation => "mutation"
  | bucket_scheduler => "scheduler" | bucket_host => "host" | bucket_public_ingress => "publicIngress"
  end.

Inductive FailMode := fail_closed | fail_open.

Module RateConfig.
Record RateLimitConfig := mkRateLimitConfig {
  enabled : bool;
  windowSeconds : Z;
  limits : RateLimitBucket -> Z;
  maxEntries : Z;
  failMode : FailMode;
}.
End RateConfig.
Notation RateLimitConfig := RateConfig.RateLimitConfig.

Definition DEFAULT_RATE_LIMIT_CONFIG : RateLimitConfig :=
  RateConfig.mkRateLimitConfig true 60
    (fun b => match b with
              | bucket_login => 10 | bucket_read => 300 | bucket_mutation => 60 | bucket_scheduler => 60
              | bucket_host => 600 | bucket_public_ingress => 60
              end) 10000 fail_closed.

Definition limitFor (config : RateLimitConfig) (bucket : RateLimitBucket) : Z := RateConfig.limits config bucket.

Definition classifyRateLimitBucket (method pathname : string) (login : bool) : option RateLimitBucket :=
  if login then Some bucket_login
  else if negb (String.prefix "/api/v1/" pathname) then None
  else if String.prefix "/api/v1/scheduler/" pathname then Some bucket_scheduler
  else if String.prefix "/api/v1/hosts" pathname || String.prefix "/api/v1/host-inventories" pathname ||
          String.prefix "/api/v1/host/" pathname
  then Some bucket_host
  else if str_eqb method "GET" || str_eqb method "HEAD" then Some bucket_read
  else Some bucket_mutation.

(** [x-forwarded-for] as one string or several. *)
Inductive Forwarded := forwarded_one (s : string) | forwarded_many (l : list string).

Definition clientSourceKey (forwarded : option Forwarded) (remoteAddress : option string) (trustProxy : bool) : string :=
  let first := match forwarded with
               | Some (forwarded_many l) => head l
               | Some (forwarded_one s) => head (split_on "," s)
               | None => None
               end in
  match (if trustProxy then truthy_opt (trim <$> first) else None) with
  | Some f => "ip:" ++ f
  | None => "ip:" ++ opt_or remoteAddress "unknown"
  end.

(** ** Windows *)
Definition windowStartMs (nowMs windowSeconds : Z) : Z :=
  let size := windowSeconds * 1000 in nowMs / size * size.

(** [Math.max(1, Math.ceil((resetAtMs - nowMs) / 1000))]. *)
Definition retryAfterSeconds (resetAtMs nowMs : Z) : Z := Z.max 1 (- ((nowMs - resetAtMs) / 1000)).

Module Entry.
Record MemoryEntry := mkEntry {
  windowStart : Z;
  count : Z;
  touchedAtMs : Z;
}.
End Entry.
Notation MemoryEntry := Entry.MemoryEntry.

Module Decision.
Record RateLimitDecision := mkDecision {
  allowed : bool;
  limit : Z;
  remaining : Z;
  resetAtMs : Z;
}.
End Decision.
Notation RateLimitDecision := Decision.RateLimitDecision.

(** ** The limiter *)

(** The oldest entries go until the size is at most [maxEntries], which is not negative. *)
Fixpoint evictIfNeeded (maxEntries : Z) (entries : JsMap.t MemoryEntry) : JsMap.t MemoryEntry :=
  match entries with
  | [] => []
  | _ :: rest => if maxEntries <? Z.of_nat (length entries) then evictIfNeeded maxEntries rest else entries
  end.

(** The entry object is shared with the map as long as the map has it. *)
Definition write_entry (entries : JsMap.t MemoryEntry) (key : string) (e : MemoryEntry) : JsMap.t MemoryEntry :=
  if JsMap.has key entries then JsMap.set key e entries else entries.

Definition consume (maxEntries : Z) (entries : JsMap.t MemoryEntry) (key : string) (limit windowSeconds nowMs : Z)
    : RateLimitDecision * JsMap.t MemoryEntry :=
  let start := windowStartMs nowMs windowSeconds in
  let resetAtMs := start + windowSeconds * 1000 in
  let '(entry, entries) :=
    match JsMap.get key entries with
    | Some e =>
        if Entry.windowStart e =? start then (e, entries)
        else let fresh := Entry.mkEntry start 0 nowMs in
             (fresh, evictIfNeeded maxEntries (JsMap.set key fresh (JsMap.delete key entries)))
    | None =>
        let fresh := Entry.mkEntry start 0 nowMs in
        (fresh, evictIfNeeded maxEntries (JsMap.set key fresh (JsMap.delete key entries)))
    end in
  if limit <=? Entry.count entry
  then (Decision.mkDecision false limit 0 resetAtMs,
        write_entry entries key (Entry.mkEntry (Entry.windowStart entry) (Entry.count entry) nowMs))
  else (Decision.mkDecision true limit (Z.max 0 (limit - (Entry.count entry + 1))) resetAtMs,
        write_entry entries key (Entry.mkEntry (Entry.windowStart entry) (Entry.count entry + 1) nowMs)).

(** ** local-rate-limit.ts *)

(** The answer given instead of handling the request. *)
Inductive RateAnswer := too_many_requests (retryAfter : Z) | audit_unavailable.

Definition rate_key (bucket : RateLimitBucket) (actorKey : string) : string :=
  bucket_name bucket ++ String "000"%char actorKey.

(** The key of the caller: its account, or its address. *)
Definition actor_key (p : option Principal) (source : string) : string :=
  match p with Some q => kind_name (Principal.kind q) ++ ":" ++ Principal.id q | None => source end.

(** [None] when the request goes on.  [auditOk] tells whether the audit log takes the denial. *)
Definition enforceRateLimit (config : RateLimitConfig) (entries : JsMap.t MemoryEntry) (nowMs : Z)
    (p : option Principal) (source : string) (bucket : RateLimitBucket) (method : string) (auditDenied auditOk : bool)
    : option RateAnswer * JsMap.t MemoryEntry :=
  if negb (RateConfig.enabled config) then (None, entries)
  else
    let '(decision, entries) :=
      consume (RateConfig.maxEntries config) entries (rate_key bucket (actor_key p source)) (limitFor config bucket)
        (RateConfig.windowSeconds config) nowMs in
    if Decision.allowed decision then (None, entries)
    else
      let retryAfter := retryAfterSeconds (Decision.resetAtMs decision) nowMs in
      if auditDenied && is_write method && negb auditOk then (Some audit_unavailable, entries)
      else (Some (too_many_requests retryAfter), entries).

(** ** The memory bound *)
Lemma evict_length n m : 0 <= n -> Z.of_nat (length (evictIfNeeded n m)) <= n.
Proof.
  intros Hn. induction m as [|e m IH]; cbn [evictIfNeeded]; [cbn; lia|].
  destruct (Z.ltb_spec n (Z.of_nat (length (e :: m)))); [done|lia].
Qed.

Lemma evict_small n m : Z.of_nat (length m) <= n -> evictIfNeeded n m = m.
Proof.
  destruct m as [|e m]; [done|]. cbn [evictIfNeeded]. intros H.
  destruct (Z.ltb_spec n (Z.of_nat (length (e :: m)))); [lia|done].
Qed.

Lemma write_entry_keys m k e : JsMap.keys (write_entry m k e) = JsMap.keys m.
Proof.
  unfold write_entry, JsMap.has. destruct (JsMap.get k m) as [v|] eqn:G; [|done]. cbn [is_some].
  rewrite JsMap.keys_set. rewrite decide_True; [done|].
  apply list_elem_of_In. apply JsMap.get_In in G. by eapply JsMap.In_keys.
Qed.

(** The limiter never holds more entries than it may. *)
Theorem limiter_bounded n m key limit window now :
  0 <= n -> Z.of_nat (length m) <= n -> Z.of_nat (length (consume n m key limit window now).2) <= n.
Proof.
  intros Hn Hm. unfold consume. set (fresh := Entry.mkEntry _ 0 now).
  set (st := match JsMap.get key m with Some _ => _ | None => _ end).
  assert (Z.of_nat (length st.2) <= n) as Hst.
  { unfold st. destruct (JsMap.get key m) as [e|]; [destruct (_ =? _); cbn; [done|]|]; by apply evict_length. }
  destruct st as [e m1]. cbn in Hst.
  assert (forall x, length (write_entry m1 key x) = length m1) as Hw.
  { intros x. pose proof (f_equal length (write_entry_keys m1 key x)) as E. unfold JsMap.keys in E.
    by rewrite !length_map in E. }
  destruct (_ <=? _); cbn; by rewrite Hw.
Qed.

(** The advice given to a denied caller ends in the next window, and not a second later. *)
Theorem retry_after_exact window now :
  0 < window ->
  let reset := windowStartMs now window + window * 1000 in
  windowStartMs now window <= now < reset /\
  reset <= now + 1000 * retryAfterSeconds reset now < reset + 1000.
Proof.
  intros Hw. cbv zeta. unfold windowStartMs, retryAfterSeconds. set (size := window * 1000).
  assert (0 < size) as Hs by lia. pose proof (Z.div_mod now size ltac:(lia)) as Hd.
  pose proof (Z.mod_pos_bound now size Hs) as Hm. set (q := now / size) in *.
  assert (q * size <= now < q * size + size) as H by lia. split; [done|].
  set (d := now - (q * size + size)). pose proof (Z.div_mod d 1000 ltac:(lia)) as Hd2.
  pose proof (Z.mod_pos_bound d 1000 ltac:(lia)) as Hm2. unfold d in *. lia.
Qed.

(** ** Exactness *)
Section exact.
Context (maxEntries window : Z) (limit : string -> Z).

(** The decisions on a sequence of requests, each a caller and a time. *)
Fixpoint decisions (m : JsMap.t MemoryEntry) (requests : list (string * Z)) : list bool :=
  match requests with
  | [] => []
  | (k, t) :: rest =>
      let '(d, m') := consume maxEntries m k (limit k) window t in Decision.allowed d :: decisions m' rest
  end.

(** How many of the requests are of caller [k] and in the window that starts at [w]. *)
Definition in_window (past : list (string * Z)) (k : string) (w : Z) : Z :=
  Z.of_nat (length (List.filter (fun r => str_eqb r.1 k && (windowStartMs r.2 window =? w)) past)).

(** The specification: a request is allowed when fewer than [limit] requests of the same
    caller came before it in the same window. *)
Fixpoint allowed_by_count (past requests : list (string * Z)) : list bool :=
  match requests with
  | [] => []
  | (k, t) :: rest =>
      (in_window past k (windowStartMs t window) <? limit k) :: allowed_by_count (past ++ [(k, t)]) rest
  end.

Lemma in_window_snoc past k w j t :
  in_window (past ++ [(j, t)]) k w =
  in_window past k w + (if str_eqb j k && (windowStartMs t window =? w) then 1 else 0).
Proof.
  unfold in_window. rewrite List.filter_app, length_app. cbn [List.filter fst snd].
  destruct (str_eqb j k && _); cbn [length]; lia.
Qed.

Lemma in_window_0 past k w :
  (forall t, In (k, t) past -> windowStartMs t window <> w) -> in_window past k w = 0.
Proof.
  intros H. unfold in_window.
  assert (List.filter (fun r => str_eqb r.1 k && (windowStartMs r.2 window =? w)) past = []) as ->; [|done].
  induction past as [|[j t] past IH]; [done|]. cbn [List.filter fst snd].
  destruct (str_eqb j k && _) eqn:E.
  - apply andb_true_iff in E as [E1 E2]. apply str_eqb_true in E1 as ->. apply Z.eqb_eq in E2.
    exfalso. apply (H t); [by left|done].
  - apply IH. intros t' Ht'. apply H. by right.
Qed.

(** What the limiter has counted of the [past]. *)
Record tracks (past : list (string * Z)) (m : JsMap.t MemoryEntry) : Prop := {
  tr_wf : JsMap.wf m;
  tr_keys : forall k, In k (JsMap.keys m) -> In k (map fst past);
  tr_none : forall k, JsMap.get k m = None -> forall t, In (k, t) past -> False;
  tr_some : forall k e, JsMap.get k m = Some e ->
    Entry.count e = Z.min (Z.max 0 (limit k)) (in_window past k (Entry.windowStart e)) /\
    (forall t, In (k, t) past -> windowStartMs t window <= Entry.windowStart e) /\
    exists t, In (k, t) past /\ Entry.windowStart e = windowStartMs t window;
}.

(** No entry is evicted while the callers fit. *)
Definition callers_fit (past : list (string * Z)) (k : string) : Prop :=
  exists names, Z.of_nat (length names) <= maxEntries /\ In k names /\ forall j, In j (map fst past) -> In j names.

Lemma set_fits past m k e : callers_fit past k -> tracks past m ->
  evictIfNeeded maxEntries (JsMap.set k e (JsMap.delete k m)) = JsMap.set k e (JsMap.delete k m).
Proof.
  intros (names & Hlen & Hk & Hin) [Wf Keys _ _]. apply evict_small.
  assert (length (JsMap.set k e (JsMap.delete k m)) <= length names)%nat; [|lia].
  transitivity (length (JsMap.keys (JsMap.set k e (JsMap.delete k m)))); [unfold JsMap.keys; by rewrite length_map|].
  apply List.NoDup_incl_length; [apply NoDup_ListNoDup, JsMap.wf_set, JsMap.wf_delete, Wf|].
  intros j Hj. rewrite JsMap.keys_set in Hj.
  assert (forall i, In i (JsMap.keys (JsMap.delete k m)) -> In i names) as Hd.
  { intros i Hi. apply Hin, Keys. unfold JsMap.keys, JsMap.delete in *. apply in_map_iff in Hi as (x & <- & Hx).
    apply filter_In in Hx as [Hx _]. by apply in_map. }
  case_decide; [by apply Hd|]. apply in_app_iff in Hj as [Hj|[<-|[]]]; [by apply Hd|done].
Qed.

(** The entry a request of [k] at [t] is decided on. *)
Lemma consume_decides past m k t :
  0 < window -> callers_fit past k -> tracks past m -> (forall r, In r past -> r.2 <= t) ->
  let w := windowStartMs t window in
  let c := Z.min (Z.max 0 (limit k)) (in_window past k w) in
  exists m1, JsMap.wf m1 /\ (forall j, j <> k -> JsMap.get j m1 = JsMap.get j m) /\
    (forall j, In j (JsMap.keys m1) -> j = k \/ In j (JsMap.keys m)) /\
    consume maxEntries m k (limit k) window t =
      (Decision.mkDecision (negb (limit k <=? c)) (limit k)
         (if limit k <=? c then 0 else Z.max 0 (limit k - (c + 1))) (w + window * 1000), m1) /\
    exists e, JsMap.get k m1 = Some e /\ Entry.windowStart e = w /\
      Entry.count e = if limit k <=? c then c else c + 1.
Proof.
  intros Hw Hfit Htr Hpast. cbv zeta. set (w := windowStartMs t window).
  set (c := Z.min (Z.max 0 (limit k)) (in_window past k w)).
  assert (forall t', In (k, t') past -> windowStartMs t' window <= w) as Hle.
  { intros t' Ht'. specialize (Hpast _ Ht'). cbn in Hpast. unfold w, windowStartMs.
    apply Z.mul_le_mono_nonneg_r; [lia|]. apply Z.div_le_mono; lia. }
  assert (forall m1 e, JsMap.wf m1 -> (forall j, j <> k -> JsMap.get j m1 = JsMap.get j m) ->
    (forall j, In j (JsMap.keys m1) -> j = k \/ In j (JsMap.keys m)) ->
    JsMap.get k m1 = Some e -> Entry.windowStart e = w -> Entry.count e = c ->
    consume maxEntries m k (limit k) window t =
      (if limit k <=? Entry.count e
       then (Decision.mkDecision false (limit k) 0 (w + window * 1000),
             write_entry m1 k (Entry.mkEntry (Entry.windowStart e) (Entry.count e) t))
       else (Decision.mkDecision true (limit k) (Z.max 0 (limit k - (Entry.count e + 1))) (w + window * 1000),
             write_entry m1 k (Entry.mkEntry (Entry.windowStart e) (Entry.count e + 1) t))) ->
    exists m2, JsMap.wf m2 /\ (forall j, j <> k -> JsMap.get j m2 = JsMap.get j m) /\
      (forall j, In j (JsMap.keys m2) -> j = k \/ In j (JsMap.keys m)) /\
      consume maxEntries m k (limit k) window t =
        (Decision.mkDecision (negb (limit k <=? c)) (limit k)
           (if limit k <=? c then 0 else Z.max 0 (limit k - (c + 1))) (w + window * 1000), m2) /\
      exists e', JsMap.get k m2 = Some e' /\ Entry.windowStart e' = w /\
        Entry.count e' = if limit k <=? c then c else c + 1) as Hgo.
  { intros m1 e Wf1 Ho Hk G Ew Ec ->. rewrite Ec.
    assert (forall x, JsMap.wf (write_entry m1 k x) /\ (forall j, j <> k -> JsMap.get j (write_entry m1 k x) = JsMap.get j m) /\
      (forall j, In j (JsMap.keys (write_entry m1 k x)) -> j = k \/ In j (JsMap.keys m)) /\
      JsMap.get k (write_entry m1 k x) = Some x) as Hx.
    { intros x. rewrite write_entry_keys. unfold write_entry, JsMap.has. rewrite G. cbn [is_some].
      split; [by apply JsMap.wf_set|]. split; [|split; [done|apply JsMap.get_set_eq]].
      intros j Hj. rewrite JsMap.get_set_ne by done. by apply Ho. }
    destruct (limit k <=? c); [destruct (Hx (Entry.mkEntry (Entry.windowStart e) c t)) as (X1 & X2 & X3 & X4)|
      destruct (Hx (Entry.mkEntry (Entry.windowStart e) (c + 1) t)) as (X1 & X2 & X3 & X4)];
      (eexists; split; [exact X1|]; split; [exact X2|]; split; [exact X3|]; split; [reflexivity|]; by eexists). }
  assert (in_window past k w = 0 -> c = 0) as Hc0 by (unfold c; lia).
  pose proof (set_fits past m k (Entry.mkEntry w 0 t) Hfit Htr) as Hev.
  assert (forall j, j <> k -> JsMap.get j (JsMap.set k (Entry.mkEntry w 0 t) (JsMap.delete k m)) = JsMap.get j m) as Hoth.
  { intros j Hj. by rewrite JsMap.get_set_ne, JsMap.get_delete_ne by done. }
  assert (forall j, In j (JsMap.keys (JsMap.set k (Entry.mkEntry w 0 t) (JsMap.delete k m))) ->
    j = k \/ In j (JsMap.keys m)) as Hks.
  { intros j Hj. unfold JsMap.keys in Hj. apply in_map_iff in Hj as ([i v] & <- & Hj).
    apply JsMap.set_entry in Hj as [[-> _]|Hj]; [by left|]. right. unfold JsMap.delete in Hj.
    apply filter_In in Hj as [Hj _]. by eapply JsMap.In_keys. }
  assert (JsMap.wf (JsMap.set k (Entry.mkEntry w 0 t) (JsMap.delete k m))) as Wf1
    by (apply JsMap.wf_set, JsMap.wf_delete, (tr_wf _ _ Htr)).
  destruct (JsMap.get k m) as [e|] eqn:G.
  - destruct (tr_some _ _ Htr k e G) as (Ec & El & t1 & Ht1 & E1). destruct (Z.eqb_spec (Entry.windowStart e) w) as [Ew|Ew].
    + apply (Hgo m e); [apply Htr|done|by intros; right|done|done|unfold c; by rewrite <- Ew|].
      unfold consume. fold w. rewrite G, (proj2 (Z.eqb_eq _ _) Ew). reflexivity.
    + apply (Hgo _ (Entry.mkEntry w 0 t) Wf1 Hoth Hks); [apply JsMap.get_set_eq|done| |].
      * symmetry. apply Hc0, in_window_0. intros t' Ht' Eq. specialize (El t' Ht'). specialize (Hle t1 Ht1). lia.
      * unfold consume. fold w. rewrite G, (proj2 (Z.eqb_neq _ _) Ew), Hev. done.
  - apply (Hgo _ (Entry.mkEntry w 0 t) Wf1 Hoth Hks); [apply JsMap.get_set_eq|done| |].
    + symmetry. apply Hc0, in_window_0. intros t' Ht'. by destruct (tr_none _ _ Htr k G t' Ht').
    + unfold consume. fold w. by rewrite G, Hev.
Qed.

Lemma consume_tracks past m k t :
  0 < window -> callers_fit past k -> tracks past m -> (forall r, In r past -> r.2 <= t) ->
  tracks (past ++ [(k, t)]) (consume maxEntries m k (limit k) window t).2 /\
  Decision.allowed (consume maxEntries m k (limit k) window t).1 =
    (in_window past k (windowStartMs t window) <? limit k).
Proof.
  intros Hw Hfit Htr Hpast.
  destruct (consume_decides past m k t Hw Hfit Htr Hpast) as (m1 & Wf1 & Ho & Hks & -> & e & G & Ew & Ec).
  cbn [fst snd Decision.allowed]. set (w := windowStartMs t window) in *.
  assert (0 <= in_window past k w) as Hpos by (unfold in_window; lia). split.
  - split; [done| | |].
    + intros j Hj. rewrite map_app, in_app_iff. apply Hks in Hj as [-> |Hj]; [right; by left|left; by apply (tr_keys _ _ Htr)].
    + intros j Gj t' Hin. destruct (decide (j = k)) as [->|Hj]; [congruence|]. rewrite Ho in Gj by done.
      apply in_app_iff in Hin as [Hin|[[= -> _]|[]]]; [by eapply (tr_none _ _ Htr)|done].
    + intros j e' Gj. destruct (decide (j = k)) as [->|Hj].
      * assert (e' = e) as -> by congruence. rewrite in_window_snoc, Ew, str_eqb_refl, Z.eqb_refl. cbn [andb].
        split; [|split].
        -- rewrite Ec. destruct (Z.leb_spec (limit k) (Z.min (Z.max 0 (limit k)) (in_window past k w))); lia.
        -- intros t' Hin. apply in_app_iff in Hin as [Hin|[[= <-]|[]]]; [|done].
           specialize (Hpast _ Hin). cbn in Hpast. unfold w, windowStartMs.
           apply Z.mul_le_mono_nonneg_r; [lia|]. apply Z.div_le_mono; lia.
        -- exists t. split; [|done]. apply in_app_iff. right. by left.
      * rewrite Ho in Gj by done. destruct (tr_some _ _ Htr j e' Gj) as (Ec' & El' & t1 & Ht1 & E1).
        rewrite in_window_snoc. destruct (str_eqb k j) eqn:E; [apply str_eqb_true in E; congruence|]. cbn [andb].
        split; [rewrite Ec'; lia|]. split.
        -- intros t' Hin. apply in_app_iff in Hin as [Hin|[[= -> _]|[]]]; [by apply El'|done].
        -- exists t1. split; [|done]. apply in_app_iff. by left.
  - destruct (Z.leb_spec (limit k) (Z.min (Z.max 0 (limit k)) (in_window past k w))),
      (Z.ltb_spec (in_window past k w) (limit k)); try done; lia.
Qed.

(** Times do not go back. *)
Fixpoint in_order (past requests : list (string * Z)) : Prop :=
  match requests with
  | [] => True
  | r :: rest => (forall q, In q past -> q.2 <= r.2) /\ in_order (past ++ [r]) rest
  end.

Lemma decisions_exact names requests : forall past m,
  0 < window -> Z.of_nat (length names) <= maxEntries -> (forall j, In j (map fst past) -> In j names) ->
  (forall j, In j (map fst requests) -> In j names) -> in_order past requests -> tracks past m ->
  decisions m requests = allowed_by_count past requests.
Proof.
  induction requests as [|[k t] rest IH]; intros past m Hw Hn Hp Hr Ho Htr; [done|].
  cbn [decisions allowed_by_count]. destruct Ho as [Ho1 Ho2].
  assert (callers_fit past k) as Hfit.
  { exists names. split; [done|]. split; [|done]. apply Hr. by left. }
  destruct (consume_tracks past m k t Hw Hfit Htr Ho1) as [Htr1 Hd].
  destruct (consume maxEntries m k (limit k) window t) as [d m1]. cbn [fst snd] in *. f_equal; [done|].
  apply IH; [done|done| | |done|done].
  - intros j Hj. rewrite map_app, in_app_iff in Hj. destruct Hj as [Hj|[<-|[]]]; [by apply Hp|]. apply Hr. by left.
  - intros j Hj. apply Hr. by right.
Qed.
End exact.

(** [C31] The limiter counts exactly: for requests of at most [maxEntries] different
    callers whose times do not go back, the decisions of the bounded in-memory limiter are
    those of the specification that remembers every request: a request is allowed when
    fewer than the caller's limit came before it in the same window. *)
Theorem rate_limit_exact maxEntries window limit requests :
  0 < window -> Z.of_nat (length (dedup [] (map fst requests))) <= maxEntries -> in_order [] requests ->
  decisions maxEntries window limit JsMap.empty requests = allowed_by_count window limit [] requests.
Proof.
  intros Hw Hn Ho. apply (decisions_exact maxEntries window limit (dedup [] (map fst requests))); [done|done|done| |done|].
  - intros j Hj. apply dedup_In. by right.
  - split; [apply JsMap.wf_empty|done|done|done].
Qed.

(** Two callers, a limit of two and a window of a minute. *)
Definition example_requests : list (string * Z) :=
  [("a", 0); ("a", 1000); ("b", 1000); ("a", 59999); ("a", 60000); ("b", 61000)].

Lemma rate_limit_exact_witness :
  decisions 2 60 (fun _ => 2) JsMap.empty example_requests = [true; true; true; false; true; true].
Proof.
  refine (eq_trans (rate_limit_exact 2 60 (fun _ => 2) example_requests _ _ _) _); [lia|vm_compute; discriminate| |reflexivity].
  cbn. repeat split; intros q Hq; repeat (destruct Hq as [<-|Hq]; [cbn; lia|]); done.
Defined.

(** With more callers than entries the oldest is forgotten and starts again. *)
Example evicted_caller_starts_again :
  decisions 1 60 (fun _ => 1) JsMap.empty [("a", 0); ("b", 1); ("a", 2)] = [true; true; true] /\
  allowed_by_count 60 (fun _ => 1) [] [("a", 0); ("b", 1); ("a", 2)] = [true; true; false].
Proof. split; reflexivity. Qed.
