(* ===== verification/Pages.v ===== *)
(** * Pages of a list

    services/api/src/control-plane-id-page.ts (the keyset pages of the catalogs),
    control-plane-session-cursor.ts (queries and the signed cursors of the plane without a
    storage), control-plane-session-order.ts, control-plane-sessions-page.ts,
    control-plane-repository-cursor.ts and control-plane-repositories-page.ts: what a page
    holds, and that a client that follows [nextCursor] to the end sees every entry once, also
    while the list changes under it.  The HMAC under the cursor secret and the base64url JSON
    codec are parameters ([CursorCodec]) with the round trip the code relies on. *)

From Stdlib Require Import ZArith Lia Ascii String Permutation Sorted.
From stdpp Require Import base strings countable list sets.
From S2P Require Import Prelude Types Cron Ordering CommandResume Placement SessionOutcome Worktrees Validation DeleteGuards Catalog AuthSecurity.

Local Open Scope string_scope.
Local Open Scope Z_scope.

(** ** Keyset pages *)
Definition DEFAULT_ID_PAGE_LIMIT : Z := 50.
Definition MAX_ID_PAGE_LIMIT : Z := 100.

Record ListPage (A : Type) := mkListPage { items : list A; nextCursor : option string }.
Arguments mkListPage {A} items nextCursor.
Arguments items {A} _.
Arguments nextCursor {A} _.

(** [page.at(-1)]. *)
Definition page_last {A} (page : list A) : option A := last page.

(** The entries of [searchParams.getAll(name)]; [None] is the exception. *)
Definition readSingleQueryParam (values : list string) : option (option string) :=
  match values with
  | [] => Some None
  | [value] => if str_eqb value "" then None else Some (Some value)
  | _ => None
  end.

(** [Number(value)] of a string of digits. *)
Fixpoint digits_value (acc : Z) (s : string) : Z :=
  match s with "" => acc | String c s' => digits_value (acc * 10 + (code c - 48)) s' end.

(** A value past the safe integers is past the maximum too. *)
Definition parseLimit (value : option string) : option Z :=
  match value with
  | None => Some DEFAULT_ID_PAGE_LIMIT
  | Some s =>
      if str_eqb s "" || string_exists (fun c => negb (in_range 48 57 c)) s then None
      else
        let limit := digits_value 0 s in
        if (limit <? 1) || (MAX_ID_PAGE_LIMIT <? limit) then None else Some limit
  end.

Record ListPageQuery := mkListPageQuery { page_limit : Z; page_cursor : option string }.

(** From the values of [limit] and of [cursor] in the URL. *)
Definition parseListPageQuery (limits cursors : list string) : option ListPageQuery :=
  l ← readSingleQueryParam limits;
  limit ← parseLimit l;
  cursor ← readSingleQueryParam cursors;
  Some (mkListPageQuery limit cursor).

(** A page has at least one row and at most [MAX_ID_PAGE_LIMIT]. *)
Lemma parsed_limit_bounds limits cursors q :
  parseListPageQuery limits cursors = Some q -> 1 <= page_limit q <= MAX_ID_PAGE_LIMIT.
Proof.
  unfold parseListPageQuery, parseLimit. intros H. destruct (readSingleQueryParam limits) as [[s|]|]; [| |done];
    cbn [mbind option_bind] in H; repeat case_match; simplify_eq/=; try done;
    destruct (readSingleQueryParam cursors); simplify_eq/=; unfold MAX_ID_PAGE_LIMIT, DEFAULT_ID_PAGE_LIMIT in *; lia.
Qed.

(** The platform's part of a cursor, under the plane's cursor secret. *)
Class CursorCodec := {
  (** The base64url HMAC of a text. *)
  cursor_hmac : string -> string;
  (** The base64url text of [JSON.stringify(value)], and [JSON.parse] of such a text. *)
  cursor_text : json -> string;
  cursor_value : string -> option json;
  (** The bytes of a base64url text. *)
  base64url_bytes : string -> string;
  (** The base64url SHA-256 of a text. *)
  cursor_digest : string -> string;
}.

Section pages.
Context {LC : LocaleCompare}.

Definition pageByKey {A} (rows : list A) (limit : Z) (cursor : option string) (key : A -> string)
    (compare : option (A -> A -> Z)) : ListPage A :=
  let compare := opt_or compare (fun left right => localeCompare (key left) (key right)) in
  let rows := toSorted compare rows in
  let remaining :=
    match truthy_opt cursor with
    | Some c => List.filter (fun item => 0 <? localeCompare (key item) c) rows
    | None => rows
    end in
  let page := take (Z.to_nat limit) remaining in
  mkListPage page (if limit <? Z.of_nat (length remaining) then key <$> page_last page else None).

(** ** Session queries *)
Inductive SessionListSort := latest | oldest | priority_desc | priority_asc.

#[global] Instance SessionListSort_eq_dec : EqDecision SessionListSort.
Proof. solve_decision. Defined.

Definition sort_name (sort : SessionListSort) : string :=
  match sort with
  | latest => "latest" | oldest => "oldest" | priority_desc => "priority_desc" | priority_asc => "priority_asc"
  end.

Record SessionListScope := mkSessionListScope {
  scope_repositoryIds : option (list string);
  scope_hostId : option string;
}.

Record ListSessionsPageQuery := mkListSessionsPageQuery {
  q_limit : option Z;
  q_cursor : option string;
  q_repositoryId : option string;
  q_status : option string;
  q_hostId : option string;
  q_worktreeId : option string;
  q_sort : option string;
  q_concurrencyId : option string;
  q_scheduleId : option string;
  q_source : option string;
  q_scope : option SessionListScope;
}.

(** [None] in a filter is [null]. *)
Record CursorQuery := mkCursorQuery {
  cq_repositoryId : option string;
  cq_status : option string;
  cq_hostId : option string;
  cq_worktreeId : option string;
  cq_concurrencyId : option string;
  cq_scheduleId : option string;
  cq_source : option string;
}.

Record CursorScope := mkCursorScope { cs_repositoryIds : option (list string); cs_hostId : option string }.

Record CursorPosition := mkCursorPosition { p_createdAt : string; p_id : string; p_priority : Z }.

(** The functions below return [None] where the source throws. *)
Definition normalizeLimit (limit : option Z) : option Z :=
  match limit with
  | None => Some 50
  | Some n => if (n <? 1) || (100 <? n) then None else Some n
  end.

Definition normalizeSort (sort : option string) : option SessionListSort :=
  match sort with
  | None => Some latest
  | Some s =>
      if str_eqb s "latest" then Some latest
      else if str_eqb s "oldest" then Some oldest
      else if str_eqb s "priority_desc" then Some priority_desc
      else if str_eqb s "priority_asc" then Some priority_asc
      else None
  end.

(** The outer [None] is the exception, the inner one [null]. *)
Definition normalizeFilter (value : option string) : option (option string) :=
  match value with
  | None => Some None
  | Some v => if str_eqb v "" then None else Some (Some v)
  end.

Definition SESSION_STATUSES : list string := map status_name [queued; running; completed; failed; cancelled; timed_out].

Definition normalizeQuery (query : ListSessionsPageQuery) : option CursorQuery :=
  status ← normalizeFilter (q_status query);
  _ ← guard (match status with Some s => str_eqb s "all" || existsb (str_eqb s) SESSION_STATUSES | None => true end = true);
  source ← normalizeFilter (q_source query);
  _ ← guard (match source with Some s => existsb (str_eqb s) SESSION_SOURCES | None => true end = true);
  concurrencyId ← normalizeFilter (q_concurrencyId query);
  _ ← guard (match concurrencyId with Some c => is_some (concurrencyIdByteLengthError c) | None => false end = false);
  repositoryId ← normalizeFilter (q_repositoryId query);
  hostId ← normalizeFilter (q_hostId query);
  worktreeId ← normalizeFilter (q_worktreeId query);
  scheduleId ← normalizeFilter (q_scheduleId query);
  Some (mkCursorQuery repositoryId (if opt_str_eqb status (Some "all") then None else status) hostId worktreeId
          concurrencyId scheduleId source).

Definition normalizeScope (scope : option SessionListScope) : CursorScope :=
  mkCursorScope (ids ← (s ← scope; scope_repositoryIds s); Some (toSorted code_compare (dedup [] ids)))
    (s ← scope; scope_hostId s).

(** ** Session order *)
Definition comparePositions (a b : CursorPosition) (sort : SessionListSort) : Z :=
  match sort with
  | latest => cmp_or (localeCompare (p_createdAt b) (p_createdAt a)) (localeCompare (p_id b) (p_id a))
  | oldest => cmp_or (localeCompare (p_createdAt a) (p_createdAt b)) (localeCompare (p_id a) (p_id b))
  | priority_desc =>
      cmp_or (p_priority b - p_priority a)
        (cmp_or (localeCompare (p_createdAt b) (p_createdAt a)) (localeCompare (p_id b) (p_id a)))
  | priority_asc =>
      cmp_or (p_priority a - p_priority b)
        (cmp_or (localeCompare (p_createdAt a) (p_createdAt b)) (localeCompare (p_id a) (p_id b)))
  end.

(** [{ createdAt: s.createdAt, id: s.id, priority: s.priority }]. *)
Definition position_of (s : SessionRecord) : CursorPosition :=
  mkCursorPosition (Session.createdAt s) (Session.id s) (Session.priority s).

Definition compareSessions (a b : SessionRecord) (sort : SessionListSort) : Z :=
  comparePositions (position_of a) (position_of b) sort.

Definition compareSessionToCursor (session : SessionRecord) (position : CursorPosition) (sort : SessionListSort) : Z :=
  comparePositions (position_of session) position sort.

(** ** Session cursors *)
Definition nullable_json (x : option string) : json := match x with Some s => JString s | None => JNull end.

Definition query_json (q : CursorQuery) : json :=
  JObject [("repositoryId", nullable_json (cq_repositoryId q)); ("status", nullable_json (cq_status q));
           ("hostId", nullable_json (cq_hostId q)); ("worktreeId", nullable_json (cq_worktreeId q));
           ("concurrencyId", nullable_json (cq_concurrencyId q)); ("scheduleId", nullable_json (cq_scheduleId q));
           ("source", nullable_json (cq_source q))].

Definition scope_json (s : CursorScope) : json :=
  JObject [("repositoryIds", match cs_repositoryIds s with Some ids => JArray (map JString ids) | None => JNull end);
           ("hostId", nullable_json (cs_hostId s))].

Definition position_json (p : CursorPosition) : json :=
  JObject [("createdAt", JString (p_createdAt p)); ("id", JString (p_id p)); ("priority", JNumber (p_priority p))].

(** What a cursor must have been minted for. *)
Record CursorBase := mkCursorBase { cb_sort : SessionListSort; cb_query : CursorQuery; cb_scope : CursorScope }.

(** [{ ...cursorBase, position }] with [version: 1]. *)
Definition cursor_json (base : CursorBase) (position : CursorPosition) : json :=
  JObject [("version", JNumber 1); ("sort", JString (sort_name (cb_sort base))); ("query", query_json (cb_query base));
           ("scope", scope_json (cb_scope base)); ("position", position_json position)].

Context {CC : CursorCodec}.

Definition encodeSessionCursor (cursor : json) : string :=
  let payload := cursor_text cursor in payload ++ "." ++ cursor_hmac payload.

(** [split(".")], the signature and [JSON.parse]; [sign] is the signature of a payload. *)
Definition decode_signed (sign : string -> string) (encoded : string) : option json :=
  match split_on "." encoded with
  | [payload; signature] =>
      if negb (truthy payload) || negb (truthy signature) then None
      else if str_eqb (base64url_bytes signature) (base64url_bytes (sign payload)) then cursor_value payload
      else None
  | _ => None
  end.

Definition decodeSignedCursorPayload (encoded : string) : option json := decode_signed cursor_hmac encoded.

(** A member of an object literal: left out by [JSON.stringify] when [undefined]. *)
Definition kept_member (key : string) (value : option json) : list (string * json) :=
  match value with Some v => [(key, v)] | None => [] end.

(** [x ?? null]. *)
Definition or_null (value : option json) : option json := Some (opt_or value JNull).

Definition normalizeCursorQuery (query : option json) : option json :=
  match query with
  | Some (JObject q) =>
      Some (JObject (kept_member "repositoryId" (JsMap.get "repositoryId" q) ++ kept_member "status" (JsMap.get "status" q) ++
        kept_member "hostId" (JsMap.get "hostId" q) ++ kept_member "worktreeId" (or_null (JsMap.get "worktreeId" q)) ++
        kept_member "concurrencyId" (JsMap.get "concurrencyId" q) ++ kept_member "scheduleId" (JsMap.get "scheduleId" q) ++
        kept_member "source" (or_null (JsMap.get "source" q)))%list)
  | _ => query
  end.

(** [JSON.stringify(x) === JSON.stringify(expected)]; [undefined] prints as [undefined]. *)
Definition prints_as (value : option json) (expected : json) : bool :=
  match value with Some v => str_eqb (stringify v) (stringify expected) | None => false end.

Definition is_json_string (text : string) (value : option json) : bool :=
  match value with Some (JString s) => str_eqb s text | _ => false end.

Definition decodeSessionCursor (encoded : string) (expected : CursorBase) : option CursorPosition :=
  match decodeSignedCursorPayload encoded with
  | Some (JObject cursor) =>
      if match JsMap.get "version" cursor with Some (JNumber 1) => true | _ => false end &&
         is_json_string (sort_name (cb_sort expected)) (JsMap.get "sort" cursor) &&
         prints_as (normalizeCursorQuery (JsMap.get "query" cursor)) (query_json (cb_query expected)) &&
         prints_as (JsMap.get "scope" cursor) (scope_json (cb_scope expected))
      then
        match JsMap.get "position" cursor with
        | Some (JObject p) =>
            match JsMap.get "createdAt" p, JsMap.get "id" p, JsMap.get "priority" p with
            | Some (JString createdAt), Some (JString id), Some (JNumber priority) =>
                Some (mkCursorPosition createdAt id priority)
            | _, _, _ => None
            end
        | _ => None
        end
      else None
  | _ => None
  end.

(** ** Pages of sessions *)
Definition matchesScope (session : SessionRecord) (scope : CursorScope) : bool :=
  match cs_repositoryIds scope with Some ids => existsb (str_eqb (Session.repositoryId session)) ids | None => true end &&
  match cs_hostId scope with Some h => opt_str_eqb (nul_opt (Session.hostId session)) (Some h) | None => true end.

(** [query.f === null || value === query.f]. *)
Definition passes (filter value : option string) : bool :=
  match filter with Some f => opt_str_eqb value (Some f) | None => true end.

Definition matchesQuery (session : SessionRecord) (query : CursorQuery) : bool :=
  passes (cq_repositoryId query) (Some (Session.repositoryId session)) &&
  passes (cq_status query) (Some (status_name (Session.status session))) &&
  passes (cq_hostId query) (nul_opt (Session.hostId session)) &&
  match cq_worktreeId query with Some w => sessionInWorktree session w | None => true end &&
  passes (cq_concurrencyId query) (Session.concurrencyId session) &&
  passes (cq_scheduleId query) (Session.scheduleId session) &&
  passes (cq_source query) (Session.source session).

(** The rows of a query, in the order of its sort. *)
Definition session_rows (state : ControlPlaneState) (base : CursorBase) : list SessionRecord :=
  toSorted (fun a b => compareSessions a b (cb_sort base))
    (List.filter (fun session => matchesQuery session (cb_query base))
      (List.filter (fun session => matchesScope session (cb_scope base)) (JsMap.values (Plane.sessions state)))).

Definition listSessionsPage (state : ControlPlaneState) (query : ListSessionsPageQuery) : option (ListPage PublicSession) :=
  limit ← normalizeLimit (q_limit query);
  sort ← normalizeSort (q_sort query);
  normalizedQuery ← normalizeQuery query;
  let normalizedScope := normalizeScope (q_scope query) in
  let cursorBase := mkCursorBase sort normalizedQuery normalizedScope in
  position ← match truthy_opt (q_cursor query) with
             | Some c => Some <$> decodeSessionCursor c cursorBase
             | None => Some None
             end;
  let rows := session_rows state cursorBase in
  let rows := match position with
              | Some p => List.filter (fun session => 0 <? compareSessionToCursor session p sort) rows
              | None => rows
              end in
  let page := take (Z.to_nat limit) rows in
  let hasMore := limit <? Z.of_nat (length rows) in
  Some (mkListPage (map (fun session => toPublic state session false) page)
    (if hasMore then (fun last => encodeSessionCursor (cursor_json cursorBase (position_of last))) <$> page_last page else None)).

Definition listSessions (state : ControlPlaneState) : list PublicSession :=
  map (fun session => toPublic state session false)
    (toSorted (fun a b => compareSessions a b latest) (JsMap.values (Plane.sessions state))).

(** ** Pages of repositories *)
Definition normalizeRepositoryLimit (limit : option Z) : option Z :=
  match limit with
  | None => Some 50
  | Some n => if (n <? 1) || (100 <? n) then None else Some n
  end.

Definition normalizeRepositoryIds (scope : option (list string)) : option (list string) :=
  ids ← scope; Some (toSorted localeCompare (dedup [] ids)).

(** [JSON.stringify] of the list, digested. *)
Definition normalizeRepositoryScope (scope : option (list string)) : option string :=
  ids ← normalizeRepositoryIds scope; Some (cursor_digest (stringify (JArray (map JString ids)))).

Definition repository_scope_json (digest : option string) : json :=
  JObject [("repositoryIdsDigest", nullable_json digest)].

Definition repository_cursor_json (digest : option string) (name id : string) : json :=
  JObject [("version", JNumber 1); ("domain", JString "repositories"); ("scope", repository_scope_json digest);
           ("position", JObject [("name", JString name); ("id", JString id)])].

(** The signature of a payload in the domain of the repositories. *)
Definition repository_sign (payload : string) : string := cursor_hmac ("repositories" ++ String "000"%char payload).

Definition encodeRepositoryCursor (cursor : json) : string :=
  let payload := cursor_text cursor in payload ++ "." ++ repository_sign payload.

(** A position, or the key of a storage. *)
Inductive RepositoryBoundary := at_position (name id : string) | at_storage_key (key : list (string * json)).

Definition decodeRepositoryCursor (encoded : string) (digest : option string) : option RepositoryBoundary :=
  match decode_signed repository_sign encoded with
  | Some (JObject cursor) =>
      if match JsMap.get "version" cursor with Some (JNumber 1) => true | _ => false end &&
         is_json_string "repositories" (JsMap.get "domain" cursor) &&
         prints_as (JsMap.get "scope" cursor) (repository_scope_json digest)
      then
        match JsMap.get "position" cursor, JsMap.get "storageKey" cursor with
        | Some (JObject p), None =>
            match JsMap.get "name" p, JsMap.get "id" p with
            | Some (JString name), Some (JString id) => Some (at_position name id)
            | _, _ => None
            end
        | None, Some (JObject key) => Some (at_storage_key key)
        | _, _ => None
        end
      else None
  | _ => None
  end.

(** The limit, cursor and allow-list of a query; a storage key means a cursor of the durable pages. *)
Definition listRepositoriesPage (state : ControlPlaneState) (limit : option Z) (cursor : option string)
    (scope : option (list string)) : option (ListPage RepositoryRecord) :=
  limit ← normalizeRepositoryLimit limit;
  let repositoryIds := normalizeRepositoryIds scope in
  let digest := normalizeRepositoryScope scope in
  position ← match truthy_opt cursor with
             | Some c => match decodeRepositoryCursor c digest with
                         | Some (at_position name id) => Some (Some (name, id))
                         | _ => None
                         end
             | None => Some None
             end;
  let rows := toSorted compareRepositories
    (List.filter (fun r => match repositoryIds with Some ids => existsb (str_eqb (Repo.id r)) ids | None => true end)
      (listRepositories state)) in
  let rows := match position with
              | Some (name, id) =>
                  List.filter (fun r => 0 <? compareRepositories r (r <| Repo.name := name |> <| Repo.id := id |>)) rows
              | None => rows
              end in
  let page := take (Z.to_nat limit) rows in
  Some (mkListPage page
    (if limit <? Z.of_nat (length rows)
     then (fun last => encodeRepositoryCursor (repository_cursor_json digest (Repo.name last) (Repo.id last))) <$> page_last page
     else None)).

End pages.

(** ** Sorted rows and cuts *)
Lemma filter_all_false {A} (p : A -> bool) l : (forall x, In x l -> p x = false) -> List.filter p l = [].
Proof. induction l as [|x l IH]; intros H; cbn; [done|]. rewrite (H x) by by left. apply IH. intros y Hy. apply H. by right. Qed.

Lemma filter_all_true {A} (p : A -> bool) l : (forall x, In x l -> p x = true) -> List.filter p l = l.
Proof. intros H. apply forallb_filter_id, forallb_forall. exact H. Qed.

Section cuts.
Context {A K : Type} (key : A -> K) (cmp : K -> K -> Z) (TP : TotalPreorder cmp).

(** The rows past a key, all of them without one. *)
Definition beyond (after : option K) (rows : list A) : list A :=
  match after with Some k => List.filter (fun r => 0 <? cmp (key r) k) rows | None => rows end.

Definition is_beyond (after : option K) (x : A) : Prop := match after with Some k => 0 < cmp (key x) k | None => True end.

Lemma beyond_In after rows x : In x (beyond after rows) <-> In x rows /\ is_beyond after x.
Proof. destruct after as [k|]; cbn; [|tauto]. rewrite filter_In. by rewrite Z.ltb_lt. Qed.

Notation sorted := (StronglySorted (fun a b => cmp (key a) (key b) <= 0)).

Lemma sorted_filter p rows : sorted rows -> sorted (List.filter p rows).
Proof.
  induction 1 as [|x l Hs IH Hall]; cbn; [constructor|]. destruct (p x); [|done]. constructor; [done|].
  rewrite List.Forall_forall in *. intros y Hy. apply filter_In in Hy as [Hy _]. by apply Hall.
Qed.

Lemma sorted_beyond after rows : sorted rows -> sorted (beyond after rows).
Proof. destruct after; [apply sorted_filter|done]. Qed.

Lemma sorted_app_le l1 l2 x y : sorted (l1 ++ l2)%list -> In x l1 -> In y l2 -> cmp (key x) (key y) <= 0.
Proof.
  induction l1 as [|z l1 IH]; intros H Hx Hy; [done|]. inversion H as [|? ? Hs Hall]; subst.
  destruct Hx as [->|Hx]; [|by apply IH]. rewrite List.Forall_forall in Hall. apply Hall, in_or_app. by right.
Qed.

(** Nothing but itself compares equal to the row. *)
Definition apart (rows : list A) (x : A) : Prop := forall y, In y rows -> cmp (key y) (key x) = 0 -> y = x.

Lemma last_split (l : list A) x : last l = Some x -> exists l', l = (l' ++ [x])%list.
Proof.
  destruct l as [|y l' _] using rev_ind; [done|]. rewrite last_snoc. intros [= ->]. by exists l'.
Qed.

(** A page and the rest of what it was cut from. *)
Lemma cut_last n (rows : list A) y :
  last (take n rows) = Some y -> (forall x, In x (take n rows) -> sorted rows -> cmp (key x) (key y) <= 0) /\
  (forall x, In x (drop n rows) -> sorted rows -> cmp (key y) (key x) <= 0) /\ In y rows.
Proof.
  intros Hl. apply last_split in Hl as [l' Hl].
  assert (Hy : In y (take n rows)) by (rewrite Hl; apply in_or_app; right; by left). split; [|split].
  - intros x Hx Hs. rewrite Hl in Hx. apply in_app_or in Hx as [Hx|[<-|[]]]; [|rewrite (tp_refl _ TP); done].
    rewrite <- (take_drop n rows), Hl, <- app_assoc in Hs. eapply sorted_app_le; [exact Hs|done|by left].
  - intros x Hx Hs. rewrite <- (take_drop n rows) in Hs. by eapply sorted_app_le.
  - rewrite <- (take_drop n rows). apply in_or_app. by left.
Qed.

(** The rows past the last of a prefix are the rest. *)
Lemma beyond_prefix l1 rest :
  sorted (l1 ++ rest)%list -> NoDup (l1 ++ rest)%list -> (forall x, In x (l1 ++ rest)%list -> apart (l1 ++ rest)%list x) ->
  beyond (key <$> last l1) (l1 ++ rest)%list = rest.
Proof.
  intros Hs Hnd Hap. destruct (last l1) as [x|] eqn:Hl; [|by destruct l1 as [|? ? _] using rev_ind; [|rewrite last_snoc in Hl]].
  apply last_split in Hl as [l' ->]. cbn [fmap option_fmap option_map beyond]. rewrite List.filter_app.
  assert (E1 : List.filter (fun r => 0 <? cmp (key r) (key x)) (l' ++ [x])%list = []).
  { apply filter_all_false. intros r Hr. apply Z.ltb_ge. apply in_app_or in Hr as [Hr|[<-|[]]].
    - rewrite <- app_assoc in Hs. eapply sorted_app_le; [exact Hs|done|by left].
    - by rewrite (tp_refl _ TP). }
  rewrite E1. cbn [app]. apply filter_all_true. intros r Hr. apply Z.ltb_lt.
  assert (Hle : cmp (key x) (key r) <= 0) by (eapply sorted_app_le; [exact Hs|apply in_or_app; right; by left|done]).
  pose proof (tp_sym _ TP (key x) (key r)) as Hsym. destruct (Z.eq_dec (cmp (key r) (key x)) 0) as [E|]; [|lia].
  exfalso. assert (r = x) as ->.
  { apply (Hap x); [apply in_or_app; left; apply in_or_app; right; by left| |done]. apply in_or_app. by right. }
  apply NoDup_app in Hnd as (_ & Hnd & _). apply (Hnd x); apply list_elem_of_In; [apply in_or_app; right; by left|done].
Qed.

End cuts.

(** ** Following the cursors *)

(** A client that asks for pages until there is no next cursor; [None] when a request fails or
    the fuel ends first. *)
Fixpoint follow {A} (fetch : option string -> option (ListPage A)) (fuel : nat) (cursor : option string)
    : option (list (list A)) :=
  match fetch cursor with
  | None => None
  | Some page =>
      match nextCursor page, fuel with
      | None, _ => Some [items page]
      | Some _, O => None
      | Some c, S fuel' => cons (items page) <$> follow fetch fuel' (Some c)
      end
  end.

(** A page of the rows that are left, with a cursor when there are more. *)
Definition page_of {A B} (show : B -> A) (code : B -> string) (limit : Z) (rest : list B) : ListPage A :=
  let page := take (Z.to_nat limit) rest in
  mkListPage (map show page) (if limit <? Z.of_nat (length rest) then code <$> page_last page else None).

Section follow.
Context {A B : Type} (show : B -> A) (code : B -> string) (limit : Z) (Hlimit : 1 <= limit).
Context (fetch : option string -> option (ListPage A)) (rows : list B).
(** The cursor of a row leads to the rows after it. *)
Context (Hfetch : forall done rest, rows = (done ++ rest)%list ->
           fetch (code <$> last done) = Some (page_of show code limit rest)).

Lemma follow_rest fuel done rest :
  rows = (done ++ rest)%list -> (length rest <= fuel)%nat ->
  exists pages, follow fetch fuel (code <$> last done) = Some pages /\ concat pages = map show rest /\
    Forall (fun page => Z.of_nat (length page) <= limit) pages.
Proof.
  revert done rest. induction fuel as [|fuel IH]; intros done rest Hrows Hlen.
  - destruct rest; [|cbn in Hlen; lia]. exists [[]]. cbn [follow]. rewrite (Hfetch done [] Hrows). unfold page_of.
    rewrite take_nil. cbn [length map items nextCursor]. rewrite (proj2 (Z.ltb_ge _ _)) by lia. split; [done|]. split; [done|].
    constructor; [cbn; lia|constructor].
  - cbn [follow]. rewrite (Hfetch done rest Hrows). unfold page_of. cbn [items nextCursor].
    assert (Hpage : Z.of_nat (length (map show (take (Z.to_nat limit) rest))) <= limit)
      by (rewrite length_map, length_take; lia).
    destruct (Z.ltb_spec limit (Z.of_nat (length rest))) as [Hmore|Hall].
    + set (page := take (Z.to_nat limit) rest) in *. unfold page_last.
      destruct (last page) as [x|] eqn:Hl.
      2: { apply last_None in Hl. apply (f_equal length) in Hl. unfold page in Hl. rewrite length_take in Hl. cbn in Hl. lia. }
      cbn [fmap option_fmap option_map].
      destruct (IH (done ++ page)%list (drop (Z.to_nat limit) rest)) as (pages & Hf & Hc & Hp).
      { rewrite Hrows, <- app_assoc. unfold page. by rewrite take_drop. }
      { rewrite length_drop. lia. }
      rewrite last_app, Hl in Hf. cbn [fmap option_fmap option_map] in Hf. rewrite Hf. cbn [fmap option_fmap option_map].
      eexists. split; [done|]. split; [|by constructor]. cbn [concat]. rewrite Hc, <- map_app. unfold page. by rewrite take_drop.
    + eexists. split; [done|]. split; [|by constructor]. cbn [concat]. rewrite app_nil_r.
      by rewrite take_ge by lia.
Qed.

(** Every row is shown once, in order, in pages within the limit. *)
Lemma follow_all :
  exists pages, follow fetch (length rows) None = Some pages /\ concat pages = map show rows /\
    Forall (fun page => Z.of_nat (length page) <= limit) pages.
Proof. by apply (follow_rest (length rows) []). Qed.

End follow.

(** ** One entry across the pages *)
Section one_entry.
Context {A K : Type} (key : A -> K) (cmp : K -> K -> Z) (TP : TotalPreorder cmp).

(** An entry past the cursor is on the page, or past the cursor of the next one; an entry on the
    page or before the cursor is not past the next one. *)
Lemma cut_page limit rows after x :
  1 <= limit -> StronglySorted (fun a b => cmp (key a) (key b) <= 0) rows -> In x rows -> apart key cmp rows x ->
  let remaining := beyond key cmp after rows in
  let page := take (Z.to_nat limit) remaining in
  let more := limit <? Z.of_nat (length remaining) in
  (In x page -> is_beyond key cmp after x) /\
  (is_beyond key cmp after x -> ~ In x page ->
     more = true /\ exists y, last page = Some y /\ is_beyond key cmp (Some (key y)) x) /\
  (is_beyond key cmp after x -> In x page -> forall y, last page = Some y -> ~ is_beyond key cmp (Some (key y)) x) /\
  (~ is_beyond key cmp after x -> forall y, last page = Some y -> ~ is_beyond key cmp (Some (key y)) x).
Proof.
  intros Hlim Hs Hx Hap remaining page more.
  assert (Hsr : StronglySorted (fun a b => cmp (key a) (key b) <= 0) remaining) by by apply sorted_beyond.
  assert (Hsub : forall y, In y page -> In y remaining).
  { intros y Hy. rewrite <- (take_drop (Z.to_nat limit) remaining). apply in_or_app. by left. }
  assert (Hlast : forall y, last page = Some y -> In y page).
  { intros y Hy. apply last_split in Hy as [l' ->]. apply in_or_app. right. by left. }
  split; [|split; [|split]].
  - intros H. apply Hsub in H. by apply beyond_In in H as [_ H].
  - intros Hb Hno.
    assert (Hd : In x (drop (Z.to_nat limit) remaining)).
    { assert (In x remaining) as Hr by by apply beyond_In. rewrite <- (take_drop (Z.to_nat limit) remaining) in Hr.
      apply in_app_or in Hr as [Hr|Hr]; [by destruct (Hno Hr)|done]. }
    assert (Hlen : (Z.to_nat limit < length remaining)%nat).
    { destruct (le_lt_dec (length remaining) (Z.to_nat limit)); [|done]. by rewrite drop_ge in Hd by lia. }
    split; [apply Z.ltb_lt; lia|]. destruct (last page) as [y|] eqn:Hl.
    2: { apply last_None in Hl. apply (f_equal length) in Hl. unfold page in Hl. rewrite length_take in Hl. cbn in Hl. lia. }
    exists y. split; [done|]. cbn. destruct (cut_last key cmp TP _ _ _ Hl) as (_ & Hle & Hy).
    specialize (Hle x Hd Hsr). pose proof (tp_sym _ TP (key y) (key x)).
    destruct (Z.eq_dec (cmp (key y) (key x)) 0) as [E|]; [|lia]. exfalso. apply Hno.
    assert (In y rows) by (by apply beyond_In in Hy as [Hy _]). rewrite <- (Hap y) by done. by apply Hlast.
  - intros Hb Hin y Hl. destruct (cut_last key cmp TP _ _ _ Hl) as (Hle & _ & _). specialize (Hle x Hin Hsr). cbn. lia.
  - intros Hnb y Hl. pose proof (Hsub y (Hlast y Hl)) as Hy. apply beyond_In in Hy as [_ Hy].
    destruct after as [k|]; cbn in *; [|done].
    pose proof (tp_sym _ TP (key y) k). pose proof (tp_sym _ TP (key x) k). pose proof (tp_trans _ TP (key x) k (key y)). lia.
Qed.

End one_entry.

(** ** Orders *)
Lemma tp_flip {A} (cmp : A -> A -> Z) : TotalPreorder cmp -> TotalPreorder (fun a b => cmp b a).
Proof. intros [r s t]. split; intros; [apply r|apply s|eapply t; eauto]. Qed.

Section orders.
Context {LC : LocaleCompare} {LL : LocaleCompareLaws LC}.

Lemma comparePositions_preorder sort : TotalPreorder (fun a b => comparePositions a b sort).
Proof.
  assert (Hc : TotalPreorder (fun a b => cmp_or (localeCompare (p_createdAt a) (p_createdAt b)) (localeCompare (p_id a) (p_id b)))).
  { apply (tp_lex (fun a b => localeCompare (p_createdAt a) (p_createdAt b)) (fun a b => localeCompare (p_id a) (p_id b)));
      [apply (tp_on localeCompare p_createdAt)|apply (tp_on localeCompare p_id)]; apply lc_preorder. }
  pose proof (tp_sub_flip p_priority) as Hp.
  destruct sort; cbn [comparePositions].
  - exact (tp_flip _ Hc).
  - exact Hc.
  - exact (tp_lex _ _ Hp (tp_flip _ Hc)).
  - exact (tp_lex _ _ (tp_flip _ Hp) Hc).
Qed.

(** Two positions compare equal only when their ids do. *)
Lemma comparePositions_zero a b sort : comparePositions a b sort = 0 -> localeCompare (p_id a) (p_id b) = 0.
Proof.
  pose proof (lc_sym (p_id a) (p_id b)). unfold comparePositions, cmp_or.
  destruct sort; repeat case_match; lia.
Qed.

Lemma session_rows_sorted st base :
  StronglySorted (fun a b => comparePositions (position_of a) (position_of b) (cb_sort base) <= 0) (session_rows st base).
Proof.
  apply (toSorted_sorted (fun a b => compareSessions a b (cb_sort base))).
  exact (tp_on _ position_of (comparePositions_preorder (cb_sort base))).
Qed.

End orders.

(** ** Stored sessions *)

(** Every session is filed under its own id. *)
Definition filed (st : ControlPlaneState) : Prop :=
  JsMap.wf (Plane.sessions st) /\ forall k s, JsMap.get k (Plane.sessions st) = Some s -> Session.id s = k.

(** The session is one a query asks for. *)
Definition selected (base : CursorBase) (s : SessionRecord) : bool :=
  matchesQuery s (cb_query base) && matchesScope s (cb_scope base).

Section rows.
Context {LC : LocaleCompare}.

Lemma session_rows_In st base s :
  In s (session_rows st base) <-> In s (JsMap.values (Plane.sessions st)) /\ selected base s = true.
Proof.
  unfold session_rows, selected. rewrite toSorted_In, !filter_In, andb_true_iff. tauto.
Qed.

Lemma filed_NoDup st : filed st -> NoDup (map Session.id (JsMap.values (Plane.sessions st))).
Proof.
  intros [Hwf Hid]. assert (E : map Session.id (JsMap.values (Plane.sessions st)) = JsMap.keys (Plane.sessions st)); [|by rewrite E].
  unfold JsMap.values, JsMap.keys. rewrite map_map. apply map_ext_in. intros [k s] Hin. cbn. by apply Hid, JsMap.In_get.
Qed.

Lemma filter_ids_NoDup (p : SessionRecord -> bool) l : NoDup (map Session.id l) -> NoDup (map Session.id (List.filter p l)).
Proof.
  induction l as [|x l IH]; cbn; [done|]. rewrite NoDup_cons. intros [Hx Hn]. destruct (p x); [|by apply IH].
  cbn. rewrite NoDup_cons. split; [|by apply IH]. rewrite list_elem_of_In, in_map_iff in Hx |- *.
  intros (y & E & Hy). apply Hx. exists y. split; [done|]. by apply filter_In in Hy as [Hy _].
Qed.

Lemma take_ids_NoDup n (l : list SessionRecord) : NoDup (map Session.id l) -> NoDup (map Session.id (take n l)).
Proof. intros H. rewrite <- (take_drop n l), map_app in H. by apply NoDup_app in H as [H _]. Qed.

Lemma session_rows_NoDup st base : filed st -> NoDup (map Session.id (session_rows st base)).
Proof.
  intros H. apply filed_NoDup in H. unfold session_rows. rewrite (Permutation_map Session.id (toSorted_perm _ _)).
  by apply filter_ids_NoDup, filter_ids_NoDup.
Qed.

(** A row is determined by its id. *)
Lemma rows_by_id st base a b :
  filed st -> In a (session_rows st base) -> In b (session_rows st base) -> Session.id a = Session.id b -> a = b.
Proof.
  intros [Hwf Hid] Ha Hb E. apply session_rows_In in Ha as [Ha _], Hb as [Hb _].
  apply JsMap.In_values_get in Ha as [i Ga], Hb as [j Gb]; [|done..]. pose proof (Hid _ _ Ga). pose proof (Hid _ _ Gb). congruence.
Qed.

End rows.

(** ** Codecs *)

(** A value [JSON.parse] gives back: no object has a member twice. *)
Fixpoint plain_json (v : json) : bool :=
  match v with
  | JArray items => forallb plain_json items
  | JObject entries => bool_decide (NoDup (map fst entries)) && forallb (fun e => plain_json e.2) entries
  | _ => true
  end.

(** A base64url text is not empty and has no dot; a plain value survives printing and parsing. *)
Class CursorCodecLaws (CC : CursorCodec) : Prop := {
  codec_roundtrip : forall v, plain_json v = true -> cursor_value (cursor_text v) = Some v;
  codec_text : forall v, part_ok (cursor_text v);
  codec_hmac : forall text, part_ok (cursor_hmac text);
}.

Section codecs.
Context {CC : CursorCodec} {CL : CursorCodecLaws CC}.

Lemma split_signed payload signature :
  part_ok payload -> part_ok signature -> split_on "." (payload ++ "." ++ signature) = [payload; signature].
Proof.
  intros [_ Hp] [_ Hs]. change ("." ++ signature) with (String "." signature). rewrite split_on_part by done. by rewrite split_on_last.
Qed.

Lemma decode_encoded sign v :
  (forall payload, part_ok (sign payload)) -> plain_json v = true ->
  decode_signed sign (cursor_text v ++ "." ++ sign (cursor_text v)) = Some v.
Proof.
  intros Hsign Hv. unfold decode_signed. pose proof (codec_text v) as Ht. pose proof (Hsign (cursor_text v)) as Hs.
  rewrite split_signed by done. destruct Ht as [Ht _], Hs as [Hs _].
  rewrite (proj2 (truthy_true _)), (proj2 (truthy_true _)) by done. cbn [negb orb]. rewrite str_eqb_refl. by apply codec_roundtrip.
Qed.

Lemma forallb_strings ids : forallb plain_json (map JString ids) = true.
Proof. by induction ids. Qed.

Lemma cursor_plain base p : plain_json (cursor_json base p) = true.
Proof.
  assert (Hn : forall x, plain_json (nullable_json x) = true) by by destruct x.
  destruct base as [sort q [ids h]]. unfold cursor_json, query_json, scope_json, position_json.
  destruct ids as [ids|]; cbn -[nullable_json]; by rewrite ?forallb_strings, !Hn.
Qed.

Lemma normalized_query_json q : normalizeCursorQuery (Some (query_json q)) = Some (query_json q).
Proof. reflexivity. Qed.

Lemma prints_as_refl v : prints_as (Some v) v = true.
Proof. apply str_eqb_refl. Qed.

Lemma cursor_members base p : exists entries, cursor_json base p = JObject entries /\
  JsMap.get "version" entries = Some (JNumber 1) /\ JsMap.get "sort" entries = Some (JString (sort_name (cb_sort base))) /\
  JsMap.get "query" entries = Some (query_json (cb_query base)) /\ JsMap.get "scope" entries = Some (scope_json (cb_scope base)) /\
  JsMap.get "position" entries = Some (position_json p).
Proof. eexists. repeat split. Qed.

(** The round trip of a session cursor. *)
Lemma session_cursor_roundtrip base p : decodeSessionCursor (encodeSessionCursor (cursor_json base p)) base = Some p.
Proof.
  unfold decodeSessionCursor, decodeSignedCursorPayload, encodeSessionCursor. rewrite decode_encoded; [|apply codec_hmac|apply cursor_plain].
  destruct (cursor_members base p) as (entries & -> & -> & -> & -> & -> & ->). cbn [is_json_string].
  rewrite normalized_query_json, !prints_as_refl, str_eqb_refl. by destruct p.
Qed.

End codecs.

(** ** Session pages *)

(** The same query with another cursor. *)
Definition at_cursor (cursor : option string) (q : ListSessionsPageQuery) : ListSessionsPageQuery :=
  mkListSessionsPageQuery (q_limit q) cursor (q_repositoryId q) (q_status q) (q_hostId q) (q_worktreeId q) (q_sort q)
    (q_concurrencyId q) (q_scheduleId q) (q_source q) (q_scope q).

(** A query that is accepted: its limit, and what its cursors are bound to. *)
Definition accepted (query : ListSessionsPageQuery) (limit : Z) (base : CursorBase) : Prop :=
  normalizeLimit (q_limit query) = Some limit /\ normalizeSort (q_sort query) = Some (cb_sort base) /\
  normalizeQuery query = Some (cb_query base) /\ normalizeScope (q_scope query) = cb_scope base.

(** Ids the collation tells apart from this one. *)
Definition id_apart {LC : LocaleCompare} (st : ControlPlaneState) (id : string) : Prop :=
  forall s, In s (JsMap.values (Plane.sessions st)) -> localeCompare (Session.id s) id = 0 -> Session.id s = id.

(** The pages a client receives one after the other, each from the state of its moment. *)
Inductive pages_seen {LC : LocaleCompare} {CC : CursorCodec} (query : ListSessionsPageQuery)
    : option string -> list (ControlPlaneState * list PublicSession) -> Prop :=
| seen_last st cursor page :
    listSessionsPage st (at_cursor cursor query) = Some page -> nextCursor page = None ->
    pages_seen query cursor [(st, items page)]
| seen_more st cursor page c rest :
    listSessionsPage st (at_cursor cursor query) = Some page -> nextCursor page = Some c ->
    pages_seen query (Some c) rest -> pages_seen query cursor ((st, items page) :: rest).

(** How often a session is shown. *)
Definition shown (id : string) (page : list PublicSession) : nat :=
  length (List.filter (fun p => str_eqb (Session.id (publicRecord p)) id) page).

Fixpoint times_shown (id : string) (seen : list (ControlPlaneState * list PublicSession)) : nat :=
  match seen with [] => 0%nat | (_, page) :: rest => (shown id page + times_shown id rest)%nat end.

Section sessions.
Context {LC : LocaleCompare} {LL : LocaleCompareLaws LC} {CC : CursorCodec} {CL : CursorCodecLaws CC}.
Context (query : ListSessionsPageQuery) (limit : Z) (base : CursorBase) (Hacc : accepted query limit base).

Notation cmp := (fun a b => comparePositions a b (cb_sort base)).
Notation public st := (fun s => toPublic st s false).

Definition cursor_of (p : CursorPosition) : string := encodeSessionCursor (cursor_json base p).

Lemma cursor_of_truthy p : truthy_opt (Some (cursor_of p)) = Some (cursor_of p).
Proof.
  unfold cursor_of, encodeSessionCursor. cbv zeta. set (v := cursor_json base p). destruct (codec_text v) as [Ht _]. unfold truthy_opt.
  rewrite (proj2 (truthy_true _)); [done|]. by destruct (cursor_text v).
Qed.

(** A page is cut from the rows past the position of its cursor. *)
Lemma session_page st after :
  listSessionsPage st (at_cursor (cursor_of <$> after) query) =
  Some (page_of (public st) (fun s => cursor_of (position_of s)) limit (beyond position_of cmp after (session_rows st base))).
Proof.
  destruct Hacc as (Hl & Hs & Hq & Hsc). unfold listSessionsPage.
  change (normalizeQuery (at_cursor (cursor_of <$> after) query)) with (normalizeQuery query).
  cbn [at_cursor q_limit q_sort q_scope q_cursor]. rewrite Hl, Hs, Hq, Hsc. cbn [mbind option_bind].
  assert (Eb : mkCursorBase (cb_sort base) (cb_query base) (cb_scope base) = base) by by destruct base. rewrite Eb.
  destruct after as [p|]; cbn [fmap option_fmap option_map]; [|done].
  rewrite cursor_of_truthy. unfold cursor_of at 1. rewrite session_cursor_roundtrip. done.
Qed.

Lemma limit_positive : 1 <= limit.
Proof. destruct Hacc as (Hl & _). unfold normalizeLimit in Hl. destruct (q_limit query); repeat case_match; simplify_eq; lia. Qed.

(** Rows compare equal only to themselves where ids are told apart. *)
Lemma rows_apart st s :
  filed st -> In s (session_rows st base) -> id_apart st (Session.id s) -> apart position_of cmp (session_rows st base) s.
Proof.
  intros Hf Hs Ha y Hy E. apply comparePositions_zero in E. cbn in E.
  eapply rows_by_id; [exact Hf|done|done|]. apply Ha; [|done]. by apply session_rows_In in Hy as [Hy _].
Qed.

Lemma NoDup_of_ids (l : list SessionRecord) : NoDup (map Session.id l) -> NoDup l.
Proof. apply NoDup_fmap_1. Qed.

(** [C23] Paging through the sessions ends and shows everything.  A client that follows
    [nextCursor] from the first page of an accepted query, over a list that does not change,
    needs no more requests than there are sessions plus one; it gets every session the query
    selects within its scope exactly once, in the order of the query's sort, on pages no longer
    than the limit.  Sessions are filed under their own ids, and the ids of the selected ones
    are told apart by the collation. *)
Theorem session_pages_complete st :
  filed st -> (forall s, In s (session_rows st base) -> id_apart st (Session.id s)) ->
  exists pages, follow (fun cursor => listSessionsPage st (at_cursor cursor query)) (length (JsMap.values (Plane.sessions st))) None = Some pages /\
    concat pages = map (public st) (session_rows st base) /\
    Forall (fun page => Z.of_nat (length page) <= limit) pages.
Proof.
  intros Hf Hap.
  assert (Hlen : (length (session_rows st base) <= length (JsMap.values (Plane.sessions st)))%nat).
  { unfold session_rows. rewrite (Permutation_length (toSorted_perm _ _)).
    etransitivity; [apply List.filter_length_le|apply List.filter_length_le]. }
  apply (follow_rest (public st) (fun s => cursor_of (position_of s)) limit limit_positive
    (fun cursor => listSessionsPage st (at_cursor cursor query)) (session_rows st base)) with (done := []); [|done|done].
  intros front rest Hrows.
  assert (E : (fun s => cursor_of (position_of s)) <$> last front = cursor_of <$> (position_of <$> last front)) by by destruct (last front).
  rewrite E, session_page. f_equal. f_equal. rewrite Hrows. apply beyond_prefix; [apply comparePositions_preorder| | |]; rewrite <- Hrows.
  - apply session_rows_sorted.
  - by apply NoDup_of_ids, session_rows_NoDup.
  - intros s Hs. apply rows_apart; auto.
Qed.

(** *** A list that changes *)

(** The session is there, selected, at the same position, and told apart. *)
Definition stays (id : string) (pos : CursorPosition) (st : ControlPlaneState) : Prop :=
  filed st /\ id_apart st id /\
  exists s, JsMap.get id (Plane.sessions st) = Some s /\ position_of s = pos /\ selected base s = true.

Definition past (pos : CursorPosition) (after : option CursorPosition) : bool :=
  match after with Some k => 0 <? comparePositions pos k (cb_sort base) | None => true end.

Lemma past_spec s after : past (position_of s) after = true <-> is_beyond position_of cmp after s.
Proof. destruct after; cbn; [apply Z.ltb_lt|done]. Qed.

(** A page shows a row once if it is there. *)
Lemma shown_rows st (page : list SessionRecord) id :
  NoDup (map Session.id page) ->
  shown id (map (public st) page) = if decide (id ∈ map Session.id page) then 1%nat else 0%nat.
Proof.
  unfold shown. induction page as [|x page IH]; intros Hn; [done|]. cbn [map List.filter].
  change (Session.id (publicRecord (toPublic st x false))) with (Session.id x).
  cbn [map] in Hn. apply NoDup_cons in Hn as [Hx Hn]. specialize (IH Hn). destruct (str_eqb (Session.id x) id) eqn:E.
  - apply str_eqb_true in E. subst id. cbn [length]. rewrite IH, decide_False by done. by rewrite decide_True by set_solver.
  - rewrite IH. assert (Session.id x <> id) by (intros Ex; by rewrite Ex, str_eqb_refl in E).
    repeat case_decide; set_solver.
Qed.

(** One page of the run: whether it shows the session, and where the next one starts. *)
Lemma session_on_page st after id pos page :
  stays id pos st -> listSessionsPage st (at_cursor (cursor_of <$> after) query) = Some page ->
  match nextCursor page with
  | None => shown id (items page) = if past pos after then 1%nat else 0%nat
  | Some c => exists next, c = cursor_of next /\
      (shown id (items page) + (if past pos (Some next) then 1 else 0) = if past pos after then 1 else 0)%nat
  end.
Proof.
  intros (Hf & Ha & s & G & <- & Hsel). rewrite session_page. intros [= <-].
  destruct (Hf) as [_ Hid]. pose proof (Hid _ _ G) as Ei. subst id.
  assert (Hin : In s (session_rows st base)) by (apply session_rows_In; split; [by eapply JsMap.get_In_values|done]).
  destruct (cut_page position_of cmp (comparePositions_preorder _) limit (session_rows st base) after s limit_positive
    (session_rows_sorted st base) Hin (rows_apart st s Hf Hin Ha)) as (C1 & C2 & C3 & C4).
  unfold page_of. cbn [items nextCursor].
  set (remaining := beyond position_of cmp after (session_rows st base)) in *. set (cut := take (Z.to_nat limit) remaining) in *.
  assert (Hsub : forall x, In x cut -> In x (session_rows st base)).
  { intros x Hx. assert (In x remaining) as Hr.
    { rewrite <- (take_drop (Z.to_nat limit) remaining). apply in_or_app. by left. }
    by apply beyond_In in Hr as [Hr _]. }
  assert (Hnd : NoDup (map Session.id cut)).
  { apply take_ids_NoDup. pose proof (session_rows_NoDup st base Hf) as Hn. unfold remaining.
    destruct after; [by apply filter_ids_NoDup|done]. }
  assert (Hi : Session.id s ∈ map Session.id cut <-> In s cut).
  { rewrite list_elem_of_In, in_map_iff. split; [|intros H; by exists s].
    intros (x & E & Hx). rewrite <- (rows_by_id st base x s Hf); auto. }
  rewrite (shown_rows st cut (Session.id s) Hnd). unfold page_last.
  rewrite <- !past_spec in C1, C2, C3, C4. setoid_rewrite <- past_spec in C2. setoid_rewrite <- past_spec in C3.
  setoid_rewrite <- past_spec in C4.
  destruct (decide (Session.id s ∈ map Session.id cut)) as [D|D]; rewrite Hi in D.
  - rewrite (C1 D). destruct (limit <? _); [|done]. destruct (last cut) as [y|]; [|done]. exists (position_of y).
    split; [done|]. specialize (C3 (C1 D) D y eq_refl). by rewrite (not_true_is_false _ C3).
  - destruct (past (position_of s) after) eqn:Ep.
    + destruct (C2 eq_refl D) as (-> & y & -> & Hy). cbn [fmap option_fmap option_map]. exists (position_of y). by rewrite Hy.
    + destruct (limit <? _); [|done]. destruct (last cut) as [y|]; [|done]. exists (position_of y). split; [done|].
      specialize (C4 ltac:(done) y eq_refl). by rewrite (not_true_is_false _ C4).
Qed.

Lemma seen_once id pos after seen :
  pages_seen query (cursor_of <$> after) seen -> (forall st page, In (st, page) seen -> stays id pos st) ->
  times_shown id seen = if past pos after then 1%nat else 0%nat.
Proof.
  remember (cursor_of <$> after) as cursor eqn:Ec. intros H. revert after Ec.
  induction H as [st cursor page Hp Hn|st cursor page c rest Hp Hn _ IH]; intros after -> Hst; cbn [times_shown].
  - pose proof (session_on_page st after id pos page) as Hone. rewrite Hn in Hone.
    rewrite Hone; [lia| |done]. apply (Hst st (items page)). by left.
  - pose proof (session_on_page st after id pos page) as Hone. rewrite Hn in Hone.
    destruct Hone as (next & -> & E); [apply (Hst st (items page)); by left|done|].
    specialize (IH (Some next) eq_refl). rewrite IH; [done|].
    intros st' page' Hin. apply (Hst st' page'). by right.
Qed.

(** [C22] Pages are stable.  While a client follows the cursors of an accepted query to the end,
    sessions may come, go, change and stop or start to match between its requests; a session
    that is there each time, matches each time and keeps its creation time and priority is
    shown exactly once, if the collation tells its id apart: none is skipped and none repeated. *)
Theorem session_pages_stable id pos seen :
  pages_seen query None seen -> (forall st page, In (st, page) seen -> stays id pos st) -> times_shown id seen = 1%nat.
Proof. intros H Hst. exact (seen_once id pos None seen H Hst). Qed.

End sessions.

(** ** Other pages *)

(** The keyset pages of the catalogs: every row is shown once, in the order of the keys. *)
Theorem key_pages_complete {A} {LC : LocaleCompare} {LL : LocaleCompareLaws LC} (rows : list A) (key : A -> string) limit :
  1 <= limit -> NoDup rows -> (forall a, In a rows -> key a <> "") ->
  (forall a b, In a rows -> In b rows -> localeCompare (key a) (key b) = 0 -> a = b) ->
  let sorted := toSorted (fun left right => localeCompare (key left) (key right)) rows in
  exists pages, follow (fun cursor => Some (pageByKey rows limit cursor key None)) (length sorted) None = Some pages /\
    concat pages = sorted /\ Forall (fun page => Z.of_nat (length page) <= limit) pages.
Proof.
  intros Hlim Hnd Hkey Hap sorted.
  assert (Hs : StronglySorted (fun a b => localeCompare (key a) (key b) <= 0) sorted).
  { apply toSorted_sorted. exact (tp_on _ key lc_preorder). }
  assert (Hin : forall a, In a sorted <-> In a rows) by (intros a; apply toSorted_In).
  destruct (follow_all (fun a => a) key limit Hlim (fun cursor => Some (pageByKey rows limit cursor key None)) sorted) as (pages & Hf & Hc & Hp).
  - intros front rest Hrows. f_equal. unfold pageByKey, page_of. cbn [opt_or]. fold sorted.
    assert (E : match truthy_opt (key <$> last front) with
                | Some c => List.filter (fun item => 0 <? localeCompare (key item) c) sorted
                | None => sorted
                end = rest); [|by rewrite E, map_id].
    assert (Et : truthy_opt (key <$> last front) = key <$> last front).
    { destruct (last front) as [x|] eqn:El; [|done]. cbn. rewrite (proj2 (truthy_true _)); [done|]. apply Hkey, Hin.
      apply last_split in El as [l' ->]. rewrite Hrows. apply in_or_app. left. apply in_or_app. right. by left. }
    rewrite Et. change (beyond key localeCompare (key <$> last front) sorted = rest). rewrite Hrows.
    apply beyond_prefix; [apply lc_preorder| | |]; rewrite <- Hrows; [done| |].
    + unfold sorted. by rewrite toSorted_perm.
    + intros x Hx y Hy. apply Hap; by apply Hin.
  - exists pages. by rewrite map_id in Hc.
Qed.

(** *** Repositories *)
Lemma compareRepositories_preorder :
  TotalPreorder (fun a b : string * string => cmp_or (code_compare a.1 b.1) (code_compare a.2 b.2)).
Proof.
  apply (tp_lex (fun a b : string * string => code_compare a.1 b.1) (fun a b : string * string => code_compare a.2 b.2));
    [apply (tp_on code_compare fst)|apply (tp_on code_compare snd)]; exact (@lc_preorder code_order _).
Qed.

(** [normalizeRepositoryRecords] keeps the id and the name. *)
Definition repository_key (r : RepositoryRecord) : string * string := (Repo.name r, Repo.id r).

Section repositories.
Context {LC : LocaleCompare} {CC : CursorCodec} {CL : CursorCodecLaws CC}.

Definition repository_rows (st : ControlPlaneState) (scope : option (list string)) : list RepositoryRecord :=
  toSorted compareRepositories
    (List.filter (fun r => match normalizeRepositoryIds scope with Some ids => existsb (str_eqb (Repo.id r)) ids | None => true end)
      (listRepositories st)).

Lemma repository_cursor_roundtrip digest name id :
  decodeRepositoryCursor (encodeRepositoryCursor (repository_cursor_json digest name id)) digest = Some (at_position name id).
Proof.
  unfold decodeRepositoryCursor, encodeRepositoryCursor.
  rewrite decode_encoded; [|intros p; apply codec_hmac|by destruct digest].
  assert (H : exists entries, repository_cursor_json digest name id = JObject entries /\
    JsMap.get "version" entries = Some (JNumber 1) /\ JsMap.get "domain" entries = Some (JString "repositories") /\
    JsMap.get "scope" entries = Some (repository_scope_json digest) /\
    JsMap.get "position" entries = Some (JObject [("name", JString name); ("id", JString id)]) /\
    JsMap.get "storageKey" entries = None) by (eexists; repeat split).
  destruct H as (entries & -> & -> & -> & -> & -> & ->). by rewrite prints_as_refl.
Qed.

Lemma repository_cursor_truthy digest name id (c := encodeRepositoryCursor (repository_cursor_json digest name id)) :
  truthy_opt (Some c) = Some c.
Proof.
  subst c. unfold encodeRepositoryCursor. cbv zeta. set (v := repository_cursor_json digest name id).
  destruct (codec_text v) as [Ht _]. unfold truthy_opt. rewrite (proj2 (truthy_true _)); [done|]. by destruct (cursor_text v).
Qed.

(** The pages of the repositories a principal may see. *)
Theorem repository_pages_complete st limit n scope :
  normalizeRepositoryLimit limit = Some n -> NoDup (map Repo.id (repository_rows st scope)) ->
  exists pages, follow (fun cursor => listRepositoriesPage st limit cursor scope) (length (repository_rows st scope)) None = Some pages /\
    concat pages = repository_rows st scope /\ Forall (fun page => Z.of_nat (length page) <= n) pages.
Proof.
  intros Hl Hnd. set (rows := repository_rows st scope) in *.
  assert (Hn : 1 <= n) by (unfold normalizeRepositoryLimit in Hl; destruct limit; repeat case_match; simplify_eq; lia).
  set (cmp := fun a b : string * string => cmp_or (code_compare a.1 b.1) (code_compare a.2 b.2)).
  assert (Hs : StronglySorted (fun a b => cmp (repository_key a) (repository_key b) <= 0) rows).
  { apply (toSorted_sorted compareRepositories). exact (tp_on _ repository_key compareRepositories_preorder). }
  set (code := fun r => encodeRepositoryCursor (repository_cursor_json (normalizeRepositoryScope scope) (Repo.name r) (Repo.id r))).
  destruct (follow_all (fun r => r) code n Hn (fun cursor => listRepositoriesPage st limit cursor scope) rows) as (pages & Hf & Hc & Hp).
  - intros front rest Hrows. unfold listRepositoriesPage. rewrite Hl. cbn [mbind option_bind]. fold (repository_rows st scope). fold rows.
    assert (E : beyond repository_key cmp (repository_key <$> last front) rows = rest).
    { rewrite Hrows. apply beyond_prefix; [apply compareRepositories_preorder| | |]; rewrite <- Hrows; [done| |].
      - by apply (NoDup_fmap_1 Repo.id).
      - intros x Hx y Hy Hz. unfold cmp, cmp_or, repository_key in Hz. cbn [fst snd] in Hz.
        assert (Ei : Repo.id y = Repo.id x).
        { apply code_compare_eq. destruct (Z.eqb_spec (code_compare (Repo.name y) (Repo.name x)) 0); [done|]. lia. }
        clear -Hnd Hx Hy Ei. induction rows as [|z l IH]; [done|]. cbn in Hnd. apply NoDup_cons in Hnd as [Hz Hn].
        rewrite list_elem_of_In, in_map_iff in Hz. destruct Hx as [->|Hx], Hy as [->|Hy]; auto; exfalso; apply Hz; eauto. }
    destruct (last front) as [x|] eqn:El; cbn [fmap option_fmap option_map].
    + unfold code at 1. rewrite repository_cursor_truthy, repository_cursor_roundtrip. cbn [mbind option_bind].
      unfold page_of. change (List.filter _ rows) with (beyond repository_key cmp (Some (repository_key x)) rows).
      cbn [fmap option_fmap option_map] in E. by rewrite E, map_id.
    + cbn [mbind option_bind truthy_opt]. cbn [fmap option_fmap option_map beyond] in E. unfold page_of. by rewrite E, map_id.
  - exists pages. by rewrite map_id in Hc.
Qed.

End repositories.

(** ** Examples *)

(** A codec for small examples: a value as a tree of its constructors, printed in binary. *)
Fixpoint json_tree (v : json) : gen_tree (bool + Z + string) :=
  match v with
  | JNull => GenNode 0 []
  | JBool b => GenNode 1 [GenLeaf (inl (inl b))]
  | JNumber z => GenNode 2 [GenLeaf (inl (inr z))]
  | JString s => GenNode 3 [GenLeaf (inr s)]
  | JArray items => GenNode 4 (map json_tree items)
  | JObject entries => GenNode 5 (map (fun e => GenNode 6 [GenLeaf (inr e.1); json_tree e.2]) entries)
  end.

Fixpoint tree_json (t : gen_tree (bool + Z + string)) : json :=
  match t with
  | GenNode 1 [GenLeaf (inl (inl b))] => JBool b
  | GenNode 2 [GenLeaf (inl (inr z))] => JNumber z
  | GenNode 3 [GenLeaf (inr s)] => JString s
  | GenNode 4 items => JArray (map tree_json items)
  | GenNode 5 entries =>
      JObject (map (fun e => match e with GenNode _ [GenLeaf (inr k); v] => (k, tree_json v) | _ => ("", JNull) end) entries)
  | _ => JNull
  end.

Fixpoint tree_json_tree (v : json) : tree_json (json_tree v) = v.
Proof.
  destruct v as [| | | |items|entries]; try reflexivity; cbn [json_tree tree_json]; f_equal; rewrite map_map.
  - induction items as [|x items IH]; [reflexivity|]. cbn [map]. f_equal; [apply tree_json_tree|exact IH].
  - induction entries as [|[k x] entries IH]; [reflexivity|]. cbn [map fst snd]. f_equal; [f_equal; apply tree_json_tree|exact IH].
Qed.

Fixpoint bits_text (p : positive) : string :=
  match p with xH => "1" | xO q => String "0" (bits_text q) | xI q => String "1" (bits_text q) end.

Fixpoint text_bits (s : string) : option positive :=
  match s with
  | String "1" "" => Some xH
  | String "0" s' => xO <$> text_bits s'
  | String "1" s' => xI <$> text_bits s'
  | _ => None
  end.

Lemma text_bits_text p : text_bits (bits_text p) = Some p.
Proof.
  induction p as [p IH|p IH|]; [| |reflexivity]; cbn [bits_text text_bits]; rewrite IH; [|reflexivity].
  by destruct p.
Qed.

Lemma bits_text_part p : part_ok (bits_text p).
Proof. split; [by destruct p|]. by induction p. Qed.

Definition binary_codec : CursorCodec := {|
  cursor_hmac := fun text => "sig";
  cursor_text := fun v => bits_text (encode (json_tree v));
  cursor_value := fun text => p ← text_bits text; tree_json <$> decode p;
  base64url_bytes := fun text => text;
  cursor_digest := fun text => "digest" |}.

Lemma binary_codec_laws : CursorCodecLaws binary_codec.
Proof.
  split; cbn [binary_codec cursor_value cursor_text cursor_hmac].
  - intros v _. rewrite text_bits_text. cbn [mbind option_bind]. rewrite decode_encode. cbn. by rewrite tree_json_tree.
  - intros v. apply bits_text_part.
  - done.
Qed.

(** Three sessions, one a page, the oldest first; between the first request and the second one
    session leaves and another comes. *)
Definition paged_query : ListSessionsPageQuery :=
  mkListSessionsPageQuery (Some 1) None None (Some "queued") None None (Some "oldest") None None None None.

Definition paged_base : CursorBase :=
  mkCursorBase oldest (mkCursorQuery None (Some "queued") None None None None None) (mkCursorScope None None).

Definition paged_state (sessions : JsMap.t SessionRecord) : ControlPlaneState := empty_catalog <| Plane.sessions := sessions |>.

Definition paged_before : ControlPlaneState :=
  paged_state [("s1", example_session "s1" 0 0 "2026-01-01T00:00:02.000Z");
               ("s2", example_session "s2" 0 0 "2026-01-01T00:00:01.000Z");
               ("s3", example_session "s3" 0 0 "2026-01-01T00:00:01.000Z")].

Definition paged_after : ControlPlaneState :=
  paged_state [("s1", example_session "s1" 0 0 "2026-01-01T00:00:02.000Z");
               ("s3", example_session "s3" 0 0 "2026-01-01T00:00:01.000Z");
               ("s4", example_session "s4" 0 0 "2026-01-01T00:00:00.000Z")].

Definition paged_at (st : ControlPlaneState) (cursor : option string) : ListPage PublicSession :=
  default (mkListPage [] None) (listSessionsPage (LC := code_order) (CC := binary_codec) st (at_cursor cursor paged_query)).

Lemma paged_accepted : accepted paged_query 1 paged_base.
Proof. by repeat split. Qed.

(** Sessions with these ids are filed and told apart. *)
Lemma paged_filed sessions :
  bool_decide (NoDup (map fst sessions)) = true -> forallb (fun e => str_eqb (Session.id e.2) e.1) sessions = true ->
  filed (paged_state sessions).
Proof.
  intros Hn Hid. split; [by apply bool_decide_eq_true in Hn|]. intros k s G. apply JsMap.get_In in G.
  rewrite forallb_forall in Hid. by apply (Hid _), str_eqb_true in G.
Qed.

(** The collation of code points tells all ids apart. *)
Lemma code_order_apart st id : id_apart (LC := code_order) st id.
Proof. intros s _ E. by apply code_compare_eq in E. Qed.

Lemma session_pages_complete_witness :
  exists pages, follow (fun cursor => listSessionsPage (LC := code_order) (CC := binary_codec) paged_before (at_cursor cursor paged_query))
      3 None = Some pages /\
    map (map (fun p => Session.id (publicRecord p))) pages = [["s2"]; ["s3"]; ["s1"]].
Proof.
  destruct (session_pages_complete (LC := code_order) (CC := binary_codec) (CL := binary_codec_laws) paged_query 1 paged_base
    paged_accepted paged_before) as (pages & Hf & _ & _).
  - by apply paged_filed.
  - intros s _. apply code_order_apart.
  - exists pages. split; [exact Hf|].
    assert (E : option_map (map (map (fun p => Session.id (publicRecord p)))) (Some pages) = Some [["s2"]; ["s3"]; ["s1"]]).
    { rewrite <- Hf. vm_compute. reflexivity. }
    by injection E.
Defined.

(** The pages of such a run. *)
Definition paged_first : ListPage PublicSession := Eval vm_compute in paged_at paged_before None.
Definition paged_second : ListPage PublicSession := Eval vm_compute in paged_at paged_after (nextCursor paged_first).
Definition paged_third : ListPage PublicSession := Eval vm_compute in paged_at paged_after (nextCursor paged_second).

Definition paged_run : list (ControlPlaneState * list PublicSession) :=
  [(paged_before, items paged_first); (paged_after, items paged_second); (paged_after, items paged_third)].

Lemma paged_run_seen : pages_seen (LC := code_order) (CC := binary_codec) paged_query None paged_run.
Proof.
  refine (seen_more (LC := code_order) (CC := binary_codec) paged_query paged_before None paged_first
    (default "" (nextCursor paged_first)) _ _ _ _); [vm_compute; reflexivity|vm_compute; reflexivity|].
  refine (seen_more (LC := code_order) (CC := binary_codec) paged_query paged_after (Some (default "" (nextCursor paged_first))) paged_second
    (default "" (nextCursor paged_second)) _ _ _ _); [vm_compute; reflexivity|vm_compute; reflexivity|].
  refine (seen_last (LC := code_order) (CC := binary_codec) paged_query paged_after (Some (default "" (nextCursor paged_second))) paged_third _ _);
    vm_compute; reflexivity.
Qed.

Lemma session_pages_stable_witness : times_shown "s3" paged_run = 1%nat.
Proof.
  apply (session_pages_stable (LC := code_order) (CC := binary_codec) (CL := binary_codec_laws) paged_query 1 paged_base
    paged_accepted "s3" (mkCursorPosition "2026-01-01T00:00:01.000Z" "s3" 0)).
  - exact paged_run_seen.
  - intros st page Hin.
    assert (Hst : st = paged_before \/ st = paged_after).
    { destruct Hin as [E|[E|[E|[]]]]; apply (f_equal fst) in E; cbn [fst] in E; auto. }
    destruct Hst as [-> | ->]; (split; [by apply paged_filed|]); (split; [apply code_order_apart|]);
      exists (example_session "s3" 0 0 "2026-01-01T00:00:01.000Z"); by repeat split.
Defined.
